(* ===== verification/_CoqProject ===== *)
-Q . S2P
Prelude.v
ListLib.v
Containers.v
MathLib.v
StringLib.v
Bitmap.v
Buddy.v
Slab.v
PageAlloc.v
Riscv.v
Vm.v
Spinlock.v
Semaphore.v
ObjCache.v
Bio.v
LLDisk.v
Blk.v
BlockDev.v
Devs.v
Layout.v
Efs.v
EfsFile.v
EfsInode.v
Dentry.v
Path.v
Dirs.v
Sched.v
Proc.v
Work.v
Timer.v
File.v
Virtio.v
Mkfs.v
Mount.v
Console.v
Syscall.v
Trap.v
Switch.v
