(* ===== verification/Prelude.v ===== *)
(** A verification library of riscv-lab, a small RISC-V kernel in C.

    * The program and its parts

    The kernel boots on a RISC-V machine, maps itself, manages physical pages and
    objects, schedules threads, and keeps a file system (easyfs) on a block
    device through a buffer cache.  A file operation runs through most of it:

      dentry.c -> inode.c -> super.c (bitmaps) -> blk_dev.c -> gendisk.c (request
      queue, I/O thread) -> buf.c (cache) -> driver,

    with pages from mm.c, objects from slab.c, lists from list.h, tables from
    hash.h, and locks from spinlock.c, semaphore.c and mutex.c underneath.

    * How C is modelled

    A C function is a computation of the monad [M S] below: a function of the
    state [S] that returns ([Done]), panics, faults (undefined behaviour: a NULL or
    wild pointer, an index out of range), blocks on a semaphore, or runs out of
    fuel.  Integers are [Z] with the wrap-around of their C type written out
    ([u8] ... [u64], [i32], module [Int]).  An object is an entry of a finite map
    from addresses, so that pointers can be shared; list nodes live in a heap
    of their own, named after the member that embeds them.  A component of a larger
    state is run with [zoom].  Spinlocks are a set of held locks in sequential
    code: taking a held lock panics, as it does in the code; the protocol inside
    spin_lock itself is the subject of Spinlock.v.  Loops that are not structural
    carry fuel; every theorem is about the fuel the definition itself supplies, and
    says that the call returns.

    * Files

    - Prelude.v: integers, the monad and its [wp], locks, list slices, tactics.
    - ListLib.v (include/lib/list.h): circular doubly linked lists; [dll h hd xs]
      says the nodes from [hd] on are [xs]; a family [fam h σ] is a set of disjoint
      lists, the invariant every client uses.
    - Containers.v (fifo.h, hash.h, hash.c, lru.c).
    - MathLib.v, StringLib.v, Bitmap.v (lib/math.c, lib/string.c, lib/bitmap.c).
    - Buddy.v (mm/mm.c, mm/page.c), Slab.v (mm/slab.c, mm/kmalloc.c); PageAlloc.v
      and ObjCache.v state what the two allocators promise as type classes, with
      the buddy allocator and a plain stock as instances.
    - Vm.v (kernel/vm.c): Sv39 tables over [PageAlloc].
    - Spinlock.v, Semaphore.v (lib/spinlock.c, semaphore.c, mutex.c, sleeplock.c):
      interleaved steps of CPUs and threads.
    - Bio.v, LLDisk.v, Blk.v (kernel/dev/blk/, drive/blk/mvir_blk.c): the block
      layer over a driver class; BlockDev.v states what the layer promises to a
      file system, with the layer and a RAM disk as instances.
    - Layout.v, Efs.v, Dentry.v, Path.v (fs/easyfs/): disk layout and operations;
      EfsFile.v, EfsInode.v, Dirs.v: their theorems.
    - Devs.v (kernel/dev/devs.c, register_block, gendisk_init): the registry of
      devices, over the disks of Blk.
    - Mkfs.v (tools/mkfs.c): the image the host tool writes; Mount.v mounts it with
      the kernel's code.
    - Sched.v (kernel/sched.c and the switching half of kernel/proc.c): all CPUs as
      one machine, [step c l s s']; Proc.v (the allocating half of proc.c):
      functions, tied to that machine by a refinement.
    - Work.v, Timer.v, File.v (kernel/work.c, timer.c, file.c).
    - Virtio.v (drive/virtio/virtio_disk.c): the rings as the driver and the device
      share them; what the device does is an input.
    - Console.v (drive/uart.c, lib/print.c, kernel/dev/char/console.c): the register
      log of the UART and formatted output.
    - Riscv.v (include/riscv.h, boot/start.c): the control registers of a hart as a
      register file, reached through the class [HasHart].
    - Syscall.v (kernel/trap/syscall.c, sysfile.c, temp.c); Trap.v (kernel/trap/trap.c,
      drive/plic.c): one CPU's machine, whose interrupt handlers are those of
      Console, Virtio and Timer.

    * Theorems

    - Containers refine lists and finite maps; bitmaps refine a set of numbers
      from which the least is taken; string functions have their footprint.
    - Allocators: what is handed out was free, the free lists stay well formed, and
      the leaks of the page counts are theorems too.
    - Locks: mutual exclusion and interrupt nesting in every reachable state; no
      wake-up is lost.
    - Block layer: [view] is the contents the device shows; blk_read returns it,
      blk_write changes exactly the bytes written, a flush round makes the disk
      equal to it.
    - easyfs: reads return what was written ([fbyte]), other files keep their
      bytes, inodes survive the way to the disk and back, the inode cache holds one
      object per number, creating a file keeps the invariant [tree_ok] of
      everything in memory, and path names resolve component by component.
    - mkfs writes a superblock whose areas are consecutive, disjoint and within the
      image; mounting that image establishes the invariants of easyfs, with free
      counts that are wrong by stated amounts.
    - Devices: a registered device has the next number, its name, size and
      functions, and a disk that satisfies the block layer's [dev_ok].
    - Scheduler: in every reachable state of the CPUs no thread runs twice or is
      listed while it runs, some CPU can move, and a listed thread is dispatched
      within a bounded number of dispatches; kthread_create is a run of the machine.
    - Work queues hand out work once and in order; timers refine a list of
      deadlines and a sleeping thread is woken.  Files: what is written is read
      back after a seek.
    - virtio: a request appears in the rings as its caller meant it and every
      descriptor is free again; the interrupt handler ends whatever the rings hold.
    - Console: printk sends what a reference renderer of format and arguments says;
      uart_putc is a bounded queue.
    - Traps: a system call runs the call of its number on the saved registers and
      comes back behind its ecall; an interrupt gives a thread its registers and
      address space back; a trap in the kernel restores sepc and sstatus.

    Where the code does not do what it means to, the theorem says what it does.

    * Fuel

    List walks use the number of nodes of the heap, which a list in it cannot
    exceed ([length_dll]); string loops the number of mapped bytes; the read and
    write loops of easyfs the number of blocks a range can touch ([io_fuel]); the
    flush and sync loops the number of objects; path walks the buffer's length;
    free_chain the number of descriptors and one; the virtio interrupt handler 2^16,
    the width of the ring index; number printing LONG_DIGITS; uart_start the size of
    its buffer and one.

    * Not modelled

    - Assembly (the boot entry, the trap vectors, swtch, userret) and the MMU: the
      saved and restored registers are records, translation is in Vm only.
    - main and init_thread, which only call the initialisations in order;
      user_init, which loads an embedded program.
    - What panic and assert print before they stop: they are the outcome [Panic].
    - The stubs of vm.c behind the VMA fault handlers, and lib/rbtree.c, which has no
      operation.  The functions behind the system calls are stubs in the source
      and a record of operations here.
    - hash_free, and the debug printers; what a listing function prints is its
      result where the model has it. *)
From Stdlib Require Export ZArith Lia.
From stdpp Require Export base strings numbers gmap list.

#[global] Open Scope Z_scope.
#[global] Set Default Goal Selector "!".

(** * Machine integers

    Values of the C integer types are kept as [Z]; the conversions below are
    the wrap-around the language performs on assignment. *)
Module Int.

Definition u8 (x : Z) : Z := x mod 2 ^ 8.
Definition u16 (x : Z) : Z := x mod 2 ^ 16.
Definition u32 (x : Z) : Z := x mod 2 ^ 32.
Definition u64 (x : Z) : Z := x mod 2 ^ 64.

(** Conversion to a 32-bit [int] (two's complement, as gcc defines it). *)
Definition i32 (x : Z) : Z := (x + 2 ^ 31) mod 2 ^ 32 - 2 ^ 31.

Definition is_u32 (x : Z) : Prop := 0 <= x < 2 ^ 32.
Definition is_u64 (x : Z) : Prop := 0 <= x < 2 ^ 64.
Definition is_i32 (x : Z) : Prop := - 2 ^ 31 <= x < 2 ^ 31.

Lemma u16_small x : 0 <= x < 2 ^ 16 → u16 x = x.
Proof. apply Z.mod_small. Qed.

Lemma u32_small x : 0 <= x < 2 ^ 32 → u32 x = x.
Proof. apply Z.mod_small. Qed.

Lemma u64_small x : 0 <= x < 2 ^ 64 → u64 x = x.
Proof. apply Z.mod_small. Qed.

Lemma i32_small x : - 2 ^ 31 <= x < 2 ^ 31 → i32 x = x.
Proof. intros. unfold i32. rewrite Z.mod_small; lia. Qed.

Lemma u8_range x : 0 <= u8 x < 2 ^ 8.
Proof. apply Z.mod_pos_bound. lia. Qed.

Lemma u32_range x : 0 <= u32 x < 2 ^ 32.
Proof. apply Z.mod_pos_bound. lia. Qed.

Lemma u64_range x : 0 <= u64 x < 2 ^ 64.
Proof. apply Z.mod_pos_bound. lia. Qed.

End Int.
Export Int.

Create HintDb int_db.
#[export] Hint Rewrite u16_small u32_small u64_small i32_small using lia : int_db.

(** * The kernel monad

    A call of a kernel function either returns ([Done]), stops the machine
    through [panic]/[assert] ([Panic]), goes through a pointer or an index
    that designates no object of the model ([Fault]: undefined behaviour in
    C), puts the calling thread to sleep on a semaphore that nobody signals
    during the call ([Blocked]), or exhausts the fuel of a loop
    ([OutOfFuel], which the theorems exclude). *)
Inductive outcome (S A : Type) : Type :=
| Done (a : A) (s : S)
| Panic
| Fault
| Blocked
| OutOfFuel.
Arguments Done {S A} a s.
Arguments Panic {S A}.
Arguments Fault {S A}.
Arguments Blocked {S A}.
Arguments OutOfFuel {S A}.

Definition M (S A : Type) : Type := S → outcome S A.

#[global] Instance M_ret {S} : MRet (M S) := λ A a s, Done a s.
#[global] Instance M_bind {S} : MBind (M S) := λ A B k m s,
  match m s with
  | Done a s' => k a s'
  | Panic => Panic
  | Fault => Fault
  | Blocked => Blocked
  | OutOfFuel => OutOfFuel
  end.

Definition panic {S A} : M S A := λ _, Panic.
Definition fault {S A} : M S A := λ _, Fault.
Definition out_of_fuel {S A} : M S A := λ _, OutOfFuel.
Definition get {S} : M S S := λ s, Done s s.
Definition gets {S A} (f : S → A) : M S A := λ s, Done (f s) s.
Definition modify {S} (f : S → S) : M S unit := λ s, Done tt (f s).
(** [assert(c, ...)] of lib/print.c: panics unless the condition holds. *)
Definition assert_ {S} (b : bool) : M S unit := if b then mret tt else panic.
(** A partial read: [None] is an access outside the model's objects. *)
Definition deref {S A} (f : S → option A) : M S A := λ s,
  match f s with Some a => Done a s | None => Fault end.
(** A partial state update, [None] again being a faulting access. *)
Definition update {S} (f : S → option S) : M S unit := λ s,
  match f s with Some s' => Done tt s' | None => Fault end.
(** A partial update with a result. *)
Definition update_ret {S A} (f : S → option (A * S)) : M S A := λ s,
  match f s with Some (a, s') => Done a s' | None => Fault end.

(** Running a component's operation inside a larger state. *)
Definition zoom {S T A} (rd : S → T) (wr : T → S → S) (m : M T A) : M S A := λ s,
  match m (rd s) with
  | Done a t => Done a (wr t s)
  | Panic => Panic
  | Fault => Fault
  | Blocked => Blocked
  | OutOfFuel => OutOfFuel
  end.

(** ** Total and partial correctness

    [wp m Q s]: started in [s], [m] returns and the result satisfies [Q].
    [wlp m Q s]: whenever [m] returns, the result satisfies [Q]. *)
Definition wp {S A} (m : M S A) (Q : A → S → Prop) (s : S) : Prop :=
  match m s with Done a s' => Q a s' | _ => False end.
Definition wlp {S A} (m : M S A) (Q : A → S → Prop) (s : S) : Prop :=
  match m s with Done a s' => Q a s' | _ => True end.

Section wp_rules.
Context {S : Type}.

Lemma wp_ret {A} (a : A) (Q : A → S → Prop) s : Q a s → wp (mret a) Q s.
Proof. done. Qed.

Lemma wp_bind {A B} (m : M S A) (k : A → M S B) Q s :
  wp m (λ a s', wp (k a) Q s') s → wp (m ≫= k) Q s.
Proof. unfold wp, mbind, M_bind. by destruct (m s). Qed.

Lemma wp_mono {A} (m : M S A) (P Q : A → S → Prop) s :
  wp m P s → (∀ a s', P a s' → Q a s') → wp m Q s.
Proof. unfold wp. destruct (m s); naive_solver. Qed.

Lemma wp_Done {A} (m : M S A) Q s a s' : m s = Done a s' → Q a s' → wp m Q s.
Proof. unfold wp. by intros ->. Qed.

Lemma wp_inv {A} (m : M S A) Q s :
  wp m Q s → ∃ a s', m s = Done a s' ∧ Q a s'.
Proof. unfold wp. destruct (m s); naive_solver. Qed.

Lemma wp_gets {A} (f : S → A) Q s : Q (f s) s → wp (gets f) Q s.
Proof. done. Qed.

Lemma wp_modify f Q (s : S) : Q tt (f s) → wp (modify f) Q s.
Proof. done. Qed.

Lemma wp_deref {A} (f : S → option A) a Q s :
  f s = Some a → Q a s → wp (deref f) Q s.
Proof. unfold wp, deref. by intros ->. Qed.

Lemma wp_update f Q (s s' : S) :
  f s = Some s' → Q tt s' → wp (update f) Q s.
Proof. unfold wp, update. by intros ->. Qed.

Lemma wp_assert b Q (s : S) : b = true → Q tt s → wp (assert_ b) Q s.
Proof. by intros ->. Qed.

Lemma bind_Done {A B} (m : M S A) (k : A → M S B) s a s' :
  m s = Done a s' → (m ≫= k) s = k a s'.
Proof. unfold mbind, M_bind. by intros ->. Qed.

Lemma bind_ext {A B} (m m' : M S A) (k k' : A → M S B) s :
  m s = m' s → (∀ a s, k a s = k' a s) → (m ≫= k) s = (m' ≫= k') s.
Proof. intros E Ek. unfold mbind, M_bind. rewrite E. by destruct (m' s). Qed.

(** The first two steps of three. *)
Lemma bind_two {A B D} (m : M S A) (k : M S B) (r : B → M S D) s b s' :
  (m ≫= λ _, k) s = Done b s' → (m ≫= λ _, k ≫= r) s = r b s'.
Proof. unfold mbind, M_bind. destruct (m s) as [a s1| | | |]; [|done..]. by intros ->. Qed.

Lemma bind_inv {A B} (m : M S A) (k : A → M S B) s b s'' :
  (m ≫= k) s = Done b s'' → ∃ a s', m s = Done a s' ∧ k a s' = Done b s''.
Proof. unfold mbind, M_bind. destruct (m s); naive_solver. Qed.

Lemma wlp_bind {A B} (m : M S A) (k : A → M S B) Q s :
  wlp m (λ a s', wlp (k a) Q s') s → wlp (m ≫= k) Q s.
Proof. unfold wlp, mbind, M_bind. by destruct (m s). Qed.

Lemma wp_wlp {A} (m : M S A) Q s : wp m Q s → wlp m Q s.
Proof. unfold wp, wlp. by destruct (m s). Qed.

End wp_rules.

(** * Locks seen by one running thread

    A sequential model of a kernel function carries the set of spinlocks its
    CPU holds.  [spin_lock] on a lock the CPU already holds and [spin_unlock]
    on one it does not hold panic, as in lib/spinlock.c. *)
Definition lockid : Type := string * Z.

Class HasLocks (S : Type) := {
  locks : S → gset lockid;
  set_locks : gset lockid → S → S;
}.

Definition spin_lock {S} `{HasLocks S} (l : lockid) : M S unit := λ s,
  if decide (l ∈ locks s) then Panic else Done tt (set_locks ({[l]} ∪ locks s) s).
Definition spin_unlock {S} `{HasLocks S} (l : lockid) : M S unit := λ s,
  if decide (l ∈ locks s) then Done tt (set_locks (locks s ∖ {[l]}) s) else Panic.

Lemma lock_unlock_locks (L : gset lockid) l :
  l ∉ L → ({[l]} ∪ L) ∖ {[l]} = L.
Proof. set_solver. Qed.

(** * Automation *)

(** One step of symbolic execution of a [wp] goal. *)
Ltac wp_step :=
  lazymatch goal with
  | |- wp (_ ≫= _) _ _ => apply wp_bind
  | |- wp (mret _) _ _ => apply wp_ret
  | |- wp (gets _) _ _ => apply wp_gets
  | |- wp (modify _) _ _ => apply wp_modify
  | |- wp (assert_ _) _ _ => apply wp_assert
  end; cbv beta.
Ltac wp_steps := repeat wp_step.

(** Destruct every conjunction and existential of the context. *)
Ltac deex :=
  repeat match goal with
  | H : ∃ _, _ |- _ => destruct H
  | H : _ ∧ _ |- _ => destruct H
  end.

(** Turn boolean comparisons of [Z] in hypotheses and goal into propositions. *)
Ltac zbool :=
  repeat match goal with
  | H : (_ =? _) = true |- _ => apply Z.eqb_eq in H
  | H : (_ =? _) = false |- _ => apply Z.eqb_neq in H
  | H : (_ <? _) = true |- _ => apply Z.ltb_lt in H
  | H : (_ <? _) = false |- _ => apply Z.ltb_ge in H
  | H : (_ <=? _) = true |- _ => apply Z.leb_le in H
  | H : (_ <=? _) = false |- _ => apply Z.leb_gt in H
  end.
(** Case analysis on the [if] over a comparison that blocks the goal. *)
Ltac zcase :=
  match goal with
  | |- context [if ?b then _ else _] =>
      match type of b with bool => destruct b eqn:?; zbool end
  end.

(** * Bytes and pages *)

(** Overwrite [data] at offset [off] of a byte buffer; [None] when the range
    leaves the buffer ([memcpy] past the end of an object). *)
Definition splice {A} (off : nat) (data buf : list A) : option (list A) :=
  if (off + length data <=? length buf)%nat
  then Some (take off buf ++ data ++ drop (off + length data) buf) else None.

(** The [len] bytes at offset [off], [None] outside the buffer. *)
Definition slice {A} (off len : nat) (buf : list A) : option (list A) :=
  if (off + len <=? length buf)%nat then Some (take len (drop off buf)) else None.

Section splice_lemmas.
Context {A : Type}.
Implicit Types (buf data : list A).

Lemma splice_ok off data buf :
  (off + length data <= length buf)%nat →
  splice off data buf = Some (take off buf ++ data ++ drop (off + length data) buf).
Proof. intros H. unfold splice. by apply Nat.leb_le in H as ->. Qed.

Lemma slice_ok off len buf :
  (off + len <= length buf)%nat → slice off len buf = Some (take len (drop off buf)).
Proof. intros H. unfold slice. by apply Nat.leb_le in H as ->. Qed.

Lemma splice_Some off data buf buf' :
  splice off data buf = Some buf' →
  (off + length data <= length buf)%nat ∧
  buf' = take off buf ++ data ++ drop (off + length data) buf.
Proof.
  unfold splice. case_match eqn:E; [|done]. apply Nat.leb_le in E. naive_solver.
Qed.

Lemma splice_length off data buf buf' :
  splice off data buf = Some buf' → length buf' = length buf.
Proof.
  intros [? ->]%splice_Some. rewrite !length_app, length_take, length_drop. lia.
Qed.

Lemma splice_lookup off data buf buf' (i : nat) :
  splice off data buf = Some buf' →
  buf' !! i = if decide (off <= i < off + length data)%nat
              then data !! (i - off)%nat else buf !! i.
Proof.
  intros [Hl ->]%splice_Some.
  assert (Ht : length (take off buf) = off) by (rewrite length_take; lia).
  case_decide as Hi.
  - rewrite lookup_app_r by lia. rewrite Ht. rewrite lookup_app_l by lia. done.
  - destruct (decide (i < off)%nat).
    + rewrite lookup_app_l by lia. by rewrite lookup_take_lt by lia.
    + rewrite lookup_app_r by lia. rewrite Ht. rewrite lookup_app_r by lia.
      rewrite lookup_drop. f_equal. lia.
Qed.

Lemma slice_length off len buf d : slice off len buf = Some d → length d = len.
Proof.
  unfold slice. case_match eqn:E; [|done]. apply Nat.leb_le in E.
  intros [= <-]. rewrite length_take, length_drop. lia.
Qed.

Lemma slice_lookup off len buf d (i : nat) :
  slice off len buf = Some d → (i < len)%nat → d !! i = buf !! (off + i)%nat.
Proof.
  unfold slice. case_match eqn:E; [|done]. intros [= <-] Hi.
  by rewrite lookup_take_lt, lookup_drop by lia.
Qed.

(** Reading back what was spliced in. *)
Lemma slice_splice off data buf buf' :
  splice off data buf = Some buf' → slice off (length data) buf' = Some data.
Proof.
  intros H. pose proof (splice_length _ _ _ _ H) as Hlen.
  destruct (splice_Some _ _ _ _ H) as [Hl _].
  rewrite slice_ok by lia. f_equal. apply list_eq. intros i.
  destruct (decide (i < length data)%nat).
  - rewrite lookup_take_lt, lookup_drop by lia. rewrite (splice_lookup _ _ _ _ _ H).
    rewrite decide_True by lia. f_equal. lia.
  - rewrite lookup_take_ge by lia. symmetry. apply lookup_ge_None. lia.
Qed.

End splice_lemmas.

Create HintDb splice_db.
#[export] Hint Resolve splice_length slice_length : splice_db.

(** C's truncated division agrees with [Z.div] on non-negative operands. *)
Lemma quot_div a b : 0 <= a → 0 < b → Z.quot a b = a / b.
Proof. intros. by apply Z.quot_div_nonneg. Qed.
Lemma rem_mod a b : 0 <= a → 0 < b → Z.rem a b = a mod b.
Proof. intros. by apply Z.rem_mod_nonneg. Qed.
