(* ===== verification/ListLib.v ===== *)
(** The intrusive circular doubly linked list of include/lib/list.h and the
    queue of include/lib/fifo.h.

    A [struct list_head] is a node of a heap [gmap L node], where [L] is the
    type of the addresses of the list heads embedded in the program's
    structures.  Every function of list.h is a partial update of that heap:
    [None] is an access through an address that holds no node.  The
    representation predicate [dll h hd xs] says that the circular list with
    head [hd] links exactly the nodes [xs], in order; the theorems show that
    the pointer code implements the corresponding operations of the abstract
    list and leaves every node outside the list alone. *)
From S2P Require Import Prelude.

Record node (L : Type) : Type := Node { prev : L; next : L }.
Arguments Node {L} prev next.
Arguments prev {L} n.
Arguments next {L} n.

(** * The functions of list.h *)
Section list_ops.
Context `{Countable L}.
Implicit Types (h : gmap L (node L)) (p q a b : L).

(** [p->next = v] and [p->prev = v]. *)
Definition set_next p v h : option (gmap L (node L)) :=
  n ← h !! p; Some (<[p := Node (prev n) v]> h).
Definition set_prev p v h : option (gmap L (node L)) :=
  n ← h !! p; Some (<[p := Node v (next n)]> h).
(** [p->next] and [p->prev] as values. *)
Definition nxt h p : option L := next <$> h !! p.
Definition prv h p : option L := prev <$> h !! p.

Definition INIT_LIST_HEAD p h : gmap L (node L) := <[p := Node p p]> h.

Definition __list_add (_new pv nx : L) h : option (gmap L (node L)) :=
  h ← set_prev nx _new h;
  h ← set_next pv _new h;
  h ← set_next _new nx h;
  set_prev _new pv h.

Definition __list_del (pv nx : L) h : option (gmap L (node L)) :=
  h ← set_next pv nx h;
  set_prev nx pv h.

Definition list_del (entry : L) h : option (gmap L (node L)) :=
  pv ← prv h entry;
  nx ← nxt h entry;
  __list_del pv nx h.

Definition list_del_init (entry : L) h : option (gmap L (node L)) :=
  h ← list_del entry h;
  Some (INIT_LIST_HEAD entry h).

Definition list_add_tail (_new list : L) h : option (gmap L (node L)) :=
  pv ← prv h list;
  __list_add _new pv list h.

Definition list_add_head (_new list : L) h : option (gmap L (node L)) :=
  nx ← nxt h list;
  __list_add _new list nx h.

Definition list_is_first (list head : L) h : option bool :=
  pv ← prv h list; Some (bool_decide (pv = head)).

Definition list_is_last (list head : L) h : option bool :=
  nx ← nxt h list; Some (bool_decide (nx = head)).

Definition list_empty (list : L) h : option bool :=
  nx ← nxt h list; Some (bool_decide (nx = list)).

Definition list_first (list : L) h : option L := nxt h list.

(** Unlink the segment [left..right] from the list it is in. *)
Definition list_splice_down (left_list right_list : L) h : option (gmap L (node L)) :=
  lp ← prv h left_list;
  rn ← nxt h right_list;
  h ← set_next lp rn h;
  rn ← nxt h right_list;
  lp ← prv h left_list;
  set_prev rn lp h.

(** Link the segment [left..right] just after [head]. *)
Definition list_splice_up_left (head left_list right_list : L) h : option (gmap L (node L)) :=
  h ← set_prev left_list head h;
  hn ← nxt h head;
  h ← set_next right_list hn h;
  hn ← nxt h head;
  h ← set_prev hn right_list h;
  set_next head left_list h.

(** Link the segment [left..right] just before [head]. *)
Definition list_splice_up_right (head left_list right_list : L) h : option (gmap L (node L)) :=
  hp ← prv h head;
  h ← set_prev left_list hp h;
  h ← set_next right_list head h;
  hp ← prv h head;
  h ← set_next hp left_list h;
  set_prev head right_list h.

(** Returns [NULL] on an empty list, else unlinks the first node; the node's
    own pointers are left as they were. *)
Definition list_pop (list : L) h : option (option L * gmap L (node L)) :=
  e ← list_empty list h;
  if (e : bool) then Some (None, h) else
    tmp ← nxt h list;
    fst ← nxt h list;
    h ← list_del fst h;
    Some (Some tmp, h).

(** [list_for_each]: the nodes visited from [pos] until [head] is met. *)
Fixpoint list_for_each (fuel : nat) (head pos : L) h : option (list L) :=
  if decide (pos = head) then Some [] else
    match fuel with
    | O => None
    | S fuel => nx ← nxt h pos; r ← list_for_each fuel head nx h; Some (pos :: r)
    end.

Fixpoint list_for_each_reverse (fuel : nat) (head pos : L) h : option (list L) :=
  if decide (pos = head) then Some [] else
    match fuel with
    | O => None
    | S fuel => pv ← prv h pos; r ← list_for_each_reverse fuel head pv h; Some (pos :: r)
    end.

(** [list_len]: counts in a [uint], and panics past 1000000 nodes. *)
Fixpoint list_len_loop (fuel : nat) (head pos : L) (len : Z) h : outcome (gmap L (node L)) Z :=
  if decide (pos = head) then Done len h else
    match fuel with
    | O => OutOfFuel
    | S fuel =>
        let len := u32 (len + 1) in
        if 1000000 <? len then Panic else
          match nxt h pos with
          | Some nx => list_len_loop fuel head nx len h
          | None => Fault
          end
    end.
Definition list_len (list : L) : M (gmap L (node L)) Z := λ h,
  match nxt h list with
  | Some nx => list_len_loop (S (size h)) list nx 0 h
  | None => Fault
  end.

(** * The representation predicate *)

Definition links h a b : Prop := nxt h a = Some b ∧ prv h b = Some a.

(** [path h a xs b]: following [next] from [a] visits [xs] and reaches [b],
    and the [prev] pointers go back the same way. *)
Fixpoint path h a (xs : list L) b : Prop :=
  match xs with
  | [] => links h a b
  | x :: xs => links h a x ∧ path h x xs b
  end.

Definition dll h (hd : L) (xs : list L) : Prop := NoDup (hd :: xs) ∧ path h hd xs hd.

(** The nodes an operation may have changed. *)
Definition only h h' (X : list L) : Prop :=
  dom h' = dom h ∧ ∀ q, q ∉ X → h' !! q = h !! q.

(** ** Field updates *)

Lemma set_next_spec p v h :
  is_Some (h !! p) → ∃ h', set_next p v h = Some h' ∧ dom h' = dom h ∧
    (∀ q, nxt h' q = if decide (q = p) then Some v else nxt h q) ∧
    (∀ q, prv h' q = prv h q) ∧ (∀ q, q ≠ p → h' !! q = h !! q).
Proof.
  intros [n Hn]. unfold set_next. rewrite Hn. simpl. eexists; split; [done|].
  split_and!.
  - rewrite dom_insert_L. apply elem_of_dom_2 in Hn. set_solver.
  - intros q. unfold nxt. case_decide; subst; by simplify_map_eq.
  - intros q. unfold prv. destruct (decide (q = p)); subst; by simplify_map_eq.
  - intros q ?. by simplify_map_eq.
Qed.

Lemma set_prev_spec p v h :
  is_Some (h !! p) → ∃ h', set_prev p v h = Some h' ∧ dom h' = dom h ∧
    (∀ q, prv h' q = if decide (q = p) then Some v else prv h q) ∧
    (∀ q, nxt h' q = nxt h q) ∧ (∀ q, q ≠ p → h' !! q = h !! q).
Proof.
  intros [n Hn]. unfold set_prev. rewrite Hn. simpl. eexists; split; [done|].
  split_and!.
  - rewrite dom_insert_L. apply elem_of_dom_2 in Hn. set_solver.
  - intros q. unfold prv. case_decide; subst; by simplify_map_eq.
  - intros q. unfold nxt. destruct (decide (q = p)); subst; by simplify_map_eq.
  - intros q ?. by simplify_map_eq.
Qed.

Lemma nxt_dom h p v : nxt h p = Some v → is_Some (h !! p).
Proof. unfold nxt. intros (n & ? & ?)%fmap_Some. eauto. Qed.
Lemma prv_dom h p v : prv h p = Some v → is_Some (h !! p).
Proof. unfold prv. intros (n & ? & ?)%fmap_Some. eauto. Qed.

(** ** Paths *)

Lemma path_app h a xs y ys b :
  path h a (xs ++ y :: ys) b ↔ path h a xs y ∧ path h y ys b.
Proof. revert a. induction xs as [|x xs IH]; intros a; simpl; [done|]. rewrite IH. tauto. Qed.

(** A path reads [next] of its sources and [prev] of its targets only. *)
Lemma path_ext h h' a xs b :
  (∀ q, q ∈ a :: xs → nxt h' q = nxt h q) →
  (∀ q, q ∈ xs ++ [b] → prv h' q = prv h q) →
  path h a xs b → path h' a xs b.
Proof.
  revert a. induction xs as [|x xs IH]; intros a Hn Hp; simpl; unfold links.
  - intros [<- <-]. rewrite Hn, Hp by set_solver. done.
  - intros [[? ?] ?]. split.
    + rewrite Hn, Hp by set_solver. done.
    + apply IH; [set_solver..|done].
Qed.

Lemma path_frame h h' a xs b :
  (∀ q, q ∈ a :: xs ++ [b] → h' !! q = h !! q) → path h a xs b → path h' a xs b.
Proof.
  intros Hq. apply path_ext; intros q Hin; unfold nxt, prv; rewrite Hq; set_solver.
Qed.

Lemma path_first h a xs b :
  path h a xs b → nxt h a = Some (default b (head xs)).
Proof. destruct xs; simpl; unfold links; naive_solver. Qed.

Lemma path_last h a xs b :
  path h a xs b → prv h b = Some (default a (last xs)).
Proof.
  destruct xs as [|x xs _] using rev_ind; simpl; [unfold links; naive_solver|].
  rewrite path_app. simpl. unfold links. rewrite last_snoc. naive_solver.
Qed.

Lemma path_in_dom h a xs b q :
  path h a xs b → q ∈ a :: xs → is_Some (h !! q).
Proof.
  revert a. induction xs as [|x xs IH]; intros a; simpl; unfold links.
  - intros [? _] ->%list_elem_of_singleton. eauto using nxt_dom.
  - intros [[? _] ?] [->|?]%elem_of_cons; eauto using nxt_dom.
Qed.

Lemma dll_in_dom h hd xs q : dll h hd xs → q ∈ hd :: xs → is_Some (h !! q).
Proof. intros [_ ?]. by eapply path_in_dom. Qed.

(** Lists disjoint from what an operation changed are untouched. *)
Lemma dll_only h h' X hd xs :
  only h h' X → (∀ q, q ∈ hd :: xs → q ∉ X) → dll h hd xs → dll h' hd xs.
Proof.
  intros [_ Ho] HX [Hnd Hp]. split; [done|]. eapply path_frame; [|done].
  intros q Hq. apply Ho, HX. set_solver.
Qed.

Lemma only_trans h1 h2 h3 X Y Z :
  only h1 h2 X → only h2 h3 Y → X ⊆ Z → Y ⊆ Z → only h1 h3 Z.
Proof.
  intros [Hd1 H1] [Hd2 H2] HX HY. split; [congruence|].
  intros q Hq. rewrite H2, H1; [done|set_solver..].
Qed.

Lemma only_refl h X : only h h X.
Proof. by split. Qed.

Lemma dll_init h hd : dll (INIT_LIST_HEAD hd h) hd [].
Proof.
  split; [apply NoDup_singleton|]. simpl. unfold links, nxt, prv, INIT_LIST_HEAD.
  by simplify_map_eq.
Qed.

(** ** Insertion *)

Lemma __list_add_spec _new a b h :
  links h a b → _new ≠ a → _new ≠ b → is_Some (h !! _new) →
  ∃ h', __list_add _new a b h = Some h' ∧ only h h' [_new; a; b] ∧
    links h' a _new ∧ links h' _new b ∧
    (∀ q, q ≠ a → q ≠ _new → nxt h' q = nxt h q) ∧
    (∀ q, q ≠ b → q ≠ _new → prv h' q = prv h q).
Proof.
  intros [Hn Hp] Ha Hb Hnew. unfold __list_add.
  destruct (set_prev_spec b _new h) as (h1 & -> & D1 & P1 & N1 & F1); [by eapply prv_dom|].
  simpl.
  assert (Hdom : ∀ q, is_Some (h !! q) → is_Some (h1 !! q)).
  { intros q. rewrite <-!elem_of_dom, D1. done. }
  destruct (set_next_spec a _new h1) as (h2 & -> & D2 & N2 & P2 & F2).
  { eapply Hdom, nxt_dom; done. }
  simpl. destruct (set_next_spec _new b h2) as (h3 & -> & D3 & N3 & P3 & F3).
  { apply elem_of_dom. rewrite D2, D1. by apply elem_of_dom. }
  simpl. destruct (set_prev_spec _new a h3) as (h4 & -> & D4 & P4 & N4 & F4).
  { apply elem_of_dom. rewrite D3, D2, D1. by apply elem_of_dom. }
  eexists; split; [done|]. unfold links. split_and!.
  - split; [congruence|]. intros q Hq. rewrite F4, F3, F2, F1; set_solver.
  - rewrite N4, N3, N2. by rewrite decide_False, decide_True.
  - rewrite P4. by rewrite decide_True.
  - rewrite N4, N3. by rewrite decide_True.
  - rewrite P4, P3, P2, P1. rewrite decide_False by done. by rewrite decide_True.
  - intros q ??. rewrite N4, N3, N2, N1. by rewrite !decide_False.
  - intros q ??. rewrite P4, P3, P2, P1. by rewrite !decide_False.
Qed.

(** The neighbours of a position of a list. *)
Definition before (hd : L) (xs : list L) : L := default hd (last xs).
Definition after (hd : L) (ys : list L) : L := default hd (head ys).

Lemma before_in hd xs : before hd xs ∈ hd :: xs.
Proof.
  unfold before. destruct (last xs) eqn:E; simpl; [|by left].
  right. by apply last_Some_elem_of.
Qed.

Lemma after_in hd ys : after hd ys ∈ hd :: ys.
Proof. unfold after. destruct ys; simpl; [by left|right; by left]. Qed.

(** A circular path cut at a position. *)
Lemma path_split h hd xs ys :
  path h hd (xs ++ ys) hd ↔ path h hd xs (after hd ys) ∧ path h (before hd xs) ys hd.
Proof.
  destruct ys as [|y ys].
  { rewrite app_nil_r. unfold after, before; simpl. split; [|tauto]. intros Hp.
    split; [done|]. destruct xs as [|x xs _] using rev_ind; [done|].
    rewrite last_snoc. apply path_app in Hp as [_ ?]. done. }
  rewrite path_app. unfold after, before. simpl.
  split; [|naive_solver]. intros [Hp1 Hp2]. split_and!; [done| |done].
  destruct xs as [|x xs _] using rev_ind; [done|].
  rewrite last_snoc. apply path_app in Hp1 as [_ ?]. done.
Qed.

Lemma path_last_link h a xs b : path h a xs b → links h (before a xs) b.
Proof.
  destruct xs as [|x xs _] using rev_ind; [done|].
  unfold before. rewrite last_snoc, path_app. simpl. tauto.
Qed.

(** Relinking the two neighbours of a position: the two half paths survive
    when only [next] of the left neighbour, [prev] of the right one and nodes
    outside the list have changed. *)
Lemma path_halves h h' hd xs ys m0 m1 (X : list L) :
  NoDup (hd :: xs ++ ys) → path h hd xs m0 → path h m1 ys hd →
  (∀ q, q ∈ X → q ∉ hd :: xs ++ ys) →
  (∀ q, q ≠ before hd xs → q ∉ X → nxt h' q = nxt h q) →
  (∀ q, q ≠ after hd ys → q ∉ X → prv h' q = prv h q) →
  (∀ m, links h' (before hd xs) m → path h' hd xs m) ∧
  (∀ m, links h' m (after hd ys) → path h' m ys hd).
Proof.
  intros Hnd Hp0 Hp1 HX HN HP. apply NoDup_cons in Hnd as [Hhd Hnd].
  apply NoDup_app in Hnd as (Hnx & Hxy & Hny). split; intros m Hm.
  - destruct xs as [|x xs _] using rev_ind; [done|].
    unfold before in *. rewrite last_snoc in *. simpl in *.
    apply NoDup_app in Hnx as (_ & Hx & _).
    apply path_app in Hp0 as [Hp _].
    apply path_app. split; [|done].
    assert (HxX : ∀ q, q ∈ hd :: xs ++ [x] → q ∉ X).
    { intros q Hq HqX. apply (HX q HqX). clear -Hq. set_solver. }
    eapply path_ext; [..|exact Hp]; intros q Hq; [apply HN|apply HP].
    + intros ->. apply elem_of_cons in Hq as [->|Hq]; [|by apply (Hx x Hq); left].
      apply Hhd. clear. set_solver.
    + apply HxX. clear -Hq. set_solver.
    + intros ->. pose proof (after_in hd ys) as [E|Hin]%elem_of_cons.
      * rewrite E in Hq. apply Hhd. clear -Hq. set_solver.
      * by apply (Hxy (after hd ys)).
    + apply HxX. clear -Hq. set_solver.
  - destruct ys as [|y ys]; [done|]. unfold after in *. simpl in *. split; [done|].
    apply NoDup_cons in Hny as [Hy _]. destruct Hp1 as [_ Hp].
    assert (HxX : ∀ q, q ∈ hd :: y :: ys → q ∉ X).
    { intros q Hq HqX. apply (HX q HqX). clear -Hq. set_solver. }
    eapply path_ext; [..|exact Hp]; intros q Hq; [apply HN|apply HP].
    + intros ->. pose proof (before_in hd xs) as [E|Hin]%elem_of_cons.
      * rewrite E in Hq. apply Hhd. clear -Hq. set_solver.
      * by apply (Hxy (before hd xs)).
    + apply HxX. clear -Hq. set_solver.
    + intros ->. apply elem_of_app in Hq as [Hq| ->%list_elem_of_singleton]; [done|].
      apply Hhd. clear. set_solver.
    + apply HxX. clear -Hq. set_solver.
Qed.

(** Insertion at any position of a list. *)
Lemma dll_insert _new hd xs ys h :
  dll h hd (xs ++ ys) → _new ∉ hd :: xs ++ ys → is_Some (h !! _new) →
  ∃ h', __list_add _new (before hd xs) (after hd ys) h = Some h' ∧
    dll h' hd (xs ++ _new :: ys) ∧ only h h' (_new :: hd :: xs ++ ys).
Proof.
  intros [Hnd Hp] Hnew Hdom. apply path_split in Hp as [Hp1 Hp2].
  pose proof (before_in hd xs) as Ha. pose proof (after_in hd ys) as Hb.
  destruct (__list_add_spec _new (before hd xs) (after hd ys) h)
    as (h' & -> & [Hd Ho] & Hl1 & Hl2 & HN & HP); [by apply path_last_link| | |done|].
  { intros ->. apply Hnew. clear -Ha. set_solver. }
  { intros ->. apply Hnew. clear -Hb. set_solver. }
  exists h'. split_and!; [done| |].
  - destruct (path_halves h h' hd xs ys (after hd ys) (before hd xs) [_new]) as [H1 H2];
      [done..| | | |].
    + intros q ->%list_elem_of_singleton. done.
    + intros q ? Hq. apply HN; [done|]. intros ->. clear -Hq. set_solver.
    + intros q ? Hq. apply HP; [done|]. intros ->. clear -Hq. set_solver.
    + split; [|apply path_app; auto].
      apply NoDup_cons in Hnd as [Hhd Hnd]. apply NoDup_cons.
      rewrite NoDup_app in Hnd. rewrite NoDup_app, NoDup_cons.
      clear -Hhd Hnew Hnd. set_solver.
  - split; [done|]. intros q Hq. apply Ho. clear -Hq Ha Hb. set_solver.
Qed.

Lemma list_add_head_dll _new hd xs h :
  dll h hd xs → _new ∉ hd :: xs → is_Some (h !! _new) →
  ∃ h', list_add_head _new hd h = Some h' ∧ dll h' hd (_new :: xs) ∧
    only h h' (_new :: hd :: xs).
Proof.
  intros Hd Hnew Hdom. unfold list_add_head.
  rewrite (path_first h hd xs hd) by apply Hd. simpl.
  by apply (dll_insert _new hd [] xs).
Qed.

Lemma list_add_tail_dll _new hd xs h :
  dll h hd xs → _new ∉ hd :: xs → is_Some (h !! _new) →
  ∃ h', list_add_tail _new hd h = Some h' ∧ dll h' hd (xs ++ [_new]) ∧
    only h h' (_new :: hd :: xs).
Proof.
  intros Hd Hnew Hdom. unfold list_add_tail.
  rewrite (path_last h hd xs hd) by apply Hd. simpl.
  destruct (dll_insert _new hd xs [] h) as (h' & Ha & ? & ?);
    rewrite ?app_nil_r in *; eauto.
Qed.

(** ** Removal *)

Lemma __list_del_spec x a b h :
  links h a x → links h x b →
  ∃ h', list_del x h = Some h' ∧ only h h' [a; b] ∧ links h' a b ∧
    (∀ q, q ≠ a → nxt h' q = nxt h q) ∧ (∀ q, q ≠ b → prv h' q = prv h q).
Proof.
  intros [Hn1 Hp1] [Hn2 Hp2]. unfold list_del. rewrite Hp1, Hn2. simpl.
  unfold __list_del.
  destruct (set_next_spec a b h) as (h1 & -> & D1 & N1 & P1 & F1); [by eapply nxt_dom|].
  simpl. destruct (set_prev_spec b a h1) as (h2 & -> & D2 & P2 & N2 & F2).
  { apply elem_of_dom. rewrite D1. apply elem_of_dom. by eapply prv_dom. }
  eexists; split; [done|]. unfold links. split_and!.
  - split; [congruence|]. intros q Hq. rewrite F2, F1; set_solver.
  - rewrite N2, N1. by rewrite decide_True.
  - rewrite P2. by rewrite decide_True.
  - intros q ?. rewrite N2, N1. by rewrite decide_False.
  - intros q ?. rewrite P2, P1. by rewrite decide_False.
Qed.

(** [list_del] removes the node and leaves its own pointers stale. *)
Lemma list_del_dll x hd xs ys h :
  dll h hd (xs ++ x :: ys) →
  ∃ h', list_del x h = Some h' ∧ dll h' hd (xs ++ ys) ∧ h' !! x = h !! x ∧
    only h h' (hd :: xs ++ ys).
Proof.
  intros [Hnd Hp]. apply path_app in Hp as [Hp1 Hp2].
  pose proof (before_in hd xs) as Ha. pose proof (after_in hd ys) as Hb.
  assert (Hl2 : links h x (after hd ys)) by (destruct ys; simpl in *; naive_solver).
  destruct (__list_del_spec x _ _ h (path_last_link _ _ _ _ Hp1) Hl2)
    as (h' & -> & [Hdom Ho] & Hl & HN & HP).
  assert (Hnd' : NoDup (hd :: xs ++ ys) ∧ x ∉ hd :: xs ++ ys).
  { rewrite NoDup_cons, NoDup_app, NoDup_cons in Hnd.
    rewrite NoDup_cons, NoDup_app. clear -Hnd. set_solver. }
  destruct Hnd' as [Hnd' Hx].
  destruct (path_halves h h' hd xs ys x x []) as [H1 H2]; [done..| | | |].
  { intros q Hq. clear -Hq. set_solver. }
  { auto. }
  { auto. }
  exists h'. split_and!; [done| |..].
  - split; [done|]. apply path_split. auto.
  - apply Ho. clear -Hx Ha Hb. set_solver.
  - split; [done|]. intros q Hq. apply Ho. clear -Hq Ha Hb. set_solver.
Qed.

(** On a node linked to itself [list_del] changes nothing. *)
Lemma list_del_self x h : h !! x = Some (Node x x) → list_del x h = Some h.
Proof.
  intros Hx. unfold list_del, prv, nxt, __list_del, set_next, set_prev. rewrite !Hx.
  simpl. rewrite Hx. simpl. rewrite lookup_insert_eq. simpl.
  rewrite insert_insert_eq. f_equal. by apply insert_id.
Qed.

Lemma list_del_init_dll x hd xs ys h :
  dll h hd (xs ++ x :: ys) →
  ∃ h', list_del_init x h = Some h' ∧ dll h' hd (xs ++ ys) ∧ h' !! x = Some (Node x x) ∧
    only h h' (x :: hd :: xs ++ ys).
Proof.
  intros Hd. pose proof Hd as [Hnd _].
  rewrite NoDup_cons, NoDup_app, NoDup_cons in Hnd.
  destruct (list_del_dll x hd xs ys h Hd) as (h1 & Hdel & Hd1 & Hx & [Hdom Ho]).
  unfold list_del_init. rewrite Hdel. simpl. eexists. split; [done|].
  unfold INIT_LIST_HEAD. split_and!.
  - destruct Hd1 as [? Hp]. split; [done|]. eapply path_frame; [|done].
    intros q Hq. rewrite lookup_insert_ne; [done|]. set_solver.
  - by simplify_map_eq.
  - assert (x ∈ dom h) by (apply elem_of_dom; eapply dll_in_dom; [done|]; set_solver).
    split; [rewrite dom_insert_L, Hdom; set_solver|].
    intros q Hq. rewrite lookup_insert_ne by set_solver. apply Ho. set_solver.
Qed.

Lemma list_del_init_self x h : h !! x = Some (Node x x) → list_del_init x h = Some h.
Proof.
  intros Hx. unfold list_del_init. rewrite list_del_self by done. simpl. f_equal.
  by apply insert_id.
Qed.

(** ** Queries *)

Lemma list_empty_dll hd xs h :
  dll h hd xs → list_empty hd h = Some (bool_decide (xs = [])).
Proof.
  intros [Hnd Hp]. unfold list_empty. rewrite (path_first h hd xs hd) by done. simpl.
  f_equal. apply bool_decide_ext. destruct xs as [|x xs]; simpl; [done|].
  rewrite NoDup_cons in Hnd. set_solver.
Qed.

Lemma list_first_dll hd x xs h : dll h hd (x :: xs) → list_first hd h = Some x.
Proof. intros [_ Hp]. apply path_first in Hp. done. Qed.

Lemma list_pop_dll hd xs h :
  dll h hd xs →
  ∃ h', list_pop hd h = Some (head xs, h') ∧ dll h' hd (tail xs) ∧
    (∀ x, head xs = Some x → h' !! x = h !! x) ∧ only h h' (hd :: tail xs).
Proof.
  intros Hd. unfold list_pop. rewrite (list_empty_dll hd xs h Hd). simpl.
  destruct xs as [|x xs].
  - rewrite bool_decide_true by done. exists h. simpl. split_and!; eauto using only_refl.
  - rewrite bool_decide_false by done.
    rewrite (path_first h hd (x :: xs) hd) by apply Hd. simpl.
    destruct (list_del_dll x hd [] xs h Hd) as (h' & -> & Hd' & Hx & Ho).
    simpl. exists h'. split_and!; [done|done| |done]. naive_solver.
Qed.

Lemma list_for_each_path h a xs b (fuel : nat) :
  path h a xs b → b ∉ xs → (length xs <= fuel)%nat →
  ∃ p, nxt h a = Some p ∧ list_for_each fuel b p h = Some xs.
Proof.
  revert a fuel. induction xs as [|x xs IH]; intros a fuel Hp Hb Hf; simpl in *.
  - destruct Hp as [Hn _]. exists b. split; [done|]. destruct fuel; simpl; by rewrite decide_True.
  - destruct Hp as [[Hn _] Hp]. exists x. split; [done|].
    destruct fuel as [|fuel]; simpl in *; [lia|]. rewrite decide_False by set_solver.
    destruct (IH x fuel Hp) as (p & -> & E); [set_solver|lia|]. simpl. by rewrite E.
Qed.

Lemma length_dll h hd xs : dll h hd xs → (S (length xs) <= size h)%nat.
Proof.
  intros Hd. pose proof Hd as [Hnd _].
  rewrite <-size_dom. change (S (length xs)) with (length (hd :: xs)).
  rewrite <-(size_list_to_set (C := gset L)) by done. apply subseteq_size. intros q Hq.
  apply elem_of_list_to_set in Hq. apply elem_of_dom. by eapply dll_in_dom.
Qed.

(** Traversal yields the abstract list; the heap's size is enough fuel. *)
Lemma list_for_each_dll hd xs h :
  dll h hd xs → ∃ p, nxt h hd = Some p ∧ list_for_each (size h) hd p h = Some xs.
Proof.
  intros Hd. pose proof (length_dll _ _ _ Hd). destruct Hd as [Hnd Hp].
  apply list_for_each_path; [done| |lia]. rewrite NoDup_cons in Hnd. tauto.
Qed.

Lemma list_for_each_reverse_path h a xs b (fuel : nat) :
  path h a xs b → a ∉ xs → (length xs <= fuel)%nat →
  ∃ p, prv h b = Some p ∧ list_for_each_reverse fuel a p h = Some (reverse xs).
Proof.
  revert b fuel. induction xs as [|x xs IH] using rev_ind; intros b fuel Hp Ha Hf.
  - destruct Hp as [_ Hp]. exists a. split; [done|]. destruct fuel; simpl; by rewrite decide_True.
  - apply path_app in Hp as [Hp [_ Hx]]. exists x. split; [done|]. rewrite length_app in Hf. simpl in Hf.
    destruct fuel as [|fuel]; [lia|]. simpl. rewrite decide_False by set_solver.
    destruct (IH x fuel Hp) as (p & -> & E); [set_solver|lia|]. simpl. by rewrite E, reverse_snoc.
Qed.

Lemma list_for_each_reverse_dll hd xs h :
  dll h hd xs → ∃ p, prv h hd = Some p ∧ list_for_each_reverse (size h) hd p h = Some (reverse xs).
Proof.
  intros Hd. pose proof (length_dll _ _ _ Hd). destruct Hd as [Hnd Hp].
  apply list_for_each_reverse_path; [done| |lia]. rewrite NoDup_cons in Hnd. tauto.
Qed.

Lemma list_len_loop_path h a xs b (fuel : nat) len :
  path h a xs b → b ∉ xs → (length xs <= fuel)%nat →
  0 <= len → len + Z.of_nat (length xs) <= 1000000 →
  ∃ p, nxt h a = Some p ∧ list_len_loop fuel b p len h = Done (len + Z.of_nat (length xs)) h.
Proof.
  revert a fuel len. induction xs as [|x xs IH]; intros a fuel len Hp Hb Hf H0 Hm.
  - simpl in *. destruct Hp as [Hn _]. exists b. split; [done|].
    destruct fuel; simpl; rewrite decide_True by done; f_equal; lia.
  - destruct Hp as [[Hn _] Hp]. exists x. split; [done|].
    simpl length in *. destruct fuel as [|fuel]; simpl list_len_loop; [lia|].
    rewrite decide_False by set_solver. rewrite u32_small by lia.
    destruct (Z.ltb_spec 1000000 (len + 1)); [lia|].
    destruct (IH x fuel (len + 1) Hp) as (p & -> & E); [set_solver|lia..|].
    rewrite E. f_equal. lia.
Qed.

(** * Families of lists

    The structures of the kernel live on several lists of one heap: the free
    lists of the page allocator, the chains of a hash table, the LRU and dirty
    lists.  [fam h σ] says that the heap holds, for each head of [σ], the list
    [σ] gives, and that no node is on two of them. *)
Implicit Types (σ : gmap L (list L)).

Definition fam_disjoint σ : Prop :=
  ∀ hd1 hd2 xs1 xs2 q, σ !! hd1 = Some xs1 → σ !! hd2 = Some xs2 →
    q ∈ hd1 :: xs1 → q ∈ hd2 :: xs2 → hd1 = hd2.

Definition fam h σ : Prop :=
  (∀ hd xs, σ !! hd = Some xs → dll h hd xs) ∧ fam_disjoint σ.

(** [q] is a head or a member of the family. *)
Definition in_fam σ (q : L) : Prop := ∃ hd xs, σ !! hd = Some xs ∧ q ∈ hd :: xs.

Lemma fam_disjoint_insert σ hd xs xs' :
  fam_disjoint σ → σ !! hd = Some xs →
  (∀ q, q ∈ xs' → q ∈ xs ∨ ¬ in_fam σ q) → fam_disjoint (<[hd := xs']> σ).
Proof.
  intros Hdis Hhd Hsub.
  assert (Hcase : ∀ hd2 xs2 q, hd2 ≠ hd → σ !! hd2 = Some xs2 →
    q ∈ hd :: xs' → q ∈ hd2 :: xs2 → False).
  { intros hd2 xs2 q Hne Hs2 Hq1 Hq2. apply Hne.
    apply elem_of_cons in Hq1 as [->|Hq1].
    - apply (Hdis hd2 hd xs2 xs hd); [done..|by left].
    - destruct (Hsub q Hq1) as [Hq|Hno].
      + apply (Hdis hd2 hd xs2 xs q); [done..|by right].
      + exfalso. apply Hno. exists hd2, xs2. done. }
  intros hd1 hd2 xs1 xs2 q H1 H2 Hq1 Hq2.
  rewrite lookup_insert in H1, H2.
  destruct (decide (hd = hd1)) as [<-|], (decide (hd = hd2)) as [<-|]; simplify_eq.
  - done.
  - exfalso. by apply (Hcase hd2 xs2 q).
  - exfalso. by apply (Hcase hd1 xs1 q).
  - by apply (Hdis hd1 hd2 xs1 xs2 q).
Qed.

(** Replacing one list of the family by the result of a local change. *)
Lemma fam_update h h' σ hd xs xs' X :
  fam h σ → σ !! hd = Some xs → dll h' hd xs' → only h h' X →
  (∀ q, q ∈ X → q ∈ hd :: xs ∨ ¬ in_fam σ q) →
  (∀ q, q ∈ xs' → q ∈ xs ∨ ¬ in_fam σ q) → fam h' (<[hd := xs']> σ).
Proof.
  intros [Hdll Hdis] Hhd Hd' Ho HX Hsub. split; [|by eapply fam_disjoint_insert].
  intros hd2 xs2. rewrite lookup_insert. case_decide; intros ?; simplify_eq; [done|].
  eapply dll_only; [exact Ho| |eauto].
  intros q Hq HqX. destruct (HX q HqX) as [Hin|Hno].
  - assert (hd2 = hd) by (eapply Hdis; eauto). congruence.
  - apply Hno. exists hd2, xs2. done.
Qed.

Lemma fam_add_head _new hd xs h σ :
  fam h σ → σ !! hd = Some xs → ¬ in_fam σ _new → is_Some (h !! _new) →
  ∃ h', list_add_head _new hd h = Some h' ∧ fam h' (<[hd := _new :: xs]> σ) ∧
    dll h' hd (_new :: xs) ∧ only h h' (_new :: hd :: xs).
Proof.
  intros Hf Hhd Hno Hdom. pose proof Hf as [Hd _].
  assert (_new ∉ hd :: xs) by (intros ?; apply Hno; exists hd, xs; done).
  destruct (list_add_head_dll _new hd xs h) as (h' & ? & ? & ?); [by apply Hd|done..|].
  exists h'. split_and!; [done| |done..].
  eapply fam_update; [done..| |]; intros q [->|?]%elem_of_cons; auto.
Qed.

Lemma fam_add_tail _new hd xs h σ :
  fam h σ → σ !! hd = Some xs → ¬ in_fam σ _new → is_Some (h !! _new) →
  ∃ h', list_add_tail _new hd h = Some h' ∧ fam h' (<[hd := xs ++ [_new]]> σ) ∧
    dll h' hd (xs ++ [_new]) ∧ only h h' (_new :: hd :: xs).
Proof.
  intros Hf Hhd Hno Hdom. pose proof Hf as [Hd _].
  assert (_new ∉ hd :: xs) by (intros ?; apply Hno; exists hd, xs; done).
  destruct (list_add_tail_dll _new hd xs h) as (h' & ? & ? & ?); [by apply Hd|done..|].
  exists h'. split_and!; [done| |done..].
  eapply fam_update; [done..| |].
  - intros q [->|?]%elem_of_cons; auto.
  - intros q [?| ->%list_elem_of_singleton]%elem_of_app; auto.
Qed.

Lemma fam_del x hd xs ys h σ :
  fam h σ → σ !! hd = Some (xs ++ x :: ys) →
  ∃ h', list_del x h = Some h' ∧ fam h' (<[hd := xs ++ ys]> σ) ∧ h' !! x = h !! x ∧
    only h h' (hd :: xs ++ ys).
Proof.
  intros Hf Hhd. pose proof Hf as [Hd _].
  destruct (list_del_dll x hd xs ys h) as (h' & ? & ? & ? & ?); [by apply Hd|].
  exists h'. split_and!; [done| |done..].
  eapply fam_update; [done..| |]; intros q Hq; left; clear -Hq; set_solver.
Qed.

Lemma fam_del_init x hd xs ys h σ :
  fam h σ → σ !! hd = Some (xs ++ x :: ys) →
  ∃ h', list_del_init x h = Some h' ∧ fam h' (<[hd := xs ++ ys]> σ) ∧
    h' !! x = Some (Node x x) ∧ only h h' (x :: hd :: xs ++ ys).
Proof.
  intros Hf Hhd. pose proof Hf as [Hd _].
  destruct (list_del_init_dll x hd xs ys h) as (h' & ? & ? & ? & ?); [by apply Hd|].
  exists h'. split_and!; [done| |done..].
  eapply fam_update; [done..| |]; intros q Hq; left; clear -Hq; set_solver.
Qed.

Lemma fam_pop hd xs h σ :
  fam h σ → σ !! hd = Some xs →
  ∃ h', list_pop hd h = Some (head xs, h') ∧ fam h' (<[hd := tail xs]> σ) ∧
    (∀ x, head xs = Some x → h' !! x = h !! x) ∧ only h h' (hd :: tail xs).
Proof.
  intros Hf Hhd. pose proof Hf as [Hd _].
  destruct (list_pop_dll hd xs h) as (h' & ? & ? & ? & ?); [by apply Hd|].
  exists h'. split_and!; [done| |done..].
  eapply fam_update; [done..| |]; intros q Hq; left; clear -Hq; destruct xs; set_solver.
Qed.

(** A family of empty lists. *)
Lemma fam_empty h σ :
  (∀ hd xs, σ !! hd = Some xs → xs = [] ∧ h !! hd = Some (Node hd hd)) → fam h σ.
Proof.
  intros Hall. split.
  - intros hd xs E. destruct (Hall hd xs E) as [-> Hh]. split; [apply NoDup_singleton|].
    simpl. unfold links, nxt, prv. by rewrite Hh.
  - intros hd1 hd2 xs1 xs2 q E1 E2 H1 H2. destruct (Hall _ _ E1) as [-> _], (Hall _ _ E2) as [-> _].
    apply list_elem_of_singleton in H1, H2. congruence.
Qed.

Lemma fam_agree h h' σ :
  fam h σ → (∀ q, in_fam σ q → h' !! q = h !! q) → fam h' σ.
Proof.
  intros [Hd Hdis] Hq. split; [|done]. intros hd xs E. destruct (Hd hd xs E) as [Hnd Hp].
  split; [done|]. eapply path_frame; [|done]. intros q Hin. apply Hq. exists hd, xs. split; [done|].
  clear -Hin. set_solver.
Qed.

(** A popped node keeps its links: deleting it again changes nothing as long as
    the list is as [list_pop] left it. *)
Lemma pop_then_del hd x ds h :
  dll h hd (x :: ds) →
  ∃ h1, list_pop hd h = Some (Some x, h1) ∧ list_del x h = Some h1 ∧
    dll h1 hd ds ∧ list_del x h1 = Some h1.
Proof.
  intros Hd. destruct (list_pop_dll hd _ h Hd) as (h1 & Epop & Hd1 & Hsame & Ho). simpl in *.
  exists h1. split; [done|]. destruct Hd as [Hnd Hp]. simpl in Hp. destruct Hp as [[Hn Hpv] Hp].
  assert (Hxh : x ≠ hd) by (apply NoDup_cons in Hnd as [Hnd _]; set_solver).
  split; [|split; [done|]].
  - unfold list_pop, list_empty in Epop. rewrite Hn in Epop. simpl in Epop.
    rewrite bool_decide_eq_false_2 in Epop by done. destruct (list_del x h); simpl in Epop; [by injection Epop as ->|done].
  - pose proof (path_first _ _ _ _ Hp) as Hnb. destruct Hd1 as [_ Hp1].
    pose proof (path_first _ _ _ _ Hp1) as Hn1.
    assert (Hpn : prv h1 (default hd (head ds)) = Some hd).
    { destruct ds as [|d ds]; simpl in *; [apply Hp1|apply Hp1]. }
    specialize (Hsame _ eq_refl).
    unfold list_del. unfold prv at 1, nxt at 1. rewrite Hsame. fold (prv h x) (nxt h x).
    rewrite Hpv, Hnb. simpl. unfold __list_del, set_next, set_prev.
    unfold nxt in Hn1. apply fmap_Some in Hn1 as (n1 & E1 & Hx1). rewrite E1. simpl.
    rewrite Hx1. replace (<[hd := Node (prev n1) (next n1)]> h1) with h1.
    2:{ symmetry. apply insert_id. rewrite E1. by destruct n1. }
    unfold prv in Hpn. apply fmap_Some in Hpn as (n2 & E2 & Hx2). rewrite <-Hx1, E2. simpl. f_equal.
    apply insert_id. rewrite E2, Hx2. by destruct n2.
Qed.

(** Unlinking a node through stale links changes nothing while their two ends are
    linked to each other. *)
Lemma list_del_linked x a c h : h !! x = Some (Node a c) → links h a c → list_del x h = Some h.
Proof.
  intros Hx [Hn Hp]. unfold list_del. unfold prv at 1, nxt at 1. rewrite Hx. simpl.
  unfold __list_del, set_next, set_prev, nxt, prv in *.
  apply fmap_Some in Hn as (n1 & E1 & ->), Hp as (n2 & E2 & Ha). rewrite E1. simpl.
  rewrite (insert_id h a) by (rewrite E1; by destruct n1). rewrite E2. simpl. f_equal.
  apply insert_id. rewrite E2, Ha. by destruct n2.
Qed.

(** Two linked nodes stay linked when a third one is unlinked. *)
Lemma links_del_init x hd xs ys h h' a c :
  dll h hd (xs ++ x :: ys) → list_del_init x h = Some h' → links h a c → a ≠ x → c ≠ x → links h' a c.
Proof.
  intros [_ Hp] E [Hn Hc] Ha Hcx. apply path_app in Hp as [Hp1 Hp2].
  assert (Hl2 : links h x (after hd ys)) by (destruct ys; simpl in *; naive_solver).
  pose proof (path_last_link _ _ _ _ Hp1) as Hl1.
  destruct (__list_del_spec x _ _ h Hl1 Hl2) as (h1 & E1 & _ & _ & HN & HP).
  unfold list_del_init in E. rewrite E1 in E. injection E as <-.
  assert (Hkeep : ∀ q, q ≠ x → nxt (INIT_LIST_HEAD x h1) q = nxt h1 q ∧ prv (INIT_LIST_HEAD x h1) q = prv h1 q).
  { intros q Hq. unfold nxt, prv, INIT_LIST_HEAD. by rewrite lookup_insert_ne. }
  split.
  - rewrite (proj1 (Hkeep a Ha)), HN; [done|]. intros ->. destruct Hl1 as [Hq _]. congruence.
  - rewrite (proj2 (Hkeep c Hcx)), HP; [done|]. intros ->. destruct Hl2 as [_ Hq]. congruence.
Qed.

(** A linked node is not its own successor. *)
Lemma dll_next_ne h hd xs x : dll h hd xs → x ∈ xs → ∃ y, nxt h x = Some y ∧ y ≠ x.
Proof.
  intros [Hnd Hp] (l & r & ->)%list_elem_of_split. apply path_app in Hp as [_ Hp].
  apply path_first in Hp. eexists. split; [done|].
  apply NoDup_cons in Hnd as [Hhd Hnd]. apply NoDup_app in Hnd as (_ & _ & [Hx _]%NoDup_cons).
  intros E. destruct r as [|y r]; simpl in E; subst.
  - apply Hhd. apply elem_of_app. right. by left.
  - apply Hx. by left.
Qed.

(** ** Segments *)

Lemma path_cut h a xs ys b :
  path h a (xs ++ ys) b ↔ path h a xs (default b (head ys)) ∧ path h (default a (last xs)) ys b.
Proof.
  destruct ys as [|y ys]; simpl.
  - rewrite app_nil_r. split; [|tauto]. intros Hp. split; [done|].
    destruct xs as [|x xs _] using rev_ind; [done|]. rewrite last_snoc. by apply path_app in Hp as [_ ?].
  - rewrite path_app. split; [|naive_solver]. intros [Hp1 Hp2]. split; [done|]. split; [|done].
    destruct xs as [|x xs _] using rev_ind; [done|]. rewrite last_snoc. by apply path_app in Hp1 as [_ ?].
Qed.

(** The links inside a segment. *)
Fixpoint chain h (seg : list L) : Prop :=
  match seg with
  | x :: ((y :: _) as seg') => links h x y ∧ chain h seg'
  | _ => True
  end.
Lemma path_chain h a seg b : path h a seg b → chain h seg.
Proof.
  revert a. induction seg as [|x [|y seg] IH]; intros a; [done..|]. intros [_ Hp]. split; [apply Hp|by eapply IH].
Qed.
Lemma chain_frame h h' seg : (∀ q, q ∈ seg → h' !! q = h !! q) → chain h seg → chain h' seg.
Proof.
  induction seg as [|x [|y seg] IH]; intros Hq; [done..|]. intros [Hl Hc]. split.
  - unfold links, nxt, prv in *. rewrite !Hq; [done|right; by left|by left].
  - apply IH; [|done]. intros q Hin. apply Hq. by right.
Qed.

(** A segment between two nodes, from its inner links and its two ends. *)
Lemma path_reends h h' a b seg l r :
  NoDup seg → head seg = Some l → last seg = Some r → chain h seg →
  links h' a l → links h' r b →
  (∀ q, q ∈ seg → q ≠ r → nxt h' q = nxt h q) → (∀ q, q ∈ seg → q ≠ l → prv h' q = prv h q) →
  path h' a seg b.
Proof.
  revert a l. induction seg as [|x seg IH]; intros a l; [done|]. intros [Hx Hnd]%NoDup_cons [= ->] Hr Hp Hl Hlr HN HP.
  destruct seg as [|y seg]; simpl; [by injection Hr as ->|].
  split; [done|]. destruct Hp as [[Hn Hpy] Hp]. apply (IH l y); try done.
  - assert (r ∈ y :: seg) by by apply last_Some_elem_of.
    split; [rewrite HN; [done|by left|by intros ->]|rewrite HP; [done|right; by left|]]. intros ->. apply Hx. by left.
  - intros q Hq. apply HN. by right.
  - intros q Hq Hne. apply HP; [by right|]. by intros ->.
Qed.

Lemma head_in seg (l : L) : head seg = Some l → l ∈ seg.
Proof. destruct seg; [done|]. intros [= ->]. by left. Qed.

(** Linking a segment into a position of a list, from the fields of the result. *)
Lemma dll_insert_seg h h' hd xs ys seg l r :
  dll h hd (xs ++ ys) → NoDup seg → (∀ q, q ∈ seg → q ∉ hd :: xs ++ ys) →
  head seg = Some l → last seg = Some r → chain h seg →
  (∀ q, nxt h' q = if decide (q = before hd xs) then Some l else if decide (q = r) then Some (after hd ys) else nxt h q) →
  (∀ q, prv h' q = if decide (q = after hd ys) then Some r else if decide (q = l) then Some (before hd xs) else prv h q) →
  dll h' hd (xs ++ seg ++ ys).
Proof.
  intros [Hnd Hp] Hns Hdis Hl Hr Hseg HN HP. apply path_split in Hp as [Hp1 Hp2].
  pose proof (before_in hd xs) as Ha. pose proof (after_in hd ys) as Hb.
  assert (Hls : l ∈ seg) by by apply head_in. assert (Hrs : r ∈ seg) by by apply last_Some_elem_of.
  assert (Hla : ∀ q, q ∈ seg → q ≠ before hd xs ∧ q ≠ after hd ys).
  { intros q Hq. split; intros ->; eapply Hdis; [done| |done|]; clear -Ha Hb; set_solver. }
  assert (Lal : links h' (before hd xs) l).
  { split; [by rewrite HN, decide_True|]. rewrite HP, decide_False by by apply Hla. by rewrite decide_True. }
  assert (Lrb : links h' r (after hd ys)).
  { split; [|by rewrite HP, decide_True]. rewrite HN, decide_False by by apply Hla. by rewrite decide_True. }
  destruct (path_halves h h' hd xs ys (after hd ys) (before hd xs) seg) as [H1 H2]; [done..| | |].
  { intros q Hq Hqs. rewrite HN, !decide_False; [done| |done]. by intros ->. }
  { intros q Hq Hqs. rewrite HP, !decide_False; [done| |done]. by intros ->. }
  split.
  - rewrite NoDup_cons, NoDup_app in Hnd. rewrite NoDup_cons, !NoDup_app.
    clear -Hnd Hns Hdis. set_solver.
  - apply path_cut. split; [destruct seg; [done|]; injection Hl as ->; by apply H1|]. apply path_cut.
    split; [|rewrite Hr; by apply H2].
    change (path h' (before hd xs) seg (after hd ys)). eapply path_reends; try done.
    + intros q Hq Hne. rewrite HN, !decide_False; [done|done|by apply Hla].
    + intros q Hq Hne. rewrite HP, !decide_False; [done|done|by apply Hla].
Qed.

Lemma list_splice_down_dll hd xs seg ys l r h :
  dll h hd (xs ++ seg ++ ys) → head seg = Some l → last seg = Some r →
  ∃ h', list_splice_down l r h = Some h' ∧ dll h' hd (xs ++ ys) ∧ chain h' seg ∧
    only h h' (hd :: xs ++ ys).
Proof.
  intros [Hnd Hp] Hl Hr. apply path_cut in Hp as [Hp1 Hp]. apply path_cut in Hp as [Hps Hp2].
  assert (Hh : head (seg ++ ys) = Some l) by (destruct seg; [done|by injection Hl as ->]).
  rewrite Hh in Hp1. rewrite Hr in Hp2. simpl in Hp1, Hp2.
  change (path h (before hd xs) seg (after hd ys)) in Hps.
  pose proof (before_in hd xs) as Ha. pose proof (after_in hd ys) as Hb.
  assert (Hls : l ∈ seg) by by apply head_in. assert (Hrs : r ∈ seg) by by apply last_Some_elem_of.
  assert (Hnd' : NoDup (hd :: xs ++ ys) ∧ ∀ q, q ∈ seg → q ∉ hd :: xs ++ ys).
  { rewrite NoDup_cons, !NoDup_app in Hnd. rewrite NoDup_cons, NoDup_app. clear -Hnd. set_solver. }
  destruct Hnd' as [Hnd' Hdis].
  assert (Hra : r ≠ before hd xs) by (intros ->; eapply Hdis; [done|]; clear -Ha; set_solver).
  assert (Elp : prv h l = Some (before hd xs)) by by apply path_last in Hp1.
  assert (Ern : nxt h r = Some (after hd ys)) by by apply path_first in Hp2.
  unfold list_splice_down. rewrite Elp, Ern. simpl.
  destruct (set_next_spec (before hd xs) (after hd ys) h) as (h1 & -> & D1 & N1 & P1 & F1).
  { eapply path_in_dom; [exact Hp1|done]. }
  simpl. rewrite N1, decide_False, Ern by done. simpl. rewrite P1, Elp. simpl.
  destruct (set_prev_spec (after hd ys) (before hd xs) h1) as (h2 & -> & D2 & P2 & N2 & F2).
  { apply elem_of_dom. rewrite D1. apply elem_of_dom. apply path_last_link in Hps as [_ Hq]. by eapply prv_dom. }
  assert (Ho : only h h2 (hd :: xs ++ ys)).
  { split; [congruence|]. intros q Hq. rewrite F2, F1; [done| |]; intros ->; clear -Hq Ha Hb; set_solver. }
  destruct (path_halves h h2 hd xs ys l r []) as [H1 H2]; [done..| | | |].
  { intros q Hq. clear -Hq. set_solver. }
  { intros q ??. by rewrite N2, N1, decide_False. }
  { intros q ??. by rewrite P2, P1, decide_False. }
  assert (Hlk : links h2 (before hd xs) (after hd ys)).
  { split; [by rewrite N2, N1, decide_True|by rewrite P2, decide_True]. }
  exists h2. split_and!; [done| | |done].
  - split; [done|]. apply path_split. auto.
  - eapply chain_frame, path_chain; [|exact Hps]. intros q Hq. apply Ho. by apply Hdis.
Qed.

Lemma list_splice_up_left_dll hd xs seg l r h :
  dll h hd xs → NoDup seg → (∀ q, q ∈ seg → q ∉ hd :: xs) → head seg = Some l → last seg = Some r → chain h seg →
  (∀ q, q ∈ seg → is_Some (h !! q)) →
  ∃ h', list_splice_up_left hd l r h = Some h' ∧ dll h' hd (seg ++ xs) ∧ only h h' (seg ++ hd :: xs).
Proof.
  intros Hd Hns Hdis Hl Hr Hseg Hdom.
  assert (Hls : l ∈ seg) by by apply head_in. assert (Hrs : r ∈ seg) by by apply last_Some_elem_of.
  pose proof (after_in hd xs) as Hb.
  assert (Enx : nxt h hd = Some (after hd xs)) by apply (path_first _ _ _ _ (proj2 Hd)).
  assert (Hne : hd ≠ l ∧ hd ≠ r) by (split; intros ->; [apply (Hdis l)|apply (Hdis r)]; (done || by left)).
  unfold list_splice_up_left.
  destruct (set_prev_spec l hd h) as (h1 & -> & D1 & P1 & N1 & F1); [by apply Hdom|]. simpl. rewrite N1, Enx. simpl.
  destruct (set_next_spec r (after hd xs) h1) as (h2 & -> & D2 & N2 & P2 & F2).
  { apply elem_of_dom. rewrite D1. apply elem_of_dom. by apply Hdom. }
  simpl. rewrite N2, decide_False, N1, Enx by apply Hne. simpl.
  destruct (set_prev_spec (after hd xs) r h2) as (h3 & -> & D3 & P3 & N3 & F3).
  { apply elem_of_dom. rewrite D2, D1. apply elem_of_dom. by eapply dll_in_dom. }
  simpl. destruct (set_next_spec hd l h3) as (h4 & -> & D4 & N4 & P4 & F4).
  { apply elem_of_dom. rewrite D3, D2, D1. apply elem_of_dom. by eapply nxt_dom. }
  exists h4. split_and!; [done| |].
  - apply (dll_insert_seg h h4 hd [] xs seg l r); try done; intros q; unfold before; simpl.
    + by rewrite N4, N3, N2, N1.
    + by rewrite P4, P3, P2, P1.
  - split; [congruence|]. intros q Hq. rewrite F4, F3, F2, F1; [done|intros ->; apply Hq..];
      clear -Hls Hrs Hb; set_solver.
Qed.

Lemma list_splice_up_right_dll hd xs seg l r h :
  dll h hd xs → NoDup seg → (∀ q, q ∈ seg → q ∉ hd :: xs) → head seg = Some l → last seg = Some r → chain h seg →
  (∀ q, q ∈ seg → is_Some (h !! q)) →
  ∃ h', list_splice_up_right hd l r h = Some h' ∧ dll h' hd (xs ++ seg) ∧ only h h' (seg ++ hd :: xs).
Proof.
  intros Hd Hns Hdis Hl Hr Hseg Hdom.
  assert (Hls : l ∈ seg) by by apply head_in. assert (Hrs : r ∈ seg) by by apply last_Some_elem_of.
  pose proof (before_in hd xs) as Ha.
  assert (Epv : prv h hd = Some (before hd xs)) by apply (path_last _ _ _ _ (proj2 Hd)).
  assert (Hne : hd ≠ l ∧ hd ≠ r) by (split; intros ->; [apply (Hdis l)|apply (Hdis r)]; (done || by left)).
  unfold list_splice_up_right. rewrite Epv. simpl.
  destruct (set_prev_spec l (before hd xs) h) as (h1 & -> & D1 & P1 & N1 & F1); [by apply Hdom|]. simpl.
  destruct (set_next_spec r hd h1) as (h2 & -> & D2 & N2 & P2 & F2).
  { apply elem_of_dom. rewrite D1. apply elem_of_dom. by apply Hdom. }
  simpl. rewrite P2, P1, decide_False, Epv by apply Hne. simpl.
  destruct (set_next_spec (before hd xs) l h2) as (h3 & -> & D3 & N3 & P3 & F3).
  { apply elem_of_dom. rewrite D2, D1. apply elem_of_dom. by eapply dll_in_dom. }
  simpl. destruct (set_prev_spec hd r h3) as (h4 & -> & D4 & P4 & N4 & F4).
  { apply elem_of_dom. rewrite D3, D2, D1. apply elem_of_dom. by eapply prv_dom. }
  exists h4. split_and!; [done| |].
  - rewrite <-(app_nil_r seg). apply (dll_insert_seg h h4 hd xs [] seg l r); rewrite ?app_nil_r; try done;
      intros q; unfold after; simpl.
    + by rewrite N4, N3, N2, N1.
    + by rewrite P4, P3, P2, P1.
  - split; [congruence|]. intros q Hq. rewrite F4, F3, F2, F1; [done|intros ->; apply Hq..];
      clear -Hls Hrs Ha; set_solver.
Qed.

(** * Refinement of the abstract lists *)

Lemma fam_nodup_seg h σ hd xs seg ys :
  fam h σ → σ !! hd = Some (xs ++ seg ++ ys) → NoDup seg ∧ ∀ q, q ∈ seg → ¬ in_fam (<[hd := xs ++ ys]> σ) q.
Proof.
  intros [Hd Hdis] Hhd. destruct (Hd _ _ Hhd) as [Hnd _]. rewrite NoDup_cons, !NoDup_app in Hnd.
  split; [apply Hnd|]. intros q Hq (hd2 & ys2 & E & Hq2).
  apply lookup_insert_Some in E as [[<- <-]|[Hne E]]; [clear -Hnd Hq Hq2; set_solver|].
  apply Hne. eapply (Hdis hd hd2 _ ys2 q); [done..| |done]. clear -Hq. set_solver.
Qed.

(** Cutting a segment out and linking it at the front or the end of a list. *)
Lemma fam_splice front hd hd2 xs seg ys zs l r h σ :
  fam h σ → σ !! hd = Some (xs ++ seg ++ ys) → head seg = Some l → last seg = Some r →
  <[hd := xs ++ ys]> σ !! hd2 = Some zs →
  ∃ h1 h', list_splice_down l r h = Some h1 ∧
    (if front : bool then list_splice_up_left else list_splice_up_right) hd2 l r h1 = Some h' ∧
    fam h' (<[hd2 := if front then seg ++ zs else zs ++ seg]> (<[hd := xs ++ ys]> σ)) ∧ dom h' = dom h.
Proof.
  intros Hf Hhd Hl Hr Hz. pose proof (fam_nodup_seg _ _ _ _ _ _ Hf Hhd) as [Hns Hno]. pose proof Hf as [Hd _].
  destruct (list_splice_down_dll hd xs seg ys l r h) as (h1 & E1 & Hd1 & Hc & Ho1); [by apply Hd|done..|].
  assert (Hf1 : fam h1 (<[hd := xs ++ ys]> σ)).
  { eapply fam_update; [done..| |]; intros q Hq; left; clear -Hq; set_solver. }
  assert (Hdz : dll h1 hd2 zs) by by apply Hf1.
  assert (Hdis : ∀ q, q ∈ seg → q ∉ hd2 :: zs) by (intros q Hq Hin; apply (Hno q Hq); by exists hd2, zs).
  assert (Hdom : ∀ q, q ∈ seg → is_Some (h1 !! q)).
  { intros q Hq. apply elem_of_dom. rewrite (proj1 Ho1). apply elem_of_dom. eapply dll_in_dom; [by apply Hd|].
    clear -Hq. set_solver. }
  assert (Hfin : ∀ h' xs', dll h' hd2 xs' → only h1 h' (seg ++ hd2 :: zs) → (∀ q, q ∈ xs' → q ∈ seg ∨ q ∈ zs) →
    fam h' (<[hd2 := xs']> (<[hd := xs ++ ys]> σ)) ∧ dom h' = dom h).
  { intros h' xs' Hd' Ho Hin. split; [|by rewrite (proj1 Ho), (proj1 Ho1)].
    eapply fam_update; [exact Hf1|exact Hz|done|done| |].
    - intros q Hq. rewrite elem_of_app in Hq. destruct Hq as [Hq|Hq]; [right; by apply Hno|by left].
    - intros q Hq. destruct (Hin q Hq) as [Hq'|Hq']; [right; by apply Hno|by left]. }
  exists h1. destruct front.
  - destruct (list_splice_up_left_dll hd2 zs seg l r h1) as (h' & E & Hd' & Ho); [done..|].
    exists h'. split; [done|]. split; [done|]. apply Hfin; [done..|]. intros q. by rewrite elem_of_app.
  - destruct (list_splice_up_right_dll hd2 zs seg l r h1) as (h' & E & Hd' & Ho); [done..|].
    exists h'. split; [done|]. split; [done|]. apply Hfin; [done..|]. intros q. rewrite elem_of_app. tauto.
Qed.

(** The functions of list.h, as data; the splices move the segment [l..r] to the
    front or the end of another list. *)
Inductive list_op :=
| OpAddHead (_new hd : L)
| OpAddTail (_new hd : L)
| OpDel (x : L)
| OpDelInit (x : L)
| OpPop (hd : L)
| OpSplice (front : bool) (l r hd : L)
| OpEmpty (hd : L)
| OpFirst (hd : L)
| OpIsFirst (x hd : L)
| OpIsLast (x hd : L)
| OpLen (hd : L)
| OpForEach (hd : L)
| OpForEachReverse (hd : L).

(** What a call hands back. *)
Inductive answer := Void | Popped (o : option L) | Found (x : L) | Truth (b : bool) | Count (n : Z) | Visited (xs : list L).

(** The node an operation links, which must have storage. *)
Definition op_new (o : list_op) : list L :=
  match o with OpAddHead n _ | OpAddTail n _ => [n] | _ => [] end.

(** The pointer code. *)
Definition op_heap (o : list_op) h : option (answer * gmap L (node L)) :=
  match o with
  | OpAddHead n hd => h ← list_add_head n hd h; Some (Void, h)
  | OpAddTail n hd => h ← list_add_tail n hd h; Some (Void, h)
  | OpDel x => h ← list_del x h; Some (Void, h)
  | OpDelInit x => h ← list_del_init x h; Some (Void, h)
  | OpPop hd => r ← list_pop hd h; Some (Popped r.1, r.2)
  | OpSplice front l r hd =>
      h ← list_splice_down l r h;
      h ← (if front then list_splice_up_left else list_splice_up_right) hd l r h; Some (Void, h)
  | OpEmpty hd => b ← list_empty hd h; Some (Truth b, h)
  | OpFirst hd => x ← list_first hd h; Some (Found x, h)
  | OpIsFirst x hd => b ← list_is_first x hd h; Some (Truth b, h)
  | OpIsLast x hd => b ← list_is_last x hd h; Some (Truth b, h)
  | OpLen hd => match list_len hd h with Done n h => Some (Count n, h) | _ => None end
  | OpForEach hd => p ← nxt h hd; xs ← list_for_each (size h) hd p h; Some (Visited xs, h)
  | OpForEachReverse hd => p ← prv h hd; xs ← list_for_each_reverse (size h) hd p h; Some (Visited xs, h)
  end.

(** The abstract effect on the family and the answer, as a relation. *)
Inductive op_abs : list_op → gmap L (list L) → answer → gmap L (list L) → Prop :=
| abs_add_head n hd xs σ :
    σ !! hd = Some xs → ¬ in_fam σ n → op_abs (OpAddHead n hd) σ Void (<[hd := n :: xs]> σ)
| abs_add_tail n hd xs σ :
    σ !! hd = Some xs → ¬ in_fam σ n → op_abs (OpAddTail n hd) σ Void (<[hd := xs ++ [n]]> σ)
| abs_del x hd xs ys σ :
    σ !! hd = Some (xs ++ x :: ys) → op_abs (OpDel x) σ Void (<[hd := xs ++ ys]> σ)
| abs_del_init x hd xs ys σ :
    σ !! hd = Some (xs ++ x :: ys) → op_abs (OpDelInit x) σ Void (<[hd := xs ++ ys]> σ)
| abs_pop_empty hd σ :
    σ !! hd = Some [] → op_abs (OpPop hd) σ (Popped None) σ
| abs_pop hd x xs σ :
    σ !! hd = Some (x :: xs) → op_abs (OpPop hd) σ (Popped (Some x)) (<[hd := xs]> σ)
| abs_splice front l r hd hd2 xs seg ys zs σ :
    σ !! hd = Some (xs ++ seg ++ ys) → head seg = Some l → last seg = Some r → <[hd := xs ++ ys]> σ !! hd2 = Some zs →
    op_abs (OpSplice front l r hd2) σ Void (<[hd2 := if front then seg ++ zs else zs ++ seg]> (<[hd := xs ++ ys]> σ))
| abs_empty hd xs σ :
    σ !! hd = Some xs → op_abs (OpEmpty hd) σ (Truth (bool_decide (xs = []))) σ
| abs_first hd xs σ :
    σ !! hd = Some xs → op_abs (OpFirst hd) σ (Found (default hd (head xs))) σ
| abs_is_first x hd xs ys σ :
    σ !! hd = Some (xs ++ x :: ys) → op_abs (OpIsFirst x hd) σ (Truth (bool_decide (xs = []))) σ
| abs_is_last x hd xs ys σ :
    σ !! hd = Some (xs ++ x :: ys) → op_abs (OpIsLast x hd) σ (Truth (bool_decide (ys = []))) σ
| abs_len hd xs σ :
    σ !! hd = Some xs → Z.of_nat (length xs) <= 1000000 → op_abs (OpLen hd) σ (Count (Z.of_nat (length xs))) σ
| abs_for_each hd xs σ :
    σ !! hd = Some xs → op_abs (OpForEach hd) σ (Visited xs) σ
| abs_for_each_reverse hd xs σ :
    σ !! hd = Some xs → op_abs (OpForEachReverse hd) σ (Visited (reverse xs)) σ.

Fixpoint ops_heap (os : list list_op) h : option (list answer * gmap L (node L)) :=
  match os with
  | [] => Some ([], h)
  | o :: os => r ← op_heap o h; rs ← ops_heap os r.2; Some (r.1 :: rs.1, rs.2)
  end.

Inductive ops_abs : list list_op → gmap L (list L) → list answer → gmap L (list L) → Prop :=
| ops_abs_nil σ : ops_abs [] σ [] σ
| ops_abs_cons o os v vs σ1 σ2 σ3 :
    op_abs o σ1 v σ2 → ops_abs os σ2 vs σ3 → ops_abs (o :: os) σ1 (v :: vs) σ3.

Lemma is_first_dll x hd xs ys h :
  dll h hd (xs ++ x :: ys) → list_is_first x hd h = Some (bool_decide (xs = [])).
Proof.
  intros [Hnd Hp]. apply path_app in Hp as [Hp _]. unfold list_is_first. rewrite (path_last _ _ _ _ Hp). simpl. f_equal.
  apply bool_decide_ext. destruct xs as [|y xs _] using rev_ind; [done|]. rewrite last_snoc. simpl.
  split; [|by destruct xs]. intros ->. exfalso. apply NoDup_cons in Hnd as [Hnd _]. clear -Hnd. set_solver.
Qed.
Lemma is_last_dll x hd xs ys h :
  dll h hd (xs ++ x :: ys) → list_is_last x hd h = Some (bool_decide (ys = [])).
Proof.
  intros [Hnd Hp]. apply path_app in Hp as [_ Hp]. unfold list_is_last. rewrite (path_first _ _ _ _ Hp). simpl. f_equal.
  apply bool_decide_ext. destruct ys as [|y ys]; [done|]. simpl.
  split; [|done]. intros ->. exfalso. apply NoDup_cons in Hnd as [Hnd _]. clear -Hnd. set_solver.
Qed.
Lemma list_len_dll hd xs h :
  dll h hd xs → Z.of_nat (length xs) <= 1000000 → list_len hd h = Done (Z.of_nat (length xs)) h.
Proof.
  intros Hd Hle. pose proof (length_dll _ _ _ Hd). destruct Hd as [Hnd Hp]. unfold list_len.
  destruct (list_len_loop_path h hd xs hd (S (size h)) 0) as (p & -> & ->); [done| |lia|done|done|done].
  rewrite NoDup_cons in Hnd. tauto.
Qed.

Lemma op_refines o h v σ σ' :
  fam h σ → op_abs o σ v σ' → (∀ n, n ∈ op_new o → is_Some (h !! n)) →
  ∃ h', op_heap o h = Some (v, h') ∧ fam h' σ' ∧ dom h' = dom h.
Proof.
  intros Hf Ha Hn. pose proof Hf as [Hd _]. destruct Ha as
    [n hd xs σ E|n hd xs σ E|x hd xs ys σ E|x hd xs ys σ E|hd σ E|hd x xs σ E|front l r hd hd2 xs seg ys zs σ E El Er Ez
    |hd xs σ E|hd xs σ E|x hd xs ys σ E|x hd xs ys σ E|hd xs σ E|hd xs σ E|hd xs σ E]; simpl in *.
  - edestruct fam_add_head as (h' & -> & ? & ? & [? _]); eauto. apply Hn. by left.
  - edestruct fam_add_tail as (h' & -> & ? & ? & [? _]); eauto. apply Hn. by left.
  - edestruct fam_del as (h' & -> & ? & ? & [? _]); eauto.
  - edestruct fam_del_init as (h' & -> & ? & ? & [? _]); eauto.
  - edestruct fam_pop as (h' & -> & Hf' & ? & [? _]); eauto. simpl in *. rewrite insert_id in Hf' by done. eauto.
  - edestruct fam_pop as (h' & -> & ? & ? & [? _]); eauto.
  - edestruct (fam_splice front) as (h1 & h' & -> & E' & ? & ?); eauto. simpl. rewrite E'. eauto.
  - rewrite (list_empty_dll hd xs) by by apply Hd. eauto.
  - unfold list_first. rewrite (path_first h hd xs hd) by apply (Hd _ _ E). eauto.
  - rewrite (is_first_dll x hd xs ys) by by apply Hd. eauto.
  - rewrite (is_last_dll x hd xs ys) by by apply Hd. eauto.
  - rewrite (list_len_dll hd xs) by (done || by apply Hd). eauto.
  - destruct (list_for_each_dll hd xs h) as (p & -> & E'); [by apply Hd|]. simpl. rewrite E'. eauto.
  - destruct (list_for_each_reverse_dll hd xs h) as (p & -> & E'); [by apply Hd|]. simpl. rewrite E'. eauto.
Qed.

End list_ops.

Arguments list_op : clear implicits.
Arguments answer : clear implicits.

(** C35: The pointer code of list.h refines the abstract lists.  From a heap
    that represents a family of disjoint lists, any sequence of additions,
    removals, pops, moves of a segment to the front or the end of a list, and
    queries and traversals that is legal on the abstract lists (a node is only
    added when it is on no list, and has storage; a list that is counted has at
    most 1000000 nodes) runs without a fault, hands back what the abstract lists
    give (the popped node, the first node, the truth values, the length, the
    nodes visited) and ends in a heap that represents the abstract result. *)
Theorem list_ops_refine `{Countable L} (os : list (list_op L)) h σ vs σ' :
  fam h σ → ops_abs os σ vs σ' →
  (∀ o n, o ∈ os → n ∈ op_new o → is_Some (h !! n)) →
  ∃ h', ops_heap os h = Some (vs, h') ∧ fam h' σ'.
Proof.
  intros Hf Ha. revert h Hf. induction Ha as [σ|o os v vs σ1 σ2 σ3 Ho _ IH]; intros h Hf Hn.
  { exists h. done. }
  destruct (op_refines o h v σ1 σ2 Hf Ho) as (h1 & Eh & Hf1 & Hdom).
  { intros n. apply Hn. by left. }
  destruct (IH h1 Hf1) as (h' & Es & Hf').
  { intros o' n ??. rewrite <-elem_of_dom, Hdom, elem_of_dom. eapply Hn; [by right|done]. }
  exists h'. split; [|done]. simpl. rewrite Eh. simpl. by rewrite Es.
Qed.

Create HintDb dll_db.
#[export] Hint Resolve only_refl dll_in_dom : dll_db.

(** A head 0 with two free nodes 1 and 2. *)
Definition demo_heap : gmap Z (node Z) := {[0 := Node 0 0; 1 := Node 1 1; 2 := Node 2 2]}.

Lemma demo_heap_fam : fam demo_heap {[0 := []]}.
Proof.
  split.
  - intros hd xs [<- <-]%lookup_singleton_Some. split; [apply NoDup_singleton|]. done.
  - intros hd1 hd2 xs1 xs2 q [<- _]%lookup_singleton_Some [<- _]%lookup_singleton_Some. done.
Qed.

Lemma list_ops_refine_witness :
  ∃ h', ops_heap [OpAddTail 1 0; OpAddHead 2 0; OpSplice false 2 2 0; OpPop 0; OpLen 0] demo_heap =
      Some ([Void; Void; Void; Popped (Some 1); Count 1], h') ∧
    fam h' (<[0 := [2]]> (<[0 := [1; 2]]> (<[0 := [1]]> (<[0 := [2; 1]]> (<[0 := [1]]> {[0 := []]}))))).
Proof.
  apply (list_ops_refine _ demo_heap {[0 := []]}); [apply demo_heap_fam| |].
  - eapply ops_abs_cons; [apply (abs_add_tail 1 0 []); [done|]|].
    { intros (hd & xs & [<- <-]%lookup_singleton_Some & Hq). set_solver. }
    eapply ops_abs_cons; [apply (abs_add_head 2 0 [1]); [done|]|].
    { intros (hd & xs & [[<- <-]|[? [<- <-]%lookup_singleton_Some]]%lookup_insert_Some & Hq); set_solver. }
    eapply ops_abs_cons; [by apply (abs_splice false 2 2 0 0 [] [2] [1] [1])|].
    eapply ops_abs_cons; [by apply (abs_pop 0 1 [2])|].
    eapply ops_abs_cons; [by apply (abs_len 0 [2])|]. constructor.
  - intros o n Ho Hn. repeat (apply elem_of_cons in Ho as [->|Ho]; [|]); simpl in Hn;
      try (apply list_elem_of_singleton in Hn as ->; by eexists);
      try (by apply elem_of_nil in Hn); by apply elem_of_nil in Ho.
Defined.
