(* ===== verification/Containers.v ===== *)
(** The containers built on list.h: the queue of include/lib/fifo.h, the
    chained hash table of include/lib/hash.h and lib/hash.c, and the two-level
    LRU of lib/lru.c. *)
From S2P Require Import Prelude ListLib.

(** * fifo.h *)
Module Fifo.
Section fifo.
Context `{Countable L}.

Record fifo := { f_size : Z; f_list : L }.

Definition fifo_init (head : L) (h : gmap L (node L)) : fifo * gmap L (node L) :=
  ({| f_size := 0; f_list := head |}, INIT_LIST_HEAD head h).

Definition fifo_push (q : fifo) (entry : L) (h : gmap L (node L)) :
    option (fifo * gmap L (node L)) :=
  h ← list_add_tail entry (f_list q) h;
  Some ({| f_size := f_size q + 1; f_list := f_list q |}, h).

Definition fifo_empty (q : fifo) : bool := f_size q =? 0.

Definition fifo_pop (q : fifo) (h : gmap L (node L)) :
    option (option L * fifo * gmap L (node L)) :=
  e ← list_empty (f_list q) h;
  if (e : bool) then Some (None, q, h) else
    let q := {| f_size := f_size q - 1; f_list := f_list q |} in
    '(r, h) ← list_pop (f_list q) h;
    Some (r, q, h).

(** The queue holds the entries [xs], oldest first. *)
Definition fifo_repr (q : fifo) (h : gmap L (node L)) (xs : list L) : Prop :=
  dll h (f_list q) xs ∧ f_size q = Z.of_nat (length xs).

Lemma fifo_init_repr head h :
  fifo_repr (fifo_init head h).1 (fifo_init head h).2 [].
Proof. split; [apply dll_init|done]. Qed.

Lemma fifo_push_repr q entry h xs :
  fifo_repr q h xs → entry ∉ f_list q :: xs → is_Some (h !! entry) →
  ∃ q' h', fifo_push q entry h = Some (q', h') ∧ fifo_repr q' h' (xs ++ [entry]) ∧
    f_list q' = f_list q ∧ only h h' (entry :: f_list q :: xs).
Proof.
  intros [Hd Hs] Hn Hdom. unfold fifo_push.
  destruct (list_add_tail_dll entry _ _ _ Hd Hn Hdom) as (h' & -> & ? & ?). simpl.
  eexists _, _. split; [done|]. split; [|done]. split; [done|].
  simpl. rewrite length_app. simpl. lia.
Qed.

Lemma fifo_pop_repr q h xs :
  fifo_repr q h xs →
  ∃ q' h', fifo_pop q h = Some (head xs, q', h') ∧ fifo_repr q' h' (tail xs) ∧
    f_list q' = f_list q ∧ dom h' = dom h.
Proof.
  intros [Hd Hs]. unfold fifo_pop. rewrite (list_empty_dll _ _ _ Hd). simpl.
  destruct xs as [|x xs].
  - rewrite bool_decide_true by done. eexists _, _. split; [done|]. by split_and!.
  - rewrite bool_decide_false by done.
    destruct (list_pop_dll _ _ _ Hd) as (h' & -> & ? & _ & [? _]). simpl.
    eexists _, _. split; [done|]. split; [|done]. split; [done|]. simpl in *. lia.
Qed.

Lemma fifo_empty_repr q h xs :
  fifo_repr q h xs → fifo_empty q = bool_decide (xs = []).
Proof.
  intros [_ Hs]. unfold fifo_empty. rewrite Hs. by destruct xs.
Qed.

(** Pushing a list of entries, and popping until the queue is empty. *)
Fixpoint fifo_push_all (q : fifo) (xs : list L) (h : gmap L (node L)) :
    option (fifo * gmap L (node L)) :=
  match xs with
  | [] => Some (q, h)
  | x :: xs => '(q, h) ← fifo_push q x h; fifo_push_all q xs h
  end.
Fixpoint fifo_pop_n (n : nat) (q : fifo) (h : gmap L (node L)) :
    option (list L * fifo * gmap L (node L)) :=
  match n with
  | O => Some ([], q, h)
  | S n =>
      '(r, q, h) ← fifo_pop q h;
      match r with
      | None => Some ([], q, h)
      | Some x => '(xs, q, h) ← fifo_pop_n n q h; Some (x :: xs, q, h)
      end
  end.

Lemma fifo_push_all_repr q h xs ys :
  fifo_repr q h xs → NoDup (f_list q :: xs ++ ys) → (∀ y, y ∈ ys → is_Some (h !! y)) →
  ∃ q' h', fifo_push_all q ys h = Some (q', h') ∧ fifo_repr q' h' (xs ++ ys).
Proof.
  revert q h xs. induction ys as [|y ys IH]; intros q h xs Hr Hnd Hdom; simpl.
  { rewrite app_nil_r. eauto. }
  assert (Hny : y ∉ f_list q :: xs).
  { apply NoDup_cons in Hnd as [H1 [_ [H2 _]]%NoDup_app]. clear -H1 H2. set_solver. }
  destruct (fifo_push_repr q y h xs Hr Hny) as (q1 & h1 & -> & Hr1 & El & [Hd _]).
  { apply Hdom. by left. }
  simpl. destruct (IH q1 h1 (xs ++ [y]) Hr1) as (q2 & h2 & ? & ?).
  - rewrite El, <-app_assoc. done.
  - intros z Hz. rewrite <-elem_of_dom, Hd, elem_of_dom. apply Hdom. by right.
  - rewrite <-app_assoc in *. eauto.
Qed.

Lemma fifo_pop_n_repr q h xs :
  fifo_repr q h xs →
  ∃ q' h', fifo_pop_n (length xs) q h = Some (xs, q', h') ∧ fifo_repr q' h' [].
Proof.
  revert q h. induction xs as [|x xs IH]; intros q h Hr; simpl; [eauto|].
  destruct (fifo_pop_repr q h (x :: xs) Hr) as (q1 & h1 & -> & Hr1 & _). simpl.
  destruct (IH q1 h1 Hr1) as (q2 & h2 & -> & ?). simpl. eauto.
Qed.

End fifo.
Arguments fifo : clear implicits.

(** The queue is first-in first-out: pushing distinct entries onto a fresh
    queue and popping as many returns them in the order they were pushed, and
    leaves a queue that [fifo_empty] reports empty. *)
Theorem fifo_order `{Countable L} (head : L) (h : gmap L (node L)) (xs : list L) :
  NoDup (head :: xs) → (∀ x, x ∈ xs → is_Some (h !! x)) →
  ∃ q h1 q' h', fifo_push_all (fifo_init head h).1 xs (fifo_init head h).2 = Some (q, h1) ∧
    f_size q = Z.of_nat (length xs) ∧
    fifo_pop_n (length xs) q h1 = Some (xs, q', h') ∧ fifo_empty q' = true.
Proof.
  intros Hnd Hdom.
  destruct (fifo_push_all_repr (fifo_init head h).1 (fifo_init head h).2 [] xs)
    as (q & h1 & E1 & Hr).
  - apply fifo_init_repr.
  - done.
  - intros y Hy. simpl. unfold INIT_LIST_HEAD. rewrite lookup_insert. case_decide; eauto.
  - destruct (fifo_pop_n_repr q h1 xs Hr) as (q' & h' & E2 & Hr').
    exists q, h1, q', h'. split_and!; [done|apply Hr|done|].
    rewrite (fifo_empty_repr _ _ _ Hr'). done.
Qed.

(** The theorem on a queue of three entries. *)
Lemma fifo_order_witness :
  let h0 := <[1 := Node 1 1]> (<[2 := Node 2 2]> (<[3 := Node 3 3]> (∅ : gmap Z (node Z)))) in
  ∃ q h1 q' h', fifo_push_all (fifo_init 0 h0).1 [3; 1; 2] (fifo_init 0 h0).2 = Some (q, h1) ∧
    f_size q = 3 ∧ fifo_pop_n 3 q h1 = Some ([3; 1; 2], q', h') ∧ fifo_empty q' = true.
Proof.
  intros h0. apply (fifo_order 0 h0 [3; 1; 2]).
  - by apply (bool_decide_unpack _).
  - intros x Hx. repeat (apply elem_of_cons in Hx as [->|Hx]; [by eexists|]).
    by apply elem_of_nil in Hx.
Defined.
End Fifo.

(** * hash.h and hash.c *)
Module Hash.
Section chains.
Context `{Countable L}.

(** The number of nodes on the chains with heads [hs]. *)
Definition chain_len (σ : gmap L (list L)) (hs : list L) : nat :=
  sum_list_with (λ hd, length (default [] (σ !! hd))) hs.

Lemma chain_len_insert σ hs hd xs xs' :
  NoDup hs → hd ∈ hs → σ !! hd = Some xs →
  (chain_len (<[hd := xs']> σ) hs + length xs = chain_len σ hs + length xs')%nat.
Proof.
  induction hs as [|y hs IH]; intros Hnd Hin Hs; [by apply elem_of_nil in Hin|].
  apply NoDup_cons in Hnd as [Hy Hnd]. unfold chain_len in *. simpl.
  apply elem_of_cons in Hin as [<-|Hin].
  - rewrite lookup_insert_eq, Hs. simpl.
    assert (E : ∀ l, hd ∉ l → sum_list_with (λ z, length (default [] (<[hd:=xs']> σ !! z))) l =
      sum_list_with (λ z, length (default [] (σ !! z))) l).
    { intros l. induction l as [|z l IHl]; simpl; [done|]. intros Hz.
      rewrite lookup_insert_ne, IHl by set_solver. done. }
    rewrite E by done. lia.
  - assert (y ≠ hd) by set_solver. rewrite lookup_insert_ne by done. specialize (IH Hnd Hin Hs). lia.
Qed.

(** The family of empty chains [hash_init] builds. *)
Definition init_fam (hs : list L) : gmap L (list L) := gset_to_gmap [] (list_to_set hs).

Lemma init_fam_lookup (hs : list L) hd xs : init_fam hs !! hd = Some xs ↔ hd ∈ hs ∧ xs = [].
Proof.
  unfold init_fam. rewrite lookup_gset_to_gmap_Some, elem_of_list_to_set. naive_solver.
Qed.

Lemma foldl_init_lookup (hs : list L) (h : gmap L (node L)) (q : L) :
  foldl (λ h hd, INIT_LIST_HEAD hd h) h hs !! q =
    if decide (q ∈ hs) then Some (Node q q) else h !! q.
Proof.
  revert h. induction hs as [|y hs IH]; intros h; cbn [foldl].
  { by rewrite decide_False by apply not_elem_of_nil. }
  rewrite IH. unfold INIT_LIST_HEAD. rewrite lookup_insert.
  destruct (decide (q ∈ hs)), (decide (y = q)) as [->|], (decide (q ∈ _ :: hs)); set_solver.
Qed.

Lemma init_fam_fam (hs : list L) (h : gmap L (node L)) : fam (foldl (λ h hd, INIT_LIST_HEAD hd h) h hs) (init_fam hs).
Proof.
  split.
  - intros hd xs [Hin ->]%init_fam_lookup. split; [apply NoDup_singleton|].
    simpl. unfold links, nxt, prv. rewrite foldl_init_lookup, decide_True by done. done.
  - intros hd1 hd2 xs1 xs2 q [_ ->]%init_fam_lookup [_ ->]%init_fam_lookup. set_solver.
Qed.
End chains.

Section hash.
Context `{Countable L}.
(** [keyof x]: the key member of the structure that embeds the node [x]. *)
Context (keyof : L → option Z).

Record hash_table := {
  size : Z;
  count : Z;
  name : list Z;
  heads : list L;
}.

(** [hash_init]: [heads] is what [kmalloc] returned, [None] being NULL; the
    result is the function's return value. *)
Definition hash_init (sz : Z) (nm : list Z) (hs : option (list L)) (h : gmap L (node L)) :
    Z * hash_table * gmap L (node L) :=
  match hs with
  | None => (0, {| size := sz; count := 0; name := nm; heads := [] |}, h)
  | Some hs =>
      (1, {| size := sz; count := 0; name := nm; heads := hs |},
       foldl (λ h hd, INIT_LIST_HEAD hd h) h hs)
  end.

Definition _hash (ht : hash_table) (key : Z) : Z := Z.rem key (size ht).
(** [&heads[i]], a fault for an index that is not one of the array. *)
Definition chain (ht : hash_table) (key : Z) : option L :=
  if _hash ht key <? 0 then None else heads ht !! Z.to_nat (_hash ht key).

Definition set_count (c : Z) (ht : hash_table) : hash_table :=
  {| size := size ht; count := c; name := name ht; heads := heads ht |}.

Definition hash_empty (ht : hash_table) (key : Z) (h : gmap L (node L)) : option bool :=
  hd ← chain ht key; list_empty hd h.

Definition hash_add_tail (ht : hash_table) (key : Z) (x : L) (h : gmap L (node L)) :
    option (hash_table * gmap L (node L)) :=
  hd ← chain ht key;
  h ← list_add_tail x hd h;
  Some (set_count (count ht + 1) ht, h).

Definition hash_add_head (ht : hash_table) (key : Z) (x : L) (h : gmap L (node L)) :
    option (hash_table * gmap L (node L)) :=
  hd ← chain ht key;
  h ← list_add_head x hd h;
  Some (set_count (count ht + 1) ht, h).

(** The loop of [hash_find]: [Some None] is the NULL result. *)
Fixpoint hash_find_loop (fuel : nat) (hd pos : L) (key : Z) (h : gmap L (node L)) :
    option (option L) :=
  if decide (pos = hd) then Some None else
    match fuel with
    | O => None
    | S fuel =>
        k ← keyof pos;
        if k =? key then Some (Some pos) else
          nx ← nxt h pos; hash_find_loop fuel hd nx key h
    end.
Definition hash_find (ht : hash_table) (key : Z) (h : gmap L (node L)) : option (option L) :=
  hd ← chain ht key;
  pos ← nxt h hd;
  hash_find_loop (base.size h) hd pos key h.

Definition hash_del_node (ht : hash_table) (entry : L) (h : gmap L (node L)) :
    option (hash_table * gmap L (node L)) :=
  h ← list_del entry h;
  Some (set_count (count ht - 1) ht, h).

Definition hash_del (ht : hash_table) (key : Z) (h : gmap L (node L)) :
    option (option L * hash_table * gmap L (node L)) :=
  pos ← hash_find ht key h;
  match pos with
  | Some x => '(ht, h) ← hash_del_node ht x h; Some (Some x, ht, h)
  | None => Some (None, ht, h)
  end.

(** ** Well-formed tables

    [σ] is the family of lists of the heap; the chains of the table are among
    them, each node sits on the chain of its key, and [count] is the number of
    linked nodes. *)
Record hash_ok (ht : hash_table) (σ : gmap L (list L)) (h : gmap L (node L)) : Prop := {
  ok_fam : fam h σ;
  ok_size : 0 < size ht;
  ok_heads : Z.of_nat (length (heads ht)) = size ht;
  ok_nodup : NoDup (heads ht);
  ok_lists : ∀ hd, hd ∈ heads ht → is_Some (σ !! hd);
  ok_keys : ∀ i hd xs x, heads ht !! i = Some hd → σ !! hd = Some xs → x ∈ xs →
    ∃ k, keyof x = Some k ∧ 0 <= k ∧ k mod size ht = Z.of_nat i;
  ok_count : count ht = Z.of_nat (chain_len σ (heads ht));
}.

(** The node lists of the chain of [key]. *)
Definition chain_of (ht : hash_table) (σ : gmap L (list L)) (key : Z) : list L :=
  match chain ht key with Some hd => default [] (σ !! hd) | None => [] end.

Lemma chain_ok ht σ h key :
  hash_ok ht σ h → 0 <= key →
  ∃ i hd xs, Z.of_nat i = key mod size ht ∧ heads ht !! i = Some hd ∧
    chain ht key = Some hd ∧ σ !! hd = Some xs ∧ chain_of ht σ key = xs.
Proof.
  intros Hok Hk. destruct Hok as [_ Hs Hl _ Hls _ _].
  assert (Hr : _hash ht key = key mod size ht) by (apply rem_mod; lia).
  pose proof (Z.mod_pos_bound key (size ht) Hs) as Hb.
  destruct (heads ht !! Z.to_nat (key mod size ht)) as [hd|] eqn:E.
  - destruct (Hls hd) as [xs Hxs]; [by eapply list_elem_of_lookup_2|].
    assert (Hc : chain ht key = Some hd).
    { unfold chain. rewrite Hr. destruct (Z.ltb_spec (key mod size ht) 0); [lia|done]. }
    exists (Z.to_nat (key mod size ht)), hd, xs. split_and!; [lia|done..|].
    unfold chain_of. rewrite Hc, Hxs. done.
  - apply lookup_ge_None in E. lia.
Qed.

Lemma hash_find_loop_path h a xs b key (fuel : nat) :
  path h a xs b → b ∉ xs → (length xs <= fuel)%nat →
  (∀ x, x ∈ xs → is_Some (keyof x)) →
  ∃ p, nxt h a = Some p ∧
    hash_find_loop fuel b p key h = Some (list_find (λ x, keyof x = Some key) xs ≫= λ p, Some p.2).
Proof.
  revert a fuel. induction xs as [|x xs IH]; intros a fuel Hp Hb Hf Hk; simpl in *.
  - destruct Hp as [Hn _]. exists b. split; [done|]. destruct fuel; simpl; by rewrite decide_True.
  - destruct Hp as [[Hn _] Hp]. exists x. split; [done|].
    destruct fuel as [|fuel]; simpl in *; [lia|]. rewrite decide_False by set_solver.
    destruct (Hk x) as [k Ek]; [by left|]. rewrite Ek. simpl.
    destruct (Z.eqb_spec k key) as [->|Hne].
    + by rewrite decide_True.
    + rewrite decide_False by congruence.
      destruct (IH x fuel Hp) as (p & -> & E); [set_solver|lia|set_solver|]. simpl.
      rewrite E. by destruct (list_find _ xs) as [[]|].
Qed.

(** [hash_find] returns the first node of the key's chain with that key. *)
Lemma hash_find_spec ht σ h key :
  hash_ok ht σ h → 0 <= key →
  hash_find ht key h =
    Some (list_find (λ x, keyof x = Some key) (chain_of ht σ key) ≫= λ p, Some p.2).
Proof.
  intros Hok Hk. destruct (chain_ok ht σ h key Hok Hk) as (i & hd & xs & Hi & Hh & Hc & Hx & ->).
  unfold hash_find. rewrite Hc. simpl.
  assert (Hd : dll h hd xs) by (by apply (ok_fam _ _ _ Hok)).
  pose proof (length_dll _ _ _ Hd). destruct Hd as [Hnd Hp].
  destruct (hash_find_loop_path h hd xs hd key (base.size h)) as (p & -> & E); [done| |lia| |].
  - by apply NoDup_cons in Hnd as [? _].
  - intros x Hin. destruct (ok_keys _ _ _ Hok i hd xs x) as (k & ? & _); eauto.
  - done.
Qed.

(** A node with the key is found exactly when one is linked in the table. *)
Lemma hash_find_complete ht σ h key :
  hash_ok ht σ h → 0 <= key →
  match hash_find ht key h with
  | Some (Some x) => x ∈ chain_of ht σ key ∧ keyof x = Some key
  | Some None => ∀ hd xs x, hd ∈ heads ht → σ !! hd = Some xs → x ∈ xs → keyof x ≠ Some key
  | None => False
  end.
Proof.
  intros Hok Hk. rewrite (hash_find_spec ht σ h key Hok Hk).
  destruct (list_find _ _) as [[j x]|] eqn:E; simpl.
  - apply list_find_Some in E as (Hl & ? & _). split; [|done].
    by eapply list_elem_of_lookup_2.
  - apply list_find_None in E. intros hd xs x Hhd Hxs Hx Hkey.
    apply list_elem_of_lookup in Hhd as [i Hi].
    destruct (ok_keys _ _ _ Hok i hd xs x) as (k & Hkx & Hk0 & Hkm); [done..|].
    rewrite Hkx in Hkey. injection Hkey as ->.
    destruct (chain_ok ht σ h key Hok Hk) as (i' & hd' & xs' & Hi' & Hh' & Hc & Hx' & Heq).
    assert (i' = i) as -> by lia. rewrite Hi in Hh'. injection Hh' as <-.
    rewrite Hxs in Hx'. injection Hx' as <-. rewrite Heq in E.
    rewrite Forall_forall in E. by apply (E x Hx).
Qed.

(** Adding a node at the head of its chain keeps the table well formed. *)
Lemma hash_add_head_ok ht σ h key x :
  hash_ok ht σ h → 0 <= key → keyof x = Some key → ¬ in_fam σ x → is_Some (h !! x) →
  ∃ hd h', hash_add_head ht key x h = Some (set_count (count ht + 1) ht, h') ∧
    chain ht key = Some hd ∧ only h h' (x :: hd :: chain_of ht σ key) ∧
    hash_ok (set_count (count ht + 1) ht) (<[hd := x :: chain_of ht σ key]> σ) h'.
Proof.
  intros Hok Hk Hkey Hno Hdom.
  destruct (chain_ok ht σ h key Hok Hk) as (i & hd & xs & Hi & Hh & Hc & Hx & ->).
  unfold hash_add_head. rewrite Hc. simpl.
  destruct (fam_add_head x hd xs h σ) as (h' & -> & Hf & _ & Ho);
    [apply (ok_fam _ _ _ Hok)|done..|].
  simpl. exists hd, h'. split_and!; [done..|].
  destruct Hok as [_ Hs Hl Hnd Hls Hks Hcnt]. split; simpl; [done..| | |].
  - intros hd' Hin. rewrite lookup_insert. case_decide; eauto.
  - intros i' hd' xs' y Hi' Hs' Hy. rewrite lookup_insert in Hs'. case_decide.
    + simplify_eq. assert (i' = i) as -> by (eapply NoDup_lookup; eauto).
      apply elem_of_cons in Hy as [->|Hy]; [eauto|]. by eapply (Hks i hd').
    + by eapply Hks.
  - pose proof (chain_len_insert σ (heads ht) hd xs (x :: xs) Hnd) as Hcl.
    rewrite Hcnt. simpl in Hcl. rewrite <-(Nat2Z.inj_add _ 1).
    f_equal. assert (hd ∈ heads ht) by (by eapply list_elem_of_lookup_2).
    specialize (Hcl ltac:(done) Hx). lia.
Qed.

Lemma hash_init_ok sz nm hs h :
  0 < sz → Z.of_nat (length hs) = sz → NoDup hs →
  hash_ok (hash_init sz nm (Some hs) h).1.2 (init_fam hs) (hash_init sz nm (Some hs) h).2.
Proof.
  intros Hs Hl Hnd. split; simpl; [apply init_fam_fam|done..| | |].
  - intros hd Hin. exists []. by apply init_fam_lookup.
  - intros i hd xs x _ [_ ->]%init_fam_lookup ?%elem_of_nil. done.
  - assert (E : ∀ l, (∀ y, y ∈ l → y ∈ hs) → chain_len (init_fam hs) l = 0%nat).
    { unfold chain_len. induction l as [|y l IH]; intros Hsub; simpl; [done|].
      rewrite IH by set_solver. assert (Hy : init_fam hs !! y = Some []).
      { apply init_fam_lookup. set_solver. }
      rewrite Hy. done. }
    by rewrite E.
Qed.

End hash.
Arguments hash_table : clear implicits.

(** A well-formed table stays one when its chains and their keys stay. *)
Lemma hash_ok_frame `{Countable L} (keyf keyf' : L → option Z) t (σ σ' : gmap L (list L)) h h' :
  hash_ok keyf t σ h → fam h' σ' → (∀ hd, hd ∈ heads t → σ' !! hd = σ !! hd) →
  (∀ x k, keyf x = Some k → keyf' x = Some k) → hash_ok keyf' t σ' h'.
Proof.
  intros [Hf Hs Hl Hnd Hls Hk Hc] Hf' Hsame Hkf. split; [done..| | |].
  - intros hd Hin. rewrite Hsame by done. by apply Hls.
  - intros i hd xs x Hi Hx Hin. rewrite Hsame in Hx by by eapply list_elem_of_lookup_2.
    destruct (Hk i hd xs x Hi Hx Hin) as (k & ? & ?). eauto.
  - rewrite Hc. f_equal. unfold chain_len. clear -Hsame.
    induction (heads t) as [|a l IH]; simpl; [done|]. rewrite Hsame by by left.
    rewrite IH; [done|]. intros hd Hin. apply Hsame. by right.
Qed.

Lemma chain_of_frame `{Countable L} t (σ σ' : gmap L (list L)) key :
  (∀ hd, hd ∈ heads t → σ' !! hd = σ !! hd) → chain_of t σ' key = chain_of t σ key.
Proof.
  intros Hs. unfold chain_of, chain. case_match eqn:E; [|done].
  case_match; [done|]. rewrite Hs; [done|]. by eapply list_elem_of_lookup_2.
Qed.

Lemma chain_in `{Countable L} (keyf : L → option Z) t σ h key x :
  hash_ok keyf t σ h → 0 <= key → x ∈ chain_of t σ key →
  ∃ hd xs, hd ∈ heads t ∧ σ !! hd = Some xs ∧ x ∈ xs.
Proof.
  intros Hok Hk Hx. destruct (chain_ok keyf t σ h key Hok Hk) as (i & hd & xs & _ & Hh & _ & E & Ec).
  exists hd, xs. split_and!; [by eapply list_elem_of_lookup_2|done|by rewrite <-Ec].
Qed.

(** A node added to a well-formed table under its key is the one a lookup of
    that key returns, and lookups of every other key return what they returned
    before; the table stays well formed with one more node counted. *)
Theorem hash_add_find `{Countable L} (keyof : L → option Z) ht σ h key x :
  hash_ok keyof ht σ h → 0 <= key → keyof x = Some key → ¬ in_fam σ x → is_Some (h !! x) →
  ∃ ht' h' σ', hash_add_head ht key x h = Some (ht', h') ∧ hash_ok keyof ht' σ' h' ∧
    count ht' = count ht + 1 ∧
    hash_find keyof ht' key h' = Some (Some x) ∧
    ∀ key', 0 <= key' → key' ≠ key → hash_find keyof ht' key' h' = hash_find keyof ht key' h.
Proof.
  intros Hok Hk Hkey Hno Hdom.
  destruct (hash_add_head_ok keyof ht σ h key x) as (hd & h' & E & Hc & _ & Hok'); [done..|].
  eexists _, h', _. split_and!; [done|done|done|..].
  - rewrite (hash_find_spec _ _ _ _ _ Hok') by done. unfold chain_of at 1.
    change (chain (set_count (count ht + 1) ht) key) with (chain ht key).
    rewrite Hc, lookup_insert_eq. simpl. by rewrite decide_True.
  - intros key' Hk' Hne. rewrite (hash_find_spec _ _ _ _ _ Hok'), (hash_find_spec _ _ _ _ _ Hok)
      by done. f_equal. unfold chain_of at 1.
    change (chain (set_count (count ht + 1) ht) key') with (chain ht key').
    destruct (chain ht key') as [hd'|] eqn:Hc'; [|unfold chain_of; by rewrite Hc'].
    rewrite lookup_insert. case_decide as Hd.
    + subst hd'. simpl. rewrite decide_False by congruence.
      unfold chain_of. rewrite Hc, Hc'. by destruct (list_find _ _) as [[]|].
    + unfold chain_of. by rewrite Hc'.
Qed.
(** A table of two buckets (heads at 100 and 101), one node whose key is 5. *)
Lemma hash_add_find_witness :
  let keyof := λ x : Z, Some x in
  let h := (hash_init 2 [] (Some [100; 101]) {[5 := Node 5 5]}).2 in
  let ht := (hash_init 2 [] (Some [100; 101]) {[5 := Node 5 5]}).1.2 in
  ∃ ht' h' σ', hash_add_head ht 5 5 h = Some (ht', h') ∧ hash_ok keyof ht' σ' h' ∧
    count ht' = count ht + 1 ∧ hash_find keyof ht' 5 h' = Some (Some 5) ∧
    ∀ key', 0 <= key' → key' ≠ 5 → hash_find keyof ht' key' h' = hash_find keyof ht key' h.
Proof.
  intros keyof h ht. apply (hash_add_find keyof ht (init_fam [100; 101]) h 5 5).
  - apply hash_init_ok; [lia|done|]. by apply (bool_decide_unpack _).
  - lia.
  - done.
  - intros (hd & xs & Hs & Hq). apply init_fam_lookup in Hs as [Hin ->].
    clear -Hin Hq. set_solver.
  - by eexists.
Defined.
End Hash.

(** * lru.c *)
Module Lru.
Section lru.
(** A node of the LRU is identified by a key; its embedded list head and the
    two heads of the structure are the addresses of the heap. *)
Inductive loc := Act | Ina | LNode (n : Z).

#[export] Instance loc_eq : EqDecision loc.
Proof. solve_decision. Defined.
#[export] Instance loc_countable : Countable loc.
Proof.
  refine (inj_countable'
    (λ l, match l with Act => inl true | Ina => inl false | LNode n => inr n end)
    (λ x, match x with inl true => Act | inl false => Ina | inr n => LNode n end) _).
  by intros [].
Defined.

Record lru2 := {
  flags : Z;
  access : gmap Z Z;            (* node->access *)
  lists : gmap loc (node loc);  (* act_list, ina_list and node->list *)
}.

Definition set_lists h (s : lru2) : lru2 := {| flags := flags s; access := access s; lists := h |}.
Definition set_access n a (s : lru2) : lru2 :=
  {| flags := flags s; access := <[n := a]> (access s); lists := lists s |}.

Definition lru2_init (s : lru2) : lru2 :=
  {| flags := 0; access := access s;
     lists := INIT_LIST_HEAD Ina (INIT_LIST_HEAD Act (lists s)) |}.

Definition lru2_node_init (n : Z) (s : lru2) : lru2 :=
  {| flags := flags s; access := <[n := 0]> (access s);
     lists := INIT_LIST_HEAD (LNode n) (lists s) |}.

(** Run a function of list.h on the list heads. *)
Definition on_lists (f : gmap loc (node loc) → option (gmap loc (node loc))) : M lru2 unit :=
  update (λ s, h ← f (lists s); Some (set_lists h s)).

Definition lru2_up (n : Z) : M lru2 unit :=
  a ← deref (λ s, access s !! n);
  if a =? 2 then
    on_lists (list_del (LNode n));; on_lists (list_add_tail (LNode n) Act)
  else if a =? 1 then
    modify (set_access n (u32 (a + 1)));;
    on_lists (list_del (LNode n));; on_lists (list_add_tail (LNode n) Act)
  else if a =? 0 then
    modify (set_access n (u32 (a + 1)));;
    on_lists (list_add_tail (LNode n) Ina)
  else panic.

Definition lru2_down (n : Z) : M lru2 unit :=
  a ← deref (λ s, access s !! n);
  if a =? 2 then
    modify (set_access n (u32 (a - 1)));;
    on_lists (list_del (LNode n));; on_lists (list_add_tail (LNode n) Ina)
  else if a =? 1 then
    modify (set_access n (u32 (a - 1)));;
    on_lists (list_del (LNode n))
  else panic.

(** The two lists of the structure, as a family. *)
Definition lru_fam (act ina : list Z) : gmap loc (list loc) :=
  <[Act := LNode <$> act]> {[Ina := LNode <$> ina]}.

Lemma lru_fam_act act ina act' :
  <[Act := LNode <$> act']> (lru_fam act ina) = lru_fam act' ina.
Proof. unfold lru_fam. by rewrite insert_insert_eq. Qed.
Lemma lru_fam_ina act ina ina' :
  <[Ina := LNode <$> ina']> (lru_fam act ina) = lru_fam act ina'.
Proof. unfold lru_fam. by rewrite insert_insert_ne, insert_singleton_eq by done. Qed.

Lemma lru_in_fam act ina n :
  in_fam (lru_fam act ina) (LNode n) ↔ n ∈ act ∨ n ∈ ina.
Proof.
  unfold in_fam, lru_fam. split.
  - intros (hd & xs & Hs & Hin). rewrite lookup_insert in Hs. case_decide; simplify_eq.
    + left. set_solver.
    + apply lookup_singleton_Some in Hs as [<- <-]. right. set_solver.
  - intros [Hn|Hn].
    + exists Act, (LNode <$> act). rewrite lookup_insert_eq. split; [done|]. set_solver.
    + exists Ina, (LNode <$> ina). rewrite lookup_insert_ne, lookup_singleton_eq by done.
      split; [done|]. set_solver.
Qed.

(** The two lists hold [act] and [ina] (oldest first), each node on the list
    its [access] counter says; a node on neither has [access] 0. *)
Record lru_ok (s : lru2) (act ina : list Z) : Prop := {
  ok_fam : fam (lists s) (lru_fam act ina);
  ok_act : ∀ n, access s !! n = Some 2 ↔ n ∈ act;
  ok_ina : ∀ n, access s !! n = Some 1 ↔ n ∈ ina;
  ok_nodes : ∀ n, is_Some (access s !! n) → is_Some (lists s !! LNode n);
  ok_range : ∀ n a, access s !! n = Some a → a = 0 ∨ a = 1 ∨ a = 2;
}.

(** Removing a node from the list it is on. *)
Lemma del_act n l1 l2 ina h :
  fam h (lru_fam (l1 ++ n :: l2) ina) →
  ∃ h', list_del (LNode n) h = Some h' ∧ fam h' (lru_fam (l1 ++ l2) ina) ∧ dom h' = dom h.
Proof.
  intros Hf. destruct (fam_del (LNode n) Act (LNode <$> l1) (LNode <$> l2) h _ Hf)
    as (h' & ? & Hf' & _ & [? _]).
  { unfold lru_fam. rewrite lookup_insert_eq, fmap_app. done. }
  rewrite <-fmap_app, lru_fam_act in Hf'. eauto.
Qed.

Lemma del_ina n l1 l2 act h :
  fam h (lru_fam act (l1 ++ n :: l2)) →
  ∃ h', list_del (LNode n) h = Some h' ∧ fam h' (lru_fam act (l1 ++ l2)) ∧ dom h' = dom h.
Proof.
  intros Hf. destruct (fam_del (LNode n) Ina (LNode <$> l1) (LNode <$> l2) h _ Hf)
    as (h' & ? & Hf' & _ & [? _]).
  { unfold lru_fam. rewrite lookup_insert_ne, lookup_singleton_eq, fmap_app by done. done. }
  rewrite <-fmap_app, lru_fam_ina in Hf'. eauto.
Qed.

Lemma add_act n act ina h :
  fam h (lru_fam act ina) → n ∉ act → n ∉ ina → is_Some (h !! LNode n) →
  ∃ h', list_add_tail (LNode n) Act h = Some h' ∧ fam h' (lru_fam (act ++ [n]) ina) ∧
    dom h' = dom h.
Proof.
  intros Hf ?? Hn. destruct (fam_add_tail (LNode n) Act (LNode <$> act) h _ Hf)
    as (h' & ? & Hf' & _ & [? _]); [| |done|].
  { unfold lru_fam. by rewrite lookup_insert_eq. }
  { rewrite lru_in_fam. tauto. }
  change [LNode n] with (LNode <$> [n]) in Hf'. rewrite <-fmap_app, lru_fam_act in Hf'. eauto.
Qed.

Lemma add_ina n act ina h :
  fam h (lru_fam act ina) → n ∉ act → n ∉ ina → is_Some (h !! LNode n) →
  ∃ h', list_add_tail (LNode n) Ina h = Some h' ∧ fam h' (lru_fam act (ina ++ [n])) ∧
    dom h' = dom h.
Proof.
  intros Hf ?? Hn. destruct (fam_add_tail (LNode n) Ina (LNode <$> ina) h _ Hf)
    as (h' & ? & Hf' & _ & [? _]); [| |done|].
  { unfold lru_fam. by rewrite lookup_insert_ne, lookup_singleton_eq by done. }
  { rewrite lru_in_fam. tauto. }
  change [LNode n] with (LNode <$> [n]) in Hf'. rewrite <-fmap_app, lru_fam_ina in Hf'. eauto.
Qed.

(** The lists without a node, in order. *)
Definition without (n : Z) (l : list Z) : list Z := filter (λ m, m ≠ n) l.

Lemma without_split n l1 l2 : n ∉ l1 → n ∉ l2 → without n (l1 ++ n :: l2) = l1 ++ l2.
Proof.
  assert (E : ∀ l, n ∉ l → without n l = l).
  { unfold without. induction l as [|m l IH]; [done|]. intros Hn.
    rewrite filter_cons_True, IH by set_solver. done. }
  intros. unfold without in *. rewrite filter_app, filter_cons_False by tauto.
  by rewrite !E.
Qed.

Lemma without_absent n l : n ∉ l → without n l = l.
Proof.
  unfold without. induction l as [|m l IH]; [done|]. intros Hn.
  rewrite filter_cons_True, IH by set_solver. done.
Qed.

Lemma elem_of_without n m l : m ∈ without n l ↔ m ∈ l ∧ m ≠ n.
Proof. unfold without. rewrite list_elem_of_filter. tauto. Qed.

Lemma lru_nodup s act ina : lru_ok s act ina → NoDup act ∧ NoDup ina.
Proof.
  intros [[Hd _] _ _ _ _]. split.
  - destruct (Hd Act (LNode <$> act)) as [Hn _]; [unfold lru_fam; by simplify_map_eq|].
    apply NoDup_cons in Hn as [_ Hn]. by apply NoDup_fmap_1 in Hn.
  - destruct (Hd Ina (LNode <$> ina)) as [Hn _]; [unfold lru_fam; by simplify_map_eq|].
    apply NoDup_cons in Hn as [_ Hn]. by apply NoDup_fmap_1 in Hn.
Qed.

(** Unlinking a node from both lists, wherever it is. *)
Lemma del_any n s act ina a :
  lru_ok s act ina → access s !! n = Some a → a = 1 ∨ a = 2 →
  ∃ h', list_del (LNode n) (lists s) = Some h' ∧
    fam h' (lru_fam (without n act) (without n ina)) ∧ dom h' = dom (lists s).
Proof.
  intros Hok Ha Hcase. destruct (lru_nodup _ _ _ Hok) as [Hna Hni].
  destruct Hcase as [->| ->].
  - assert (Hin : n ∈ ina) by by apply (ok_ina _ _ _ Hok).
    assert (Hno : n ∉ act) by (intros Hx; apply (ok_act _ _ _ Hok) in Hx; congruence).
    apply list_elem_of_split in Hin as (l1 & l2 & ->).
    apply NoDup_app in Hni as (? & Hd & [? ?]%NoDup_cons).
    rewrite (without_absent n act), without_split by set_solver.
    apply del_ina, (ok_fam _ _ _ Hok).
  - assert (Hin : n ∈ act) by by apply (ok_act _ _ _ Hok).
    assert (Hno : n ∉ ina) by (intros Hx; apply (ok_ina _ _ _ Hok) in Hx; congruence).
    apply list_elem_of_split in Hin as (l1 & l2 & ->).
    apply NoDup_app in Hna as (? & Hd & [? ?]%NoDup_cons).
    rewrite (without_absent n ina), without_split by set_solver.
    apply del_act, (ok_fam _ _ _ Hok).
Qed.

Lemma moved_in (n m a k : Z) :
  m ∈ (if decide (a = k) then [n] else []) ↔ m = n ∧ a = k.
Proof. case_decide; rewrite ?list_elem_of_singleton, ?elem_of_nil; naive_solver. Qed.

(** Rebuilding the invariant after node [n] moved to the list of its new
    counter value. *)
Lemma lru_ok_move s act ina n a h :
  lru_ok s act ina → is_Some (access s !! n) → a = 0 ∨ a = 1 ∨ a = 2 →
  dom h = dom (lists s) →
  fam h (lru_fam (without n act ++ (if decide (a = 2) then [n] else []))
                 (without n ina ++ (if decide (a = 1) then [n] else []))) →
  lru_ok {| flags := flags s; access := <[n := a]> (access s); lists := h |}
    (without n act ++ (if decide (a = 2) then [n] else []))
    (without n ina ++ (if decide (a = 1) then [n] else [])).
Proof.
  intros Hok Hn Ha Hd Hf. destruct Hok as [_ H2 H1 Hnd Hr]. split; simpl; [done|..].
  - intros m. rewrite lookup_insert, elem_of_app, elem_of_without.
    rewrite (moved_in n m a 2). destruct (decide (n = m)) as [<-|Hne]; [|rewrite H2].
    + split; [intros [= ->]; tauto|intros [[_ []]|[_ ->]]; done].
    + split; [intros; left; split; congruence|intros [[? _]|[-> _]]; done].
  - intros m. rewrite lookup_insert, elem_of_app, elem_of_without.
    rewrite (moved_in n m a 1). destruct (decide (n = m)) as [<-|Hne]; [|rewrite H1].
    + split; [intros [= ->]; tauto|intros [[_ []]|[_ ->]]; done].
    + split; [intros; left; split; congruence|intros [[? _]|[-> _]]; done].
  - intros m Hm. rewrite <-elem_of_dom, Hd, elem_of_dom. apply Hnd.
    rewrite lookup_insert in Hm. destruct (decide (n = m)); subst; done.
  - intros m b. rewrite lookup_insert. destruct (decide (n = m)); [by intros [= <-]|apply Hr].
Qed.
End lru.

(** One step up. *)
Lemma lru2_up_spec s act ina n a :
  lru_ok s act ina → access s !! n = Some a →
  let a' := Z.min (a + 1) 2 in
  wp (lru2_up n) (λ _ s', access s' = <[n := a']> (access s) ∧
    lru_ok s' (without n act ++ (if decide (a' = 2) then [n] else []))
              (without n ina ++ (if decide (a' = 1) then [n] else []))) s.
Proof.
  intros Hok Ha a'. assert (Hn : is_Some (access s !! n)) by eauto.
  assert (Hnode : ∀ h : gmap loc (node loc), dom h = dom (lists s) → is_Some (h !! LNode n)).
  { intros h Hd. rewrite <-elem_of_dom, Hd, elem_of_dom. by apply (ok_nodes _ _ _ Hok). }
  unfold lru2_up. apply wp_bind. apply (wp_deref _ a); [done|].
  destruct (ok_range _ _ _ Hok n a Ha) as [->|[->| ->]]; simpl in a'; subst a'; simpl Z.eqb; cbv iota.
  - assert (n ∉ act) by (intros Hx; apply (ok_act _ _ _ Hok) in Hx; congruence).
    assert (n ∉ ina) by (intros Hx; apply (ok_ina _ _ _ Hok) in Hx; congruence).
    destruct (add_ina n act ina (lists s)) as (h & E & Hf & Hd);
      [apply (ok_fam _ _ _ Hok)|done|done|by apply Hnode|].
    wp_steps. eapply wp_update; [simpl; by rewrite E|]. split; [done|].
    apply (lru_ok_move s act ina n 1 h); [done..|by right; left|done|].
    simpl. rewrite !without_absent, app_nil_r by done. done.
  - destruct (del_any n s act ina 1 Hok Ha) as (h1 & E1 & Hf1 & Hd1); [by left|].
    destruct (add_act n _ _ h1 Hf1) as (h & E & Hf & Hd);
      [rewrite elem_of_without; tauto..|by apply Hnode|].
    wp_steps. eapply wp_update; [simpl; by rewrite E1|].
    eapply wp_update; [simpl; by rewrite E|]. split; [done|].
    apply (lru_ok_move s act ina n 2 h); [done..|by right; right|congruence|].
    simpl. by rewrite app_nil_r.
  - destruct (del_any n s act ina 2 Hok Ha) as (h1 & E1 & Hf1 & Hd1); [by right|].
    destruct (add_act n _ _ h1 Hf1) as (h & E & Hf & Hd);
      [rewrite elem_of_without; tauto..|by apply Hnode|].
    wp_steps. eapply wp_update; [simpl; by rewrite E1|].
    eapply wp_update; [simpl; by rewrite E|]. simpl.
    assert (Eid : <[n := 2]> (access s) = access s) by by apply insert_id.
    split; [done|].
    pose proof (lru_ok_move s act ina n 2 h Hok Hn) as Hm. simpl in Hm.
    rewrite Eid in Hm. apply Hm; [by right; right|congruence|by rewrite app_nil_r].
Qed.

(** One step down. *)
Lemma lru2_down_spec s act ina n a :
  lru_ok s act ina → access s !! n = Some a → a ≠ 0 →
  wp (lru2_down n) (λ _ s', access s' = <[n := a - 1]> (access s) ∧
    lru_ok s' (without n act) (without n ina ++ (if decide (a = 2) then [n] else []))) s.
Proof.
  intros Hok Ha Ha0. assert (Hn : is_Some (access s !! n)) by eauto.
  unfold lru2_down. apply wp_bind. apply (wp_deref _ a); [done|].
  destruct (ok_range _ _ _ Hok n a Ha) as [->|[->| ->]]; [done|..]; simpl Z.eqb; cbv iota.
  - destruct (del_any n s act ina 1 Hok Ha) as (h & E & Hf & Hd); [by left|].
    wp_steps. eapply wp_update; [simpl; by rewrite E|]. split; [done|].
    pose proof (lru_ok_move s act ina n 0 h Hok Hn) as Hm. simpl in Hm |- *.
    rewrite !app_nil_r in *. apply Hm; [by left|done..].
  - destruct (del_any n s act ina 2 Hok Ha) as (h1 & E1 & Hf1 & Hd1); [by right|].
    destruct (add_ina n _ _ h1 Hf1) as (h & E & Hf & Hd);
      [rewrite elem_of_without; tauto..| |].
    { rewrite <-elem_of_dom, Hd1, elem_of_dom. by apply (ok_nodes _ _ _ Hok). }
    wp_steps. eapply wp_update; [simpl; by rewrite E1|].
    eapply wp_update; [simpl; by rewrite E|]. split; [done|].
    pose proof (lru_ok_move s act ina n 1 h Hok Hn) as Hm. simpl in Hm |- *.
    rewrite !app_nil_r in *. apply Hm; [by right; left|congruence|done].
Qed.

(** The structure with two nodes initialised and nothing linked. *)
Definition two_nodes : lru2 :=
  lru2_node_init 1 (lru2_node_init 2 (lru2_init {| flags := 7; access := ∅; lists := ∅ |})).

Lemma two_nodes_ok : lru_ok two_nodes [] [].
Proof.
  split; simpl.
  - split.
    + intros hd xs Hs. unfold lru_fam in Hs. simpl in Hs.
      assert (Hc : (hd = Act ∨ hd = Ina) ∧ xs = []).
      { rewrite lookup_insert in Hs. case_decide; [naive_solver|].
        apply lookup_singleton_Some in Hs. naive_solver. }
      destruct Hc as [[->| ->] ->]; (split; [apply NoDup_singleton|done]).
    + intros hd1 hd2 xs1 xs2 q H1 H2 Hq1 Hq2.
      assert (xs1 = [] ∧ xs2 = []) as [-> ->].
      { unfold lru_fam in *. simpl in *. rewrite lookup_insert in H1, H2.
        split; [clear H2|clear H1]; case_decide; [naive_solver| |naive_solver|].
        - apply lookup_singleton_Some in H1. naive_solver.
        - apply lookup_singleton_Some in H2. naive_solver. }
      set_solver.
  - intros n. rewrite elem_of_nil, !lookup_insert, lookup_empty.
    repeat case_decide; naive_solver.
  - intros n. rewrite elem_of_nil, !lookup_insert, lookup_empty.
    repeat case_decide; naive_solver.
  - intros n. rewrite !lookup_insert, lookup_empty.
    repeat case_decide; intros [? [=]]; subst; by eexists.
  - intros n a. rewrite !lookup_insert, lookup_empty. repeat case_decide; naive_solver.
Qed.

(** The two-level LRU promotes and demotes as its comments say.  [lru2_up]
    moves an unlinked node (access 0) to the tail of the inactive list, an
    inactive node (1) to the tail of the active list and an active one (2) to
    that tail again; [lru2_down] moves an active node to the tail of the
    inactive list, unlinks an inactive one and panics on an unlinked one.  In
    every case the active and inactive lists keep holding exactly the nodes
    whose counter is 2 and 1, the other nodes in their order. *)
Theorem lru2_correct s act ina n a :
  lru_ok s act ina → access s !! n = Some a →
  wp (lru2_up n) (λ _ s', access s' = <[n := Z.min (a + 1) 2]> (access s) ∧
    lru_ok s' (without n act ++ (if decide (Z.min (a + 1) 2 = 2) then [n] else []))
              (without n ina ++ (if decide (Z.min (a + 1) 2 = 1) then [n] else []))) s ∧
  (a ≠ 0 → wp (lru2_down n) (λ _ s', access s' = <[n := a - 1]> (access s) ∧
    lru_ok s' (without n act) (without n ina ++ (if decide (a = 2) then [n] else []))) s) ∧
  (a = 0 → lru2_down n s = Panic).
Proof.
  intros Hok Ha. split_and!.
  - by apply lru2_up_spec.
  - intros Hne. by apply lru2_down_spec.
  - intros ->. unfold lru2_down, mbind, M_bind, deref. by rewrite Ha.
Qed.

(** The theorem on a fresh structure: node 1 goes to the inactive list. *)
Lemma lru2_correct_witness :
  wp (lru2_up 1) (λ _ s', access s' = <[1 := 1]> (access two_nodes) ∧ lru_ok s' [] [1]) two_nodes ∧
  lru2_down 1 two_nodes = Panic.
Proof.
  destruct (lru2_correct two_nodes [] [] 1 0 two_nodes_ok eq_refl) as (H1 & _ & H3).
  split; [exact H1|by apply H3].
Defined.
End Lru.
