(* ===== verification/MathLib.v ===== *)
(** lib/math.c: the rounding and logarithm helpers the allocators use. *)
From S2P Require Import Prelude.

Definition next_power_of_2 (n : Z) : Z :=
  if n =? 0 then 1 else
  let n := u64 (n - 1) in
  let n := Z.lor n (Z.shiftr n 1) in
  let n := Z.lor n (Z.shiftr n 2) in
  let n := Z.lor n (Z.shiftr n 4) in
  let n := Z.lor n (Z.shiftr n 8) in
  let n := Z.lor n (Z.shiftr n 16) in
  let n := Z.lor n (Z.shiftr n 32) in
  u64 (n + 1).

(** [while (size > 0) { size >>= 1; order++; }]; a [uint32] has at most 32
    significant bits, so 33 rounds are enough ([calculate_order_log2]). *)
Fixpoint order_loop (fuel : nat) (size order : Z) : Z :=
  match fuel with
  | O => order
  | S fuel => if 0 <? size then order_loop fuel (Z.shiftr size 1) (u32 (order + 1)) else order
  end.
Definition calculate_order (size : Z) : Z :=
  if size =? 0 then 0 else order_loop 33 (u32 (size - 1)) 0.

(** [while (num >= base) { num /= base; result++; }]: the quotient at least
    halves in each round. *)
Fixpoint log_loop (fuel : nat) (num base result : Z) : Z :=
  match fuel with
  | O => result
  | S fuel => if base <=? num then log_loop fuel (num / base) base (u32 (result + 1)) else result
  end.
Definition math_log (num base : Z) : Z :=
  if (base <=? 1) || (num <=? 0) then 0 else log_loop 33 num base 0.

(** [while (exponent > 0) { result *= base; exponent--; }] *)
Fixpoint pow_loop (exponent : nat) (base result : Z) : Z :=
  match exponent with
  | O => result
  | S exponent => pow_loop exponent base (u32 (result * base))
  end.
Definition math_pow (base exponent : Z) : Z :=
  if exponent =? 0 then 1 else pow_loop (Z.to_nat exponent) base 1.

(** * Smearing the leading one *)

(** [x] has bit [i] exactly when one of the bits [i..i+k-1] of [m] is set. *)
Definition smeared (k m x : Z) : Prop :=
  ∀ i, 0 <= i → (Z.testbit x i = true ↔ ∃ j, 0 <= j < k ∧ Z.testbit m (i + j) = true).

Lemma smeared_1 m : smeared 1 m m.
Proof.
  intros i Hi. split.
  - intros. exists 0. rewrite Z.add_0_r. split; [lia|done].
  - intros (j & ? & Hb). replace j with 0 in Hb by lia. by rewrite Z.add_0_r in Hb.
Qed.

Lemma smeared_double k m x :
  0 <= k → smeared k m x → smeared (2 * k) m (Z.lor x (Z.shiftr x k)).
Proof.
  intros Hk Hx i Hi. rewrite Z.lor_spec, Z.shiftr_spec, orb_true_iff by lia.
  rewrite (Hx i), (Hx (i + k)) by lia. split.
  - intros [(j & ? & ?)|(j & ? & Hb)].
    + exists j. split; [lia|done].
    + exists (k + j). split; [lia|]. by rewrite Z.add_assoc.
  - intros (j & ? & Hb). destruct (decide (j < k)).
    + left. exists j. split; [lia|done].
    + right. exists (j - k). split; [lia|]. by replace (i + k + (j - k)) with (i + j) by lia.
Qed.

Lemma smeared_full m x :
  0 < m < 2 ^ 64 → 0 <= x → smeared 64 m x → x = Z.ones (Z.log2 m + 1).
Proof.
  intros Hm Hx Hs. assert (Hl : 0 <= Z.log2 m < 64).
  { split; [apply Z.log2_nonneg|]. apply Z.log2_lt_pow2; lia. }
  apply Z.bits_inj'. intros i Hi. apply eq_true_iff_eq. rewrite (Hs i Hi).
  rewrite Z.testbit_ones_nonneg, Z.ltb_lt by lia. split.
  - intros (j & ? & Hb). destruct (decide (i + j <= Z.log2 m)); [lia|].
    rewrite Z.bits_above_log2 in Hb by lia. done.
  - intros Hlt. exists (Z.log2 m - i). split; [lia|].
    replace (i + (Z.log2 m - i)) with (Z.log2 m) by lia. apply Z.bit_log2. lia.
Qed.

Lemma lor_shiftr_nonneg x k : 0 <= x → 0 <= Z.lor x (Z.shiftr x k).
Proof. intros. apply Z.lor_nonneg. split; [done|]. by apply Z.shiftr_nonneg. Qed.

Lemma next_power_of_2_log2 n :
  0 < n < 2 ^ 64 → next_power_of_2 n = u64 (2 ^ Z.log2_up n).
Proof.
  intros Hn. unfold next_power_of_2. destruct (Z.eqb_spec n 0); [lia|].
  rewrite (u64_small (n - 1)) by lia. destruct (decide (n = 1)) as [->|]; [done|].
  cbv zeta. match goal with |- u64 (?x + 1) = _ => rewrite (smeared_full (n - 1) x) end; [|lia| |].
  - rewrite Z.ones_equiv, Z.log2_up_eqn by lia.
    replace (Z.pred n) with (n - 1) by lia. by rewrite Z.add_1_r, Z.succ_pred, Z.add_1_r.
  - repeat apply lor_shiftr_nonneg. lia.
  - apply (smeared_double 32); [lia|]. apply (smeared_double 16); [lia|].
    apply (smeared_double 8); [lia|]. apply (smeared_double 4); [lia|].
    apply (smeared_double 2); [lia|]. apply (smeared_double 1); [lia|]. apply smeared_1.
Qed.

(** [next_power_of_2] returns the least power of two that is at least [n],
    for every [n] from 1 to [2^63]; for larger 64-bit values the last
    increment wraps and the result is 0. *)
Theorem next_power_of_2_correct n :
  0 < n < 2 ^ 64 →
  (n <= 2 ^ 63 → next_power_of_2 n = 2 ^ Z.log2_up n ∧ n <= next_power_of_2 n ∧
     ∀ k, 0 <= k → n <= 2 ^ k → next_power_of_2 n <= 2 ^ k) ∧
  (2 ^ 63 < n → next_power_of_2 n = 0).
Proof.
  intros Hn.
  pose proof (next_power_of_2_log2 n Hn) as E.
  assert (Hup : 0 <= Z.log2_up n <= 64).
  { split; [apply Z.log2_up_nonneg|]. apply Z.log2_up_le_pow2; lia. }
  split.
  - intros H63. assert (Z.log2_up n <= 63) by (apply Z.log2_up_le_pow2; lia).
    assert (2 ^ Z.log2_up n <= 2 ^ 63) by (apply Z.pow_le_mono_r; lia).
    assert (0 < 2 ^ Z.log2_up n) by (apply Z.pow_pos_nonneg; lia).
    rewrite E, u64_small by lia. split_and!; [done| |].
    + apply Z.log2_log2_up_spec. lia.
    + intros k Hk Hle. apply Z.pow_le_mono_r; [lia|]. by apply Z.log2_up_le_pow2; [lia|].
  - intros H63. assert (63 < Z.log2_up n) by (apply Z.log2_up_lt_pow2; lia).
    rewrite E. replace (Z.log2_up n) with 64 by lia. done.
Qed.

Lemma next_power_of_2_witness :
  next_power_of_2 3000 = 4096 ∧ next_power_of_2 (2 ^ 63 + 1) = 0.
Proof.
  split.
  - rewrite (proj1 (proj1 (next_power_of_2_correct 3000 ltac:(lia)) ltac:(lia))). reflexivity.
  - apply (proj2 (next_power_of_2_correct (2 ^ 63 + 1) ltac:(lia))). lia.
Defined.

(** * Logarithms *)

Lemma order_loop_log2 fuel size order :
  0 <= size < 2 ^ Z.of_nat fuel → 0 <= order → order + Z.of_nat fuel < 2 ^ 32 →
  order_loop fuel size order = order + (if size =? 0 then 0 else Z.log2 size + 1).
Proof.
  revert size order. induction fuel as [|fuel IH]; intros size order Hs Ho Hb.
  { simpl in *. destruct (Z.eqb_spec size 0); lia. }
  simpl order_loop. rewrite Nat2Z.inj_succ, Z.pow_succ_r in Hs by lia.
  destruct (Z.ltb_spec 0 size) as [Hp|]; cycle 1.
  { destruct (Z.eqb_spec size 0); lia. }
  rewrite u32_small by lia.
  assert (Hd : Z.shiftr size 1 = size / 2) by (rewrite Z.shiftr_div_pow2 by lia; done).
  rewrite IH; [|rewrite Hd; split; [apply Z.div_pos; lia|apply Z.div_lt_upper_bound; lia]|lia..].
  destruct (Z.eqb_spec size 0); [lia|]. rewrite Hd.
  destruct (Z.eqb_spec (size / 2) 0) as [Hz|Hz].
  - apply Z.div_small_iff in Hz; [|lia]. assert (size = 1) as -> by lia. simpl. lia.
  - assert (0 <= size / 2) by (apply Z.div_pos; lia).
    replace (Z.log2 size) with (Z.succ (Z.log2 (size / 2))); [lia|].
    rewrite <-Hd, Z.log2_shiftr by lia.
    assert (1 <= Z.log2 size). { apply Z.log2_le_pow2; [lia|]. change (2 ^ 1) with 2.
      destruct (decide (size = 1)) as [->|]; [done|lia]. }
    lia.
Qed.

Lemma calculate_order_up size :
  0 <= size < 2 ^ 32 → calculate_order size = Z.log2_up size.
Proof.
  intros Hs. unfold calculate_order. destruct (Z.eqb_spec size 0) as [->|]; [done|].
  rewrite u32_small by lia. rewrite order_loop_log2 by (simpl; lia).
  destruct (Z.eqb_spec (size - 1) 0).
  - assert (size = 1) as -> by lia. done.
  - rewrite Z.log2_up_eqn by lia. replace (Z.pred size) with (size - 1) by lia. lia.
Qed.

(** [calculate_order] is the base-2 logarithm rounded up: [2^order] is the
    least power of two that holds [size] bytes, for every [uint32] size. *)
Theorem calculate_order_log2 size :
  0 <= size < 2 ^ 32 → calculate_order size = Z.log2_up size ∧ 0 <= calculate_order size <= 32.
Proof.
  intros Hs.
  pose proof (calculate_order_up size Hs) as E.
  rewrite E. split; [done|]. split; [apply Z.log2_up_nonneg|].
  destruct (decide (size = 0)) as [->|]; [done|]. apply Z.log2_up_le_pow2; lia.
Qed.

Lemma calculate_order_witness : calculate_order 4097 = 13 ∧ 0 <= calculate_order 4097 <= 32.
Proof.
  destruct (calculate_order_log2 4097 ltac:(lia)) as [E ?]. split; [|done].
  rewrite E. reflexivity.
Defined.

Lemma log_loop_spec fuel num base result :
  1 < base → 0 < num < 2 ^ Z.of_nat fuel → 0 <= result → result + Z.of_nat fuel < 2 ^ 32 →
  ∃ r, log_loop fuel num base result = result + r ∧ 0 <= r ∧ base ^ r <= num < base ^ (r + 1).
Proof.
  intros Hbase. revert num result. induction fuel as [|fuel IH]; intros num result Hn Hr Hb.
  { simpl in Hn. lia. }
  simpl log_loop. rewrite Nat2Z.inj_succ, Z.pow_succ_r in Hn by lia.
  destruct (Z.leb_spec base num) as [Hle|Hgt]; cycle 1.
  { exists 0. rewrite Z.pow_0_r, Z.pow_1_r. lia. }
  assert (Hq : 0 < num / base < 2 ^ Z.of_nat fuel).
  { split; [apply Z.div_str_pos; lia|]. apply Z.div_lt_upper_bound; [lia|].
    assert (0 < 2 ^ Z.of_nat fuel) by (apply Z.pow_pos_nonneg; lia). nia. }
  rewrite u32_small by lia.
  destruct (IH (num / base) (result + 1) Hq) as (r & -> & Hr0 & Hlo & Hhi); [lia..|].
  exists (r + 1). rewrite (Z.pow_add_r base (r + 1) 1), Z.pow_1_r by lia.
  rewrite (Z.pow_add_r base r 1), Z.pow_1_r in * by lia.
  pose proof (Z.div_mod num base ltac:(lia)). pose proof (Z.mod_pos_bound num base ltac:(lia)).
  split_and!; [lia..|nia|nia].
Qed.

(** [math_log] is the floor of the logarithm of a positive [num] in a base
    of at least 2: [base^r <= num < base^(r+1)]; and [math_pow] is the power
    modulo [2^32], so that raising the base to [math_log] gives back the
    largest power not above [num] without wrapping. *)
Theorem math_log_pow num base :
  0 < num < 2 ^ 32 → 1 < base < 2 ^ 16 →
  let r := math_log num base in
  0 <= r < 32 ∧ base ^ r <= num < base ^ (r + 1) ∧ math_pow base r = base ^ r.
Proof.
  intros Hn Hb r. unfold r, math_log.
  destruct (Z.leb_spec base 1); [lia|]. destruct (Z.leb_spec num 0); [lia|]. simpl orb. cbv iota.
  destruct (log_loop_spec 33 num base 0) as (q & -> & Hq & Hlo & Hhi); [simpl; lia..|].
  rewrite Z.add_0_l.
  assert (Hpow : 2 ^ q <= base ^ q) by (apply Z.pow_le_mono_l; lia).
  assert (Hq32 : q < 32).
  { destruct (decide (q < 32)); [done|]. assert (2 ^ 32 <= 2 ^ q) by (apply Z.pow_le_mono_r; lia). lia. }
  split_and!; [lia..|]. unfold math_pow. destruct (Z.eqb_spec q 0) as [->|]; [done|].
  assert (Hloop : ∀ e res, 0 <= res * base ^ Z.of_nat e < 2 ^ 32 → 0 <= res →
    pow_loop e base res = res * base ^ Z.of_nat e).
  { induction e as [|e IH]; intros res Hres Hr0; simpl pow_loop; [simpl; lia|].
    rewrite Nat2Z.inj_succ, Z.pow_succ_r in * by lia.
    assert (1 <= base ^ Z.of_nat e) by (pose proof (Z.pow_pos_nonneg base (Z.of_nat e)); lia).
    rewrite (u32_small (res * base)) by nia.
    rewrite IH by nia. lia. }
  rewrite Hloop; rewrite ?Z2Nat.id by lia; lia.
Qed.

Lemma math_log_pow_witness :
  let r := math_log 1000 10 in
  0 <= r < 32 ∧ 10 ^ r <= 1000 < 10 ^ (r + 1) ∧ math_pow 10 r = 10 ^ r.
Proof. apply (math_log_pow 1000 10); lia. Defined.
