(* ===== verification/StringLib.v ===== *)
(** lib/string.c over a byte memory.

    The memory maps an address to a byte; an access to an address that is not
    mapped is a fault.  Loops over a string carry as fuel the number of mapped
    bytes, which a string that stays inside the memory cannot exceed. *)
From S2P Require Import Prelude.

Definition mem : Type := gmap Z Z.

Definition load (a : Z) : M (gmap Z Z) Z := deref (λ m, m !! a).
(** A [char] store keeps the low 8 bits. *)
Definition store (a v : Z) : M (gmap Z Z) unit :=
  update (λ m, _ ← m !! a; Some (<[a := u8 v]> m)).

(** [memset]: the counter is an [int], so lengths above [INT_MAX] overflow it. *)
Fixpoint memset_loop (n : nat) (a c : Z) : M (gmap Z Z) unit :=
  match n with
  | O => mret tt
  | S n => store a c;; memset_loop n (a + 1) c
  end.
Definition memset (dst c n : Z) : M (gmap Z Z) Z :=
  if 2 ^ 31 <=? n then fault else
  memset_loop (Z.to_nat n) dst c;; mret dst.

Fixpoint memcpy_loop (n : nat) (dst src : Z) : M (gmap Z Z) unit :=
  match n with
  | O => mret tt
  | S n => v ← load src; store dst v;; memcpy_loop n (dst + 1) (src + 1)
  end.
Definition memcpy (dst src n : Z) : M (gmap Z Z) Z :=
  memcpy_loop (Z.to_nat n) dst src;; mret dst.

(** [while ( *_dst++ = *(_src + len++));] *)
Fixpoint strdup_loop (fuel : nat) (dst src len : Z) : M (gmap Z Z) Z :=
  match fuel with
  | O => out_of_fuel
  | S fuel =>
      v ← load (src + len);
      store dst v;;
      if u8 v =? 0 then mret (len + 1) else strdup_loop fuel (dst + 1) src (len + 1)
  end.
Definition strdup (dst src : Z) : M (gmap Z Z) Z :=
  m ← get; strdup_loop (S (size m)) dst src 0.

(** The loop of [strncpy] returns the final [_dst] and [copied]: the store of
    the terminating NUL has advanced [_dst] past it. *)
Fixpoint strncpy_loop (fuel : nat) (dst src copied len : Z) : M (gmap Z Z) (Z * Z) :=
  match fuel with
  | O => out_of_fuel
  | S fuel =>
      if copied <? len then
        v ← load src;
        store dst v;;
        if u8 v =? 0 then mret (dst + 1, copied)
        else strncpy_loop fuel (dst + 1) (src + 1) (copied + 1) len
      else mret (dst, copied)
  end.
Definition strncpy (dst src len : Z) : M (gmap Z Z) Z :=
  '(d, copied) ← strncpy_loop (S (Z.to_nat len)) dst src 0 len;
  (if copied <? len then store d 0 else mret tt);;
  mret copied.

(** [while (n > 0 && *p && *p == *q) n--, p++, q++;] *)
Fixpoint strncmp_loop (n : nat) (p q : Z) : M (gmap Z Z) Z :=
  match n with
  | O => mret 0
  | S n' =>
      cp ← load p;
      if cp =? 0 then (cq ← load q; mret (cp - cq)) else
      cq ← load q;
      if cp =? cq then strncmp_loop n' (p + 1) (q + 1) else mret (cp - cq)
  end.
Definition strncmp (p q n : Z) : M (gmap Z Z) Z := strncmp_loop (Z.to_nat n) p q.

Definition djb2_step (hash c : Z) : Z := u64 (u64 (u64 (Z.shiftl hash 5) + hash) + c).
Fixpoint strhash_loop (fuel : nat) (str hash : Z) : M (gmap Z Z) Z :=
  match fuel with
  | O => out_of_fuel
  | S fuel =>
      c ← load str;
      if c =? 0 then mret (i32 (Z.land hash 2147483647))
      else strhash_loop fuel (str + 1) (djb2_step hash c)
  end.
Definition strhash (str : Z) : M (gmap Z Z) Z :=
  m ← get; strhash_loop (S (size m)) str 5381.

(** * Strings in memory *)

(** Overwriting consecutive bytes. *)
Fixpoint wr (a : Z) (l : list Z) (m : gmap Z Z) : gmap Z Z :=
  match l with [] => m | c :: l => wr (a + 1) l (<[a := c]> m) end.

(** The NUL-terminated string [s] is stored at [a]. *)
Fixpoint cstr (m : gmap Z Z) (a : Z) (s : list Z) : Prop :=
  match s with
  | [] => m !! a = Some 0
  | c :: s => m !! a = Some c ∧ 0 < c < 256 ∧ cstr m (a + 1) s
  end.

(** [n] bytes from [a] on are mapped. *)
Definition mapped (m : gmap Z Z) (a n : Z) : Prop := ∀ b, a <= b < a + n → is_Some (m !! b).

Lemma wr_lookup a l m b :
  wr a l m !! b =
    if decide (a <= b < a + Z.of_nat (length l)) then l !! Z.to_nat (b - a) else m !! b.
Proof.
  revert a m. induction l as [|c l IH]; intros a m; simpl.
  { rewrite decide_False by lia. done. }
  rewrite IH. destruct (decide (a = b)) as [->|Hne].
  - rewrite decide_False, decide_True by lia. rewrite lookup_insert_eq.
    by replace (Z.to_nat (b - b)) with 0%nat by lia.
  - rewrite lookup_insert_ne by done. repeat case_decide; try lia; try done.
    replace (Z.to_nat (b - a)) with (S (Z.to_nat (b - (a + 1)))) by lia. done.
Qed.

Lemma store_ok a v m : is_Some (m !! a) → store a v m = Done tt (<[a := u8 v]> m).
Proof. intros [x Hx]. unfold store, update. by rewrite Hx. Qed.

Lemma load_ok a v (m : gmap Z Z) : m !! a = Some v → load a m = Done v m.
Proof. intros Hx. unfold load, deref. by rewrite Hx. Qed.

Lemma u8_small c : 0 <= c < 256 → u8 c = c.
Proof. intros. by apply Z.mod_small. Qed.

Lemma cstr_insert m a s b v :
  cstr m a s → ¬ (a <= b <= a + Z.of_nat (length s)) → cstr (<[b := v]> m) a s.
Proof.
  revert a. induction s as [|c s IH]; intros a; simpl; intros Hs Hb.
  - by rewrite lookup_insert_ne by lia.
  - destruct Hs as (? & ? & ?). rewrite lookup_insert_ne by lia. split_and!; [done|lia..|].
    apply IH; [done|]. lia.
Qed.

Lemma mapped_insert m a n b v : mapped m a n → mapped (<[b := v]> m) a n.
Proof. intros Hm x Hx. rewrite lookup_insert. case_decide; eauto. Qed.

(** The strings of the memory are shorter than the memory. *)
Lemma cstr_length m a s : cstr m a s → (length s < size m)%nat.
Proof.
  intros Hs.
  assert (Hsub : list_to_set ((λ i, a + Z.of_nat i) <$> seq 0 (S (length s))) ⊆ dom m).
  { intros b Hb. apply elem_of_list_to_set, list_elem_of_fmap in Hb as (i & -> & Hi).
    apply elem_of_seq in Hi. apply elem_of_dom. revert a Hs i Hi.
    induction s as [|c s IH]; intros a Hs i Hi; simpl in *.
    - replace i with 0%nat by lia. rewrite Z.add_0_r. eauto.
    - destruct Hs as (? & _ & Hs). destruct i as [|i]; [rewrite Z.add_0_r; eauto|].
      destruct (IH (a + 1) Hs i) as [v Hv]; [lia|].
      exists v. rewrite <-Hv. f_equal. lia. }
  apply subseteq_size in Hsub. rewrite size_dom, size_list_to_set in Hsub.
  - rewrite length_fmap, length_seq in Hsub. lia.
  - apply NoDup_fmap_2; [intros x y; lia|apply NoDup_seq].
Qed.

(** Writing a string and its NUL. *)
Lemma cstr_wr a l t m : Forall (λ c, 0 < c < 256) l → cstr (wr a (l ++ 0 :: t) m) a l.
Proof.
  revert a m. induction l as [|c l IH]; intros a m Hl; simpl.
  - rewrite wr_lookup, decide_False by lia. apply lookup_insert_eq.
  - apply Forall_cons in Hl as [Hc Hl]. split; [|split; [done|by apply IH]].
    rewrite wr_lookup, decide_False by lia. apply lookup_insert_eq.
Qed.

(** Writing elsewhere. *)
Lemma cstr_wr_other m a s b l :
  cstr m a s → (∀ i, a <= i <= a + Z.of_nat (length s) → ¬ (b <= i < b + Z.of_nat (length l))) → cstr (wr b l m) a s.
Proof.
  revert a. induction s as [|c s IH]; intros a Hs Hd; simpl in *.
  - rewrite wr_lookup, decide_False; [done|apply Hd; lia].
  - destruct Hs as (Hv & Hc & Hs). split; [|split; [done|apply IH; [done|]]].
    + rewrite wr_lookup, decide_False; [done|apply Hd; lia].
    + intros i Hi. apply Hd. lia.
Qed.

(** * strncpy *)

(** The bytes [strncpy] stores at [dst] for the source string [s]. *)
Definition strncpy_bytes (s : list Z) (len : Z) : list Z :=
  if Z.of_nat (length s) <? len then s ++ [0] else take (Z.to_nat len) s.

Lemma strncpy_loop_ok fuel dst src copied len s m :
  cstr m src s → 0 <= copied <= len → len - copied < Z.of_nat fuel →
  mapped m dst (len - copied) →
  (∀ i, 0 <= i <= Z.of_nat (length s) → ¬ (dst <= src + i < dst + (len - copied))) →
  let k := Z.min (Z.of_nat (length s)) (len - copied) in
  strncpy_loop fuel dst src copied len m =
    Done (dst + Z.of_nat (length (strncpy_bytes s (len - copied))), copied + k)
         (wr dst (strncpy_bytes s (len - copied)) m).
Proof.
  revert dst src copied s m. induction fuel as [|fuel IH];
    intros dst src copied s m Hs Hc Hf Hmap Hdis k; [lia|].
  simpl strncpy_loop. destruct (Z.ltb_spec copied len) as [Hlt|Hge]; cycle 1.
  { unfold k, strncpy_bytes. replace (len - copied) with 0 by lia.
    destruct (Z.ltb_spec (Z.of_nat (length s)) 0); [lia|]. rewrite take_0. simpl.
    unfold mret, M_ret. do 2 f_equal; lia. }
  destruct s as [|c s]; simpl in Hs.
  - erewrite bind_Done by by apply load_ok.
    erewrite bind_Done by (apply store_ok, Hmap; lia).
    unfold strncpy_bytes. destruct (Z.ltb_spec (Z.of_nat (length (@nil Z))) (len - copied)); [|simpl in *; lia].
    unfold k, mret, M_ret. simpl. do 2 f_equal; lia.
  - destruct Hs as (Hv & Hcr & Hs). erewrite bind_Done by by apply load_ok.
    erewrite bind_Done by (apply store_ok, Hmap; lia). rewrite u8_small by lia.
    destruct (Z.eqb_spec c 0); [lia|].
    rewrite (IH (dst + 1) (src + 1) (copied + 1) s).
    + unfold k, strncpy_bytes. simpl length. rewrite Nat2Z.inj_succ.
      destruct (Z.ltb_spec (Z.of_nat (length s)) (len - (copied + 1))),
        (Z.ltb_spec (Z.succ (Z.of_nat (length s))) (len - copied)); try lia.
      * f_equal. f_equal; [simpl; rewrite !length_app; simpl; lia|lia].
      * replace (Z.to_nat (len - copied)) with (S (Z.to_nat (len - (copied + 1)))) by lia.
        f_equal. f_equal; [simpl; lia|lia].
    + apply cstr_insert; [done|]. specialize (Hdis). intros Hb.
      apply (Hdis (dst - src)); [simpl; lia|]. lia.
    + lia.
    + lia.
    + apply mapped_insert. intros b Hb. apply Hmap. lia.
    + intros i Hi Hb. apply (Hdis (i + 1)); [simpl; lia|]. lia.
Qed.

Lemma strncpy_ok dst src len s m :
  0 <= len < 2 ^ 16 → cstr m src s → mapped m dst (len + 1) →
  (∀ i, 0 <= i <= Z.of_nat (length s) → ¬ (dst <= src + i < dst + len)) →
  strncpy dst src len m =
    Done (Z.min (Z.of_nat (length s)) len)
      (wr dst (if Z.of_nat (length s) <? len then s ++ [0; 0] else take (Z.to_nat len) s) m).
Proof.
  intros Hl Hs Hmap Hdis. unfold strncpy.
  erewrite bind_Done; cycle 1.
  { apply (strncpy_loop_ok _ dst src 0 len s m); [done|lia|lia| |].
    - intros b Hb. apply Hmap. lia.
    - intros i Hi. rewrite Z.sub_0_r. auto. }
  rewrite Z.sub_0_r, Z.add_0_l. unfold strncpy_bytes.
  destruct (Z.ltb_spec (Z.of_nat (length s)) len) as [Hlt|Hge].
  - rewrite Z.min_l by lia. apply Z.ltb_lt in Hlt as Hb. rewrite Hb.
    assert (Hm' : is_Some (wr dst (s ++ [0]) m !! (dst + Z.of_nat (length (s ++ [0]))))).
    { rewrite wr_lookup, decide_False by lia. apply Hmap. rewrite length_app. simpl. lia. }
    erewrite bind_Done by by apply store_ok.
    unfold mret, M_ret. f_equal.
    assert (Hwr : ∀ l a m0 c, <[a + Z.of_nat (length l) := c]> (wr a l m0) = wr a (l ++ [c]) m0).
    { induction l as [|x l IH]; intros a m0 c; simpl; [by rewrite Z.add_0_r|].
      rewrite <-IH. f_equal. lia. }
    rewrite Hwr, <-app_assoc. done.
  - rewrite Z.min_r by lia. by destruct (Z.ltb_spec len len); [lia|].
Qed.

(** What [strncpy] stores.  For a source string of [k] characters that
    does not overlap the destination: when [k >= len] exactly [len] characters
    are stored and no NUL; when [k < len] the string, its NUL {e and one more
    NUL after it} are stored, so that for [k = len - 1] the byte just past the
    [len]-byte destination is overwritten.  The count returned is
    [min k len]. *)
Theorem strncpy_footprint dst src len s m :
  0 <= len < 2 ^ 16 → cstr m src s → mapped m dst (len + 1) →
  (∀ i, 0 <= i <= Z.of_nat (length s) → ¬ (dst <= src + i < dst + len)) →
  strncpy dst src len m =
    Done (Z.min (Z.of_nat (length s)) len)
      (wr dst (if Z.of_nat (length s) <? len then s ++ [0; 0] else take (Z.to_nat len) s) m).
Proof. apply strncpy_ok. Qed.

(** Copying the 15-character name of a 16-byte field at address 0 also clears
    the byte at address 16. *)
Lemma strncpy_footprint_witness :
  let name := replicate 15 97 in
  let m := wr 0 (replicate 17 1) (wr 100 (name ++ [0]) ∅) in
  ∃ m', strncpy 0 100 16 m = Done 15 m' ∧ m !! 16 = Some 1 ∧ m' !! 16 = Some 0.
Proof.
  intros name m. eexists. split.
  - apply (strncpy_footprint 0 100 16 name m).
    + lia.
    + vm_compute. repeat split; reflexivity.
    + intros b Hb. unfold m. rewrite wr_lookup, decide_True by (simpl; lia).
      apply lookup_lt_is_Some. rewrite length_replicate. lia.
    + intros i Hi. lia.
  - split; vm_compute; reflexivity.
Defined.

(** * strncmp *)

(** Lexicographic comparison of the first [n] characters, NUL included. *)
Fixpoint cmp_ref (n : nat) (s t : list Z) : Z :=
  match n with
  | O => 0
  | S n =>
      match s, t with
      | [], [] => 0
      | [], d :: _ => 0 - d
      | c :: _, [] => c - 0
      | c :: s, d :: t => if c =? d then cmp_ref n s t else c - d
      end
  end.

Lemma strncmp_loop_ref n p q s t m :
  cstr m p s → cstr m q t → strncmp_loop n p q m = Done (cmp_ref n s t) m.
Proof.
  revert p q s t. induction n as [|n IH]; intros p q s t Hp Hq; [done|].
  simpl strncmp_loop. destruct s as [|c s], t as [|d t]; simpl in Hp, Hq.
  - erewrite bind_Done by by apply load_ok. simpl. by erewrite bind_Done by by apply load_ok.
  - destruct Hq as (Hq & ? & _).
    erewrite bind_Done by by apply load_ok. simpl. by erewrite bind_Done by by apply load_ok.
  - destruct Hp as (Hp & ? & _). erewrite bind_Done by by apply load_ok.
    destruct (Z.eqb_spec c 0); [lia|]. erewrite bind_Done by by apply load_ok. simpl.
    destruct (Z.eqb_spec c 0); [lia|]. done.
  - destruct Hp as (Hp & ? & Hp'). destruct Hq as (Hq & ? & Hq').
    erewrite bind_Done by by apply load_ok. destruct (Z.eqb_spec c 0); [lia|].
    erewrite bind_Done by by apply load_ok. simpl.
    destruct (Z.eqb_spec c d); [|done]. by apply IH.
Qed.

(** [strncmp] reads its second string up to the NUL only. *)
Lemma strncmp_loop_agree k p q n m m' :
  (∀ i, 0 <= i < Z.of_nat k → m !! (p + i) = m' !! (p + i)) →
  (∀ i c, n !! i = Some c → c ≠ 0 ∧ m !! (q + Z.of_nat i) = Some c ∧ m' !! (q + Z.of_nat i) = Some c) →
  m !! (q + Z.of_nat (length n)) = Some 0 → m' !! (q + Z.of_nat (length n)) = Some 0 →
  (∃ r, strncmp_loop k p q m = Done r m ∧ strncmp_loop k p q m' = Done r m') ∨
  (strncmp_loop k p q m = Fault ∧ strncmp_loop k p q m' = Fault).
Proof.
  revert p q n. induction k as [|k IH]; intros p q n Hp Hq Hz Hz'; simpl; [left; by exists 0|].
  pose proof (Hp 0 ltac:(lia)) as Hp0. rewrite Z.add_0_r in Hp0. unfold load, deref, mbind, M_bind. rewrite <-Hp0.
  destruct (m !! p) as [cp|]; [|by right].
  assert (Hq0 : ∃ cq, m !! q = Some cq ∧ m' !! q = Some cq ∧ (cq = 0 ∨ ∃ n', n = cq :: n' ∧ cq ≠ 0)).
  { destruct n as [|c n]; simpl in *; rewrite ?Z.add_0_r in *; [exists 0; naive_solver|].
    destruct (Hq 0%nat c eq_refl) as (? & E & E'). rewrite Z.add_0_r in *. exists c. naive_solver. }
  destruct Hq0 as (cq & E & E' & Hn).
  destruct (Z.eqb_spec cp 0); simpl; rewrite E, E'; [left; by eexists|].
  destruct (Z.eqb_spec cp cq) as [->|]; simpl; [|left; by eexists].
  destruct Hn as [->|(n' & -> & Hc)]; [done|]. apply (IH (p + 1) (q + 1) n').
  - intros i Hi. rewrite <-!Z.add_assoc. apply Hp. lia.
  - intros i c Hc'. destruct (Hq (S i) c Hc') as (? & E1 & E2). split; [done|].
    replace (q + 1 + Z.of_nat i) with (q + Z.of_nat (S i)) by lia. done.
  - rewrite <-Hz. f_equal. simpl. lia.
  - rewrite <-Hz'. f_equal. simpl. lia.
Qed.

Lemma cmp_ref_zero n s t :
  Forall (λ c, 0 < c < 256) s → Forall (λ c, 0 < c < 256) t →
  (cmp_ref n s t = 0 ↔ take n s = take n t).
Proof.
  revert s t. induction n as [|n IH]; intros s t Hs Ht; [done|].
  destruct s as [|c s], t as [|d t]; simpl; try done.
  - inversion Ht; subst. split; [lia|done].
  - inversion Hs; subst. split; [lia|done].
  - inversion Hs; inversion Ht; subst. destruct (Z.eqb_spec c d) as [->|Hne].
    + rewrite IH by done. split; congruence.
    + split; [lia|]. intros [= ? ?]. done.
Qed.

Lemma cstr_chars m a s : cstr m a s → Forall (λ c, 0 < c < 256) s.
Proof.
  revert a. induction s as [|c s IH]; intros a; simpl; [constructor|].
  intros (_ & ? & ?). constructor; eauto.
Qed.

(** [strncmp] of two stored strings returns 0 exactly when their first [n]
    characters agree, and leaves the memory alone. *)
Theorem strncmp_equal p q n s t m :
  0 <= n → cstr m p s → cstr m q t →
  ∃ r, strncmp p q n m = Done r m ∧ (r = 0 ↔ take (Z.to_nat n) s = take (Z.to_nat n) t).
Proof.
  intros Hn Hp Hq. eexists. split; [by apply strncmp_loop_ref|].
  apply cmp_ref_zero; eapply cstr_chars; eauto.
Qed.

Lemma strncmp_equal_witness :
  let m := wr 0 [97; 98; 0] (wr 10 [97; 99; 0] ∅) in
  ∃ r, strncmp 0 10 2 m = Done r m ∧ (r = 0 ↔ [97; 98] = [97; 99]).
Proof.
  apply (strncmp_equal 0 10 2 [97; 98] [97; 99]); [lia|vm_compute; repeat split; reflexivity..].
Defined.

(** * strhash *)

(** The hash of a character list. *)
Definition djb2 (s : list Z) : Z := Z.land (foldl djb2_step 5381 s) 2147483647.

Lemma strhash_loop_ok fuel a s hash m :
  cstr m a s → (length s < fuel)%nat →
  strhash_loop fuel a hash m = Done (i32 (Z.land (foldl djb2_step hash s) 2147483647)) m.
Proof.
  revert a s hash. induction fuel as [|fuel IH]; intros a s hash Hs Hf; [lia|].
  simpl strhash_loop. destruct s as [|c s]; simpl in *.
  - by erewrite bind_Done by by apply load_ok.
  - destruct Hs as (Hv & ? & Hs). erewrite bind_Done by by apply load_ok.
    destruct (Z.eqb_spec c 0); [lia|]. rewrite (IH (a + 1) s) by (done || lia). done.
Qed.

Lemma djb2_range s : 0 <= djb2 s < 2 ^ 31.
Proof.
  unfold djb2. change 2147483647 with (Z.ones 31). rewrite Z.land_ones by lia.
  apply Z.mod_pos_bound. lia.
Qed.

(** [strhash] of a stored string terminates and returns its DJB2 hash
    (multiplier 33, seed 5381, modulo [2^64]) cut to 31 bits, which is never
    negative: it can index a hash table. *)
Theorem strhash_djb2 a s m :
  cstr m a s → strhash a m = Done (djb2 s) m ∧ 0 <= djb2 s < 2 ^ 31.
Proof.
  intros Hs. split; [|apply djb2_range]. unfold strhash. erewrite bind_Done by done.
  rewrite (strhash_loop_ok _ a s) by (try done; apply cstr_length in Hs; lia).
  f_equal. pose proof (djb2_range s). unfold djb2 in *. by rewrite i32_small by lia.
Qed.

Lemma strhash_djb2_witness :
  let m := wr 0 [47; 0] ∅ in strhash 0 m = Done (djb2 [47]) m ∧ 0 <= djb2 [47] < 2 ^ 31.
Proof. apply (strhash_djb2 0 [47]). vm_compute. repeat split; reflexivity. Defined.

(** * memset, memcpy and strdup *)

Lemma memset_loop_ok n a c m :
  mapped m a (Z.of_nat n) → memset_loop n a c m = Done tt (wr a (replicate n (u8 c)) m).
Proof.
  revert a m. induction n as [|n IH]; intros a m Hm; [done|]. simpl.
  erewrite bind_Done by (apply store_ok, Hm; lia). apply IH, mapped_insert.
  intros b Hb. apply Hm. lia.
Qed.

Lemma memset_ok dst c n m :
  0 <= n < 2 ^ 31 → mapped m dst n →
  memset dst c n m = Done dst (wr dst (replicate (Z.to_nat n) (u8 c)) m).
Proof.
  intros Hn Hm. unfold memset. destruct (Z.leb_spec (2 ^ 31) n); [lia|].
  erewrite bind_Done by (apply memset_loop_ok; by rewrite Z2Nat.id by lia). done.
Qed.

(** The byte list stored at [a]. *)
Fixpoint bytes_at (m : gmap Z Z) (a : Z) (l : list Z) : Prop :=
  match l with
  | [] => True
  | c :: l => m !! a = Some c ∧ 0 <= c < 256 ∧ bytes_at m (a + 1) l
  end.

Lemma bytes_at_insert m a l b v :
  bytes_at m a l → ¬ (a <= b < a + Z.of_nat (length l)) → bytes_at (<[b := v]> m) a l.
Proof.
  revert a. induction l as [|c l IH]; intros a; simpl; [done|]. intros (? & ? & ?) Hb.
  rewrite lookup_insert_ne by lia. split_and!; [done|lia..|]. apply IH; [done|lia].
Qed.

Lemma memcpy_loop_ok l dst src m :
  bytes_at m src l → mapped m dst (Z.of_nat (length l)) →
  (dst + Z.of_nat (length l) <= src ∨ src + Z.of_nat (length l) <= dst) →
  memcpy_loop (length l) dst src m = Done tt (wr dst l m).
Proof.
  revert dst src m. induction l as [|c l IH]; intros dst src m Hb Hm Hd; [done|].
  simpl in *. destruct Hb as (Hv & ? & Hb). erewrite bind_Done by by apply load_ok.
  erewrite bind_Done by (apply store_ok, Hm; lia). rewrite u8_small by lia.
  apply IH; [apply bytes_at_insert; [done|lia]|apply mapped_insert; intros b ?; apply Hm; lia|lia].
Qed.

(** [memcpy] between disjoint ranges stores exactly the source bytes at
    the destination and changes nothing else. *)
Theorem memcpy_copies dst src l m :
  bytes_at m src l → mapped m dst (Z.of_nat (length l)) →
  (dst + Z.of_nat (length l) <= src ∨ src + Z.of_nat (length l) <= dst) →
  ∃ m', memcpy dst src (Z.of_nat (length l)) m = Done dst m' ∧
    ∀ b, m' !! b = if decide (dst <= b < dst + Z.of_nat (length l))
                   then l !! Z.to_nat (b - dst) else m !! b.
Proof.
  intros Hb Hm Hd. eexists. split.
  - unfold memcpy. rewrite Nat2Z.id. erewrite bind_Done by by apply memcpy_loop_ok. done.
  - intros b. apply wr_lookup.
Qed.

Lemma memcpy_copies_witness :
  let m := wr 0 [0; 0] (wr 10 [7; 9] ∅) in
  ∃ m', memcpy 0 10 2 m = Done 0 m' ∧
    ∀ b, m' !! b = if decide (0 <= b < 0 + 2) then [7; 9] !! Z.to_nat (b - 0) else m !! b.
Proof.
  apply (memcpy_copies 0 10 [7; 9]).
  - vm_compute. repeat split; discriminate.
  - intros b Hb. rewrite wr_lookup, decide_True by (simpl in *; lia).
    apply lookup_lt_is_Some. simpl in *. lia.
  - simpl. lia.
Defined.

(** [strdup] copies up to and including the NUL, whatever the size of the
    destination, and returns the number of bytes stored. *)
Lemma strdup_loop_ok fuel dst src len s m :
  cstr m (src + len) s → (length s < fuel)%nat → mapped m dst (Z.of_nat (length s) + 1) →
  (∀ i, 0 <= i <= Z.of_nat (length s) →
     ¬ (dst <= src + len + i < dst + (Z.of_nat (length s) + 1))) →
  strdup_loop fuel dst src len m =
    Done (len + Z.of_nat (length s) + 1) (wr dst (s ++ [0]) m).
Proof.
  revert dst len s m. induction fuel as [|fuel IH]; intros dst len s m Hs Hf Hm Hd; [lia|].
  simpl strdup_loop. destruct s as [|c s]; simpl in *.
  - erewrite bind_Done by by apply load_ok. erewrite bind_Done by (apply store_ok, Hm; lia).
    simpl. unfold mret, M_ret. f_equal. lia.
  - destruct Hs as (Hv & ? & Hs). erewrite bind_Done by by apply load_ok.
    erewrite bind_Done by (apply store_ok, Hm; lia). rewrite u8_small by lia.
    destruct (Z.eqb_spec c 0); [lia|]. rewrite (IH (dst + 1) (len + 1) s).
    + f_equal. lia.
    + rewrite Z.add_assoc. apply cstr_insert; [done|]. intros Hb.
      apply (Hd (dst - src - len)); lia.
    + lia.
    + apply mapped_insert. intros b ?. apply Hm. lia.
    + intros i Hi Hb. apply (Hd (i + 1)); lia.
Qed.

Lemma strdup_ok dst src s m :
  cstr m src s → mapped m dst (Z.of_nat (length s) + 1) →
  (∀ i, 0 <= i <= Z.of_nat (length s) → ¬ (dst <= src + i < dst + (Z.of_nat (length s) + 1))) →
  strdup dst src m = Done (Z.of_nat (length s) + 1) (wr dst (s ++ [0]) m).
Proof.
  intros Hs Hm Hd. unfold strdup. erewrite bind_Done by done.
  rewrite (strdup_loop_ok _ dst src 0 s); [f_equal; lia|by rewrite Z.add_0_r| |done|].
  - apply cstr_length in Hs. lia.
  - intros i. rewrite Z.add_0_r. auto.
Qed.

(** * Strings of a larger state

    A caller whose strings are fields of its own state runs the string functions
    on a small memory that holds the two strings they are given. *)

(** Two disjoint strings in memory. *)
Definition NAME_AT : Z := -4096.
Definition ARG_AT : Z := 0.
Definition strings (s t : list Z) : gmap Z Z := wr ARG_AT t (wr NAME_AT s ∅).

(** A computation over a memory of its own. *)
Definition with_mem {S A} (m : gmap Z Z) (c : M (gmap Z Z) A) : M S (A * gmap Z Z) := λ s,
  match c m with
  | Done a m => Done (a, m) s
  | Panic => Panic
  | Fault => Fault
  | OutOfFuel => OutOfFuel
  | Blocked => Blocked
  end.
(** The [n] bytes from [a] on. *)
Definition bytes_of (m : gmap Z Z) (a : Z) (n : nat) : list Z := (λ i, default 0 (m !! (a + Z.of_nat i))) <$> seq 0 n.

(** The bytes of a string literal. *)
Definition chars_of (s : string) : list Z := (λ a, Z.of_nat (Ascii.nat_of_ascii a)) <$> String.list_ascii_of_string s.

(** [strncpy] into a field of [len] bytes with the byte behind it, for a string
    that fits: the string and two NULs, the second of which may be behind the field. *)
Lemma strncpy_field {S} (f n : list Z) (len : nat) (s : S) :
  Forall (λ c, 0 < c < 256) n → length f = Datatypes.S len → (length n < len)%nat → (len < 4096)%nat →
  ∃ m, with_mem (strings f (n ++ [0])) (strncpy NAME_AT ARG_AT (Z.of_nat len)) s = Done (Z.of_nat (length n), m) s ∧
    ∀ i, (i <= len)%nat → m !! (NAME_AT + Z.of_nat i) = (n ++ [0; 0] ++ drop (length n + 2) f) !! i.
Proof.
  intros Hn Hf Hl Hlen. set (m := strings _ _). pose proof (strncpy_ok NAME_AT ARG_AT (Z.of_nat len) n m) as Hc.
  destruct (Z.ltb_spec (Z.of_nat (length n)) (Z.of_nat len)); [|lia].
  assert (Hm : ∀ i, (i <= len)%nat → m !! (NAME_AT + Z.of_nat i) = f !! i).
  { intros i Hi. unfold m, strings, NAME_AT, ARG_AT. rewrite !wr_lookup, decide_False, decide_True by lia.
    f_equal. lia. }
  exists (wr NAME_AT (n ++ [0; 0]) m). split.
  - unfold with_mem. rewrite Hc; [by rewrite Z.min_l by lia|lia|by apply cstr_wr| |].
    + intros b Hb. replace b with (NAME_AT + Z.of_nat (Z.to_nat (b - NAME_AT))) by lia.
      rewrite Hm by lia. apply lookup_lt_is_Some_2. lia.
    + intros i Hi. unfold NAME_AT, ARG_AT. lia.
  - intros i Hi. rewrite wr_lookup, app_assoc. pose proof (length_app n [0; 0]) as Hla. simpl in Hla. case_decide.
    + replace (Z.to_nat _) with i by lia. symmetry. apply lookup_app_l. lia.
    + rewrite lookup_app_r by lia. rewrite Hm, lookup_drop by lia. f_equal. lia.
Qed.

(** The bytes of such a field. *)
Lemma bytes_of_list m a (l : list Z) (n : nat) :
  (n <= length l)%nat → (∀ i, (i < n)%nat → m !! (a + Z.of_nat i) = l !! i) → bytes_of m a n = take n l.
Proof.
  intros Hl Hm. apply list_eq. intros i. unfold bytes_of. rewrite list_lookup_fmap.
  destruct (decide (i < n)%nat) as [Hi|Hi].
  - rewrite lookup_seq_lt, lookup_take_lt by lia. simpl. rewrite Hm by lia.
    by destruct (lookup_lt_is_Some_2 l i) as [c ->]; [lia|].
  - rewrite lookup_seq_ge, lookup_take_ge by lia. done.
Qed.
