(* ===== verification/Bitmap.v ===== *)
(** The allocation bitmap of include/lib/bitmap.h and lib/bitmap.c.

    [map] is the array of 64-bit words; an index past its end is a fault.
    [bitmap_wf lo] is the invariant the file system keeps: the bits below
    [lo] are never handed out (inode 0 and block 0 are reserved), everything
    from [lo] up to the search position [allocation] is in use, and [unused]
    counts the free bits. *)
From S2P Require Import Prelude.

Module Bmp.

Record bitmap := Bitmap {
  map : list Z;
  size : Z;
  unused : Z;
  allocation : Z;
}.

Definition set_map m (b : bitmap) : bitmap := Bitmap m (size b) (unused b) (allocation b).
Definition set_unused u (b : bitmap) : bitmap := Bitmap (map b) (size b) u (allocation b).
Definition set_allocation a (b : bitmap) : bitmap := Bitmap (map b) (size b) (unused b) a.

(** [map[i]], a fault outside the array. *)
Definition word (i : Z) : M bitmap Z :=
  deref (λ b, if i <? 0 then None else map b !! Z.to_nat i).
Definition set_word (i w : Z) : M bitmap unit :=
  modify (λ b, set_map (<[Z.to_nat i := w]> (map b)) b).

(** [w & (1ULL << bit)] as a truth value. *)
Definition test (w bit : Z) : bool := negb (Z.land w (Z.shiftl 1 bit) =? 0).

(** [memset(map, 0, (size_bits + 7) / 8)] clears whole bytes of the words. *)
Definition clear_bytes (n w : Z) : Z :=
  if n <=? 0 then w else if 8 <=? n then 0 else Z.shiftl (Z.shiftr w (8 * n)) (8 * n).
Definition bitmap_init (m : list Z) (size_bits : Z) : bitmap :=
  Bitmap (imap (λ i w, clear_bytes (Z.quot (size_bits + 7) 8 - 8 * Z.of_nat i) w) m)
    size_bits size_bits 0.

Definition bitmap_init_zone (m : list Z) (size_bits : Z) : bitmap :=
  Bitmap m size_bits size_bits 0.

(** The bits of one word from [bit] on: the first clear one. *)
Fixpoint scan_bits (n : nat) (bit w : Z) : option Z :=
  match n with
  | O => None
  | S n => if test w bit then scan_bits n (bit + 1) w else Some bit
  end.

(** The words from [i] on. *)
Fixpoint scan_blocks (n : nat) (i start_block start_bit : Z) : M bitmap Z :=
  match n with
  | O => mret (-1)
  | S n =>
      w ← word i;
      if w =? 2 ^ 64 - 1 then scan_blocks n (i + 1) start_block start_bit else
      let bit := if i =? start_block then start_bit else 0 in
      match scan_bits (Z.to_nat (64 - bit)) bit w with
      | None => scan_blocks n (i + 1) start_block start_bit
      | Some bit =>
          let res := i * 64 + bit in
          sz ← gets size;
          if sz <? res then mret (-1) else
          set_word i (Z.lor w (Z.shiftl 1 bit));;
          modify (λ b, set_unused (unused b - 1) b);;
          modify (set_allocation (res + 1));;
          mret res
      end
  end.

Definition bitmap_alloc : M bitmap Z :=
  u ← gets unused;
  if u =? 0 then mret (-1) else
  b ← get;
  let total_blocks := Z.quot (size b + 63) 64 in
  let start_block := Z.quot (allocation b) 64 in
  let start_bit := Z.rem (allocation b) 64 in
  scan_blocks (Z.to_nat (total_blocks - start_block)) start_block start_block start_bit.

Definition bitmap_free (index : Z) : M bitmap unit :=
  sz ← gets size;
  if (index <? 0) || (sz <=? index) then mret tt else
  let map_index := Z.quot index 64 in
  let bit := Z.rem index 64 in
  modify (λ b, if index <? allocation b then set_allocation index b else b);;
  w ← word map_index;
  if test w bit then
    set_word map_index (Z.land w (Z.lxor (Z.shiftl 1 bit) (2 ^ 64 - 1)));;
    modify (λ b, set_unused (unused b + 1) b)
  else mret tt.

Definition bitmap_is_free (index : Z) : M bitmap Z :=
  sz ← gets size;
  if (index <? 0) || (sz <=? index) then mret (-1) else
  w ← word (Z.quot index 64);
  mret (if test w (Z.rem index 64) then 0 else 1).

Definition bitmap_reset_allo (start : Z) : M bitmap unit :=
  modify (set_allocation start);;
  index ← bitmap_alloc;
  bitmap_free index.

Definition bitmap_reset_unused (_unused : Z) : M bitmap unit := modify (set_unused _unused).

(** * The set of used indices *)

Definition used (b : bitmap) (j : Z) : bool :=
  match map b !! Z.to_nat (j / 64) with Some w => Z.testbit w (j mod 64) | None => false end.

(** The free indices of [lo..hi-1]. *)
Definition free_list (b : bitmap) (lo hi : Z) : list Z :=
  filter (λ j, used b j = false) (seqZ lo (hi - lo)).

Record bitmap_wf (lo : Z) (b : bitmap) : Prop := {
  wf_len : size b <= 64 * Z.of_nat (length (map b));
  wf_words : ∀ i w, map b !! i = Some w → 0 <= w < 2 ^ 64;
  wf_pos : 0 <= lo <= allocation b;
  wf_alloc : allocation b <= size b;
  wf_memo : ∀ j, lo <= j < allocation b → used b j = true;
  wf_unused : unused b = Z.of_nat (length (free_list b lo (size b)));
}.

Lemma test_testbit w bit : 0 <= bit → test w bit = Z.testbit w bit.
Proof.
  intros Hb. unfold test. destruct (Z.testbit w bit) eqn:E.
  - destruct (Z.eqb_spec (Z.land w (Z.shiftl 1 bit)) 0) as [H0|]; [|done].
    assert (Hc : Z.testbit (Z.land w (Z.shiftl 1 bit)) bit = false) by (rewrite H0; apply Z.bits_0).
    rewrite Z.land_spec, E, Z.shiftl_spec, Z.sub_diag in Hc by lia. done.
  - destruct (Z.eqb_spec (Z.land w (Z.shiftl 1 bit)) 0) as [|Hn]; [done|].
    destruct Hn. apply Z.bits_inj'. intros i Hi. rewrite Z.bits_0, Z.land_spec.
    destruct (decide (i = bit)) as [->|]; [by rewrite E|].
    rewrite Z.shiftl_mul_pow2, Z.mul_1_l, Z.pow2_bits_false by lia. apply andb_false_r.
Qed.

Lemma scan_bits_spec n bit w :
  0 <= bit →
  match scan_bits n bit w with
  | Some r => bit <= r < bit + Z.of_nat n ∧ Z.testbit w r = false ∧
              ∀ j, bit <= j < r → Z.testbit w j = true
  | None => ∀ j, bit <= j < bit + Z.of_nat n → Z.testbit w j = true
  end.
Proof.
  revert bit. induction n as [|n IH]; intros bit Hb; simpl; [lia|].
  rewrite test_testbit by done. destruct (Z.testbit w bit) eqn:E.
  - specialize (IH (bit + 1) ltac:(lia)). destruct (scan_bits n (bit + 1) w) as [r|].
    + destruct IH as (? & ? & Hj). split_and!; [lia..|done|]. intros j Hjr.
      destruct (decide (j = bit)) as [->|]; [done|]. apply Hj. lia.
    + intros j Hj. destruct (decide (j = bit)) as [->|]; [done|]. apply IH. lia.
  - split_and!; [lia..|done|]. intros. lia.
Qed.

(** The first clear bit at or after [bit], when there is one. *)
Lemma scan_bits_first bit w t :
  0 <= bit <= t → t < 64 → Z.testbit w t = false →
  (∀ j, bit <= j < t → Z.testbit w j = true) →
  scan_bits (Z.to_nat (64 - bit)) bit w = Some t.
Proof.
  intros Hb Ht Hf Hj. pose proof (scan_bits_spec (Z.to_nat (64 - bit)) bit w ltac:(lia)) as Hs.
  destruct (scan_bits _ _ _) as [r|].
  - destruct Hs as (? & Hr & Hrj). f_equal. destruct (Z.lt_trichotomy r t) as [?|[?|?]]; [|done|].
    + rewrite Hj in Hr by lia. done.
    + rewrite Hrj in Hf by lia. done.
  - rewrite Hs in Hf by lia. done.
Qed.

Lemma scan_bits_full bit w :
  0 <= bit → (∀ j, bit <= j < 64 → Z.testbit w j = true) →
  scan_bits (Z.to_nat (64 - bit)) bit w = None.
Proof.
  intros Hb Hj. pose proof (scan_bits_spec (Z.to_nat (64 - bit)) bit w ltac:(lia)) as Hs.
  destruct (scan_bits _ _ _) as [r|]; [|done]. destruct Hs as (? & Hr & _).
  destruct (decide (r < 64)); [by rewrite Hj in Hr by lia|lia].
Qed.

Lemma word_ok i w b : 0 <= i → map b !! Z.to_nat i = Some w → word i b = Done w b.
Proof.
  intros Hi Hw. unfold word, deref. destruct (Z.ltb_spec i 0); [lia|]. by rewrite Hw.
Qed.

Lemma used_at b i w j :
  map b !! Z.to_nat i = Some w → 0 <= j < 64 → 0 <= i → used b (i * 64 + j) = Z.testbit w j.
Proof.
  intros Hw Hj Hi. unfold used.
  rewrite Z.div_add_l, Z.div_small, Z.add_0_r, Hw by lia.
  by rewrite Z.add_comm, Z.mod_add, Z.mod_small by lia.
Qed.

Lemma not_all_ones w t : 0 <= t < 64 → Z.testbit w t = false → w ≠ 2 ^ 64 - 1.
Proof.
  intros Ht Hf ->. replace (2 ^ 64 - 1) with (Z.ones 64) in Hf by done.
  rewrite Z.testbit_ones_nonneg in Hf by lia. destruct (Z.ltb_spec t 64); [done|lia].
Qed.

(** The scan reaches the first free index at or after the search position. *)
Lemma scan_blocks_ok n i sb sbit t b :
  0 <= sb <= i → 0 <= sbit < 64 → i <= t / 64 < i + Z.of_nat n →
  t / 64 < Z.of_nat (length (map b)) → sb * 64 + sbit <= t <= size b →
  used b t = false → (∀ j, sb * 64 + sbit <= j < t → used b j = true) →
  ∃ w, map b !! Z.to_nat (t / 64) = Some w ∧
  scan_blocks n i sb sbit b =
    Done t (Bitmap (<[Z.to_nat (t / 64) := Z.lor w (Z.shiftl 1 (t mod 64))]> (map b))
              (size b) (unused b - 1) (t + 1)).
Proof.
  intros Hsb Hsbit. revert i Hsb. induction n as [|n IH]; intros i Hsb Hi Hlen Ht Hfree Hused; [lia|].
  simpl scan_blocks.
  destruct (lookup_lt_is_Some_2 (map b) (Z.to_nat i)) as [w Hw]; [lia|].
  rewrite (bind_Done _ _ _ _ _ (word_ok i w b ltac:(lia) Hw)).
  pose proof (Z.div_mod t 64 ltac:(lia)) as Hdm.
  pose proof (Z.mod_pos_bound t 64 ltac:(lia)) as Hmod.
  set (bit := if i =? sb then sbit else 0).
  assert (Hbit : 0 <= bit < 64 ∧ sb * 64 + sbit <= i * 64 + bit).
  { unfold bit. destruct (Z.eqb_spec i sb); lia. }
  destruct (decide (i = t / 64)) as [Hit|Hne].
  - rewrite <-Hit in *. exists w. split; [done|].
    assert (Hf : Z.testbit w (t mod 64) = false).
    { rewrite <-Hfree. replace t with (i * 64 + t mod 64) at 2 by lia.
      by rewrite (used_at b i w) by (done || lia). }
    destruct (Z.eqb_spec w (2 ^ 64 - 1)) as [E|_]; [by eapply not_all_ones in E|].
    assert (Hbt : bit <= t mod 64) by (unfold bit; destruct (Z.eqb_spec i sb); lia).
    rewrite (scan_bits_first bit w (t mod 64)); [|lia..|done|].
    + replace (i * 64 + t mod 64) with t by lia.
      erewrite bind_Done by done. destruct (Z.ltb_spec (size b) t); [lia|]. done.
    + intros j Hj. rewrite <-(used_at b i w) by (done || lia). apply Hused. lia.
  - assert (Hall : ∀ j, bit <= j < 64 → Z.testbit w j = true).
    { intros j Hj. rewrite <-(used_at b i w) by (done || lia). apply Hused. lia. }
    destruct (Z.eqb_spec w (2 ^ 64 - 1)); [apply IH; (done || lia)|].
    rewrite scan_bits_full by (done || lia). apply IH; (done || lia).
Qed.

(** ** Effect of setting and clearing one bit *)

Lemma used_set b j k w s u a :
  0 <= j → 0 <= k → map b !! Z.to_nat (j / 64) = Some w →
  used (Bitmap (<[Z.to_nat (j / 64) := Z.lor w (Z.shiftl 1 (j mod 64))]> (map b)) s u a) k =
    (if decide (k = j) then true else used b k).
Proof.
  intros Hj Hk Hw. unfold used. simpl.
  pose proof (Z.div_mod j 64 ltac:(lia)). pose proof (Z.mod_pos_bound j 64 ltac:(lia)).
  pose proof (Z.div_mod k 64 ltac:(lia)). pose proof (Z.mod_pos_bound k 64 ltac:(lia)).
  assert (0 <= j / 64) by (apply Z.div_pos; lia). assert (0 <= k / 64) by (apply Z.div_pos; lia).
  destruct (decide (k / 64 = j / 64)) as [E|Hne].
  - rewrite E, list_lookup_insert_eq by (by apply lookup_lt_Some in Hw). rewrite Hw.
    rewrite Z.lor_spec. case_decide as Hkj.
    + subst. rewrite Z.shiftl_spec, Z.sub_diag by lia. apply orb_true_r.
    + rewrite Z.shiftl_mul_pow2, Z.mul_1_l, Z.pow2_bits_false by lia. apply orb_false_r.
  - rewrite list_lookup_insert_ne by lia. rewrite decide_False; [done|]. intros ->. done.
Qed.

Lemma used_clear b j k w s u a :
  0 <= j → 0 <= k → map b !! Z.to_nat (j / 64) = Some w →
  used (Bitmap (<[Z.to_nat (j / 64) :=
          Z.land w (Z.lxor (Z.shiftl 1 (j mod 64)) (2 ^ 64 - 1))]> (map b)) s u a) k =
    (if decide (k = j) then false else used b k).
Proof.
  intros Hj Hk Hw. unfold used. simpl.
  pose proof (Z.div_mod j 64 ltac:(lia)). pose proof (Z.mod_pos_bound j 64 ltac:(lia)).
  pose proof (Z.div_mod k 64 ltac:(lia)). pose proof (Z.mod_pos_bound k 64 ltac:(lia)).
  assert (0 <= j / 64) by (apply Z.div_pos; lia). assert (0 <= k / 64) by (apply Z.div_pos; lia).
  destruct (decide (k / 64 = j / 64)) as [E|Hne].
  - rewrite E, list_lookup_insert_eq by (by apply lookup_lt_Some in Hw). rewrite Hw.
    replace (2 ^ 64 - 1) with (Z.ones 64) by done.
    rewrite Z.land_spec, Z.lxor_spec, Z.testbit_ones_nonneg by lia.
    replace (k mod 64 <? 64) with true by (symmetry; apply Z.ltb_lt; lia).
    case_decide as Hkj.
    + subst. rewrite Z.shiftl_spec, Z.sub_diag by lia. apply andb_false_r.
    + rewrite Z.shiftl_mul_pow2, Z.mul_1_l, Z.pow2_bits_false by lia. apply andb_true_r.
  - rewrite list_lookup_insert_ne by lia. rewrite decide_False; [done|]. intros ->. done.
Qed.

(** ** Counting free indices *)

Lemma free_list_in b lo hi j : j ∈ free_list b lo hi ↔ lo <= j < hi ∧ used b j = false.
Proof.
  unfold free_list. rewrite list_elem_of_filter, elem_of_seqZ.
  split; intros [? ?]; (split; [done || lia|done || lia]).
Qed.

Lemma filter_ext_in (P Q : Z → Prop) `{∀ x, Decision (P x), ∀ x, Decision (Q x)} (l : list Z) :
  (∀ x, x ∈ l → P x ↔ Q x) → filter P l = filter Q l.
Proof.
  induction l as [|x l IH]; intros Heq; [done|].
  rewrite !filter_cons, IH by (intros; apply Heq; by right).
  assert (P x ↔ Q x) by (apply Heq; by left). repeat case_decide; tauto.
Qed.

Lemma filter_ext_count (P Q : Z → Prop) `{∀ x, Decision (P x), ∀ x, Decision (Q x)} (t : Z) (l : list Z) :
  NoDup l → (∀ x, x ∈ l → x ≠ t → P x ↔ Q x) → P t → ¬ Q t → t ∈ l →
  length (filter P l) = S (length (filter Q l)).
Proof.
  intros Hnd Heq HP HQ. induction l as [|x l IH]; intros Hin; [by apply elem_of_nil in Hin|].
  apply NoDup_cons in Hnd as [Hx Hnd].
  destruct (decide (x = t)) as [->|Hne].
  - rewrite filter_cons_True, filter_cons_False by done. simpl. f_equal. f_equal.
    apply filter_ext_in. intros y Hy. apply Heq; [by right|]. by intros ->.
  - apply elem_of_cons in Hin as [->|Hin]; [done|].
    assert (Hr : length (filter P l) = S (length (filter Q l))).
    { apply IH; [done| |done]. intros y Hy. apply Heq. by right. }
    destruct (decide (P x)) as [Hp|Hp].
    + rewrite !filter_cons_True; [simpl; by rewrite Hr| |done]. apply Heq; [by left|done..].
    + rewrite !filter_cons_False; [done| |done]. intros Hq. apply Hp, Heq; [by left|done..].
Qed.

(** Taking one free index away. *)
Lemma free_list_set b b' lo hi t :
  lo <= t < hi → used b t = false → used b' t = true →
  (∀ j, lo <= j < hi → j ≠ t → used b' j = used b j) →
  length (free_list b lo hi) = S (length (free_list b' lo hi)).
Proof.
  intros Ht Hf Hu Heq. unfold free_list. apply (filter_ext_count _ _ t).
  - apply NoDup_seqZ.
  - intros x Hx%elem_of_seqZ Hne. rewrite Heq by lia. done.
  - done.
  - by rewrite Hu.
  - apply elem_of_seqZ. lia.
Qed.

Lemma free_list_nil b lo hi :
  length (free_list b lo hi) = 0%nat ↔ ∀ j, lo <= j < hi → used b j = true.
Proof.
  split.
  - intros E j Hj. destruct (used b j) eqn:Eu; [done|].
    assert (Hin : j ∈ free_list b lo hi) by by apply free_list_in.
    apply nil_length_inv in E. rewrite E in Hin. by apply elem_of_nil in Hin.
  - intros Hall. destruct (free_list b lo hi) as [|x l] eqn:E; [done|].
    assert (Hin : x ∈ free_list b lo hi) by (rewrite E; by left).
    apply free_list_in in Hin as [Hx Hu]. by rewrite Hall in Hu.
Qed.

(** The least free index, when [unused] is not zero. *)
Lemma least_free b lo :
  bitmap_wf lo b → unused b ≠ 0 →
  ∃ t, allocation b <= t < size b ∧ used b t = false ∧
    ∀ j, lo <= j < t → used b j = true.
Proof.
  intros Hwf Hu. pose proof (wf_unused _ _ Hwf) as Hcount.
  assert (Hsearch : ∀ n : nat, (∃ t, lo <= t < lo + Z.of_nat n ∧ used b t = false ∧
      ∀ j, lo <= j < t → used b j = true) ∨ ∀ j, lo <= j < lo + Z.of_nat n → used b j = true).
  { induction n as [|n [(t & ? & ? & ?)|Hall]]; [right; lia|left; exists t; split_and!; (done || lia)|].
    destruct (used b (lo + Z.of_nat n)) eqn:E.
    - right. intros j Hj. destruct (decide (j = lo + Z.of_nat n)) as [->|]; [done|]. apply Hall. lia.
    - left. exists (lo + Z.of_nat n). split_and!; [lia..|done|]. intros. apply Hall. lia. }
  pose proof (wf_pos _ _ Hwf). pose proof (wf_alloc _ _ Hwf).
  destruct (Hsearch (Z.to_nat (size b - lo))) as [(t & Ht & Hf & Hj)|Hall].
  - exists t. split_and!; [|lia|done..].
    destruct (decide (allocation b <= t)); [done|].
    rewrite (wf_memo _ _ Hwf) in Hf by lia. done.
  - exfalso. apply Hu. rewrite Hcount.
    assert (length (free_list b lo (size b)) = 0%nat) as ->; [|done].
    apply free_list_nil. intros j Hj. apply Hall. lia.
Qed.

Lemma lor_word_range w k : 0 <= w < 2 ^ 64 → 0 <= k < 64 → 0 <= Z.lor w (Z.shiftl 1 k) < 2 ^ 64.
Proof.
  intros Hw Hk. assert (0 <= Z.lor w (Z.shiftl 1 k)).
  { apply Z.lor_nonneg. split; [lia|]. apply Z.shiftl_nonneg. lia. }
  split; [done|]. destruct (decide (Z.lor w (Z.shiftl 1 k) = 0)) as [->|]; [lia|].
  apply Z.log2_lt_pow2; [lia|]. rewrite Z.log2_lor by (try apply Z.shiftl_nonneg; lia).
  apply Z.max_lub_lt.
  - destruct (decide (w = 0)) as [->|]; [done|]. apply Z.log2_lt_pow2; lia.
  - rewrite Z.log2_shiftl by lia. simpl. lia.
Qed.

Lemma land_word_range w x : 0 <= w < 2 ^ 64 → 0 <= Z.land w x < 2 ^ 64.
Proof.
  intros Hw. assert (0 <= Z.land w x) by (apply Z.land_nonneg; lia). split; [done|].
  apply Z.le_lt_trans with w; [|lia]. rewrite Z.land_comm.
  assert (Hsub : Z.ldiff (Z.land x w) w = 0).
  { apply Z.bits_inj'. intros i _. rewrite Z.ldiff_spec, Z.land_spec, Z.bits_0.
    by destruct (Z.testbit x i), (Z.testbit w i). }
  apply Z.ldiff_le; [lia|done].
Qed.

(** Allocation.  On a well-formed bitmap [bitmap_alloc] returns -1 and
    changes nothing when no bit is unused; otherwise it returns the least free
    index at or above [lo], inside the bitmap, marks exactly that index used
    and counts it, and the bitmap stays well formed. *)
Theorem bitmap_alloc_correct lo b :
  bitmap_wf lo b →
  (unused b = 0 → bitmap_alloc b = Done (-1) b) ∧
  (unused b ≠ 0 → ∃ t b', bitmap_alloc b = Done t b' ∧
     lo <= t < size b ∧ used b t = false ∧ (∀ j, lo <= j < t → used b j = true) ∧
     (∀ k, 0 <= k → used b' k = if decide (k = t) then true else used b k) ∧
     size b' = size b ∧ unused b' = unused b - 1 ∧ bitmap_wf lo b').
Proof.
  intros Hwf. split; intros Hu.
  { unfold bitmap_alloc. erewrite bind_Done by done. by rewrite Hu. }
  destruct (least_free b lo Hwf Hu) as (t & Ht & Hfree & Hall).
  pose proof (wf_pos _ _ Hwf). pose proof (wf_len _ _ Hwf). pose proof (wf_alloc _ _ Hwf).
  unfold bitmap_alloc. erewrite bind_Done by done.
  destruct (Z.eqb_spec (unused b) 0); [done|]. erewrite bind_Done by done. cbv zeta.
  rewrite !quot_div, rem_mod by lia.
  pose proof (Z.div_mod (allocation b) 64 ltac:(lia)).
  pose proof (Z.mod_pos_bound (allocation b) 64 ltac:(lia)).
  assert (0 <= allocation b / 64) by (apply Z.div_pos; lia).
  assert (allocation b / 64 <= t / 64) by (apply Z.div_le_mono; lia).
  assert (t / 64 < (size b + 63) / 64).
  { apply Z.div_lt_upper_bound; [lia|].
    pose proof (Z.div_mod (size b + 63) 64 ltac:(lia)).
    pose proof (Z.mod_pos_bound (size b + 63) 64 ltac:(lia)). lia. }
  assert (t / 64 < Z.of_nat (length (map b))) by (apply Z.div_lt_upper_bound; lia).
  destruct (scan_blocks_ok (Z.to_nat ((size b + 63) / 64 - allocation b / 64))
    (allocation b / 64) (allocation b / 64) (allocation b mod 64) t b) as (w & Hw & E);
    [lia..|done|intros; apply Hall; lia|].
  eexists t, _. split; [exact E|].
  assert (Hused : ∀ k, 0 <= k → used (Bitmap (<[Z.to_nat (t / 64) :=
    Z.lor w (Z.shiftl 1 (t mod 64))]> (map b)) (size b) (unused b - 1) (t + 1)) k =
    (if decide (k = t) then true else used b k)).
  { intros k Hk. apply used_set; (done || lia). }
  split_and!; [lia..|done|done|done|done|done|].
  split; simpl.
  - by rewrite length_insert.
  - intros i w' Hi. apply list_lookup_insert_Some in Hi as [(<- & <- & _)|(_ & Hi)].
    + apply lor_word_range; [by eapply wf_words|]. apply Z.mod_pos_bound. lia.
    + by eapply wf_words.
  - lia.
  - lia.
  - intros j Hj. rewrite Hused by lia. case_decide; [done|]. apply Hall. lia.
  - match goal with |- context [free_list ?b' _ _] =>
      assert (Hc : length (free_list b lo (size b)) = S (length (free_list b' lo (size b)))) end.
    { apply (free_list_set b _ lo (size b) t); [lia|done| |].
      - rewrite Hused by lia. by rewrite decide_True.
      - intros j Hj Hne. rewrite Hused by lia. by rewrite decide_False. }
    pose proof (wf_unused _ _ Hwf). lia.
Qed.

(** Release.  Freeing a used index at or above [lo] marks exactly that
    index free, counts it and keeps the bitmap well formed; freeing an index
    that is out of range changes nothing, and a double free changes at most the
    search position. *)
Theorem bitmap_free_correct lo b index :
  bitmap_wf lo b →
  (index < 0 ∨ size b <= index → bitmap_free index b = Done tt b) ∧
  (lo <= index < size b → ∃ b', bitmap_free index b = Done tt b' ∧ bitmap_wf lo b' ∧
     size b' = size b ∧ allocation b' = Z.min index (allocation b) ∧
     (∀ k, 0 <= k → used b' k = if decide (k = index) then false else used b k) ∧
     unused b' = unused b + (if used b index then 1 else 0)).
Proof.
  intros Hwf. pose proof (wf_pos _ _ Hwf). pose proof (wf_len _ _ Hwf).
  unfold bitmap_free. split; intros Hi.
  { erewrite bind_Done by done.
    replace ((index <? 0) || (size b <=? index)) with true; [done|].
    symmetry. rewrite orb_true_iff, Z.ltb_lt, Z.leb_le. lia. }
  erewrite bind_Done by done.
  replace ((index <? 0) || (size b <=? index)) with false; cycle 1.
  { symmetry. rewrite orb_false_iff, Z.ltb_ge, Z.leb_gt. lia. }
  cbv zeta. rewrite quot_div, rem_mod by lia. erewrite bind_Done by done.
  pose proof (Z.mod_pos_bound index 64 ltac:(lia)).
  assert (0 <= index / 64) by (apply Z.div_pos; lia).
  destruct (lookup_lt_is_Some_2 (map b) (Z.to_nat (index / 64))) as [w Hw].
  { assert (index / 64 < Z.of_nat (length (map b))) by (apply Z.div_lt_upper_bound; lia). lia. }
  set (b1 := if index <? allocation b then set_allocation index b else b).
  assert (Hb1 : map b1 = map b ∧ size b1 = size b ∧ unused b1 = unused b ∧
    allocation b1 = Z.min index (allocation b) ∧ ∀ k, used b1 k = used b k).
  { unfold b1. destruct (Z.ltb_spec index (allocation b)); split_and!; (done || simpl; lia). }
  destruct Hb1 as (Hm & Hs & Hun & Ha & Hus).
  rewrite (bind_Done _ _ _ _ _ (word_ok (index / 64) w b1 ltac:(lia) ltac:(by rewrite Hm))).
  rewrite test_testbit by lia.
  assert (Hbit : used b index = Z.testbit w (index mod 64)) by (unfold used; by rewrite Hw).
  destruct (Z.testbit w (index mod 64)) eqn:Eb; rewrite Hbit.
  - eexists. split; [done|].
    assert (Hused : ∀ k, 0 <= k → used (Bitmap (<[Z.to_nat (index / 64) :=
        Z.land w (Z.lxor (Z.shiftl 1 (index mod 64)) (2 ^ 64 - 1))]> (map b1))
        (size b1) (unused b1 + 1) (allocation b1)) k =
      (if decide (k = index) then false else used b k)).
    { intros k Hk. rewrite used_clear; [by rewrite Hus|lia..|by rewrite Hm]. }
    split_and!; [|done..|simpl; lia].
    split; simpl.
    + rewrite length_insert, Hm, Hs. done.
    + intros i w' Hi'. apply list_lookup_insert_Some in Hi' as [(<- & <- & _)|(_ & Hi')].
      * apply land_word_range. by eapply wf_words.
      * rewrite Hm in Hi'. by eapply wf_words.
    + lia.
    + pose proof (wf_alloc _ _ Hwf). lia.
    + intros j Hj. rewrite Hused by lia. rewrite decide_False by lia. apply (wf_memo _ _ Hwf). lia.
    + rewrite Hs. match goal with |- context [free_list ?b' _ _] =>
        assert (Hc : length (free_list b' lo (size b)) = S (length (free_list b lo (size b)))) end.
      { apply (free_list_set _ b lo (size b) index); [lia| |done|].
        - rewrite Hused by lia. by rewrite decide_True.
        - intros j Hj Hne. rewrite Hused by lia. by rewrite decide_False. }
      pose proof (wf_unused _ _ Hwf). lia.
  - exists b1. split; [done|]. split_and!; [|done|done| |lia].
    + split; rewrite ?Hm, ?Hs, ?Hun, ?Ha.
      * by eapply wf_len.
      * by eapply wf_words.
      * lia.
      * pose proof (wf_alloc _ _ Hwf). lia.
      * intros j Hj. rewrite Hus. apply (wf_memo _ _ Hwf). lia.
      * rewrite (wf_unused _ _ Hwf). f_equal. f_equal. unfold free_list.
        apply filter_ext_in. intros j _. by rewrite Hus.
    + intros k Hk. rewrite Hus. case_decide; [by subst|done].
Qed.

(** The bound check of [bitmap_alloc] is [res > size], so when [unused] claims
    a free bit although every index below [size] is taken, the index [size]
    itself is handed out; [bitmap_is_free] and [bitmap_free] then reject it. *)
Theorem bitmap_alloc_past_end b :
  0 <= allocation b <= size b → size b < 64 * Z.of_nat (length (map b)) →
  size b mod 64 ≠ 0 → unused b ≠ 0 →
  (∀ j, allocation b <= j < size b → used b j = true) → used b (size b) = false →
  ∃ b', bitmap_alloc b = Done (size b) b' ∧
    bitmap_is_free (size b) b' = Done (-1) b' ∧ bitmap_free (size b) b' = Done tt b'.
Proof.
  intros Ha Hlen Hs Hu Hall Hf.
  pose proof (Z.div_mod (allocation b) 64 ltac:(lia)).
  pose proof (Z.mod_pos_bound (allocation b) 64 ltac:(lia)).
  assert (0 <= allocation b / 64) by (apply Z.div_pos; lia).
  assert (allocation b / 64 <= size b / 64) by (apply Z.div_le_mono; lia).
  assert (size b / 64 < (size b + 63) / 64).
  { pose proof (Z.div_mod (size b) 64 ltac:(lia)). pose proof (Z.mod_pos_bound (size b) 64 ltac:(lia)).
    replace (size b + 63) with ((size b / 64 + 1) * 64 + (size b mod 64 - 1)) by lia.
    rewrite Z.div_add_l, (Z.div_small (_ - 1)) by lia. lia. }
  destruct (scan_blocks_ok (Z.to_nat ((size b + 63) / 64 - allocation b / 64))
    (allocation b / 64) (allocation b / 64) (allocation b mod 64) (size b) b) as (w & Hw & E);
    [lia..|apply Z.div_lt_upper_bound; lia|lia|done|intros; apply Hall; lia|].
  eexists. split.
  - unfold bitmap_alloc. erewrite bind_Done by done.
    destruct (Z.eqb_spec (unused b) 0); [done|]. erewrite bind_Done by done. cbv zeta.
    rewrite !quot_div, rem_mod by lia. exact E.
  - unfold bitmap_is_free, bitmap_free. split; erewrite bind_Done by done; simpl;
      by rewrite Z.leb_refl, orb_true_r.
Qed.

(** ** Refinement

    The contract of the allocator, over the set [U] of free indices of
    [lo..sz-1]: an allocation takes the least index out of [U] or returns -1
    when there is none, a release puts an index back. *)
Inductive bop := BAlloc | BFree (i : Z).

Definition run_op (o : bop) : M bitmap Z :=
  match o with BAlloc => bitmap_alloc | BFree i => bitmap_free i;; mret 0 end.
Fixpoint run_ops (os : list bop) : M bitmap (list Z) :=
  match os with
  | [] => mret []
  | o :: os => r ← run_op o; rs ← run_ops os; mret (r :: rs)
  end.

Inductive abs_op (lo sz : Z) (U : gset Z) : bop → Z → gset Z → Prop :=
| abs_full : U = ∅ → abs_op lo sz U BAlloc (-1) U
| abs_alloc t : t ∈ U → (∀ j, j ∈ U → t <= j) → abs_op lo sz U BAlloc t (U ∖ {[t]})
| abs_free i : lo <= i < sz → abs_op lo sz U (BFree i) 0 ({[i]} ∪ U)
| abs_ignore i : i < 0 ∨ sz <= i → abs_op lo sz U (BFree i) 0 U.
Inductive abs_ops (lo sz : Z) : gset Z → list bop → list Z → gset Z → Prop :=
| abs_nil U : abs_ops lo sz U [] [] U
| abs_cons U o r U' os rs U'' :
    abs_op lo sz U o r U' → abs_ops lo sz U' os rs U'' → abs_ops lo sz U (o :: os) (r :: rs) U''.

Record bitmap_rep (lo sz : Z) (U : gset Z) (b : bitmap) : Prop := {
  rep_wf : bitmap_wf lo b;
  rep_size : size b = sz;
  rep_free : ∀ j, j ∈ U ↔ lo <= j < sz ∧ used b j = false;
}.
(** The reserved indices below [lo] are not released. *)
Definition legal (lo : Z) (o : bop) : Prop := match o with BAlloc => True | BFree i => i < 0 ∨ lo <= i end.

Lemma rep_unused lo sz U b : bitmap_rep lo sz U b → (unused b = 0 ↔ U = ∅).
Proof.
  intros [Hwf Hs HU]. split.
  - intros E. rewrite (wf_unused _ _ Hwf) in E. apply set_eq. intros j. rewrite HU. split; [|set_solver].
    intros (Hj & Hf). assert (Hin : j ∈ free_list b lo (size b)) by (apply free_list_in; rewrite Hs; done).
    apply list_elem_of_In in Hin. destruct (free_list b lo (size b)); [done|]. simpl in E. lia.
  - intros ->. destruct (decide (unused b = 0)) as [|Hn]; [done|].
    destruct (least_free b lo Hwf Hn) as (t & Ht & Hf & _). assert (t ∈ (∅ : gset Z)); [|set_solver].
    apply HU. pose proof (wf_pos _ _ Hwf). split; [lia|done].
Qed.

Lemma run_op_refines lo sz U b o :
  bitmap_rep lo sz U b → legal lo o →
  ∃ r b' U', run_op o b = Done r b' ∧ abs_op lo sz U o r U' ∧ bitmap_rep lo sz U' b'.
Proof.
  intros Hr Ho. pose proof Hr as [Hwf Hs HU]. pose proof (wf_pos _ _ Hwf). destruct o as [|i]; simpl in *.
  - destruct (bitmap_alloc_correct lo b Hwf) as [H0 H1]. destruct (decide (unused b = 0)) as [Hu|Hu].
    + exists (-1), b, U. split; [by apply H0|]. split; [|done]. constructor. by apply (rep_unused _ _ _ _ Hr).
    + destruct (H1 Hu) as (t & b' & E & Ht & Hf & Hl & Hk & Hs' & Hun & Hwf').
      exists t, b', (U ∖ {[t]}). split; [done|]. split.
      * constructor; [apply HU; rewrite <-Hs; done|]. intros j [Hj Hjf]%HU.
        destruct (decide (j < t)); [|lia]. by rewrite Hl in Hjf by lia.
      * split; [done|congruence|]. intros j. rewrite elem_of_difference, elem_of_singleton, HU.
        split; [intros [[? ?] ?]|intros [? Hu']]; rewrite ?Hk in * by lia; case_decide; naive_solver.
  - destruct (bitmap_free_correct lo b i Hwf) as [H0 H1]. destruct (decide (i < 0 ∨ sz <= i)) as [Hi|Hi].
    + exists 0, b, U. rewrite (bind_Done _ _ _ _ _ (H0 ltac:(rewrite Hs; exact Hi))).
      split; [done|]. split; [by constructor|done].
    + destruct H1 as (b' & E & Hwf' & Hs' & _ & Hk & _); [lia|]. exists 0, b', ({[i]} ∪ U).
      rewrite (bind_Done _ _ _ _ _ E). split; [done|]. split; [constructor; lia|].
      split; [done|congruence|]. intros j. rewrite elem_of_union, elem_of_singleton, HU.
      split; [intros [->|[? ?]]|intros [? Hu']]; rewrite ?Hk in * by lia; case_decide; naive_solver lia.
Qed.

(** C34: The bitmap implements the set of its free indices: every sequence of
    allocations and releases returns, gives the results of the set operations and
    leaves a bitmap that represents the resulting set. *)
Theorem bitmap_refines_set lo sz os U b :
  bitmap_rep lo sz U b → Forall (legal lo) os →
  ∃ rs b' U', run_ops os b = Done rs b' ∧ abs_ops lo sz U os rs U' ∧ bitmap_rep lo sz U' b'.
Proof.
  revert U b. induction os as [|o os IH]; intros U b Hr Hl.
  - exists [], b, U. split; [done|]. split; [constructor|done].
  - apply Forall_cons in Hl as [Ho Hl]. destruct (run_op_refines lo sz U b o Hr Ho) as (r & b1 & U1 & E & Ha & Hr1).
    destruct (IH U1 b1 Hr1 Hl) as (rs & b' & U' & E' & Ha' & Hr').
    exists (r :: rs), b', U'. split; [|split; [by econstructor|done]].
    simpl. rewrite (bind_Done _ _ _ _ _ E), (bind_Done _ _ _ _ _ E'). done.
Qed.

(** A 70-bit bitmap with bit 0 reserved, 1 and 65 in use. *)
Definition bm70 : bitmap := Bitmap [3; 2] 70 67 2.

Lemma bm70_wf : bitmap_wf 1 bm70.
Proof.
  split; simpl; [lia| |lia|lia| |by vm_compute].
  - intros [|[|i]] w [= <-]; lia.
  - intros j Hj. assert (j = 1) as -> by lia. done.
Qed.

Lemma bitmap_refines_set_witness :
  ∃ b', run_ops [BAlloc; BFree 65; BAlloc; BFree 2; BAlloc; BFree 99] bm70 = Done [2; 0; 3; 0; 2; 0] b' ∧ bitmap_wf 1 b'.
Proof.
  destruct (bitmap_refines_set 1 70 [BAlloc; BFree 65; BAlloc; BFree 2; BAlloc; BFree 99]
    (list_to_set (free_list bm70 1 70)) bm70) as (rs & b' & U' & E & _ & Hr).
  - split; [apply bm70_wf|done|]. intros j. by rewrite elem_of_list_to_set, free_list_in.
  - repeat constructor; simpl; lia.
  - exists b'. split; [|apply (rep_wf _ _ _ _ Hr)]. rewrite E. f_equal. clear -E. vm_compute in E. by injection E.
Defined.

Lemma bitmap_alloc_past_end_witness :
  ∃ b', bitmap_alloc (Bitmap [31] 5 1 5) = Done 5 b' ∧
    bitmap_is_free 5 b' = Done (-1) b' ∧ bitmap_free 5 b' = Done tt b'.
Proof. apply (bitmap_alloc_past_end (Bitmap [31] 5 1 5)); simpl; done || lia. Defined.

End Bmp.
