(* ===== verification/Buddy.v ===== *)
(** Physical pages and the buddy allocator: include/lib/atomic.h,
    include/mm/page.h, mm/page.c and mm/mm.c.

    A [struct page] pointer is the index of the page in [mem_map.pages].  The
    list nodes embedded in the pages ([page.buddy]) and the heads
    [buddy.free_lists[i]] live in one node heap, as in ListLib.  [buddy_ok F s]
    says that the node heap represents the free lists [F] (level to list of
    block heads) and that the blocks are aligned, in range and disjoint. *)
From S2P Require Import Prelude ListLib StringLib.

(** * Atomic counters (atomic.h): 32-bit signed *)

Definition atomic_add (i v : Z) : Z := i32 (v + i).
Definition atomic_sub (i v : Z) : Z := i32 (v + i32 (- i)).
Definition atomic_inc (v : Z) : Z := atomic_add 1 v.
Definition atomic_dec (v : Z) : Z := atomic_sub 1 v.
(** The new counter and the returned truth value, computed from the old one. *)
Definition atomic_dec_and_test (v : Z) : Z * bool := (i32 (v + -1), i32 (v - 1) =? 0).

(** * Pages *)

Definition PGSHIFT : Z := 12.
Definition PGSIZE : Z := 4096.
Definition KERNBASE : Z := 0x80000000.
Definition AVAILABLE_MEMORY : Z := 128 * 1024 * 1024.
Definition ALL_PFN : Z := Z.shiftr AVAILABLE_MEMORY PGSHIFT.
Definition KERNBASE_PFN : Z := Z.shiftr KERNBASE PGSHIFT.
Definition PG_FREE : Z := -1.
Definition PG_anon : Z := 4.
Definition PG_reserved : Z := 8.
Definition PG_Slab : Z := 16.

Definition MAX_LEVEL : Z := 11.
Definition MAX_LEVEL_INDEX : Z := MAX_LEVEL - 1.
Definition MAX_LEVEL_COUNT : Z := Z.shiftl 1 MAX_LEVEL_INDEX.

Definition index_to_page (index : Z) : Z := u64 (Z.shiftl index PGSHIFT + KERNBASE).
Definition page_to_index (page : Z) : Z := Z.shiftr (u64 (page - KERNBASE)) PGSHIFT.

(** [struct page] without its list node; [slab] is the address of the slab
    the page belongs to, [None] for NULL. *)
Record page := Page { flags : Z; count : Z; slab : option Z }.

Inductive loc := FreeList (level : Z) | PageBuddy (index : Z).
#[global] Instance loc_eq_dec : EqDecision loc.
Proof. solve_decision. Defined.
#[global] Instance loc_countable : Countable loc.
Proof.
  refine (inj_countable' (λ l, match l with FreeList i => inl i | PageBuddy i => inr i end)
    (λ l, match l with inl i => FreeList i | inr i => PageBuddy i end) _).
  by intros [].
Defined.

(** [mem_map], [buddy], [kernel_pfn_end], the locks held and the RAM. *)
Record mm := MM {
  pages : gmap Z page;
  lists : gmap loc (node loc);
  kernel_pfn_end : Z;
  mm_locks : gset lockid;
  ram : gmap Z Z;
}.
Definition set_pages p (s : mm) : mm := MM p (lists s) (kernel_pfn_end s) (mm_locks s) (ram s).
Definition set_lists l (s : mm) : mm := MM (pages s) l (kernel_pfn_end s) (mm_locks s) (ram s).
Definition set_kernel_pfn_end k (s : mm) : mm := MM (pages s) (lists s) k (mm_locks s) (ram s).
Definition set_ram r (s : mm) : mm := MM (pages s) (lists s) (kernel_pfn_end s) (mm_locks s) r.
#[global] Instance mm_HasLocks : HasLocks mm := {
  locks := mm_locks;
  set_locks L s := MM (pages s) (lists s) (kernel_pfn_end s) L (ram s);
}.

Definition buddy_lock : lockid := ("buddy"%string, 0).

(** Reading and changing [mem_map.pages[p]]. *)
Definition page_get (p : Z) : M mm page := deref (λ s, pages s !! p).
Definition page_mod (p : Z) (f : page → page) : M mm unit :=
  update (λ s, pg ← pages s !! p; Some (set_pages (<[p := f pg]> (pages s)) s)).
(** An operation of list.h on the node heap. *)
Definition list_do (f : gmap loc (node loc) → option (gmap loc (node loc))) : M mm unit :=
  update (λ s, h ← f (lists s); Some (set_lists h s)).

Definition set_flags fl (pg : page) : page := Page fl (count pg) (slab pg).
Definition set_count c (pg : page) : page := Page (flags pg) c (slab pg).
Definition set_slab sl (pg : page) : page := Page (flags pg) (count pg) sl.
Definition SetPageFlag (flag : Z) (pg : page) : page := set_flags (u32 (Z.lor (flags pg) flag)) pg.

(** The addresses of the pages of the model. *)
Definition get_page_struct (addr : Z) : Z := page_to_index addr.
Definition get_page_addr (pg : Z) : Z := index_to_page pg.

Definition page_count (p : Z) : M mm Z := pg ← page_get p; mret (count pg).
Definition is_page_free (p : Z) : M mm bool := c ← page_count p; mret (c =? PG_FREE).
Definition page_push (p : Z) : M mm unit := page_mod p (λ pg, set_count (atomic_inc (count pg)) pg).
Definition page_pop (p : Z) : M mm unit := page_mod p (λ pg, set_count (atomic_dec (count pg)) pg).
Definition page_pop_test (p : Z) : M mm bool :=
  pg ← page_get p;
  let '(c, r) := atomic_dec_and_test (count pg) in
  page_mod p (set_count c);; mret r.

Definition page_init (p flags : Z) : M mm unit :=
  modify (λ s, set_pages (<[p := Page flags PG_FREE None]> (pages s)) s);;
  modify (λ s, set_lists (INIT_LIST_HEAD (PageBuddy p) (lists s)) s).

(** [for (i = ...; n iterations; i++) body(i)] *)
Fixpoint for_up (n : nat) (i : Z) (body : Z → M mm unit) : M mm unit :=
  match n with
  | O => mret tt
  | S n => body i;; for_up n (i + 1) body
  end.

(** [_end] is the first address after the kernel image. *)
Definition all_page_init (_end : Z) : M mm unit :=
  modify (set_kernel_pfn_end (u32 (Z.shiftr _end PGSHIFT - KERNBASE_PFN)));;
  for_up (Z.to_nat ALL_PFN) 0 (λ i, page_init i 0);;
  kend ← gets kernel_pfn_end;
  for_up (Z.to_nat kend) 0 (λ i,
    page_mod i (λ pg, set_count (atomic_inc (count pg)) pg);;
    page_mod i (SetPageFlag (Z.lor PG_reserved PG_anon))).

(** * The buddy allocator *)

Definition find_buddy (page order : Z) : option Z :=
  let buddy_index := Z.lxor page (Z.shiftl 1 order) in
  if ALL_PFN <=? buddy_index then None else Some buddy_index.

(** [for (j = i; j > order; j--)]: give the upper halves back. *)
Fixpoint split (n : nat) (page j order : Z) : M mm unit :=
  match n with
  | O => mret tt
  | S n =>
      if j <=? order then mret tt else
      match find_buddy page (j - 1) with
      | None => mret tt
      | Some buddy_page =>
          list_do (list_add_head (PageBuddy buddy_page) (FreeList (j - 1)));;
          split n page (j - 1) order
      end
  end.

(** [list_pop] on a free list and [list_entry]: a free-list head is no page. *)
Definition pop_page (level : Z) : M mm (option Z) :=
  update_ret (λ s,
    '(r, h) ← list_pop (FreeList level) (lists s);
    match r with
    | None => Some (None, set_lists h s)
    | Some (PageBuddy p) => Some (Some p, set_lists h s)
    | Some (FreeList _) => None
    end).

Definition free_list_empty (level : Z) : M mm bool :=
  deref (λ s, list_empty (FreeList level) (lists s)).

(** [for (i = order; i < MAX_LEVEL; i++)]: the first non-empty level. *)
Fixpoint alloc_loop (n : nat) (i order : Z) : M mm (option Z) :=
  match n with
  | O => mret None
  | S n =>
      e ← free_list_empty i;
      if (e : bool) then alloc_loop n (i + 1) order else
      r ← pop_page i;
      match r with
      | None => fault
      | Some page => split (Z.to_nat (i - order)) page i order;; mret (Some page)
      end
  end.

Definition buddy_alloc (order : Z) : M mm (option Z) :=
  if (order <? 0) || (MAX_LEVEL_INDEX <? order) then mret None else
  spin_lock buddy_lock;;
  page ← alloc_loop (Z.to_nat (MAX_LEVEL - order)) order order;
  spin_unlock buddy_lock;;
  mret page.

(** Coalesce upwards; returns the merged block's head and level. *)
Fixpoint merge (n : nat) (page level : Z) : M mm (Z * Z) :=
  match n with
  | O => mret (page, level)
  | S n =>
      let buddy_page := find_buddy page level in
      e ← free_list_empty level;
      if (e : bool) then mret (page, level) else
      match buddy_page with
      | None => mret (page, level)
      | Some buddy_page =>
          f ← is_page_free buddy_page;
          if negb f then mret (page, level) else
          list_do (list_del_init (PageBuddy buddy_page));;
          list_do (list_del_init (PageBuddy page));;
          merge n (if page <? buddy_page then page else buddy_page) (level + 1)
      end
  end.

Definition buddy_free (pg order : Z) : M mm unit :=
  spin_lock buddy_lock;;
  '(page, level) ← merge (Z.to_nat (MAX_LEVEL_INDEX - order)) pg order;
  list_do (list_add_head (PageBuddy page) (FreeList level));;
  spin_unlock buddy_lock.

Definition alloc_pages (flags order : Z) : M mm Z :=
  r ← buddy_alloc order;
  match r with
  | None => fault     (* [page_push(NULL)] *)
  | Some pages => page_push pages;; mret pages
  end.
Definition __alloc_pages (flags order : Z) : M mm Z :=
  p ← alloc_pages flags order; mret (get_page_addr p).
Definition alloc_page (flags : Z) : M mm Z :=
  r ← buddy_alloc 0;
  match r with
  | None => fault
  | Some page => page_push page;; mret page
  end.
Definition __alloc_page (flags : Z) : M mm Z :=
  p ← alloc_page flags;
  let addr := get_page_addr p in
  zoom ram set_ram (memset addr 0 PGSIZE);;
  mret addr.

Definition free_pages (pages order : Z) : M mm unit :=
  t ← page_pop_test pages;
  if (t : bool) then buddy_free pages order else mret tt.
Definition __free_pages (addr order : Z) : M mm unit := free_pages (get_page_struct addr) order.
Definition free_page (page : Z) : M mm unit :=
  t ← page_pop_test page;
  if (t : bool) then buddy_free page 0 else mret tt.
Definition __free_page (addr : Z) : M mm unit := free_page (get_page_struct addr).

(** [for (i = kernel_pfn_end + 1; i < ALL_PFN; i += MAX_LEVEL_COUNT)] *)
Fixpoint add_blocks (n : nat) (i : Z) : M mm unit :=
  match n with
  | O => mret tt
  | S n =>
      if ALL_PFN <=? i then mret tt else
      list_do (list_add_head (PageBuddy i) (FreeList MAX_LEVEL_INDEX));;
      add_blocks n (i + MAX_LEVEL_COUNT)
  end.

Definition buddy_init : M mm unit :=
  for_up (Z.to_nat MAX_LEVEL) 0
    (λ i, modify (λ s, set_lists (INIT_LIST_HEAD (FreeList i) (lists s)) s));;
  kend ← gets kernel_pfn_end;
  add_blocks (Z.to_nat ALL_PFN) (u32 (kend + 1));;
  pop_page MAX_LEVEL_INDEX;;
  let end_free_count := u32 (ALL_PFN - kend) mod MAX_LEVEL_COUNT in
  for_up (Z.to_nat end_free_count) (ALL_PFN - end_free_count) page_push;;
  for_up (Z.to_nat end_free_count) (ALL_PFN - end_free_count) free_page.

(** * Representation of the free lists *)

Definition abs (F : gmap Z (list Z)) : gmap loc (list loc) :=
  kmap (M2 := gmap loc) FreeList ((λ xs : list Z, PageBuddy <$> xs) <$> F).

Definition block (F : gmap Z (list Z)) (l p : Z) : Prop := ∃ xs, F !! l = Some xs ∧ p ∈ xs.
Definition in_block (l p q : Z) : Prop := p <= q < p + 2 ^ l.
(** Page [q] lies in some block of the free lists. *)
Definition is_free (F : gmap Z (list Z)) (q : Z) : Prop := ∃ l p, block F l p ∧ in_block l p q.
Definition aligned (l p : Z) : Prop := 0 <= p ∧ p mod 2 ^ l = 0 ∧ p + 2 ^ l <= ALL_PFN.

Record buddy_ok (F : gmap Z (list Z)) (s : mm) : Prop := {
  bo_fam : fam (lists s) (abs F);
  bo_levels : ∀ l, is_Some (F !! l) ↔ 0 <= l < MAX_LEVEL;
  bo_nodes : ∀ p, 0 <= p < ALL_PFN → is_Some (lists s !! PageBuddy p);
  bo_pages : ∀ p, 0 <= p < ALL_PFN → is_Some (pages s !! p);
  bo_align : ∀ l p, block F l p → aligned l p;
  bo_disj : ∀ l p l' p' q, block F l p → block F l' p' → in_block l p q → in_block l' p' q →
    l = l' ∧ p = p';
}.

#[global] Instance FreeList_inj : Inj (=) (=) FreeList.
Proof. by intros ?? [=]. Qed.
#[global] Instance PageBuddy_inj : Inj (=) (=) PageBuddy.
Proof. by intros ?? [=]. Qed.

Lemma abs_lookup F l : abs F !! FreeList l = (λ xs, PageBuddy <$> xs) <$> F !! l.
Proof. unfold abs. by rewrite lookup_kmap, lookup_fmap by apply _. Qed.

Lemma abs_lookup_Some F hd ys :
  abs F !! hd = Some ys → ∃ l xs, hd = FreeList l ∧ ys = PageBuddy <$> xs ∧ F !! l = Some xs.
Proof.
  unfold abs. rewrite lookup_kmap_Some by apply _. intros (l & -> & E).
  rewrite lookup_fmap in E. destruct (F !! l) as [xs|] eqn:El; simplify_eq/=. naive_solver.
Qed.

Lemma abs_insert F l xs : <[FreeList l := PageBuddy <$> xs]> (abs F) = abs (<[l := xs]> F).
Proof. unfold abs. by rewrite fmap_insert, kmap_insert by apply _. Qed.

Lemma abs_in_fam F p : in_fam (abs F) (PageBuddy p) ↔ ∃ l, block F l p.
Proof.
  split.
  - intros (hd & ys & (l & xs & -> & -> & E)%abs_lookup_Some & Hin).
    exists l, xs. split; [done|]. apply elem_of_cons in Hin as [|Hin]; [done|].
    by apply list_elem_of_fmap in Hin as (? & [= ->] & ?).
  - intros (l & xs & E & Hin). exists (FreeList l), (PageBuddy <$> xs).
    rewrite abs_lookup, E. split; [done|]. right. apply list_elem_of_fmap. eauto.
Qed.

Lemma block_insert F l xs l' p :
  block (<[l := xs]> F) l' p ↔ (l' = l ∧ p ∈ xs) ∨ (l' ≠ l ∧ block F l' p).
Proof.
  unfold block. split.
  - intros (ys & [[<- <-]|[? ?]]%lookup_insert_Some & ?); eauto.
  - intros [[-> ?]|(? & ys & ? & ?)].
    + exists xs. by rewrite lookup_insert_eq.
    + exists ys. by rewrite lookup_insert_ne.
Qed.

Lemma block_cons F l p xs l' p' :
  F !! l = Some xs →
  block (<[l := p :: xs]> F) l' p' ↔ (l' = l ∧ p' = p) ∨ block F l' p'.
Proof.
  intros E. rewrite block_insert, elem_of_cons. unfold block. split.
  - intros [[-> [->|?]]|[? ?]]; eauto.
  - intros [[-> ->]|(ys & E' & ?)]; [by eauto|].
    destruct (decide (l' = l)) as [->|]; [|by eauto]. simplify_eq. eauto.
Qed.

Lemma is_free_cons F l p xs q :
  F !! l = Some xs → is_free (<[l := p :: xs]> F) q ↔ is_free F q ∨ in_block l p q.
Proof.
  intros E. unfold is_free. setoid_rewrite (block_cons F l p xs _ _ E). split.
  - intros (l' & p' & [[-> ->]|?] & ?); eauto.
  - intros [(l' & p' & ? & ?)|?]; [exists l', p'|exists l, p]; eauto.
Qed.

Lemma pow2_pos l : 0 <= l → 0 < 2 ^ l.
Proof. intros. by apply Z.pow_pos_nonneg. Qed.

Lemma bo_level F s l p : buddy_ok F s → block F l p → 0 <= l < MAX_LEVEL.
Proof. intros Ho (xs & E & _). apply (bo_levels _ _ Ho). by eexists. Qed.

Lemma bo_nodup F s l xs : buddy_ok F s → F !! l = Some xs → NoDup xs.
Proof.
  intros Ho E. destruct (bo_fam _ _ Ho) as [Hd _].
  destruct (Hd (FreeList l) (PageBuddy <$> xs)) as [Hnd _]; [by rewrite abs_lookup, E|].
  apply NoDup_cons in Hnd as [_ Hnd]. by eapply NoDup_fmap_1.
Qed.

(** A block that shares no page with the free lists is on none of them. *)
Lemma fresh_block F l p :
  0 <= l → (∀ q, in_block l p q → ¬ is_free F q) →
  (∀ l' p', block F l' p' → 0 <= l') → ¬ in_fam (abs F) (PageBuddy p).
Proof.
  intros Hl Hfr Hlv (l' & Hb)%abs_in_fam. pose proof (pow2_pos l Hl).
  apply (Hfr p); [unfold in_block; lia|]. exists l', p. split; [done|].
  pose proof (pow2_pos l' (Hlv _ _ Hb)). unfold in_block. lia.
Qed.

Lemma add_block F s l p xs :
  buddy_ok F s → F !! l = Some xs → aligned l p →
  (∀ q, in_block l p q → ¬ is_free F q) →
  ∃ h, list_do (list_add_head (PageBuddy p) (FreeList l)) s = Done tt (set_lists h s) ∧
    buddy_ok (<[l := p :: xs]> F) (set_lists h s).
Proof.
  intros Ho E Hal Hfr.
  assert (Hl : 0 <= l < MAX_LEVEL) by (apply (bo_levels _ _ Ho); by eexists).
  pose proof (pow2_pos l ltac:(lia)).
  destruct (fam_add_head (PageBuddy p) (FreeList l) (PageBuddy <$> xs) (lists s) (abs F))
    as (h & Eh & Hf & _ & Hdom & _).
  - apply Ho.
  - by rewrite abs_lookup, E.
  - apply (fresh_block F l p); [lia|done|]. intros. by eapply bo_level.
  - apply (bo_nodes _ _ Ho). unfold aligned in Hal. lia.
  - exists h. unfold list_do, update. rewrite Eh. split; [done|].
    split; simpl.
    + change (PageBuddy p :: (PageBuddy <$> xs)) with (PageBuddy <$> (p :: xs)) in Hf.
      by rewrite abs_insert in Hf.
    + intros l'. rewrite <-(bo_levels _ _ Ho). destruct (decide (l' = l)) as [->|].
      * rewrite lookup_insert_eq, E. split; by eexists.
      * by rewrite lookup_insert_ne.
    + intros q Hq. rewrite <-elem_of_dom, Hdom, elem_of_dom. by apply (bo_nodes _ _ Ho).
    + apply Ho.
    + intros l' p' [[-> ->]|Hb]%(block_cons _ _ _ _ _ _ E); [done|]. by apply (bo_align _ _ Ho).
    + intros l1 p1 l2 p2 q [[-> ->]|H1]%(block_cons _ _ _ _ _ _ E)
        [[-> ->]|H2]%(block_cons _ _ _ _ _ _ E) Hq1 Hq2; [done| | |].
      * destruct (Hfr q); [done|]. by exists l2, p2.
      * destruct (Hfr q); [done|]. by exists l1, p1.
      * by apply (bo_disj _ _ Ho l1 p1 l2 p2 q).
Qed.

(** Removing a block from a level. *)
Lemma remove_block F s l p xs ys h :
  buddy_ok F s → F !! l = Some (xs ++ p :: ys) →
  fam h (abs (<[l := xs ++ ys]> F)) → dom h = dom (lists s) →
  buddy_ok (<[l := xs ++ ys]> F) (set_lists h s) ∧
  (∀ q, is_free F q ↔ is_free (<[l := xs ++ ys]> F) q ∨ in_block l p q) ∧
  (∀ q, in_block l p q → ¬ is_free (<[l := xs ++ ys]> F) q).
Proof.
  intros Ho E Hf Hdom. pose proof (bo_nodup _ _ _ _ Ho E) as Hnd.
  assert (Hblk : ∀ l' p', block (<[l := xs ++ ys]> F) l' p' ↔ block F l' p' ∧ (l', p') ≠ (l, p)).
  { intros l' p'. rewrite block_insert. unfold block. split.
    - intros [[-> Hin]|[? Hb]]; [|split; [done|naive_solver]]. split.
      + exists (xs ++ p :: ys). split; [done|]. set_solver.
      + intros [= ->]. apply NoDup_app in Hnd as (_ & Hd & [Hn _]%NoDup_cons).
        apply elem_of_app in Hin as [Hin|Hin]; [|done]. apply (Hd p Hin). by left.
    - intros [(zs & E' & Hin) Hne]. destruct (decide (l' = l)) as [->|]; [|by eauto].
      left. rewrite E in E'. injection E' as <-. split; [done|].
      assert (p' ≠ p) by congruence. set_solver. }
  assert (Hb : block F l p) by (exists (xs ++ p :: ys); split; [done|set_solver]).
  split_and!.
  - split; simpl.
    + done.
    + intros l'. rewrite <-(bo_levels _ _ Ho). destruct (decide (l' = l)) as [->|].
      * rewrite lookup_insert_eq, E. split; by eexists.
      * by rewrite lookup_insert_ne.
    + intros q Hq. rewrite <-elem_of_dom, Hdom, elem_of_dom. by apply (bo_nodes _ _ Ho).
    + apply Ho.
    + intros l' p' [? _]%Hblk. by apply (bo_align _ _ Ho).
    + intros l1 p1 l2 p2 q [? _]%Hblk [? _]%Hblk. by apply (bo_disj _ _ Ho).
  - intros q. unfold is_free. setoid_rewrite Hblk. split.
    + intros (l' & p' & ? & ?). destruct (decide ((l', p') = (l, p))) as [[= -> ->]|]; [by right|].
      left. exists l', p'. done.
    + intros [(l' & p' & [? _] & ?)|?]; [exists l', p'|exists l, p]; done.
  - intros q Hq (l' & p' & [Hb' Hne]%Hblk & Hq').
    destruct (bo_disj _ _ Ho l p l' p' q) as [-> ->]; done.
Qed.

Lemma pop_block F s l p xs :
  buddy_ok F s → F !! l = Some (p :: xs) →
  ∃ h, pop_page l s = Done (Some p) (set_lists h s) ∧
    buddy_ok (<[l := xs]> F) (set_lists h s) ∧
    (∀ q, is_free F q ↔ is_free (<[l := xs]> F) q ∨ in_block l p q) ∧
    (∀ q, in_block l p q → ¬ is_free (<[l := xs]> F) q).
Proof.
  intros Ho E.
  destruct (fam_pop (FreeList l) (PageBuddy <$> (p :: xs)) (lists s) (abs F))
    as (h & Eh & Hf & _ & Hdom & _); [apply Ho|by rewrite abs_lookup, E|].
  simpl in Eh, Hf. rewrite abs_insert in Hf.
  exists h. split; [unfold pop_page, update_ret; by rewrite Eh|].
  by apply (remove_block F s l p [] xs).
Qed.

Lemma free_list_empty_ok F s l xs :
  buddy_ok F s → F !! l = Some xs → free_list_empty l s = Done (bool_decide (xs = [])) s.
Proof.
  intros Ho E. destruct (bo_fam _ _ Ho) as [Hd _]. unfold free_list_empty, deref.
  rewrite (list_empty_dll (FreeList l) (PageBuddy <$> xs)).
  - f_equal. apply bool_decide_ext. destruct xs; done.
  - apply Hd. by rewrite abs_lookup, E.
Qed.

(** ** The buddy of a block *)

Lemma lxor_1_even k : Z.lxor (2 * k) 1 = 2 * k + 1.
Proof.
  rewrite <-Z.add_nocarry_lxor; [done|]. apply Z.bits_inj'. intros i Hi.
  rewrite Z.land_spec, Z.bits_0. destruct (decide (i = 0)) as [->|].
  - by rewrite Z.testbit_even_0.
  - replace 1 with (2 ^ 0) by done. rewrite (Z.pow2_bits_false 0) by lia. apply andb_false_r.
Qed.

Lemma lxor_buddy m l :
  0 <= l → Z.lxor (m * 2 ^ l) (Z.shiftl 1 l) = Z.lxor m 1 * 2 ^ l.
Proof. intros. rewrite <-!Z.shiftl_mul_pow2, Z.shiftl_lxor by lia. done. Qed.

(** The head of the level-[l] block that contains page [p]. *)
Definition align_down (p l : Z) : Z := p / 2 ^ l * 2 ^ l.

(** An aligned block and its buddy are the two halves of the block above. *)
Lemma buddy_halves p l :
  0 <= l → 0 <= p → p mod 2 ^ l = 0 →
  let b := Z.lxor p (Z.shiftl 1 l) in
  let u := align_down p (l + 1) in
  (p = u ∧ b = u + 2 ^ l) ∨ (p = u + 2 ^ l ∧ b = u).
Proof.
  intros Hl Hp Hm b u. subst b u. pose proof (pow2_pos l Hl).
  pose proof (Z.div_mod p (2 ^ l) ltac:(lia)) as Hd. rewrite Hm, Z.add_0_r in Hd.
  set (m := p / 2 ^ l) in *. assert (Hm0 : 0 <= m) by (apply Z.div_pos; lia).
  rewrite Hd, (Z.mul_comm (2 ^ l) m), lxor_buddy by done. unfold align_down.
  rewrite Z.pow_add_r, Z.pow_1_r, <-Z.div_div, Z.div_mul by lia.
  pose proof (Z.div_mod m 2 ltac:(lia)) as Hd2.
  pose proof (Z.mod_pos_bound m 2 ltac:(lia)) as Hb2.
  clearbody m. set (k := m / 2) in *. clearbody k. destruct (decide (m mod 2 = 0)) as [E|E].
  - left. assert (Hk : m = 2 * k) by lia. rewrite Hk, lxor_1_even. lia.
  - right. assert (Hk : m = 2 * k + 1) by lia.
    assert (Hx : Z.lxor m 1 = 2 * k).
    { rewrite Hk, <-lxor_1_even, Z.lxor_assoc, Z.lxor_nilpotent. apply Z.lxor_0_r. }
    rewrite Hx, Hk. lia.
Qed.

Lemma aligned_up p l :
  0 <= l < MAX_LEVEL_INDEX → aligned l p → aligned (l + 1) (align_down p (l + 1)).
Proof.
  intros Hl (Hp & Hm & Hr). pose proof (pow2_pos l ltac:(lia)).
  pose proof (pow2_pos (l + 1) ltac:(lia)). unfold align_down.
  pose proof (Z.div_mod p (2 ^ (l + 1)) ltac:(lia)).
  pose proof (Z.mod_pos_bound p (2 ^ (l + 1)) ltac:(lia)).
  assert (0 <= p / 2 ^ (l + 1)) by (apply Z.div_pos; lia).
  split_and!; [nia|by rewrite Z.mod_mul by lia|].
  assert (Hd : ALL_PFN = 2 ^ (15 - (l + 1)) * 2 ^ (l + 1)).
  { rewrite <-Z.pow_add_r by (unfold MAX_LEVEL_INDEX, MAX_LEVEL in *; lia). by replace (_ + _) with 15 by lia. }
  rewrite Hd. enough (p / 2 ^ (l + 1) < 2 ^ (15 - (l + 1))) by nia.
  apply Z.div_lt_upper_bound; lia.
Qed.

Lemma find_buddy_ok p l :
  0 <= l < MAX_LEVEL_INDEX → aligned l p →
  let u := align_down p (l + 1) in
  ∃ b, find_buddy p l = Some b ∧ aligned l b ∧
    ((p = u ∧ b = u + 2 ^ l) ∨ (p = u + 2 ^ l ∧ b = u)).
Proof.
  intros Hl Hal u. pose proof (aligned_up p l Hl Hal) as (Hu & Hum & Hur). fold u in Hu, Hum, Hur.
  destruct Hal as (Hp & Hm & Hr). pose proof (pow2_pos l ltac:(lia)).
  pose proof (buddy_halves p l ltac:(lia) Hp Hm) as Hb. simpl in Hb. fold u in Hb.
  rewrite Z.pow_add_r, Z.pow_1_r in Hum, Hur by lia.
  set (b := Z.lxor p (Z.shiftl 1 l)) in *. exists b. unfold find_buddy. fold b.
  destruct (Z.leb_spec ALL_PFN b); [lia|]. split; [done|]. split; [|done].
  assert (Hu2 : u mod 2 ^ l = 0).
  { apply Z.mod_divide; [lia|]. apply Z.mod_divide in Hum as [c ->]; [|lia]. exists (c * 2). lia. }
  split_and!; [lia| |lia]. destruct Hb as [[_ ->]|[_ ->]]; [|done].
  replace (u + 2 ^ l) with (u + 1 * 2 ^ l) by lia. by rewrite Z.mod_add by lia.
Qed.

Lemma aligned_low l j p : 0 <= l <= j → aligned j p → aligned l p.
Proof.
  intros Hl (Hp & Hm & Hr). pose proof (pow2_pos l ltac:(lia)).
  assert (E : 2 ^ j = 2 ^ (j - l) * 2 ^ l) by (rewrite <-Z.pow_add_r by lia; f_equal; lia).
  pose proof (pow2_pos (j - l) ltac:(lia)). split_and!; [done| |nia].
  apply Z.mod_divide in Hm as [c Hc]; [|lia]. apply Z.mod_divide; [lia|].
  exists (c * 2 ^ (j - l)). nia.
Qed.

(** The half to give back when a block of level [j] is split. *)
Lemma find_buddy_split p j :
  1 <= j <= MAX_LEVEL_INDEX → aligned j p →
  find_buddy p (j - 1) = Some (p + 2 ^ (j - 1)) ∧ aligned (j - 1) (p + 2 ^ (j - 1)).
Proof.
  intros Hj Hal. pose proof (aligned_low (j - 1) j p ltac:(lia) Hal) as Hal'.
  destruct (find_buddy_ok p (j - 1) ltac:(lia) Hal') as (b & E & Hb & Hcase).
  replace (j - 1 + 1) with j in Hcase by lia.
  assert (Hd : align_down p j = p).
  { destruct Hal as (Hp & Hm & _). pose proof (pow2_pos j ltac:(lia)).
    pose proof (Z.div_mod p (2 ^ j) ltac:(lia)). unfold align_down. lia. }
  pose proof (pow2_pos (j - 1) ltac:(lia)). rewrite Hd in Hcase.
  destruct Hcase as [[_ ->]|[? _]]; [done|lia].
Qed.

Lemma split_ok F s p j order (n : nat) :
  buddy_ok F s → 0 <= order <= j → j <= MAX_LEVEL_INDEX → n = Z.to_nat (j - order) →
  aligned j p → (∀ q, in_block j p q → ¬ is_free F q) →
  ∃ F' h, split n p j order s = Done tt (set_lists h s) ∧ buddy_ok F' (set_lists h s) ∧
    (∀ q, is_free F' q ↔ is_free F q ∨ p + 2 ^ order <= q < p + 2 ^ j).
Proof.
  revert F s j. induction n as [|n IH]; intros F s j Ho Horder Hj Hn Hal Hfr.
  { assert (j = order) as -> by lia. exists F, (lists s).
    destruct s; split_and!; [done|done|]. intros. split; [by left|intros [?|?]; [done|lia]]. }
  simpl. destruct (Z.leb_spec j order); [lia|].
  destruct (find_buddy_split p j ltac:(lia) Hal) as [-> Hal1].
  assert (Hp2 : 2 ^ j = 2 * 2 ^ (j - 1)) by (rewrite <-Z.pow_succ_r by lia; f_equal; lia).
  pose proof (pow2_pos (j - 1) ltac:(lia)).
  destruct (proj2 (bo_levels _ _ Ho (j - 1)) ltac:(unfold MAX_LEVEL_INDEX in *; lia)) as [xs Exs].
  destruct (add_block F s (j - 1) (p + 2 ^ (j - 1)) xs Ho Exs Hal1) as (h1 & E1 & Ho1).
  { intros q Hq. apply Hfr. unfold in_block in *. lia. }
  rewrite (bind_Done _ _ _ _ _ E1).
  destruct (IH _ _ (j - 1) Ho1) as (F' & h' & E & Ho' & Hfree); [lia..| | |].
  - by apply (aligned_low _ j); [lia|].
  - intros q Hq. rewrite (is_free_cons F (j - 1) _ xs q Exs). unfold in_block in *.
    intros [?|?]; [|lia]. apply (Hfr q); [lia|done].
  - exists F', h'. split_and!; [done..|]. intros q.
    rewrite Hfree, (is_free_cons F (j - 1) _ xs q Exs). unfold in_block.
    assert (2 ^ order <= 2 ^ (j - 1)) by (apply Z.pow_le_mono_r; lia).
    split; [intros [[?|?]|?]; [by left|right; lia..]|].
    intros [?|?]; [by left; left|]. destruct (decide (q < p + 2 ^ (j - 1))); [right; lia|].
    left. right. lia.
Qed.

(** [buddy_ok] reads the node heap and the domain of the page array only. *)
Lemma buddy_ok_ext F s s' :
  lists s' = lists s → (∀ p, is_Some (pages s !! p) → is_Some (pages s' !! p)) →
  buddy_ok F s → buddy_ok F s'.
Proof. intros El Hp [??? Hpg ??]. split; rewrite ?El; auto. Qed.

Lemma alloc_loop_ok F s i order (n : nat) :
  buddy_ok F s → 0 <= order <= i → i + Z.of_nat n = MAX_LEVEL →
  ((∀ l, i <= l < MAX_LEVEL → F !! l = Some []) ∧ alloc_loop n i order s = Done None s) ∨
  ∃ l p F' h, block F l p ∧ i <= l ∧ (∀ l', i <= l' < l → F !! l' = Some []) ∧
    alloc_loop n i order s = Done (Some p) (set_lists h s) ∧ buddy_ok F' (set_lists h s) ∧
    aligned order p ∧ (∀ q, is_free F q ↔ is_free F' q ∨ in_block order p q) ∧
    (∀ q, in_block order p q → ¬ is_free F' q).
Proof.
  revert i. induction n as [|n IH]; intros i Ho Hord Hn.
  { left. split; [lia|done]. }
  destruct (proj2 (bo_levels _ _ Ho i) ltac:(lia)) as [xs E]. simpl alloc_loop.
  rewrite (bind_Done _ _ _ _ _ (free_list_empty_ok F s i xs Ho E)).
  destruct xs as [|p xs]; simpl.
  - destruct (IH (i + 1) Ho ltac:(lia) ltac:(lia))
      as [[Hall Er]|(l & p & F' & h & Hb & Hl & Hall & Er & Hrest)].
    + left. split; [|done]. intros l Hl. destruct (decide (l = i)) as [->|]; [done|]. apply Hall. lia.
    + right. exists l, p, F', h. split_and!; [done|lia| |done|by apply Hrest..].
      intros l' Hl'. destruct (decide (l' = i)) as [->|]; [done|]. apply Hall. lia.
  - right. assert (Hblk : block F i p) by (exists (p :: xs); split; [done|by left]).
    pose proof (bo_align _ _ Ho i p Hblk) as Hal.
    destruct (pop_block F s i p xs Ho E) as (h1 & E1 & Ho1 & Hfree1 & Hdis1).
    rewrite (bind_Done _ _ _ _ _ E1).
    destruct (split_ok _ _ p i order _ Ho1 ltac:(lia) ltac:(unfold MAX_LEVEL_INDEX; lia) eq_refl Hal Hdis1)
      as (F' & h' & E2 & Ho2 & Hfree2).
    exists i, p, F', h'. rewrite (bind_Done _ _ _ _ _ E2).
    assert (2 ^ order <= 2 ^ i) by (apply Z.pow_le_mono_r; lia).
    split_and!; [done|lia|lia|done|done|by apply (aligned_low _ i)| |].
    + intros q. rewrite Hfree1, Hfree2. unfold in_block.
      split; [intros [?|?]; [by left; left|]|intros [[?|?]|?]; [by left|right; lia..]].
      destruct (decide (q < p + 2 ^ order)); [right; lia|left; right; lia].
    + intros q Hq. rewrite Hfree2. unfold in_block in *. intros [?|?]; [|lia].
      apply (Hdis1 q); [unfold in_block; lia|done].
Qed.

(** Running a body between [spin_lock] and [spin_unlock] of the buddy lock. *)
Lemma with_lock {A} (body : M mm A) s a h :
  buddy_lock ∉ mm_locks s →
  body (set_locks ({[buddy_lock]} ∪ mm_locks s) s) =
    Done a (set_lists h (set_locks ({[buddy_lock]} ∪ mm_locks s) s)) →
  (spin_lock buddy_lock;; r ← body; spin_unlock buddy_lock;; mret r) s = Done a (set_lists h s).
Proof.
  intros Hl E. erewrite bind_Done; cycle 1.
  { unfold spin_lock. rewrite decide_False; [done|exact Hl]. }
  rewrite (bind_Done _ _ _ _ _ E). erewrite bind_Done; cycle 1.
  { unfold spin_unlock. rewrite decide_True; [done|]. simpl. set_solver. }
  unfold mret, M_ret. simpl. rewrite lock_unlock_locks by done. by destruct s.
Qed.

(** C25: Allocation from the buddy system.  On free lists of aligned, disjoint
    blocks, [buddy_alloc] returns NULL and changes nothing exactly when every
    level from [order] up is empty; otherwise it takes the first block of the
    lowest non-empty level, and the pages that were free are exactly those of
    the returned block of [2^order] pages plus those still free, without
    overlap; the lists stay well formed and the lock is released. *)
Theorem buddy_alloc_correct F s order :
  buddy_ok F s → 0 <= order <= MAX_LEVEL_INDEX → buddy_lock ∉ mm_locks s →
  ((∀ l, order <= l < MAX_LEVEL → F !! l = Some []) ∧ buddy_alloc order s = Done None s) ∨
  ∃ l p F' h, block F l p ∧ order <= l ∧ (∀ l', order <= l' < l → F !! l' = Some []) ∧
    buddy_alloc order s = Done (Some p) (set_lists h s) ∧ buddy_ok F' (set_lists h s) ∧
    aligned order p ∧ (∀ q, is_free F q ↔ is_free F' q ∨ in_block order p q) ∧
    (∀ q, in_block order p q → ¬ is_free F' q).
Proof.
  intros Ho Hord Hlk. set (s1 := set_locks ({[buddy_lock]} ∪ mm_locks s) s).
  assert (Ho1 : buddy_ok F s1) by (by apply (buddy_ok_ext F s)).
  unfold buddy_alloc. destruct (Z.ltb_spec order 0); [lia|].
  destruct (Z.ltb_spec MAX_LEVEL_INDEX order); [lia|]. cbn [orb].
  destruct (alloc_loop_ok F s1 order order (Z.to_nat (MAX_LEVEL - order)) Ho1 ltac:(lia))
    as [[Hall E]|(l & p & F' & h & Hb & Hl & Hall & E & Ho2 & Hrest)].
  - unfold MAX_LEVEL_INDEX in *. lia.
  - left. split; [done|]. replace s with (set_lists (lists s) s) at 2 by by destruct s.
    apply with_lock; [done|exact E].
  - right. exists l, p, F', h. split_and!; [done|done|done| | |by apply Hrest..].
    + by apply with_lock.
    + by apply (buddy_ok_ext F' (set_lists h s1)).
Qed.

(** ** Coalescing *)

(** What [buddy_free] relies on without testing it.  It takes any unreferenced
    page at the buddy's position for a free block of the level, so: as long as the
    buddies below were such blocks, an unreferenced buddy at a level with a
    non-empty list heads a free block of that very level. *)
Definition coherent (F : gmap Z (list Z)) (s : mm) (p order : Z) : Prop :=
  ∀ l b pg, order <= l < MAX_LEVEL_INDEX →
    (∀ l', order <= l' < l → ∃ b', find_buddy (align_down p l') l' = Some b' ∧ block F l' b') →
    F !! l ≠ Some [] → find_buddy (align_down p l) l = Some b →
    pages s !! b = Some pg → count pg = PG_FREE → block F l b.
(** And it unlinks the node of the released page itself, whose links are those
    from when the page was popped: the two nodes they name must still be linked
    to each other, and not be the buddy. *)
Definition relinkable (h : gmap loc (node loc)) (p b : Z) : Prop :=
  ∃ x y, h !! PageBuddy p = Some (Node x y) ∧ links h x y ∧ x ≠ PageBuddy b ∧ y ≠ PageBuddy b.

Lemma align_down_aligned l p : 0 <= l → p mod 2 ^ l = 0 → align_down p l = p.
Proof.
  intros Hl Hm. pose proof (pow2_pos l Hl). pose proof (Z.div_mod p (2 ^ l) ltac:(lia)).
  unfold align_down. lia.
Qed.

Lemma align_down_twice p l l' : 0 <= l <= l' → align_down (align_down p l) l' = align_down p l'.
Proof.
  intros Hl. unfold align_down. pose proof (pow2_pos l ltac:(lia)).
  pose proof (pow2_pos (l' - l) ltac:(lia)).
  assert (E : 2 ^ l' = 2 ^ l * 2 ^ (l' - l)) by (rewrite <-Z.pow_add_r by lia; f_equal; lia).
  rewrite E, <-!Z.div_div, Z.div_mul by lia. done.
Qed.

(** Taking the buddy [b] off its list, and then [p] off its stale links. *)
Lemma del_buddy F s l b p :
  buddy_ok F s → block F l b → p ≠ b → ¬ in_fam (abs F) (PageBuddy p) → relinkable (lists s) p b →
  ∃ F1 h h1, list_do (list_del_init (PageBuddy b)) s = Done tt (set_lists h s) ∧
    list_do (list_del_init (PageBuddy p)) (set_lists h s) = Done tt (set_lists h1 s) ∧
    buddy_ok F1 (set_lists h1 s) ∧ (∀ l', l' ≠ l → F1 !! l' = F !! l') ∧
    (∀ q, is_free F q ↔ is_free F1 q ∨ in_block l b q) ∧
    (∀ q, in_block l b q → ¬ is_free F1 q) ∧
    h1 !! PageBuddy b = Some (Node (PageBuddy b) (PageBuddy b)) ∧
    h1 !! PageBuddy p = Some (Node (PageBuddy p) (PageBuddy p)).
Proof.
  intros Ho (zs & E & (xs & ys & ->)%list_elem_of_split) Hne Hp (x & y & Epn & Hxy & Hx & Hy).
  assert (El : abs F !! FreeList l = Some ((PageBuddy <$> xs) ++ PageBuddy b :: (PageBuddy <$> ys))).
  { rewrite abs_lookup, E. simpl. by rewrite fmap_app. }
  pose proof (proj1 (bo_fam _ _ Ho) _ _ El) as Hdll.
  destruct (fam_del_init _ _ _ _ _ _ (bo_fam _ _ Ho) El) as (h & Eh & Hf & Hb & Hdom & Hsame).
  rewrite <-fmap_app, abs_insert in Hf.
  assert (Hpb : PageBuddy p ≠ PageBuddy b) by congruence.
  assert (Eph : h !! PageBuddy p = Some (Node x y)).
  { rewrite Hsame; [done|]. intros Hin. apply elem_of_cons in Hin as [[=]|Hin]; [done|].
    apply Hp. exists (FreeList l), ((PageBuddy <$> xs) ++ PageBuddy b :: (PageBuddy <$> ys)).
    split; [done|]. set_solver. }
  pose proof (links_del_init _ _ _ _ _ _ _ _ Hdll Eh Hxy Hx Hy) as Hxy'.
  set (h1 := INIT_LIST_HEAD (PageBuddy p) h).
  assert (Hf1 : fam h1 (abs (<[l := xs ++ ys]> F))).
  { eapply fam_agree; [exact Hf|]. intros q Hq. unfold h1, INIT_LIST_HEAD. apply lookup_insert_ne. intros <-.
    apply abs_in_fam in Hq as (l' & [[-> Hin]|[_ Hin]]%block_insert); apply Hp, abs_in_fam; [|by exists l'].
    exists l, (xs ++ b :: ys). split; [done|]. set_solver. }
  assert (Hdom1 : dom h1 = dom (lists s)).
  { unfold h1, INIT_LIST_HEAD. rewrite dom_insert_L, <-Hdom.
    apply elem_of_dom_2 in Eph. clear -Eph. set_solver. }
  destruct (remove_block F s l b xs ys h1 Ho E Hf1 Hdom1) as (Ho1 & Hfree & Hdis).
  exists (<[l := xs ++ ys]> F), h, h1. split_and!; [| |done| |done|done| |].
  - unfold list_do, update. by rewrite Eh.
  - unfold list_do, update. simpl. unfold list_del_init. by rewrite (list_del_linked _ _ _ _ Eph Hxy').
  - intros l' Hl'. by rewrite lookup_insert_ne.
  - unfold h1, INIT_LIST_HEAD. by rewrite lookup_insert_ne.
  - apply lookup_insert_eq.
Qed.

(** How far the block at [p] is merged: up to level [k], with the free buddy of
    every level below; and it stops there because it is the last level, or the
    list is empty, or the buddy is referenced. *)
Definition merged_to (F : gmap Z (list Z)) (s : mm) (p l k : Z) : Prop :=
  l <= k <= MAX_LEVEL_INDEX ∧
  (∀ l', l <= l' < k → ∃ b, find_buddy (align_down p l') l' = Some b ∧ block F l' b) ∧
  (k = MAX_LEVEL_INDEX ∨ F !! k = Some [] ∨
   ∃ b pg, find_buddy (align_down p k) k = Some b ∧ pages s !! b = Some pg ∧ count pg ≠ PG_FREE).

Lemma find_buddy_ne p l b : 0 <= l → find_buddy p l = Some b → p ≠ b.
Proof.
  unfold find_buddy. intros Hl. case_match; [done|]. intros [= <-] E.
  assert (Hz : Z.lxor p (Z.lxor p (Z.shiftl 1 l)) = 0) by (rewrite <-E; apply Z.lxor_nilpotent).
  rewrite <-Z.lxor_assoc, Z.lxor_nilpotent, Z.lxor_0_l, Z.shiftl_1_l in Hz. pose proof (pow2_pos l Hl). lia.
Qed.
Lemma relinkable_self h p b : h !! PageBuddy p = Some (Node (PageBuddy p) (PageBuddy p)) → p ≠ b → relinkable h p b.
Proof.
  intros E Hne. exists (PageBuddy p), (PageBuddy p). unfold links, nxt, prv. rewrite E. split_and!; congruence || done.
Qed.

Lemma merged_to_up F F1 s h p l b k :
  0 <= l <= MAX_LEVEL_INDEX → find_buddy (align_down p l) l = Some b → block F l b → (∀ l', l' ≠ l → F1 !! l' = F !! l') →
  merged_to F1 (set_lists h s) (align_down p (l + 1)) (l + 1) k → merged_to F s p l k.
Proof.
  intros Hl Eb Hb Hkeep (Hk & Hbel & Hend).
  split_and!; [lia..| |].
  - intros l' Hl'. destruct (decide (l' = l)) as [->|]; [by exists b|].
    destruct (Hbel l' ltac:(lia)) as (c & Ec & Hc). rewrite align_down_twice in Ec by lia.
    exists c. split; [done|]. unfold block in *. by rewrite <-Hkeep.
  - rewrite align_down_twice, Hkeep in Hend by lia. done.
Qed.

Lemma coherent_up F F1 s h p l b :
  coherent F s p l → 0 <= l → find_buddy (align_down p l) l = Some b → block F l b →
  (∀ l', l' ≠ l → F1 !! l' = F !! l') →
  coherent F1 (set_lists h s) (align_down p (l + 1)) (l + 1).
Proof.
  intros Hcoh Hl Eb Hb Hkeep l' b' pg' Hl' Hbelow Hne Eb' Epg' Hc'.
  assert (Hblk : ∀ k c, k ≠ l → block F1 k c ↔ block F k c) by (intros k c Hk; unfold block; by rewrite Hkeep).
  rewrite Hblk by lia. rewrite Hkeep in Hne by lia. rewrite align_down_twice in Eb' by lia.
  apply (Hcoh l' b' pg'); [lia| |done..]. intros k Hk. destruct (decide (k = l)) as [->|]; [by exists b|].
  destruct (Hbelow k ltac:(lia)) as (c & Ec & Hbc). rewrite align_down_twice in Ec by lia.
  exists c. split; [done|]. by apply Hblk in Hbc; [|lia].
Qed.

Lemma merge_ok F s p l (n : nat) :
  buddy_ok F s → 0 <= l <= MAX_LEVEL_INDEX → n = Z.to_nat (MAX_LEVEL_INDEX - l) →
  aligned l p → (∀ q, in_block l p q → ¬ is_free F q) →
  (∀ b, find_buddy p l = Some b → block F l b → relinkable (lists s) p b) → coherent F s p l →
  ∃ F' h k, merge n p l s = Done (align_down p k, k) (set_lists h s) ∧
    buddy_ok F' (set_lists h s) ∧ aligned k (align_down p k) ∧
    (∀ q, in_block k (align_down p k) q → ¬ is_free F' q) ∧
    (∀ q, is_free F' q ∨ in_block k (align_down p k) q ↔ is_free F q ∨ in_block l p q) ∧
    merged_to F s p l k ∧ (∀ l', l' < l ∨ k <= l' → F' !! l' = F !! l').
Proof.
  revert F s p l. induction n as [|n IH]; intros F s p l Ho Hl Hn Hal Hdis Hself Hcoh;
    pose proof (align_down_aligned l p ltac:(lia) ltac:(apply Hal)) as Had.
  { exists F, (lists s), l. simpl. rewrite Had. destruct s. split_and!; try done.
    split_and!; [done|lia|intros; lia|left; unfold MAX_LEVEL_INDEX in *; lia]. }
  assert (Hstop : (F !! l = Some [] ∨ ∃ b pg, find_buddy p l = Some b ∧ pages s !! b = Some pg ∧ count pg ≠ PG_FREE) →
    ∃ F' h k, Done (p, l) s = Done (align_down p k, k) (set_lists h s) ∧
    buddy_ok F' (set_lists h s) ∧ aligned k (align_down p k) ∧
    (∀ q, in_block k (align_down p k) q → ¬ is_free F' q) ∧
    (∀ q, is_free F' q ∨ in_block k (align_down p k) q ↔ is_free F q ∨ in_block l p q) ∧
    merged_to F s p l k ∧ (∀ l', l' < l ∨ k <= l' → F' !! l' = F !! l')).
  { intros Hst. exists F, (lists s), l. unfold merged_to. rewrite Had.
    split_and!; [by destruct s|by destruct s|done..|lia|lia|intros; lia|by right|done]. }
  destruct (find_buddy_ok p l ltac:(lia) Hal) as (b & Eb & Halb & Hcase).
  simpl merge. rewrite Eb.
  destruct (proj2 (bo_levels _ _ Ho l) ltac:(unfold MAX_LEVEL_INDEX in *; lia)) as [zs Ez].
  rewrite (bind_Done _ _ _ _ _ (free_list_empty_ok F s l zs Ho Ez)).
  destruct (bool_decide_reflect (zs = [])) as [->|Hz]; [apply Hstop; by left|].
  pose proof (pow2_pos l ltac:(lia)) as Hpow.
  destruct (bo_pages _ _ Ho b) as [pg Epg]; [destruct Halb; lia|].
  erewrite bind_Done; cycle 1.
  { unfold is_page_free, page_count, page_get. erewrite bind_Done; [done|].
    erewrite bind_Done by (unfold deref; by rewrite Epg). done. }
  destruct (Z.eqb_spec (count pg) PG_FREE) as [Hc|Hc]; [|apply Hstop; right; by exists b, pg]. cbn [negb].
  assert (Hblk : block F l b) by (apply (Hcoh l b pg); [lia|intros; lia|congruence|by rewrite Had|done|done]).
  destruct (del_buddy F s l b p Ho Hblk) as (F1 & h0 & h1 & E0 & E1 & Ho1 & Hkeep & Hfree1 & Hdis1 & Hb1 & Hp1).
  { lia. }
  { apply (fresh_block F l p); [lia|done|]. intros. by eapply bo_level. }
  { by apply Hself. }
  rewrite (bind_Done _ _ _ _ _ E0), (bind_Done _ _ _ _ _ E1).
  set (u := align_down p (l + 1)) in *.
  assert (Hmin : (if p <? b then p else b) = u) by (destruct (Z.ltb_spec p b); lia).
  rewrite Hmin.
  assert (Hpow2 : 2 ^ (l + 1) = 2 * 2 ^ l) by (rewrite <-Z.pow_succ_r by lia; done).
  assert (Hhalves : ∀ q, in_block (l + 1) u q ↔ in_block l p q ∨ in_block l b q).
  { intros q. unfold in_block. lia. }
  destruct (IH F1 (set_lists h1 s) u (l + 1)) as (F' & h & k & E & Ho' & Halk & Hdk & Hfr & (Hk & Hbel & Hend) & Hkk).
  - done.
  - unfold MAX_LEVEL_INDEX in *; lia.
  - lia.
  - by apply aligned_up; [lia|].
  - intros q Hq. apply Hhalves in Hq as [Hq|Hq]; [|by apply Hdis1].
    intros Hf. apply (Hdis q Hq). apply Hfree1. by left.
  - intros b2 Eb2%find_buddy_ne _; [|lia]. apply relinkable_self; [|done].
    simpl. destruct Hcase as [[<- _]|[_ <-]]; done.
  - rewrite <-Had in Eb. by eapply coherent_up; [done|lia|exact Eb|done|done].
  - exists F', h, k. unfold u in E, Halk, Hdk, Hfr. rewrite align_down_twice in * by lia.
    split_and!; [done|done|done|done| | |].
    + intros q. rewrite Hfr, Hfree1. fold u. rewrite Hhalves. tauto.
    + eapply merged_to_up; [exact Hl|by rewrite Had|done|exact Hkeep|]. exact (conj Hk (conj Hbel Hend)).
    + intros l' Hl'. rewrite Hkk by lia. apply Hkeep. lia.
Qed.


(** * Initialisation *)

Lemma for_up_inv (I : Z → mm → Prop) (n : nat) i body s :
  I i s →
  (∀ j s, i <= j < i + Z.of_nat n → I j s → ∃ s', body j s = Done tt s' ∧ I (j + 1) s') →
  ∃ s', for_up n i body s = Done tt s' ∧ I (i + Z.of_nat n) s'.
Proof.
  revert i s. induction n as [|n IH]; intros i s Hi Hbody.
  { exists s. rewrite Z.add_0_r. done. }
  destruct (Hbody i s ltac:(lia) Hi) as (s1 & E & H1). simpl for_up.
  rewrite (bind_Done _ _ _ _ _ E).
  destruct (IH (i + 1) s1 H1) as (s2 & E2 & H2).
  { intros j s' Hj. apply Hbody. lia. }
  exists s2. split; [done|]. by replace (i + Z.of_nat (S n)) with (i + 1 + Z.of_nat n) by lia.
Qed.

Definition kernel_page : page := Page (Z.lor PG_reserved PG_anon) 0 None.
Definition unused_page : page := Page 0 PG_FREE None.
Definition self_node (x : loc) : node loc := Node x x.

(** The page array after [all_page_init]: the first [k] pages are the kernel's. *)
Record pages_ready (k : Z) (s : mm) : Prop := {
  pr_end : kernel_pfn_end s = k;
  pr_pages : ∀ p, 0 <= p < ALL_PFN →
    pages s !! p = Some (if decide (p < k) then kernel_page else unused_page);
  pr_nodes : ∀ p, 0 <= p < ALL_PFN → lists s !! PageBuddy p = Some (self_node (PageBuddy p));
}.

Lemma all_page_init_ok _end s :
  KERNBASE <= _end < KERNBASE + AVAILABLE_MEMORY →
  ∃ s', all_page_init _end s = Done tt s' ∧
    pages_ready (Z.shiftr _end PGSHIFT - KERNBASE_PFN) s' ∧ mm_locks s' = mm_locks s.
Proof.
  intros He. set (k := Z.shiftr _end PGSHIFT - KERNBASE_PFN).
  assert (Hk : 0 <= k < ALL_PFN).
  { unfold k, KERNBASE_PFN, ALL_PFN. rewrite !Z.shiftr_div_pow2 by done.
    change (KERNBASE / 2 ^ PGSHIFT) with 0x80000. change (AVAILABLE_MEMORY / 2 ^ PGSHIFT) with 32768.
    change (2 ^ PGSHIFT) with 4096. unfold KERNBASE, AVAILABLE_MEMORY in He.
    pose proof (Z.div_le_mono 0x80000000 _end 4096 ltac:(lia) ltac:(lia)) as H1.
    change (0x80000000 / 4096) with 0x80000 in H1.
    assert (_end / 4096 < 0x88000) by (apply Z.div_lt_upper_bound; lia). lia. }
  unfold all_page_init. fold k. rewrite u32_small by (change ALL_PFN with 32768 in Hk; lia).
  erewrite bind_Done by done.
  destruct (for_up_inv (λ i s', kernel_pfn_end s' = k ∧ mm_locks s' = mm_locks s ∧
      ∀ p, 0 <= p < i → pages s' !! p = Some unused_page ∧
        lists s' !! PageBuddy p = Some (self_node (PageBuddy p)))
    (Z.to_nat ALL_PFN) 0 (λ i, page_init i 0) (set_kernel_pfn_end k s)) as (s1 & E1 & Hk1 & Hl1 & Hp1).
  { split_and!; [done|done|lia]. }
  { intros j s' Hj (? & ? & Hp). eexists. split; [done|]. split_and!; [done|done|].
    intros p Hpj. unfold INIT_LIST_HEAD. simpl. destruct (decide (p = j)) as [->|Hne].
    - by rewrite !lookup_insert_eq.
    - rewrite lookup_insert_ne by done. rewrite lookup_insert_ne by (by intros [= ->]).
      apply Hp. lia. }
  rewrite (bind_Done _ _ _ _ _ E1). erewrite bind_Done by done. rewrite Hk1.
  destruct (for_up_inv (λ i s', kernel_pfn_end s' = k ∧ mm_locks s' = mm_locks s ∧
      lists s' = lists s1 ∧ ∀ p, 0 <= p < ALL_PFN →
        pages s' !! p = Some (if decide (p < i) then kernel_page else unused_page))
    (Z.to_nat k) 0 (λ i,
      page_mod i (λ pg, set_count (atomic_inc (count pg)) pg);;
      page_mod i (SetPageFlag (Z.lor PG_reserved PG_anon))) s1) as (s2 & E2 & Hk2 & Hl2 & Hn2 & Hp2).
  { split_and!; [done..|]. intros p Hp. rewrite decide_False by lia. apply Hp1. lia. }
  { intros j s' Hj (? & ? & ? & Hp). specialize (Hp j ltac:(lia)) as Hpj.
    rewrite decide_False in Hpj by lia.
    erewrite bind_Done by (unfold page_mod, update; by rewrite Hpj).
    unfold page_mod, update. simpl. rewrite lookup_insert_eq. simpl.
    eexists. split; [done|]. split_and!; [done..|]. intros p Hpr. simpl.
    destruct (decide (p = j)) as [->|].
    - rewrite lookup_insert_eq. rewrite decide_True by lia. done.
    - rewrite !lookup_insert_ne by done. rewrite Hp by done.
      destruct (decide (p < j)); [by rewrite decide_True by lia|by rewrite decide_False by lia]. }
  exists s2. split; [exact E2|]. split; [|done]. rewrite Z2Nat.id in Hp2 by lia. split; [done|done|].
  intros p Hp. rewrite Hn2. apply Hp1. lia.
Qed.

Lemma MAX_LEVEL_COUNT_val : MAX_LEVEL_COUNT = 1024.
Proof. done. Qed.
Lemma ALL_PFN_val : ALL_PFN = 32768.
Proof. done. Qed.

(** The free lists of [buddy_init]: every level is empty but the last, which
    has the heads [i0, i0 + 1024, ...] in the order of insertion at the head. *)
Definition no_blocks : gmap Z (list Z) := gset_to_gmap [] (list_to_set (seqZ 0 MAX_LEVEL)).
Definition heads (i0 : Z) (c : nat) : list Z :=
  reverse ((λ j : nat, i0 + MAX_LEVEL_COUNT * Z.of_nat j) <$> seq 0 c).
Definition top_only (xs : list Z) : gmap Z (list Z) := <[MAX_LEVEL_INDEX := xs]> no_blocks.

Lemma no_blocks_lookup l xs : no_blocks !! l = Some xs ↔ 0 <= l < MAX_LEVEL ∧ xs = [].
Proof.
  unfold no_blocks. rewrite lookup_gset_to_gmap_Some, elem_of_list_to_set, elem_of_seqZ.
  split; intros [? ?]; split; done || lia.
Qed.

Lemma top_only_lookup xs : top_only xs !! MAX_LEVEL_INDEX = Some xs.
Proof. apply lookup_insert_eq. Qed.

Lemma top_only_nil : top_only [] = no_blocks.
Proof. apply insert_id, no_blocks_lookup. unfold MAX_LEVEL_INDEX, MAX_LEVEL. split; [lia|done]. Qed.

Lemma block_top xs l p : block (top_only xs) l p ↔ l = MAX_LEVEL_INDEX ∧ p ∈ xs.
Proof.
  unfold top_only. rewrite block_insert. unfold block. setoid_rewrite no_blocks_lookup.
  split; [|naive_solver]. intros [?|(? & ys & [_ ->] & Hin)]; [done|]. by apply elem_of_nil in Hin.
Qed.

Lemma heads_S i0 c : heads i0 (S c) = (i0 + MAX_LEVEL_COUNT * Z.of_nat c) :: heads i0 c.
Proof. unfold heads. by rewrite seq_S, fmap_app, reverse_app. Qed.

Lemma heads_in i0 c p :
  p ∈ heads i0 c ↔ ∃ j : nat, (j < c)%nat ∧ p = i0 + MAX_LEVEL_COUNT * Z.of_nat j.
Proof.
  unfold heads. rewrite elem_of_reverse, list_elem_of_fmap. setoid_rewrite elem_of_seq.
  split; intros (j & H1 & H2); exists j; split; done || lia.
Qed.

Lemma add_blocks_ok i0 (c m n : nat) s :
  0 <= i0 → fam (lists s) (abs (top_only (heads i0 c))) →
  (∀ p, 0 <= p < ALL_PFN → is_Some (lists s !! PageBuddy p)) →
  (∀ j : nat, (j < m)%nat → i0 + MAX_LEVEL_COUNT * Z.of_nat (c + j) < ALL_PFN) →
  ALL_PFN <= i0 + MAX_LEVEL_COUNT * Z.of_nat (c + m) → (m < n)%nat →
  ∃ h, add_blocks n (i0 + MAX_LEVEL_COUNT * Z.of_nat c) s = Done tt (set_lists h s) ∧
    fam h (abs (top_only (heads i0 (c + m)))) ∧ dom h = dom (lists s).
Proof.
  intros Hi0. revert c n s. induction m as [|m IH]; intros c n s Hf Hn Hlt Hge Hmn;
    (destruct n as [|n]; [lia|]); simpl add_blocks.
  { rewrite Nat.add_0_r in *. exists (lists s).
    destruct (Z.leb_spec ALL_PFN (i0 + MAX_LEVEL_COUNT * Z.of_nat c)); [|lia].
    by destruct s. }
  pose proof (Hlt O ltac:(lia)) as H0. rewrite Nat.add_0_r in H0.
  destruct (Z.leb_spec ALL_PFN (i0 + MAX_LEVEL_COUNT * Z.of_nat c)); [lia|].
  set (p := i0 + MAX_LEVEL_COUNT * Z.of_nat c) in *.
  pose proof MAX_LEVEL_COUNT_val as Hmc. assert (Hp : 0 <= p) by (unfold p; lia).
  destruct (fam_add_head (PageBuddy p) (FreeList MAX_LEVEL_INDEX)
    (PageBuddy <$> heads i0 c) (lists s) (abs (top_only (heads i0 c)))) as (h & Eh & Hf1 & _ & Hdom & _).
  - done.
  - by rewrite abs_lookup, top_only_lookup.
  - rewrite abs_in_fam. intros (l & [_ Hin]%block_top). apply heads_in in Hin as (j & Hj & E).
    unfold p in E. lia.
  - apply Hn. lia.
  - erewrite bind_Done; cycle 1. { unfold list_do, update. by rewrite Eh. }
    change (PageBuddy p :: (PageBuddy <$> heads i0 c)) with (PageBuddy <$> (p :: heads i0 c)) in Hf1.
    rewrite abs_insert in Hf1. unfold top_only in Hf1. rewrite insert_insert_eq in Hf1.
    unfold p in Hf1. rewrite <-heads_S in Hf1. fold (top_only (heads i0 (S c))) in Hf1.
    destruct (IH (S c) n (set_lists h s)) as (h' & E & Hf' & Hd'); [done| | | |lia|].
    + intros q Hq. simpl. rewrite <-elem_of_dom, Hdom, elem_of_dom. by apply Hn.
    + intros j Hj. specialize (Hlt (S j) ltac:(lia)).
      by replace (S c + j)%nat with (c + S j)%nat by lia.
    + by replace (S c + m)%nat with (c + S m)%nat by lia.
    + exists h'. replace (p + MAX_LEVEL_COUNT) with (i0 + MAX_LEVEL_COUNT * Z.of_nat (S c)) by lia.
      rewrite E. replace (c + S m)%nat with (S c + m)%nat by lia.
      split_and!; [done|done|]. simpl in Hd'. by rewrite Hd'.
Qed.

Lemma init_heads_ok s :
  ∃ h, for_up (Z.to_nat MAX_LEVEL) 0
      (λ i, modify (λ s, set_lists (INIT_LIST_HEAD (FreeList i) (lists s)) s)) s
      = Done tt (set_lists h s) ∧
    fam h (abs no_blocks) ∧ ∀ p, h !! PageBuddy p = lists s !! PageBuddy p.
Proof.
  destruct (for_up_inv (λ i s', ∃ h, s' = set_lists h s ∧
      (∀ l, 0 <= l < i → h !! FreeList l = Some (self_node (FreeList l))) ∧
      ∀ p, h !! PageBuddy p = lists s !! PageBuddy p)
    (Z.to_nat MAX_LEVEL) 0
    (λ i, modify (λ s, set_lists (INIT_LIST_HEAD (FreeList i) (lists s)) s)) s)
    as (s' & E & h & -> & Hh & Hp).
  { exists (lists s). split_and!; [by destruct s|lia|done]. }
  { intros j s' Hj (h & -> & Hh & Hp). eexists. split; [done|].
    exists (INIT_LIST_HEAD (FreeList j) h). unfold INIT_LIST_HEAD. split_and!; [done| |].
    - intros l Hl. destruct (decide (l = j)) as [->|]; [by rewrite lookup_insert_eq|].
      rewrite lookup_insert_ne by congruence. apply Hh. lia.
    - intros p. by rewrite lookup_insert_ne. }
  exists h. split_and!; [done| |done]. split.
  - intros hd ys (l & xs & -> & -> & [Hl ->]%no_blocks_lookup)%abs_lookup_Some.
    specialize (Hh l ltac:(unfold MAX_LEVEL in *; lia)).
    split; [apply NoDup_singleton|]. simpl. unfold links, nxt, prv. by rewrite Hh.
  - intros hd1 hd2 ys1 ys2 q (l1 & xs1 & -> & -> & [_ ->]%no_blocks_lookup)%abs_lookup_Some
      (l2 & xs2 & -> & -> & [_ ->]%no_blocks_lookup)%abs_lookup_Some.
    intros ->%list_elem_of_singleton. intros H. by apply list_elem_of_singleton in H.
Qed.

(** The tail of the page array is referenced and dereferenced again; the
    counts return to -1 and [buddy_free] is never reached. *)
Lemma tail_pages_ok a (n : nat) s :
  (∀ p, a <= p < a + Z.of_nat n → pages s !! p = Some unused_page) →
  ∃ P, (for_up n a page_push;; for_up n a free_page) s = Done tt (set_pages P s) ∧
    ∀ p, P !! p = pages s !! p.
Proof.
  intros Hpg.
  destruct (for_up_inv (λ i s', ∃ P, s' = set_pages P s ∧ ∀ p, P !! p =
      if decide (a <= p < i) then Some (Page 0 0 None) else pages s !! p) n a page_push s)
    as (s1 & E1 & P1 & -> & HP1).
  { exists (pages s). split; [by destruct s|]. intros p. by rewrite decide_False by lia. }
  { intros j s' Hj (P & -> & HP). unfold page_push, page_mod, update. simpl.
    rewrite (HP j), decide_False, Hpg by lia. eexists. split; [done|]. eexists. split; [done|].
    intros p. destruct (decide (p = j)) as [->|Hne].
    - rewrite lookup_insert_eq, decide_True by lia. done.
    - rewrite lookup_insert_ne, HP by done. destruct (decide (a <= p < j));
        [by rewrite decide_True by lia|by rewrite decide_False by lia]. }
  rewrite (bind_Done _ _ _ _ _ E1).
  destruct (for_up_inv (λ i s', ∃ P, s' = set_pages P s ∧ ∀ p, P !! p =
      if decide (i <= p < a + Z.of_nat n) then Some (Page 0 0 None) else pages s !! p)
    n a free_page (set_pages P1 s)) as (s2 & E2 & P2 & -> & HP2).
  { exists P1. done. }
  { intros j s' Hj (P & -> & HP). unfold free_page, page_pop_test, page_get.
    erewrite bind_Done; cycle 1.
    { erewrite bind_Done; cycle 1. { unfold deref. simpl. by rewrite HP, decide_True by lia. }
      simpl. unfold page_mod, update. simpl. erewrite bind_Done; [done|].
      simpl. by rewrite HP, decide_True by lia. }
    eexists. split; [done|]. eexists. split; [done|]. intros p.
    destruct (decide (p = j)) as [->|Hne].
    - rewrite lookup_insert_eq, decide_False by lia. by rewrite Hpg by lia.
    - rewrite lookup_insert_ne, HP by done. destruct (decide (j <= p < a + Z.of_nat n));
        [by rewrite decide_True by lia|by rewrite decide_False by lia]. }
  exists P2. split; [done|]. intros p. rewrite HP2. by rewrite decide_False by lia.
Qed.

(** The number of top-level blocks that [buddy_init] keeps. *)
Definition init_blocks (k : Z) : nat := Z.to_nat ((ALL_PFN - k - 2) / MAX_LEVEL_COUNT).

Lemma pop_top xs h s p :
  fam h (abs (top_only (p :: xs))) → ∃ h', pop_page MAX_LEVEL_INDEX (set_lists h s) =
    Done (Some p) (set_lists h' s) ∧ fam h' (abs (top_only xs)) ∧ dom h' = dom h.
Proof.
  intros Hf. destruct (fam_pop (FreeList MAX_LEVEL_INDEX) (PageBuddy <$> (p :: xs)) h
    (abs (top_only (p :: xs)))) as (h' & Eh & Hf' & _ & Hdom & _);
    [done|by rewrite abs_lookup, top_only_lookup|].
  simpl in Eh, Hf'. rewrite abs_insert in Hf'. unfold top_only in Hf'.
  rewrite insert_insert_eq in Hf'. exists h'. split; [|done].
  unfold pop_page, update_ret. simpl. by rewrite Eh.
Qed.

Lemma buddy_init_ok k s :
  pages_ready k s → 0 <= k → k + 1 < ALL_PFN →
  ∃ s', buddy_init s = Done tt s' ∧ fam (lists s') (abs (top_only (heads (k + 1) (init_blocks k)))) ∧
    (∀ p, pages s' !! p = pages s !! p) ∧
    (∀ p, 0 <= p < ALL_PFN → is_Some (lists s' !! PageBuddy p)) ∧
    mm_locks s' = mm_locks s ∧ kernel_pfn_end s' = k.
Proof.
  intros Hr Hk Hk1. pose proof MAX_LEVEL_COUNT_val as Hmc. pose proof ALL_PFN_val as Hap.
  unfold buddy_init. destruct (init_heads_ok s) as (h0 & E0 & Hf0 & Hn0).
  rewrite (bind_Done _ _ _ _ _ E0). erewrite bind_Done by done. simpl kernel_pfn_end.
  rewrite (pr_end _ _ Hr), (u32_small (k + 1)), (u32_small (ALL_PFN - k)) by lia.
  set (c := init_blocks k).
  assert (Hc : k + 1 + MAX_LEVEL_COUNT * Z.of_nat c < ALL_PFN <= k + 1 + MAX_LEVEL_COUNT * Z.of_nat (S c)).
  { unfold c, init_blocks. pose proof (Z.div_mod (ALL_PFN - k - 2) MAX_LEVEL_COUNT ltac:(lia)).
    pose proof (Z.mod_pos_bound (ALL_PFN - k - 2) MAX_LEVEL_COUNT ltac:(lia)).
    assert (0 <= (ALL_PFN - k - 2) / MAX_LEVEL_COUNT) by (apply Z.div_pos; lia).
    rewrite Nat2Z.inj_succ, Z2Nat.id by lia. lia. }
  destruct (add_blocks_ok (k + 1) 0 (S c) (Z.to_nat ALL_PFN) (set_lists h0 s)) as (h1 & E1 & Hf1 & Hd1).
  - lia.
  - simpl. change (heads (k + 1) 0) with (@nil Z). by rewrite top_only_nil.
  - intros p Hp. simpl. rewrite Hn0, (pr_nodes _ _ Hr p Hp). by eexists.
  - intros j Hj. lia.
  - lia.
  - lia.
  - rewrite Z.mul_0_r, Z.add_0_r in E1. rewrite (bind_Done _ _ _ _ _ E1).
    simpl in Hf1, Hd1. rewrite heads_S in Hf1.
    destruct (pop_top _ _ (set_lists h0 s) _ Hf1) as (h2 & E2 & Hf2 & Hd2).
    rewrite (bind_Done _ _ _ _ _ E2). cbv zeta.
    set (e := (ALL_PFN - k) mod MAX_LEVEL_COUNT).
    assert (He : 0 <= e <= ALL_PFN - k).
    { unfold e. split; [apply Z.mod_pos_bound; lia|apply Z.mod_le; lia]. }
    destruct (tail_pages_ok (ALL_PFN - e) (Z.to_nat e) (set_lists h2 s)) as (P & E3 & HP).
    { intros p Hp. simpl. rewrite (pr_pages _ _ Hr) by lia. by rewrite decide_False by lia. }
    exists (set_pages P (set_lists h2 s)). split; [exact E3|]. split_and!.
    + exact Hf2.
    + done.
    + intros p Hp. simpl. rewrite <-elem_of_dom, Hd2, Hd1, elem_of_dom, Hn0, (pr_nodes _ _ Hr p Hp).
      by eexists.
    + done.
    + apply (pr_end _ _ Hr).
Qed.

Lemma top_only_free i0 c q :
  is_free (top_only (heads i0 c)) q ↔ i0 <= q < i0 + MAX_LEVEL_COUNT * Z.of_nat c.
Proof.
  pose proof MAX_LEVEL_COUNT_val. unfold is_free, in_block. setoid_rewrite block_top.
  setoid_rewrite heads_in. change (2 ^ MAX_LEVEL_INDEX) with MAX_LEVEL_COUNT. split.
  - intros (l & p & [-> (j & Hj & ->)] & Hq). change (2 ^ MAX_LEVEL_INDEX) with MAX_LEVEL_COUNT in Hq. nia.
  - intros Hq. exists MAX_LEVEL_INDEX, (i0 + MAX_LEVEL_COUNT * ((q - i0) / MAX_LEVEL_COUNT)).
    change (2 ^ MAX_LEVEL_INDEX) with MAX_LEVEL_COUNT.
    pose proof (Z.div_mod (q - i0) MAX_LEVEL_COUNT ltac:(lia)).
    pose proof (Z.mod_pos_bound (q - i0) MAX_LEVEL_COUNT ltac:(lia)).
    assert (0 <= (q - i0) / MAX_LEVEL_COUNT) by (apply Z.div_pos; lia).
    split; [|lia]. split; [done|]. exists (Z.to_nat ((q - i0) / MAX_LEVEL_COUNT)). split; [nia|].
    by rewrite Z2Nat.id by lia.
Qed.

Lemma top_only_buddy_ok k s c :
  0 <= k → (k + 1) mod MAX_LEVEL_COUNT = 0 → fam (lists s) (abs (top_only (heads (k + 1) c))) →
  k + 1 + MAX_LEVEL_COUNT * Z.of_nat c <= ALL_PFN →
  (∀ p, 0 <= p < ALL_PFN → is_Some (pages s !! p)) →
  (∀ p, 0 <= p < ALL_PFN → is_Some (lists s !! PageBuddy p)) →
  buddy_ok (top_only (heads (k + 1) c)) s.
Proof.
  intros Hk Hm Hf Hc Hp Hn. pose proof MAX_LEVEL_COUNT_val.
  assert (Hpow : 2 ^ MAX_LEVEL_INDEX = MAX_LEVEL_COUNT) by done. split; [done| |done|done| |].
  - intros l. unfold top_only. destruct (decide (l = MAX_LEVEL_INDEX)) as [->|].
    + rewrite lookup_insert_eq. unfold MAX_LEVEL_INDEX, MAX_LEVEL.
      split; [lia|by eexists].
    + rewrite lookup_insert_ne by done. split.
      * intros [xs Hx]. by apply no_blocks_lookup in Hx as [? _].
      * intros Hl. exists []. by apply no_blocks_lookup.
  - intros l p [-> (j & Hj & ->)%heads_in]%block_top. unfold aligned. rewrite Hpow.
    split_and!; [lia| |nia]. rewrite Z.mul_comm, Z.mod_add by lia. done.
  - intros l p l' p' q [-> (j & Hj & ->)%heads_in]%block_top [-> (j' & Hj' & ->)%heads_in]%block_top.
    unfold in_block. rewrite Hpow. intros Hq Hq'. assert (Z.of_nat j = Z.of_nat j') by nia.
    split; [done|lia].
Qed.

(** Start-up of the page allocator.  [all_page_init] and [buddy_init] run
    without a fault from any state; with [k] kernel pages, the free pages are
    exactly [k+1 .. k+1024*c] with [c = (ALL_PFN-k-2)/1024] blocks of the top
    level, no count is changed, and the allocator's invariant holds when page
    [k+1] is aligned to a top-level block. *)
Theorem page_allocator_init_correct _end s :
  KERNBASE <= _end < KERNBASE + AVAILABLE_MEMORY →
  let k := Z.shiftr _end PGSHIFT - KERNBASE_PFN in
  k + 1 < ALL_PFN →
  ∃ s', (all_page_init _end;; buddy_init) s = Done tt s' ∧
    fam (lists s') (abs (top_only (heads (k + 1) (init_blocks k)))) ∧
    (∀ q, is_free (top_only (heads (k + 1) (init_blocks k))) q ↔
          k + 1 <= q < k + 1 + 1024 * ((ALL_PFN - k - 2) / 1024)) ∧
    (∀ p, 0 <= p < ALL_PFN →
       pages s' !! p = Some (if decide (p < k) then kernel_page else unused_page)) ∧
    mm_locks s' = mm_locks s ∧
    ((k + 1) mod 1024 = 0 → buddy_ok (top_only (heads (k + 1) (init_blocks k))) s').
Proof.
  intros He k Hk1. destruct (all_page_init_ok _end s He) as (s1 & E1 & Hr & Hl). fold k in Hr.
  assert (Hk : 0 <= k).
  { unfold k, KERNBASE_PFN. rewrite !Z.shiftr_div_pow2 by done.
    pose proof (Z.div_le_mono KERNBASE _end (2 ^ PGSHIFT) ltac:(done) ltac:(lia)). lia. }
  destruct (buddy_init_ok k s1 Hr Hk Hk1) as (s' & E & Hf & Hp & Hn & Hlk & Hend).
  rewrite (bind_Done _ _ _ _ _ E1). exists s'.
  assert (Hdiv : 0 <= (ALL_PFN - k - 2) / 1024) by (apply Z.div_pos; lia).
  assert (Hpg : ∀ p, 0 <= p < ALL_PFN →
       pages s' !! p = Some (if decide (p < k) then kernel_page else unused_page)).
  { intros p Hpr. rewrite Hp. by apply (pr_pages _ _ Hr). }
  assert (Hc : Z.of_nat (init_blocks k) = (ALL_PFN - k - 2) / 1024).
  { unfold init_blocks. rewrite MAX_LEVEL_COUNT_val, Z2Nat.id by done. done. }
  split_and!; [done|done| |done|congruence|].
  - intros q. rewrite top_only_free, Hc, MAX_LEVEL_COUNT_val. done.
  - intros Hm. apply top_only_buddy_ok; rewrite ?MAX_LEVEL_COUNT_val; [done|done|done| | |done].
    + rewrite Hc. pose proof (Z.mul_div_le (ALL_PFN - k - 2) 1024 ltac:(lia)). lia.
    + intros p Hpr. rewrite Hpg by done. by eexists.
Qed.

(** * Reference counts *)

(** [free_pages] gives the block back only when the count drops from 1 to 0. *)
Lemma free_pages_step p pg order s :
  pages s !! p = Some pg → is_i32 (count pg - 1) →
  free_pages p order s =
    (if count pg =? 1 then buddy_free p order else mret tt)
      (set_pages (<[p := set_count (count pg - 1) pg]> (pages s)) s).
Proof.
  intros E Hr. unfold free_pages, page_pop_test, page_get. erewrite bind_Done; cycle 1.
  { erewrite bind_Done by (unfold deref; by rewrite E). simpl.
    replace (count pg + -1) with (count pg - 1) by lia. rewrite i32_small by exact Hr.
    erewrite bind_Done by (unfold page_mod, update; by rewrite E). done. }
  destruct (Z.eqb_spec (count pg - 1) 0), (Z.eqb_spec (count pg) 1); done || lia.
Qed.

(** A page that was allocated once and freed once does not come back.  The
    count of a free block head is -1, [alloc_pages] raises it to 0 and
    [free_pages] lowers it to -1 again, which is not the 0 it tests for: the
    block is in no free list afterwards although it was free before. *)
Theorem alloc_free_leaks F s order fl l0 p0 :
  buddy_ok F s → 0 <= order <= MAX_LEVEL_INDEX → buddy_lock ∉ mm_locks s →
  block F l0 p0 → order <= l0 →
  (∀ l p pg, block F l p → pages s !! p = Some pg → count pg = PG_FREE) →
  ∃ p F' s1 s2, alloc_pages fl order s = Done p s1 ∧ free_pages p order s1 = Done tt s2 ∧
    buddy_ok F' s2 ∧ lists s2 = lists s1 ∧ pages s2 = pages s ∧
    ∀ q, in_block order p q → is_free F q ∧ ¬ is_free F' q.
Proof.
  intros Ho Hord Hlk Hb0 Hl0 Hcnt.
  destruct (alloc_loop_ok F (set_locks ({[buddy_lock]} ∪ mm_locks s) s) order order
    (Z.to_nat (MAX_LEVEL - order)))
    as [[Hall _]|(l & p & F' & h & Hb & Hl & _ & E & Ho' & Hal & Hfree & Hdis)].
  - by apply (buddy_ok_ext F s).
  - lia.
  - unfold MAX_LEVEL_INDEX in *. lia.
  - exfalso. destruct Hb0 as (xs & Ex & Hin). pose proof (bo_levels _ _ Ho l0) as [Hlv _].
    rewrite Hall in Ex by (split; [done|apply Hlv; by eexists]). simplify_eq.
    by apply elem_of_nil in Hin.
  - apply with_lock in E; [|done]. pose proof (pow2_pos order ltac:(lia)).
    destruct (bo_pages _ _ Ho p) as [pg Epg]; [destruct Hal; lia|].
    pose proof (Hcnt l p pg Hb Epg) as Hc. destruct pg as [fl0 c sl]. simpl in Hc. subst c.
    set (s1 := set_pages (<[p := Page fl0 0 sl]> (pages s)) (set_lists h s)).
    exists p, F', s1, (set_lists h s). split_and!.
    + unfold alloc_pages, buddy_alloc. destruct (Z.ltb_spec order 0); [lia|].
      destruct (Z.ltb_spec MAX_LEVEL_INDEX order); [lia|]. cbn [orb].
      rewrite (bind_Done _ _ _ _ _ E). erewrite bind_Done; cycle 1.
      { unfold page_push, page_mod, update. simpl. by rewrite Epg. }
      done.
    + rewrite (free_pages_step p (Page fl0 0 sl)); [|apply lookup_insert_eq|by vm_compute].
      unfold s1. simpl. unfold mret, M_ret, set_pages. simpl.
      rewrite insert_insert_eq, insert_id by done. by destruct s.
    + by apply (buddy_ok_ext F' (set_lists h (set_locks ({[buddy_lock]} ∪ mm_locks s) s))).
    + done.
    + done.
    + intros q Hq. split; [apply Hfree; by right|by apply Hdis].
Qed.

Lemma page_addr_roundtrip p :
  0 <= p < ALL_PFN →
  get_page_struct (get_page_addr p) = p ∧ get_page_addr p = KERNBASE + PGSIZE * p.
Proof.
  intros Hp. pose proof ALL_PFN_val. unfold get_page_struct, get_page_addr, page_to_index, index_to_page.
  unfold PGSHIFT, PGSIZE, KERNBASE. rewrite Z.shiftl_mul_pow2, Z.shiftr_div_pow2 by lia.
  change (2 ^ 12) with 4096. rewrite (u64_small (p * 4096 + 0x80000000)) by lia.
  rewrite u64_small by lia.
  rewrite Z.add_simpl_r, Z.div_mul by lia. lia.
Qed.

(** An unaligned block is split wrongly: when bit [j-1] of the head is set, the
    half that is given to the lower list lies below the block. *)
Theorem unaligned_split_leaves_block p j :
  0 < j <= MAX_LEVEL_INDEX → 0 <= p < ALL_PFN → Z.testbit p (j - 1) = true →
  find_buddy p (j - 1) = Some (p - 2 ^ (j - 1)) ∧
  ∀ q, in_block (j - 1) (p - 2 ^ (j - 1)) q → ¬ in_block j p q.
Proof.
  intros Hj Hp Hb. pose proof (pow2_pos (j - 1) ltac:(lia)).
  split; [|unfold in_block; lia].
  unfold find_buddy. rewrite Z.shiftl_mul_pow2, Z.mul_1_l by lia.
  assert (Hx : Z.lxor p (2 ^ (j - 1)) = p - 2 ^ (j - 1)).
  { rewrite (Z.sub_nocarry_ldiff p (2 ^ (j - 1))); [|apply Z.bits_inj'; intros i Hi].
    - apply Z.bits_inj'. intros i Hi. rewrite Z.lxor_spec, Z.ldiff_spec.
      destruct (decide (i = j - 1)) as [->|]; [by rewrite Hb, Z.pow2_bits_true by lia|].
      rewrite Z.pow2_bits_false by lia. by destruct (Z.testbit p i).
    - rewrite Z.ldiff_spec, Z.bits_0. destruct (decide (i = j - 1)) as [->|].
      + rewrite Hb. apply andb_false_r.
      + by rewrite Z.pow2_bits_false by lia. }
  rewrite Hx. destruct (Z.leb_spec ALL_PFN (p - 2 ^ (j - 1))); [lia|done].
Qed.

(** ** A booted allocator, for the witnesses *)

Definition blank : mm := MM ∅ ∅ 0 ∅ ∅.
Definition boot_end : Z := KERNBASE + 1023 * PGSIZE.

Lemma boot_state :
  ∃ s, buddy_ok (top_only (heads 1024 (init_blocks 1023))) s ∧ mm_locks s = ∅ ∧
    (∀ p, 0 <= p < ALL_PFN →
       pages s !! p = Some (if decide (p < 1023) then kernel_page else unused_page)) ∧
    block (top_only (heads 1024 (init_blocks 1023))) 10 1024.
Proof.
  destruct (all_page_init_ok boot_end blank) as (s1 & E1 & Hr & Hl); [by vm_compute|].
  change (Z.shiftr boot_end PGSHIFT - KERNBASE_PFN) with 1023 in Hr.
  destruct (buddy_init_ok 1023 s1 Hr) as (s' & E & Hf & Hp & Hn & Hlk & Hend); [done|done|].
  exists s'. split_and!.
  - apply (top_only_buddy_ok 1023); [done|done|done|by vm_compute| |done].
    intros p Hpr. rewrite Hp, (pr_pages _ _ Hr p Hpr). by eexists.
  - by rewrite Hlk, Hl.
  - intros p Hpr. rewrite Hp. by apply (pr_pages _ _ Hr).
  - apply block_top. split; [done|]. apply heads_in. exists O. split; [|done].
    apply Nat.ltb_lt. by vm_compute.
Qed.

Lemma page_allocator_init_witness :
  ∃ s', (all_page_init boot_end;; buddy_init) blank = Done tt s' ∧
    buddy_ok (top_only (heads 1024 (init_blocks 1023))) s'.
Proof.
  destruct (page_allocator_init_correct boot_end blank) as (s' & E & _ & _ & _ & _ & Ho);
    [by vm_compute|done|].
  exists s'. split; [done|]. apply Ho. done.
Defined.

Lemma buddy_alloc_correct_witness :
  ∃ s p s' F', buddy_alloc 3 s = Done (Some p) s' ∧ buddy_ok F' s' ∧ aligned 3 p.
Proof.
  destruct boot_state as (s & Ho & Hl & _ & Hb).
  destruct (buddy_alloc_correct _ s 3 Ho) as [[Hall _]|(l & p & F' & h & _ & _ & _ & E & Ho' & Hal & _)].
  - by vm_compute.
  - rewrite Hl. apply not_elem_of_empty.
  - destruct Hb as (xs & Ex & Hin). rewrite Hall in Ex by (by vm_compute).
    injection Ex as <-. by apply elem_of_nil in Hin.
  - by exists s, p, (set_lists h s), F'.
Defined.

Lemma alloc_free_leaks_witness :
  ∃ s p s1 s2 F', alloc_pages 0 3 s = Done p s1 ∧ free_pages p 3 s1 = Done tt s2 ∧
    buddy_ok F' s2 ∧ ¬ is_free F' p.
Proof.
  destruct boot_state as (s & Ho & Hl & Hpg & Hb).
  destruct (alloc_free_leaks _ s 3 0 10 1024 Ho) as (p & F' & s1 & s2 & E1 & E2 & Ho' & _ & _ & Hq).
  - by vm_compute.
  - rewrite Hl. apply not_elem_of_empty.
  - done.
  - done.
  - intros l p pg Hblk Ep. pose proof Hblk as [_ (j & Hj & ->)%heads_in]%block_top.
    pose proof (bo_align _ _ Ho _ _ Hblk) as (Hp0 & _ & Hr). pose proof MAX_LEVEL_COUNT_val.
    pose proof (pow2_pos l ltac:(eapply bo_level; done)).
    rewrite Hpg in Ep by lia. injection Ep as <-. rewrite decide_False by lia. done.
  - exists s, p, s1, s2, F'. split_and!; [done..|]. apply Hq. unfold in_block. lia.
Defined.

Lemma unaligned_split_witness : find_buddy 513 9 = Some 1 ∧ ¬ in_block 10 513 1.
Proof.
  destruct (unaligned_split_leaves_block 513 10) as [E H]; [by vm_compute..|done|].
  split; [exact E|]. apply H. by vm_compute.
Defined.

(** Eight and sixteen pages that make up free blocks of level 3. *)
Definition small_mem (heads : list Z) (pages : nat) : mm :=
  MM (list_to_map ((λ i, (Z.of_nat i, unused_page)) <$> seq 0 pages))
    (fold_right (λ p h, default h (list_add_head (PageBuddy p) (FreeList 3) h))
      (list_to_map (((λ i, (PageBuddy (Z.of_nat i), self_node (PageBuddy (Z.of_nat i)))) <$> seq 0 pages) ++
        ((λ l, (FreeList l, self_node (FreeList l))) <$> seqZ 0 MAX_LEVEL))) heads) 0 ∅ ∅.

(** The count alone does not tell a free block.  Page 1, allocated and freed once,
    is in no list and unreferenced (see [alloc_free_leaks]); when its buddy 0 is
    released, [buddy_free] unlinks it through its stale links, and page 3, which
    was free, is in no list any more: level 0 is empty. *)
Definition leak_then_merge : M mm (Z * bool) :=
  p0 ← alloc_page 0;
  p1 ← alloc_page 0;
  p2 ← alloc_page 0;
  free_page p1;;
  page_push p0;;
  e0 ← free_list_empty 0;
  free_page p0;;
  e1 ← free_list_empty 0;
  mret (p2, negb e0 && e1).
Theorem leaked_buddy_drops_free_page :
  ∃ s, leak_then_merge (small_mem [0] 8) = Done (2, true) s ∧ lists s !! PageBuddy 3 = Some (Node (FreeList 0) (FreeList 0)).
Proof.
  eexists. split; [vm_compute; reflexivity|]. by vm_compute.
Qed.

(** The stale links of the released page itself: page 0 was popped when block 8
    was behind it; block 8 is allocated; releasing page 0 links block 8 into the
    list of level 3 again, and it is handed out a second time. *)
Definition stale_then_merge : M mm (list Z) :=
  p ← alloc_page 0;
  a ← alloc_pages 0 3;
  page_push p;;
  free_page p;;
  b ← alloc_pages 0 3;
  c ← alloc_pages 0 3;
  mret [p; a; b; c].
Theorem stale_page_node_allocated_twice :
  ∃ s, stale_then_merge (small_mem [0; 8] 16) = Done [0; 8; 0; 8] s.
Proof. eexists. vm_compute. reflexivity. Qed.

