(* ===== verification/Slab.v ===== *)
(** The slab allocator and kmalloc: include/mm/slab.h, mm/slab.c and
    mm/kmalloc.c, on top of the page allocator of Buddy.

    A slab lives in a page of its own; it is identified by that page's
    address.  The page holds a 48-byte header ([kc], [objs], [inuse], [list],
    [free_list]) followed by 506 words; [free_list] is kept as the index of
    the word it points to.  Caches are static objects, identified by a
    number. *)
From S2P Require Import Prelude ListLib MathLib StringLib Buddy.

Definition NCPU : Z := 4.
Definition CACHE_MAX_NAME_LEN : nat := 24.
Definition MIN_OBJ_COUNT_PER_PAGE : Z := 4.
(** Words that follow the header in the slab's page: [(4096 - 48) / 8]. *)
Definition SLAB_WORDS : nat := 506.

Record kslab := KSlab {
  kc : Z;
  objs : Z;
  inuse : Z;
  words : list Z;
  free_list : Z;
}.

Record kmem_cache := KMemCache {
  cache_cpu : list Z;
  name : list Ascii.ascii;
  cflags : Z;
  csize : Z;
  corder : Z;
  count_per_slab : Z;
}.

Inductive sloc :=
| CacheList                (* kmem_cache_list *)
| CacheNode (c : Z)        (* cache->list *)
| PartHead (c : Z)         (* cache->part_slabs *)
| FullHead (c : Z)         (* cache->full_slabs *)
| SlabNode (a : Z).        (* slab->list *)
#[global] Instance sloc_eq_dec : EqDecision sloc.
Proof. solve_decision. Defined.
#[global] Instance sloc_countable : Countable sloc.
Proof.
  refine (inj_countable'
    (λ l, match l with CacheList => (0, 0) | CacheNode c => (1, c) | PartHead c => (2, c)
                     | FullHead c => (3, c) | SlabNode a => (4, a) end)
    (λ x, match x with (0, _) => CacheList | (1, c) => CacheNode c | (2, c) => PartHead c
                     | (3, c) => FullHead c | (_, a) => SlabNode a end) _).
  by intros [].
Defined.

(** The page allocator, the caches, the slab headers and their list nodes. *)
Record km := KM {
  kmm : mm;
  caches : gmap Z kmem_cache;
  slabs : gmap Z kslab;
  snodes : gmap sloc (node sloc);
}.
Definition set_kmm m (s : km) : km := KM m (caches s) (slabs s) (snodes s).
Definition set_caches c (s : km) : km := KM (kmm s) c (slabs s) (snodes s).
Definition set_slabs x (s : km) : km := KM (kmm s) (caches s) x (snodes s).
Definition set_snodes h (s : km) : km := KM (kmm s) (caches s) (slabs s) h.
#[global] Instance km_HasLocks : HasLocks km := {
  locks s := mm_locks (kmm s);
  set_locks L s := set_kmm (set_locks L (kmm s)) s;
}.

Definition cache_lock (c : Z) : lockid := ("slab"%string, c).
Definition in_mm {A} (m : M mm A) : M km A := zoom kmm set_kmm m.
Definition cache_get (c : Z) : M km kmem_cache := deref (λ s, caches s !! c).
Definition slab_get (a : Z) : M km kslab := deref (λ s, slabs s !! a).
Definition slab_set (a : Z) (sl : kslab) : M km unit :=
  modify (λ s, set_slabs (<[a := sl]> (slabs s)) s).
Definition snode_do (f : gmap sloc (node sloc) → option (gmap sloc (node sloc))) : M km unit :=
  update (λ s, h ← f (snodes s); Some (set_snodes h s)).
Definition snode_empty (l : sloc) : M km bool := deref (λ s, list_empty l (snodes s)).

Fixpoint km_for (n : nat) (i : Z) (body : Z → M km unit) : M km unit :=
  match n with
  | O => mret tt
  | S n => body i;; km_for n (i + 1) body
  end.

Definition kmem_cache_init : M km unit :=
  modify (λ s, set_snodes (INIT_LIST_HEAD CacheList (snodes s)) s).

(** [*((uint64 * )slab->free_list + i + 1) = ...] for every object; a store
    past the page of the slab is a fault. *)
Fixpoint fill_words (n : nat) (i : nat) (objs size : Z) (w : list Z) : option (list Z) :=
  match n with
  | O => Some w
  | S n =>
      if (length w <=? i)%nat then None else
      fill_words n (S i) objs size (<[i := u64 (objs + u32 (Z.of_nat i * size))]> w)
  end.

Definition slab_create (cache : Z) : M km (option Z) :=
  k ← cache_get cache;
  slab ← in_mm (__alloc_page (cflags k));
  if slab =? 0 then mret None else
  objs ← in_mm (__alloc_pages (cflags k) (corder k));
  if objs =? 0 then (in_mm (__free_page slab);; mret None) else
  let page := get_page_struct objs in
  km_for (Z.to_nat (Z.shiftl 1 (corder k))) 0 (λ i,
    in_mm (page_mod (page + i) (SetPageFlag PG_Slab));;
    in_mm (page_mod page (set_slab (Some slab))));;
  modify (λ s, set_snodes (INIT_LIST_HEAD (SlabNode slab) (snodes s)) s);;
  w ← deref (λ _, fill_words (Z.to_nat (count_per_slab k)) 0 objs (csize k) (replicate SLAB_WORDS 0));
  slab_set slab (KSlab cache objs 0 w 0);;
  mret (Some slab).

Definition slab_destory (slab : Z) : M km unit :=
  sl ← slab_get slab;
  k ← cache_get (kc sl);
  let page := get_page_struct (objs sl) in
  km_for (Z.to_nat (Z.shiftl 1 (corder k))) 0 (λ i,
    in_mm (page_mod (page + i) (SetPageFlag 0));;
    in_mm (page_mod page (set_slab None)));;
  in_mm (__free_pages (objs sl) (corder k));;
  in_mm (__free_page slab).

(** [while (require_size > slab_size) { order++; slab_size <<= 1; }]: a
    [uint16] object size needs at most 7 rounds. *)
Fixpoint order_search (fuel : nat) (require_size slab_size order : Z) : Z :=
  match fuel with
  | O => order
  | S fuel =>
      if slab_size <? require_size
      then order_search fuel require_size (u32 (Z.shiftl slab_size 1)) (u8 (order + 1)) else order
  end.
Definition calc_slab_order (obj_size : Z) : Z :=
  order_search 8 (u32 (obj_size * MIN_OBJ_COUNT_PER_PAGE)) PGSIZE 0.

Definition obj_pop (slab : Z) : M km Z :=
  sl ← slab_get slab;
  tmp ← deref (λ _, if free_list sl <? 0 then None else words sl !! Z.to_nat (free_list sl));
  slab_set slab (KSlab (kc sl) (objs sl) (u16 (inuse sl + 1)) (words sl) (free_list sl + 1));;
  mret tmp.

(** The word in front of the first one is the header's own [free_list]. *)
Definition obj_push (slab obj : Z) : M km unit :=
  sl ← slab_get slab;
  let fl := free_list sl - 1 in
  if (fl <? 0) || (Z.of_nat (length (words sl)) <=? fl) then fault else
  slab_set slab
    (KSlab (kc sl) (objs sl) (u16 (inuse sl - 1)) (<[Z.to_nat fl := obj]> (words sl)) fl).

Definition is_slab_partial (slab cache : Z) : M km bool :=
  sl ← slab_get slab;
  k ← cache_get cache;
  mret (inuse sl <? count_per_slab k).

Definition cache_cpu_init (cache : Z) : M km unit :=
  km_for (Z.to_nat NCPU) 0 (λ i,
    r ← slab_create cache;
    match r with
    | None => panic
    | Some cpu_slab =>
        k ← cache_get cache;
        modify (λ s, set_caches (<[cache := KMemCache (<[Z.to_nat i := cpu_slab]> (cache_cpu k))
          (name k) (cflags k) (csize k) (corder k) (count_per_slab k)]> (caches s)) s)
    end).

Definition kmem_cache_add_slab (cache : Z) : M km Z :=
  new_slab ← slab_create cache;
  match new_slab with
  | None => fault      (* [&NULL->list] *)
  | Some a => snode_do (list_add_head (SlabNode a) (PartHead cache));; mret a
  end.

(** The geometry of a cache for objects of [size] bytes. *)
Definition cache_geometry (nm : list Ascii.ascii) (size flags : Z) : kmem_cache :=
  let csize := u16 (next_power_of_2 size) in
  let order := calc_slab_order size in
  KMemCache (replicate (Z.to_nat NCPU) 0) (take CACHE_MAX_NAME_LEN nm) flags csize order
    (u16 (Z.quot (Z.shiftl 1 order * PGSIZE) csize)).

Definition kmem_cache_create (cache : Z) (nm : list Ascii.ascii) (size flags : Z) : M km unit :=
  spin_lock (cache_lock cache);;
  (if u16 (next_power_of_2 size) =? 0 then fault else mret tt);;
  modify (λ s, set_caches (<[cache := cache_geometry nm size flags]> (caches s)) s);;
  modify (λ s, set_snodes (INIT_LIST_HEAD (PartHead cache) (snodes s)) s);;
  modify (λ s, set_snodes (INIT_LIST_HEAD (FullHead cache) (snodes s)) s);;
  modify (λ s, set_snodes (INIT_LIST_HEAD (CacheNode cache) (snodes s)) s);;
  cache_cpu_init cache;;
  snode_do (list_add_head (CacheNode cache) CacheList);;
  spin_unlock (cache_lock cache).

(** [list_for_each_entry_safe] with a body that leaves the list nodes alone. *)
Definition slab_list (hd : sloc) : M km (list sloc) :=
  deref (λ s, p ← nxt (snodes s) hd; list_for_each (size (snodes s)) hd p (snodes s)).
Fixpoint destroy_all (l : list sloc) : M km unit :=
  match l with
  | [] => mret tt
  | SlabNode a :: l => slab_destory a;; destroy_all l
  | _ :: _ => fault
  end.

Definition kmem_cache_destory (cache : Z) : M km unit :=
  spin_lock (cache_lock cache);;
  k ← cache_get cache;
  destroy_all (SlabNode <$> cache_cpu k);;
  p ← slab_list (PartHead cache);
  destroy_all p;;
  f ← slab_list (FullHead cache);
  destroy_all f;;
  snode_do (list_del_init (CacheNode cache));;
  spin_unlock (cache_lock cache).

Definition kmem_cache_alloc (_cpuid cache : Z) : M km Z :=
  freed ← snode_empty (CacheNode cache);
  if (freed : bool) then panic else
  k ← cache_get cache;
  cpu_slab ← deref (λ _, if _cpuid <? 0 then None else cache_cpu k !! Z.to_nat _cpuid);
  part ← is_slab_partial cpu_slab cache;
  if (part : bool) then obj_pop cpu_slab else
  spin_lock (cache_lock cache);;
  none ← snode_empty (PartHead cache);
  if (none : bool) then
    slab ← kmem_cache_add_slab cache;
    addr ← obj_pop slab;
    spin_unlock (cache_lock cache);;
    mret addr
  else
    first ← deref (λ s, list_first (PartHead cache) (snodes s));
    match first with
    | SlabNode slab =>
        addr ← obj_pop slab;
        part ← is_slab_partial slab cache;
        (if negb part then
           snode_do (list_del (SlabNode slab));;
           snode_do (list_add_head (SlabNode slab) (FullHead cache))
         else mret tt);;
        spin_unlock (cache_lock cache);;
        mret addr
    | _ => fault
    end.

(** [get_page_struct(obj)->slab], a fault when NULL is dereferenced. *)
Definition slab_of (obj : Z) : M km Z :=
  pg ← in_mm (page_get (get_page_struct obj));
  deref (λ _, slab pg).

Definition kmem_cache_free (cache obj : Z) : M km unit :=
  freed ← snode_empty (CacheNode cache);
  if (freed : bool) then panic else
  slab ← slab_of obj;
  cpu ← snode_empty (SlabNode slab);
  if (cpu : bool) then obj_push slab obj else
  spin_lock (cache_lock cache);;
  part ← is_slab_partial slab cache;
  (if negb part then
     snode_do (list_del (SlabNode slab));;
     snode_do (list_add_head (SlabNode slab) (PartHead cache))
   else mret tt);;
  obj_push slab obj;;
  spin_unlock (cache_lock cache).

(** * kmalloc *)

(** [kmalloc_caches] has ten entries, [kmalloc16] to [kmalloc8192]; an index
    past them is a fault. *)
Definition kmalloc_cache (order : Z) : option Z := if order <? 10 then Some order else None.

(** The ten kmalloc caches and the dedicated ones; [dedicated] lists the
    [sizeof]s the compiler computes, in the order of the calls. *)
Definition kmalloc_names : list (list Ascii.ascii) :=
  String.list_ascii_of_string <$> ["kmalloc-16"; "kmalloc-32"; "kmalloc-64"; "kmalloc-128";
    "kmalloc-256"; "kmalloc-512"; "kmalloc-1024"; "kmalloc-2048"; "kmalloc-4096"; "kmalloc-8192"]%string.
Fixpoint create_all (c : Z) (l : list (list Ascii.ascii * Z)) : M km unit :=
  match l with
  | [] => mret tt
  | (nm, sz) :: l => kmem_cache_create c nm sz 0;; create_all (c + 1) l
  end.
Definition kmalloc_init (dedicated : list (list Ascii.ascii * Z)) : M km unit :=
  create_all 0 (zip kmalloc_names ((λ i : nat, Z.shiftl 16 (Z.of_nat i)) <$> seq 0 10));;
  create_all 10 dedicated.

Definition kmalloc (_cpuid size flags : Z) : M km Z :=
  if (size <? 1) || (8192 <? size) then mret 0 else
  let order := u32 (calculate_order (u32 size) - 4) in
  c ← deref (λ _, kmalloc_cache order);
  kmem_cache_alloc _cpuid c.

Definition kfree (obj : Z) : M km unit :=
  a ← slab_of obj;
  sl ← slab_get a;
  kmem_cache_free (kc sl) obj.

(** [mem_init] of mm/mm.c: pages, buddy lists, caches, kmalloc. *)
Definition mem_init (_end : Z) (dedicated : list (list Ascii.ascii * Z)) : M km unit :=
  in_mm (all_page_init _end);;
  in_mm buddy_init;;
  kmem_cache_init;;
  kmalloc_init dedicated.

(** * One slab as a set of free objects *)

Definition grid (k : kmem_cache) (sl : kslab) : list Z :=
  (λ i : nat, objs sl + Z.of_nat i * csize k) <$> seq 0 (Z.to_nat (count_per_slab k)).
Definition free_objs (k : kmem_cache) (sl : kslab) : list Z :=
  drop (Z.to_nat (free_list sl)) (take (Z.to_nat (count_per_slab k)) (words sl)).

Record slab_ok (k : kmem_cache) (sl : kslab) : Prop := {
  so_len : length (words sl) = SLAB_WORDS;
  so_count : 0 < count_per_slab k <= Z.of_nat SLAB_WORDS;
  so_fl : 0 <= free_list sl <= count_per_slab k;
  so_inuse : inuse sl = free_list sl;
  so_nodup : NoDup (free_objs k sl);
  so_grid : ∀ x, x ∈ free_objs k sl → x ∈ grid k sl;
}.

Lemma length_free_objs k sl :
  slab_ok k sl → length (free_objs k sl) = Z.to_nat (count_per_slab k - free_list sl).
Proof.
  intros [Hl Hc Hf _ _ _]. unfold free_objs. rewrite length_drop, length_take, Hl. lia.
Qed.

Definition popped (sl : kslab) : kslab :=
  KSlab (kc sl) (objs sl) (u16 (inuse sl + 1)) (words sl) (free_list sl + 1).
Definition pushed (x : Z) (sl : kslab) : kslab :=
  KSlab (kc sl) (objs sl) (u16 (inuse sl - 1))
    (<[Z.to_nat (free_list sl - 1) := x]> (words sl)) (free_list sl - 1).

Lemma slab_pop k sl :
  slab_ok k sl → inuse sl < count_per_slab k →
  ∃ x, words sl !! Z.to_nat (free_list sl) = Some x ∧ inuse (popped sl) = inuse sl + 1 ∧
    free_objs k sl = x :: free_objs k (popped sl) ∧ slab_ok k (popped sl).
Proof.
  intros Hok Hlt. pose proof Hok as [Hl Hc Hf Hi Hnd Hg]. assert (Hsw : SLAB_WORDS = 506%nat) by done.
  destruct (lookup_lt_is_Some_2 (words sl) (Z.to_nat (free_list sl))) as [x Hx]; [lia|].
  assert (Hu : u16 (inuse sl + 1) = free_list sl + 1) by (rewrite u16_small by lia; lia).
  assert (Hfree : free_objs k sl = x :: free_objs k (popped sl)).
  { unfold free_objs, popped. simpl.
    rewrite (drop_S _ x (Z.to_nat (free_list sl))) by (by rewrite lookup_take_lt by lia).
    f_equal. f_equal. lia. }
  exists x. split_and!; [done|simpl; lia|done|].
  rewrite Hfree in Hnd, Hg. apply NoDup_cons in Hnd as [_ Hnd].
  split; simpl; [done|lia|lia|lia|done|]. intros y Hy. apply Hg. by right.
Qed.

(** An object of the slab that is not free: some word is in use. *)
Lemma slab_used k sl x :
  slab_ok k sl → x ∈ grid k sl → x ∉ free_objs k sl → 0 < free_list sl.
Proof.
  intros Hok Hx Hn. pose proof Hok as [Hl Hc Hf Hi Hnd Hg].
  destruct (decide (free_list sl = 0)) as [E|]; [|lia]. destruct Hn.
  assert (Hsub : free_objs k sl ⊆+ grid k sl) by (by apply NoDup_submseteq).
  assert (Hp : free_objs k sl ≡ₚ grid k sl).
  { apply submseteq_length_Permutation; [done|].
    rewrite length_free_objs by done. unfold grid. rewrite length_fmap, length_seq. lia. }
  by rewrite Hp.
Qed.

Lemma slab_push k sl x :
  slab_ok k sl → x ∈ grid k sl → x ∉ free_objs k sl →
  0 < free_list sl ∧ inuse (pushed x sl) = inuse sl - 1 ∧
  free_objs k (pushed x sl) = x :: free_objs k sl ∧ slab_ok k (pushed x sl).
Proof.
  intros Hok Hx Hn. pose proof (slab_used k sl x Hok Hx Hn) as Hpos.
  pose proof Hok as [Hl Hc Hf Hi Hnd Hg]. assert (Hsw : SLAB_WORDS = 506%nat) by done.
  assert (Hu : u16 (inuse sl - 1) = free_list sl - 1) by (rewrite u16_small by lia; lia).
  assert (Hfree : free_objs k (pushed x sl) = x :: free_objs k sl).
  { unfold free_objs, pushed. simpl.
    rewrite (drop_S _ x (Z.to_nat (free_list sl - 1))).
    - f_equal. replace (S (Z.to_nat (free_list sl - 1))) with (Z.to_nat (free_list sl)) by lia.
      rewrite take_insert_lt by lia. by rewrite drop_insert_lt by lia.
    - rewrite lookup_take_lt by lia. apply list_lookup_insert_eq. lia. }
  split_and!; [done|simpl; lia|done|].
  split; rewrite ?Hfree; simpl; [by rewrite length_insert|lia|lia|lia|by apply NoDup_cons|].
  intros y Hy. apply elem_of_cons in Hy as [->|Hy]; [done|by apply Hg].
Qed.

(** * A cache as a set of free objects *)

Definition slabs_ok (c : Z) (k : kmem_cache) (all : list Z) (S : gmap Z kslab) : Prop :=
  (∀ a, a ∈ all → ∃ sl, S !! a = Some sl ∧ kc sl = c ∧ slab_ok k sl) ∧
  (∀ a b sla slb x, a ∈ all → b ∈ all → S !! a = Some sla → S !! b = Some slb →
     x ∈ grid k sla → x ∈ grid k slb → a = b).

Definition free_in (k : kmem_cache) (all : list Z) (S : gmap Z kslab) (x : Z) : Prop :=
  ∃ a sl, a ∈ all ∧ S !! a = Some sl ∧ x ∈ free_objs k sl.

(** Changing one slab without moving its objects. *)
Lemma slabs_ok_insert c k all S a sl sl' :
  slabs_ok c k all S → a ∈ all → S !! a = Some sl → slab_ok k sl' → kc sl' = c →
  objs sl' = objs sl → slabs_ok c k all (<[a := sl']> S).
Proof.
  intros [Hs Hd] Ha E Hok Hkc Hobjs. split.
  - intros b Hb. destruct (decide (b = a)) as [->|].
    + exists sl'. by rewrite lookup_insert_eq.
    + rewrite lookup_insert_ne by done. by apply Hs.
  - assert (Hg : grid k sl' = grid k sl) by (unfold grid; by rewrite Hobjs).
    intros b1 b2 s1 s2 x H1 H2 [[<- <-]|[? E1]]%lookup_insert_Some
      [[<- <-]|[? E2]]%lookup_insert_Some; rewrite ?Hg; [done| | |]; by apply Hd.
Qed.

Lemma free_in_insert c k all S a sl sl' (x : Z) (y : Z) :
  slabs_ok c k all S → a ∈ all → S !! a = Some sl → slab_ok k sl' → objs sl' = objs sl →
  free_objs k sl = x :: free_objs k sl' →
  free_in k all S x ∧ (free_in k all (<[a := sl']> S) y ↔ free_in k all S y ∧ y ≠ x).
Proof.
  intros [Hs Hd] Ha E Hok Hobjs Hf.
  assert (Hx : free_in k all S x) by (exists a, sl; rewrite Hf; split_and!; [done..|by left]).
  split; [done|].
  assert (Hoksl : slab_ok k sl) by (destruct (Hs a Ha) as (? & ? & _ & ?); by simplify_eq).
  assert (Hxn : x ∉ free_objs k sl') by (pose proof (so_nodup _ _ Hoksl) as Hnd; rewrite Hf in Hnd; by apply NoDup_cons in Hnd as [? _]).
  split.
  - intros (b & slb & Hb & [[<- <-]|[Hne Eb]]%lookup_insert_Some & Hy).
    + split; [exists a, sl; rewrite Hf; split_and!; [done..|by right]|]. by intros ->.
    + split; [by exists b, slb|]. intros ->. destruct Hne.
      apply (Hd a b sl slb x); [done..| |].
      * apply (so_grid _ _ Hoksl). rewrite Hf. by left.
      * destruct (Hs b Hb) as (? & ? & _ & Hokb). simplify_eq. by apply (so_grid _ _ Hokb).
  - intros [(b & slb & Hb & Eb & Hy) Hne]. destruct (decide (b = a)) as [->|].
    + exists a, sl'. rewrite lookup_insert_eq. split_and!; [done..|]. simplify_eq.
      rewrite Hf in Hy. by apply elem_of_cons in Hy as [?|?].
    + exists b, slb. by rewrite lookup_insert_ne.
Qed.

Definition lists_of (c : Z) (parts fulls : list Z) : gmap sloc (list sloc) :=
  <[PartHead c := SlabNode <$> parts]> {[FullHead c := SlabNode <$> fulls]}.

(** The invariant of cache [c]: its per-CPU slabs are on no list, the partial
    slabs are on [part_slabs] and the full ones on [full_slabs]. *)
Record cache_ok (s : km) (c : Z) (k : kmem_cache) (parts fulls : list Z) : Prop := {
  co_cache : caches s !! c = Some k;
  co_live : ∃ x, nxt (snodes s) (CacheNode c) = Some x ∧ x ≠ CacheNode c;
  co_fam : fam (snodes s) (lists_of c parts fulls);
  co_cpu : ∀ a, a ∈ cache_cpu k → snodes s !! SlabNode a = Some (Node (SlabNode a) (SlabNode a));
  co_ncpu : length (cache_cpu k) = Z.to_nat NCPU;
  co_nodup : NoDup (cache_cpu k ++ parts ++ fulls);
  co_slabs : slabs_ok c k (cache_cpu k ++ parts ++ fulls) (slabs s);
  co_parts : ∀ a sl, a ∈ parts → slabs s !! a = Some sl → inuse sl < count_per_slab k;
  co_fulls : ∀ a sl, a ∈ fulls → slabs s !! a = Some sl → inuse sl = count_per_slab k;
}.

Lemma lists_of_in c parts fulls a :
  in_fam (lists_of c parts fulls) (SlabNode a) ↔ a ∈ parts ++ fulls.
Proof.
  unfold in_fam, lists_of. rewrite elem_of_app. split.
  - intros (hd & xs & [[<- <-]|[_ [<- <-]%lookup_singleton_Some]]%lookup_insert_Some & Hin);
      (apply elem_of_cons in Hin as [|(? & [= ->] & ?)%list_elem_of_fmap]; [done|]); eauto.
  - intros [Hin|Hin].
    + exists (PartHead c), (SlabNode <$> parts). rewrite lookup_insert_eq. split; [done|].
      right. apply list_elem_of_fmap. eauto.
    + exists (FullHead c), (SlabNode <$> fulls). rewrite lookup_insert_ne, lookup_singleton_eq by done.
      split; [done|]. right. apply list_elem_of_fmap. eauto.
Qed.

Lemma lists_of_part c parts fulls : lists_of c parts fulls !! PartHead c = Some (SlabNode <$> parts).
Proof. apply lookup_insert_eq. Qed.
Lemma lists_of_full c parts fulls : lists_of c parts fulls !! FullHead c = Some (SlabNode <$> fulls).
Proof. unfold lists_of. by rewrite lookup_insert_ne, lookup_singleton_eq. Qed.
Lemma lists_of_set_part c parts fulls p :
  <[PartHead c := SlabNode <$> p]> (lists_of c parts fulls) = lists_of c p fulls.
Proof. unfold lists_of. by rewrite insert_insert_eq. Qed.
Lemma lists_of_set_full c parts fulls f :
  <[FullHead c := SlabNode <$> f]> (lists_of c parts fulls) = lists_of c parts f.
Proof. unfold lists_of. rewrite insert_insert_ne by done. by rewrite insert_singleton_eq. Qed.

Lemma lists_of_fresh c parts fulls q :
  (∀ a, q ≠ SlabNode a) → q ≠ PartHead c → q ≠ FullHead c → ¬ in_fam (lists_of c parts fulls) q.
Proof.
  unfold lists_of. intros Hs Hp Hf (hd & xs & [[<- <-]|[_ [<- <-]%lookup_singleton_Some]]%lookup_insert_Some & Hin);
    (apply elem_of_cons in Hin as [|(? & -> & _)%list_elem_of_fmap]; [done|by eapply Hs]).
Qed.

(** Moving a slab from [part_slabs] to [full_slabs] and back. *)
Lemma move_to_full h c a parts fulls :
  fam h (lists_of c (a :: parts) fulls) → a ∉ parts ++ fulls →
  ∃ h1 h2, list_del (SlabNode a) h = Some h1 ∧
    list_add_head (SlabNode a) (FullHead c) h1 = Some h2 ∧ fam h2 (lists_of c parts (a :: fulls)) ∧
    ∀ q, ¬ in_fam (lists_of c (a :: parts) fulls) q → h2 !! q = h !! q.
Proof.
  intros Hf Hn. destruct (fam_del (SlabNode a) (PartHead c) [] (SlabNode <$> parts) h _ Hf)
    as (h1 & E1 & Hf1 & Ha & Hd1 & Ho1); [apply (lists_of_part c (a :: parts))|].
  simpl in Hf1. rewrite lists_of_set_part in Hf1.
  destruct (fam_add_head (SlabNode a) (FullHead c) (SlabNode <$> fulls) h1 _ Hf1)
    as (h2 & E2 & Hf2 & _ & Hd2 & Ho2).
  - apply lists_of_full.
  - by rewrite lists_of_in.
  - rewrite Ha. eapply (dll_in_dom h (PartHead c)); [apply Hf; apply lists_of_part|right; by left].
  - exists h1, h2. split_and!; [done|done| |].
    + change (SlabNode a :: (SlabNode <$> fulls)) with (SlabNode <$> a :: fulls) in Hf2.
      by rewrite lists_of_set_full in Hf2.
    + intros q Hq. rewrite Ho2, Ho1; [done| |].
      * intros Hin. apply Hq. exists (PartHead c), (SlabNode <$> a :: parts).
        split; [apply lists_of_part|]. clear -Hin. set_solver.
      * intros Hin. apply Hq. apply elem_of_cons in Hin as [->|Hin].
        -- apply lists_of_in. by left.
        -- exists (FullHead c), (SlabNode <$> fulls). split; [apply lists_of_full|done].
Qed.

Lemma move_to_part h c a pre post parts :
  fam h (lists_of c parts (pre ++ a :: post)) → a ∉ parts ++ pre ++ post →
  ∃ h1 h2, list_del (SlabNode a) h = Some h1 ∧
    list_add_head (SlabNode a) (PartHead c) h1 = Some h2 ∧
    fam h2 (lists_of c (a :: parts) (pre ++ post)) ∧
    ∀ q, ¬ in_fam (lists_of c parts (pre ++ a :: post)) q → h2 !! q = h !! q.
Proof.
  intros Hf Hn.
  assert (El : lists_of c parts (pre ++ a :: post) !! FullHead c =
    Some ((SlabNode <$> pre) ++ SlabNode a :: (SlabNode <$> post))).
  { rewrite lists_of_full. by rewrite fmap_app. }
  destruct (fam_del (SlabNode a) (FullHead c) _ _ h _ Hf El) as (h1 & E1 & Hf1 & Ha & Hd1 & Ho1).
  rewrite <-fmap_app, lists_of_set_full in Hf1.
  destruct (fam_add_head (SlabNode a) (PartHead c) (SlabNode <$> parts) h1 _ Hf1)
    as (h2 & E2 & Hf2 & _ & Hd2 & Ho2).
  - apply lists_of_part.
  - by rewrite lists_of_in.
  - rewrite Ha. eapply (dll_in_dom h (FullHead c)); [apply Hf, El|]. clear. set_solver.
  - exists h1, h2. split_and!; [done|done| |].
    + change (SlabNode a :: (SlabNode <$> parts)) with (SlabNode <$> a :: parts) in Hf2.
      by rewrite lists_of_set_part in Hf2.
    + intros q Hq. rewrite Ho2, Ho1; [done| |].
      * intros Hin. apply Hq. eexists (FullHead c), _. split; [apply El|]. clear -Hin. set_solver.
      * intros Hin. apply Hq. apply elem_of_cons in Hin as [->|Hin].
        -- apply lists_of_in. clear. set_solver.
        -- exists (PartHead c), (SlabNode <$> parts). split; [apply lists_of_part|done].
Qed.

(** ** Symbolic execution of the small steps *)

Lemma obj_pop_ok s a sl x :
  slabs s !! a = Some sl → 0 <= free_list sl → words sl !! Z.to_nat (free_list sl) = Some x →
  obj_pop a s = Done x (set_slabs (<[a := popped sl]> (slabs s)) s).
Proof.
  intros E Hf Hx. unfold obj_pop. erewrite bind_Done by (unfold slab_get, deref; by rewrite E).
  destruct (Z.ltb_spec (free_list sl) 0); [lia|].
  erewrite bind_Done by (unfold deref; by rewrite Hx). done.
Qed.

Lemma obj_push_ok s a sl x :
  slabs s !! a = Some sl → 0 < free_list sl → free_list sl <= Z.of_nat (length (words sl)) →
  obj_push a x s = Done tt (set_slabs (<[a := pushed x sl]> (slabs s)) s).
Proof.
  intros E Hf Hl. unfold obj_push. erewrite bind_Done by (unfold slab_get, deref; by rewrite E).
  cbv zeta. destruct (Z.ltb_spec (free_list sl - 1) 0); [lia|].
  destruct (Z.leb_spec (Z.of_nat (length (words sl))) (free_list sl - 1)); [lia|]. done.
Qed.

Lemma is_slab_partial_ok s a c sl k :
  slabs s !! a = Some sl → caches s !! c = Some k →
  is_slab_partial a c s = Done (inuse sl <? count_per_slab k) s.
Proof.
  intros E Ek. unfold is_slab_partial. erewrite bind_Done by (unfold slab_get, deref; by rewrite E).
  erewrite bind_Done by (unfold cache_get, deref; by rewrite Ek). done.
Qed.

Lemma cache_live s c k parts fulls :
  cache_ok s c k parts fulls → snode_empty (CacheNode c) s = Done false s.
Proof.
  intros Hok. destruct (co_live _ _ _ _ _ Hok) as (x & E & Hne).
  unfold snode_empty, deref, list_empty. rewrite E. simpl. by rewrite bool_decide_eq_false_2.
Qed.

(** After [spin_lock] of the cache lock. *)
Definition locked (c : Z) (s : km) : km := set_locks ({[cache_lock c]} ∪ mm_locks (kmm s)) s.

Lemma spin_lock_ok s c : cache_lock c ∉ mm_locks (kmm s) → spin_lock (cache_lock c) s = Done tt (locked c s).
Proof. intros Hl. unfold spin_lock. by rewrite decide_False. Qed.

Lemma spin_unlock_ok s c (s' : km) :
  cache_lock c ∉ mm_locks (kmm s) → kmm s' = kmm (locked c s) →
  spin_unlock (cache_lock c) s' = Done tt (set_kmm (kmm s) s').
Proof.
  intros Hl E. unfold spin_unlock. rewrite decide_True.
  - simpl. rewrite E. simpl. rewrite lock_unlock_locks by done. by destruct (kmm s).
  - simpl. rewrite E. simpl. set_solver.
Qed.

Lemma slabs_ok_perm c k l l' S : l ≡ₚ l' → slabs_ok c k l S → slabs_ok c k l' S.
Proof.
  intros Hp [Hs Hd]. split.
  - intros a Ha. apply Hs. by rewrite Hp.
  - intros a b sla slb x Ha Hb. rewrite <-Hp in Ha, Hb. by apply Hd.
Qed.
Lemma free_in_perm k l l' S x : l ≡ₚ l' → free_in k l S x ↔ free_in k l' S x.
Proof. intros Hp. unfold free_in. by setoid_rewrite Hp. Qed.

Lemma cache_ok_step s s' c k p f p' f' a sl sl' :
  cache_ok s c k p f → a ∈ cache_cpu k ++ p ++ f → slabs s !! a = Some sl → slab_ok k sl' →
  kc sl' = kc sl → objs sl' = objs sl →
  caches s' = caches s → slabs s' = <[a := sl']> (slabs s) → fam (snodes s') (lists_of c p' f') →
  (∀ q, ¬ in_fam (lists_of c p f) q → snodes s' !! q = snodes s !! q) →
  p' ++ f' ≡ₚ p ++ f → (∀ b, b ∈ p' → b = a ∨ b ∈ p) → (∀ b, b ∈ f' → b = a ∨ b ∈ f) →
  (a ∈ p' → inuse sl' < count_per_slab k) → (a ∈ f' → inuse sl' = count_per_slab k) →
  cache_ok s' c k p' f'.
Proof.
  intros Hok Ha E Hsl Hkc Hobjs Hc Hs Hf Hn Hperm Hp' Hf' Hap Haf.
  assert (Hall : cache_cpu k ++ p ++ f ≡ₚ cache_cpu k ++ p' ++ f') by by rewrite Hperm.
  split.
  - rewrite Hc. apply Hok.
  - destruct (co_live _ _ _ _ _ Hok) as (x & Ex & Hx). exists x. split; [|done].
    unfold nxt in *. rewrite Hn; [done|]. by apply lists_of_fresh.
  - done.
  - intros b Hb. rewrite Hn; [by apply (co_cpu _ _ _ _ _ Hok)|].
    rewrite lists_of_in. pose proof (co_nodup _ _ _ _ _ Hok) as Hnd.
    apply NoDup_app in Hnd as (_ & Hnd & _). by apply Hnd.
  - apply Hok.
  - rewrite <-Hall. apply Hok.
  - rewrite Hs. eapply slabs_ok_perm; [exact Hall|].
    destruct (co_slabs _ _ _ _ _ Hok) as [Hs1 Hd1].
    eapply slabs_ok_insert; [by split|done|done|done| |done].
    destruct (Hs1 a Ha) as (? & ? & ? & ?). congruence.
  - rewrite Hs. intros b slb Hb [[<- <-]|[Hne Eb]]%lookup_insert_Some; [by apply Hap|].
    destruct (Hp' b Hb) as [->|?]; [done|]. by apply (co_parts _ _ _ _ _ Hok b).
  - rewrite Hs. intros b slb Hb [[<- <-]|[Hne Eb]]%lookup_insert_Some; [by apply Haf|].
    destruct (Hf' b Hb) as [->|?]; [done|]. by apply (co_fulls _ _ _ _ _ Hok b).
Qed.

Lemma co_slab s c k p f a :
  cache_ok s c k p f → a ∈ cache_cpu k ++ p ++ f →
  ∃ sl, slabs s !! a = Some sl ∧ kc sl = c ∧ slab_ok k sl.
Proof. intros Hok Ha. destruct (co_slabs _ _ _ _ _ Hok) as [Hs _]. by apply Hs. Qed.

Lemma co_not_other s c k p f a :
  cache_ok s c k p f → a ∈ cache_cpu k → (a ∉ p) ∧ (a ∉ f).
Proof.
  intros Hok Ha. pose proof (co_nodup _ _ _ _ _ Hok) as Hnd.
  apply NoDup_app in Hnd as (_ & Hnd & _). specialize (Hnd a Ha). rewrite elem_of_app in Hnd. tauto.
Qed.

(** Allocating from the slab of the CPU. *)
Lemma alloc_cpu_ok s c k p f a sl :
  cache_ok s c k p f → a ∈ cache_cpu k → slabs s !! a = Some sl → inuse sl < count_per_slab k →
  ∃ x s', obj_pop a s = Done x s' ∧ cache_ok s' c k p f ∧
    kmm s' = kmm s ∧ free_in k (cache_cpu k ++ p ++ f) (slabs s) x ∧
    ∀ y, free_in k (cache_cpu k ++ p ++ f) (slabs s') y ↔
         free_in k (cache_cpu k ++ p ++ f) (slabs s) y ∧ y ≠ x.
Proof.
  intros Hok Ha0 Es0 Hlt. assert (Ha0' : a ∈ cache_cpu k ++ p ++ f) by (apply elem_of_app; by left).
  destruct (co_slab _ _ _ _ _ _ Hok Ha0') as (sl' & E & Hkc & Hsl). simplify_eq.
  destruct (slab_pop k sl Hsl Hlt) as (x & Hx & Hin & Hfree & Hsl').
  rewrite (obj_pop_ok s a sl x Es0 ltac:(apply Hsl) Hx).
  destruct (co_not_other _ _ _ _ _ _ Hok Ha0) as [Hnp Hnf].
  destruct (free_in_insert _ k _ (slabs s) a sl (popped sl) x 0 (co_slabs _ _ _ _ _ Hok) Ha0' Es0
    Hsl' eq_refl Hfree) as [Hxf _].
  eexists x, _. split; [done|]. split_and!; [|done|done|].
  - eapply (cache_ok_step s); [done|exact Ha0'|done|exact Hsl'|done..|apply Hok|done|done| | |done|done];
      intros; by right.
  - intros y. simpl. by eapply free_in_insert; [apply Hok|..].
Qed.

(** C27: Allocation from a slab cache.  While the slab of the calling CPU or
    some slab of [part_slabs] has a free object, [kmem_cache_alloc] returns an
    object that was free, exactly that object stops being free, the cache
    stays well formed (a slab that becomes full moves to [full_slabs]), no page
    is allocated and the cache lock is released. *)
Theorem kmem_cache_alloc_correct s c k p f cpu a0 sl0 :
  cache_ok s c k p f → 0 <= cpu → cache_cpu k !! Z.to_nat cpu = Some a0 →
  slabs s !! a0 = Some sl0 → cache_lock c ∉ mm_locks (kmm s) →
  inuse sl0 < count_per_slab k ∨ p ≠ [] →
  ∃ x s' p' f', kmem_cache_alloc cpu c s = Done x s' ∧ cache_ok s' c k p' f' ∧
    kmm s' = kmm s ∧ free_in k (cache_cpu k ++ p ++ f) (slabs s) x ∧
    ∀ y, free_in k (cache_cpu k ++ p' ++ f') (slabs s') y ↔
         free_in k (cache_cpu k ++ p ++ f) (slabs s) y ∧ y ≠ x.
Proof.
  intros Hok Hcpu Ea0 Es0 Hlk Hroom. pose proof (co_cache _ _ _ _ _ Hok) as Ek.
  unfold kmem_cache_alloc. rewrite (bind_Done _ _ _ _ _ (cache_live _ _ _ _ _ Hok)).
  erewrite bind_Done by (unfold cache_get, deref; by rewrite Ek).
  destruct (Z.ltb_spec cpu 0); [lia|]. erewrite bind_Done by (unfold deref; by rewrite Ea0).
  rewrite (bind_Done _ _ _ _ _ (is_slab_partial_ok s a0 c sl0 k Es0 Ek)).
  assert (Ha0 : a0 ∈ cache_cpu k) by by eapply list_elem_of_lookup_2.
  assert (Ha0' : a0 ∈ cache_cpu k ++ p ++ f) by (apply elem_of_app; by left).
  destruct (Z.ltb_spec (inuse sl0) (count_per_slab k)) as [Hlt|Hge].
  - destruct (alloc_cpu_ok s c k p f a0 sl0) as (x & s' & E & Hr); [done..|]. exists x, s', p, f. by split.
  - destruct p as [|a p]; [destruct Hroom; [lia|done]|].
    assert (Ha : a ∈ cache_cpu k ++ (a :: p) ++ f) by (clear; set_solver).
    destruct (co_slab _ _ _ _ _ _ Hok Ha) as (sl & E & Hkc & Hsl).
    destruct (slab_pop k sl Hsl) as (x & Hx & Hin & Hfree & Hsl').
    { apply (co_parts _ _ _ _ _ Hok a sl); [by left|done]. }
    rewrite (bind_Done _ _ _ _ _ (spin_lock_ok s c Hlk)).
    pose proof (co_fam _ _ _ _ _ Hok) as Hfam. pose proof Hfam as [Hd _].
    erewrite bind_Done; cycle 1.
    { unfold snode_empty, deref. simpl snodes.
      by rewrite (list_empty_dll (PartHead c) (SlabNode <$> a :: p)) by (apply Hd, lists_of_part). }
    rewrite bool_decide_eq_false_2 by done. erewrite bind_Done; cycle 1.
    { unfold deref. simpl snodes.
      by rewrite (list_first_dll (PartHead c) (SlabNode a) (SlabNode <$> p)) by (apply Hd, (lists_of_part c (a :: p))). }
    cbv beta iota. erewrite bind_Done; cycle 1.
    { apply (obj_pop_ok (locked c s) a sl x); [done|apply Hsl|done]. }
    erewrite bind_Done; cycle 1.
    { apply (is_slab_partial_ok _ a c (popped sl) k); [apply lookup_insert_eq|done]. }
    destruct (free_in_insert _ k _ (slabs s) a sl (popped sl) x 0 (co_slabs _ _ _ _ _ Hok) Ha E
      Hsl' eq_refl Hfree) as [Hxf _].
    assert (Hna : a ∉ p ++ f).
    { pose proof (co_nodup _ _ _ _ _ Hok) as Hnd. apply NoDup_app in Hnd as (_ & _ & Hnd).
      by apply NoDup_cons in Hnd as [? _]. }
    destruct (Z.ltb_spec (inuse (popped sl)) (count_per_slab k)) as [Hp2|Hp2]; cbn [negb].
    + erewrite bind_Done by done. erewrite bind_Done by (by apply (spin_unlock_ok s)).
      eexists x, _, (a :: p), f. split; [done|]. split_and!; [|done|done|].
      * eapply (cache_ok_step s); [done|exact Ha|done|exact Hsl'|done..|done|done| | |done|];
          [intros; by right..|]. intros Haf. destruct Hna. clear -Haf. set_solver.
      * intros y. simpl. by eapply free_in_insert; [apply Hok|..].
    + destruct (move_to_full (snodes s) c a p f Hfam Hna) as (h1 & h2 & E1 & E2 & Hf2 & Hsame).
      erewrite bind_Done; cycle 1.
      { erewrite bind_Done by (unfold snode_do, update; simpl; by rewrite E1).
        unfold snode_do, update. simpl. by rewrite E2. }
      erewrite bind_Done by (by apply (spin_unlock_ok s)).
      assert (Hperm : cache_cpu k ++ p ++ a :: f ≡ₚ cache_cpu k ++ (a :: p) ++ f).
      { simpl. by rewrite (Permutation_middle p f a). }
      eexists x, _, p, (a :: f). split; [done|]. split_and!; [|done|done|].
      * eapply (cache_ok_step s); [done|exact Ha|done|exact Hsl'|done..|exact Hf2|exact Hsame| | | | |].
        -- simpl. by rewrite (Permutation_middle p f a).
        -- intros b Hb. right. by right.
        -- intros b Hb. by apply elem_of_cons in Hb.
        -- intros Hap. destruct Hna. clear -Hap. set_solver.
        -- intros _. rewrite Hin in Hp2 |- *.
           pose proof (co_parts _ _ _ _ _ Hok a sl ltac:(by left) E). lia.
      * intros y. rewrite (free_in_perm k _ _ _ _ Hperm). simpl.
        by eapply free_in_insert; [apply Hok|..].
Qed.

(** The node of a per-CPU slab is self-linked, the others are not. *)
Lemma slab_node_empty s c k p f a :
  cache_ok s c k p f → a ∈ cache_cpu k ++ p ++ f →
  snode_empty (SlabNode a) s = Done (bool_decide (a ∈ cache_cpu k)) s.
Proof.
  intros Hok Ha. unfold snode_empty, deref, list_empty. pose proof (co_fam _ _ _ _ _ Hok) as [Hd _].
  destruct (decide (a ∈ cache_cpu k)) as [Hc|Hc].
  - unfold nxt. rewrite (co_cpu _ _ _ _ _ Hok a Hc). simpl. by rewrite !bool_decide_eq_true_2.
  - assert (Hne : ∃ y, nxt (snodes s) (SlabNode a) = Some y ∧ y ≠ SlabNode a).
    { apply elem_of_app in Ha as [?|[Ha|Ha]%elem_of_app]; [done| |].
      - eapply (dll_next_ne _ (PartHead c)); [apply Hd, lists_of_part|]. apply list_elem_of_fmap. eauto.
      - eapply (dll_next_ne _ (FullHead c)); [apply Hd, lists_of_full|]. apply list_elem_of_fmap. eauto. }
    destruct Hne as (y & -> & Hy). simpl. by rewrite !bool_decide_eq_false_2.
Qed.

(** Freeing the object [x] turns the free set into the old one plus [x]. *)
Lemma free_in_push c k all S a sl sl' (x y : Z) :
  slabs_ok c k all S → a ∈ all → S !! a = Some sl → slab_ok k sl' → objs sl' = objs sl → kc sl' = c →
  free_objs k sl' = x :: free_objs k sl → slab_ok k sl →
  free_in k all (<[a := sl']> S) y ↔ free_in k all S y ∨ y = x.
Proof.
  intros Hs Ha E Hok Hobjs Hkc Hf Hoksl.
  pose proof (slabs_ok_insert c k all S a sl sl' Hs Ha E Hok Hkc Hobjs) as Hs'.
  destruct (free_in_insert c k all (<[a := sl']> S) a sl' sl x y Hs' Ha) as [Hx Hy];
    [by rewrite lookup_insert_eq|done|done|done|].
  rewrite insert_insert_eq, insert_id in Hy by done. split.
  - intros Hin. destruct (decide (y = x)); [by right|left; by apply Hy].
  - intros [Hin| ->]; [by apply Hy|done].
Qed.

(** Release to a slab cache.  For an object of one of the cache's slabs
    that is in use, lying in a page that records its slab, [kmem_cache_free]
    makes exactly that object free again; a slab that was full moves back to
    [part_slabs], the cache stays well formed and the lock is released. *)
Theorem kmem_cache_free_correct s c k p f a sl x pg :
  cache_ok s c k p f → a ∈ cache_cpu k ++ p ++ f → slabs s !! a = Some sl →
  x ∈ grid k sl → x ∉ free_objs k sl →
  pages (kmm s) !! get_page_struct x = Some pg → slab pg = Some a →
  cache_lock c ∉ mm_locks (kmm s) →
  ∃ s' p' f', kmem_cache_free c x s = Done tt s' ∧ cache_ok s' c k p' f' ∧ kmm s' = kmm s ∧
    ∀ y, free_in k (cache_cpu k ++ p' ++ f') (slabs s') y ↔
         free_in k (cache_cpu k ++ p ++ f) (slabs s) y ∨ y = x.
Proof.
  intros Hok Ha E Hx Hn Epg Hsl Hlk. pose proof (co_cache _ _ _ _ _ Hok) as Ek.
  destruct (co_slab _ _ _ _ _ _ Hok Ha) as (sl1 & E1 & Hkc & Hoksl). simplify_eq.
  destruct (slab_push k sl x Hoksl Hx Hn) as (Hpos & Hin & Hfree & Hok').
  assert (Hlen : free_list sl <= Z.of_nat (length (words sl))).
  { rewrite (so_len _ _ Hoksl). pose proof (so_fl _ _ Hoksl). pose proof (so_count _ _ Hoksl). lia. }
  unfold kmem_cache_free. rewrite (bind_Done _ _ _ _ _ (cache_live _ _ _ _ _ Hok)).
  erewrite bind_Done; cycle 1.
  { unfold slab_of. erewrite bind_Done; cycle 1.
    { unfold in_mm, zoom, page_get, deref. rewrite Epg. done. }
    unfold deref. rewrite Hsl. done. }
  replace (set_kmm (kmm s) s) with s by by destruct s.
  rewrite (bind_Done _ _ _ _ _ (slab_node_empty _ _ _ _ _ _ Hok Ha)).
  assert (Hfr : ∀ y, free_in k (cache_cpu k ++ p ++ f) (<[a := pushed x sl]> (slabs s)) y ↔
    free_in k (cache_cpu k ++ p ++ f) (slabs s) y ∨ y = x).
  { intros y. eapply free_in_push; [apply Hok|done|done|done|done|done|done|done]. }
  destruct (bool_decide_reflect (a ∈ cache_cpu k)) as [Hc|Hc].
  - rewrite (obj_push_ok s a sl x E Hpos Hlen). eexists _, p, f. split; [done|].
    split_and!; [|done|done].
    destruct (co_not_other _ _ _ _ _ _ Hok Hc) as [Hnp Hnf].
    eapply (cache_ok_step s); [done|exact Ha|done|exact Hok'|done..|apply Hok|done|done| | |done|done];
      intros; by right.
  - rewrite (bind_Done _ _ _ _ _ (spin_lock_ok s (kc sl) Hlk)).
    erewrite bind_Done by (by apply (is_slab_partial_ok (locked (kc sl) s) a (kc sl) sl k)).
    apply elem_of_app in Ha as [?|Ha]; [done|].
    assert (Hnd : NoDup (p ++ f)).
    { pose proof (co_nodup _ _ _ _ _ Hok) as Hnd. by apply NoDup_app in Hnd as (_ & _ & ?). }
    destruct (Z.ltb_spec (inuse sl) (count_per_slab k)) as [Hlt|Hge]; cbn [negb].
    + assert (Haf : a ∉ f).
      { intros Haf. pose proof (co_fulls _ _ _ _ _ Hok a sl Haf E). lia. }
      erewrite bind_Done by done.
      erewrite bind_Done by (by apply (obj_push_ok (locked (kc sl) s) a sl x)).
      rewrite (spin_unlock_ok s) by done.
      eexists _, p, f. split; [done|]. split_and!; [|done|done].
      eapply (cache_ok_step s); [done| |done|exact Hok'|done..|apply Hok|done|done| | | |].
      * apply elem_of_app. by right.
      * intros; by right.
      * intros; by right.
      * intros _. lia.
      * done.
    + assert (Haf : a ∈ f).
      { apply elem_of_app in Ha as [Ha|?]; [|done].
        pose proof (co_parts _ _ _ _ _ Hok a sl Ha E). lia. }
      apply list_elem_of_split in Haf as (pre & post & ->).
      assert (Hna : a ∉ p ++ pre ++ post).
      { rewrite app_assoc, <-Permutation_middle, <-app_assoc in Hnd.
        by apply NoDup_cons in Hnd as [? _]. }
      destruct (move_to_part (snodes s) (kc sl) a pre post p (co_fam _ _ _ _ _ Hok) Hna)
        as (h1 & h2 & E1' & E2' & Hf2 & Hsame).
      erewrite bind_Done; cycle 1.
      { erewrite bind_Done by (unfold snode_do, update; simpl; by rewrite E1').
        unfold snode_do, update. simpl. by rewrite E2'. }
      erewrite bind_Done by (by apply (obj_push_ok _ a sl x)).
      rewrite (spin_unlock_ok s) by done.
      assert (Hperm : (a :: p) ++ pre ++ post ≡ₚ p ++ pre ++ a :: post).
      { simpl. by rewrite !app_assoc, <-Permutation_middle. }
      eexists _, (a :: p), (pre ++ post). split; [done|]. split_and!; [|done|].
      * eapply (cache_ok_step s); [done| |done|exact Hok'|done..|exact Hf2|exact Hsame|done| | | |].
        -- apply elem_of_app. by right.
        -- intros b Hb. by apply elem_of_cons in Hb.
        -- intros b Hb. right. clear -Hb. set_solver.
        -- intros _. pose proof (so_fl _ _ Hoksl). pose proof (so_inuse _ _ Hoksl). lia.
        -- intros Hb. destruct Hna. clear -Hb. set_solver.
      * intros y. simpl. rewrite <-Hfr. apply free_in_perm. by rewrite Hperm.
Qed.

(** * Cache geometry *)

Lemma order_search_ok (fuel : nat) req o :
  0 <= o → o + Z.of_nat fuel <= 19 →
  let r := order_search fuel req (PGSIZE * 2 ^ o) o in
  o <= r <= o + Z.of_nat fuel ∧ (req <= PGSIZE * 2 ^ (o + Z.of_nat fuel) → req <= PGSIZE * 2 ^ r) ∧
  (o < r → PGSIZE * 2 ^ (r - 1) < req).
Proof.
  revert o. induction fuel as [|fuel IH]; intros o Ho Hf; simpl.
  { rewrite Z.add_0_r. split_and!; [lia|lia|done|lia]. }
  assert (Hp : 2 ^ (o + 1) = 2 * 2 ^ o) by (rewrite Z.pow_add_r by lia; lia).
  assert (Hb : 0 < 2 ^ o) by (apply Z.pow_pos_nonneg; lia).
  destruct (Z.ltb_spec (PGSIZE * 2 ^ o) req) as [Hlt|Hge].
  - assert (Hsz : 2 ^ (o + 1) <= 2 ^ 19) by (apply Z.pow_le_mono_r; lia).
    assert (Hnext : u32 (Z.shiftl (PGSIZE * 2 ^ o) 1) = PGSIZE * 2 ^ (o + 1)).
    { rewrite Z.shiftl_mul_pow2, Z.pow_1_r by lia. unfold PGSIZE in *.
      rewrite u32_small; [lia|]. change (2 ^ 19) with 524288 in Hsz. lia. }
    assert (Hu8 : u8 (o + 1) = o + 1) by (apply Z.mod_small; lia).
    rewrite Hnext, Hu8. destruct (IH (o + 1) ltac:(lia) ltac:(lia)) as (Hr & Hle & Hlo). simpl in *.
    replace (o + Z.of_nat (S fuel)) with (o + 1 + Z.of_nat fuel) by lia.
    split_and!; [lia|lia|done|]. intros _.
    destruct (decide (o + 1 < order_search fuel req (PGSIZE * 2 ^ (o + 1)) (o + 1))); [by apply Hlo|].
    assert (E : order_search fuel req (PGSIZE * 2 ^ (o + 1)) (o + 1) = o + 1) by lia.
    rewrite E. by replace (o + 1 - 1) with o by lia.
  - split_and!; [lia|lia|lia|lia].
Qed.

Lemma calc_slab_order_spec size :
  0 < size < 2 ^ 16 →
  let o := calc_slab_order size in
  0 <= o <= 8 ∧ 4 * size <= PGSIZE * 2 ^ o ∧ (0 < o → PGSIZE * 2 ^ (o - 1) < 4 * size).
Proof.
  intros Hs. unfold calc_slab_order, MIN_OBJ_COUNT_PER_PAGE. rewrite u32_small by lia.
  pose proof (order_search_ok 8 (size * 4) 0 ltac:(lia) ltac:(lia)) as (Hr & Hle & Hlo).
  replace (PGSIZE * 2 ^ 0) with PGSIZE in * by done. cbv zeta.
  set (r := order_search 8 (size * 4) PGSIZE 0) in *. split_and!; [lia|lia| |].
  - rewrite Z.mul_comm. apply Hle. change (PGSIZE * 2 ^ (0 + Z.of_nat 8)) with (4096 * 256). lia.
  - intros Ho. rewrite (Z.mul_comm 4). by apply Hlo.
Qed.

(** Geometry of a slab cache.  For object sizes from 9 to 8192 bytes the
    cache's object size is the next power of two (so at least [size]), the
    slab of [2^order] pages holds between 4 and 256 objects exactly, and
    their free list fits the slab's page. *)
Theorem cache_geometry_correct nm size fl :
  9 <= size <= 8192 →
  let k := cache_geometry nm size fl in
  csize k = 2 ^ Z.log2_up size ∧ size <= csize k ∧ 0 <= corder k <= 3 ∧
  4 <= count_per_slab k <= 256 ∧ count_per_slab k * csize k = PGSIZE * 2 ^ corder k ∧
  count_per_slab k <= Z.of_nat SLAB_WORDS.
Proof.
  intros Hs. pose proof (calc_slab_order_spec size ltac:(lia)) as (Ho & Hfit & Hmin). simpl.
  set (o := calc_slab_order size) in *. set (l := Z.log2_up size).
  assert (Hl : 4 <= l <= 13).
  { unfold l. split.
    - enough (3 < Z.log2_up size) by lia. apply Z.log2_up_lt_pow2; [lia|]. change (2 ^ 3) with 8. lia.
    - apply Z.log2_up_le_pow2; [lia|]. change (2 ^ 13) with 8192. lia. }
  assert (Hsz : 2 ^ Z.pred l < size <= 2 ^ l) by (apply Z.log2_up_spec; lia).
  assert (Hpw : 2 ^ l <= 2 ^ 13) by (apply Z.pow_le_mono_r; lia).
  assert (Hp0 : 0 < 2 ^ l) by (apply Z.pow_pos_nonneg; lia).
  assert (Ecs : u16 (next_power_of_2 size) = 2 ^ l).
  { rewrite next_power_of_2_log2 by lia. fold l. change (2 ^ 13) with 8192 in Hpw.
    rewrite u64_small by lia. by rewrite u16_small by lia. }
  rewrite Ecs. unfold PGSIZE in *.
  assert (Ho3 : o <= 3).
  { destruct (decide (o <= 3)); [done|]. specialize (Hmin ltac:(lia)).
    assert (2 ^ 3 <= 2 ^ (o - 1)) by (apply Z.pow_le_mono_r; lia). change (2 ^ 3) with 8 in *. lia. }
  (* the slab is a power of two at least four times the object *)
  assert (Hlo : l + 2 <= 12 + o).
  { assert (2 ^ Z.pred l < 2 ^ (12 + o - 2)).
    { apply Z.lt_le_trans with size; [lia|]. replace (12 + o - 2) with (10 + o) by lia.
      rewrite Z.pow_add_r by lia. change (2 ^ 10) with 1024. lia. }
    assert (Z.pred l < 12 + o - 2) by (apply (Z.pow_lt_mono_r_iff 2); lia). lia. }
  assert (Hhi : 12 + o <= l + 8).
  { destruct (decide (o = 0)) as [->|]; [lia|]. specialize (Hmin ltac:(lia)).
    assert (2 ^ (12 + o - 1) < 2 ^ (l + 2)).
    { apply Z.lt_le_trans with (4 * size); [|rewrite Z.pow_add_r by lia; change (2 ^ 2) with 4; lia].
      replace (12 + o - 1) with (12 + (o - 1)) by lia. rewrite Z.pow_add_r by lia. lia. }
    assert (12 + o - 1 < l + 2) by (apply (Z.pow_lt_mono_r_iff 2); lia). lia. }
  assert (Eq : Z.quot (Z.shiftl 1 o * 4096) (2 ^ l) = 2 ^ (12 + o - l)).
  { rewrite Z.shiftl_mul_pow2, Z.mul_1_l by lia. rewrite quot_div by lia.
    replace (2 ^ o * 4096) with (2 ^ (12 + o))
      by (rewrite Z.pow_add_r by lia; change (2 ^ 12) with 4096; lia).
    by rewrite <-Z.pow_sub_r by lia. }
  rewrite Eq.
  assert (H4 : 2 ^ 2 <= 2 ^ (12 + o - l)) by (apply Z.pow_le_mono_r; lia).
  assert (H8 : 2 ^ (12 + o - l) <= 2 ^ 8) by (apply Z.pow_le_mono_r; lia).
  change (2 ^ 2) with 4 in H4. change (2 ^ 8) with 256 in H8.
  rewrite u16_small by lia. change (Z.of_nat SLAB_WORDS) with 506.
  split_and!; [done|lia|lia|lia|lia|lia| |lia].
  rewrite <-Z.pow_add_r by lia. replace (12 + o - l + l) with (12 + o) by lia.
  rewrite Z.pow_add_r by lia. done.
Qed.

(** [kmalloc] of 1 to 8 bytes: the cache index [calculate_order - 4] is
    negative, wraps to almost [2^32] and indexes far outside the ten
    [kmalloc_caches]; from 9 to 8192 bytes the index is that of the smallest
    cache whose objects hold [size] bytes. *)
Theorem kmalloc_index size cpu fl s :
  (1 <= size <= 8 → kmalloc cpu size fl s = Fault) ∧
  (9 <= size <= 8192 → ∃ c, kmalloc cpu size fl s = kmem_cache_alloc cpu c s ∧ 0 <= c < 10 ∧
     size <= 16 * 2 ^ c ∧ (0 < c → 16 * 2 ^ (c - 1) < size)).
Proof.
  assert (Hbr : 1 <= size <= 8192 → kmalloc cpu size fl s =
    (c ← deref (λ _, kmalloc_cache (u32 (Z.log2_up size - 4))); kmem_cache_alloc cpu c) s).
  { intros Hs. unfold kmalloc. destruct (Z.ltb_spec size 1); [lia|].
    destruct (Z.ltb_spec 8192 size); [lia|]. simpl orb. cbv iota zeta.
    by rewrite (u32_small size), calculate_order_up by lia. }
  split; intros Hs; rewrite Hbr by lia.
  - assert (0 <= Z.log2_up size <= 3).
    { split; [apply Z.log2_up_nonneg|]. apply Z.log2_up_le_pow2; [lia|]. change (2 ^ 3) with 8. lia. }
    unfold kmalloc_cache, u32. rewrite <-(Z.mod_add _ 1), Z.mod_small by lia.
    unfold mbind, M_bind, deref. destruct (Z.ltb_spec (Z.log2_up size - 4 + 1 * 2 ^ 32) 10); [lia|done].
  - assert (Hl : 4 <= Z.log2_up size <= 13).
    { split.
      - enough (3 < Z.log2_up size) by lia. apply Z.log2_up_lt_pow2; [lia|]. change (2 ^ 3) with 8. lia.
      - apply Z.log2_up_le_pow2; [lia|]. change (2 ^ 13) with 8192. lia. }
    pose proof (Z.log2_up_spec size ltac:(lia)) as [H1 H2].
    exists (Z.log2_up size - 4). rewrite u32_small by lia. unfold kmalloc_cache.
    destruct (Z.ltb_spec (Z.log2_up size - 4) 10); [|lia].
    replace (Z.log2_up size) with (4 + (Z.log2_up size - 4)) in H2 at 1 by lia.
    rewrite Z.pow_add_r in H2 by lia. change (2 ^ 4) with 16 in H2.
    split_and!; [done|lia|lia|lia|]. intros Hc.
    replace (Z.pred (Z.log2_up size)) with (4 + (Z.log2_up size - 4 - 1)) in H1 by lia.
    rewrite Z.pow_add_r in H1 by lia. change (2 ^ 4) with 16 in H1. lia.
Qed.

(** * A small cache, for the witnesses *)

(** Two objects of 2048 bytes per slab; slab [a] keeps them in page [100 + a]. *)
Definition demo_objs (a : Z) : Z := KERNBASE + (100 + a) * PGSIZE.
Definition demo_slab (a : Z) : kslab :=
  KSlab 0 (demo_objs a) 0 (demo_objs a :: demo_objs a + 2048 :: replicate 504 0) 0.
(** One object of the slab is in use. *)
Definition demo_slab1 (a : Z) : kslab := popped (demo_slab a).
Definition demo_cache : kmem_cache := KMemCache [1; 2; 3; 4] [] 0 2048 0 2.
Definition demo_nodes : gmap sloc (node sloc) := {[
  CacheList := Node (CacheNode 0) (CacheNode 0); CacheNode 0 := Node CacheList CacheList;
  PartHead 0 := Node (SlabNode 5) (SlabNode 5); SlabNode 5 := Node (PartHead 0) (PartHead 0);
  FullHead 0 := Node (FullHead 0) (FullHead 0);
  SlabNode 1 := Node (SlabNode 1) (SlabNode 1); SlabNode 2 := Node (SlabNode 2) (SlabNode 2);
  SlabNode 3 := Node (SlabNode 3) (SlabNode 3); SlabNode 4 := Node (SlabNode 4) (SlabNode 4) ]}.
Definition demo_km : km :=
  KM (MM {[ 101 := Page PG_Slab 0 (Some 1) ]} ∅ 0 ∅ ∅) {[ 0 := demo_cache ]}
    {[ 1 := demo_slab1 1; 2 := demo_slab 2; 3 := demo_slab 3; 4 := demo_slab 4; 5 := demo_slab 5 ]}
    demo_nodes.

Lemma demo_grid a x : x ∈ grid demo_cache (demo_slab a) ↔ x = demo_objs a ∨ x = demo_objs a + 2048.
Proof.
  unfold grid. simpl. rewrite !elem_of_cons, elem_of_nil. split; [intros [?|[?|[]]]|intros [?|?]]; lia.
Qed.

Lemma demo_slab_ok a : slab_ok demo_cache (demo_slab a).
Proof.
  split; try done.
  - change (free_objs demo_cache (demo_slab a)) with [demo_objs a; demo_objs a + 2048].
    apply NoDup_cons. split; [|apply NoDup_singleton]. intros E%list_elem_of_singleton. lia.
  - intros x. rewrite demo_grid.
    change (free_objs demo_cache (demo_slab a)) with [demo_objs a; demo_objs a + 2048].
    rewrite !elem_of_cons, elem_of_nil. tauto.
Qed.

Lemma demo_slab1_ok a : slab_ok demo_cache (demo_slab1 a).
Proof. by destruct (slab_pop demo_cache (demo_slab a) (demo_slab_ok a)) as (x & _ & _ & _ & ?). Qed.

Lemma demo_slabs a sl :
  slabs demo_km !! a = Some sl → (a = 1 ∧ sl = demo_slab1 1) ∨ (1 < a <= 5 ∧ sl = demo_slab a).
Proof.
  simpl. intros E. repeat (apply lookup_insert_Some in E as [[<- <-]|[_ E]]; [by (left + right; split; [lia|])|]).
  apply lookup_singleton_Some in E as [<- <-]. by right.
Qed.

Lemma demo_slabs_grid a sl x :
  slabs demo_km !! a = Some sl → x ∈ grid demo_cache sl → demo_objs a <= x < demo_objs a + PGSIZE.
Proof.
  intros [[-> ->]|[_ ->]]%demo_slabs Hx.
  - change (grid demo_cache (demo_slab1 1)) with (grid demo_cache (demo_slab 1)) in Hx.
    apply demo_grid in Hx. unfold PGSIZE in *. lia.
  - apply demo_grid in Hx. unfold PGSIZE in *. lia.
Qed.

Lemma demo_cache_ok : cache_ok demo_km 0 demo_cache [5] [].
Proof.
  split.
  - done.
  - by exists CacheList.
  - unfold lists_of. split.
    + intros hd xs [[<- <-]|[_ [<- <-]%lookup_singleton_Some]]%lookup_insert_Some.
      * split; [|done]. apply NoDup_cons. split; [by intros ?%list_elem_of_singleton|apply NoDup_singleton].
      * split; [apply NoDup_singleton|done].
    + intros h1 h2 x1 x2 q [[<- <-]|[_ [<- <-]%lookup_singleton_Some]]%lookup_insert_Some
        [[<- <-]|[_ [<- <-]%lookup_singleton_Some]]%lookup_insert_Some; set_solver.
  - intros a Ha. simpl in Ha. rewrite !elem_of_cons, elem_of_nil in Ha.
    destruct Ha as [->|[->|[->|[->|[]]]]]; done.
  - done.
  - apply (bool_decide_unpack _). by vm_compute.
  - split.
    + intros a Ha. simpl in Ha. rewrite !elem_of_cons, elem_of_nil in Ha.
      destruct Ha as [->|[->|[->|[->|[->|[]]]]]]; eexists; (split; [done|]);
        (split; [done|]); apply demo_slab_ok || apply demo_slab1_ok.
    + intros a b sla slb x _ _ Ea Eb Hx Hy.
      pose proof (demo_slabs_grid _ _ _ Ea Hx). pose proof (demo_slabs_grid _ _ _ Eb Hy).
      unfold demo_objs, PGSIZE in *. lia.
  - intros a sl Ha E. apply demo_slabs in E as [[-> ->]|[_ ->]]; done.
  - intros a sl Ha. by apply elem_of_nil in Ha.
Qed.

Lemma kmem_cache_alloc_correct_witness :
  ∃ x s' p' f', kmem_cache_alloc 1 0 demo_km = Done x s' ∧ cache_ok s' 0 demo_cache p' f'.
Proof.
  destruct (kmem_cache_alloc_correct demo_km 0 demo_cache [5] [] 1 2 (demo_slab 2) demo_cache_ok)
    as (x & s' & p' & f' & E & Hok & _); [lia|done|done| |by left|].
  - apply not_elem_of_empty.
  - by exists x, s', p', f'.
Defined.

Lemma kmem_cache_free_correct_witness :
  ∃ s' p' f', kmem_cache_free 0 (demo_objs 1) demo_km = Done tt s' ∧ cache_ok s' 0 demo_cache p' f' ∧
    free_in demo_cache ([1; 2; 3; 4] ++ p' ++ f') (slabs s') (demo_objs 1).
Proof.
  destruct (kmem_cache_free_correct demo_km 0 demo_cache [5] [] 1 (demo_slab1 1) (demo_objs 1)
    (Page PG_Slab 0 (Some 1)) demo_cache_ok) as (s' & p' & f' & E & Hok & _ & Hfr).
  - by left.
  - done.
  - change (grid demo_cache (demo_slab1 1)) with (grid demo_cache (demo_slab 1)). apply demo_grid. by left.
  - change (free_objs demo_cache (demo_slab1 1)) with [demo_objs 1 + 2048].
    intros H%list_elem_of_singleton. lia.
  - done.
  - done.
  - apply not_elem_of_empty.
  - exists s', p', f'. split_and!; [done..|]. apply Hfr. by right.
Defined.

Lemma cache_geometry_witness :
  count_per_slab (cache_geometry [] 1025 0) * csize (cache_geometry [] 1025 0) = PGSIZE * 2.
Proof.
  destruct (cache_geometry_correct [] 1025 0 ltac:(lia)) as (_ & _ & _ & _ & E & _).
  exact E.
Defined.

Lemma kmalloc_index_witness : kmalloc 0 8 0 demo_km = Fault.
Proof. apply (kmalloc_index 8 0 0 demo_km). lia. Defined.
