(* ===== verification/PageAlloc.v ===== *)
(** What the kernel relies on when it calls [__alloc_page]: an interface, and
    the proof that the buddy allocator of mm/mm.c provides it.

    [page_rep a X] relates an allocator state to the set [X] of addresses of
    its free pages.  An allocation takes one page out of [X]; without a free
    page the allocator runs into [page_push(NULL)]. *)
From S2P Require Import Prelude ListLib StringLib Buddy.

(** The physical pages the allocator manages. *)
Definition phys_page (a : Z) : Prop := ∃ q, 0 <= q < ALL_PFN ∧ a = KERNBASE + PGSIZE * q.

Class PageAlloc (A : Type) := {
  alloc_zeroed : M A Z;
  page_rep : A → gset Z → Prop;
}.

Class PageAllocLaws (A : Type) `{PageAlloc A} : Prop := {
  page_rep_phys a X p : page_rep a X → p ∈ X → phys_page p;
  alloc_zeroed_ok a X : page_rep a X → X ≠ ∅ →
    ∃ p a', alloc_zeroed a = Done p a' ∧ p ∈ X ∧ page_rep a' (X ∖ {[p]});
  alloc_zeroed_none a : page_rep a ∅ → alloc_zeroed a = Fault;
}.

(** * The buddy allocator *)

Definition ram_mapped (s : mm) : Prop :=
  ∀ b, KERNBASE <= b < KERNBASE + AVAILABLE_MEMORY → is_Some (ram s !! b).

Record buddy_rep (s : mm) (X : gset Z) : Prop := {
  br_lists : ∃ F, buddy_ok F s ∧ ∀ a, a ∈ X ↔ ∃ q, a = get_page_addr q ∧ is_free F q;
  br_lock : buddy_lock ∉ mm_locks s;
  br_ram : ram_mapped s;
}.

#[global] Instance buddy_PageAlloc : PageAlloc mm := {
  alloc_zeroed := __alloc_page 0;
  page_rep := buddy_rep;
}.

Lemma is_free_range F s q : buddy_ok F s → is_free F q → 0 <= q < ALL_PFN.
Proof.
  intros Ho (l & p & Hb & Hq). destruct (bo_align _ _ Ho l p Hb) as (? & ? & ?).
  unfold in_block in Hq. lia.
Qed.

Lemma get_page_addr_inj p q :
  0 <= p < ALL_PFN → 0 <= q < ALL_PFN → get_page_addr p = get_page_addr q → p = q.
Proof.
  intros Hp Hq E. destruct (page_addr_roundtrip p Hp) as [_ Ep].
  destruct (page_addr_roundtrip q Hq) as [_ Eq]. unfold PGSIZE in *. lia.
Qed.

(** [buddy_alloc(0)] with a free page, and without. *)
Lemma buddy_alloc_one F s q :
  buddy_ok F s → buddy_lock ∉ mm_locks s → is_free F q →
  ∃ p F' h, buddy_alloc 0 s = Done (Some p) (set_lists h s) ∧ buddy_ok F' (set_lists h s) ∧
    0 <= p < ALL_PFN ∧ (∀ r, is_free F r ↔ is_free F' r ∨ r = p) ∧ ¬ is_free F' p.
Proof.
  intros Ho Hlk (l0 & p0 & Hb0 & _).
  destruct (alloc_loop_ok F (set_locks ({[buddy_lock]} ∪ mm_locks s) s) 0 0 (Z.to_nat (MAX_LEVEL - 0)))
    as [[Hall _]|(l & p & F' & h & Hb & _ & _ & E & Ho' & Hal & Hfree & Hdis)].
  - by apply (buddy_ok_ext F s).
  - lia.
  - unfold MAX_LEVEL. lia.
  - exfalso. pose proof (bo_level _ _ _ _ Ho Hb0) as Hl. destruct Hb0 as (xs & Ex & Hin).
    rewrite Hall in Ex by done. simplify_eq. by apply elem_of_nil in Hin.
  - apply with_lock in E; [|done]. exists p, F', h.
    assert (Hblk : ∀ r, in_block 0 p r ↔ r = p) by (intros r; unfold in_block; rewrite Z.pow_0_r; lia).
    split_and!.
    + done.
    + by apply (buddy_ok_ext F' (set_lists h (set_locks ({[buddy_lock]} ∪ mm_locks s) s))).
    + destruct Hal as (? & _ & ?). lia.
    + destruct Hal as (? & _ & ?). rewrite Z.pow_0_r in *. lia.
    + intros r. rewrite Hfree, Hblk. done.
    + apply Hdis. by apply Hblk.
Qed.

Lemma buddy_alloc_empty F s :
  buddy_ok F s → buddy_lock ∉ mm_locks s → (∀ q, ¬ is_free F q) → buddy_alloc 0 s = Done None s.
Proof.
  intros Ho Hlk Hno.
  destruct (alloc_loop_ok F (set_locks ({[buddy_lock]} ∪ mm_locks s) s) 0 0 (Z.to_nat (MAX_LEVEL - 0)))
    as [[_ E]|(l & p & F' & h & Hb & Hl & _)].
  - by apply (buddy_ok_ext F s).
  - lia.
  - unfold MAX_LEVEL. lia.
  - replace s with (set_lists (lists s) s) at 2 by by destruct s. apply with_lock; [done|exact E].
  - destruct (Hno p). exists l, p. split; [done|]. pose proof (pow2_pos l Hl). unfold in_block. lia.
Qed.

(** The buddy allocator satisfies the interface. *)
#[global] Instance buddy_PageAllocLaws : PageAllocLaws mm.
Proof.
  split; simpl.
  - intros s X a [(F & Ho & HX) _ _] (q & -> & Hq)%HX. pose proof (is_free_range F s q Ho Hq) as Hr.
    exists q. split; [done|]. by apply page_addr_roundtrip.
  - intros s X [(F & Ho & HX) Hlk Hram] HX0. apply set_choose_L in HX0 as (a0 & (q0 & _ & Hq0)%HX).
    destruct (buddy_alloc_one F s q0 Ho Hlk Hq0) as (p & F' & h & E & Ho' & Hp & Hfree & Hno).
    destruct (bo_pages _ _ Ho p Hp) as [pg Epg]. destruct (page_addr_roundtrip p Hp) as [_ Hpa].
    assert (Hm : mapped (ram s) (get_page_addr p) PGSIZE).
    { intros b Hb. apply Hram. rewrite Hpa in Hb. pose proof ALL_PFN_val.
      change AVAILABLE_MEMORY with (PGSIZE * 32768). unfold PGSIZE in *. lia. }
    set (s1 := set_pages (<[p := set_count (atomic_inc (count pg)) pg]> (pages s)) (set_lists h s)).
    set (R := wr (get_page_addr p) (replicate (Z.to_nat PGSIZE) (u8 0)) (ram s)).
    assert (E1 : alloc_page 0 s = Done p s1).
    { unfold alloc_page. rewrite (bind_Done _ _ _ _ _ E). erewrite bind_Done; [done|].
      unfold page_push, page_mod, update. simpl. by rewrite Epg. }
    assert (E2 : memset (get_page_addr p) 0 PGSIZE (ram s1) = Done (get_page_addr p) R).
    { apply memset_ok; [unfold PGSIZE; lia|exact Hm]. }
    assert (HR : ∀ b, is_Some (ram s !! b) → is_Some (R !! b)).
    { intros b Hb. unfold R. rewrite wr_lookup. case_decide as Hd; [|done].
      rewrite length_replicate in Hd. rewrite lookup_replicate_2; [by eexists|]. lia. }
    clearbody R. exists (get_page_addr p), (set_ram R s1). split; [|split].
    + unfold __alloc_page. rewrite (bind_Done _ _ _ _ _ E1). cbv zeta.
      rewrite (bind_Done _ _ _ (get_page_addr p) (set_ram R s1)); [reflexivity|].
      unfold zoom. rewrite E2. reflexivity.
    + apply HX. exists p. split; [done|]. apply Hfree. by right.
    + split.
      * exists F'. split.
        -- eapply buddy_ok_ext; [| |exact Ho']; [done|]. intros r Hr. simpl in *.
           destruct (decide (r = p)) as [->|]; [rewrite lookup_insert_eq; by eexists|].
           by rewrite lookup_insert_ne.
        -- intros a. rewrite elem_of_difference, elem_of_singleton, HX. split.
           ++ intros [(q & -> & Hq) Hne]. exists q. split; [done|]. apply Hfree in Hq as [?| ->]; done.
           ++ intros (q & -> & Hq). split; [exists q; split; [done|]; apply Hfree; by left|].
              intros Eq. apply get_page_addr_inj in Eq; [by subst| |done].
              eapply is_free_range; [exact Ho|]. apply Hfree. by left.
      * done.
      * intros b Hb. simpl. by apply HR, Hram.
  - intros s [(F & Ho & HX) Hlk _]. unfold __alloc_page, alloc_page, mbind, M_bind.
    rewrite (buddy_alloc_empty F s Ho Hlk); [done|].
    intros q Hq. assert (Hin : get_page_addr q ∈ (∅ : gset Z)) by (apply HX; eauto).
    by apply not_elem_of_empty in Hin.
Qed.

(** * A fixed stock of pages, handed out in order. *)

Record page_stock := PageStock { stock_pages : list Z }.

#[global] Instance page_stock_PageAlloc : PageAlloc page_stock := {
  alloc_zeroed := λ s, match stock_pages s with [] => Fault | p :: l => Done p (PageStock l) end;
  page_rep := λ s X, X = list_to_set (stock_pages s) ∧ NoDup (stock_pages s) ∧ ∀ p, p ∈ stock_pages s → phys_page p;
}.

#[global] Instance page_stock_PageAllocLaws : PageAllocLaws page_stock.
Proof.
  split; simpl.
  - intros s X p (-> & _ & Hp) Hin. apply Hp. by apply elem_of_list_to_set in Hin.
  - intros [[|p l]] X (-> & Hnd & Hp) Hne; simpl in *; [done|]. apply NoDup_cons in Hnd as [Hn Hnd].
    exists p, (PageStock l). split; [done|]. split; [set_solver|]. split_and!; [set_solver|done|].
    intros q Hq. apply Hp. by right.
  - intros [l] (E & _ & _); simpl in *. destruct l as [|p l]; [done|]. simpl in E. set_solver.
Qed.
