(* ===== verification/Riscv.v ===== *)
(** The registers of a hart (include/riscv.h) and the machine-mode start
    (boot/start.c).

    Every control and status register is a cell of its own that holds a 64-bit
    word: [sstatus] and [sie] being windows of [mstatus] and [mie] plays no part in
    the code between two privilege changes.  [mmu] records the writes of [satp] and
    the TLB flushes in order.  The accessors work on any state with a hart in it
    ([HasHart]). *)
From S2P Require Import Prelude.

Inductive csr :=
  | mhartid | mstatus | mepc | sstatus | sscratch | sip | sie | mie | sepc | medeleg | mideleg | stvec | stimecmp
  | menvcfg | pmpcfg0 | pmpaddr0 | satp | scause | stval | mcounteren | time.
#[global] Instance csr_eq_dec : EqDecision csr.
Proof. solve_decision. Defined.

Inductive mmu_event := SatpWrite (v : Z) | SfenceVma.

Record hart := Hart { csrs : csr → Z; tp : Z; mmu : list mmu_event }.

(** Access to the hart in a larger state. *)
Class HasHart (S : Type) := { hart_of : S → hart; put_hart : hart → S → S }.
Class HasHartLaws (S : Type) `{HasHart S} : Prop := {
  hart_of_put h s : hart_of (put_hart h s) = h;
  put_put_hart h h' s : put_hart h (put_hart h' s) = put_hart h s;
  put_hart_of s : put_hart (hart_of s) s = s;
}.
#[global] Instance hart_HasHart : HasHart hart := { hart_of := λ h, h; put_hart := λ h _, h }.
#[global] Instance hart_HasHartLaws : HasHartLaws hart.
Proof. by split. Qed.

Definition upd (r : csr) (v : Z) (f : csr → Z) : csr → Z := λ q, if decide (q = r) then v else f q.
Definition set_csr (r : csr) (v : Z) (h : hart) : hart :=
  Hart (upd r v (csrs h)) (tp h) (if decide (r = satp) then mmu h ++ [SatpWrite v] else mmu h).

Definition MSTATUS_MPP_MASK : Z := 3 * 2 ^ 11.
Definition MSTATUS_MPP_S : Z := 2 ^ 11.
Definition SSTATUS_SUM : Z := 2 ^ 18.
Definition SSTATUS_SPP : Z := 2 ^ 8.
Definition SSTATUS_SPIE : Z := 2 ^ 5.
Definition SSTATUS_SIE : Z := 2 ^ 1.
Definition SIE_SEIE : Z := 2 ^ 9.
Definition SIE_STIE : Z := 2 ^ 5.
Definition SIE_SSIE : Z := 2 ^ 1.
Definition MIE_STIE : Z := 2 ^ 5.

(** [~x] on a 64-bit word *)
Definition not64 (x : Z) : Z := u64 (Z.lnot x).

Section access.
Context {S : Type} `{HasHart S}.
Implicit Types s : S.

Definition csrr (r : csr) : M S Z := gets (λ s, csrs (hart_of s) r).
Definition csrw (r : csr) (x : Z) : M S unit := modify (λ s, put_hart (set_csr r (u64 x) (hart_of s)) s).

Definition r_mhartid : M S Z := csrr mhartid.
Definition r_mstatus : M S Z := csrr mstatus.
Definition w_mstatus (x : Z) : M S unit := csrw mstatus x.
Definition w_mepc (x : Z) : M S unit := csrw mepc x.
Definition r_sstatus : M S Z := csrr sstatus.
Definition w_sstatus (x : Z) : M S unit := csrw sstatus x.
Definition r_sscratch : M S Z := csrr sscratch.
Definition w_sscratch (x : Z) : M S unit := csrw sscratch x.
Definition r_sip : M S Z := csrr sip.
Definition w_sip (x : Z) : M S unit := csrw sip x.
Definition r_sie : M S Z := csrr sie.
Definition w_sie (x : Z) : M S unit := csrw sie x.
Definition r_mie : M S Z := csrr mie.
Definition w_mie (x : Z) : M S unit := csrw mie x.
Definition w_sepc (x : Z) : M S unit := csrw sepc x.
Definition r_sepc : M S Z := csrr sepc.
Definition r_medeleg : M S Z := csrr medeleg.
Definition w_medeleg (x : Z) : M S unit := csrw medeleg x.
Definition r_mideleg : M S Z := csrr mideleg.
Definition w_mideleg (x : Z) : M S unit := csrw mideleg x.
Definition w_stvec (x : Z) : M S unit := csrw stvec x.
Definition r_stvec : M S Z := csrr stvec.
Definition r_stimecmp : M S Z := csrr stimecmp.
Definition w_stimecmp (x : Z) : M S unit := csrw stimecmp x.
Definition r_menvcfg : M S Z := csrr menvcfg.
Definition w_menvcfg (x : Z) : M S unit := csrw menvcfg x.
Definition w_pmpcfg0 (x : Z) : M S unit := csrw pmpcfg0 x.
Definition w_pmpaddr0 (x : Z) : M S unit := csrw pmpaddr0 x.
Definition w_satp (x : Z) : M S unit := csrw satp x.
Definition r_satp : M S Z := csrr satp.
Definition r_scause : M S Z := csrr scause.
Definition r_stval : M S Z := csrr stval.
Definition w_mcounteren (x : Z) : M S unit := csrw mcounteren x.
Definition r_mcounteren : M S Z := csrr mcounteren.
Definition r_time : M S Z := csrr time.

Definition intr_on : M S unit := x ← r_sstatus; w_sstatus (Z.lor x SSTATUS_SIE).
Definition intr_off : M S unit := x ← r_sstatus; w_sstatus (Z.land x (not64 SSTATUS_SIE)).
Definition intr_get : M S bool := x ← r_sstatus; mret (negb (Z.land x SSTATUS_SIE =? 0)).

Definition r_tp : M S Z := gets (λ s, tp (hart_of s)).
Definition w_tp (x : Z) : M S unit := modify (λ s, put_hart (Hart (csrs (hart_of s)) (u64 x) (mmu (hart_of s))) s).
Definition sfence_vma : M S unit :=
  modify (λ s, put_hart (Hart (csrs (hart_of s)) (tp (hart_of s)) (mmu (hart_of s) ++ [SfenceVma])) s).

(** kernel/proc.c: an [int] *)
Definition cpuid : M S Z := x ← r_tp; mret (i32 x).

(** * boot/start.c *)

Definition timerinit : M S unit :=
  x ← r_mie; w_mie (Z.lor x MIE_STIE);;
  x ← r_menvcfg; w_menvcfg (Z.lor x (2 ^ 63));;
  x ← r_mcounteren; w_mcounteren (Z.lor x 2);;
  t ← r_time; w_stimecmp (t + 1000000).

(** Up to the [mret]; [main] is its address. *)
Definition start (main : Z) : M S unit :=
  x ← r_mstatus;
  w_mstatus (Z.lor (Z.land x (not64 MSTATUS_MPP_MASK)) MSTATUS_MPP_S);;
  w_mepc main;;
  w_satp 0;;
  w_medeleg 65535;;
  w_mideleg 65535;;
  x ← r_sie; w_sie (Z.lor (Z.lor (Z.lor x SIE_SEIE) SIE_STIE) SIE_SSIE);;
  w_pmpaddr0 (2 ^ 54 - 1);;
  w_pmpcfg0 15;;
  timerinit;;
  id ← r_mhartid; w_tp (i32 id).
End access.

(** * Facts *)

(** [g] agrees with [f] outside [l]. *)
Definition same_except (l : list csr) (f g : csr → Z) : Prop := ∀ r, r ∉ l → g r = f r.
Definition words (f : csr → Z) : Prop := ∀ r, is_u64 (f r).

Lemma upd_eq r v f : upd r v f r = v.
Proof. unfold upd. by rewrite decide_True. Qed.
Lemma upd_ne r q v f : q ≠ r → upd r v f q = f q.
Proof. intros Hne. unfold upd. by rewrite decide_False. Qed.
Lemma upd_words r v f : words f → is_u64 v → words (upd r v f).
Proof. intros Hf Hv q. unfold upd. by case_decide. Qed.
Lemma u64_is x : is_u64 (u64 x).
Proof. apply Z.mod_pos_bound. lia. Qed.
Create HintDb riscv.
#[export] Hint Resolve upd_words u64_is : riscv.

Lemma not64_bit x i : 0 <= i < 64 → Z.testbit (not64 x) i = negb (Z.testbit x i).
Proof.
  intros Hi. unfold not64, u64. rewrite Z.mod_pow2_bits_low by lia. apply Z.lnot_spec. lia.
Qed.
Lemma is_u64_bits x i : is_u64 x → 64 <= i → Z.testbit x i = false.
Proof. intros Hx Hi. rewrite <-(Z.mod_small x (2 ^ 64)) by done. by apply Z.mod_pow2_bits_high. Qed.
Lemma clear_bits_u64 x m : is_u64 x → is_u64 (Z.land x m).
Proof.
  intros Hx. unfold is_u64. replace (Z.land x m) with (u64 (Z.land x m)); [apply u64_is|].
  apply Z.bits_inj'. intros i Hi. unfold u64. destruct (decide (i < 64)); [by apply Z.mod_pow2_bits_low|].
  rewrite Z.mod_pow2_bits_high by lia. by rewrite Z.land_spec, is_u64_bits by (done || lia).
Qed.
Lemma set_bits_u64 x y : is_u64 x → is_u64 y → is_u64 (Z.lor x y).
Proof.
  intros Hx Hy. unfold is_u64. replace (Z.lor x y) with (u64 (Z.lor x y)); [apply u64_is|].
  apply Z.bits_inj'. intros i Hi. unfold u64. destruct (decide (i < 64)); [by apply Z.mod_pow2_bits_low|].
  rewrite Z.mod_pow2_bits_high by lia. by rewrite Z.lor_spec, !is_u64_bits by (done || lia).
Qed.

(** [x & ~(1 << k)] and [x | (1 << k)], bit by bit. *)
Lemma clear_bit x k i : is_u64 x → 0 <= k < 64 → 0 <= i →
  Z.testbit (Z.land x (not64 (2 ^ k))) i = if decide (i = k) then false else Z.testbit x i.
Proof.
  intros Hx Hk Hi. rewrite Z.land_spec. destruct (decide (i < 64)) as [Hl|Hl].
  - rewrite not64_bit, Z.pow2_bits_eqb by lia. case_decide; destruct (Z.eqb_spec k i); try lia; by destruct (Z.testbit x i).
  - rewrite decide_False by lia. by rewrite is_u64_bits by (done || lia).
Qed.
Lemma set_bit x k i : 0 <= k → 0 <= i → Z.testbit (Z.lor x (2 ^ k)) i = if decide (i = k) then true else Z.testbit x i.
Proof.
  intros Hk Hi. rewrite Z.lor_spec, Z.pow2_bits_eqb by lia. case_decide; destruct (Z.eqb_spec k i); try lia; by destruct (Z.testbit x i).
Qed.
Lemma test_bit x k : 0 <= k → (Z.land x (2 ^ k) =? 0) = negb (Z.testbit x k).
Proof.
  intros Hk. destruct (Z.testbit x k) eqn:E; simpl.
  - apply Z.eqb_neq. intros H0. assert (Hb : Z.testbit (Z.land x (2 ^ k)) k = true) by (by rewrite Z.land_spec, E, Z.pow2_bits_true).
    by rewrite H0, Z.bits_0 in Hb.
  - apply Z.eqb_eq. apply Z.bits_inj'. intros i Hi. rewrite Z.land_spec, Z.pow2_bits_eqb, Z.bits_0 by lia.
    destruct (Z.eqb_spec k i) as [->|]; [by rewrite E|apply andb_false_r].
Qed.

(** ** Sequences of writes *)

Section writes.
Context {S : Type} `{HasHartLaws S}.
Implicit Types s : S.

Definition write1 (w : csr * Z) s : S := put_hart (set_csr w.1 (u64 w.2) (hart_of s)) s.
Definition writes (l : list (csr * Z)) s : S := foldl (λ s w, write1 w s) s l.
(** The last value written to [r]. *)
Definition last_write (r : csr) (l : list (csr * Z)) (v : Z) : Z :=
  foldl (λ v w, if decide (r = w.1) then u64 w.2 else v) v l.

Lemma csrs_writes l s r : csrs (hart_of (writes l s)) r = last_write r l (csrs (hart_of s) r).
Proof.
  revert s. induction l as [|w l IH]; intros s; [done|]. simpl. rewrite IH. f_equal. unfold write1. by rewrite hart_of_put.
Qed.
Lemma tp_writes l s : tp (hart_of (writes l s)) = tp (hart_of s).
Proof. revert s. induction l as [|w l IH]; intros s; [done|]. simpl. rewrite IH. unfold write1. by rewrite hart_of_put. Qed.
Definition mmu_writes (l : list (csr * Z)) : list mmu_event :=
  omap (λ w, if decide (w.1 = satp) then Some (SatpWrite (u64 w.2)) else None) l.
Lemma mmu_of_writes l s : mmu (hart_of (writes l s)) = mmu (hart_of s) ++ mmu_writes l.
Proof.
  revert s. induction l as [|w l IH]; intros s; simpl; [by rewrite app_nil_r|]. rewrite IH. unfold write1. rewrite hart_of_put. simpl.
  case_decide; [by rewrite <-app_assoc|done].
Qed.
Lemma last_write_other r l v : r ∉ l.*1 → last_write r l v = v.
Proof.
  induction l as [|[q x] l IH]; intros Hr; [done|]. simpl in *. apply not_elem_of_cons in Hr as [Hne Hr].
  rewrite decide_False by done. by apply IH.
Qed.
Lemma csrw_writes {A} r x l s (k : unit → M S A) : (csrw r x ≫= k) (writes l s) = k tt (writes (l ++ [(r, x)]) s).
Proof. unfold writes. by rewrite foldl_app. Qed.
Lemma csrw_first {A} r x s (k : unit → M S A) : (csrw r x ≫= k) s = k tt (writes [(r, x)] s).
Proof. done. Qed.
Lemma bind_assoc {A B D} (m : M S A) (f : A → M S B) (k : B → M S D) s : ((m ≫= f) ≫= k) s = (m ≫= λ x, f x ≫= k) s.
Proof. unfold mbind, M_bind. by destruct (m s). Qed.
Lemma csrr_bind {A} r s (k : Z → M S A) : (csrr r ≫= k) s = k (csrs (hart_of s) r) s.
Proof. done. Qed.
Lemma writes_words l s : words (csrs (hart_of s)) → words (csrs (hart_of (writes l s))).
Proof.
  intros Hw r. rewrite csrs_writes. revert Hw. generalize (csrs (hart_of s)). intros f Hf. generalize (f r) (Hf r).
  induction l as [|w l IH]; intros v Hv; [done|]. simpl. apply IH. case_decide; [apply u64_is|done].
Qed.
End writes.

Lemma writes_put {S} `{HasHartLaws S} l (s : S) : writes l s = put_hart (writes l (hart_of s)) s.
Proof.
  revert s. induction l as [|w l IH]; intros s; [by rewrite <-(put_hart_of s) at 1|].
  change (writes (w :: l) s) with (writes l (write1 w s)). rewrite IH. unfold write1 at 1 2. rewrite hart_of_put, put_put_hart. done.
Qed.

(** The same for a hart on its own. *)
Lemma csrs_writes_h l (h : hart) r : csrs (writes l h) r = last_write r l (csrs h r).
Proof. exact (csrs_writes l h r). Qed.
Lemma mmu_writes_h l (h : hart) : mmu (writes l h) = mmu h ++ mmu_writes l.
Proof. exact (mmu_of_writes l h). Qed.

Section start.
Variables (main : Z) (h : hart).
Context (Hw : words (csrs h)).

(** The writes of [start], in order. *)
Definition start_writes : list (csr * Z) :=
  [(mstatus, Z.lor (Z.land (csrs h mstatus) (not64 MSTATUS_MPP_MASK)) MSTATUS_MPP_S); (mepc, main); (satp, 0); (medeleg, 65535);
   (mideleg, 65535); (sie, Z.lor (Z.lor (Z.lor (csrs h sie) SIE_SEIE) SIE_STIE) SIE_SSIE); (pmpaddr0, 2 ^ 54 - 1); (pmpcfg0, 15);
   (mie, Z.lor (csrs h mie) MIE_STIE); (menvcfg, Z.lor (csrs h menvcfg) (2 ^ 63)); (mcounteren, Z.lor (csrs h mcounteren) 2);
   (stimecmp, csrs h time + 1000000)].

Lemma start_run : start main h = Done tt (Hart (csrs (writes start_writes h)) (u64 (i32 (csrs h mhartid))) (mmu (writes start_writes h))).
Proof.
  unfold start, timerinit. unfold r_mstatus, w_mstatus, w_mepc, w_satp, w_medeleg, w_mideleg, r_sie, w_sie, w_pmpaddr0, w_pmpcfg0,
    r_mie, w_mie, r_menvcfg, w_menvcfg, r_mcounteren, w_mcounteren, r_time, w_stimecmp, r_mhartid.
  change h with (writes [] h) at 1.
  repeat first [rewrite csrr_bind, csrs_writes, last_write_other by (simpl; set_solver) | rewrite csrw_writes; cbn [app] | rewrite bind_assoc].
  reflexivity.
Qed.

Lemma u64_word x : is_u64 x → u64 x = x.
Proof. intros Hx. by apply Z.mod_small. Qed.

Lemma start_mstatus i : 0 <= i → Z.testbit (last_write mstatus start_writes (csrs h mstatus)) i =
  if decide (i = 11) then true else if decide (i = 12) then false else Z.testbit (csrs h mstatus) i.
Proof.
  intros Hi. change (last_write mstatus start_writes _) with (u64 (Z.lor (Z.land (csrs h mstatus) (not64 MSTATUS_MPP_MASK)) MSTATUS_MPP_S)).
  rewrite u64_word by (apply set_bits_u64; [by apply clear_bits_u64, Hw|done]).
  unfold MSTATUS_MPP_S. rewrite set_bit by lia. case_decide; [done|]. rewrite Z.land_spec.
  destruct (decide (i < 64)); [|rewrite decide_False by lia; by rewrite is_u64_bits by (apply Hw || lia)].
  rewrite not64_bit by lia. change MSTATUS_MPP_MASK with (Z.lor (2 ^ 11) (2 ^ 12)).
  rewrite Z.lor_spec, !Z.pow2_bits_eqb by lia.
  case_decide; destruct (Z.eqb_spec 11 i), (Z.eqb_spec 12 i); try lia; by destruct (Z.testbit (csrs h mstatus) i).
Qed.

Lemma start_sie i : 0 <= i → Z.testbit (last_write sie start_writes (csrs h sie)) i =
  if decide (i = 1 ∨ i = 5 ∨ i = 9) then true else Z.testbit (csrs h sie) i.
Proof.
  intros Hi. change (last_write sie start_writes _) with (u64 (Z.lor (Z.lor (Z.lor (csrs h sie) SIE_SEIE) SIE_STIE) SIE_SSIE)).
  rewrite u64_word by (repeat apply set_bits_u64; try done; apply Hw).
  unfold SIE_SSIE, SIE_STIE, SIE_SEIE. rewrite !set_bit by lia. repeat case_decide; try done; lia.
Qed.

Lemma start_mie i : 0 <= i → Z.testbit (last_write mie start_writes (csrs h mie)) i =
  if decide (i = 5) then true else Z.testbit (csrs h mie) i.
Proof.
  intros Hi. change (last_write mie start_writes _) with (u64 (Z.lor (csrs h mie) MIE_STIE)).
  rewrite u64_word by (apply set_bits_u64; [apply Hw|done]). unfold MIE_STIE. by rewrite set_bit.
Qed.

(** After [start] the [mret] goes to [main] in supervisor mode without paging,
    with all traps delegated and the timer armed; no other register changes. *)
Lemma start_ok : ∃ h', start main h = Done tt h' ∧ tp h' = u64 (i32 (csrs h mhartid)) ∧
  (∀ i, 0 <= i → Z.testbit (csrs h' mstatus) i = if decide (i = 11) then true else if decide (i = 12) then false else Z.testbit (csrs h mstatus) i) ∧
  csrs h' mepc = u64 main ∧ csrs h' satp = 0 ∧ csrs h' medeleg = 65535 ∧ csrs h' mideleg = 65535 ∧
  (∀ i, 0 <= i → Z.testbit (csrs h' sie) i = if decide (i = 1 ∨ i = 5 ∨ i = 9) then true else Z.testbit (csrs h sie) i) ∧
  (∀ i, 0 <= i → Z.testbit (csrs h' mie) i = if decide (i = 5) then true else Z.testbit (csrs h mie) i) ∧
  csrs h' stimecmp = u64 (csrs h time + 1000000) ∧ mmu h' = mmu h ++ [SatpWrite 0] ∧
  same_except (start_writes.*1) (csrs h) (csrs h').
Proof.
  pose proof start_run as E. pose proof (λ r, csrs_writes_h start_writes h r) as L. pose proof (mmu_writes_h start_writes h) as Lm.
  revert E L Lm. generalize (csrs (writes start_writes h)), (mmu (writes start_writes h)). intros f m E L ->.
  eexists. split; [exact E|]. split; [reflexivity|]. cbn [csrs mmu].
  rewrite !L. repeat (split; [by first [apply start_mstatus|apply start_sie|apply start_mie|reflexivity]|]).
  intros r Hr. rewrite L. by apply last_write_other.
Qed.
End start.
