(* ===== verification/Vm.v ===== *)
(** Page tables: kernel/vm.c with the Sv39 macros of include/riscv.h.

    Physical memory is seen here as 64-bit words at multiples of 8; page tables
    are allocated through the interface of PageAlloc (any instance will do,
    the buddy allocator is one).  The abstract view of a page table is the
    family [T] of its table pages, indexed by level and virtual prefix, and
    [pte_of], the leaf entry of a virtual page number. *)
From S2P Require Import Prelude Riscv ListLib StringLib Buddy PageAlloc.

Definition PTE_V : Z := 1.
Definition PTE_R : Z := 2.
Definition PTE_W : Z := 4.
Definition PTE_X : Z := 8.
Definition PTE_U : Z := 16.
Definition PTE_COW : Z := Z.shiftl 1 8.
Definition PA2PTE (pa : Z) : Z := u64 (Z.shiftl (Z.shiftr pa 12) 10).
Definition PTE2PA (pte : Z) : Z := u64 (Z.shiftl (Z.shiftr pte 10) 12).
Definition PXMASK : Z := 0x1FF.
Definition PXSHIFT (level : Z) : Z := PGSHIFT + 9 * level.
Definition PX (level va : Z) : Z := Z.land (Z.shiftr va (PXSHIFT level)) PXMASK.
Definition MAXVA : Z := Z.shiftl 1 (9 + 9 + 9 + 12 - 1).
Definition PHYSTOP : Z := KERNBASE + AVAILABLE_MEMORY.
Definition UART0 : Z := 0x10000000.
Definition VIRTIO0 : Z := 0x10001000.
Definition PLIC : Z := 0x0c000000.
Definition MAKE_SATP (pagetable : Z) : Z := Z.lor (Z.shiftl 8 60) (Z.shiftr pagetable 12).
Definition USER_TEXT_BASE : Z := 0x200000000.
Definition USER_STACK_TOP : Z := 0x200000000 - 0x1000 - 0x8.

(** [struct vm_area_struct], [vm_next] and [vm_file] as addresses. *)
Record vm_area_struct := VmArea {
  vm_start : Z;
  vm_end : Z;
  vm_prot : Z;
  vm_pgoff : Z;
  vm_file : option Z;
  vm_next : option Z;
}.

(** The allocator, memory, the VMAs, the locks and the hart whose registers vm.c writes. *)
Record vm (A : Type) := VM {
  pa : A;
  words : gmap Z Z;
  vmas : gmap Z vm_area_struct;
  vm_locks : gset lockid;
  kernel_pagetable : Z;
  vm_hart : hart;
}.
Arguments VM {A} _ _ _ _ _ _.
Arguments pa {A} _.
Arguments words {A} _.
Arguments vmas {A} _.
Arguments vm_locks {A} _.
Arguments kernel_pagetable {A} _.
Arguments vm_hart {A} _.

Definition mem_map_lock : lockid := ("mem_map"%string, 0).

Section vm_ops.
Context {A : Type} `{PageAlloc A}.

Definition set_pa x (s : vm A) : vm A := VM x (words s) (vmas s) (vm_locks s) (kernel_pagetable s) (vm_hart s).
Definition set_words w (s : vm A) : vm A := VM (pa s) w (vmas s) (vm_locks s) (kernel_pagetable s) (vm_hart s).
Definition set_kernel_pagetable k (s : vm A) : vm A := VM (pa s) (words s) (vmas s) (vm_locks s) k (vm_hart s).
#[global] Instance vm_HasHart : HasHart (vm A) := {
  hart_of := vm_hart;
  put_hart h s := VM (pa s) (words s) (vmas s) (vm_locks s) (kernel_pagetable s) h;
}.
#[global] Instance vm_HasLocks : HasLocks (vm A) := {
  locks := vm_locks;
  set_locks L s := VM (pa s) (words s) (vmas s) L (kernel_pagetable s) (vm_hart s);
}.

Definition word_get (a : Z) : M (vm A) Z := deref (λ s, words s !! a).
Definition word_put (a v : Z) : M (vm A) unit :=
  update (λ s, _ ← words s !! a; Some (set_words (<[a := v]> (words s)) s)).

(** [memset(pagetable, 0, PGSIZE)], word by word. *)
Fixpoint zero_words (n : nat) (a : Z) : M (vm A) unit :=
  match n with
  | O => mret tt
  | S n => word_put a 0;; zero_words n (a + 8)
  end.

(** [__alloc_page(0)] *)
Definition alloc_pgt : M (vm A) Z := zoom pa set_pa alloc_zeroed.

(** One round per level from [level] down to 1. *)
Fixpoint walk_levels (n : nat) (level pagetable va : Z) (alloc : bool) : M (vm A) (option Z) :=
  match n with
  | O => mret (Some pagetable)
  | S n =>
      let pte := pagetable + 8 * PX level va in
      w ← word_get pte;
      if negb (Z.land w PTE_V =? 0) then walk_levels n (level - 1) (PTE2PA w) va alloc else
      if negb alloc then mret None else
      pagetable ← alloc_pgt;
      if pagetable =? 0 then mret None else
      zero_words 512 pagetable;;
      word_put pte (Z.lor (PA2PTE pagetable) PTE_V);;
      walk_levels n (level - 1) pagetable va alloc
  end.

Definition walk (pagetable va : Z) (alloc : bool) : M (vm A) (option Z) :=
  if MAXVA <=? va then mret None else
  r ← walk_levels 2 2 pagetable va alloc;
  mret ((λ t, t + 8 * PX 0 va) <$> r).

(** The loop of [mappages] until [a == last]; an unbounded loop in the source,
    here with the number of pages as fuel. *)
Fixpoint map_loop (fuel : nat) (pagetable a pa last perm : Z) : M (vm A) Z :=
  match fuel with
  | O => out_of_fuel
  | S fuel =>
      pte ← walk pagetable a true;
      match pte with
      | None => mret (-1)
      | Some pte =>
          w ← word_get pte;
          if negb (Z.land w PTE_V =? 0) then panic else
          word_put pte (Z.lor (Z.lor (PA2PTE pa) perm) PTE_V);;
          if a =? last then spin_unlock mem_map_lock;; mret 0
          else map_loop fuel pagetable (u64 (a + PGSIZE)) (u64 (pa + PGSIZE)) last perm
      end
  end.

Definition mappages (pagetable va pa size perm : Z) : M (vm A) Z :=
  if negb (va mod PGSIZE =? 0) then panic else
  if negb (size mod PGSIZE =? 0) then panic else
  if size =? 0 then panic else
  let last := u64 (va + size - PGSIZE) in
  spin_lock mem_map_lock;;
  map_loop (Z.to_nat (size / PGSIZE)) pagetable va pa last perm.

Definition kvm_map (kpgtbl va pa sz perm : Z) : M (vm A) unit :=
  r ← mappages kpgtbl va pa sz perm;
  if negb (r =? 0) then panic else mret tt.

(** [etext] is the end of the kernel's text, from the linker script. *)
Definition kvm_init (etext : Z) : M (vm A) unit :=
  kpgtbl ← alloc_pgt;
  (if kpgtbl =? 0 then panic else mret tt);;
  zero_words 512 kpgtbl;;
  kvm_map kpgtbl UART0 UART0 PGSIZE (Z.lor PTE_R PTE_W);;
  kvm_map kpgtbl VIRTIO0 VIRTIO0 PGSIZE (Z.lor PTE_R PTE_W);;
  kvm_map kpgtbl PLIC PLIC 0x4000000 (Z.lor PTE_R PTE_W);;
  kvm_map kpgtbl KERNBASE KERNBASE (u64 (etext - KERNBASE)) (Z.lor PTE_R PTE_X);;
  kvm_map kpgtbl etext etext (u64 (PHYSTOP - etext)) (Z.lor PTE_R PTE_W);;
  modify (set_kernel_pagetable kpgtbl).

Definition kvm_init_hart : M (vm A) unit :=
  w_sstatus SSTATUS_SUM;;
  sfence_vma;;
  k ← gets kernel_pagetable;
  w_satp (MAKE_SATP k);;
  sfence_vma.

(** [memcpy(dst, src, 8 * n)] between page tables. *)
Fixpoint copy_words (n : nat) (dst src : Z) : M (vm A) unit :=
  match n with
  | O => mret tt
  | S n => w ← word_get src; word_put dst w;; copy_words n (dst + 8) (src + 8)
  end.

(** [uvmfirst]: the initial user page table of the first process; [load]
    copies the program image into the page, and the result is the saved
    user program counter and stack pointer. *)
Definition uvmfirst (pgd sz : Z) (load : Z → M (vm A) unit) : M (vm A) (Z * Z) :=
  assert_ (sz <=? PGSIZE);;
  k ← gets kernel_pagetable;
  copy_words (Z.to_nat (PGSIZE / 64 / 8)) pgd k;;
  mem ← alloc_pgt;
  mappages pgd (Z.land USER_TEXT_BASE 0xfffffffffffff000) mem PGSIZE (Z.lor (Z.lor PTE_R PTE_X) PTE_U);;
  load mem;;
  mem ← alloc_pgt;
  mappages pgd (Z.land USER_STACK_TOP 0xfffffffffffff000) mem PGSIZE (Z.lor (Z.lor PTE_R PTE_W) PTE_U);;
  mret (USER_TEXT_BASE, USER_STACK_TOP).

(** Copy-on-write bits of a page table entry; [ref] counts a reference to a
    physical page ([atomic_inc] on its [struct page]). *)
Definition set_cow_page (pte : Z) (ref : Z → M (vm A) unit) : M (vm A) unit :=
  w ← word_get pte;
  word_put pte (Z.ldiff w PTE_W);;
  w ← word_get pte;
  word_put pte (Z.lor w PTE_COW);;
  w ← word_get pte;
  ref (get_page_struct (PTE2PA w)).
Definition clear_cow_page (pte : Z) : M (vm A) unit :=
  w ← word_get pte; word_put pte (Z.ldiff w PTE_COW).
(** The C result, 0 or 1. *)
Definition is_cow_page (pte : Z) : M (vm A) Z :=
  w ← word_get pte; mret (if Z.land w PTE_COW =? 0 then 0 else 1).

(** The list of VMAs of a process is walked under the lock of its [mm]. *)
Fixpoint vma_loop (fuel : nat) (v : option Z) (addr : Z) : M (vm A) (option Z) :=
  match v with
  | None => mret None
  | Some a =>
      match fuel with
      | O => out_of_fuel
      | S fuel =>
          r ← deref (λ s, vmas s !! a);
          if (vm_start r <=? addr) && (addr <=? vm_end r) then mret (Some a)
          else vma_loop fuel (vm_next r) addr
      end
  end.
Definition find_vma (mm_lock : lockid) (mmap : option Z) (addr : Z) : M (vm A) (option Z) :=
  spin_lock mm_lock;;
  s ← get;
  v ← vma_loop (S (size (vmas s))) mmap addr;
  spin_unlock mm_lock;;
  mret v.

(** [fault] is the handler [v->vm_ops->fault] of the VMA. *)
Definition page_fault_handler (mm_lock : lockid) (mmap : option Z) (pgd fault_addr : Z)
    (fault : Z → Z → M (vm A) unit) : M (vm A) unit :=
  v ← find_vma mm_lock mmap fault_addr;
  match v with
  | None => panic
  | Some v =>
      pte ← walk pgd fault_addr false;
      bad ← match pte with
            | None => mret false
            | Some pte => c ← is_cow_page pte; mret (negb (Z.lnot c =? 0))
            end;
      if (bad : bool) then panic else fault v fault_addr
  end.

End vm_ops.

(** * Page table entries *)

Lemma PA2PTE_page m : 0 <= m < 2 ^ 44 → PA2PTE (4096 * m) = m * 1024.
Proof.
  intros Hm. unfold PA2PTE. rewrite Z.shiftr_div_pow2, Z.shiftl_mul_pow2 by lia.
  change (2 ^ 12) with 4096. change (2 ^ 10) with 1024.
  rewrite (Z.mul_comm 4096), Z.div_mul, u64_small by lia. done.
Qed.

(** The physical address and the valid bit of an entry made by [mappages]. *)
Lemma pte_decode m perm :
  0 <= m < 2 ^ 44 → 0 <= perm < 1024 →
  let w := Z.lor (Z.lor (PA2PTE (4096 * m)) perm) PTE_V in
  PTE2PA w = 4096 * m ∧ Z.land w PTE_V = 1 ∧ 0 <= w < 2 ^ 64.
Proof.
  intros Hm Hp. rewrite PA2PTE_page by done. cbv zeta. unfold PTE_V.
  assert (Hs : Z.shiftr (Z.lor (Z.lor (m * 1024) perm) 1) 10 = m).
  { rewrite !Z.shiftr_lor, !Z.shiftr_div_pow2 by lia. change (2 ^ 10) with 1024.
    rewrite Z.div_mul, (Z.div_small perm), (Z.div_small 1), !Z.lor_0_r by lia. done. }
  split_and!.
  - unfold PTE2PA. rewrite Hs, Z.shiftl_mul_pow2 by lia. change (2 ^ 12) with 4096.
    rewrite u64_small by lia. lia.
  - apply Z.bits_inj'. intros i Hi. rewrite Z.land_spec, Z.lor_spec.
    destruct (decide (i = 0)) as [->|].
    + by rewrite orb_true_r.
    + change 1 with (2 ^ 0). rewrite (Z.pow2_bits_false 0) by lia. apply andb_false_r.
  - apply Z.lor_nonneg. split; [apply Z.lor_nonneg|]; lia.
  - set (w := Z.lor (Z.lor (m * 1024) perm) 1) in *.
    assert (0 <= w) by (apply Z.lor_nonneg; split; [apply Z.lor_nonneg|]; lia).
    rewrite Z.shiftr_div_pow2 in Hs by lia. change (2 ^ 10) with 1024 in Hs.
    pose proof (Z.div_mod w 1024 ltac:(lia)). pose proof (Z.mod_pos_bound w 1024 ltac:(lia)).
    change (2 ^ 64) with (1024 * 2 ^ 54). rewrite Hs in *. lia.
Qed.

(** An entry that [walk] makes for a table page. *)
Lemma pte_table m :
  0 <= m < 2 ^ 44 → let w := Z.lor (PA2PTE (4096 * m)) PTE_V in
  PTE2PA w = 4096 * m ∧ Z.land w PTE_V = 1 ∧ 0 <= w < 2 ^ 64.
Proof. intros Hm. pose proof (pte_decode m 0 Hm ltac:(lia)) as Hp. by rewrite Z.lor_0_r in Hp. Qed.

Lemma phys_page_index a : phys_page a → ∃ m, 0 <= m < 2 ^ 44 ∧ a = 4096 * m.
Proof.
  intros (q & Hq & ->). exists (0x80000 + q). pose proof ALL_PFN_val. unfold KERNBASE, PGSIZE. lia.
Qed.

Lemma PX_spec l va : 0 <= l → PX l va = va / 2 ^ (12 + 9 * l) mod 512.
Proof.
  intros Hl. unfold PX, PXSHIFT, PGSHIFT, PXMASK. change 0x1FF with (Z.ones 9).
  by rewrite Z.land_ones, Z.shiftr_div_pow2 by lia.
Qed.

Lemma PX_range l va : 0 <= l → 0 <= PX l va < 512.
Proof. intros Hl. rewrite PX_spec by done. by apply Z.mod_pos_bound. Qed.

(** The indices of a virtual address from its page number. *)
Lemma PX_vpn va :
  0 <= va < MAXVA → let vpn := va / 4096 in
  PX 2 va = vpn / 2 ^ 18 ∧ PX 1 va = vpn / 512 mod 512 ∧ PX 0 va = vpn mod 512 ∧
  512 * (vpn / 2 ^ 18) + PX 1 va = vpn / 512 ∧ 0 <= vpn < 2 ^ 26.
Proof.
  intros Hva vpn. rewrite !PX_spec by lia. unfold MAXVA in Hva. rewrite Z.shiftl_1_l in Hva.
  assert (Hv : 0 <= vpn < 2 ^ 26).
  { unfold vpn. split; [apply Z.div_pos; lia|]. apply Z.div_lt_upper_bound; [lia|].
    change (4096 * 2 ^ 26) with (2 ^ (9 + 9 + 9 + 12 - 1)). lia. }
  assert (E2 : va / 2 ^ (12 + 9 * 2) = vpn / 2 ^ 18) by (unfold vpn; by rewrite Z.div_div by lia).
  assert (E1 : va / 2 ^ (12 + 9 * 1) = vpn / 512) by (unfold vpn; by rewrite Z.div_div by lia).
  assert (E0 : va / 2 ^ (12 + 9 * 0) = vpn) by done.
  rewrite E2, E1, E0. split_and!; [|done|done| |lia|lia].
  - apply Z.mod_small. split; [apply Z.div_pos; lia|]. apply Z.div_lt_upper_bound; [lia|].
    change (2 ^ 18 * 512) with (2 ^ 27). lia.
  - change (2 ^ 18) with (512 * 512). rewrite <-Z.div_div by lia.
    pose proof (Z.div_mod (vpn / 512) 512 ltac:(lia)). lia.
Qed.

Lemma phys_page_nonzero p : phys_page p → p ≠ 0.
Proof. intros (q & ? & ->). unfold KERNBASE, PGSIZE. lia. Qed.

(** Words of different pages are different. *)
Lemma word_addr_inj a b i j :
  phys_page a → phys_page b → 0 <= i < 512 → 0 <= j < 512 → a + 8 * i = b + 8 * j → a = b ∧ i = j.
Proof. intros (q & _ & ->) (r & _ & ->) Hi Hj. unfold PGSIZE. lia. Qed.

(** * The invariant of a page table *)

Section vm_proofs.
Context {A : Type} `{PA : PageAlloc A} `{!PageAllocLaws A}.
Implicit Types (s : vm A) (T : gmap (Z * Z) Z) (X : gset Z).

Record pt_wf (root : Z) (T : gmap (Z * Z) Z) (X : gset Z) (s : vm A) : Prop := {
  pw_root : T !! (2, 0) = Some root;
  pw_level : ∀ l x a, T !! (l, x) = Some a → 0 <= l <= 2 ∧ 0 <= x;
  pw_inj : ∀ k k' a, T !! k = Some a → T !! k' = Some a → k = k';
  pw_page : ∀ k a, T !! k = Some a → phys_page a ∧ a ∉ X;
  pw_words : ∀ a i, (∃ k, T !! k = Some a) ∨ a ∈ X → 0 <= i < 512 →
    ∃ w, words s !! (a + 8 * i) = Some w;
  pw_parent : ∀ l y a, T !! (l, y) = Some a → (l, y) = (2, 0) ∨ ∃ b, T !! (l + 1, y / 512) = Some b;
  pw_child : ∀ l x a i w, T !! (l, x) = Some a → 0 < l → 0 <= i < 512 →
    words s !! (a + 8 * i) = Some w →
    T !! (l - 1, 512 * x + i) = if Z.land w PTE_V =? 0 then None else Some (PTE2PA w);
  pw_alloc : page_rep (pa s) X;
}.

(** The leaf entry of a virtual page number, 0 when there is no leaf table. *)
Definition pte_of (T : gmap (Z * Z) Z) (s : vm A) (vpn : Z) : Z :=
  match T !! (0, vpn / 512) with
  | Some a => default 0 (words s !! (a + 8 * (vpn mod 512)))
  | None => 0
  end.

(** The fields the page table code leaves alone. *)
Definition frame s s' : Prop :=
  vmas s' = vmas s ∧ kernel_pagetable s' = kernel_pagetable s ∧ vm_hart s' = vm_hart s.

Lemma frame_trans s1 s2 s3 : frame s1 s2 → frame s2 s3 → frame s1 s3.
Proof. intros (? & ? & ?) (? & ? & ?). split_and!; congruence. Qed.

Lemma word_get_ok a w s : words s !! a = Some w → word_get a s = Done w s.
Proof. intros E. unfold word_get, deref. by rewrite E. Qed.
Lemma word_put_ok a v s :
  is_Some (words s !! a) → word_put a v s = Done tt (set_words (<[a := v]> (words s)) s).
Proof. intros [w E]. unfold word_put, update. by rewrite E. Qed.

Lemma zero_words_ok (n : nat) a s :
  (∀ i, 0 <= i < Z.of_nat n → is_Some (words s !! (a + 8 * i))) →
  ∃ W, zero_words n a s = Done tt (set_words W s) ∧
    (∀ i, 0 <= i < Z.of_nat n → W !! (a + 8 * i) = Some 0) ∧
    (∀ b, (∀ i, 0 <= i < Z.of_nat n → b ≠ a + 8 * i) → W !! b = words s !! b).
Proof.
  revert a s. induction n as [|n IH]; intros a s Hm.
  { exists (words s). split_and!; [by destruct s|lia|done]. }
  simpl zero_words. rewrite (bind_Done _ _ _ _ _ (word_put_ok a 0 s ltac:(specialize (Hm 0); rewrite Z.add_0_r in Hm; apply Hm; lia))).
  destruct (IH (a + 8) (set_words (<[a := 0]> (words s)) s)) as (W & E & H0 & Hsame).
  { intros i Hi. simpl. destruct (decide (a = a + 8 + 8 * i)) as [<-|]; [rewrite lookup_insert_eq; by eexists|].
    rewrite lookup_insert_ne by done. replace (a + 8 + 8 * i) with (a + 8 * (i + 1)) by lia. apply Hm. lia. }
  exists W. split_and!; [done| |].
  - intros i Hi. destruct (decide (i = 0)) as [->|].
    + rewrite Z.mul_0_r, Z.add_0_r. rewrite Hsame by lia. apply lookup_insert_eq.
    + replace (a + 8 * i) with (a + 8 + 8 * (i - 1)) by lia. apply H0. lia.
  - intros b Hb. rewrite Hsame.
    + simpl. apply lookup_insert_ne. specialize (Hb 0 ltac:(lia)). lia.
    + intros i Hi. specialize (Hb (i + 1) ltac:(lia)). lia.
Qed.

Lemma alloc_pgt_ok s X :
  page_rep (pa s) X → X ≠ ∅ → ∃ p x, alloc_pgt s = Done p (set_pa x s) ∧ p ∈ X ∧
    page_rep x (X ∖ {[p]}).
Proof.
  intros Hr HX. destruct (alloc_zeroed_ok (pa s) X Hr HX) as (p & x & E & Hp & Hr').
  exists p, x. split; [|done]. unfold alloc_pgt, zoom. by rewrite E.
Qed.

(** Writing a leaf entry. *)
Lemma set_leaf root T X s x a j w :
  pt_wf root T X s → T !! (0, x) = Some a → 0 <= j < 512 →
  let s' := set_words (<[a + 8 * j := w]> (words s)) s in
  pt_wf root T X s' ∧ ∀ v, pte_of T s' v = if decide (v = 512 * x + j) then w else pte_of T s v.
Proof.
  intros Hwf Ha Hj s'. destruct (pw_page _ _ _ _ Hwf _ _ Ha) as [Hpa _]. split.
  - destruct Hwf as [Hr Hlv Hi Hp Hw Hpar Hc Hal]. split; try done.
    + intros b i Hb Hi0. simpl. destruct (decide (a + 8 * j = b + 8 * i)) as [E|].
      * exists w. rewrite E. apply lookup_insert_eq.
      * rewrite lookup_insert_ne by done. by apply Hw.
    + intros l y b i w' Hb Hl Hi0. simpl. rewrite lookup_insert_ne; [by apply Hc|].
      intros E. apply word_addr_inj in E as [-> _]; [|done|by eapply Hp|done|done].
      pose proof (Hi _ _ _ Ha Hb). simplify_eq. lia.
  - intros v. unfold pte_of. pose proof (Z.mod_pos_bound v 512 ltac:(lia)) as Hm.
    pose proof (Z.div_mod v 512 ltac:(lia)) as Hd.
    destruct (T !! (0, v / 512)) as [b|] eqn:Eb.
    + simpl. destruct (decide (v = 512 * x + j)) as [Ev|Hne].
      * assert (v / 512 = x) as Hx by lia. rewrite Hx, Ha in Eb. injection Eb as <-.
        replace (v mod 512) with j by lia. by rewrite lookup_insert_eq.
      * rewrite lookup_insert_ne; [done|]. intros E.
        apply word_addr_inj in E as [-> E]; [|done|by eapply (pw_page _ _ _ _ Hwf)|done|done].
        pose proof (pw_inj _ _ _ _ Hwf _ _ _ Ha Eb) as E0. injection E0 as E0. lia.
    + destruct (decide (v = 512 * x + j)) as [Ev|]; [|done].
      assert (v / 512 = x) as Hx by lia. rewrite Hx, Ha in Eb. done.
Qed.

(** Linking a fresh zeroed table below an invalid entry. *)
Lemma link_table root T X s l x a i w p x' W :
  pt_wf root T X s → T !! (l, x) = Some a → 0 < l → 0 <= i < 512 → 0 <= x →
  words s !! (a + 8 * i) = Some w → Z.land w PTE_V = 0 →
  p ∈ X → page_rep x' (X ∖ {[p]}) →
  (∀ j, 0 <= j < 512 → W !! (p + 8 * j) = Some 0) →
  (∀ b, (∀ j, 0 <= j < 512 → b ≠ p + 8 * j) → W !! b = words s !! b) →
  let s' := set_words (<[a + 8 * i := Z.lor (PA2PTE p) PTE_V]> W) (set_pa x' s) in
  let T' := <[(l - 1, 512 * x + i) := p]> T in
  pt_wf root T' (X ∖ {[p]}) s' ∧ ∀ v, pte_of T' s' v = pte_of T s v.
Proof.
  intros Hwf Ha Hl Hi Hx Ew Hw0 Hp Hr H0 Hsame s' T'.
  pose proof (pw_child _ _ _ _ Hwf l x a i w Ha Hl Hi Ew) as Hnone. rewrite Hw0, Z.eqb_refl in Hnone.
  pose proof (page_rep_phys _ _ p (pw_alloc _ _ _ _ Hwf) Hp) as Hpp.
  destruct (phys_page_index p Hpp) as (m & Hm & Epm). pose proof (pte_table m Hm) as (Hdec & HV & _).
  rewrite <-Epm in Hdec, HV.
  destruct (pw_page _ _ _ _ Hwf _ _ Ha) as [Hpa HaX].
  assert (Hpold : ∀ k, T !! k ≠ Some p) by (intros k E; by destruct (pw_page _ _ _ _ Hwf _ _ E)).
  assert (Hap : ∀ b j j', phys_page b → b ≠ p → 0 <= j < 512 → 0 <= j' < 512 → b + 8 * j ≠ p + 8 * j').
  { intros b j j' Hb Hne Hj Hj' E. by apply word_addr_inj in E as [? _]. }
  (* the words of an old table, apart from the entry *)
  assert (Hold : ∀ b j, phys_page b → b ≠ p → 0 <= j < 512 → a + 8 * i ≠ b + 8 * j →
    words s' !! (b + 8 * j) = words s !! (b + 8 * j)).
  { intros b j Hb Hne Hj Hd. simpl. rewrite lookup_insert_ne by done. apply Hsame. intros j' Hj'. by apply Hap. }
  assert (Hnew : ∀ j, 0 <= j < 512 → words s' !! (p + 8 * j) = Some 0).
  { intros j Hj. simpl. rewrite lookup_insert_ne; [by apply H0|]. apply Hap; [done| |done|done].
    intros ->. by apply (Hpold (l, x)). }
  destruct (pw_level _ _ _ _ Hwf _ _ _ Ha) as [Hl2 _].
  assert (Hcases : ∀ k b, T' !! k = Some b → (k = (l - 1, 512 * x + i) ∧ b = p) ∨ (T !! k = Some b ∧ b ≠ p ∧ k ≠ (l - 1, 512 * x + i))).
  { intros k b Hk. apply lookup_insert_Some in Hk as [[<- <-]|[Hne Hk]]; [by left|]. right.
    split_and!; [done| |congruence]. intros ->. by apply (Hpold k). }
  assert (Hmono : ∀ k b, T !! k = Some b → T' !! k = Some b).
  { intros k b Hk. unfold T'. rewrite lookup_insert_ne; [done|]. congruence. }
  split.
  - split.
    + by apply Hmono, Hwf.
    + intros l' y b Hk. apply Hcases in Hk as [[[= -> ->] _]|(Hk & _ & _)]; [lia|by eapply pw_level].
    + intros k k' b Hk Hk'. apply Hcases in Hk as [[-> ->]|(Hk & Hb & _)]; apply Hcases in Hk' as [[-> Hb']|(Hk' & Hb' & _)]; try done.
      by eapply (pw_inj _ _ _ _ Hwf).
    + intros k b Hk. apply Hcases in Hk as [[-> ->]|(Hk & Hb & _)].
      * split; [done|]. set_solver.
      * destruct (pw_page _ _ _ _ Hwf _ _ Hk). split; [done|]. set_solver.
    + intros b j Hb Hj. assert (Hbw : b = p ∨ b ≠ p ∧ phys_page b ∧ ∃ w', words s !! (b + 8 * j) = Some w').
      { destruct (decide (b = p)) as [->|Hne]; [by left|]. right. destruct Hb as [[k Hk]|Hb].
        - apply Hcases in Hk as [[_ ->]|(Hk & _ & _)]; [done|]. destruct (pw_page _ _ _ _ Hwf _ _ Hk).
          split_and!; [done..|]. apply (pw_words _ _ _ _ Hwf); [by left; exists k|done].
        - apply elem_of_difference in Hb as [Hb _]. split_and!; [done|by eapply page_rep_phys; [apply Hwf|]|].
          apply (pw_words _ _ _ _ Hwf); [by right|done]. }
      destruct Hbw as [->|(Hne & Hpb & w' & Ew')]; [exists 0; by apply Hnew|].
      destruct (decide (a + 8 * i = b + 8 * j)) as [E|Hd].
      * exists (Z.lor (PA2PTE p) PTE_V). simpl. rewrite E. apply lookup_insert_eq.
      * exists w'. by rewrite Hold.
    + intros l' y b Hb. apply Hcases in Hb as [[[= -> ->] ->]|(Hb & _ & _)].
      * right. exists a. replace (l - 1 + 1) with l by lia.
        replace ((512 * x + i) / 512) with x by (apply (Z.div_unique _ _ _ i); lia).
        by apply Hmono.
      * destruct (pw_parent _ _ _ _ Hwf _ _ _ Hb) as [?|[c Hc]]; [by left|]. right. exists c. by apply Hmono.
    + intros l' y b j w' Hb Hl' Hj Ew'. apply Hcases in Hb as [[[= -> ->] ->]|(Hb & Hbp & Hk)].
      * rewrite Hnew in Ew' by done. simplify_eq. simpl. unfold T'.
        rewrite lookup_insert_ne by (intros [= ? ?]; lia).
        destruct (T !! (l - 1 - 1, 512 * (512 * x + i) + j)) as [c|] eqn:Ec; [|done].
        exfalso. destruct (pw_parent _ _ _ _ Hwf _ _ _ Ec) as [[= ? ?]|[d Hd]]; [lia|].
        replace ((512 * (512 * x + i) + j) / 512) with (512 * x + i) in Hd
          by (apply (Z.div_unique _ _ _ j); lia).
        replace (l - 1 - 1 + 1) with (l - 1) in Hd by lia. congruence.
      * destruct (pw_page _ _ _ _ Hwf _ _ Hb) as [Hpb _].
        destruct (decide (a + 8 * i = b + 8 * j)) as [E|Hd].
        -- apply word_addr_inj in E as [<- <-]; [|done..].
           pose proof (pw_inj _ _ _ _ Hwf _ _ _ Ha Hb) as E. injection E as <- <-.
           simpl in Ew'. rewrite lookup_insert_eq in Ew'. injection Ew' as <-.
           rewrite HV. simpl. unfold T'. by rewrite lookup_insert_eq, Hdec.
        -- rewrite Hold in Ew' by done. rewrite <-(pw_child _ _ _ _ Hwf l' y b j w' Hb Hl' Hj Ew').
           unfold T'. apply lookup_insert_ne. intros [= E1 E2].
           destruct (pw_level _ _ _ _ Hwf _ _ _ Hb) as [_ Hy].
           assert (l' = l) as -> by lia. assert (y = x) as -> by lia. assert (j = i) as -> by lia.
           by simplify_eq.
    + done.
  - intros v. unfold pte_of. pose proof (Z.mod_pos_bound v 512 ltac:(lia)) as Hv.
    destruct (decide ((l - 1, 512 * x + i) = (0, v / 512))) as [E|Hne].
    + rewrite <-E. rewrite Hnone. unfold T'. rewrite lookup_insert_eq. by rewrite Hnew.
    + unfold T'. rewrite lookup_insert_ne by done. destruct (T !! (0, v / 512)) as [b|] eqn:Eb; [|done].
      destruct (pw_page _ _ _ _ Hwf _ _ Eb) as [Hpb _]. rewrite Hold; [done|done| |done|].
      * intros ->. by eapply Hpold.
      * intros E. apply word_addr_inj in E as [<- _]; [|done..].
        pose proof (pw_inj _ _ _ _ Hwf _ _ _ Ha Eb). by simplify_eq.
Qed.

(** * walk *)

(** The table pages that a walk with [alloc] has to allocate. *)
Definition need1 (D : gset (Z * Z)) (k : Z * Z) : nat := if decide (k ∈ D) then 0%nat else 1%nat.

Lemma walk_levels_S (n : nat) level pt va alloc :
  walk_levels (S n) level pt va alloc =
    (w ← word_get (pt + 8 * PX level va);
     if negb (Z.land w PTE_V =? 0) then walk_levels n (level - 1) (PTE2PA w) va alloc else
     if negb alloc then mret None else
     p ← alloc_pgt;
     if p =? 0 then mret None else
     zero_words 512 p;;
     word_put (pt + 8 * PX level va) (Z.lor (PA2PTE p) PTE_V);;
     walk_levels n (level - 1) p va alloc) :> M (vm A) (option Z).
Proof. reflexivity. Qed.

Lemma walk_step root T X s l x a va :
  pt_wf root T X s → T !! (l, x) = Some a → 0 < l → 0 <= x →
  (need1 (dom T) ((l - 1, 512 * x + PX l va)%Z) <= size X)%nat →
  ∃ T' X' s' c,
    (∀ n, walk_levels (S n) l a va true s = walk_levels n (l - 1) c va true s') ∧
    pt_wf root T' X' s' ∧ T' !! (l - 1, 512 * x + PX l va) = Some c ∧
    (∀ v, pte_of T' s' v = pte_of T s v) ∧ dom T' = {[(l - 1, 512 * x + PX l va)]} ∪ dom T ∧
    (size X' + need1 (dom T) ((l - 1, 512 * x + PX l va)%Z) = size X)%nat ∧
    frame s s' ∧ vm_locks s' = vm_locks s.
Proof.
  intros Hwf Ha Hl Hx Hneed. pose proof (PX_range l va ltac:(lia)) as Hi.
  set (i := PX l va) in *. unfold need1 in *.
  destruct (pw_words _ _ _ _ Hwf a i ltac:(left; by eexists) Hi) as [w Ew].
  pose proof (pw_child _ _ _ _ Hwf l x a i w Ha Hl Hi Ew) as Hch.
  destruct (Z.eqb_spec (Z.land w PTE_V) 0) as [Hv|Hv].
  - rewrite decide_False in * by (by apply not_elem_of_dom).
    destruct (alloc_pgt_ok s X (pw_alloc _ _ _ _ Hwf)) as (p & x' & Ep & Hp & Hr).
    { intros ->. rewrite size_empty in Hneed. lia. }
    pose proof (page_rep_phys _ _ p (pw_alloc _ _ _ _ Hwf) Hp) as Hpp.
    destruct (zero_words_ok 512 p (set_pa x' s)) as (W & Ez & H0 & Hsame).
    { intros j Hj. destruct (pw_words _ _ _ _ Hwf p j ltac:(by right) Hj) as [w' Ew']. by eexists. }
    destruct (link_table root T X s l x a i w p x' W Hwf Ha Hl Hi Hx Ew Hv Hp Hr H0 Hsame) as [Hwf' Hpte].
    eexists _, _, _, p. split_and!; [|exact Hwf'|apply lookup_insert_eq|exact Hpte|apply dom_insert_L| |done|done].
    + intros n. rewrite walk_levels_S. fold i. rewrite (bind_Done _ _ _ _ _ (word_get_ok _ w s Ew)).
      rewrite Hv. cbn [Z.eqb negb]. rewrite (bind_Done _ _ _ _ _ Ep).
      rewrite (proj2 (Z.eqb_neq p 0) (phys_page_nonzero p Hpp)).
      rewrite (bind_Done _ _ _ _ _ Ez). erewrite bind_Done; [done|].
      rewrite word_put_ok; [done|]. simpl.
      rewrite Hsame; [simpl; rewrite Ew; by eexists|]. intros j Hj E.
      destruct (pw_page _ _ _ _ Hwf _ _ Ha) as [Hpa HaX].
      apply word_addr_inj in E as [-> _]; [|done..]. done.
    + rewrite size_difference by (clear -Hp; set_solver). rewrite size_singleton. clear -Hneed. lia.
  - rewrite decide_True in * by (apply elem_of_dom; rewrite Hch; by eexists).
    exists T, X, s, (PTE2PA w). split_and!; [|done|done|done| |lia|done|done].
    + intros n. rewrite walk_levels_S. fold i. rewrite (bind_Done _ _ _ _ _ (word_get_ok _ w s Ew)).
      rewrite (proj2 (Z.eqb_neq _ _) Hv). reflexivity.
    + assert (Hin : (l - 1, 512 * x + i) ∈ dom T) by (apply elem_of_dom; rewrite Hch; by eexists).
      clear -Hin. set_solver.
Qed.

Definition k1 (vpn : Z) : Z * Z := (1, vpn / 2 ^ 18).
Definition k0 (vpn : Z) : Z * Z := (0, vpn / 512).
Definition need (D : gset (Z * Z)) (vpn : Z) : nat := (need1 D (k1 vpn) + need1 D (k0 vpn))%nat.

Lemma walk_ok root T X s va :
  pt_wf root T X s → 0 <= va < MAXVA → (need (dom T) (va / 4096) <= size X)%nat →
  ∃ T' X' s' a, let vpn := va / 4096 in
    walk root va true s = Done (Some (a + 8 * (vpn mod 512))) s' ∧ pt_wf root T' X' s' ∧
    T' !! k0 vpn = Some a ∧ (∀ v, pte_of T' s' v = pte_of T s v) ∧
    dom T' = {[k0 vpn; k1 vpn]} ∪ dom T ∧ (size X' + need (dom T) vpn = size X)%nat ∧
    frame s s' ∧ vm_locks s' = vm_locks s.
Proof.
  intros Hwf Hva Hneed. pose proof (PX_vpn va Hva) as (P2 & P1 & P0 & Hk0 & Hvpn).
  set (vpn := va / 4096) in *. unfold need, k1, k0 in *.
  destruct (walk_step root T X s 2 0 root va Hwf (pw_root _ _ _ _ Hwf) ltac:(lia) ltac:(lia))
    as (T1 & X1 & s1 & c1 & E1 & Hwf1 & Hc1 & Hpte1 & Hd1 & Hs1 & Hf1 & Hl1).
  { rewrite P2, Z.mul_0_r, Z.add_0_l. change (2 - 1) with 1. lia. }
  rewrite P2, Z.mul_0_r, Z.add_0_l in *. change (2 - 1) with 1 in *.
  assert (Hsame : need1 (dom T1) (0, vpn / 512) = need1 (dom T) (0, vpn / 512)).
  { unfold need1. rewrite Hd1. destruct (decide ((0, vpn / 512) ∈ dom T)) as [Hin|Hn].
    - rewrite decide_True by (clear -Hin; set_solver). done.
    - rewrite decide_False; [done|]. rewrite elem_of_union, elem_of_singleton. intros [[=]|?]; done. }
  destruct (walk_step root T1 X1 s1 1 (vpn / 2 ^ 18) c1 va Hwf1 Hc1 ltac:(lia))
    as (T2 & X2 & s2 & c2 & E2 & Hwf2 & Hc2 & Hpte2 & Hd2 & Hs2 & Hf2 & Hl2).
  { apply Z.div_pos; lia. }
  { rewrite Hk0. change (1 - 1) with 0. rewrite Hsame. lia. }
  rewrite Hk0 in *. change (1 - 1) with 0 in *.
  exists T2, X2, s2, c2. split_and!.
  - unfold walk. destruct (Z.leb_spec MAXVA va); [lia|]. rewrite <-P0.
    rewrite (bind_Done _ _ _ (Some c2) s2); [done|]. by rewrite (E1 1%nat), (E2 0%nat).
  - done.
  - done.
  - intros v. by rewrite Hpte2, Hpte1.
  - rewrite Hd2, Hd1. clear. set_solver.
  - rewrite Hsame in Hs2. lia.
  - by eapply frame_trans.
  - congruence.
Qed.

(** Without [alloc], [walk] finds the entry exactly when its leaf table exists,
    and changes nothing. *)
Lemma walk_ro root T X s va :
  pt_wf root T X s → 0 <= va < MAXVA →
  walk root va false s =
    Done ((λ a, a + 8 * (va / 4096 mod 512)) <$> T !! k0 (va / 4096)) s.
Proof.
  intros Hwf Hva. pose proof (PX_vpn va Hva) as (P2 & P1 & P0 & Hk0 & Hvpn).
  set (vpn := va / 4096) in *. unfold walk. destruct (Z.leb_spec MAXVA va); [lia|].
  destruct (pw_words _ _ _ _ Hwf root (PX 2 va) ltac:(left; eexists; apply Hwf) ltac:(by apply PX_range))
    as [w Ew].
  pose proof (pw_child _ _ _ _ Hwf 2 0 root (PX 2 va) w (pw_root _ _ _ _ Hwf) ltac:(lia) (PX_range 2 va ltac:(lia)) Ew) as Hch.
  rewrite P2, Z.mul_0_r, Z.add_0_l in Hch. change (2 - 1) with 1 in Hch.
  simpl walk_levels. destruct (Z.eqb_spec (Z.land w PTE_V) 0) as [Hv|Hv].
  - erewrite bind_Done; cycle 1.
    { rewrite (bind_Done _ _ _ _ _ (word_get_ok _ w s Ew)). rewrite Hv. done. }
    destruct (T !! k0 vpn) as [a|] eqn:Ea; [|done]. exfalso.
    destruct (pw_parent _ _ _ _ Hwf _ _ _ Ea) as [[=]|[b Hb]]. unfold k0 in *.
    rewrite Z.div_div in Hb by lia. change (512 * 512) with (2 ^ 18) in Hb. change (0 + 1) with 1 in Hb. congruence.
  - destruct (pw_words _ _ _ _ Hwf (PTE2PA w) (PX 1 va) ltac:(left; by eexists) ltac:(by apply PX_range))
      as [w1 Ew1].
    pose proof (pw_child _ _ _ _ Hwf 1 (vpn / 2 ^ 18) _ (PX 1 va) w1 Hch ltac:(lia) (PX_range 1 va ltac:(lia)) Ew1) as Hch1.
    rewrite Hk0 in Hch1. change (1 - 1) with 0 in Hch1. fold (k0 vpn) in Hch1.
    rewrite Hch1.
    rewrite (bind_Done _ _ _ (if Z.land w1 PTE_V =? 0 then None else Some (PTE2PA w1)) s); cycle 1.
    { rewrite (bind_Done _ _ _ _ _ (word_get_ok _ w s Ew)).
      destruct (Z.eqb_spec (Z.land w PTE_V) 0); [done|]. cbn [negb walk_levels]. change (2 - 1) with 1.
      rewrite (bind_Done _ _ _ _ _ (word_get_ok _ w1 s Ew1)).
      destruct (Z.eqb_spec (Z.land w1 PTE_V) 0); done. }
    rewrite <-P0. by destruct (Z.land w1 PTE_V =? 0).
Qed.

(** Turning paging on: access to user pages, then the kernel's table between two
    flushes; no other register and no memory changes. *)
Lemma kvm_init_hart_ok s : ∃ s', kvm_init_hart s = Done tt s' ∧ words s' = words s ∧ pa s' = pa s ∧ vm_locks s' = vm_locks s ∧
  csrs (vm_hart s') sstatus = SSTATUS_SUM ∧ csrs (vm_hart s') satp = u64 (MAKE_SATP (kernel_pagetable s)) ∧
  mmu (vm_hart s') = mmu (vm_hart s) ++ [SfenceVma; SatpWrite (u64 (MAKE_SATP (kernel_pagetable s))); SfenceVma] ∧
  same_except [sstatus; satp] (csrs (vm_hart s)) (csrs (vm_hart s')).
Proof.
  eexists. split; [reflexivity|]. split_and!; [done..| |].
  - simpl. by rewrite <-!app_assoc.
  - intros r Hr. simpl. rewrite !upd_ne; [done|intros ->; set_solver..].
Qed.

(** * mappages *)

(** Table pages needed to map [n] pages from [vpn] on, and the tables then present. *)
Fixpoint map_need (D : gset (Z * Z)) (vpn : Z) (n : nat) : nat :=
  match n with
  | O => 0
  | S n => need D vpn + map_need ({[k0 vpn; k1 vpn]} ∪ D) (vpn + 1) n
  end.

(** The entry that maps to physical page [m]. *)
Definition leaf (m perm : Z) : Z := Z.lor (Z.lor (PA2PTE (4096 * m)) perm) PTE_V.

Lemma map_loop_ok root perm (n : nat) T X s vpn m :
  pt_wf root T X s → 0 <= vpn → vpn + Z.of_nat (S n) <= 2 ^ 26 → 0 <= m → m + Z.of_nat (S n) <= 2 ^ 44 →
  0 <= perm < 1024 → (map_need (dom T) vpn (S n) <= size X)%nat → mem_map_lock ∈ vm_locks s →
  (∀ v, vpn <= v < vpn + Z.of_nat (S n) → Z.land (pte_of T s v) PTE_V = 0) →
  ∃ T' X' s', map_loop (S n) root (4096 * vpn) (4096 * m) (4096 * (vpn + Z.of_nat n)) perm s = Done 0 s' ∧
    pt_wf root T' X' s' ∧
    (∀ v, pte_of T' s' v = if decide (vpn <= v < vpn + Z.of_nat (S n))
                           then leaf (m + (v - vpn)) perm else pte_of T s v) ∧
    (size X' + map_need (dom T) vpn (S n) = size X)%nat ∧ frame s s' ∧
    vm_locks s' = vm_locks s ∖ {[mem_map_lock]}.
Proof.
  revert T X s vpn m. induction n as [|n IH]; intros T X s vpn m Hwf Hv Hvn Hm Hmn Hperm Hneed Hlk Hinv.
  all: destruct (walk_ok root T X s (4096 * vpn) Hwf) as (T1 & X1 & s1 & a & Hw);
    [unfold MAXVA; rewrite Z.shiftl_1_l; change (2 ^ (9 + 9 + 9 + 12 - 1)) with (4096 * 2 ^ 26); lia| |].
  1, 3: rewrite (Z.mul_comm 4096), Z.div_mul by lia; simpl in Hneed; lia.
  all: cbv zeta in Hw; rewrite (Z.mul_comm 4096 vpn), Z.div_mul, (Z.mul_comm vpn) in Hw by lia;
    destruct Hw as (E1 & Hwf1 & Ha & Hpte1 & Hd1 & Hs1 & Hf1 & Hl1);
    pose proof (Z.mod_pos_bound vpn 512 ltac:(lia)) as Hmod;
    pose proof (Z.div_mod vpn 512 ltac:(lia)) as Hdiv;
    destruct (pw_words _ _ _ _ Hwf1 a (vpn mod 512) ltac:(left; by eexists) Hmod) as [w Ew];
    assert (Hw0 : Z.land w PTE_V = 0) by
      (rewrite <-(Hinv vpn ltac:(lia)), <-Hpte1; unfold pte_of; unfold k0 in Ha; by rewrite Ha, Ew);
    destruct (set_leaf root T1 X1 s1 (vpn / 512) a (vpn mod 512) (leaf m perm) Hwf1 Ha Hmod) as [Hwf2 Hpte2];
    set (s2 := set_words (<[a + 8 * (vpn mod 512) := leaf m perm]> (words s1)) s1) in *;
    assert (Hput : word_put (a + 8 * (vpn mod 512)) (leaf m perm) s1 = Done tt s2) by
      (apply word_put_ok; by eexists);
    simpl map_loop; rewrite (bind_Done _ _ _ _ _ E1);
    rewrite (bind_Done _ _ _ _ _ (word_get_ok _ w s1 Ew)), Hw0; cbn [Z.eqb negb];
    rewrite (bind_Done _ _ _ _ _ Hput).
  - rewrite Z.add_0_r, Z.eqb_refl.
    assert (Hu : spin_unlock mem_map_lock s2 = Done tt (set_locks (vm_locks s2 ∖ {[mem_map_lock]}) s2)).
    { unfold spin_unlock. rewrite decide_True; [done|]. simpl. by rewrite Hl1. }
    rewrite (bind_Done _ _ _ _ _ Hu). exists T1, X1, (set_locks (vm_locks s2 ∖ {[mem_map_lock]}) s2).
    split_and!; [done| | | | |].
    + destruct Hwf2. by split.
    + intros v. change (pte_of T1 (set_locks (vm_locks s2 ∖ {[mem_map_lock]}) s2) v) with (pte_of T1 s2 v).
      rewrite Hpte2, Hpte1. replace (512 * (vpn / 512) + vpn mod 512) with vpn by lia.
      destruct (decide (v = vpn)) as [->|].
      * rewrite decide_True by lia. f_equal. lia.
      * by rewrite decide_False by lia.
    + simpl. rewrite Nat.add_0_r. done.
    + done.
    + simpl. by rewrite Hl1.
  - destruct (Z.eqb_spec (4096 * vpn) (4096 * (vpn + Z.of_nat (S n)))); [lia|].
    change (2 ^ 26) with 67108864 in *. change (2 ^ 44) with 17592186044416 in *.
    unfold PGSIZE. rewrite (u64_small (4096 * vpn + 4096)), (u64_small (4096 * m + 4096)) by lia.
    replace (4096 * vpn + 4096) with (4096 * (vpn + 1)) by lia.
    replace (4096 * m + 4096) with (4096 * (m + 1)) by lia.
    replace (4096 * (vpn + Z.of_nat (S n))) with (4096 * (vpn + 1 + Z.of_nat n)) by lia.
    simpl in Hneed. rewrite <-Hd1 in Hneed.
    destruct (IH T1 X1 s2 (vpn + 1) (m + 1) Hwf2) as (T3 & X3 & s3 & E3 & Hwf3 & Hpte3 & Hs3 & Hf3 & Hl3);
      [lia|lia|lia|lia|done|simpl; lia|simpl; by rewrite Hl1| |].
    + intros v Hvr. rewrite Hpte2, Hpte1, decide_False by lia. apply Hinv. lia.
    + exists T3, X3, s3. split_and!; [exact E3|done| | | |].
      * intros v. rewrite Hpte3. rewrite Hpte2, Hpte1. destruct (decide (vpn + 1 <= v < vpn + 1 + Z.of_nat (S n))).
        -- rewrite decide_True by lia. f_equal. lia.
        -- replace (512 * (vpn / 512) + vpn mod 512) with vpn by lia.
           destruct (decide (v = vpn)) as [->|].
           ++ rewrite decide_True by lia. f_equal. lia.
           ++ by rewrite decide_False by lia.
      * change (map_need (dom T) vpn (S (S n))) with
          (need (dom T) vpn + map_need ({[k0 vpn; k1 vpn]} ∪ dom T) (vpn + 1) (S n))%nat.
        rewrite <-Hd1. lia.
      * eapply frame_trans; [exact Hf1|]. exact Hf3.
      * rewrite Hl3. simpl. by rewrite Hl1.
Qed.

Lemma mappages_ok root T X s vpn m n perm :
  pt_wf root T X s → 0 <= vpn → 0 < n → vpn + n <= 2 ^ 26 → 0 <= m → m + n <= 2 ^ 44 →
  0 <= perm < 1024 → (map_need (dom T) vpn (Z.to_nat n) <= size X)%nat → mem_map_lock ∉ vm_locks s →
  (∀ v, vpn <= v < vpn + n → Z.land (pte_of T s v) PTE_V = 0) →
  ∃ T' X' s', mappages root (4096 * vpn) (4096 * m) (4096 * n) perm s = Done 0 s' ∧
    pt_wf root T' X' s' ∧
    (∀ v, pte_of T' s' v = if decide (vpn <= v < vpn + n) then leaf (m + (v - vpn)) perm else pte_of T s v) ∧
    (size X' + map_need (dom T) vpn (Z.to_nat n) = size X)%nat ∧ frame s s' ∧ vm_locks s' = vm_locks s.
Proof.
  intros Hwf Hv Hn Hvn Hm Hmn Hperm Hneed Hlk Hinv.
  set (s0 := set_locks ({[mem_map_lock]} ∪ vm_locks s) s).
  destruct (map_loop_ok root perm (Z.to_nat (n - 1)) T X s0 vpn m) as (T' & X' & s' & E & Hwf' & Hp & Hs & Hf & Hl);
    replace (S (Z.to_nat (n - 1))) with (Z.to_nat n) in * by lia; rewrite ?Z2Nat.id in * by lia;
    [by destruct Hwf|done..|simpl; set_solver|done|].
  exists T', X', s'. split_and!; [|done|done|done|done|].
  - unfold mappages, PGSIZE. rewrite (Z.mul_comm 4096 vpn), (Z.mul_comm 4096 n), !Z.mod_mul by lia.
    rewrite Z.eqb_refl. cbn [negb]. destruct (Z.eqb_spec (n * 4096) 0); [lia|]. cbv zeta.
    change (2 ^ 26) with 67108864 in *.
    rewrite u64_small by lia. rewrite Z.div_mul by lia.
    erewrite bind_Done; cycle 1. { unfold spin_lock. rewrite decide_False by done. done. }
    rewrite <-E. f_equal; lia.
  - rewrite Hl. simpl. by apply lock_unlock_locks.
Qed.

(** C31: Mapping a range.  On a well-formed page table whose pages in the range
    are not mapped, and with enough free pages for the missing tables,
    [mappages] returns 0, maps the [n] virtual pages from [vpn] to the
    physical pages from [m], each by a leaf entry with exactly the page number,
    the bits of [perm] and the valid bit, changes no other entry, keeps the table
    well formed and releases the lock. *)
Theorem mappages_correct root T X s vpn m n perm :
  pt_wf root T X s → 0 <= vpn → 0 < n → vpn + n <= 2 ^ 26 → 0 <= m → m + n <= 2 ^ 44 →
  0 <= perm < 1024 → (map_need (dom T) vpn (Z.to_nat n) <= size X)%nat → mem_map_lock ∉ vm_locks s →
  (∀ v, vpn <= v < vpn + n → Z.land (pte_of T s v) PTE_V = 0) →
  ∃ T' X' s', mappages root (4096 * vpn) (4096 * m) (4096 * n) perm s = Done 0 s' ∧
    pt_wf root T' X' s' ∧ vm_locks s' = vm_locks s ∧
    (∀ v, vpn <= v < vpn + n → PTE2PA (pte_of T' s' v) = 4096 * (m + (v - vpn)) ∧
       pte_of T' s' v = Z.lor (Z.lor ((m + (v - vpn)) * 1024) perm) 1) ∧
    (∀ v, ¬ (vpn <= v < vpn + n) → pte_of T' s' v = pte_of T s v).
Proof.
  intros Hwf Hv Hn Hvn Hm Hmn Hperm Hneed Hlk Hinv.
  destruct (mappages_ok root T X s vpn m n perm) as (T' & X' & s' & E & Hwf' & Hp & _ & _ & Hl); [done..|].
  exists T', X', s'. split_and!; [done|done|done| |].
  - intros v Hvr. rewrite Hp, decide_True by done. unfold leaf.
    destruct (pte_decode (m + (v - vpn)) perm) as (H1 & _ & _); [lia|done|].
    split; [done|]. by rewrite PA2PTE_page by lia.
  - intros v Hvr. by rewrite Hp, decide_False.
Qed.

(** The error path: when the range reaches [MAXVA], [walk] fails and [mappages]
    returns -1 without releasing [mem_map.lock]; the next call that takes the
    lock on this CPU panics. *)
Theorem mappages_error_keeps_lock root va pa size perm s :
  va mod PGSIZE = 0 → size mod PGSIZE = 0 → 0 < size → MAXVA <= va → mem_map_lock ∉ vm_locks s →
  ∃ s', mappages root va pa size perm s = Done (-1) s' ∧ mem_map_lock ∈ vm_locks s' ∧
    ∀ va' pa' size' perm', va' mod PGSIZE = 0 → size' mod PGSIZE = 0 → size' ≠ 0 →
      mappages root va' pa' size' perm' s' = Panic.
Proof.
  intros Hva Hsz Hpos Hmax Hlk. exists (set_locks ({[mem_map_lock]} ∪ vm_locks s) s).
  assert (Hin : mem_map_lock ∈ {[mem_map_lock]} ∪ vm_locks s) by (clear; set_solver).
  split_and!; [|exact Hin|].
  - unfold mappages. rewrite Hva, Hsz, Z.eqb_refl. cbn [negb].
    destruct (Z.eqb_spec size 0) as [|_]; [lia|]. cbv zeta.
    erewrite bind_Done; cycle 1. { unfold spin_lock. rewrite decide_False by done. done. }
    assert (0 < size / PGSIZE).
    { apply Z.div_str_pos. unfold PGSIZE in *. split; [lia|].
      destruct (decide (4096 <= size)); [done|]. rewrite Z.mod_small in Hsz by lia. lia. }
    destruct (Z.to_nat (size / PGSIZE)) as [|n] eqn:En; [lia|]. simpl map_loop.
    unfold walk. destruct (Z.leb_spec MAXVA va); [|lia]. done.
  - intros va' pa' size' perm' H1 H2 H3. unfold mappages. rewrite H1, H2, Z.eqb_refl. cbn [negb].
    destruct (Z.eqb_spec size' 0); [done|]. cbv zeta. unfold mbind, M_bind, spin_lock.
    by rewrite decide_True.
Qed.

(** * The kernel page table *)

Lemma need1_le D k : (need1 D k <= 1)%nat.
Proof. unfold need1. case_decide; lia. Qed.

Lemma div_step vpn c : 0 < c → vpn / c <= (vpn + 1) / c.
Proof. intros. apply Z.div_le_mono; lia. Qed.

Lemma map_need_bound (n : nat) D vpn :
  Z.of_nat (map_need D vpn (S n)) <=
    Z.of_nat (need D vpn) + ((vpn + Z.of_nat n) / 512 - vpn / 512) +
    ((vpn + Z.of_nat n) / 2 ^ 18 - vpn / 2 ^ 18).
Proof.
  revert D vpn. induction n as [|n IH]; intros D vpn.
  { simpl. rewrite Z.add_0_r. lia. }
  change (map_need D vpn (S (S n))) with
    (need D vpn + map_need ({[k0 vpn; k1 vpn]} ∪ D) (vpn + 1) (S n))%nat.
  specialize (IH ({[k0 vpn; k1 vpn]} ∪ D) (vpn + 1)).
  replace (vpn + Z.of_nat (S n)) with (vpn + 1 + Z.of_nat n) by lia.
  assert (H1 : Z.of_nat (need ({[k0 vpn; k1 vpn]} ∪ D) (vpn + 1)) <=
    ((vpn + 1) / 512 - vpn / 512) + ((vpn + 1) / 2 ^ 18 - vpn / 2 ^ 18)).
  { unfold need. pose proof (div_step vpn 512 ltac:(lia)). pose proof (div_step vpn (2 ^ 18) ltac:(lia)).
    assert (Hk0 : Z.of_nat (need1 ({[k0 vpn; k1 vpn]} ∪ D) (k0 (vpn + 1))) <= (vpn + 1) / 512 - vpn / 512).
    { destruct (decide ((vpn + 1) / 512 = vpn / 512)) as [E|].
      - unfold need1, k0. rewrite E, decide_True by (clear; set_solver). lia.
      - pose proof (need1_le ({[k0 vpn; k1 vpn]} ∪ D) (k0 (vpn + 1))). lia. }
    assert (Hk1 : Z.of_nat (need1 ({[k0 vpn; k1 vpn]} ∪ D) (k1 (vpn + 1))) <= (vpn + 1) / 2 ^ 18 - vpn / 2 ^ 18).
    { destruct (decide ((vpn + 1) / 2 ^ 18 = vpn / 2 ^ 18)) as [E|].
      - unfold need1, k1. rewrite E, decide_True by (clear; set_solver). lia.
      - pose proof (need1_le ({[k0 vpn; k1 vpn]} ∪ D) (k1 (vpn + 1))). lia. }
    lia. }
  lia.
Qed.

(** At most one table per 512 pages and one per [2^18], rounded up generously. *)
Lemma map_need_small D vpn n :
  0 < n → Z.of_nat (map_need D vpn (Z.to_nat n)) <= 4 + n / 512 + n / 2 ^ 18.
Proof.
  intros Hn. pose proof (map_need_bound (Z.to_nat (n - 1)) D vpn) as Hb.
  replace (S (Z.to_nat (n - 1))) with (Z.to_nat n) in Hb by lia. rewrite Z2Nat.id in Hb by lia.
  assert (Hd : ∀ c, 0 < c → (vpn + (n - 1)) / c - vpn / c <= n / c + 1).
  { intros c Hc. pose proof (Z.div_mod vpn c ltac:(lia)). pose proof (Z.mod_pos_bound vpn c Hc).
    pose proof (Z.div_mod (vpn + (n - 1)) c ltac:(lia)). pose proof (Z.mod_pos_bound (vpn + (n - 1)) c Hc).
    pose proof (Z.div_mod n c ltac:(lia)). pose proof (Z.mod_pos_bound n c Hc). nia. }
  pose proof (Hd 512 ltac:(lia)). pose proof (Hd (2 ^ 18) ltac:(lia)).
  pose proof (need1_le D (k0 vpn)). pose proof (need1_le D (k1 vpn)). unfold need in *. lia.
Qed.

(** A sequence of [kvm_map] calls extends the identity mapping. *)
Lemma kvm_map_ok b root T X s vpn n perm :
  4 + n / 512 + n / 2 ^ 18 <= b → pt_wf root T X s → 0 <= vpn → 0 < n → vpn + n <= 2 ^ 26 → 0 <= perm < 1024 →
  b <= Z.of_nat (size X) → mem_map_lock ∉ vm_locks s →
  (∀ v, vpn <= v < vpn + n → pte_of T s v = 0) →
  ∃ T' X' s', kvm_map root (4096 * vpn) (4096 * vpn) (4096 * n) perm s = Done tt s' ∧
    pt_wf root T' X' s' ∧
    (∀ v, pte_of T' s' v = if decide (vpn <= v < vpn + n) then leaf v perm else pte_of T s v) ∧
    Z.of_nat (size X) <= Z.of_nat (size X') + b ∧ vm_locks s' = vm_locks s.
Proof.
  intros Hbud Hwf Hv Hn Hvn Hperm Hsize Hlk Hinv. pose proof (map_need_small (dom T) vpn n Hn).
  destruct (mappages_ok root T X s vpn vpn n perm) as (T' & X' & s' & E & Hwf' & Hp & Hs & _ & Hl);
    [done|done|done|done|done|change (2 ^ 26) with 67108864 in *; change (2 ^ 44) with 17592186044416; lia
    |done|lia|done|intros v Hvr; by rewrite Hinv|].
  exists T', X', s'. split_and!; [|done| |lia|done].
  - unfold kvm_map. by rewrite (bind_Done _ _ _ _ _ E).
  - intros v. rewrite Hp. case_decide; [|done]. f_equal. lia.
Qed.

(** The leaf entry [kvm_init] installs for virtual page [v]. *)
Definition kernel_pte (etext v : Z) : Z :=
  if decide (0xc000 <= v < 0x10002) then leaf v (Z.lor PTE_R PTE_W)
  else if decide (0x80000 <= v < etext / 4096) then leaf v (Z.lor PTE_R PTE_X)
  else if decide (etext / 4096 <= v < 0x88000) then leaf v (Z.lor PTE_R PTE_W) else 0.

Lemma root_only root X s :
  page_rep (pa s) X → root ∉ X → phys_page root →
  (∀ a i, a ∈ X → 0 <= i < 512 → is_Some (words s !! (a + 8 * i))) →
  (∀ i, 0 <= i < 512 → words s !! (root + 8 * i) = Some 0) →
  pt_wf root {[(2, 0) := root]} X s ∧ ∀ v, pte_of {[(2, 0) := root]} s v = 0.
Proof.
  intros Hr Hn Hp Hw H0. split.
  - split; [apply lookup_singleton_eq|..|done].
    + intros l x a [[= <- <-] <-]%lookup_singleton_Some. lia.
    + intros k k' a [<- <-]%lookup_singleton_Some [<- _]%lookup_singleton_Some. done.
    + intros k a [<- <-]%lookup_singleton_Some. done.
    + intros a i [[k [<- <-]%lookup_singleton_Some]|Ha] Hi; [exists 0; by apply H0|by apply Hw].
    + intros l y a [[= <- <-] <-]%lookup_singleton_Some. by left.
    + intros l x a i w [[= <- <-] <-]%lookup_singleton_Some _ Hi Ew. rewrite H0 in Ew by done.
      simplify_eq. simpl. apply lookup_singleton_ne. intros [=].
  - intros v. unfold pte_of. by rewrite lookup_singleton_ne.
Qed.

(** The cleared page that becomes the root of the kernel's table. *)
Lemma kvm_root_ok X s :
  page_rep (pa s) X → X ≠ ∅ → (∀ a i, a ∈ X → 0 <= i < 512 → is_Some (words s !! (a + 8 * i))) →
  ∃ root x W, alloc_pgt s = Done root (set_pa x s) ∧ zero_words 512 root (set_pa x s) = Done tt (set_words W (set_pa x s)) ∧
    root ∈ X ∧ root ≠ 0 ∧ pt_wf root {[(2, 0) := root]} (X ∖ {[root]}) (set_words W (set_pa x s)) ∧
    ∀ v, pte_of {[(2, 0) := root]} (set_words W (set_pa x s)) v = 0.
Proof.
  intros Hr HX Hw. destruct (alloc_pgt_ok s X Hr HX) as (root & x & Ea & Hin & Hr').
  pose proof (page_rep_phys _ _ root Hr Hin) as Hpr.
  destruct (zero_words_ok 512 root (set_pa x s)) as (W & Ez & H0 & Hsame).
  { intros i Hi. by apply Hw. }
  exists root, x, W. do 3 (split; [done|]). split.
  { intros ->. destruct Hpr as (q & ? & ?). unfold KERNBASE, PGSIZE in *. lia. }
  apply root_only; [done|clear; set_solver|done| |exact H0].
  intros a i Ha Hi. simpl. apply elem_of_difference in Ha as [Ha Hne]. rewrite Hsame; [by apply Hw|].
  intros j Hj E. pose proof (page_rep_phys _ _ a Hr Ha) as Hpa.
  apply word_addr_inj in E as [-> _]; [|done..]. by destruct Hne; apply elem_of_singleton.
Qed.

(** C30: The kernel address space.  With 256 free pages, [kvm_init] builds a
    well-formed page table with exactly the identity mappings of the device
    registers, the kernel text (read, execute) and the rest of physical memory
    (read, write); every other virtual page is unmapped. *)
Theorem kvm_init_correct etext X s :
  page_rep (pa s) X → (256 <= size X)%nat → mem_map_lock ∉ vm_locks s →
  (∀ a i, a ∈ X → 0 <= i < 512 → is_Some (words s !! (a + 8 * i))) →
  etext mod 4096 = 0 → KERNBASE < etext < PHYSTOP →
  ∃ root T X' s', kvm_init etext s = Done tt s' ∧ kernel_pagetable s' = root ∧
    pt_wf root T X' s' ∧ vm_locks s' = vm_locks s ∧ ∀ v, pte_of T s' v = kernel_pte etext v.
Proof.
  intros Hr HX Hlk Hw Hal Het. unfold KERNBASE, PHYSTOP, AVAILABLE_MEMORY, KERNBASE in Het.
  destruct (kvm_root_ok X s Hr) as (root & x & W & Ea & Ez & Hin & Hr0 & Hwf0 & Hp0); [|exact Hw|].
  { intros ->. rewrite size_empty in HX. lia. }
  set (s0 := set_words W (set_pa x s)) in *.
  assert (HsX : (size (X ∖ {[root]}) + 1 = size X)%nat).
  { rewrite size_difference by (clear -Hin; set_solver). rewrite size_singleton. clear -HX. lia. }
  set (et := etext / 4096). pose proof (Z.div_mod etext 4096 ltac:(lia)) as Hdm. fold et in Hdm.
  rewrite Hal, Z.add_0_r in Hdm.
  assert (Hb1 : 0 <= (et - 0x80000) / 512 <= 64 ∧ 0 <= (et - 0x80000) / 2 ^ 18 <= 1 ∧
    0 <= (0x88000 - et) / 512 <= 64 ∧ 0 <= (0x88000 - et) / 2 ^ 18 <= 1).
  { split_and!; first [apply Z.div_pos; lia | apply Z.div_le_upper_bound; lia]. }
  change (2 ^ 18) with 262144 in Hb1.
  destruct (kvm_map_ok 4 root _ _ s0 0x10000 1 (Z.lor PTE_R PTE_W) ltac:(done) Hwf0) as (T1 & X1 & s1 & E1 & Hwf1 & Hp1 & Hs1 & Hl1);
    [lia|lia|lia|done|lia|done|intros; apply Hp0|].
  destruct (kvm_map_ok 4 root _ _ s1 0x10001 1 (Z.lor PTE_R PTE_W) ltac:(done) Hwf1) as (T2 & X2 & s2 & E2 & Hwf2 & Hp2 & Hs2 & Hl2);
    [lia|lia|lia|done|lia|by rewrite Hl1|intros v Hv; rewrite Hp1, decide_False by lia; apply Hp0|].
  destruct (kvm_map_ok 36 root _ _ s2 0xc000 0x4000 (Z.lor PTE_R PTE_W) ltac:(done) Hwf2) as (T3 & X3 & s3 & E3 & Hwf3 & Hp3 & Hs3 & Hl3);
    [lia|lia|lia|done|lia|by rewrite Hl2, Hl1
    |intros v Hv; rewrite Hp2, Hp1, !decide_False by lia; apply Hp0|].
  destruct (kvm_map_ok 69 root _ _ s3 0x80000 (et - 0x80000) (Z.lor PTE_R PTE_X) ltac:(change (2 ^ 18) with 262144; lia) Hwf3)
    as (T4 & X4 & s4 & E4 & Hwf4 & Hp4 & Hs4 & Hl4);
    [lia|lia|change (2 ^ 26) with 67108864; lia|done|lia|by rewrite Hl3, Hl2, Hl1
    |intros v Hv; rewrite Hp3, Hp2, Hp1, !decide_False by lia; apply Hp0|].
  destruct (kvm_map_ok 69 root _ _ s4 et (0x88000 - et) (Z.lor PTE_R PTE_W) ltac:(change (2 ^ 18) with 262144; lia) Hwf4)
    as (T5 & X5 & s5 & E5 & Hwf5 & Hp5 & Hs5 & Hl5);
    [lia|lia|change (2 ^ 26) with 67108864; lia|done|lia|by rewrite Hl4, Hl3, Hl2, Hl1
    |intros v Hv; rewrite Hp4, Hp3, Hp2, Hp1, !decide_False by lia; apply Hp0|].
  exists root, T5, X5, (set_kernel_pagetable root s5). split_and!.
  - unfold kvm_init. rewrite (bind_Done _ _ _ _ _ Ea).
    destruct (Z.eqb_spec root 0); [done|].
    erewrite bind_Done by done. rewrite (bind_Done _ _ _ _ _ Ez). fold s0.
    change UART0 with (4096 * 0x10000). change PGSIZE with (4096 * 1).
    rewrite (bind_Done _ _ _ _ _ E1). change VIRTIO0 with (4096 * 0x10001).
    rewrite (bind_Done _ _ _ _ _ E2). change PLIC with (4096 * 0xc000). change 0x4000000 with (4096 * 0x4000).
    rewrite (bind_Done _ _ _ _ _ E3).
    unfold PHYSTOP, KERNBASE, AVAILABLE_MEMORY. rewrite !u64_small by lia.
    replace (etext - 0x80000000) with (4096 * (et - 0x80000)) by lia.
    change 0x80000000 with (4096 * 0x80000) at 1 2. rewrite (bind_Done _ _ _ _ _ E4).
    replace (4096 * 0x80000 + 128 * 1024 * 1024 - etext) with (4096 * (0x88000 - et)) by lia.
    rewrite Hdm. rewrite (bind_Done _ _ _ _ _ E5). done.
  - done.
  - destruct Hwf5. by split.
  - simpl. by rewrite Hl5, Hl4, Hl3, Hl2, Hl1.
  - intros v. change (pte_of T5 (set_kernel_pagetable root s5) v) with (pte_of T5 s5 v).
    rewrite Hp5, Hp4, Hp3, Hp2, Hp1, Hp0. unfold kernel_pte. fold et.
    repeat case_decide; lia || done.
Qed.

(** * Virtual memory areas and page faults *)

(** [l] lists the VMAs reached from the pointer [p], with their addresses. *)
Fixpoint vma_chain (m : gmap Z vm_area_struct) (p : option Z) (l : list (Z * vm_area_struct)) : Prop :=
  match l with
  | [] => p = None
  | (a, r) :: l => p = Some a ∧ m !! a = Some r ∧ vma_chain m (vm_next r) l
  end.
Definition covers (addr : Z) (v : Z * vm_area_struct) : Prop := vm_start v.2 <= addr <= vm_end v.2.
#[global] Instance covers_dec addr v : Decision (covers addr v).
Proof. unfold covers. apply _. Defined.

Lemma vma_loop_ok fuel s addr p l :
  vma_chain (vmas s) p l → (length l <= fuel)%nat →
  vma_loop fuel p addr s = Done (fst <$> (snd <$> list_find (covers addr) l)) s.
Proof.
  revert p l. induction fuel as [|fuel IH]; intros p [|[a r] l] Hc Hl; simpl in Hl; try lia.
  1, 2: simpl in Hc; by subst.
  destruct Hc as (-> & Ea & Hc). simpl vma_loop.
  rewrite (bind_Done _ _ _ r s) by (unfold deref; by rewrite Ea). simpl list_find.
  destruct (decide (covers addr (a, r))) as [[H1 H2]|Hn].
  - simpl in H1, H2. destruct (Z.leb_spec (vm_start r) addr); [|lia].
    destruct (Z.leb_spec addr (vm_end r)); [|lia]. done.
  - replace ((vm_start r <=? addr) && (addr <=? vm_end r)) with false; cycle 1.
    { symmetry. rewrite andb_false_iff, !Z.leb_gt. unfold covers in Hn. simpl in Hn. lia. }
    rewrite (IH (vm_next r) l Hc ltac:(lia)). by destruct (list_find (covers addr) l) as [[]|].
Qed.

Lemma chain_length m p (l : list (Z * vm_area_struct)) :
  vma_chain m p l → NoDup l.*1 → (length l <= size m)%nat.
Proof.
  intros Hc Hnd. rewrite <-(length_fmap fst), <-size_dom, <-(size_list_to_set (C := gset Z) l.*1) by done.
  apply subseteq_size. intros a. rewrite elem_of_list_to_set, list_elem_of_fmap.
  intros ([a' r] & -> & Hin). clear Hnd. revert p Hc. induction l as [|[b q] l IH]; intros p Hc.
  - by apply elem_of_nil in Hin.
  - destruct Hc as (_ & Eb & Hc). apply elem_of_cons in Hin as [[= -> ->]|Hin].
    + apply elem_of_dom. simpl. rewrite Eb. by eexists.
    + by eapply IH.
Qed.

Lemma find_vma_ok lk s addr p l :
  vma_chain (vmas s) p l → NoDup l.*1 → lk ∉ vm_locks s →
  find_vma lk p addr s = Done (fst <$> (snd <$> list_find (covers addr) l)) s.
Proof.
  intros Hc Hnd Hlk. unfold find_vma. set (s1 := set_locks ({[lk]} ∪ vm_locks s) s).
  rewrite (bind_Done _ _ _ tt s1) by (unfold spin_lock; by rewrite decide_False).
  erewrite bind_Done by done.
  pose proof (chain_length (vmas s) p l Hc Hnd) as Hlen.
  rewrite (bind_Done _ _ _ _ _ (vma_loop_ok (S (size (vmas s))) s1 addr p l Hc ltac:(lia))).
  rewrite (bind_Done _ _ _ tt s); [done|].
  unfold spin_unlock. rewrite decide_True by (simpl; clear; set_solver).
  simpl. rewrite lock_unlock_locks by done. by destruct s.
Qed.

(** Searching the VMAs.  On an acyclic list, [find_vma] returns the first area
    whose closed interval [vm_start..vm_end] contains the address, NULL when
    there is none, and leaves the state and the locks as they were. *)
Theorem find_vma_correct lk s addr p l :
  vma_chain (vmas s) p l → NoDup l.*1 → lk ∉ vm_locks s →
  ∃ r, find_vma lk p addr s = Done r s ∧
    match r with
    | Some a => ∃ pre v post, l = pre ++ (a, v) :: post ∧ vm_start v <= addr <= vm_end v ∧
                  ∀ w, w ∈ pre → ¬ vm_start w.2 <= addr <= vm_end w.2
    | None => ∀ w, w ∈ l → ¬ vm_start w.2 <= addr <= vm_end w.2
    end.
Proof.
  intros Hc Hnd Hlk. eexists. split; [by apply find_vma_ok|].
  destruct (list_find (covers addr) l) as [[i [a v]]|] eqn:E; simpl.
  - apply list_find_Some in E as (Ei & Hcov & Hpre).
    exists (take i l), v, (drop (S i) l). split_and!; [by rewrite take_drop_middle|apply Hcov..|].
    intros w (j & Hj)%list_elem_of_lookup. apply lookup_take_Some in Hj as [Hj Hji].
    by apply (Hpre j).
  - apply list_find_None in E. rewrite Forall_forall in E. intros w Hw. by apply E.
Qed.

(** Page faults.  The guard of [page_fault_handler] is [pte && ~is_cow_page(pte)]
    with a bitwise complement, which is never 0: whenever the leaf table of the
    faulting address exists, the handler panics, copy-on-write page or not. *)
Theorem page_fault_always_panics root T X s lk p l addr a fault :
  pt_wf root T X s → vma_chain (vmas s) p l → NoDup l.*1 → lk ∉ vm_locks s →
  0 <= addr < MAXVA → T !! k0 (addr / 4096) = Some a →
  page_fault_handler lk p root addr fault s = Panic.
Proof.
  intros Hwf Hc Hnd Hlk Haddr Ha. unfold page_fault_handler.
  rewrite (bind_Done _ _ _ _ _ (find_vma_ok lk s addr p l Hc Hnd Hlk)).
  destruct (fst <$> (snd <$> list_find (covers addr) l)) as [v|]; [|done].
  rewrite (bind_Done _ _ _ _ _ (walk_ro root T X s addr Hwf Haddr)), Ha. simpl fmap.
  destruct (pw_words _ _ _ _ Hwf a (addr / 4096 mod 512) ltac:(left; by eexists)
    ltac:(by apply Z.mod_pos_bound)) as [w Ew].
  cbv beta iota. rewrite (bind_Done _ _ _ true s); [done|].
  rewrite (bind_Done _ _ _ (if Z.land w PTE_COW =? 0 then 0 else 1) s); [by destruct (Z.land w PTE_COW =? 0)|].
  unfold is_cow_page. by rewrite (bind_Done _ _ _ _ _ (word_get_ok _ w s Ew)).
Qed.

(** Copy-on-write marking.  [set_cow_page] clears the write permission, sets the
    COW bit, keeps the physical address and counts a reference to that page;
    [clear_cow_page] undoes the mark but not the loss of the permission. *)
Theorem set_cow_page_correct pte w s ref :
  words s !! pte = Some w → 0 <= w < 2 ^ 64 →
  let w' := Z.lor (Z.ldiff w PTE_W) PTE_COW in
  let s1 := set_words (<[pte := w']> (words s)) s in
  set_cow_page pte ref s = ref (get_page_struct (PTE2PA w)) s1 ∧
  Z.land w' PTE_W = 0 ∧ PTE2PA w' = PTE2PA w ∧ is_cow_page pte s1 = Done 1 s1 ∧
  ∃ s2, clear_cow_page pte s1 = Done tt s2 ∧ is_cow_page pte s2 = Done 0 s2 ∧
    words s2 !! pte = Some (Z.ldiff (Z.ldiff w PTE_W) PTE_COW).
Proof.
  intros Ew Hw w' s1. unfold PTE_COW in *. change (Z.shiftl 1 8) with (2 ^ 8) in *.
  assert (Hpa : PTE2PA w' = PTE2PA w).
  { unfold PTE2PA. f_equal. f_equal. unfold w'. rewrite Z.shiftr_lor, Z.shiftr_ldiff.
    change (Z.shiftr PTE_W 10) with 0. change (Z.shiftr (2 ^ 8) 10) with 0.
    by rewrite Z.ldiff_0_r, Z.lor_0_r. }
  assert (Hcow : (Z.land w' (2 ^ 8) =? 0) = false).
  { apply Z.eqb_neq. intros E. assert (Hb : Z.testbit (Z.land w' (2 ^ 8)) 8 = false) by (rewrite E; apply Z.bits_0).
    unfold w' in Hb. by rewrite Z.land_spec, Z.lor_spec, Z.pow2_bits_true, orb_true_r in Hb by lia. }
  assert (E1 : words s1 !! pte = Some w') by apply lookup_insert_eq.
  split_and!.
  - unfold set_cow_page, PTE_COW. change (Z.shiftl 1 8) with (2 ^ 8).
    rewrite (bind_Done _ _ _ _ _ (word_get_ok _ w s Ew)).
    rewrite (bind_Done _ _ _ _ _ (word_put_ok pte _ s ltac:(by eexists))).
    rewrite (bind_Done _ _ _ (Z.ldiff w PTE_W) (set_words (<[pte := Z.ldiff w PTE_W]> (words s)) s));
      [|apply word_get_ok, lookup_insert_eq].
    rewrite (bind_Done _ _ _ tt s1); cycle 1.
    { rewrite word_put_ok by (simpl; rewrite lookup_insert_eq; by eexists).
      unfold set_words. simpl. by rewrite insert_insert_eq. }
    rewrite (bind_Done _ _ _ _ _ (word_get_ok _ _ s1 E1)). by rewrite Hpa.
  - apply Z.bits_inj'. intros i Hi. unfold w', PTE_W. change 4 with (2 ^ 2).
    rewrite Z.land_spec, Z.lor_spec, Z.ldiff_spec, Z.bits_0.
    destruct (decide (i = 2)) as [->|]; [by rewrite Z.pow2_bits_true, andb_false_r by lia|].
    rewrite (Z.pow2_bits_false 2) by lia. apply andb_false_r.
  - done.
  - unfold is_cow_page, PTE_COW. change (Z.shiftl 1 8) with (2 ^ 8).
    rewrite (bind_Done _ _ _ _ _ (word_get_ok _ _ s1 E1)). by rewrite Hcow.
  - set (w2 := Z.ldiff w' (2 ^ 8)). exists (set_words (<[pte := w2]> (words s1)) s1).
    assert (Ew2 : w2 = Z.ldiff (Z.ldiff w PTE_W) (2 ^ 8)).
    { unfold w2, w'. apply Z.bits_inj'. intros i Hi. rewrite !Z.ldiff_spec, Z.lor_spec, Z.ldiff_spec.
      by destruct (Z.testbit w i), (Z.testbit PTE_W i), (Z.testbit (2 ^ 8) i). }
    split_and!.
    + unfold clear_cow_page, PTE_COW. change (Z.shiftl 1 8) with (2 ^ 8).
      rewrite (bind_Done _ _ _ _ _ (word_get_ok _ _ s1 E1)). apply word_put_ok. by eexists.
    + unfold is_cow_page, PTE_COW. change (Z.shiftl 1 8) with (2 ^ 8).
      rewrite (bind_Done _ _ _ w2 (set_words (<[pte := w2]> (words s1)) s1));
        [|apply word_get_ok, lookup_insert_eq].
      assert (Hz : Z.land w2 (2 ^ 8) = 0).
      { unfold w2. apply Z.bits_inj'. intros i Hi. rewrite Z.land_spec, Z.ldiff_spec, Z.bits_0.
        by destruct (Z.testbit w' i), (Z.testbit (2 ^ 8) i). }
      by rewrite Hz.
    + simpl. rewrite lookup_insert_eq. by rewrite Ew2.
Qed.

End vm_proofs.

(** * Witnesses: an allocator that hands out the pages of a list *)

#[global] Instance list_PageAlloc : PageAlloc (list Z) := {
  alloc_zeroed l := match l with [] => Fault | p :: l => Done p l end;
  page_rep l X := NoDup l ∧ X = list_to_set l ∧ ∀ p, p ∈ l → phys_page p;
}.
#[global] Instance list_PageAllocLaws : PageAllocLaws (list Z).
Proof.
  split.
  - intros l X p (_ & -> & Hp) Hin%elem_of_list_to_set. by apply Hp.
  - intros [|p l] X (Hnd & -> & Hp) HX; [by destruct HX|]. apply NoDup_cons in Hnd as [Hn Hnd].
    exists p, l. split; [done|]. split; [simpl; clear; set_solver|].
    change (NoDup l ∧ list_to_set (p :: l) ∖ {[p]} = (list_to_set l : gset Z) ∧ ∀ q, q ∈ l → phys_page q).
    split_and!; [done| |].
    + simpl. assert (p ∉ (list_to_set l : gset Z)) by (by rewrite elem_of_list_to_set).
      clear -H. set_solver.
    + intros q Hq. apply Hp. by right.
  - intros [|p l] (_ & E & _); [done|]. exfalso. simpl in E. clear -E. set_solver.
Qed.

(** Pages 1 to [k] of physical memory, all words zero; page 1 is the root. *)
Definition demo_page (q : Z) : Z := KERNBASE + PGSIZE * q.
Definition demo_pages (k : Z) : list Z := demo_page <$> seqZ 2 k.
Definition demo_words (k : Z) : gmap Z Z :=
  list_to_map ((λ i, (demo_page 1 + 8 * i, 0)) <$> seqZ 0 (512 * (k + 1))).
Definition demo_hart : hart := Hart (λ _, 0) 0 [].
Definition demo_vm (k : Z) : vm (list Z) := VM (demo_pages k) (demo_words k) ∅ ∅ 0 demo_hart.

Lemma demo_words_lookup k q i :
  1 <= q < k + 2 → 0 <= i < 512 → demo_words k !! (demo_page q + 8 * i) = Some 0.
Proof.
  intros Hq Hi. unfold demo_words. apply elem_of_list_to_map.
  - rewrite <-list_fmap_compose. apply NoDup_fmap_2_strong; [|apply NoDup_seqZ].
    intros x y _ _. simpl. lia.
  - apply list_elem_of_fmap. exists (512 * (q - 1) + i). split.
    + f_equal. unfold demo_page, PGSIZE. lia.
    + apply elem_of_seqZ. lia.
Qed.

Lemma demo_pages_in k a : a ∈ demo_pages k ↔ ∃ q, a = demo_page q ∧ 2 <= q < k + 2.
Proof.
  unfold demo_pages. rewrite list_elem_of_fmap. setoid_rewrite elem_of_seqZ.
  split; intros (q & -> & ?); exists q; split; done || lia.
Qed.

Lemma demo_rep k :
  0 <= k < 1000 → page_rep (demo_pages k) (list_to_set (demo_pages k)) ∧
  size (list_to_set (demo_pages k) : gset Z) = Z.to_nat k.
Proof.
  intros Hk. assert (Hnd : NoDup (demo_pages k)).
  { apply NoDup_fmap_2; [|apply NoDup_seqZ]. intros x y. unfold demo_page, PGSIZE. lia. }
  split.
  - split; [done|]. split; [done|]. intros p (q & -> & Hq)%demo_pages_in.
    exists q. pose proof ALL_PFN_val. split; [lia|done].
  - rewrite size_list_to_set by done. unfold demo_pages. by rewrite length_fmap, length_seqZ.
Qed.

Lemma demo_wf k :
  0 <= k < 1000 → pt_wf (demo_page 1) {[(2, 0) := demo_page 1]} (list_to_set (demo_pages k)) (demo_vm k) ∧
  ∀ v, pte_of {[(2, 0) := demo_page 1]} (demo_vm k) v = 0.
Proof.
  intros Hk. apply root_only.
  - by apply demo_rep.
  - rewrite elem_of_list_to_set, demo_pages_in. intros (q & E & Hq).
    unfold demo_page, PGSIZE in E. lia.
  - exists 1. split; [by vm_compute|done].
  - intros a i Ha Hi. apply elem_of_list_to_set, demo_pages_in in Ha as (q & -> & Hq).
    simpl. rewrite demo_words_lookup by lia. by eexists.
  - intros i Hi. simpl. apply demo_words_lookup; lia.
Qed.

Lemma mappages_correct_witness :
  ∃ T' s', mappages (demo_page 1) (4096 * 5) (4096 * 7) (4096 * 1) PTE_R (demo_vm 2) = Done 0 s' ∧
    vm_locks s' = ∅ ∧ pte_of T' s' 5 = 7 * 1024 + 3.
Proof.
  destruct (demo_wf 2 ltac:(lia)) as [Hwf H0].
  destruct (mappages_correct (demo_page 1) _ _ (demo_vm 2) 5 7 1 PTE_R Hwf)
    as (T' & X' & s' & E & _ & Hl & Hp & _); [lia|lia|lia|lia|lia|by vm_compute| |apply not_elem_of_empty| |].
  - rewrite (proj2 (demo_rep 2 ltac:(lia))). rewrite dom_singleton_L. by vm_compute.
  - intros v _. by rewrite H0.
  - exists T', s'. split_and!; [exact E|exact Hl|]. by rewrite (proj2 (Hp 5 ltac:(lia))).
Defined.

Lemma mappages_error_witness :
  ∃ s', mappages (demo_page 1) MAXVA 0 4096 PTE_R (demo_vm 2) = Done (-1) s' ∧ mem_map_lock ∈ vm_locks s'.
Proof.
  destruct (mappages_error_keeps_lock (demo_page 1) MAXVA 0 4096 PTE_R (demo_vm 2))
    as (s' & E & Hl & _); [done|done|lia|done|apply not_elem_of_empty|].
  exists s'. split; [exact E|exact Hl].
Defined.

Lemma kvm_init_correct_witness :
  ∃ root T X' s', kvm_init 0x80008000 (demo_vm 256) = Done tt s' ∧ pt_wf root T X' s' ∧
    pte_of T s' 0x80000 = leaf 0x80000 (Z.lor PTE_R PTE_X).
Proof.
  destruct (kvm_init_correct 0x80008000 (list_to_set (demo_pages 256)) (demo_vm 256))
    as (root & T & X' & s' & E & _ & Hwf & _ & Hp).
  - by apply demo_rep.
  - rewrite (proj2 (demo_rep 256 ltac:(lia))). lia.
  - apply not_elem_of_empty.
  - intros a i Ha Hi. apply elem_of_list_to_set, demo_pages_in in Ha as (q & -> & Hq).
    simpl. rewrite demo_words_lookup by lia. by eexists.
  - done.
  - by vm_compute.
  - exists root, T, X', s'. split; [exact E|]. split; [exact Hwf|]. rewrite Hp. reflexivity.
Defined.

Definition demo_vmas : gmap Z vm_area_struct :=
  {[ 16 := VmArea 0 4096 0 0 None (Some 32); 32 := VmArea 8192 12287 0 0 None None ]}.
Definition demo_chain : list (Z * vm_area_struct) :=
  [(16, VmArea 0 4096 0 0 None (Some 32)); (32, VmArea 8192 12287 0 0 None None)].

Lemma find_vma_correct_witness :
  ∃ r, find_vma ("mm"%string, 0) (Some 16) 9000 (VM (A := list Z) [] ∅ demo_vmas ∅ 0 demo_hart) =
    Done r (VM (A := list Z) [] ∅ demo_vmas ∅ 0 demo_hart).
Proof.
  destruct (find_vma_correct ("mm"%string, 0) (VM (A := list Z) [] ∅ demo_vmas ∅ 0 demo_hart) 9000 (Some 16) demo_chain)
    as (r & E & _).
  - done.
  - apply (bool_decide_unpack _). by vm_compute.
  - apply not_elem_of_empty.
  - exists r. exact E.
Defined.

(** After mapping one page the fault handler panics on it. *)
Lemma page_fault_always_panics_witness :
  ∃ s, page_fault_handler ("mm"%string, 0) None (demo_page 1) (4096 * 5) (λ _ _, mret tt) s = Panic.
Proof.
  destruct (demo_wf 2 ltac:(lia)) as [Hwf H0].
  destruct (walk_ok (demo_page 1) _ _ (demo_vm 2) (4096 * 5) Hwf) as (T & X & s & a & _ & Hwf' & Ha & _ & _ & _ & [Hv _] & Hl).
  - by vm_compute.
  - rewrite (proj2 (demo_rep 2 ltac:(lia))). rewrite dom_singleton_L. by vm_compute.
  - exists s. eapply (page_fault_always_panics (demo_page 1) T X s ("mm"%string, 0) None [] (4096 * 5) a);
      [done|done|constructor|by rewrite Hl; apply not_elem_of_empty|by vm_compute|done].
Defined.

Lemma set_cow_page_correct_witness :
  Z.land (Z.lor (Z.ldiff (leaf 7 (Z.lor PTE_R PTE_W)) PTE_W) PTE_COW) PTE_W = 0.
Proof.
  apply (set_cow_page_correct 0 (leaf 7 (Z.lor PTE_R PTE_W))
    (VM (A := list Z) [] {[0 := leaf 7 (Z.lor PTE_R PTE_W)]} ∅ ∅ 0 demo_hart) (λ _, mret tt)); [done|by vm_compute].
Defined.
