(* ===== verification/Spinlock.v ===== *)
(** Spinlocks and interrupt nesting: lib/spinlock.c on several CPUs.

    A CPU carries its interrupt-enable bit, [noff] and [intena] of [struct cpu]
    and the position in [spin_lock]/[spin_unlock] it has reached; every access
    to shared memory is one step of the interleaving ([push_off] and [pop_off]
    touch the CPU's own fields only and go with the access next to them; the
    loop of [spin_lock] is one swap per step).  Two fields are ghost: [held], the
    locks the CPU is between [spin_lock] and the release of, and [saved], whether
    interrupts were on when it entered its outermost critical section. *)
From S2P Require Import Prelude.

Record spinlock := SpinLock { lock : Z; cpuid : Z }.
Definition SPIN_UNLOCKED : Z := 0.
Definition SPIN_LOCKED : Z := 1.
Definition spin_init : spinlock := SpinLock SPIN_UNLOCKED (-1).

Inductive phase :=
| Run
| Checking (l : Z)      (* [holding] of [spin_lock] has seen [SPIN_LOCKED] *)
| Spinning (l : Z)      (* in the test-and-set loop *)
| Acquired (l : Z)      (* swapped in 1, [lock->cpuid] not yet written *)
| Unlocking (l : Z)     (* [holding] of [spin_unlock] has seen [SPIN_LOCKED] *)
| Owned (l : Z)         (* [holding] was true, [lock->cpuid] not yet -1 *)
| Releasing (l : Z)     (* [lock->cpuid] is -1, [lock->lock] not yet 0 *)
| Released              (* before [pop_off] *)
| Panicked.
#[global] Instance phase_eq_dec : EqDecision phase.
Proof. solve_decision. Defined.

Record cpu := Cpu { intr : bool; noff : Z; intena : bool; ph : phase; held : list Z; saved : bool }.
Definition set_ph p (c : cpu) : cpu := Cpu (intr c) (noff c) (intena c) p (held c) (saved c).
Definition set_held h (c : cpu) : cpu := Cpu (intr c) (noff c) (intena c) (ph c) h (saved c).
Definition set_saved b (c : cpu) : cpu := Cpu (intr c) (noff c) (intena c) (ph c) (held c) b.

Definition push_off (c : cpu) : cpu :=
  Cpu false (noff c + 1) (if noff c =? 0 then intr c else intena c) (ph c) (held c) (saved c).

(** [None]: one of the two panics. *)
Definition pop_off (c : cpu) : option cpu :=
  if intr c then None else
  if noff c <? 1 then None else
  let n := noff c - 1 in
  Some (Cpu (if (n =? 0) && intena c then true else intr c) n (intena c) (ph c) (held c) (saved c)).

Definition holding (k : spinlock) (id : Z) : bool := (lock k =? SPIN_LOCKED) && (cpuid k =? id).

(** The machine: the CPUs and the locks. *)
Record mach := Mach { cpus : gmap Z cpu; locks_ : Z → spinlock }.
Definition set_cpu i c (s : mach) : mach := Mach (<[i := c]> (cpus s)) (locks_ s).
Definition set_lock l k (s : mach) : mach :=
  Mach (cpus s) (λ l', if decide (l' = l) then k else locks_ s l').

(** The ghost at the start of [spin_lock]: entering from outside any critical
    section records the interrupt state. *)
Definition enter (c : cpu) : cpu := if decide (held c = []) then set_saved (intr c) c else c.

(** The CPU and lock operations, one shared access per step. *)
Inductive step : mach → mach → Prop :=
| lock_start i c l s : cpus s !! i = Some c → ph c = Run →
    (* push_off(); lock->lock == SPIN_LOCKED *)
    step s (set_cpu i (set_ph (if lock (locks_ s l) =? SPIN_LOCKED then Checking l else Spinning l) (push_off (enter c))) s)
| lock_check i c l s : cpus s !! i = Some c → ph c = Checking l →
    (* ... && lock->cpuid == cpuid(): panic *)
    step s (set_cpu i (set_ph (if cpuid (locks_ s l) =? i then Panicked else Spinning l) c) s)
| lock_spin i c l s : cpus s !! i = Some c → ph c = Spinning l →
    lock (locks_ s l) ≠ 0 →
    (* the swap returned 1: write 1 again and loop *)
    step s (set_lock l (SpinLock SPIN_LOCKED (cpuid (locks_ s l))) s)
| lock_swap i c l s : cpus s !! i = Some c → ph c = Spinning l →
    lock (locks_ s l) = 0 →
    step s (set_lock l (SpinLock SPIN_LOCKED (cpuid (locks_ s l))) (set_cpu i (set_ph (Acquired l) c) s))
| lock_owner i c l s : cpus s !! i = Some c → ph c = Acquired l →
    step s (set_lock l (SpinLock (lock (locks_ s l)) i) (set_cpu i (set_held (l :: held c) (set_ph Run c)) s))
| unlock_start i c l s : cpus s !! i = Some c → ph c = Run →
    step s (set_cpu i (set_ph (if lock (locks_ s l) =? SPIN_LOCKED then Unlocking l else Panicked) c) s)
| unlock_check i c l s : cpus s !! i = Some c → ph c = Unlocking l →
    step s (set_cpu i (set_ph (if cpuid (locks_ s l) =? i then Owned l else Panicked) c) s)
| unlock_owner i c l s : cpus s !! i = Some c → ph c = Owned l →
    step s (set_lock l (SpinLock (lock (locks_ s l)) (-1)) (set_cpu i (set_ph (Releasing l) c) s))
| unlock_store i c l s : cpus s !! i = Some c → ph c = Releasing l →
    step s (set_lock l (SpinLock SPIN_UNLOCKED (cpuid (locks_ s l)))
      (set_cpu i (set_held (filter (λ m, m ≠ l) (held c)) (set_ph Released c)) s))
| unlock_pop i c s : cpus s !! i = Some c → ph c = Released →
    step s (set_cpu i (match pop_off c with Some c' => set_ph Run c' | None => set_ph Panicked c end) s)
| set_intr i c b s : cpus s !! i = Some c → ph c = Run → noff c = 0 →
    (* intr_on()/intr_off() outside critical sections *)
    step s (set_cpu i (Cpu b (noff c) (intena c) Run (held c) (saved c)) s).

(** CPUs numbered from 0, no lock taken, no nesting. *)
Definition init_ok (s : mach) : Prop :=
  (∀ i c, cpus s !! i = Some c → 0 <= i ∧ ph c = Run ∧ noff c = 0 ∧ held c = []) ∧
  ∀ l, locks_ s l = spin_init.

Inductive reachable : mach → Prop :=
| reach_init s : init_ok s → reachable s
| reach_step s s' : reachable s → step s s' → reachable s'.

(** * The invariant *)

Definition pending (p : phase) : Z := match p with Checking _ | Spinning _ | Acquired _ | Released => 1 | _ => 0 end.

(** Lock [l] is owned by a CPU in state [c]. *)
Definition owns (c : cpu) (l : Z) : Prop := l ∈ held c ∨ ph c = Acquired l.

Record cpu_ok (c : cpu) : Prop := {
  ck_nodup : NoDup (held c);
  ck_noff : ph c ≠ Panicked → noff c = Z.of_nat (length (held c)) + pending (ph c);
  ck_intr : ph c ≠ Panicked → 0 < noff c → intr c = false;
  ck_saved : ph c ≠ Panicked → 0 < noff c → intena c = saved c;
  ck_acq : ∀ l, ph c = Acquired l → l ∉ held c;
  ck_rel : ∀ l, ph c = Releasing l ∨ ph c = Owned l → l ∈ held c;
}.

Record inv (s : mach) : Prop := {
  in_cpu : ∀ i c, cpus s !! i = Some c → 0 <= i ∧ cpu_ok c;
  in_excl : ∀ i j c d l, cpus s !! i = Some c → cpus s !! j = Some d → owns c l → owns d l → i = j;
  in_taken : ∀ i c l, cpus s !! i = Some c → owns c l → lock (locks_ s l) = 1;
  in_lock : ∀ l, lock (locks_ s l) = 0 ∨ lock (locks_ s l) = 1 ∧ ∃ i c, cpus s !! i = Some c ∧ owns c l;
  in_owner : ∀ i c l, cpus s !! i = Some c → l ∈ held c → ph c ≠ Releasing l → cpuid (locks_ s l) = i;
  in_cpuid : ∀ i c l, cpus s !! i = Some c → cpuid (locks_ s l) = i → l ∈ held c ∧ ph c ≠ Releasing l;
}.

Lemma holding_spec k i : holding k i = true ↔ lock k = 1 ∧ cpuid k = i.
Proof. unfold holding, SPIN_LOCKED. rewrite andb_true_iff, !Z.eqb_eq. done. Qed.

(** In a good state [holding] tells exactly whether the CPU holds the lock. *)
Lemma inv_holding s i c l :
  inv s → cpus s !! i = Some c → ph c ≠ Releasing l → holding (locks_ s l) i = true ↔ l ∈ held c.
Proof.
  intros Hi Ec Hr. rewrite holding_spec. split.
  - intros [_ Hc]. by apply (in_cpuid _ Hi i c l).
  - intros Hl. split; [by apply (in_taken _ Hi i c l); [|left]|].
    by apply (in_owner _ Hi i c l).
Qed.

Lemma init_inv s : init_ok s → inv s.
Proof.
  intros [Hc Hl]. split.
  - intros i c E. destruct (Hc i c E) as (? & Hp & Hn & Hh). split; [done|].
    split; rewrite ?Hp, ?Hh, ?Hn; simpl; try done; [constructor|by intros l [?|?]].
  - intros i j c d l Ec _ [H|H] _; destruct (Hc i c Ec) as (? & Hp & _ & Hh);
      [rewrite Hh in H; by apply elem_of_nil in H|congruence].
  - intros i c l Ec [H|H]; destruct (Hc i c Ec) as (? & Hp & _ & Hh);
      [rewrite Hh in H; by apply elem_of_nil in H|congruence].
  - intros l. left. by rewrite Hl.
  - intros i c l Ec H. destruct (Hc i c Ec) as (? & Hp & _ & Hh). rewrite Hh in H. by apply elem_of_nil in H.
  - intros i c l Ec. destruct (Hc i c Ec) as (? & _). rewrite Hl. simpl. lia.
Qed.

(** A step of CPU [i] that keeps its ownership and the locks. *)
Lemma inv_same_owner s i c c' :
  inv s → cpus s !! i = Some c → cpu_ok c' → held c' = held c →
  (∀ l, ph c = Acquired l ↔ ph c' = Acquired l) → (∀ l, ph c = Releasing l ↔ ph c' = Releasing l) →
  inv (set_cpu i c' s).
Proof.
  intros Hi Ec Hok Hh Ha Hr.
  assert (Hown : ∀ l, owns c' l ↔ owns c l) by (intros l; unfold owns; rewrite Hh, Ha; done).
  split; simpl.
  - intros j d [[<- <-]|[_ E]]%lookup_insert_Some; [split; [by destruct (in_cpu _ Hi i c Ec)|done]|exact (in_cpu _ Hi j d E)].
  - intros j j' d d' l [[<- <-]|[_ E]]%lookup_insert_Some [[<- <-]|[_ E']]%lookup_insert_Some;
      rewrite ?Hown; eauto using in_excl.
  - intros j d l [[<- <-]|[_ E]]%lookup_insert_Some; rewrite ?Hown; eauto using in_taken.
  - intros l. destruct (in_lock _ Hi l) as [?|(? & j & d & E & Ho)]; [by left|right]. split; [done|].
    destruct (decide (j = i)) as [->|].
    + exists i, c'. rewrite lookup_insert_eq. split; [done|]. apply Hown. by simplify_eq.
    + exists j, d. by rewrite lookup_insert_ne.
  - intros j d l [[<- <-]|[_ E]]%lookup_insert_Some; [|eauto using in_owner].
    rewrite Hh, <-Hr. eauto using in_owner.
  - intros j d l [[<- <-]|[_ E]]%lookup_insert_Some Hc; [|eauto using in_cpuid].
    rewrite Hh, <-Hr. eauto using in_cpuid.
Qed.

Lemma inv_ext s s' :
  cpus s' = cpus s → (∀ l, locks_ s' l = locks_ s l) → inv s → inv s'.
Proof. intros Ec El [? ? ? ? ? ?]. split; intros *; rewrite ?Ec, ?El; eauto. Qed.

Lemma length_remove (l : Z) (xs : list Z) :
  NoDup xs → l ∈ xs → S (length (filter (λ m, m ≠ l) xs)) = length xs.
Proof.
  induction xs as [|x xs IH]; intros Hnd Hin; [by apply elem_of_nil in Hin|].
  apply NoDup_cons in Hnd as [Hx Hnd]. destruct (decide (x = l)) as [->|Hne].
  - rewrite filter_cons_False by (intros H; by apply H). simpl. f_equal.
    clear -Hx. induction xs as [|y xs IH]; [done|]. apply not_elem_of_cons in Hx as [Hy Hx].
    rewrite filter_cons_True by congruence. simpl. by rewrite IH.
  - rewrite filter_cons_True by done. simpl. f_equal. apply IH; [done|].
    apply elem_of_cons in Hin as [->|?]; done.
Qed.

Lemma set_lock_eq l k s : locks_ (set_lock l k s) l = k.
Proof. simpl. by rewrite decide_True. Qed.
Lemma set_lock_ne l l' k s : l' ≠ l → locks_ (set_lock l k s) l' = locks_ s l'.
Proof. intros. simpl. by rewrite decide_False. Qed.

(** ** The four steps that change ownership or [lock->cpuid] *)

Lemma inv_swap s i c l :
  inv s → cpus s !! i = Some c → ph c = Spinning l → lock (locks_ s l) = 0 →
  inv (set_lock l (SpinLock SPIN_LOCKED (cpuid (locks_ s l))) (set_cpu i (set_ph (Acquired l) c) s)).
Proof.
  intros Hi Ec Hp H0. destruct (in_cpu _ Hi i c Ec) as [Hi0 Hok].
  assert (Hfree : ∀ j d, cpus s !! j = Some d → ¬ owns d l).
  { intros j d E Ho. pose proof (in_taken _ Hi j d l E Ho). lia. }
  assert (Hown : ∀ m, owns (set_ph (Acquired l) c) m ↔ owns c m ∨ m = l).
  { intros m. unfold owns. simpl. rewrite Hp. naive_solver. }
  split; simpl.
  - intros j d [[<- <-]|[_ E]]%lookup_insert_Some; [split; [done|]|by eapply in_cpu].
    destruct Hok as [Hnd Hn Hin Hsv Ha Hr]. rewrite Hp in Hn, Hin, Hsv.
    split; simpl; [done|intros _; by apply Hn|intros _; by apply Hin|intros _; by apply Hsv| |by intros m [?|?]].
    intros m [= <-] Hm. apply (Hfree i c Ec). by left.
  - intros j j' d d' m [[<- <-]|[Hj E]]%lookup_insert_Some [[<- <-]|[Hj' E']]%lookup_insert_Some; [done| | |].
    + intros [Ho| ->]%Hown Ho'; [eauto using in_excl|by destruct (Hfree j' d' E')].
    + intros Ho' [Ho| ->]%Hown; [eauto using in_excl|by destruct (Hfree j d E)].
    + eauto using in_excl.
  - intros j d m E Ho. destruct (decide (m = l)) as [->|]; [done|].
    apply lookup_insert_Some in E as [[<- <-]|[_ E]]; [|eauto using in_taken].
    apply Hown in Ho as [Ho| ->]; [eauto using in_taken|done].
  - intros m. destruct (decide (m = l)) as [->|].
    + right. split; [done|]. exists i, (set_ph (Acquired l) c). rewrite lookup_insert_eq. split; [done|].
      by right.
    + destruct (in_lock _ Hi m) as [?|(? & j & d & E & Ho)]; [by left|right]. split; [done|].
      destruct (decide (j = i)) as [->|]; [|by exists j, d; rewrite lookup_insert_ne].
      exists i, (set_ph (Acquired l) c). rewrite lookup_insert_eq. split; [done|]. apply Hown. left. by simplify_eq.
  - intros j d m E Hm Hr. assert (Ht : cpuid (locks_ s m) = j).
    { apply lookup_insert_Some in E as [[<- <-]|[_ E]]; [|eauto using in_owner].
      apply (in_owner _ Hi i c); [done|done|by rewrite Hp]. }
    by case_decide; simplify_eq.
  - intros j d m E Hc. assert (Hc' : cpuid (locks_ s m) = j) by by case_decide; simplify_eq.
    apply lookup_insert_Some in E as [[<- <-]|[_ E]]; [|eauto using in_cpuid].
    destruct (in_cpuid _ Hi i c m Ec Hc') as [? _]. done.
Qed.

Lemma inv_owner s i c l :
  inv s → cpus s !! i = Some c → ph c = Acquired l →
  inv (set_lock l (SpinLock (lock (locks_ s l)) i) (set_cpu i (set_held (l :: held c) (set_ph Run c)) s)).
Proof.
  intros Hi Ec Hp. destruct (in_cpu _ Hi i c Ec) as [Hi0 Hok].
  set (c' := set_held (l :: held c) (set_ph Run c)).
  assert (Hown : ∀ m, owns c' m ↔ owns c m).
  { intros m. unfold owns, c'. simpl. rewrite Hp, elem_of_cons. naive_solver. }
  assert (Hl : owns c l) by (by right).
  split; simpl.
  - intros j d [[<- <-]|[_ E]]%lookup_insert_Some; [split; [done|]|by eapply in_cpu].
    destruct Hok as [Hnd Hn Hin Hsv Ha Hr]. rewrite Hp in Hn, Hin, Hsv.
    split; simpl; [apply NoDup_cons; split; [by apply Ha|done]| |intros _; by apply Hin|intros _; by apply Hsv|done|by intros m [?|?]].
    intros _. rewrite Hn by done. simpl. lia.
  - intros j j' d d' m [[<- <-]|[Hj E]]%lookup_insert_Some [[<- <-]|[Hj' E']]%lookup_insert_Some;
      rewrite ?Hown; eauto using in_excl.
  - intros j d m E Ho. assert (Ht : lock (locks_ s m) = 1).
    { apply lookup_insert_Some in E as [[<- <-]|[_ E]]; [apply Hown in Ho|]; eauto using in_taken. }
    by case_decide; simplify_eq.
  - intros m. assert (Hm : lock (locks_ s m) = 0 ∨ lock (locks_ s m) = 1 ∧
        ∃ j d, <[i:=c']> (cpus s) !! j = Some d ∧ owns d m).
    { destruct (in_lock _ Hi m) as [?|(? & j & d & E & Ho)]; [by left|right]. split; [done|].
      destruct (decide (j = i)) as [->|]; [|by exists j, d; rewrite lookup_insert_ne].
      exists i, c'. rewrite lookup_insert_eq. split; [done|]. apply Hown. by simplify_eq. }
    by case_decide; simplify_eq.
  - intros j d m E Hm Hr. case_decide as Hml.
    + subst m. simpl. apply lookup_insert_Some in E as [[<- <-]|[_ E]]; [done|].
      apply (in_excl _ Hi i j c d l); [done|done|done|by left].
    + apply lookup_insert_Some in E as [[<- <-]|[_ E]]; [|eauto using in_owner].
      apply (in_owner _ Hi i c); [done| |by rewrite Hp]. apply elem_of_cons in Hm as [|]; done.
  - intros j d m E Hc. case_decide as Hml.
    + subst m. simpl in Hc. subst j. rewrite lookup_insert_eq in E. injection E as <-.
      split; [by left|done].
    + apply lookup_insert_Some in E as [[<- <-]|[_ E]]; [|eauto using in_cpuid].
      destruct (in_cpuid _ Hi i c m Ec Hc) as [? _]. split; [by right|done].
Qed.

Lemma inv_unlock_start s i c l :
  inv s → cpus s !! i = Some c → ph c = Owned l → l ∈ held c →
  inv (set_lock l (SpinLock (lock (locks_ s l)) (-1)) (set_cpu i (set_ph (Releasing l) c) s)).
Proof.
  intros Hi Ec Hp Hl. destruct (in_cpu _ Hi i c Ec) as [Hi0 Hok].
  set (c' := set_ph (Releasing l) c).
  assert (Hown : ∀ m, owns c' m ↔ owns c m).
  { intros m. unfold owns, c'. simpl. rewrite Hp. naive_solver. }
  split; simpl.
  - intros j d [[<- <-]|[_ E]]%lookup_insert_Some; [split; [done|]|by eapply in_cpu].
    destruct Hok as [Hnd Hn Hin Hsv Ha Hr]. rewrite Hp in Hn, Hin, Hsv.
    split; simpl; [done|intros _; by apply Hn|intros _; by apply Hin|intros _; by apply Hsv|done|by intros m [[= <-]|?]].
  - intros j j' d d' m [[<- <-]|[Hj E]]%lookup_insert_Some [[<- <-]|[Hj' E']]%lookup_insert_Some;
      rewrite ?Hown; eauto using in_excl.
  - intros j d m E Ho. assert (Ht : lock (locks_ s m) = 1).
    { apply lookup_insert_Some in E as [[<- <-]|[_ E]]; [apply Hown in Ho|]; eauto using in_taken. }
    by case_decide; simplify_eq.
  - intros m. assert (Hm : lock (locks_ s m) = 0 ∨ lock (locks_ s m) = 1 ∧
        ∃ j d, <[i:=c']> (cpus s) !! j = Some d ∧ owns d m).
    { destruct (in_lock _ Hi m) as [?|(? & j & d & E & Ho)]; [by left|right]. split; [done|].
      destruct (decide (j = i)) as [->|]; [|by exists j, d; rewrite lookup_insert_ne].
      exists i, c'. rewrite lookup_insert_eq. split; [done|]. apply Hown. by simplify_eq. }
    by case_decide; simplify_eq.
  - intros j d m E Hm Hr. case_decide as Hml.
    + subst m. apply lookup_insert_Some in E as [[<- <-]|[Hj E]]; [done|].
      destruct Hj. apply (in_excl _ Hi i j c d l); [done|done|by left|by left].
    + apply lookup_insert_Some in E as [[<- <-]|[_ E]]; [|eauto using in_owner].
      apply (in_owner _ Hi i c); [done|done|by rewrite Hp].
  - intros j d m E Hc. case_decide as Hml.
    + subst m. simpl in Hc. apply lookup_insert_Some in E as [[<- <-]|[Hj E]]; [lia|].
      destruct (in_cpu _ Hi j d E). lia.
    + apply lookup_insert_Some in E as [[<- <-]|[_ E]]; [|eauto using in_cpuid].
      destruct (in_cpuid _ Hi i c m Ec Hc) as [? _]. split; [done|]. simpl. congruence.
Qed.

Lemma inv_unlock_store s i c l :
  inv s → cpus s !! i = Some c → ph c = Releasing l →
  inv (set_lock l (SpinLock SPIN_UNLOCKED (cpuid (locks_ s l)))
    (set_cpu i (set_held (filter (λ m, m ≠ l) (held c)) (set_ph Released c)) s)).
Proof.
  intros Hi Ec Hp. destruct (in_cpu _ Hi i c Ec) as [Hi0 Hok].
  pose proof (ck_rel _ Hok l (or_introl Hp)) as Hl.
  set (c' := set_held (filter (λ m, m ≠ l) (held c)) (set_ph Released c)).
  assert (Hown : ∀ m, owns c' m ↔ owns c m ∧ m ≠ l).
  { intros m. unfold owns, c'. simpl. rewrite Hp, list_elem_of_filter. naive_solver. }
  assert (Hother : ∀ j d, j ≠ i → cpus s !! j = Some d → ¬ owns d l).
  { intros j d Hj E Ho. apply Hj. apply (in_excl _ Hi j i d c l); [done|done|done|by left]. }
  split; simpl.
  - intros j d [[<- <-]|[_ E]]%lookup_insert_Some; [split; [done|]|by eapply in_cpu].
    destruct Hok as [Hnd Hn Hin Hsv Ha Hr]. rewrite Hp in Hn, Hin, Hsv.
    split; simpl; [by apply NoDup_filter| |intros _; by apply Hin|intros _; by apply Hsv|done|by intros m [?|?]].
    intros _. rewrite Hn by done. simpl. rewrite <-(length_remove l (held c) Hnd Hl). lia.
  - intros j j' d d' m [[<- <-]|[Hj E]]%lookup_insert_Some [[<- <-]|[Hj' E']]%lookup_insert_Some;
      rewrite ?Hown; naive_solver eauto using in_excl.
  - intros j d m E Ho. case_decide as Hml.
    + subst m. exfalso. apply lookup_insert_Some in E as [[<- <-]|[Hj E]].
      * by apply Hown in Ho as [_ ?].
      * by apply (Hother j d).
    + apply lookup_insert_Some in E as [[<- <-]|[_ E]]; [apply Hown in Ho as [Ho _]|]; eauto using in_taken.
  - intros m. case_decide as Hml; [by left|].
    destruct (in_lock _ Hi m) as [?|(? & j & d & E & Ho)]; [by left|right]. split; [done|].
    destruct (decide (j = i)) as [->|]; [|by exists j, d; rewrite lookup_insert_ne].
    exists i, c'. rewrite lookup_insert_eq. split; [done|]. apply Hown. by simplify_eq.
  - intros j d m E Hm Hr. assert (Hml : m ≠ l).
    { intros ->. apply lookup_insert_Some in E as [[<- <-]|[Hj E]].
      - apply list_elem_of_filter in Hm as [? _]. done.
      - apply (Hother j d); [done|done|by left]. }
    rewrite decide_False by done. apply lookup_insert_Some in E as [[<- <-]|[_ E]]; [|eauto using in_owner].
    apply list_elem_of_filter in Hm as [_ Hm]. apply (in_owner _ Hi i c); [done|done|]. rewrite Hp. congruence.
  - intros j d m E Hc. assert (Hc' : cpuid (locks_ s m) = j) by by case_decide; simplify_eq.
    apply lookup_insert_Some in E as [[<- <-]|[Hj E]]; [|eauto using in_cpuid].
    destruct (in_cpuid _ Hi i c m Ec Hc') as [Hm Hr]. split; [|done].
    apply list_elem_of_filter. split; [|done]. congruence.
Qed.

(** [pop_off] cannot panic where [spin_unlock] calls it. *)
Lemma pop_off_ok c :
  cpu_ok c → ph c = Released → ∃ c', pop_off c = Some c' ∧ cpu_ok (set_ph Run c') ∧
    held c' = held c ∧ noff c' = noff c - 1.
Proof.
  intros [Hnd Hn Hin Hsv Ha Hr] Hp. rewrite Hp in Hn, Hin, Hsv. specialize (Hn ltac:(done)). simpl in Hn.
  specialize (Hin ltac:(done) ltac:(lia)). unfold pop_off. rewrite Hin.
  destruct (Z.ltb_spec (noff c) 1); [lia|]. eexists. split; [done|]. split_and!; [|done|done].
  split; simpl; [done|intros _; lia| |intros _ ?; apply Hsv; [done|lia]|done|by intros l [?|?]].
  intros _ Hpos. destruct (Z.eqb_spec (noff c - 1) 0); [lia|]. done.
Qed.

(** [push_off] at the start of [spin_lock] saves the interrupt state of the
    outermost critical section. *)
Lemma push_off_enter c p :
  cpu_ok c → ph c = Run → pending p = 1 → (∀ l, p ≠ Acquired l ∧ p ≠ Releasing l ∧ p ≠ Owned l) →
  cpu_ok (set_ph p (push_off (enter c))) ∧ held (push_off (enter c)) = held c.
Proof.
  intros [Hnd Hn Hin Hsv Ha Hr] Hp Hpend Hno. rewrite Hp in Hn, Hsv. specialize (Hn ltac:(done)). simpl in Hn.
  assert (Hh : held (enter c) = held c) by (unfold enter; by case_decide).
  assert (Hnf : noff (enter c) = noff c) by (unfold enter; by case_decide).
  split; [|exact Hh]. split; simpl; rewrite ?Hh, ?Hnf.
  - done.
  - intros _. rewrite Hn, Hpend. lia.
  - done.
  - intros _ _. unfold enter. case_decide as Hd.
    + by rewrite Hn, Hd.
    + destruct (Z.eqb_spec (noff c) 0) as [E|]; [destruct (held c); simpl in *; [done|lia]|]. apply Hsv; [done|lia].
  - intros l E. by destruct (Hno l) as [? _].
  - intros l [E|E]; by destruct (Hno l) as (_ & ? & ?).
Qed.

(** A step that only moves a CPU to a phase that owns what it owned. *)
Lemma inv_phase s i c p :
  inv s → cpus s !! i = Some c → ph c ≠ Panicked → (p = Panicked ∨ pending p = pending (ph c)) →
  (∀ l, ph c ≠ Acquired l ∧ ph c ≠ Releasing l) → (∀ l, p ≠ Acquired l ∧ p ≠ Releasing l) →
  (∀ l, p = Owned l → l ∈ held c) → inv (set_cpu i (set_ph p c) s).
Proof.
  intros Hi Ec Hnp Hpend Hc Hp Hown. destruct (in_cpu _ Hi i c Ec) as [_ [Hnd Hn Hin Hsv Ha Hr]].
  apply inv_same_owner with c; [done|done| |done| |].
  - split; simpl; [done| |intros _; by apply Hin|intros _; by apply Hsv| |].
    + intros Hp'. destruct Hpend as [?|Hq]; [done|]. rewrite Hq. by apply Hn.
    + intros l E. by destruct (Hp l) as [? _].
    + intros l [E|E]; [by destruct (Hp l) as [_ ?]|by apply Hown].
  - intros l. split; intros E; [by destruct (Hc l) as [? _]|by destruct (Hp l) as [? _]].
  - intros l. split; intros E; [by destruct (Hc l) as [_ ?]|by destruct (Hp l) as [_ ?]].
Qed.

Lemma step_inv s s' : inv s → step s s' → inv s'.
Proof.
  intros Hi Hs. destruct Hs as [i c l s Ec Hp|i c l s Ec Hp|i c l s Ec Hp Hl|i c l s Ec Hp Hl|i c l s Ec Hp
    |i c l s Ec Hp|i c l s Ec Hp|i c l s Ec Hp|i c l s Ec Hp|i c s Ec Hp|i c b s Ec Hp Hn].
  - destruct (in_cpu _ Hi i c Ec) as [_ Hok].
    destruct (push_off_enter c (if lock (locks_ s l) =? SPIN_LOCKED then Checking l else Spinning l) Hok Hp) as [Hok' Hh];
      [by destruct (_ =? _)|by intros m; destruct (_ =? _)|].
    apply inv_same_owner with c; [done|done|done|exact Hh| |]; intros m; rewrite Hp; simpl; by destruct (_ =? _).
  - apply inv_phase; [done|done|by rewrite Hp| | | |]; rewrite ?Hp; try destruct (_ =? _); (done || auto).
  - eapply inv_ext; [| |exact Hi]; [done|]. intros m. simpl. case_decide; [subst|done].
    destruct (in_lock _ Hi l) as [?|[H1 _]]; [done|]. destruct (locks_ s l). simpl in *. by subst.
  - by apply inv_swap.
  - by apply inv_owner.
  - apply inv_phase; [done|done|by rewrite Hp| | | |]; rewrite ?Hp; try destruct (_ =? _); (done || auto).
  - apply inv_phase; [done|done|by rewrite Hp| | | |]; rewrite ?Hp; destruct (Z.eqb_spec (cpuid (locks_ s l)) i); (done || auto).
    intros m [= <-]. by apply (in_cpuid _ Hi i c l Ec).
  - apply inv_unlock_start; [done..|]. destruct (in_cpu _ Hi i c Ec) as [_ Hok]. by apply (ck_rel _ Hok); right.
  - by apply inv_unlock_store.
  - destruct (in_cpu _ Hi i c Ec) as [_ Hok]. destruct (pop_off_ok c Hok Hp) as (c' & -> & Hok' & Hh & _).
    apply inv_same_owner with c; [done..| |]; by intros m; rewrite Hp.
  - destruct (in_cpu _ Hi i c Ec) as [_ [Hnd Hn' Hin Hsv Ha Hr]]. rewrite Hp in Hn'.
    apply inv_same_owner with c; [done|done| |done| |]; [|by intros m; rewrite Hp..].
    split; simpl; [done|intros _; by apply Hn'|lia|lia|done|by intros m [?|?]].
Qed.

Lemma reachable_inv s : reachable s → inv s.
Proof. induction 1; [by apply init_inv|by eapply step_inv]. Qed.

(** C18: Mutual exclusion of spinlocks.  In every reachable state of any number of
    CPUs that interleave [spin_lock] and [spin_unlock] at the grain of their
    memory accesses, no lock is held by two CPUs, a held lock is marked locked
    by its holder, and [holding] answers exactly whether the CPU holds it, except
    between the two stores of its release. *)
Theorem spin_mutual_exclusion s :
  reachable s →
  (∀ i j c d l, cpus s !! i = Some c → cpus s !! j = Some d → l ∈ held c → l ∈ held d → i = j) ∧
  (∀ i c l, cpus s !! i = Some c → ph c ≠ Releasing l → holding (locks_ s l) i = true ↔ l ∈ held c) ∧
  (∀ l, lock (locks_ s l) = 1 ↔ ∃ i c, cpus s !! i = Some c ∧ owns c l).
Proof.
  intros Hi%reachable_inv. split_and!.
  - intros i j c d l Ec Ed Hc Hd. apply (in_excl _ Hi i j c d l); [done|done|by left|by left].
  - intros i c l. by apply inv_holding.
  - intros l. split.
    + intros H1. by destruct (in_lock _ Hi l) as [H0|[_ ?]]; [lia|].
    + intros (i & c & Ec & Ho). by apply (in_taken _ Hi i c).
Qed.

(** C24: Interrupt nesting.  In every reachable state [noff] of a CPU that has not
    panicked counts the locks it holds or is taking or has just released;
    interrupts are off whenever [noff] is positive, and [intena] then is the
    interrupt state the CPU had when it entered its outermost critical section;
    so the panics of [pop_off] are unreachable from [spin_unlock], which leaves
    interrupts off while another lock is held and otherwise restores that state. *)
Theorem spin_interrupts s i c :
  reachable s → cpus s !! i = Some c → ph c ≠ Panicked →
  noff c = Z.of_nat (length (held c)) + pending (ph c) ∧
  (0 < noff c → intr c = false ∧ intena c = saved c) ∧
  (ph c = Released → ∃ c', pop_off c = Some c' ∧ noff c' = noff c - 1 ∧
     intr c' = if decide (held c = []) then saved c else false).
Proof.
  intros Hi%reachable_inv Ec Hnp. destruct (in_cpu _ Hi i c Ec) as [_ Hok].
  pose proof (ck_noff _ Hok Hnp) as Hn. split_and!; [done| |].
  - intros Hpos. split; [by apply (ck_intr _ Hok)|by apply (ck_saved _ Hok)].
  - intros Hp. destruct (pop_off_ok c Hok Hp) as (c' & E & _ & _ & Hn'). exists c'. split_and!; [done|done|].
    rewrite Hp in Hn. simpl in Hn. unfold pop_off in E. rewrite <-(ck_saved _ Hok Hnp) by lia.
    rewrite (ck_intr _ Hok Hnp) in E by lia. destruct (Z.ltb_spec (noff c) 1); [done|].
    injection E as <-. simpl. destruct (decide (held c = [])) as [Hh|Hh].
    + rewrite Hn, Hh. simpl. by destruct (intena c).
    + destruct (Z.eqb_spec (noff c - 1) 0); [|done]. destruct (held c); [done|]. simpl in *. lia.
Qed.

(** Reachable states: CPU 0, with interrupts on, holds lock 7 and then 8 as well,
    and CPU 1 spins on 7. *)
Definition two_cpus : mach :=
  Mach {[0 := Cpu true 0 false Run [] false; 1 := Cpu true 0 false Run [] false]} (λ _, spin_init).

(** One step of the machine from the state of a reachability proof. *)
Ltac one_step R rule :=
  lazymatch type of R with reachable ?s =>
    let R' := fresh R in
    (pose proof (reach_step s _ R (rule s eq_refl eq_refl)) as R' ||
     pose proof (reach_step s _ R (rule s eq_refl eq_refl eq_refl)) as R'); clear R; rename R' into R
  end.

Lemma two_cpus_contended :
  ∃ s, reachable s ∧ (∃ c, cpus s !! 0 = Some c ∧ held c = [8; 7] ∧ ph c = Run ∧ noff c = 2 ∧ saved c = true) ∧
    ∃ d, cpus s !! 1 = Some d ∧ ph d = Spinning 7.
Proof.
  assert (R : reachable two_cpus).
  { apply reach_init. split; [|done]. unfold two_cpus. simpl cpus.
    intros i c [[<- <-]|[_ [<- <-]%lookup_singleton_Some]]%lookup_insert_Some; done. }
  one_step R (lock_start 0 (Cpu true 0 false Run [] false) 7).
  one_step R (lock_swap 0 (Cpu false 1 true (Spinning 7) [] true) 7).
  one_step R (lock_owner 0 (Cpu false 1 true (Acquired 7) [] true) 7).
  one_step R (lock_start 0 (Cpu false 1 true Run [7] true) 8).
  one_step R (lock_swap 0 (Cpu false 2 true (Spinning 8) [7] true) 8).
  one_step R (lock_owner 0 (Cpu false 2 true (Acquired 8) [7] true) 8).
  one_step R (lock_start 1 (Cpu true 0 false Run [] false) 7).
  one_step R (lock_check 1 (Cpu false 1 true (Checking 7) [] true) 7).
  eexists. split; [exact R|]. split; eexists; (split; [reflexivity|]); done.
Qed.

Lemma spin_mutual_exclusion_witness :
  ∃ s, reachable s ∧ ∀ d, cpus s !! 1 = Some d → 7 ∉ held d.
Proof.
  destruct two_cpus_contended as (s & Hr & (c & Ec & Hh & Hp) & _). exists s. split; [done|].
  intros d Ed Hin. destruct (spin_mutual_exclusion s Hr) as (Hex & _).
  specialize (Hex 0 1 c d 7 Ec Ed ltac:(rewrite Hh; right; by left) Hin). done.
Defined.

Lemma spin_interrupts_witness :
  ∃ s c, reachable s ∧ cpus s !! 0 = Some c ∧ noff c = 2 ∧ intr c = false ∧ intena c = true.
Proof.
  destruct two_cpus_contended as (s & Hr & (c & Ec & Hh & Hp & Hn & Hs) & _). exists s, c. split_and!; [done..| |];
    destruct (spin_interrupts s 0 c Hr Ec ltac:(by rewrite Hp)) as (_ & Hi & _);
    destruct (Hi ltac:(by rewrite Hn)) as [Hoff Hsv]; [exact Hoff|by rewrite Hsv].
Defined.
