(* ===== verification/Semaphore.v ===== *)
(** Semaphores, mutexes and sleep locks: lib/semaphore.c, lib/mutex.c,
    lib/sleeplock.c, at the grain of their critical sections.

    The body of [sem_wait] and [sem_signal] runs under [sem->lock], whose mutual
    exclusion is proved in Spinlock; here it is one step.  A waiter takes its
    own [thread->lock] before it leaves that section and keeps it until the
    scheduler has switched it out, so [wakeup_process] can only take effect on
    a thread that is [Asleep]. *)
From S2P Require Import Prelude Buddy.

(** [semaphore_t]: the counter and the fifo of waiting threads. *)
Record semaphore := Sem { value : Z; waiters : list Z }.

Definition sem_init (v : Z) : semaphore := Sem v [].

(** Under the lock: the new semaphore and whether the caller has to sleep. *)
Definition sem_wait (thread : Z) (m : semaphore) : semaphore * bool :=
  let v := atomic_dec (value m) in
  if v <? 0 then (Sem v (waiters m ++ [thread]), true) else (Sem v (waiters m), false).

(** Under the lock: [None] is the panic on an empty queue; otherwise the thread
    to wake, if any. *)
Definition sem_signal (m : semaphore) : option (semaphore * option Z) :=
  let v := atomic_inc (value m) in
  if v <=? 0 then
    match waiters m with
    | [] => None
    | w :: ws => Some (Sem v ws, Some w)
    end
  else Some (Sem v (waiters m), None).

(** The number of waiters is what the counter is below zero. *)
Definition sem_ok (m : semaphore) : Prop :=
  Z.of_nat (length (waiters m)) = Z.max 0 (- value m) ∧ NoDup (waiters m) ∧
  - 2 ^ 31 < value m < 2 ^ 31 - 1.

(** Free permits of the semaphore. *)
Definition permits (m : semaphore) : Z := Z.max 0 (value m).

Lemma sem_wait_spec t m :
  sem_ok m → t ∉ waiters m → let '(m', blocked) := sem_wait t m in
  value m' = value m - 1 ∧ (- 2 ^ 31 < value m - 1 → sem_ok m') ∧
  blocked = bool_decide (permits m = 0) ∧
  waiters m' = (if blocked then waiters m ++ [t] else waiters m) ∧
  permits m' = (if blocked then permits m else permits m - 1).
Proof.
  intros (Hl & Hnd & Hr) Ht. unfold sem_wait, atomic_dec, atomic_sub, permits.
  rewrite (i32_small (- (1))), i32_small by lia. replace (value m + - (1)) with (value m - 1) by lia.
  destruct (Z.ltb_spec (value m - 1) 0); simpl.
  - split_and!; [done| | |done|lia].
    + intros Hb. split_and!; simpl; [|by apply NoDup_app; split_and!;
        [done|intros x Hx ->%list_elem_of_singleton|apply NoDup_singleton]|lia|lia].
      rewrite length_app. simpl. lia.
    + symmetry. apply bool_decide_eq_true. lia.
  - split_and!; [done| | |done|lia].
    + intros Hb. split_and!; simpl; [lia|done|lia|lia].
    + symmetry. apply bool_decide_eq_false. lia.
Qed.

Lemma sem_signal_spec m :
  sem_ok m → ∃ m' w, sem_signal m = Some (m', w) ∧ value m' = value m + 1 ∧
    (value m + 1 < 2 ^ 31 - 1 → sem_ok m') ∧
    (if decide (waiters m = []) then w = None ∧ waiters m' = [] ∧ permits m' = permits m + 1
     else ∃ t ws, waiters m = t :: ws ∧ w = Some t ∧ waiters m' = ws ∧ permits m' = permits m).
Proof.
  intros (Hl & Hnd & Hr). unfold sem_signal, atomic_inc, atomic_add, permits.
  rewrite i32_small by lia. destruct (waiters m) as [|t ws] eqn:Ew; simpl in Hl.
  - destruct (Z.leb_spec (value m + 1) 0); [lia|]. eexists _, _. split; [done|]. simpl.
    split_and!; [done| |done|done|lia].
    intros Hb. split_and!; simpl; [lia|by constructor|lia|lia].
  - destruct (Z.leb_spec (value m + 1) 0); [|lia]. eexists _, _. split; [done|]. simpl.
    split_and!; [done| |exists t, ws; split_and!; [done..|lia]].
    apply NoDup_cons in Hnd as [_ Hnd]. intros Hb. split_and!; simpl; [lia|done|lia|lia].
Qed.

(** * The semaphore machine *)
Module Sema.

Inductive phase :=
| Active        (* outside, or returned from [sem_wait] *)
| Queued        (* in [waiters], on the way to [sched()], holds its thread lock *)
| Asleep        (* SLEEPING and switched out *)
| Woken.        (* RUNNABLE again, inside [sem_wait] *)

(** [grants] counts the calls of [sem_wait] that were let through, [signals]
    the calls of [sem_signal]; ghost. *)
Record st := St { sem : semaphore; threads : gmap Z phase; grants : Z; signals : Z }.

Inductive step : st → st → Prop :=
| wait_pass t s m : threads s !! t = Some Active → sem_wait t (sem s) = (m, false) →
    step s (St m (threads s) (grants s + 1) (signals s))
| wait_block t s m : threads s !! t = Some Active → sem_wait t (sem s) = (m, true) →
    step s (St m (<[t := Queued]> (threads s)) (grants s) (signals s))
| switch_out t s : threads s !! t = Some Queued →
    step s (St (sem s) (<[t := Asleep]> (threads s)) (grants s) (signals s))
| signal_free t s m : threads s !! t = Some Active → sem_signal (sem s) = Some (m, None) →
    step s (St m (threads s) (grants s) (signals s + 1))
| signal_wake t s m w : threads s !! t = Some Active → sem_signal (sem s) = Some (m, Some w) →
    threads s !! w = Some Asleep →
    step s (St m (<[w := Woken]> (threads s)) (grants s + 1) (signals s + 1))
| resume t s : threads s !! t = Some Woken →
    step s (St (sem s) (<[t := Active]> (threads s)) (grants s) (signals s)).

(** Reachability, while the counter stays inside an [int]. *)
Inductive reachable (n : Z) : st → Prop :=
| reach_init th : (∀ t p, th !! t = Some p → p = Active) → 0 <= n < 2 ^ 31 - 1 →
    reachable n (St (sem_init n) th 0 0)
| reach_step s s' : reachable n s → step s s' → - 2 ^ 31 < value (sem s') < 2 ^ 31 - 1 →
    reachable n s'.

Definition waiting (p : phase) : Prop := p = Queued ∨ p = Asleep.

Record inv (n : Z) (s : st) : Prop := {
  iv_sem : sem_ok (sem s);
  iv_wait : ∀ t, t ∈ waiters (sem s) ↔ ∃ p, threads s !! t = Some p ∧ waiting p;
  iv_count : permits (sem s) = n + signals s - grants s;
}.

Lemma not_waiting t s p n : inv n s → threads s !! t = Some p → ¬ waiting p → t ∉ waiters (sem s).
Proof. intros Hi E Hp (q & Eq & Hq)%(iv_wait _ _ Hi). by simplify_eq. Qed.

Lemma waiting_insert (th : gmap Z phase) t p q (u : Z) :
  th !! t = Some q → (waiting p ↔ waiting q) →
  (∃ r, <[t := p]> th !! u = Some r ∧ waiting r) ↔ ∃ r, th !! u = Some r ∧ waiting r.
Proof.
  intros E Hpq. destruct (decide (u = t)) as [->|]; [|by rewrite lookup_insert_ne].
  rewrite lookup_insert_eq, E. naive_solver.
Qed.

Lemma sema_reachable_inv n s : reachable n s → inv n s.
Proof.
  induction 1 as [th Hth Hn|s s' _ Hi Hs Hr].
  { split; simpl.
    - split_and!; simpl; [lia|constructor|lia|lia].
    - intros t. split; [by intros H%elem_of_nil|]. intros (p & E & [Hp|Hp]); by rewrite (Hth t p E) in Hp.
    - unfold permits. simpl. lia. }
  pose proof (iv_sem _ _ Hi) as Hok. pose proof (iv_count _ _ Hi) as Hc.
  destruct Hs as [t s m Et Em|t s m Et Em|t s Et|t s m Et Em|t s m w Et Em Ew|t s Et]; simpl in *.
  - assert (Hn : t ∉ waiters (sem s)) by (eapply not_waiting; [done|done|by intros [|]]).
    pose proof (sem_wait_spec t (sem s) Hok Hn) as Hs. rewrite Em in Hs. destruct Hs as (Hv & Hm & _ & Hw & Hp).
    split; simpl; [apply Hm; lia|intros u; rewrite Hw; by apply Hi|lia].
  - assert (Hn : t ∉ waiters (sem s)) by (eapply not_waiting; [done|done|by intros [|]]).
    pose proof (sem_wait_spec t (sem s) Hok Hn) as Hs. rewrite Em in Hs. destruct Hs as (Hv & Hm & _ & Hw & Hp).
    split; simpl; [apply Hm; lia| |lia].
    intros u. rewrite Hw, elem_of_app, list_elem_of_singleton, (iv_wait _ _ Hi u).
    destruct (decide (u = t)) as [->|Hne].
    + rewrite lookup_insert_eq. split; [intros _; exists Queued; split; [done|by left]|by right].
    + rewrite lookup_insert_ne by done. tauto.
  - split; simpl; [done| |done]. intros u. rewrite (iv_wait _ _ Hi u). symmetry.
    apply waiting_insert with Queued; [done|]. split; intros _; [by left|by right].
  - destruct (sem_signal_spec (sem s) Hok) as (m' & w' & E & Hv & Hm & Hcase). simplify_eq.
    case_decide as Hw; [|by destruct Hcase as (? & ? & _ & ? & _)].
    destruct Hcase as (_ & Hw' & Hp). split; simpl; [apply Hm; lia| |lia].
    intros u. rewrite Hw', <-Hw. apply Hi.
  - destruct (sem_signal_spec (sem s) Hok) as (m' & w' & E & Hv & Hm & Hcase). simplify_eq.
    case_decide as Hw; [by destruct Hcase|]. destruct Hcase as (w0 & ws & Ews & [= <-] & Hw' & Hp).
    split; simpl; [apply Hm; lia| |lia].
    intros u. rewrite Hw'. pose proof (iv_wait _ _ Hi u) as Hu. rewrite Ews in Hu.
    destruct Hok as (_ & Hnd & _). rewrite Ews in Hnd. apply NoDup_cons in Hnd as [Hnw _].
    destruct (decide (u = w)) as [->|Hne].
    + rewrite lookup_insert_eq. split; [done|]. intros (p & [= <-] & [|]); done.
    + rewrite lookup_insert_ne by done. rewrite <-Hu, elem_of_cons. naive_solver.
  - split; simpl; [done| |done]. intros u. rewrite (iv_wait _ _ Hi u). symmetry.
    apply waiting_insert with Woken; [done|]. split; intros [|]; done.
Qed.

(** C19: Semaphores.  In every reachable state of a semaphore initialised to [n]:
    the calls of [sem_wait] let through never exceed [n] plus the signals and
    no permit is lost; the fifo holds exactly the blocked threads; the panic of
    [sem_signal] is unreachable, and a signal with waiters grants the first of
    them. *)
Theorem semaphore_correct n s :
  reachable n s →
  grants s + permits (sem s) = n + signals s ∧ 0 <= permits (sem s) ∧
  (∀ t, t ∈ waiters (sem s) ↔ ∃ p, threads s !! t = Some p ∧ waiting p) ∧
  (waiters (sem s) ≠ [] → permits (sem s) = 0) ∧
  ∃ m w, sem_signal (sem s) = Some (m, w) ∧ w = head (waiters (sem s)).
Proof.
  intros Hi%sema_reachable_inv. pose proof (iv_count _ _ Hi). pose proof (iv_sem _ _ Hi) as Hok.
  split_and!; [lia|unfold permits; lia|apply Hi| |].
  - intros Hne. destruct Hok as (Hl & _ & _). unfold permits.
    destruct (waiters (sem s)); [done|]. simpl in Hl. lia.
  - destruct (sem_signal_spec (sem s) Hok) as (m & w & E & _ & _ & Hcase). exists m, w. split; [done|].
    case_decide as Hw; [by rewrite Hw; destruct Hcase as [-> _]|].
    destruct Hcase as (t & ws & -> & -> & _). done.
Qed.

Lemma semaphore_correct_witness :
  ∃ s, reachable 0 s ∧ waiters (sem s) = [1] ∧ permits (sem s) = 0.
Proof.
  set (s0 := St (sem_init 0) {[1 := Active; 2 := Active]} 0 0).
  assert (R0 : reachable 0 s0).
  { apply reach_init; [|lia]. intros t p [[<- <-]|[_ [<- <-]%lookup_singleton_Some]]%lookup_insert_Some; done. }
  pose proof (reach_step 0 _ _ R0 (wait_block 1 s0 (Sem (-1) [1]) eq_refl eq_refl) ltac:(simpl; lia)) as R1.
  match type of R1 with reachable _ ?s => exists s; destruct (semaphore_correct 0 s R1) as (_ & _ & _ & H & _) end.
  split_and!; [done|done|]. by apply H.
Defined.

End Sema.

(** * Mutexes *)
Module Mutex.

Definition MUTEX_LOCK : Z := 1.
Definition MUTEX_UNLOCK : Z := 0.

Record mutex := Mut { locked : Z; msem : semaphore; mthread : option Z }.

Definition mutex_init : mutex := Mut MUTEX_LOCK (sem_init MUTEX_LOCK) None.
Definition mutex_init_zero : mutex := Mut MUTEX_UNLOCK (sem_init MUTEX_UNLOCK) None.
(** The writes of [mutex_lock] after [sem_wait] has returned. *)
Definition lock_fields (me : Z) (m : mutex) : mutex := Mut MUTEX_LOCK (msem m) (Some me).
(** The writes of [mutex_unlock] before [sem_signal]. *)
Definition unlock_fields (m : mutex) : mutex := Mut MUTEX_UNLOCK (msem m) None.
Definition mutex_is_hold (me : Z) (m : mutex) : bool :=
  negb (locked m =? 0) && bool_decide (mthread m = Some me).
Definition sleep_waiters_count (m : mutex) : Z := value (msem m).
Definition set_sem x (m : mutex) : mutex := Mut (locked m) x (mthread m).

(** Where a thread is with respect to the mutex. *)
Inductive phase :=
| Idle
| Queued | Asleep | Woken    (* in [sem_wait], as in [Sema] *)
| Got                        (* [sem_wait] returned, fields not yet written *)
| Held                       (* [mutex_lock] returned *)
| Leaving.                   (* [mutex_unlock] cleared the fields *)

Record st := St { mu : mutex; threads : gmap Z phase }.

Inductive step : st → st → Prop :=
| lock_pass t s x : threads s !! t = Some Idle → sem_wait t (msem (mu s)) = (x, false) →
    step s (St (set_sem x (mu s)) (<[t := Got]> (threads s)))
| lock_block t s x : threads s !! t = Some Idle → sem_wait t (msem (mu s)) = (x, true) →
    step s (St (set_sem x (mu s)) (<[t := Queued]> (threads s)))
| switch_out t s : threads s !! t = Some Queued → step s (St (mu s) (<[t := Asleep]> (threads s)))
| resume t s : threads s !! t = Some Woken → step s (St (mu s) (<[t := Got]> (threads s)))
| lock_done t s : threads s !! t = Some Got → step s (St (lock_fields t (mu s)) (<[t := Held]> (threads s)))
| unlock_clear t s : threads s !! t = Some Held →
    step s (St (unlock_fields (mu s)) (<[t := Leaving]> (threads s)))
| unlock_free t s x : threads s !! t = Some Leaving → sem_signal (msem (mu s)) = Some (x, None) →
    step s (St (set_sem x (mu s)) (<[t := Idle]> (threads s)))
| unlock_wake t s x w : threads s !! t = Some Leaving → sem_signal (msem (mu s)) = Some (x, Some w) →
    threads s !! w = Some Asleep →
    step s (St (set_sem x (mu s)) (<[w := Woken]> (<[t := Idle]> (threads s)))).

Inductive reachable : st → Prop :=
| reach_init th : (∀ t p, th !! t = Some p → p = Idle) → reachable (St mutex_init th)
| reach_step s s' : reachable s → step s s' → - 2 ^ 31 < value (msem (mu s')) → reachable s'.

Definition waiting (p : phase) : Prop := p = Queued ∨ p = Asleep.
Definition inside (p : phase) : Prop := p = Woken ∨ p = Got ∨ p = Held ∨ p = Leaving.
#[global] Instance phase_eq_dec : EqDecision phase.
Proof. solve_decision. Defined.

(** [who] is the one thread past the semaphore, if there is one. *)
Record inv (s : st) (who : option Z) : Prop := {
  iv_sem : sem_ok (msem (mu s));
  iv_wait : ∀ t, t ∈ waiters (msem (mu s)) ↔ ∃ p, threads s !! t = Some p ∧ waiting p;
  iv_in : ∀ t, who = Some t ↔ ∃ p, threads s !! t = Some p ∧ inside p;
  iv_val : permits (msem (mu s)) = match who with Some _ => 0 | None => 1 end;
  iv_empty : who = None → waiters (msem (mu s)) = [];
  iv_fields : ∀ t, mthread (mu s) = Some t ↔ threads s !! t = Some Held;
  iv_locked : ∀ t, threads s !! t = Some Held → locked (mu s) = MUTEX_LOCK;
}.

(** How the phases of other threads are affected by an update of [t]. *)
Lemma phase_insert (P : phase → Prop) (th : gmap Z phase) t p (u : Z) :
  (∃ r, <[t := p]> th !! u = Some r ∧ P r) ↔ (u = t ∧ P p) ∨ (u ≠ t ∧ ∃ r, th !! u = Some r ∧ P r).
Proof.
  destruct (decide (u = t)) as [->|]; [rewrite lookup_insert_eq|rewrite lookup_insert_ne by done];
    naive_solver.
Qed.
Lemma held_insert (th : gmap Z phase) t p (u : Z) :
  <[t := p]> th !! u = Some Held ↔ (u = t ∧ p = Held) ∨ (u ≠ t ∧ th !! u = Some Held).
Proof.
  destruct (decide (u = t)) as [->|]; [rewrite lookup_insert_eq|rewrite lookup_insert_ne by done];
    naive_solver.
Qed.

(** Moving a thread between phases of the same group. *)
Lemma inv_move s who t p q m :
  inv s who → threads s !! t = Some p → (waiting q ↔ waiting p) → (inside q ↔ inside p) →
  msem m = msem (mu s) →
  (∀ u, mthread m = Some u ↔ <[t := q]> (threads s) !! u = Some Held) →
  (∀ u, <[t := q]> (threads s) !! u = Some Held → locked m = MUTEX_LOCK) →
  inv (St m (<[t := q]> (threads s))) who.
Proof.
  intros [Hs Hw Hin Hv He Hf Hl] Et Hwp Hip Em Hf' Hl'. split; simpl; rewrite ?Em; try done.
  - intros u. rewrite Hw, phase_insert. destruct (decide (u = t)) as [->|]; [|naive_solver].
    rewrite Et. naive_solver.
  - intros u. rewrite Hin, phase_insert. destruct (decide (u = t)) as [->|]; [|naive_solver].
    rewrite Et. naive_solver.
Qed.

Lemma who_of s who t p : inv s who → threads s !! t = Some p → inside p → who = Some t.
Proof. intros Hi E Hp. apply (iv_in _ _ Hi). by exists p. Qed.

Lemma out_of s who t p : inv s who → threads s !! t = Some p → ¬ waiting p → t ∉ waiters (msem (mu s)).
Proof. intros Hi E Hp (q & Eq & Hq)%(iv_wait _ _ Hi). by simplify_eq. Qed.

(** No thread is inside when [who] is [None]. *)
Lemma nobody s t p : inv s None → threads s !! t = Some p → ¬ inside p.
Proof. intros Hi E Hp. by pose proof (who_of s None t p Hi E Hp). Qed.

Lemma mutex_init_inv th : (∀ t p, th !! t = Some p → p = Idle) → inv (St mutex_init th) None.
Proof.
  intros Hth. split; simpl; try done.
  - split_and!; simpl; [unfold MUTEX_LOCK; lia|constructor|unfold MUTEX_LOCK; lia|unfold MUTEX_LOCK; lia].
  - intros t. split; [by intros H%elem_of_nil|]. intros (p & E & [Hp|Hp]); by rewrite (Hth t p E) in Hp.
  - intros t. split; [done|]. intros (p & E & Hp). rewrite (Hth t p E) in Hp. by destruct Hp as [|[|[|]]].
  - intros t. split; [done|]. intros E. by apply Hth in E.
Qed.

Lemma step_pass s who t x :
  inv s who → threads s !! t = Some Idle → sem_wait t (msem (mu s)) = (x, false) →
  inv (St (set_sem x (mu s)) (<[t := Got]> (threads s))) (Some t).
Proof.
  intros Hi Et Ex. assert (Hn : t ∉ waiters (msem (mu s))) by (eapply out_of; [done|done|by intros [|]]).
  pose proof (sem_wait_spec t _ (iv_sem _ _ Hi) Hn) as Hs. rewrite Ex in Hs.
  destruct Hs as (Hv & Hm & Hb & Hw & Hp). symmetry in Hb. apply bool_decide_eq_false in Hb.
  pose proof (iv_val _ _ Hi) as Hval. destruct who as [w|]; simpl in Hval; [lia|].
  pose proof (iv_empty _ _ Hi eq_refl) as Hemp.
  split; simpl; try done.
  - apply Hm. unfold permits in *. lia.
  - intros u. rewrite Hw, (iv_wait _ _ Hi u), phase_insert.
    destruct (decide (u = t)) as [->|]; [rewrite Et|]; unfold waiting; naive_solver.
  - intros u. rewrite phase_insert. split.
    + intros [= <-]. left. split; [done|]. right. by left.
    + intros [[-> _]|(Hne & p & E & Hin)]; [done|]. by destruct (nobody s u p Hi E).
  - lia.
  - intros u. rewrite (iv_fields _ _ Hi u), held_insert. destruct (decide (u = t)) as [->|]; [rewrite Et|]; naive_solver.
  - intros u [[_ ?]|[_ E]]%held_insert; [done|]. by apply (iv_locked _ _ Hi u).
Qed.

Lemma step_block s who t x :
  inv s who → threads s !! t = Some Idle → sem_wait t (msem (mu s)) = (x, true) →
  - 2 ^ 31 < value x → inv (St (set_sem x (mu s)) (<[t := Queued]> (threads s))) who.
Proof.
  intros Hi Et Ex Hr. assert (Hn : t ∉ waiters (msem (mu s))) by (eapply out_of; [done|done|by intros [|]]).
  pose proof (sem_wait_spec t _ (iv_sem _ _ Hi) Hn) as Hs. rewrite Ex in Hs.
  destruct Hs as (Hv & Hm & Hb & Hw & Hp). symmetry in Hb. apply bool_decide_eq_true in Hb.
  pose proof (iv_val _ _ Hi) as Hval. destruct who as [w|]; simpl in Hval; [|lia].
  split; simpl; try done.
  - apply Hm. lia.
  - intros u. rewrite Hw, elem_of_app, list_elem_of_singleton, (iv_wait _ _ Hi u), phase_insert.
    destruct (decide (u = t)) as [->|]; [rewrite Et|]; unfold waiting; naive_solver.
  - intros u. rewrite (iv_in _ _ Hi u), phase_insert.
    destruct (decide (u = t)) as [->|]; [rewrite Et|]; unfold inside; naive_solver.
  - lia.
  - intros u. rewrite (iv_fields _ _ Hi u), held_insert. destruct (decide (u = t)) as [->|]; [rewrite Et|]; naive_solver.
  - intros u [[_ ?]|[_ E]]%held_insert; [done|]. by apply (iv_locked _ _ Hi u).
Qed.

Lemma step_free s who t x :
  inv s who → threads s !! t = Some Leaving → sem_signal (msem (mu s)) = Some (x, None) →
  inv (St (set_sem x (mu s)) (<[t := Idle]> (threads s))) None.
Proof.
  intros Hi Et Ex. assert (Hwho : who = Some t) by (eapply who_of; [done|done|by do 3 right]). subst who.
  pose proof (iv_val _ _ Hi) as Hval. simpl in Hval. unfold permits in Hval.
  destruct (sem_signal_spec _ (iv_sem _ _ Hi)) as (m' & w' & E & Hv & Hm & Hcase). simplify_eq.
  case_decide as Hw; [|by destruct Hcase as (? & ? & _ & ? & _)]. destruct Hcase as (_ & Hw' & Hp).
  assert (Hin : ∀ u p, u ≠ t → threads s !! u = Some p → ¬ inside p).
  { intros u p Hne E' Hp'. apply Hne. pose proof (who_of _ _ _ _ Hi E' Hp'). congruence. }
  split; simpl; try done.
  - apply Hm. lia.
  - intros u. rewrite Hw', <-Hw, (iv_wait _ _ Hi u), phase_insert.
    destruct (decide (u = t)) as [->|]; [rewrite Et|]; unfold waiting; naive_solver.
  - intros u. rewrite phase_insert. split; [done|]. intros [[_ Hi']|(Hne & p & E' & Hp')].
    + by destruct Hi' as [|[|[|]]].
    + by destruct (Hin u p Hne E').
  - rewrite Hp. unfold permits. lia.
  - intros u. rewrite (iv_fields _ _ Hi u), held_insert. destruct (decide (u = t)) as [->|]; [rewrite Et|]; naive_solver.
  - intros u [[_ ?]|[_ E']]%held_insert; [done|]. by apply (iv_locked _ _ Hi u).
Qed.

Lemma step_wake s who t x w :
  inv s who → threads s !! t = Some Leaving → sem_signal (msem (mu s)) = Some (x, Some w) →
  threads s !! w = Some Asleep →
  inv (St (set_sem x (mu s)) (<[w := Woken]> (<[t := Idle]> (threads s)))) (Some w).
Proof.
  intros Hi Et Ex Ew. assert (Hwho : who = Some t) by (eapply who_of; [done|done|by do 3 right]). subst who.
  pose proof (iv_val _ _ Hi) as Hval. simpl in Hval. unfold permits in Hval.
  pose proof (iv_sem _ _ Hi) as (_ & Hnd & _).
  destruct (sem_signal_spec _ (iv_sem _ _ Hi)) as (m' & w' & E & Hv & Hm & Hcase). simplify_eq.
  case_decide as Hw; [by destruct Hcase|]. destruct Hcase as (w0 & ws & Ews & [= <-] & Hw' & Hp).
  assert (Hne : w ≠ t) by congruence. rewrite Ews in Hnd. apply NoDup_cons in Hnd as [Hnw _].
  assert (Hin : ∀ u p, u ≠ t → threads s !! u = Some p → ¬ inside p).
  { intros u p Hu E' Hp'. apply Hu. pose proof (who_of _ _ _ _ Hi E' Hp'). congruence. }
  split; simpl; try done.
  - apply Hm. lia.
  - intros u. rewrite Hw', !phase_insert. pose proof (iv_wait _ _ Hi u) as Hu. rewrite Ews, elem_of_cons in Hu.
    destruct (decide (u = w)) as [->|Huw].
    + split; [done|]. intros [[_ [|]]|[? _]]; done.
    + destruct (decide (u = t)) as [->|Hut].
      * split; [|intros [[? _]|[_ [[_ [|]]|[? _]]]]; done].
        intros Hin'. destruct Hu as [Hu _]. destruct (Hu (or_intror Hin')) as (p & E' & Hp').
        rewrite Et in E'. injection E' as <-. by destruct Hp'.
      * naive_solver.
  - intros u. rewrite !phase_insert. split.
    + intros [= <-]. left. split; [done|]. by left.
    + intros [[-> _]|(Huw & [[_ Hi']|(Hut & p & E' & Hp')])]; [done| |].
      * by destruct Hi' as [|[|[|]]].
      * by destruct (Hin u p Hut E').
  - rewrite Hp. unfold permits. lia.
  - intros u. rewrite (iv_fields _ _ Hi u), !held_insert.
    destruct (decide (u = w)) as [->|]; [rewrite Ew|]; [naive_solver|].
    destruct (decide (u = t)) as [->|]; [rewrite Et|]; naive_solver.
  - intros u [[_ ?]|[_ [[_ ?]|[_ E']]%held_insert]]%held_insert; [done|done|]. by apply (iv_locked _ _ Hi u).
Qed.

Lemma step_done s who t :
  inv s who → threads s !! t = Some Got →
  inv (St (lock_fields t (mu s)) (<[t := Held]> (threads s))) who.
Proof.
  intros Hi Et. assert (Hwho : who = Some t) by (eapply who_of; [done|done|by right; left]).
  eapply inv_move; [exact Hi|done| | |done| |done]; [unfold waiting; naive_solver|unfold inside; naive_solver|].
  intros u. simpl. rewrite held_insert. split; [by intros [= ->]; left|].
  intros [[-> _]|[Hne E]]; [done|]. exfalso. apply Hne.
  pose proof (who_of _ _ _ _ Hi E ltac:(by do 2 right; left)). congruence.
Qed.

Lemma step_clear s who t :
  inv s who → threads s !! t = Some Held →
  inv (St (unlock_fields (mu s)) (<[t := Leaving]> (threads s))) who.
Proof.
  intros Hi Et. assert (Hwho : who = Some t) by (eapply who_of; [done|done|by do 2 right; left]).
  assert (Hnone : ∀ u, <[t := Leaving]> (threads s) !! u ≠ Some Held).
  { intros u [[_ ?]|[Hne E]]%held_insert; [done|]. apply Hne.
    pose proof (who_of _ _ _ _ Hi E ltac:(by do 2 right; left)). congruence. }
  eapply inv_move; [exact Hi|done| | |done| |]; [unfold waiting; naive_solver|unfold inside; naive_solver| |].
  - intros u. simpl. split; [done|]. intros E. by destruct (Hnone u).
  - intros u E. by destruct (Hnone u).
Qed.

Lemma mutex_step_inv s who s' :
  inv s who → step s s' → - 2 ^ 31 < value (msem (mu s')) → ∃ who', inv s' who'.
Proof.
  intros Hi Hs Hr. destruct Hs; simpl in Hr.
  - eexists. by eapply step_pass.
  - eexists. by eapply step_block.
  - exists who. eapply inv_move; [exact Hi|done|unfold waiting; naive_solver|unfold inside; naive_solver|done| |].
    + intros u. rewrite (iv_fields _ _ Hi u), held_insert. destruct (decide (u = t)) as [->|]; naive_solver.
    + intros u [[_ ?]|[_ E]]%held_insert; [done|]. by apply (iv_locked _ _ Hi u).
  - exists who. eapply inv_move; [exact Hi|done|unfold waiting; naive_solver|unfold inside; naive_solver|done| |].
    + intros u. rewrite (iv_fields _ _ Hi u), held_insert. destruct (decide (u = t)) as [->|]; naive_solver.
    + intros u [[_ ?]|[_ E]]%held_insert; [done|]. by apply (iv_locked _ _ Hi u).
  - eexists. by apply step_done.
  - eexists. by apply step_clear.
  - eexists. by eapply step_free.
  - eexists. by eapply step_wake.
Qed.

Lemma mutex_reachable_inv s : reachable s → ∃ who, inv s who.
Proof. induction 1 as [|s s' _ [who Hi]]; [eexists; by apply mutex_init_inv|by eapply mutex_step_inv]. Qed.

(** C20: Mutexes (and sleep locks, which are mutexes).  Among threads that only
    unlock what they hold, at most one thread is past [sem_wait] at any time;
    [mutex_is_hold] answers exactly whether the thread is the holder; while
    anyone waits somebody is inside, so the last one to leave wakes the first
    waiter; and the panic of [sem_signal] is unreachable. *)
Theorem mutex_correct s :
  reachable s →
  (∀ t u p q, threads s !! t = Some p → threads s !! u = Some q → inside p → inside q → t = u) ∧
  (∀ t, mutex_is_hold t (mu s) = true ↔ threads s !! t = Some Held) ∧
  (waiters (msem (mu s)) ≠ [] → ∃ t p, threads s !! t = Some p ∧ inside p) ∧
  ∃ x w, sem_signal (msem (mu s)) = Some (x, w) ∧ w = head (waiters (msem (mu s))).
Proof.
  intros [who Hi]%mutex_reachable_inv. split_and!.
  - intros t u p q Et Eu Hp Hq. pose proof (who_of _ _ _ _ Hi Et Hp).
    pose proof (who_of _ _ _ _ Hi Eu Hq). congruence.
  - intros t. unfold mutex_is_hold. rewrite andb_true_iff, bool_decide_eq_true, (iv_fields _ _ Hi t).
    split; [by intros [_ ?]|]. intros E. split; [|done]. by rewrite (iv_locked _ _ Hi t E).
  - intros Hne. destruct who as [t|]; [|by rewrite (iv_empty _ _ Hi) in Hne].
    destruct (proj1 (iv_in _ _ Hi t) eq_refl) as (p & E & Hp). by exists t, p.
  - destruct (sem_signal_spec _ (iv_sem _ _ Hi)) as (m & w & E & _ & _ & Hcase). exists m, w. split; [done|].
    case_decide as Hw; [by rewrite Hw; destruct Hcase as [-> _]|].
    by destruct Hcase as (t & ws & -> & -> & _).
Qed.

(** Thread 1 holds the mutex, thread 2 waits. *)
Lemma contended :
  ∃ s, reachable s ∧ threads s !! 1 = Some Held ∧ threads s !! 2 = Some Queued.
Proof.
  set (s0 := St mutex_init {[1 := Idle; 2 := Idle]}).
  assert (R0 : reachable s0).
  { apply reach_init. intros t p [[<- <-]|[_ [<- <-]%lookup_singleton_Some]]%lookup_insert_Some; done. }
  pose proof (reach_step _ _ R0 (lock_pass 1 s0 (Sem 0 []) eq_refl eq_refl) ltac:(simpl; lia)) as R1.
  match type of R1 with reachable ?s =>
    pose proof (reach_step _ _ R1 (lock_done 1 s eq_refl) ltac:(simpl; lia)) as R2 end.
  match type of R2 with reachable ?s =>
    pose proof (reach_step _ _ R2 (lock_block 2 s (Sem (-1) [2]) eq_refl eq_refl) ltac:(simpl; lia)) as R3 end.
  eexists. split; [exact R3|done].
Qed.

Lemma mutex_correct_witness :
  ∃ s, reachable s ∧ mutex_is_hold 1 (mu s) = true ∧ mutex_is_hold 2 (mu s) ≠ true.
Proof.
  destruct contended as (s & Hr & E1 & E2). exists s. split; [done|].
  destruct (mutex_correct s Hr) as (_ & Hh & _). split; [by apply Hh|].
  intros H%Hh. congruence.
Defined.

End Mutex.

(** * The locks as calls

    [mutex_lock] and [mutex_unlock] on a mutex stored in a larger state: a wait
    that would suspend the thread blocks the call.  Sleep locks are mutexes. *)
Definition mutex_lock {S} (me : Z) (m : Mutex.mutex) : M S Mutex.mutex := λ s,
  let '(x, suspended) := sem_wait me (Mutex.msem m) in
  if suspended then Blocked else Done (Mutex.lock_fields me (Mutex.set_sem x m)) s.
Definition mutex_unlock {S} (m : Mutex.mutex) : M S Mutex.mutex := λ s,
  let m := Mutex.unlock_fields m in
  match sem_signal (Mutex.msem m) with
  | Some (x, _) => Done (Mutex.set_sem x m) s
  | None => Panic
  end.
Definition sleep_init : Mutex.mutex := Mutex.mutex_init.
Definition sleep_on {S} (me : Z) (m : Mutex.mutex) : M S Mutex.mutex := mutex_lock me m.
Definition wake_up {S} (m : Mutex.mutex) : M S Mutex.mutex := mutex_unlock m.

(** Nobody holds the lock, nobody waits; one thread holds it, nobody waits. *)
Definition idle (m : Mutex.mutex) : Prop := Mutex.msem m = sem_init 1.
Definition busy (m : Mutex.mutex) : Prop := Mutex.msem m = sem_init 0.

Lemma mutex_lock_ok {S} me m (s : S) :
  idle m → mutex_lock me m s = Done (Mutex.Mut 1 (sem_init 0) (Some me)) s.
Proof. intros E. unfold mutex_lock. by rewrite E. Qed.
Lemma mutex_unlock_ok {S} m (s : S) :
  busy m → mutex_unlock m s = Done (Mutex.Mut 0 (sem_init 1) None) s.
Proof. intros E. unfold mutex_unlock. simpl. by rewrite E. Qed.
