(* ===== verification/ObjCache.v ===== *)
(** What the kernel relies on when it calls [kmem_cache_alloc],
    [kmem_cache_free], [kmalloc] and [kfree]: an interface.

    [obj_rep c X L] relates a cache state to the set [X] of the objects it can
    hand out and the set [L] of the objects its clients hold.  An allocation
    moves one object from [X] to [L]; a release moves it back. *)
From S2P Require Import Prelude.

Class ObjCache (C : Type) := {
  obj_alloc : M C Z;
  obj_free : Z → M C unit;
  obj_rep : C → gset Z → gset Z → Prop;
}.

Class ObjCacheLaws (C : Type) `{ObjCache C} : Prop := {
  obj_rep_disjoint c X L : obj_rep c X L → X ## L;
  obj_rep_nonnull c X L x : obj_rep c X L → x ∈ X → x ≠ 0;
  obj_alloc_ok c X L : obj_rep c X L → X ≠ ∅ →
    ∃ x c', obj_alloc c = Done x c' ∧ x ∈ X ∧ obj_rep c' (X ∖ {[x]}) ({[x]} ∪ L);
  obj_free_ok c X L x : obj_rep c X L → x ∈ L →
    ∃ c', obj_free x c = Done tt c' ∧ obj_rep c' ({[x]} ∪ X) (L ∖ {[x]});
}.

(** A cache of a fixed stock of objects, handed out in the order they were
    released last; a NULL result when the stock is empty. *)
Record stock := Stock { on_shelf : list Z; handed_out : gset Z }.

#[global] Instance stock_ObjCache : ObjCache stock := {
  obj_alloc := λ s, match on_shelf s with
    | [] => Done 0 s
    | x :: l => Done x (Stock l ({[x]} ∪ handed_out s))
    end;
  obj_free := λ x s,
    if decide (x ∈ handed_out s) then Done tt (Stock (x :: on_shelf s) (handed_out s ∖ {[x]})) else Fault;
  obj_rep := λ s X L, X = list_to_set (on_shelf s) ∧ L = handed_out s ∧ NoDup (on_shelf s) ∧
    X ## L ∧ (0 ∉ X) ∧ (0 ∉ L);
}.

#[global] Instance stock_ObjCacheLaws : ObjCacheLaws stock.
Proof.
  split; simpl.
  - by intros c X L (_ & _ & _ & ? & _).
  - intros c X L x (_ & _ & _ & _ & H0 & _) Hx ->. done.
  - intros [l L0] X L (-> & -> & Hnd & Hd & H0 & H0'); simpl in *. intros Hne.
    destruct l as [|x l]; [done|]. apply NoDup_cons in Hnd as [Hx Hnd]. simpl in *.
    eexists x, _. split; [done|]. simpl. split; [set_solver|]. split_and!; [|done|done| | |]; set_solver.
  - intros [l L0] X L x (-> & -> & Hnd & Hd & H0 & H0') Hx; simpl in *.
    rewrite decide_True by done. eexists. split; [done|]. simpl. split_and!; [done|done| | | |];
      [apply NoDup_cons; split; [set_solver|done]|set_solver..].
Qed.
