(* ===== verification/Bio.v ===== *)
(** kernel/dev/blk/bio.c: a byte range of a block device cut into per-block
    pieces.

    [struct bio]s are objects of [bio_kmem_cache] (behind the [ObjCache]
    interface), linked through [b_next]; [bio_list_make] computes with
    [uint32]s.  The specification [covers] says that a list of pieces tiles a
    byte range in order, each piece inside one block. *)
From S2P Require Import Prelude ObjCache.

Definition BLK_SIZE : Z := 4096.

(** [b_page] and [b_next] are pointers, 0 being NULL. *)
Record bio := Bio { b_blockno : Z; offset : Z; len : Z; b_next : Z; b_page : Z }.
Definition set_b_page p (b : bio) : bio := Bio (b_blockno b) (offset b) (len b) (b_next b) p.

Section bio.
Context {C : Type} `{ObjCacheLaws C}.

Record bio_mem := BioMem { bio_kmem_cache : C; bios : gmap Z bio }.

Definition bio_alloc (blockno offset len next page : Z) : M bio_mem Z := λ s,
  match obj_alloc (bio_kmem_cache s) with
  | Done b c =>
      if b =? 0 then Panic
      else Done b (BioMem c (<[b := Bio blockno offset len next page]> (bios s)))
  | Panic => Panic | Fault => Fault | Blocked => Blocked | OutOfFuel => OutOfFuel
  end.

Definition bio_del (b : Z) : M bio_mem unit := λ s,
  match obj_free b (bio_kmem_cache s) with
  | Done _ c => Done tt (BioMem c (delete b (bios s)))
  | Panic => Panic | Fault => Fault | Blocked => Blocked | OutOfFuel => OutOfFuel
  end.

(** [while (count > 1)]: [count] is the loop's own measure. *)
Fixpoint middle_bios (n : nat) (count blockno bio_list : Z) : M bio_mem (Z * Z) :=
  if 1 <? count then
    match n with
    | O => out_of_fuel
    | S n =>
        let blockno := u32 (blockno - 1) in
        b ← bio_alloc blockno 0 BLK_SIZE bio_list 0;
        middle_bios n (u32 (count - 1)) blockno b
    end
  else mret (blockno, bio_list).

Definition bio_list_make (blockno offset len : Z) : M bio_mem Z :=
  if len =? 0 then mret 0 else
  let blockno := u32 (blockno + offset / BLK_SIZE) in
  let offset := offset mod BLK_SIZE in
  let last := u32 (u32 (offset + len) - 1) in
  let count := u32 (last / BLK_SIZE + 1) in
  if count =? 1 then bio_alloc blockno offset len 0 0
  else if 1 <? count then
    let blockno := u32 (u32 (blockno + count) - 1) in
    b ← bio_alloc blockno 0 (u32 (last mod BLK_SIZE + 1)) 0 0;
    '(blockno, b) ← middle_bios (Z.to_nat count) (u32 (count - 1)) blockno b;
    bio_alloc (u32 (blockno - 1)) offset (u32 (BLK_SIZE - offset)) b 0
  else panic.

(** * Specification *)

(** One piece: block number, offset and length. *)
Definition piece : Type := Z * Z * Z.

(** The pieces tile [total] bytes from the absolute byte address [start]. *)
Fixpoint covers (ps : list piece) (start total : Z) : Prop :=
  match ps with
  | [] => total = 0
  | (b, o, n) :: ps =>
      0 <= b ∧ 0 <= o ∧ 0 < n ∧ o + n <= BLK_SIZE ∧ b * BLK_SIZE + o = start ∧
      covers ps (start + n) (total - n)
  end.

Lemma covers_nonneg ps start total : covers ps start total → 0 <= total.
Proof.
  revert start total. induction ps as [|[[b o] n] ps IH]; intros start total; simpl; [lia|].
  intros (_ & _ & ? & _ & _ & Hc%IH). lia.
Qed.

(** The bios linked from [p], with their addresses. *)
Fixpoint bio_chain (m : gmap Z bio) (p : Z) (ids : list Z) (ps : list piece) : Prop :=
  match ids, ps with
  | [], [] => p = 0
  | x :: ids, (b, o, n) :: ps => p = x ∧ x ≠ 0 ∧
      ∃ e, m !! x = Some e ∧ b_blockno e = b ∧ offset e = o ∧ len e = n ∧ bio_chain m (b_next e) ids ps
  | _, _ => False
  end.

Definition bio_ok (s : bio_mem) (X : gset Z) : Prop := obj_rep (bio_kmem_cache s) X (dom (bios s)).

Lemma bio_chain_frame m m' p ids ps :
  (∀ x, x ∈ ids → m' !! x = m !! x) → bio_chain m p ids ps → bio_chain m' p ids ps.
Proof.
  revert p ps. induction ids as [|x ids IH]; intros p [|[[b o] n] ps] Hm; simpl; [done..|].
  intros (-> & Hx & e & He & ? & ? & ? & Hc). split_and!; [done..|]. exists e.
  rewrite Hm by by left. split_and!; [done..|]. apply IH; [|done]. intros. apply Hm. by right.
Qed.

Lemma bio_alloc_ok s X b o n nx ids ps :
  bio_ok s X → X ≠ ∅ → bio_chain (bios s) nx ids ps → list_to_set ids ⊆ dom (bios s) →
  ∃ x s', bio_alloc b o n nx 0 s = Done x s' ∧ x ∈ X ∧ bio_ok s' (X ∖ {[x]}) ∧
    bios s !! x = None ∧ bios s' = <[x := Bio b o n nx 0]> (bios s) ∧
    bio_chain (bios s') x (x :: ids) ((b, o, n) :: ps).
Proof.
  intros Hok Hne Hc Hids. destruct (obj_alloc_ok _ _ _ Hok Hne) as (x & c' & E & Hx & Hok').
  pose proof (obj_rep_nonnull _ _ _ _ Hok Hx) as Hx0. pose proof (obj_rep_disjoint _ _ _ Hok) as Hd.
  assert (Hnd : x ∉ dom (bios s)) by set_solver.
  eexists x, _. unfold bio_alloc. rewrite E. destruct (Z.eqb_spec x 0) as [?|_]; [done|].
  split; [done|]. split; [done|]. split_and!.
  - unfold bio_ok. simpl. by rewrite dom_insert_L.
  - by apply not_elem_of_dom.
  - done.
  - simpl. split_and!; [done..|]. eexists. rewrite lookup_insert_eq. split_and!; [done..|]. simpl.
    eapply bio_chain_frame; [|done]. intros y Hy. apply lookup_insert_ne. intros ->.
    apply Hnd, Hids. by apply elem_of_list_to_set.
Qed.

Lemma bio_del_ok s X x :
  bio_ok s X → is_Some (bios s !! x) →
  ∃ s', bio_del x s = Done tt s' ∧ bio_ok s' ({[x]} ∪ X) ∧ bios s' = delete x (bios s).
Proof.
  intros Hok Hx. destruct (obj_free_ok _ _ _ x Hok) as (c' & E & Hok'); [by apply elem_of_dom|].
  eexists. unfold bio_del. rewrite E. split; [done|]. split; [|done].
  unfold bio_ok. simpl. by rewrite dom_delete_L.
Qed.

(** What [bio_list_make] leaves behind: the chain [ps] on the objects [ids],
    all of them new, the others untouched. *)
Definition made (s s' : bio_mem) (X : gset Z) (p : Z) (ids : list Z) (ps : list piece) : Prop :=
  bio_chain (bios s') p ids ps ∧ NoDup ids ∧ list_to_set ids ⊆ X ∧
  bio_ok s' (X ∖ list_to_set ids) ∧ dom (bios s') = list_to_set ids ∪ dom (bios s) ∧
  ∀ y, y ∉ ids → bios s' !! y = bios s !! y.

Lemma made_nil s X : bio_ok s X → made s s X 0 [] [].
Proof. intros Hok. split_and!; [done|constructor|set_solver| |set_solver|done]. simpl.
  by rewrite difference_empty_L.
Qed.

Lemma made_cons s s1 X b o n nx ids ps :
  made s s1 X nx ids ps → (length ids < size X)%nat →
  ∃ x s', bio_alloc b o n nx 0 s1 = Done x s' ∧ made s s' X x (x :: ids) ((b, o, n) :: ps).
Proof.
  intros (Hc & Hnd & Hsub & Hok & Hdom & Hfr) Hsz.
  destruct (bio_alloc_ok s1 (X ∖ list_to_set ids) b o n nx ids ps Hok) as (x & s' & E & Hx & Hok' & Hno & Em & Hc');
    [|done|set_solver|].
  { intros He. assert (Hs : X ⊆ list_to_set ids) by set_solver. apply subseteq_size in Hs.
    rewrite size_list_to_set in Hs by done. lia. }
  exists x, s'. split; [done|]. split_and!; [done| | | | |].
  - apply NoDup_cons. split; [|done]. set_solver.
  - set_solver.
  - replace (X ∖ list_to_set (x :: ids)) with (X ∖ list_to_set ids ∖ {[x]}) by set_solver. done.
  - rewrite Em, dom_insert_L, Hdom. set_solver.
  - intros y Hy. apply not_elem_of_cons in Hy as [Hy1 Hy2]. rewrite Em, lookup_insert_ne by done. by apply Hfr.
Qed.

(** The pieces of [n] whole blocks in front of [ps]. *)
Lemma middle_bios_ok (m : nat) s s1 X count blockno nx ids ps total :
  made s s1 X nx ids ps → (length ids + m < size X)%nat → 0 <= count → Z.of_nat m = Z.max 0 (count - 1) →
  count <= blockno < 2 ^ 32 → count < 2 ^ 32 →
  covers ps (blockno * BLK_SIZE) total →
  ∃ nx' s' ids' ps', ∀ k, (m <= k)%nat → middle_bios k count blockno nx s1 = Done (blockno - Z.of_nat m, nx') s' ∧
    made s s' X nx' ids' ps' ∧ length ids' = (length ids + m)%nat ∧
    covers ps' ((blockno - Z.of_nat m) * BLK_SIZE) (total + Z.of_nat m * BLK_SIZE).
Proof.
  revert s1 count blockno nx ids ps total. induction m as [|m IH];
    intros s1 count blockno nx ids ps total Hm Hsz Hc0 Hcnt Hb Hc Hcov.
  - exists nx, s1, ids, ps. intros k _. split_and!; [|done|lia|].
    + destruct k; simpl; destruct (Z.ltb_spec 1 count); try lia; by rewrite Z.sub_0_r.
    + by rewrite Z.sub_0_r, Z.add_0_r.
  - destruct (made_cons s s1 X (blockno - 1) 0 BLK_SIZE nx ids ps Hm ltac:(lia)) as (x & s2 & E & Hm2).
    destruct (IH s2 (count - 1) (blockno - 1) x (x :: ids) ((blockno - 1, 0, BLK_SIZE) :: ps) (total + BLK_SIZE))
      as (nx' & s' & ids' & ps' & Hres).
    + done.
    + simpl. lia.
    + lia.
    + lia.
    + lia.
    + lia.
    + simpl. unfold BLK_SIZE in *. split_and!; [lia..|].
      replace ((blockno - 1) * 4096 + 4096) with (blockno * 4096) by lia.
      replace (total + 4096 - 4096) with total by lia. done.
    + exists nx', s', ids', ps'. intros [|k] Hk; [lia|]. destruct (Hres k ltac:(lia)) as (E' & Hm' & Hl & Hcv).
      replace (blockno - 1 - Z.of_nat m) with (blockno - Z.of_nat (S m)) in * by lia.
      split_and!; [|done|simpl in Hl; lia|].
      * simpl. destruct (Z.ltb_spec 1 count); [|lia]. rewrite !u32_small by lia.
        rewrite (bind_Done _ _ _ _ _ E). exact E'.
      * replace (total + Z.of_nat (S m) * BLK_SIZE) with (total + BLK_SIZE + Z.of_nat m * BLK_SIZE) by lia.
        done.
Qed.

(** The number of blocks a range touches. *)
Definition blocks_of (offset len : Z) : Z :=
  if len =? 0 then 0 else (offset mod BLK_SIZE + len - 1) / BLK_SIZE + 1.

Lemma blocks_of_bound o n : 0 <= n → 0 <= blocks_of o n <= n / BLK_SIZE + 2.
Proof.
  intros Hn. unfold blocks_of, BLK_SIZE. destruct (Z.eqb_spec n 0) as [->|]; [by split|].
  pose proof (Z.mod_pos_bound o 4096 ltac:(lia)).
  pose proof (Z.div_mod n 4096 ltac:(lia)). pose proof (Z.mod_pos_bound n 4096 ltac:(lia)).
  split; [assert (0 <= (o mod 4096 + n - 1) / 4096) by (apply Z.div_pos; lia); lia|].
  assert ((o mod 4096 + n - 1) / 4096 < n / 4096 + 2) by (apply Z.div_lt_upper_bound; lia). lia.
Qed.

Lemma bio_list_make_ok s X blockno offset len :
  bio_ok s X → is_u32 blockno → is_u32 offset → 0 <= len →
  blockno * BLK_SIZE + offset + len <= 2 ^ 32 * BLK_SIZE → offset mod BLK_SIZE + len < 2 ^ 32 →
  blocks_of offset len <= Z.of_nat (size X) →
  ∃ p s' ids ps, bio_list_make blockno offset len s = Done p s' ∧ made s s' X p ids ps ∧
    length ps = Z.to_nat (blocks_of offset len) ∧
    covers ps (blockno * BLK_SIZE + offset) len.
Proof.
  unfold is_u32, blocks_of, bio_list_make. intros Hok Hb Ho Hl Hend Hlen Hsz.
  destruct (Z.eqb_spec len 0) as [->|Hne].
  { exists 0, s, [], []. split_and!; [done|by apply made_nil|done|done]. }
  pose proof (Z.div_mod offset BLK_SIZE ltac:(done)) as Hdm.
  pose proof (Z.mod_pos_bound offset BLK_SIZE ltac:(done)) as Hmb.
  set (q := offset / BLK_SIZE) in *. set (o := offset mod BLK_SIZE) in *.
  assert (Hq : 0 <= q) by (apply Z.div_pos; [lia|done]).
  pose proof (Z.div_mod (o + len - 1) BLK_SIZE ltac:(done)) as Hdl.
  pose proof (Z.mod_pos_bound (o + len - 1) BLK_SIZE ltac:(done)) as Hml.
  set (c := (o + len - 1) / BLK_SIZE) in *. set (r := (o + len - 1) mod BLK_SIZE) in *.
  assert (Hc : 0 <= c) by (apply Z.div_pos; [lia|done]).
  unfold BLK_SIZE in Hdm, Hmb, Hdl, Hml, Hend.
  rewrite (u32_small (blockno + q)) by lia.
  rewrite (u32_small (o + len)) by lia. rewrite (u32_small (o + len - 1)) by lia.
  fold c r. rewrite (u32_small (c + 1)) by lia.
  destruct (Z.eqb_spec (c + 1) 1) as [Hc1|Hc1].
  - destruct (made_cons s s X (blockno + q) o len 0 [] [] (made_nil s X Hok)) as (x & s' & E & Hm); [simpl; lia|].
    eexists x, s', _, _. split_and!; [done|done|simpl; lia|]. simpl. unfold BLK_SIZE. split_and!; lia.
  - destruct (Z.ltb_spec 1 (c + 1)); [|lia].
    rewrite (u32_small (r + 1)) by lia. rewrite (u32_small (c + 1 - 1)) by lia.
    replace (c + 1 - 1) with c by lia.
    unfold BLK_SIZE. rewrite (u32_small (4096 - o)) by lia.
    assert (Hbq : u32 (u32 (blockno + q + (c + 1)) - 1) = blockno + q + c).
    { destruct (decide (blockno + q + (c + 1) = 2 ^ 32)) as [Ew|].
      - rewrite Ew. replace (u32 (2 ^ 32)) with 0 by done. unfold u32. change (0 - 1) with (-1).
        replace (blockno + q + c) with (2 ^ 32 - 1) by lia. done.
      - rewrite (u32_small (blockno + q + (c + 1))) by lia. rewrite u32_small by lia. lia. }
    rewrite Hbq. assert (Hcs : c + 1 <= Z.of_nat (size X)) by lia.
    destruct (made_cons s s X (blockno + q + c) 0 (r + 1) 0 [] [] (made_nil s X Hok)) as (x & s1 & E1 & Hm1);
      [simpl; lia|].
    destruct (middle_bios_ok (Z.to_nat (c - 1)) s s1 X c (blockno + q + c) x [x] [(blockno + q + c, 0, r + 1)] (r + 1))
      as (nx & s2 & ids & ps & Hmid).
    + done.
    + simpl. lia.
    + lia.
    + lia.
    + lia.
    + lia.
    + simpl. unfold BLK_SIZE. split_and!; lia.
    + destruct (Hmid (Z.to_nat (c + 1)) ltac:(lia)) as (E2 & Hm2 & Hl2 & Hcv).
      replace (blockno + q + c - Z.of_nat (Z.to_nat (c - 1))) with (blockno + q + 1) in * by lia.
      destruct (made_cons s s2 X (blockno + q) o (4096 - o) nx ids ps Hm2) as (y & s3 & E3 & Hm3);
        [rewrite Hl2; simpl; lia|].
      rewrite (bind_Done _ _ _ _ _ E1), (bind_Done _ _ _ _ _ E2). cbv beta iota.
      rewrite (u32_small (blockno + q + 1 - 1)) by lia. replace (blockno + q + 1 - 1) with (blockno + q) by lia.
      eexists y, s3, _, _. split_and!; [exact E3|exact Hm3| |].
      * assert (Hlp : length ps = length ids).
        { clear -Hm2. destruct Hm2 as [Hch _]. revert nx ps Hch.
          induction ids as [|i ids IH]; intros nx [|[[]] ps]; simpl; [done..|].
          intros (_ & _ & e & _ & _ & _ & _ & Hch). f_equal. by eapply IH. }
        simpl. rewrite Hlp, Hl2. simpl. lia.
      * simpl. unfold BLK_SIZE in *. split_and!; [lia..|].
        replace (blockno * 4096 + offset + (4096 - o)) with ((blockno + q + 1) * 4096) by lia.
        replace (len - (4096 - o)) with (r + 1 + Z.of_nat (Z.to_nat (c - 1)) * 4096) by lia. exact Hcv.
Qed.

End bio.
Arguments bio_mem : clear implicits.

(** [bio_list_make] cuts the [len] bytes at [offset] from block [blockno] into
    bios: new objects, linked in the order of the blocks, that tile exactly
    those bytes, each bio non-empty and inside one block; an empty request
    gives the NULL list.  It needs one object per block the range touches. *)
Theorem bio_list_make_correct `{ObjCacheLaws C} (s : bio_mem C) X blockno offset len :
  bio_ok s X → is_u32 blockno → is_u32 offset → 0 <= len →
  blockno * BLK_SIZE + offset + len <= 2 ^ 32 * BLK_SIZE → offset mod BLK_SIZE + len < 2 ^ 32 →
  blocks_of offset len <= Z.of_nat (size X) →
  ∃ p s' ids ps, bio_list_make blockno offset len s = Done p s' ∧ bio_chain (bios s') p ids ps ∧
    covers ps (blockno * BLK_SIZE + offset) len ∧ length ps = Z.to_nat (blocks_of offset len) ∧
    NoDup ids ∧ list_to_set ids ⊆ X ∧ bio_ok s' (X ∖ list_to_set ids) ∧
    (∀ y, y ∉ ids → bios s' !! y = bios s !! y).
Proof.
  intros Hok Hb Ho Hl Hend Hlen Hsz.
  destruct (bio_list_make_ok s X blockno offset len Hok Hb Ho Hl Hend Hlen Hsz)
    as (p & s' & ids & ps & E & (Hc & Hnd & Hsub & Hok' & _ & Hfr) & Hlp & Hcov).
  by exists p, s', ids, ps.
Qed.

(** 5000 bytes from offset 4000 of block 7: the end of block 7, block 8 and
    the start of block 9. *)
Definition demo_bios : bio_mem stock := BioMem (Stock [1; 2; 3] ∅) ∅.

Lemma demo_bios_ok : bio_ok demo_bios {[1; 2; 3]}.
Proof.
  unfold bio_ok. simpl. split_and!; [set_solver|by rewrite dom_empty_L| |set_solver|set_solver|].
  - by apply (bool_decide_unpack _).
  - set_solver.
Qed.

Lemma bio_list_make_witness :
  ∃ p s' ids ps, bio_list_make 7 4000 5000 demo_bios = Done p s' ∧ bio_chain (bios s') p ids ps ∧
    covers ps (7 * BLK_SIZE + 4000) 5000 ∧ length ps = Z.to_nat (blocks_of 4000 5000) ∧
    NoDup ids ∧ list_to_set ids ⊆ ({[1; 2; 3]} : gset Z) ∧ bio_ok s' ({[1; 2; 3]} ∖ list_to_set ids) ∧
    (∀ y, y ∉ ids → bios s' !! y = bios demo_bios !! y).
Proof.
  apply (bio_list_make_correct demo_bios {[1; 2; 3]} 7 4000 5000).
  - apply demo_bios_ok.
  - by split.
  - by split.
  - lia.
  - unfold BLK_SIZE. lia.
  - unfold BLK_SIZE. by vm_compute.
  - by vm_compute.
Defined.

Example bio_demo : ∃ s', bio_list_make 7 4000 5000 demo_bios = Done 3 s' ∧
  bios s' = {[1 := Bio 9 0 808 0 0; 2 := Bio 8 0 4096 1 0; 3 := Bio 7 4000 96 2 0]}.
Proof. eexists. vm_compute. split; reflexivity. Qed.
