(* ===== verification/LLDisk.v ===== *)
(** The low-level side of a block device: the operation [ll_rw] of
    include/dev/blk/gendisk.h as an interface, and the in-memory disk of
    drive/blk/mvir_blk.c as an implementation of it. *)
From S2P Require Import Prelude Buddy Bio.

Definition DEV_READ : Z := 0.
Definition DEV_WRITE : Z := 1.

(** [ll_rw bno rw page]: transfer block [bno] from or to a page; the result is
    the page afterwards.  [disk_at d b] is the stored block [b], [None] past
    the end of the device. *)
Class LLDisk (D : Type) := {
  ll_rw : Z → Z → list Z → M D (list Z);
  disk_at : D → Z → option (list Z);
}.

Class LLDiskLaws (D : Type) `{LLDisk D} : Prop := {
  disk_at_length d b l : disk_at d b = Some l → Z.of_nat (length l) = BLK_SIZE;
  ll_read_ok d b l page : disk_at d b = Some l → Z.of_nat (length page) = BLK_SIZE →
    ∃ d', ll_rw b DEV_READ page d = Done l d' ∧ ∀ x, disk_at d' x = disk_at d x;
  ll_write_ok d b page : is_Some (disk_at d b) → Z.of_nat (length page) = BLK_SIZE →
    ∃ d', ll_rw b DEV_WRITE page d = Done page d' ∧ disk_at d' b = Some page ∧
      ∀ x, x ≠ b → disk_at d' x = disk_at d x;
}.

(** * drive/blk/mvir_blk.c *)

Definition DISK_SIZE : Z := 4 * 1024 * 1024.

(** The pages behind [addr], as bytes. *)
Record mvirt := Mvirt { addr : list Z }.

Definition mvirt_blk_dev_init : mvirt := Mvirt (replicate (Z.to_nat DISK_SIZE) 97).

(** [bio->b_blockno * PGSIZE] is a 32-bit product. *)
Definition mvirt_blk_ll_rw (bno rw : Z) (page : list Z) : M mvirt (list Z) := λ d,
  let start := u32 (bno * PGSIZE) in
  if rw =? DEV_READ then
    match slice (Z.to_nat start) (Z.to_nat PGSIZE) (addr d) with
    | Some data => match splice 0 data page with Some p => Done p d | None => Fault end
    | None => Fault
    end
  else if rw =? DEV_WRITE then
    match slice 0 (Z.to_nat PGSIZE) page with
    | Some data => match splice (Z.to_nat start) data (addr d) with
                   | Some m => Done page (Mvirt m) | None => Fault end
    | None => Fault
    end
  else Done page d.

(** Devices of at most 4 GiB: past that the product wraps. *)
Definition mvirt_at (d : mvirt) (b : Z) : option (list Z) :=
  if (0 <=? b) && (Z.of_nat (length (addr d)) <=? 2 ^ 32) then
    slice (Z.to_nat (b * PGSIZE)) (Z.to_nat PGSIZE) (addr d)
  else None.

#[global] Instance mvirt_LLDisk : LLDisk mvirt := { ll_rw := mvirt_blk_ll_rw; disk_at := mvirt_at }.

Lemma mvirt_at_inv d b l : mvirt_at d b = Some l →
  0 <= b ∧ b * PGSIZE + PGSIZE <= Z.of_nat (length (addr d)) ∧ Z.of_nat (length (addr d)) <= 2 ^ 32 ∧
  slice (Z.to_nat (b * PGSIZE)) (Z.to_nat PGSIZE) (addr d) = Some l.
Proof.
  unfold mvirt_at. destruct (Z.leb_spec 0 b), (Z.leb_spec (Z.of_nat (length (addr d))) (2 ^ 32)); try done.
  simpl. intros E. pose proof E as Es. unfold slice in E. case_match eqn:Hl; [|done]. apply Nat.leb_le in Hl.
  unfold PGSIZE in *. split_and!; [done|lia|done|done].
Qed.

Lemma splice_whole (data page : list Z) : length data = length page → splice 0 data page = Some data.
Proof.
  intros E. rewrite splice_ok by lia. simpl. f_equal. rewrite drop_ge by lia. apply app_nil_r.
Qed.

#[global] Instance mvirt_LLDiskLaws : LLDiskLaws mvirt.
Proof.
  split.
  - intros d b l (_ & _ & _ & E)%mvirt_at_inv. by rewrite (slice_length _ _ _ _ E).
  - intros d b l page (Hb & Hl & Hw & E)%mvirt_at_inv Hp. exists d. split; [|done].
    simpl. unfold mvirt_blk_ll_rw. change (DEV_READ =? DEV_READ) with true. cbv beta iota zeta.
    unfold PGSIZE, BLK_SIZE in *. rewrite u32_small by lia. rewrite E, splice_whole; [done|].
    rewrite (slice_length _ _ _ _ E). lia.
  - intros d b page [l (Hb & Hl & Hw & E)%mvirt_at_inv] Hp. unfold PGSIZE, BLK_SIZE in *.
    pose proof (splice_ok (Z.to_nat (b * 4096)) page (addr d) ltac:(lia)) as Hs. set (m := take _ _ ++ _) in Hs.
    pose proof (splice_length _ _ _ _ Hs) as Hml.
    assert (Hsl : slice 0 (Z.to_nat 4096) page = Some page).
    { rewrite slice_ok by lia. rewrite drop_0, take_ge by lia. done. }
    exists (Mvirt m). simpl. split; [|split].
    + unfold mvirt_blk_ll_rw, PGSIZE. change (DEV_WRITE =? DEV_READ) with false. change (DEV_WRITE =? DEV_WRITE) with true.
      cbv beta iota zeta. rewrite u32_small by lia. by rewrite Hsl, Hs.
    + unfold mvirt_at, PGSIZE. simpl. rewrite Hml. destruct (Z.leb_spec 0 b), (Z.leb_spec (Z.of_nat (length (addr d))) (2 ^ 32)); try lia.
      simpl. replace (Z.to_nat 4096) with (length page) by lia. eapply slice_splice. done.
    + intros x Hx. unfold mvirt_at, PGSIZE. simpl. rewrite Hml. destruct (Z.leb_spec 0 x); [|done].
      destruct (Z.of_nat (length (addr d)) <=? 2 ^ 32) eqn:E2; [|done]. simpl.
      unfold slice. rewrite Hml. destruct (_ <=? _)%nat eqn:E3; [|done]. f_equal. apply Nat.leb_le in E3.
      apply list_eq. intros i. destruct (decide (i < Z.to_nat 4096)%nat).
      * rewrite !lookup_take_lt, !lookup_drop by lia. rewrite (splice_lookup _ _ _ _ _ Hs).
        rewrite decide_False by lia. done.
      * by rewrite !lookup_take_ge by lia.
Qed.
