(* ===== verification/Blk.v ===== *)
(** The block layer: kernel/dev/blk/{request,buf,gendisk,flush,blk_dev}.c and
    the in-memory disk drive/blk/mvir_blk.c.

    One generic disk [gd] with its request queue, its buffer cache and its
    three lists, over a low-level driver ([LLDisk]), the slab caches
    ([ObjCache]) and the page allocator ([PageAlloc]).  Memory that the layer
    copies from and to is a map from objects (buffer pages, buffers of the
    callers) to their bytes; a pointer into it is an object and an offset.

    [gen_io_round] is one turn of the I/O thread's loop.  A caller that sleeps
    on its request lets the I/O thread run ([wait_request]); the flush thread
    runs between calls ([flush_round]). *)
From S2P Require Import Prelude ListLib Containers StringLib Buddy PageAlloc Semaphore ObjCache Bio LLDisk.

(** * Data *)

Definition BH_Dirty : Z := 2 ^ 0.
Definition BH_New : Z := 2 ^ 1.
Definition BH_Fixed : Z := 2 ^ 3.
Definition BH_Active : Z := 2 ^ 30.
Definition BH_Visited : Z := 2 ^ 31.
Definition SET_FLAG (flags flag : Z) : Z := Z.lor flags flag.
Definition CLEAR_FLAG (flags flag : Z) : Z := Z.ldiff flags flag.
Definition TEST_FLAG (flags flag : Z) : Z := Z.land flags flag.

(** The list heads of the layer. *)
Inductive bloc :=
| RqHead | RqNode (r : Z)
| HashHead (i : Z) | BhNode (b : Z)
| ActiveHead | InactiveHead | LruNode (b : Z)
| DirtyHead | DirtyNode (b : Z).
#[global] Instance bloc_eq_dec : EqDecision bloc.
Proof. solve_decision. Defined.
#[global] Instance bloc_countable : Countable bloc.
Proof.
  refine (inj_countable'
    (λ l, match l with RqHead => (0, 0) | RqNode r => (1, r) | HashHead i => (2, i) | BhNode b => (3, b)
                     | ActiveHead => (4, 0) | InactiveHead => (5, 0) | LruNode b => (6, b)
                     | DirtyHead => (7, 0) | DirtyNode b => (8, b) end)
    (λ x, match x with (0, _) => RqHead | (1, r) => RqNode r | (2, i) => HashHead i | (3, b) => BhNode b
                     | (4, _) => ActiveHead | (5, _) => InactiveHead | (6, b) => LruNode b
                     | (7, _) => DirtyHead | (_, b) => DirtyNode b end) _).
  by intros [].
Defined.

Record buf_head := Buf { flags : Z; blockno : Z; lock : Mutex.mutex; refcnt : Z; page : Z }.
(** A buffer head never used before: slab pages are zeroed. *)
Definition zero_buf : buf_head := Buf 0 0 (Mutex.Mut 0 (Sem 0 []) None) 0 0.
Definition set_flags x (e : buf_head) : buf_head := Buf x (blockno e) (lock e) (refcnt e) (page e).
Definition set_lock x (e : buf_head) : buf_head := Buf (flags e) (blockno e) x (refcnt e) (page e).
Definition set_refcnt x (e : buf_head) : buf_head := Buf (flags e) (blockno e) (lock e) x (page e).
Definition buf_is_new (e : buf_head) : bool := negb (TEST_FLAG (flags e) BH_New =? 0).

(** [vaddr] is an object and an offset into it. *)
Record request := Rq { rq_flags : Z; rq_bio : Z; rq_lock : Mutex.mutex; vaddr : Z * Z }.

Record gendisk (P C D : Type) := Gd {
  nodes : gmap bloc (node bloc);
  ht : Hash.hash_table bloc;
  active_count : Z;
  inactive_count : Z;
  bufs : gmap Z buf_head;
  rqs : gmap Z request;
  qsem : semaphore;
  objs : gmap Z (list Z);
  blk_locks : gset lockid;
  biom : bio_mem C;
  buf_kmem_cache : C;
  kmc : C;
  pagea : P;
  disk : D;
}.
Arguments Gd {P C D}.
Arguments nodes {P C D}. Arguments ht {P C D}. Arguments active_count {P C D}.
Arguments inactive_count {P C D}. Arguments bufs {P C D}. Arguments rqs {P C D}.
Arguments qsem {P C D}. Arguments objs {P C D}. Arguments blk_locks {P C D}.
Arguments biom {P C D}. Arguments buf_kmem_cache {P C D}. Arguments kmc {P C D}.
Arguments pagea {P C D}. Arguments disk {P C D}.

Definition bhash_lock : lockid := ("bcache"%string, 0).
Definition rq_queue_lock : lockid := ("dev_rq_queue"%string, 0).

Section blk.
Context {P C D : Type} `{PageAllocLaws P} `{ObjCacheLaws C} `{LLDiskLaws D}.
Local Notation "'gd'" := (gendisk P C D).
Implicit Types (s : gd).

Definition set_nodes x s : gd := Gd x (ht s) (active_count s) (inactive_count s) (bufs s) (rqs s)
  (qsem s) (objs s) (blk_locks s) (biom s) (buf_kmem_cache s) (kmc s) (pagea s) (disk s).
Definition set_ht x s : gd := Gd (nodes s) x (active_count s) (inactive_count s) (bufs s) (rqs s)
  (qsem s) (objs s) (blk_locks s) (biom s) (buf_kmem_cache s) (kmc s) (pagea s) (disk s).
Definition set_counts a i s : gd := Gd (nodes s) (ht s) a i (bufs s) (rqs s)
  (qsem s) (objs s) (blk_locks s) (biom s) (buf_kmem_cache s) (kmc s) (pagea s) (disk s).
Definition set_bufs x s : gd := Gd (nodes s) (ht s) (active_count s) (inactive_count s) x (rqs s)
  (qsem s) (objs s) (blk_locks s) (biom s) (buf_kmem_cache s) (kmc s) (pagea s) (disk s).
Definition set_rqs x s : gd := Gd (nodes s) (ht s) (active_count s) (inactive_count s) (bufs s) x
  (qsem s) (objs s) (blk_locks s) (biom s) (buf_kmem_cache s) (kmc s) (pagea s) (disk s).
Definition set_qsem x s : gd := Gd (nodes s) (ht s) (active_count s) (inactive_count s) (bufs s) (rqs s)
  x (objs s) (blk_locks s) (biom s) (buf_kmem_cache s) (kmc s) (pagea s) (disk s).
Definition set_objs x s : gd := Gd (nodes s) (ht s) (active_count s) (inactive_count s) (bufs s) (rqs s)
  (qsem s) x (blk_locks s) (biom s) (buf_kmem_cache s) (kmc s) (pagea s) (disk s).
Definition set_blk_locks x s : gd := Gd (nodes s) (ht s) (active_count s) (inactive_count s) (bufs s) (rqs s)
  (qsem s) (objs s) x (biom s) (buf_kmem_cache s) (kmc s) (pagea s) (disk s).
Definition set_biom x s : gd := Gd (nodes s) (ht s) (active_count s) (inactive_count s) (bufs s) (rqs s)
  (qsem s) (objs s) (blk_locks s) x (buf_kmem_cache s) (kmc s) (pagea s) (disk s).
Definition set_buf_cache x s : gd := Gd (nodes s) (ht s) (active_count s) (inactive_count s) (bufs s) (rqs s)
  (qsem s) (objs s) (blk_locks s) (biom s) x (kmc s) (pagea s) (disk s).
Definition set_kmc x s : gd := Gd (nodes s) (ht s) (active_count s) (inactive_count s) (bufs s) (rqs s)
  (qsem s) (objs s) (blk_locks s) (biom s) (buf_kmem_cache s) x (pagea s) (disk s).
Definition set_pagea x s : gd := Gd (nodes s) (ht s) (active_count s) (inactive_count s) (bufs s) (rqs s)
  (qsem s) (objs s) (blk_locks s) (biom s) (buf_kmem_cache s) (kmc s) x (disk s).
Definition set_disk x s : gd := Gd (nodes s) (ht s) (active_count s) (inactive_count s) (bufs s) (rqs s)
  (qsem s) (objs s) (blk_locks s) (biom s) (buf_kmem_cache s) (kmc s) (pagea s) x.

#[global] Instance gd_locks : HasLocks gd := {| locks := blk_locks; set_locks := set_blk_locks |}.

(** The threads at work; a mutex records its owner. *)
Variables io_thread flush_thread caller : Z.

(** ** Accesses *)

Definition node_do (f : gmap bloc (node bloc) → option (gmap bloc (node bloc))) : M gd unit :=
  update (λ s, h ← f (nodes s); Some (set_nodes h s)).
Definition node_empty (l : bloc) : M gd bool := deref (λ s, list_empty l (nodes s)).
Definition buf_at (b : Z) : M gd buf_head := deref (λ s, bufs s !! b).
Definition buf_mod (b : Z) (f : buf_head → buf_head) : M gd unit :=
  update (λ s, e ← bufs s !! b; Some (set_bufs (<[b := f e]> (bufs s)) s)).
Definition rq_at (r : Z) : M gd request := deref (λ s, rqs s !! r).
Definition rq_mod (r : Z) (f : request → request) : M gd unit :=
  update (λ s, e ← rqs s !! r; Some (set_rqs (<[r := f e]> (rqs s)) s)).
Definition in_bio {A} (m : M (bio_mem C) A) : M gd A := zoom biom set_biom m.
Definition bio_at (b : Z) : M gd bio := deref (λ s, bios (biom s) !! b).
Definition bio_mod (b : Z) (f : bio → bio) : M gd unit :=
  update (λ s, e ← bios (biom s) !! b;
    Some (set_biom (BioMem (bio_kmem_cache (biom s)) (<[b := f e]> (bios (biom s)))) s)).
(** [memcpy] between two objects. *)
Definition obj_copy (dst src : Z * Z) (n : Z) : M gd unit :=
  update (λ s,
    if (dst.2 <? 0) || (src.2 <? 0) then None else
    from ← objs s !! src.1;
    bytes ← slice (Z.to_nat src.2) (Z.to_nat n) from;
    to ← objs s !! dst.1;
    to ← splice (Z.to_nat dst.2) bytes to;
    Some (set_objs (<[dst.1 := to]> (objs s)) s)).

Definition buf_pin (me b : Z) : M gd unit :=
  e ← buf_at b;
  l ← mutex_lock me (lock e);
  buf_mod b (set_lock l).
Definition buf_unpin (b : Z) : M gd unit :=
  e ← buf_at b;
  l ← mutex_unlock (lock e);
  buf_mod b (set_lock l).

(** * buf.c *)

Definition HASH_SIZE : Z := 32.

Definition bhash_init (nm : list Z) : M gd unit :=
  hs ← zoom kmc set_kmc obj_alloc;
  modify (λ s,
    let '(_, t, h) := Hash.hash_init HASH_SIZE nm
      (if hs =? 0 then None else Some (HashHead ∘ Z.of_nat <$> seq 0 (Z.to_nat HASH_SIZE))) (nodes s) in
    set_counts 0 0 (set_ht t
      (set_nodes (INIT_LIST_HEAD DirtyHead (INIT_LIST_HEAD InactiveHead (INIT_LIST_HEAD ActiveHead h))) s))).

Definition bhash_lru (b : Z) : M gd unit :=
  e ← buf_at b;
  if TEST_FLAG (flags e) BH_Active =? BH_Active then mret tt
  else if TEST_FLAG (flags e) BH_Visited =? BH_Visited then
    buf_mod b (set_flags (SET_FLAG (flags e) BH_Active));;
    node_do (list_del (LruNode b));;
    node_do (list_add_head (LruNode b) ActiveHead);;
    modify (λ s, set_counts (u32 (active_count s + 1)) (inactive_count s) s)
  else
    buf_mod b (set_flags (SET_FLAG (flags e) BH_Visited));;
    node_do (list_add_head (LruNode b) InactiveHead);;
    modify (λ s, set_counts (active_count s) (u32 (inactive_count s + 1)) s).

(** The key of a hash node is its buffer's [blockno]. *)
Definition keyof s (l : bloc) : option Z :=
  match l with BhNode b => blockno <$> bufs s !! b | _ => None end.

Definition bhash_add (b : Z) : M gd unit :=
  e ← buf_at b;
  update (λ s, '(t, h) ← Hash.hash_add_head (ht s) (blockno e) (BhNode b) (nodes s);
    Some (set_ht t (set_nodes h s))).

Definition bhash_find (bno : Z) : M gd (option Z) :=
  b ← deref (λ s, Hash.hash_find (keyof s) (ht s) bno (nodes s));
  match b with
  | None => mret None
  | Some (BhNode b) => bhash_lru b;; mret (Some b)
  | Some _ => fault
  end.

(** Defined in buf.c and not called: buffers are neither fixed nor taken out. *)
Definition buf_fixed (b : Z) : M gd unit := buf_mod b (λ e, set_flags (SET_FLAG (flags e) BH_Fixed) e).
Definition buf_is_fixed (b : Z) : M gd Z := e ← buf_at b; mret (TEST_FLAG (flags e) BH_Fixed).
Definition buf_unfixed (b : Z) : M gd unit := buf_mod b (λ e, set_flags (CLEAR_FLAG (flags e) BH_Fixed) e).
Definition buf_struct_free (b : Z) : M gd unit :=
  zoom buf_kmem_cache set_buf_cache (obj_free b);; modify (λ s, set_bufs (delete b (bufs s)) s).
Definition bhash_empty (bno : Z) : M gd bool := deref (λ s, Hash.hash_empty (ht s) bno (nodes s)).
Definition bhash_del (b : Z) : M gd unit :=
  update (λ s, '(t, h) ← Hash.hash_del_node (ht s) (BhNode b) (nodes s); Some (set_ht t (set_nodes h s))).

(** [flags] keeps what the object's memory held.  Memory that has held no buffer
    is taken to be zero: the pages behind the cache come from [__alloc_pages],
    which does not clear them, and a stray [BH_Valid] there would pass for a
    block already read. *)
Definition buf_alloc (bno : Z) : M gd Z :=
  b ← zoom buf_kmem_cache set_buf_cache obj_alloc;
  if b =? 0 then panic else
  modify (λ s,
    let old := default zero_buf (bufs s !! b) in
    set_nodes (INIT_LIST_HEAD (DirtyNode b) (INIT_LIST_HEAD (LruNode b) (INIT_LIST_HEAD (BhNode b) (nodes s))))
      (set_bufs (<[b := Buf (SET_FLAG (flags old) BH_New) bno Mutex.mutex_init 0 (page old)]> (bufs s)) s));;
  p ← zoom pagea set_pagea alloc_zeroed;
  modify (λ s, set_objs (<[p := replicate (Z.to_nat PGSIZE) 0]> (objs s)) s);;
  buf_mod b (λ e, Buf (flags e) (blockno e) (lock e) (refcnt e) p);;
  if p =? 0 then panic else mret b.

Definition buf_get (bno : Z) : M gd Z :=
  spin_lock bhash_lock;;
  found ← bhash_find bno;
  b ← match found with
      | Some b => mret b
      | None => b ← buf_alloc bno; bhash_add b;; bhash_lru b;; mret b
      end;
  spin_unlock bhash_lock;;
  buf_mod b (λ e, set_refcnt (atomic_inc (refcnt e)) e);;
  mret b.

(** [buf_release(b, is_dirty)] for a [b] that is not NULL. *)
Definition buf_release (b : Z) (is_dirty : bool) : M gd unit :=
  buf_mod b (λ e, set_refcnt (atomic_dec (refcnt e)) e);;
  buf_mod b (λ e, set_flags (CLEAR_FLAG (flags e) BH_New) e);;
  if is_dirty then
    buf_mod b (λ e, set_flags (SET_FLAG (flags e) BH_Dirty) e);;
    spin_lock bhash_lock;;
    none ← node_empty DirtyHead;
    (if negb none then node_do (list_del (DirtyNode b)) else mret tt);;
    node_do (list_add_head (DirtyNode b) DirtyHead);;
    spin_unlock bhash_lock
  else mret tt.

(** * request.c *)

Definition REQUEST_NONE : Z := 2.

Definition request_alloc : M gd Z :=
  r ← zoom kmc set_kmc obj_alloc;
  if r =? 0 then mret 0 else
  modify (λ s, set_nodes (INIT_LIST_HEAD (RqNode r) (nodes s))
    (set_rqs (<[r := Rq REQUEST_NONE 0 Mutex.mutex_init_zero (0, 0)]> (rqs s)) s));;
  mret r.

Definition rq_append (r : Z) : M gd unit :=
  spin_lock rq_queue_lock;;
  node_do (list_add_tail (RqNode r) RqHead);;
  spin_unlock rq_queue_lock.

Definition make_request (bno off len : Z) (va : Z * Z) (rw : Z) : M gd Z :=
  r ← request_alloc;
  if r =? 0 then panic else
  rq_mod r (λ q, Rq rw (rq_bio q) (rq_lock q) (vaddr q));;
  b ← in_bio (bio_list_make (u32 bno) off len);
  rq_mod r (λ q, Rq (rq_flags q) b (rq_lock q) (vaddr q));;
  rq_mod r (λ q, Rq (rq_flags q) (rq_bio q) (rq_lock q) va);;
  rq_append r;;
  mret r.

(** [kfree(rq)]. *)
Definition rq_del (r : Z) : M gd unit :=
  zoom kmc set_kmc (obj_free r);;
  modify (λ s, set_rqs (delete r (rqs s)) s).

(** [None] is NULL. *)
Definition get_next_rq : M gd (option Z) :=
  spin_lock rq_queue_lock;;
  none ← node_empty RqHead;
  next ← (if none : bool then mret None else
            x ← update_ret (λ s, '(x, h) ← list_pop RqHead (nodes s); Some (x, set_nodes h s));
            match x with Some (RqNode r) => mret (Some r) | _ => fault end);
  spin_unlock rq_queue_lock;;
  mret next.

Definition rq_queue_init : M gd unit :=
  modify (λ s, set_nodes (INIT_LIST_HEAD RqHead (nodes s)) (set_qsem (sem_init 0) s)).

(** * gendisk.c *)

Definition gendisk_init (nm : list Z) : M gd unit :=
  rq_queue_init;; bhash_init nm.

(** [gd->ops.ll_rw(gd, bio, rw)], with the block and the page of the bio. *)
Definition do_ll_rw (bno pg rw : Z) : M gd unit :=
  content ← deref (λ s, objs s !! pg);
  content ← zoom disk set_disk (ll_rw bno rw content);
  modify (λ s, set_objs (<[pg := content]> (objs s)) s).

(** The [DEV_READ] case of the switch. *)
Definition io_read (r bi b : Z) : M gd unit :=
  e ← buf_at b;
  (if buf_is_new e then
     bio_mod bi (set_b_page (page e));;
     bi' ← bio_at bi;
     do_ll_rw (b_blockno bi') (b_page bi') DEV_READ
   else mret tt);;
  q ← rq_at r;
  e ← buf_at b;
  bi' ← bio_at bi;
  obj_copy (vaddr q) (page e, offset bi') (len bi');;
  buf_release b false;;
  buf_unpin b.

(** The [DEV_WRITE] case. *)
Definition io_write (r bi b : Z) : M gd unit :=
  e ← buf_at b;
  bio_mod bi (set_b_page (page e));;
  bi' ← bio_at bi;
  (if negb ((offset bi' =? 0) && (len bi' =? BLK_SIZE)) && buf_is_new e then
     do_ll_rw (b_blockno bi') (b_page bi') DEV_READ
   else mret tt);;
  q ← rq_at r;
  e ← buf_at b;
  obj_copy (page e, offset bi') (vaddr q) (len bi');;
  buf_release b true;;
  buf_unpin b.

(** [while (bio)]: a bio of length 0 is met again and again. *)
Fixpoint bio_loop (fuel : nat) (r bi : Z) : M gd unit :=
  if bi =? 0 then mret tt else
  match fuel with
  | O => out_of_fuel
  | S fuel =>
      e ← bio_at bi;
      if len e =? 0 then bio_loop fuel r bi else
      b ← buf_get (b_blockno e);
      buf_pin io_thread b;;
      q ← rq_at r;
      (if rq_flags q =? DEV_READ then io_read r bi b
       else if rq_flags q =? DEV_WRITE then io_write r bi b
       else mret tt);;
      e ← bio_at bi;
      rq_mod r (λ q, Rq (rq_flags q) (rq_bio q) (rq_lock q) ((vaddr q).1, (vaddr q).2 + len e));;
      in_bio (bio_del bi);;
      bio_loop fuel r (b_next e)
  end.

(** A wait that nobody ends during the call. *)
Definition sleep_forever : M gd unit := λ _, Blocked.

(** One turn of [gen_start_io], which waits on [queue.sem] first. *)
Definition gen_io_round : M gd unit :=
  s ← (get : M gd gd);
  let '(x, suspended) := sem_wait io_thread (qsem s) in
  if suspended then sleep_forever else
  modify (set_qsem x);;
  r ← get_next_rq;
  match r with
  | None => fault
  | Some r =>
      q ← rq_at r;
      m ← (get : M gd gd);
      bio_loop (S (size (bios (biom m)))) r (rq_bio q);;
      q ← rq_at r;
      l ← mutex_unlock (rq_lock q);
      rq_mod r (λ q, Rq (rq_flags q) (rq_bio q) l (vaddr q))
  end.

(** [sleep_on(&rq->lock)]: until its wake-up has come, the I/O thread runs. *)
Fixpoint wait_request (fuel : nat) (r : Z) : M gd unit :=
  q ← rq_at r;
  if 0 <? value (Mutex.msem (rq_lock q)) then
    l ← mutex_lock caller (rq_lock q);
    rq_mod r (λ q, Rq (rq_flags q) (rq_bio q) l (vaddr q))
  else
    match fuel with
    | O => out_of_fuel
    | S fuel => gen_io_round;; wait_request fuel r
    end.

Definition signal_io : M gd unit :=
  s ← (get : M gd gd);
  match sem_signal (qsem s) with
  | Some (x, _) => modify (set_qsem x)
  | None => panic
  end.

(** [gen_read] and [gen_write] differ in the direction only. *)
Definition gen_rw (rw bno off len : Z) (va : Z * Z) : M gd Z :=
  r ← make_request bno off len va rw;
  signal_io;;
  s ← (get : M gd gd);
  wait_request (size (rqs s)) r;;
  rq_del r;;
  mret 0.
Definition gen_read := gen_rw DEV_READ.
Definition gen_write := gen_rw DEV_WRITE.

(** [None] is a NULL [vaddr]. *)
Definition gen_disk_read (bno off len : Z) (va : option (Z * Z)) : M gd Z :=
  match va with None => mret (-1) | Some va => gen_read bno off len va end.
Definition gen_disk_write (bno off len : Z) (va : option (Z * Z)) : M gd Z :=
  match va with None => mret (-1) | Some va => gen_write bno off len va end.

(** * blk_dev.c *)

Definition blk_read := gen_disk_read.
Definition blk_write := gen_disk_write.
Definition blk_read_count (bno count : Z) := gen_disk_read bno 0 (u32 (count * BLK_SIZE)).
Definition blk_write_count (bno count : Z) := gen_disk_write bno 0 (u32 (count * BLK_SIZE)).

(** * flush.c *)

(** The inner loop of [flush_bhash]; the result counts the written blocks. *)
Fixpoint flush_loop (fuel : nat) (num_written : Z) : M gd Z :=
  none ← node_empty DirtyHead;
  if none : bool then mret num_written else
  match fuel with
  | O => out_of_fuel
  | S fuel =>
      x ← update_ret (λ s, '(x, h) ← list_pop DirtyHead (nodes s); Some (x, set_nodes h s));
      match x with
      | Some (DirtyNode b) =>
          spin_unlock bhash_lock;;
          buf_pin flush_thread b;;
          e ← buf_at b;
          do_ll_rw (blockno e) (page e) DEV_WRITE;;
          buf_unpin b;;
          spin_lock bhash_lock;;
          buf_mod b (λ e, set_flags (CLEAR_FLAG (flags e) BH_Dirty) e);;
          node_do (list_del (DirtyNode b));;
          flush_loop fuel (num_written + 1)
      | _ => fault
      end
  end.
Definition flush_round : M gd Z :=
  spin_lock bhash_lock;;
  n ← (λ s : gd, flush_loop (size (bufs s)) 0 s);
  spin_unlock bhash_lock;;
  mret n.

(** * The invariant of the buffer cache *)

(** ** Flags *)

Lemma test_flag_set f k : 0 <= k → (TEST_FLAG f (2 ^ k) =? 2 ^ k) = Z.testbit f k.
Proof.
  intros Hk. unfold TEST_FLAG. destruct (Z.testbit f k) eqn:E.
  - apply Z.eqb_eq. apply Z.bits_inj'. intros n Hn. rewrite Z.land_spec, Z.pow2_bits_eqb by done.
    destruct (Z.eqb_spec k n) as [->|]; [by rewrite E|]. by rewrite andb_false_r.
  - apply Z.eqb_neq. intros Hl. assert (Hb : Z.testbit (Z.land f (2 ^ k)) k = true).
    { rewrite Hl. by apply Z.pow2_bits_true. }
    rewrite Z.land_spec, E in Hb. done.
Qed.
Lemma test_flag_zero f k : 0 <= k → (TEST_FLAG f (2 ^ k) =? 0) = negb (Z.testbit f k).
Proof.
  intros Hk. unfold TEST_FLAG. destruct (Z.testbit f k) eqn:E; simpl.
  - apply Z.eqb_neq. intros Hl. assert (Hb : Z.testbit (Z.land f (2 ^ k)) k = false).
    { rewrite Hl. apply Z.bits_0. }
    rewrite Z.land_spec, E, Z.pow2_bits_true in Hb by done. done.
  - apply Z.eqb_eq. apply Z.bits_inj'. intros n Hn. rewrite Z.land_spec, Z.pow2_bits_eqb, Z.bits_0 by done.
    destruct (Z.eqb_spec k n) as [->|]; [by rewrite E|]. by rewrite andb_false_r.
Qed.
Lemma set_flag_bit f k n : 0 <= k → Z.testbit (SET_FLAG f (2 ^ k)) n = Z.testbit f n || (k =? n).
Proof. intros Hk. unfold SET_FLAG. by rewrite Z.lor_spec, Z.pow2_bits_eqb. Qed.
Lemma clear_flag_bit f k n : 0 <= k → Z.testbit (CLEAR_FLAG f (2 ^ k)) n = Z.testbit f n && negb (k =? n).
Proof. intros Hk. unfold CLEAR_FLAG. by rewrite Z.ldiff_spec, Z.pow2_bits_eqb. Qed.

Definition active (e : buf_head) : bool := Z.testbit (flags e) 30.
Definition visited (e : buf_head) : bool := Z.testbit (flags e) 31.
Lemma buf_is_new_bit e : buf_is_new e = Z.testbit (flags e) 1.
Proof. unfold buf_is_new. change BH_New with (2 ^ 1). rewrite test_flag_zero by lia. apply negb_involutive. Qed.

(** ** Lists *)

Definition hash_heads : list bloc := HashHead ∘ Z.of_nat <$> seq 0 (Z.to_nat HASH_SIZE).
Definition is_dirty_loc (B : gset Z) (l : bloc) : Prop :=
  match l with DirtyHead => True | DirtyNode b => b ∈ B | _ => False end.

Record lists_ok (rql : list Z) (σ : gmap bloc (list bloc)) s : Prop := {
  lo_hash : Hash.hash_ok (keyof s) (ht s) σ (nodes s);
  lo_heads : Hash.heads (ht s) = hash_heads;
  lo_rq : σ !! RqHead = Some (RqNode <$> rql);
  lo_act : ∃ act, σ !! ActiveHead = Some (LruNode <$> act) ∧
    ∀ b, b ∈ act ↔ ∃ e, bufs s !! b = Some e ∧ active e = true;
  lo_ina : ∃ ina, σ !! InactiveHead = Some (LruNode <$> ina) ∧
    ∀ b, b ∈ ina ↔ ∃ e, bufs s !! b = Some e ∧ active e = false ∧ visited e = true;
  lo_dom : ∀ hd xs, σ !! hd = Some xs →
    hd = RqHead ∨ hd = ActiveHead ∨ hd = InactiveHead ∨ hd ∈ hash_heads;
  lo_linked : ∀ b e, bufs s !! b = Some e → BhNode b ∈ Hash.chain_of (ht s) σ (blockno e);
  lo_dirty : ∀ l, is_dirty_loc (dom (bufs s)) l →
    ∃ n, nodes s !! l = Some n ∧ is_dirty_loc (dom (bufs s)) (prev n) ∧ is_dirty_loc (dom (bufs s)) (next n);
  lo_nodes : ∀ b, b ∈ dom (bufs s) → is_Some (nodes s !! LruNode b);
}.

(** The data of one buffer: where its block's logical content is. *)
Record buf_ok (pins : gset Z) (N : Z) (view : gmap Z (list Z)) (d : D) (o : gmap Z (list Z))
    (b : Z) (e : buf_head) : Prop := {
  bo_blockno : 0 <= blockno e < N;
  bo_page : phys_page (page e);
  bo_lock : Mutex.msem (lock e) = sem_init (if decide (b ∈ pins) then 0 else 1);
  bo_data : ∃ pg, o !! page e = Some pg ∧ Z.of_nat (length pg) = BLK_SIZE ∧
    view !! blockno e = (if buf_is_new e then disk_at d (blockno e) else Some pg);
}.

Definition stocked s (N : Z) : Prop :=
  ∃ XB XP, obj_rep (buf_kmem_cache s) XB (dom (bufs s)) ∧ page_rep (pagea s) XP ∧
    N <= Z.of_nat (size XB + size (dom (bufs s))) ∧ N <= Z.of_nat (size XP + size (dom (bufs s))) ∧
    (∀ b e, bufs s !! b = Some e → page e ∉ XP).

(** [view] is the logical content of the device: the cached pages where
    blocks are cached, the disk elsewhere. *)
Record cache_ok (pins : gset Z) (rql : list Z) (N : Z) (view : gmap Z (list Z)) s : Prop := {
  ca_lists : ∃ σ, lists_ok rql σ s;
  ca_bufs : ∀ b e, bufs s !! b = Some e → buf_ok pins N view (disk s) (objs s) b e;
  ca_inj : ∀ b1 b2 e1 e2, bufs s !! b1 = Some e1 → bufs s !! b2 = Some e2 →
    blockno e1 = blockno e2 ∨ page e1 = page e2 → b1 = b2;
  ca_uncached : ∀ n, 0 <= n < N → (∀ b e, bufs s !! b = Some e → blockno e ≠ n) →
    view !! n = disk_at (disk s) n;
  ca_disk : ∀ n, 0 <= n < N → is_Some (disk_at (disk s) n);
  ca_view : ∀ n, is_Some (view !! n) → 0 <= n < N;
  ca_N : N <= 2 ^ 32;
  ca_stock : stocked s N;
}.

(** What an operation on the cache leaves alone. *)
Record same_rest s s' : Prop := {
  sr_rqs : rqs s' = rqs s;
  sr_qsem : qsem s' = qsem s;
  sr_biom : biom s' = biom s;
  sr_kmc : kmc s' = kmc s;
  sr_locks : blk_locks s' = blk_locks s;
  sr_objs : ∀ u, ¬ phys_page u → objs s' !! u = objs s !! u;
}.
Lemma same_rest_trans s1 s2 s3 : same_rest s1 s2 → same_rest s2 s3 → same_rest s1 s3.
Proof.
  intros [E1 E2 E3 E4 E5 E6] [F1 F2 F3 F4 F5 F6]. split; [congruence..|].
  intros u Hu. rewrite F6 by done. by apply E6.
Qed.

(** ** List lemmas *)

Lemma hash_heads_in l : l ∈ hash_heads → ∃ i, l = HashHead i.
Proof. unfold hash_heads. intros (i & -> & _)%list_elem_of_fmap. by eexists. Qed.

(** Which locations a family of the layer may contain. *)
Lemma in_fam_loc rql σ s l : lists_ok rql σ s → in_fam σ l →
  match l with
  | BhNode b | LruNode b => b ∈ dom (bufs s)
  | RqNode r => r ∈ rql
  | DirtyHead | DirtyNode _ => False
  | _ => True
  end.
Proof.
  intros Hlo (hd & xs & E & Hl).
  assert (Hm : l ∈ xs → match l with BhNode b | LruNode b => b ∈ dom (bufs s) | RqNode r => r ∈ rql
    | DirtyHead | DirtyNode _ => False | _ => True end).
  { intros Hin. destruct (lo_dom _ _ _ Hlo hd xs E) as [->|[->|[->|Hh]]].
    - rewrite (lo_rq _ _ _ Hlo) in E. simplify_eq. by apply list_elem_of_fmap in Hin as (r & -> & ?).
    - destruct (lo_act _ _ _ Hlo) as (act & Ea & Ha). simplify_eq.
      apply list_elem_of_fmap in Hin as (b & -> & (e & Hb & _)%Ha). by apply elem_of_dom_2 in Hb.
    - destruct (lo_ina _ _ _ Hlo) as (ina & Ea & Ha). simplify_eq.
      apply list_elem_of_fmap in Hin as (b & -> & (e & Hb & _)%Ha). by apply elem_of_dom_2 in Hb.
    - rewrite <-(lo_heads _ _ _ Hlo) in Hh. apply list_elem_of_lookup in Hh as [i Hi].
      destruct (Hash.ok_keys _ _ _ _ (lo_hash _ _ _ Hlo) i hd xs l Hi E Hin) as (k & Hk & _).
      destruct l; try done. simpl in Hk. apply fmap_Some in Hk as (e & He & _). by apply elem_of_dom_2 in He. }
  apply elem_of_cons in Hl as [->|Hl]; [|by apply Hm].
  destruct (lo_dom _ _ _ Hlo hd xs E) as [->|[->|[->|Hh]]]; [done..|].
  apply hash_heads_in in Hh as [i ->]. done.
Qed.

(** [lists_ok] through an update that keeps the buffers' keys and LRU bits,
    all lists but the dirty one, and the dirty nodes among themselves. *)
Lemma lists_ok_frame rql σ s s' :
  lists_ok rql σ s → ht s' = ht s →
  (∀ b e', bufs s' !! b = Some e' → ∃ e, bufs s !! b = Some e ∧ blockno e' = blockno e ∧
     active e' = active e ∧ visited e' = visited e) →
  dom (bufs s') = dom (bufs s) →
  (∀ l, ¬ is_dirty_loc (dom (bufs s)) l → nodes s' !! l = nodes s !! l) →
  (∀ l, is_dirty_loc (dom (bufs s)) l →
    ∃ n, nodes s' !! l = Some n ∧ is_dirty_loc (dom (bufs s)) (prev n) ∧ is_dirty_loc (dom (bufs s)) (next n)) →
  lists_ok rql σ s'.
Proof.
  intros Hlo Eht Hb Hdom Hn Hd. destruct Hlo as [Hh Hhd Hrq Hact Hina Hsd Hlk Hdi Hnd] eqn:Ek. clear Ek.
  assert (Hb' : ∀ b e, bufs s !! b = Some e → ∃ e', bufs s' !! b = Some e' ∧ blockno e' = blockno e ∧
     active e' = active e ∧ visited e' = visited e).
  { intros b e E. assert (Hin : b ∈ dom (bufs s')) by (rewrite Hdom; by eapply elem_of_dom_2).
    apply elem_of_dom in Hin as [e' E']. exists e'. destruct (Hb b e' E') as (e0 & E0 & ?). by simplify_eq. }
  split; rewrite ?Eht, ?Hdom.
  - eapply Hash.hash_ok_frame; [exact Hh| |done|].
    + eapply fam_agree; [exact (Hash.ok_fam _ _ _ _ Hh)|]. intros q Hq. apply Hn. intros Hdl.
      apply (in_fam_loc _ _ _ _ Hlo) in Hq. by destruct q.
    + intros x k. destruct x; simpl; try done. intros (e & E & ->)%fmap_Some.
      destruct (Hb' b e E) as (e' & E' & Hbk & _). rewrite E'. simpl. by rewrite Hbk.
  - done.
  - done.
  - destruct Hact as (act & E & Ha). exists act. split; [done|]. intros b. rewrite Ha. split.
    + intros (e & E1 & ?). destruct (Hb' b e E1) as (e' & ? & _ & ? & _). exists e'. split; congruence.
    + intros (e & E1 & ?). destruct (Hb b e E1) as (e' & ? & _ & ? & _). exists e'. split; congruence.
  - destruct Hina as (ina & E & Ha). exists ina. split; [done|]. intros b. rewrite Ha. split.
    + intros (e & E1 & ? & ?). destruct (Hb' b e E1) as (e' & ? & _ & ? & ?). exists e'. split_and!; congruence.
    + intros (e & E1 & ? & ?). destruct (Hb b e E1) as (e' & ? & _ & ? & ?). exists e'. split_and!; congruence.
  - done.
  - intros b e' E'. destruct (Hb b e' E') as (e & E & -> & _). by apply Hlk.
  - done.
  - intros b Hin. rewrite Hn; [by apply Hnd|]. by intros [].
Qed.

(** ** Updating one buffer *)

(** The update of buffer [b], its page, its dirty node and its block on disk. *)
Record buf_update (pins pins' : gset Z) (N : Z) (view view' : gmap Z (list Z)) s s' (b : Z) (e e' : buf_head)
    (pg' : list Z) : Prop := {
  up_bufs : bufs s' = <[b := e']> (bufs s);
  up_blockno : blockno e' = blockno e;
  up_page : page e' = page e;
  up_active : active e' = active e;
  up_visited : visited e' = visited e;
  up_pins : ∀ c, c ≠ b → (c ∈ pins' ↔ c ∈ pins);
  up_lock : Mutex.msem (lock e') = sem_init (if decide (b ∈ pins') then 0 else 1);
  up_pg : objs s' !! page e = Some pg';
  up_len : Z.of_nat (length pg') = BLK_SIZE;
  up_objs : ∀ u, u ≠ page e → objs s' !! u = objs s !! u;
  up_disk : ∀ n, n ≠ blockno e → disk_at (disk s') n = disk_at (disk s) n;
  up_block : is_Some (disk_at (disk s') (blockno e));
  up_view : ∀ n, n ≠ blockno e → view' !! n = view !! n;
  up_data : view' !! blockno e = (if buf_is_new e' then disk_at (disk s') (blockno e) else Some pg');
  up_ht : ht s' = ht s;
  up_pagea : pagea s' = pagea s;
  up_bufc : buf_kmem_cache s' = buf_kmem_cache s;
  up_nodes : ∀ l, ¬ is_dirty_loc (dom (bufs s)) l → nodes s' !! l = nodes s !! l;
  up_dirty : ∀ l, is_dirty_loc (dom (bufs s)) l →
    ∃ n, nodes s' !! l = Some n ∧ is_dirty_loc (dom (bufs s)) (prev n) ∧ is_dirty_loc (dom (bufs s)) (next n);
}.

Lemma cache_update pins pins' rql N view view' s s' b e e' pg' :
  cache_ok pins rql N view s → bufs s !! b = Some e →
  buf_update pins pins' N view view' s s' b e e' pg' → cache_ok pins' rql N view' s'.
Proof.
  intros Hc Eb U. destruct Hc as [(σ & Hlo) Hbo Hinj Hun Hdk Hvw HN Hst].
  assert (Hdom : dom (bufs s') = dom (bufs s)).
  { rewrite (up_bufs _ _ _ _ _ _ _ _ _ _ _ U), dom_insert_L. apply elem_of_dom_2 in Eb. set_solver. }
  assert (Hcase : ∀ c x, bufs s' !! c = Some x → (c = b ∧ x = e') ∨ (c ≠ b ∧ bufs s !! c = Some x)).
  { intros c x. rewrite (up_bufs _ _ _ _ _ _ _ _ _ _ _ U).
    intros [[<- <-]|[? ?]]%lookup_insert_Some; [by left|right; done]. }
  assert (Hold : ∀ c x, bufs s' !! c = Some x → ∃ y, bufs s !! c = Some y ∧ blockno x = blockno y ∧
    page x = page y ∧ active x = active y ∧ visited x = visited y).
  { intros c x [[-> ->]|[_ Ec]]%Hcase; [|by exists x].
    exists e. split_and!; [done|apply U..]. }
  split.
  - exists σ. eapply lists_ok_frame; [exact Hlo|apply U| |done|apply U|apply U].
    intros c x (y & ? & ? & _ & ? & ?)%Hold. by exists y.
  - intros c x [[-> ->]|[Hne Ec]]%Hcase.
    + destruct (Hbo b e Eb) as [B1 B2 B3 _]. split; rewrite ?(up_blockno _ _ _ _ _ _ _ _ _ _ _ U),
        ?(up_page _ _ _ _ _ _ _ _ _ _ _ U); [done..|apply U|].
      exists pg'. split_and!; [apply U|apply U|apply U].
    + destruct (Hbo c x Ec) as [B1 B2 B3 (pg & P1 & P2 & P3)].
      assert (Hn : blockno x ≠ blockno e) by (intros Hx; apply Hne; eapply Hinj; eauto).
      assert (Hp : page x ≠ page e) by (intros Hx; apply Hne; eapply Hinj; eauto).
      split; [done|done| |].
      * rewrite B3. f_equal. pose proof (up_pins _ _ _ _ _ _ _ _ _ _ _ U c Hne) as Hpin.
        destruct (decide (c ∈ pins)), (decide (c ∈ pins')); tauto.
      * exists pg. rewrite (up_objs _ _ _ _ _ _ _ _ _ _ _ U), (up_view _ _ _ _ _ _ _ _ _ _ _ U) by done.
        rewrite (up_disk _ _ _ _ _ _ _ _ _ _ _ U) by done. done.
  - intros b1 b2 x1 x2 (y1 & E1 & N1 & P1 & _)%Hold (y2 & E2 & N2 & P2 & _)%Hold Hx.
    eapply (Hinj b1 b2 y1 y2); [done..|]. destruct Hx; [left|right]; congruence.
  - intros n Hn Hno. assert (Hne : n ≠ blockno e).
    { intros ->. apply (Hno b e').
      - rewrite (up_bufs _ _ _ _ _ _ _ _ _ _ _ U). by rewrite lookup_insert_eq.
      - apply U. }
    rewrite (up_view _ _ _ _ _ _ _ _ _ _ _ U), (up_disk _ _ _ _ _ _ _ _ _ _ _ U) by done.
    apply Hun; [done|]. intros c x Ec Hx. destruct (decide (c = b)) as [->|Hcb].
    + simplify_eq.
    + apply (Hno c x); [|done]. rewrite (up_bufs _ _ _ _ _ _ _ _ _ _ _ U). by rewrite lookup_insert_ne.
  - intros n Hn. destruct (decide (n = blockno e)) as [->|Hne]; [apply U|].
    rewrite (up_disk _ _ _ _ _ _ _ _ _ _ _ U) by done. by apply Hdk.
  - intros n Hn. destruct (decide (n = blockno e)) as [->|Hne].
    + apply (bo_blockno _ _ _ _ _ _ _ (Hbo b e Eb)).
    + rewrite (up_view _ _ _ _ _ _ _ _ _ _ _ U) in Hn by done. by apply Hvw.
  - done.
  - destruct Hst as (XB & XP & H1' & H2' & H3' & H4' & H5'). exists XB, XP.
    rewrite Hdom, (up_pagea _ _ _ _ _ _ _ _ _ _ _ U), (up_bufc _ _ _ _ _ _ _ _ _ _ _ U).
    assert (Hsz : size (bufs s') = size (bufs s)).
    { by rewrite <-!size_dom, Hdom. }
    split_and!; [done|done| | |].
    + exact H3'.
    + exact H4'.
    + intros c x (y & Ey & _ & -> & _)%Hold. by eapply H5'.
Qed.

(** ** The LRU lists *)

Lemma fam_del_out (h : gmap bloc (node bloc)) σ hd xs x ys :
  fam h σ → σ !! hd = Some (xs ++ x :: ys) → ¬ in_fam (<[hd := xs ++ ys]> σ) x.
Proof.
  intros [Hd Hdis] E (hd2 & zs & [[<- <-]|[Hne E2]]%lookup_insert_Some & Hx).
  - destruct (Hd _ _ E) as [Hnd _]. clear -Hnd Hx.
    rewrite <-Permutation_middle in Hnd. apply NoDup_cons in Hnd as [H1 [H2 _]%NoDup_cons].
    set_solver.
  - apply Hne. eapply Hdis; [done|done| |exact Hx]. clear. set_solver.
Qed.

Lemma heads_neq t l : Hash.heads t = hash_heads → l ∈ Hash.heads t → l ≠ RqHead ∧ l ≠ ActiveHead ∧ l ≠ InactiveHead.
Proof. intros -> (i & ->)%hash_heads_in. done. Qed.

(** A node of the LRU is in the list its flags name. *)
Lemma blk_lru_in_fam rql σ s b e :
  lists_ok rql σ s → bufs s !! b = Some e → in_fam σ (LruNode b) → visited e || active e = true.
Proof.
  intros Hlo Eb (hd & xs & E & [?|Hin]%elem_of_cons).
  { subst hd. destruct (lo_dom _ _ _ Hlo _ _ E) as [?|[?|[?|[? ?]%hash_heads_in]]]; done. }
  destruct (lo_dom _ _ _ Hlo hd xs E) as [->|[->|[->|Hh]]].
  - rewrite (lo_rq _ _ _ Hlo) in E. simplify_eq. by apply list_elem_of_fmap in Hin as (? & ? & _).
  - destruct (lo_act _ _ _ Hlo) as (act & Ea & Ha). simplify_eq.
    apply list_elem_of_fmap in Hin as (c & [= <-] & (x & Hb & Hx)%Ha). simplify_eq. by rewrite Hx, orb_true_r.
  - destruct (lo_ina _ _ _ Hlo) as (ina & Ea & Ha). simplify_eq.
    apply list_elem_of_fmap in Hin as (c & [= <-] & (x & Hb & _ & Hx)%Ha). simplify_eq. by rewrite Hx.
  - rewrite <-(lo_heads _ _ _ Hlo) in Hh. apply list_elem_of_lookup in Hh as [i Hi].
    by destruct (Hash.ok_keys _ _ _ _ (lo_hash _ _ _ Hlo) i hd xs _ Hi E Hin) as (k & ? & _).
Qed.

(** What [bhash_lru] may change. *)
Record lru_only (b : Z) (e e' : buf_head) s s' : Prop := {
  lr_bufs : bufs s' = <[b := e']> (bufs s);
  lr_buf : e' = set_flags (flags e') e;
  lr_flags : ∀ k, k ≠ 30 → k ≠ 31 → Z.testbit (flags e') k = Z.testbit (flags e) k;
  lr_ht : ht s' = ht s;
  lr_objs : objs s' = objs s;
  lr_disk : disk s' = disk s;
  lr_pagea : pagea s' = pagea s;
  lr_bufc : buf_kmem_cache s' = buf_kmem_cache s;
  lr_rest : same_rest s s';
}.

Lemma lists_ok_lru rql σ s s' b e e' act ina :
  lists_ok rql σ s → bufs s !! b = Some e → lru_only b e e' s s' →
  fam (nodes s') (<[ActiveHead := LruNode <$> act]> (<[InactiveHead := LruNode <$> ina]> σ)) →
  (∀ q, (∀ c, q ≠ LruNode c) → q ≠ ActiveHead → q ≠ InactiveHead → nodes s' !! q = nodes s !! q) →
  dom (nodes s') = dom (nodes s) →
  (∀ c, c ≠ b → (c ∈ act ↔ ∃ x, bufs s !! c = Some x ∧ active x = true)) → (b ∈ act ↔ active e' = true) →
  (∀ c, c ≠ b → (c ∈ ina ↔ ∃ x, bufs s !! c = Some x ∧ active x = false ∧ visited x = true)) →
  (b ∈ ina ↔ active e' = false ∧ visited e' = true) →
  lists_ok rql (<[ActiveHead := LruNode <$> act]> (<[InactiveHead := LruNode <$> ina]> σ)) s'.
Proof.
  intros Hlo Eb Hl Hf Hn Hdn Ha Hab Hi Hib. set (σ' := <[ActiveHead := _]> _) in *.
  assert (Hdom : dom (bufs s') = dom (bufs s)).
  { rewrite (lr_bufs _ _ _ _ _ Hl), dom_insert_L. apply elem_of_dom_2 in Eb. set_solver. }
  assert (Eb' : bufs s' !! b = Some e') by (rewrite (lr_bufs _ _ _ _ _ Hl); by rewrite lookup_insert_eq).
  assert (Ec : ∀ c, c ≠ b → bufs s' !! c = bufs s !! c).
  { intros c Hc. rewrite (lr_bufs _ _ _ _ _ Hl). by rewrite lookup_insert_ne. }
  assert (Ebn : blockno e' = blockno e) by by rewrite (lr_buf _ _ _ _ _ Hl).
  assert (Hsame : ∀ hd, hd ∈ Hash.heads (ht s) → σ' !! hd = σ !! hd).
  { intros hd Hin. apply (heads_neq _ _ (lo_heads _ _ _ Hlo)) in Hin as (_ & ? & ?). unfold σ'.
    by rewrite !lookup_insert_ne. }
  split; rewrite ?(lr_ht _ _ _ _ _ Hl), ?Hdom.
  - eapply Hash.hash_ok_frame; [apply Hlo|done|done|].
    intros x k. destruct x as [| | |c| | | | |]; simpl; try done. intros (y & Ey & ->)%fmap_Some.
    destruct (decide (c = b)) as [->|Hc]; [simplify_eq; by rewrite Eb', <-Ebn|by rewrite Ec, Ey].
  - apply Hlo.
  - unfold σ'. rewrite !lookup_insert_ne by done. apply Hlo.
  - exists act. split; [unfold σ'; by rewrite lookup_insert_eq|]. intros c. destruct (decide (c = b)) as [->|Hc].
    + rewrite Hab, Eb'. split; [by exists e'|]. intros (x & ? & ?). by simplify_eq.
    + rewrite Ha, Ec by done. done.
  - exists ina. split; [unfold σ'; rewrite lookup_insert_ne by done; by rewrite lookup_insert_eq|].
    intros c. destruct (decide (c = b)) as [->|Hc].
    + rewrite Hib, Eb'. split; [by exists e'|]. intros (x & ? & ?). by simplify_eq.
    + rewrite Hi, Ec by done. done.
  - unfold σ'. intros hd xs [[<- _]|[_ [[<- _]|[_ E]]%lookup_insert_Some]]%lookup_insert_Some; [tauto..|].
    by eapply (lo_dom _ _ _ Hlo).
  - intros c x Ex. rewrite (Hash.chain_of_frame _ _ _ _ Hsame). destruct (decide (c = b)) as [->|Hc].
    + simplify_eq. rewrite Ebn. by apply (lo_linked _ _ _ Hlo).
    + rewrite Ec in Ex by done. by apply (lo_linked _ _ _ Hlo).
  - intros l Hd. rewrite Hn; [by apply Hlo| | |]; by destruct l.
  - intros c Hc. apply elem_of_dom. rewrite Hdn. apply elem_of_dom. by apply (lo_nodes _ _ _ Hlo).
Qed.

Lemma map_split {A B} (f : A → B) (l : list A) x : x ∈ l → ∃ l1 l2, l = l1 ++ x :: l2 ∧ f <$> l = (f <$> l1) ++ f x :: (f <$> l2).
Proof. intros (l1 & l2 & ->)%list_elem_of_split. exists l1, l2. split; [done|]. by rewrite fmap_app. Qed.

Lemma bit30 f : (TEST_FLAG f BH_Active =? BH_Active) = Z.testbit f 30.
Proof. by apply (test_flag_set f 30). Qed.
Lemma bit31 f : (TEST_FLAG f BH_Visited =? BH_Visited) = Z.testbit f 31.
Proof. by apply (test_flag_set f 31). Qed.
Lemma set30 f k : Z.testbit (SET_FLAG f BH_Active) k = Z.testbit f k || (30 =? k).
Proof. by apply (set_flag_bit f 30). Qed.
Lemma set31 f k : Z.testbit (SET_FLAG f BH_Visited) k = Z.testbit f k || (31 =? k).
Proof. by apply (set_flag_bit f 31). Qed.

Lemma node_do_ok f s h : f (nodes s) = Some h → node_do f s = Done tt (set_nodes h s).
Proof. intros E. unfold node_do, update. by rewrite E. Qed.
Lemma buf_at_ok b e s : bufs s !! b = Some e → buf_at b s = Done e s.
Proof. intros E. unfold buf_at, deref. by rewrite E. Qed.
Lemma buf_mod_ok b e f s : bufs s !! b = Some e → buf_mod b f s = Done tt (set_bufs (<[b := f e]> (bufs s)) s).
Proof. intros E. unfold buf_mod, update. by rewrite E. Qed.

(** First visit of a buffer: onto the inactive list. *)
Lemma lru_first rql σ s b e :
  lists_ok rql σ s → bufs s !! b = Some e → active e = false → visited e = false →
  ∃ s' e' σ', bhash_lru b s = Done tt s' ∧ lru_only b e e' s s' ∧ lists_ok rql σ' s'.
Proof.
  intros Hlo Eb Ha Hv. destruct (lo_act _ _ _ Hlo) as (act & Ea & Hact).
  destruct (lo_ina _ _ _ Hlo) as (ina & Ei & Hina).
  destruct (fam_add_head (LruNode b) InactiveHead (LruNode <$> ina) (nodes s) σ) as (h & E & Hf & _ & [Hd Ho]).
  { apply (lo_hash _ _ _ Hlo). }
  { done. }
  { intros Hin. pose proof (blk_lru_in_fam _ _ _ _ _ Hlo Eb Hin) as Hx. by rewrite Ha, Hv in Hx. }
  { apply (lo_nodes _ _ _ Hlo). by eapply elem_of_dom_2. }
  set (e' := set_flags (SET_FLAG (flags e) BH_Visited) e).
  eexists (set_counts _ _ (set_nodes h (set_bufs (<[b := e']> (bufs s)) s))), e', _.
  assert (Hl : lru_only b e e' s (set_counts (active_count s) (u32 (inactive_count s + 1))
    (set_nodes h (set_bufs (<[b := e']> (bufs s)) s)))).
  { split; [done..| |done|done|done|done|done|by split].
    intros k H30 H31. simpl. rewrite set31. destruct (Z.eqb_spec 31 k); [done|]. by rewrite orb_false_r. }
  split; [|split; [exact Hl|]].
  - unfold bhash_lru. rewrite (bind_Done _ _ _ _ _ (buf_at_ok _ _ _ Eb)). rewrite bit30, bit31.
    unfold active, visited in *. rewrite Ha, Hv. rewrite (bind_Done _ _ _ _ _ (buf_mod_ok _ _ _ _ Eb)).
    erewrite bind_Done; [|apply node_do_ok; exact E]. reflexivity.
  - change (LruNode b :: (LruNode <$> ina)) with (LruNode <$> b :: ina) in Hf.
    replace (<[InactiveHead := LruNode <$> b :: ina]> σ) with
      (<[ActiveHead := LruNode <$> act]> (<[InactiveHead := LruNode <$> b :: ina]> σ)) in Hf.
    2:{ apply insert_id. by rewrite lookup_insert_ne. }
    eapply (lists_ok_lru rql σ s _ b e e' act (b :: ina)); [done..|exact Hf| | | | | |].
    + intros q Hq1 Hq2 Hq3. apply Ho. rewrite !elem_of_cons, list_elem_of_fmap. intros [?|[?|(? & ? & _)]]; [by eapply Hq1|done|by eapply Hq1].
    + done.
    + intros c _. apply Hact.
    + rewrite Hact. assert (Hx : active e' = false).
      { unfold active, e' in *. cbn [flags set_flags]. rewrite set31, Ha. done. }
      rewrite Hx. split; [|done]. intros (x & ? & ?). simplify_eq. congruence.
    + intros c Hc. rewrite elem_of_cons, Hina. naive_solver.
    + rewrite elem_of_cons. unfold active, visited, e' in *. cbn [flags set_flags]. rewrite !set31, Ha. cbn [orb Z.eqb]. rewrite orb_true_r. tauto.
Qed.

(** Second visit: from the inactive to the active list. *)
Lemma lru_second rql σ s b e :
  lists_ok rql σ s → bufs s !! b = Some e → active e = false → visited e = true →
  ∃ s' e' σ', bhash_lru b s = Done tt s' ∧ lru_only b e e' s s' ∧ lists_ok rql σ' s'.
Proof.
  intros Hlo Eb Ha Hv. destruct (lo_act _ _ _ Hlo) as (act & Ea & Hact).
  destruct (lo_ina _ _ _ Hlo) as (ina & Ei & Hina).
  assert (Hin : b ∈ ina) by (apply Hina; eauto).
  destruct (map_split LruNode ina b Hin) as (l1 & l2 & -> & Es). rewrite Es in Ei.
  pose proof (Hash.ok_fam _ _ _ _ (lo_hash _ _ _ Hlo)) as Hfam.
  assert (Hnd : (b ∉ l1) ∧ b ∉ l2).
  { destruct Hfam as [Hdd _]. destruct (Hdd _ _ Ei) as [Hnd _]. rewrite <-Es in Hnd.
    apply NoDup_cons in Hnd as [_ Hnd]. apply NoDup_fmap_1 in Hnd. rewrite <-Permutation_middle in Hnd.
    apply NoDup_cons in Hnd as [Hnd _]. clear -Hnd. set_solver. }
  destruct (fam_del _ _ _ _ _ _ Hfam Ei) as (h & E & Hf & Ebn & [Hd Ho]).
  destruct (fam_add_head (LruNode b) ActiveHead (LruNode <$> act) h _ Hf) as (h2 & E2 & Hf2 & _ & [Hd2 Ho2]).
  { by rewrite lookup_insert_ne. }
  { by eapply fam_del_out. }
  { rewrite Ebn. apply (lo_nodes _ _ _ Hlo). by eapply elem_of_dom_2. }
  set (e' := set_flags (SET_FLAG (flags e) BH_Active) e).
  eexists (set_counts _ _ (set_nodes h2 (set_bufs (<[b := e']> (bufs s)) s))), e', _.
  assert (Hl : lru_only b e e' s (set_counts (u32 (active_count s + 1)) (inactive_count s)
    (set_nodes h2 (set_bufs (<[b := e']> (bufs s)) s)))).
  { split; [done..| |done|done|done|done|done|by split].
    intros k H30 H31. simpl. rewrite set30. destruct (Z.eqb_spec 30 k); [done|]. by rewrite orb_false_r. }
  split; [|split; [exact Hl|]].
  - unfold bhash_lru. rewrite (bind_Done _ _ _ _ _ (buf_at_ok _ _ _ Eb)). rewrite bit30, bit31.
    unfold active, visited in *. rewrite Ha, Hv. rewrite (bind_Done _ _ _ _ _ (buf_mod_ok _ _ _ _ Eb)).
    erewrite bind_Done; [|apply node_do_ok; exact E]. erewrite bind_Done; [|apply node_do_ok; exact E2].
    reflexivity.
  - rewrite <-fmap_app in Hf2. change (LruNode b :: (LruNode <$> act)) with (LruNode <$> b :: act) in Hf2.
    eapply (lists_ok_lru rql σ s _ b e e' (b :: act) (l1 ++ l2)); [done..|exact Hf2| | | | | |].
    + intros q Hq1 Hq2 Hq3. simpl. rewrite Ho2, Ho; [done| |].
      * rewrite elem_of_cons, elem_of_app, !list_elem_of_fmap.
        intros [?|[(? & ? & _)|(? & ? & _)]]; [done|by eapply Hq1..].
      * rewrite !elem_of_cons, list_elem_of_fmap. intros [?|[?|(? & ? & _)]]; [by eapply Hq1|done|by eapply Hq1].
    + simpl. congruence.
    + intros c Hc. rewrite elem_of_cons, Hact. naive_solver.
    + rewrite elem_of_cons. unfold active, e'. cbn [flags set_flags]. rewrite set30, orb_true_r. tauto.
    + intros c Hc. rewrite <-Hina, !elem_of_app, elem_of_cons. tauto.
    + unfold active, visited, e'. cbn [flags set_flags]. rewrite !set30, orb_true_r. rewrite elem_of_app. naive_solver.
Qed.

Lemma bhash_lru_ok rql σ s b e :
  lists_ok rql σ s → bufs s !! b = Some e →
  ∃ s' e' σ', bhash_lru b s = Done tt s' ∧ lru_only b e e' s s' ∧ lists_ok rql σ' s'.
Proof.
  intros Hlo Eb. destruct (active e) eqn:Ha.
  - exists s, e, σ. split; [|split; [|done]].
    + unfold bhash_lru. rewrite (bind_Done _ _ _ _ _ (buf_at_ok _ _ _ Eb)). rewrite bit30.
      unfold active in Ha. by rewrite Ha.
    + split; [by rewrite insert_id|by destruct e|done..|by split].
  - destruct (visited e) eqn:Hv; [by eapply lru_second|by eapply lru_first].
Qed.

(** ** Lookups in the cache *)

Lemma find_hit pins rql N view s b e :
  cache_ok pins rql N view s → bufs s !! b = Some e →
  Hash.hash_find (keyof s) (ht s) (blockno e) (nodes s) = Some (Some (BhNode b)).
Proof.
  intros Hc Eb. destruct (ca_lists _ _ _ _ _ Hc) as [σ Hlo].
  pose proof (bo_blockno _ _ _ _ _ _ _ (ca_bufs _ _ _ _ _ Hc b e Eb)) as Hn.
  pose proof (Hash.hash_find_complete _ _ _ _ (blockno e) (lo_hash _ _ _ Hlo) ltac:(lia)) as Hf.
  destruct (Hash.hash_find _ _ _ _) as [[x|]|]; [| |done].
  - destruct Hf as [_ Hk]. destruct x as [| | |c| | | | |]; simpl in Hk; try done.
    apply fmap_Some in Hk as (x & Ex & Hx). do 3 f_equal.
    eapply (ca_inj _ _ _ _ _ Hc); [done..|by left].
  - destruct (Hash.chain_in _ _ _ _ _ _ (lo_hash _ _ _ Hlo) (proj1 Hn) (lo_linked _ _ _ Hlo b e Eb)) as (hd & xs & H1' & H2' & H3').
    exfalso. apply (Hf hd xs _ H1' H2' H3'). simpl. by rewrite Eb.
Qed.

Lemma find_miss pins rql N view s bno :
  cache_ok pins rql N view s → 0 <= bno → (∀ b e, bufs s !! b = Some e → blockno e ≠ bno) →
  Hash.hash_find (keyof s) (ht s) bno (nodes s) = Some None.
Proof.
  intros Hc Hn Hno. destruct (ca_lists _ _ _ _ _ Hc) as [σ Hlo].
  pose proof (Hash.hash_find_complete _ _ _ _ bno (lo_hash _ _ _ Hlo) Hn) as Hf.
  destruct (Hash.hash_find _ _ _ _) as [[x|]|]; [|done|done].
  destruct Hf as [_ Hk]. destruct x as [| | |c| | | | |]; simpl in Hk; try done.
  apply fmap_Some in Hk as (x & Ex & ->). by destruct (Hno c x).
Qed.

(** Visiting a buffer changes nothing but the LRU. *)
Lemma cache_lru pins rql N view s s' b e e' σ' :
  cache_ok pins rql N view s → bufs s !! b = Some e → lru_only b e e' s s' → lists_ok rql σ' s' →
  cache_ok pins rql N view s'.
Proof.
  intros Hc Eb Hl Hlo.
  assert (Hsame : ∀ c x, bufs s' !! c = Some x → ∃ y, bufs s !! c = Some y ∧ blockno x = blockno y ∧
    page x = page y ∧ lock x = lock y ∧ buf_is_new x = buf_is_new y).
  { intros c x. rewrite (lr_bufs _ _ _ _ _ Hl). intros [[<- <-]|[? ?]]%lookup_insert_Some; [|by exists x].
    exists e. rewrite !buf_is_new_bit, (lr_flags _ _ _ _ _ Hl) by done.
    rewrite (lr_buf _ _ _ _ _ Hl). done. }
  assert (Hdom : dom (bufs s') = dom (bufs s)).
  { rewrite (lr_bufs _ _ _ _ _ Hl), dom_insert_L. apply elem_of_dom_2 in Eb. clear -Eb. set_solver. }
  assert (Hsame2 : ∀ c y, bufs s !! c = Some y → ∃ x, bufs s' !! c = Some x ∧ blockno x = blockno y).
  { intros c y Ec. assert (Hin : c ∈ dom (bufs s')) by (rewrite Hdom; by eapply elem_of_dom_2).
    apply elem_of_dom in Hin as [x Ex]. exists x. split; [done|]. destruct (Hsame c x Ex) as (y' & ? & ? & _). by simplify_eq. }
  split; rewrite ?(lr_disk _ _ _ _ _ Hl), ?(lr_objs _ _ _ _ _ Hl).
  - by exists σ'.
  - intros c x (y & Ey & E1 & E2 & E3 & E4)%Hsame. destruct (ca_bufs _ _ _ _ _ Hc c y Ey) as [B1 B2 B3 B4].
    split; rewrite ?E1, ?E2, ?E3, ?E4; done.
  - intros b1 b2 x1 x2 (y1 & F1 & N1 & P1 & _)%Hsame (y2 & F2 & N2 & P2 & _)%Hsame Hx.
    eapply (ca_inj _ _ _ _ _ Hc b1 b2 y1 y2); [done..|]. rewrite <-N1, <-N2, <-P1, <-P2. done.
  - intros n Hn Hno. apply (ca_uncached _ _ _ _ _ Hc n Hn). intros c y Ec <-.
    destruct (Hsame2 c y Ec) as (x & Ex & Ebn). by apply (Hno c x).
  - apply Hc.
  - apply Hc.
  - apply Hc.
  - destruct (ca_stock _ _ _ _ _ Hc) as (XB & XP & H1' & H2' & H3' & H4' & H5'). exists XB, XP.
    rewrite Hdom, (lr_pagea _ _ _ _ _ Hl), (lr_bufc _ _ _ _ _ Hl). split_and!; try done.
    intros c x (y & Ey & _ & -> & _)%Hsame. by eapply H5'.
Qed.

(** While a block is not cached there is room for one more buffer. *)
Lemma room pins rql N view s bno :
  cache_ok pins rql N view s → 0 <= bno < N → (∀ b e, bufs s !! b = Some e → blockno e ≠ bno) →
  Z.of_nat (size (dom (bufs s))) < N.
Proof.
  intros Hc Hn Hno.
  set (f := λ b, match bufs s !! b with Some e => blockno e | None => 0 end).
  assert (Hinj : NoDup (f <$> elements (dom (bufs s)))).
  { apply NoDup_fmap_2_strong; [|apply NoDup_elements]. intros x y Hx Hy. unfold f.
    apply elem_of_elements, elem_of_dom in Hx as [ex Ex]. apply elem_of_elements, elem_of_dom in Hy as [ey Ey].
    rewrite Ex, Ey. intros Hxy. eapply (ca_inj _ _ _ _ _ Hc); eauto. }
  assert (Hsub : ∀ z, z ∈ bno :: (f <$> elements (dom (bufs s))) → z ∈ seqZ 0 N).
  { intros z [->|(x & -> & Hx)%list_elem_of_fmap]%elem_of_cons; apply elem_of_seqZ; [lia|].
    apply elem_of_elements, elem_of_dom in Hx as [ex Ex]. unfold f. rewrite Ex.
    pose proof (bo_blockno _ _ _ _ _ _ _ (ca_bufs _ _ _ _ _ Hc x ex Ex)). lia. }
  assert (Hlen : (length (bno :: (f <$> elements (dom (bufs s)))) <= length (seqZ 0 N))%nat).
  { apply submseteq_length, NoDup_submseteq; [|done]. apply NoDup_cons. split; [|done].
    intros (x & Hx & Hin)%list_elem_of_fmap. apply elem_of_elements, elem_of_dom in Hin as [ex Ex].
    unfold f in Hx. rewrite Ex in Hx. by apply (Hno x ex). }
  simpl in Hlen. rewrite length_fmap, length_seqZ in Hlen. unfold size, set_size. simpl. lia.
Qed.

(** ** States that agree on the cache *)

(** [s'] differs from [s] outside the cache only. *)
Record same_cache s s' : Prop := {
  sc_nodes : nodes s' = nodes s; sc_ht : ht s' = ht s; sc_bufs : bufs s' = bufs s;
  sc_bufc : buf_kmem_cache s' = buf_kmem_cache s; sc_pagea : pagea s' = pagea s;
  sc_disk : disk s' = disk s;
  sc_objs : ∀ u, phys_page u → objs s' !! u = objs s !! u;
}.

Lemma keyof_ext s s' l : bufs s' = bufs s → keyof s' l = keyof s l.
Proof. intros E. unfold keyof. by rewrite E. Qed.

Lemma cache_ok_ext pins rql N view s s' :
  same_cache s s' → cache_ok pins rql N view s → cache_ok pins rql N view s'.
Proof.
  intros [E1 E2 E3 E4 E5 E6 E7] [(σ & Hlo) Hbo Hinj Hun Hdk Hvw HN Hst]. split; rewrite ?E3, ?E6; try done.
  - exists σ. eapply lists_ok_frame; [exact Hlo|done| |by rewrite E3|by rewrite E1|].
    + rewrite E3. eauto.
    + rewrite E1. apply Hlo.
  - intros b e Eb. destruct (Hbo b e Eb) as [B1 B2 B3 (pg & B4)]. split; [done..|]. exists pg. by rewrite E7.
  - unfold stocked. by rewrite E3, E4, E5.
Qed.

Lemma spin_lock_gd l s : l ∉ blk_locks s → spin_lock l s = Done tt (set_blk_locks ({[l]} ∪ blk_locks s) s).
Proof. intros Hl. unfold spin_lock. by rewrite decide_False. Qed.
Lemma spin_unlock_gd l L s : l ∉ L → blk_locks s = {[l]} ∪ L → spin_unlock l s = Done tt (set_blk_locks L s).
Proof.
  intros Hl E. unfold spin_unlock. rewrite decide_True; simpl; rewrite E; [by rewrite lock_unlock_locks|set_solver].
Qed.

(** ** Creating a buffer *)

Lemma phys_page_pos p : phys_page p → 0 < p.
Proof. intros (q & Hq & ->). unfold KERNBASE, PGSIZE. lia. Qed.

Definition fresh_buf (bno p : Z) : buf_head := Buf (SET_FLAG 0 BH_New) bno Mutex.mutex_init 0 p.

Record created (s s' : gd) (bno b p : Z) : Prop := {
  cr_fresh : b ∉ dom (bufs s);
  cr_page : phys_page p;
  cr_own : ∀ c e, bufs s !! c = Some e → page e ≠ p;
  cr_bufs : bufs s' = <[b := fresh_buf bno p]> (bufs s);
  cr_objs : objs s' = <[p := replicate (Z.to_nat PGSIZE) 0]> (objs s);
  cr_disk : disk s' = disk s;
  cr_rest : same_rest s s';
}.

Lemma buf_alloc_ok N s bno :
  stocked s N → Z.of_nat (size (dom (bufs s))) < N →
  ∃ b p s', buf_alloc bno s = Done b s' ∧ created s s' bno b p ∧ stocked s' N ∧ ht s' = ht s ∧
    nodes s' = INIT_LIST_HEAD (DirtyNode b) (INIT_LIST_HEAD (LruNode b) (INIT_LIST_HEAD (BhNode b) (nodes s))).
Proof.
  intros (XB & XP & Hob & Hpg & HB & HP & Hown) Hroom.
  assert (HXB : XB ≠ ∅) by (intros ->; rewrite size_empty in HB; lia).
  assert (HXP : XP ≠ ∅) by (intros ->; rewrite size_empty in HP; lia).
  destruct (obj_alloc_ok _ _ _ Hob HXB) as (b & c' & Ea & Hb & Hob').
  destruct (alloc_zeroed_ok _ _ Hpg HXP) as (p & a' & Ep & Hp & Hpg').
  pose proof (page_rep_phys _ _ _ Hpg Hp) as Hphys. pose proof (phys_page_pos p Hphys) as Hp0.
  pose proof (obj_rep_nonnull _ _ _ _ Hob Hb) as Hb0. pose proof (obj_rep_disjoint _ _ _ Hob) as Hd.
  assert (Hfresh : b ∉ dom (bufs s)) by (clear -Hb Hd; set_solver).
  unfold buf_alloc, zoom. unfold mbind at 1, M_bind at 1. rewrite Ea. cbv beta iota.
  destruct (Z.eqb_spec b 0) as [?|_]; [done|].
  apply not_elem_of_dom in Hfresh as Hnone.
  unfold mbind, M_bind, modify. cbn [bufs pagea set_nodes set_bufs set_buf_cache]. rewrite Ep.
  unfold buf_mod, update. cbn [bufs set_objs set_pagea set_nodes set_bufs set_buf_cache].
  rewrite lookup_insert_eq. cbn [mbind option_bind]. destruct (Z.eqb_spec p 0) as [?|_]; [lia|].
  eexists b, p, _. split; [reflexivity|]. rewrite Hnone.
  assert (Hbufs : <[b := fresh_buf bno p]> (<[b := Buf (SET_FLAG (flags (default zero_buf None)) BH_New) bno Mutex.mutex_init 0
    (page (default zero_buf None))]> (bufs s)) = <[b := fresh_buf bno p]> (bufs s)) by apply insert_insert_eq.
  split_and!; [| |done|done].
  - split; simpl; [done|done|intros c e Ec Ex; apply (Hown c e Ec); by rewrite Ex|exact Hbufs|done|done|].
    split; simpl; try done. intros u Hu. apply lookup_insert_ne. by intros ->.
  - exists (XB ∖ {[b]}), (XP ∖ {[p]}).
    cbn [bufs pagea buf_kmem_cache set_objs set_pagea set_nodes set_bufs set_buf_cache].
    match goal with |- context [dom ?m] => replace m with (<[b := fresh_buf bno p]> (bufs s)) by (symmetry; exact Hbufs) end.
    assert (Hdom : dom (<[b := fresh_buf bno p]> (bufs s)) = {[b]} ∪ dom (bufs s)) by apply dom_insert_L.
    assert (Hs1 : size (XB ∖ {[b]}) = (size XB - 1)%nat).
    { rewrite size_difference by (clear -Hb; set_solver). by rewrite size_singleton. }
    assert (Hs2 : size (XP ∖ {[p]}) = (size XP - 1)%nat).
    { rewrite size_difference by (clear -Hp; set_solver). by rewrite size_singleton. }
    assert (Hs3 : size ({[b]} ∪ dom (bufs s)) = S (size (dom (bufs s)))).
    { rewrite size_union by (clear -Hfresh; set_solver). by rewrite size_singleton. }
    assert (Hne1 : size XB ≠ 0%nat) by (intros Hz; apply HXB; by apply size_empty_inv, leibniz_equiv in Hz).
    assert (Hne2 : size XP ≠ 0%nat) by (intros Hz; apply HXP; by apply size_empty_inv, leibniz_equiv in Hz).
    rewrite Hdom, Hs1, Hs2, Hs3. split_and!; [done|done|lia|lia|].
    intros c e [[<- <-]|[_ Ec]]%lookup_insert_Some; simpl; [clear; set_solver|].
    pose proof (Hown c e Ec) as Hn. clear -Hn. set_solver.
Qed.

(** The nodes of a new buffer do not disturb the lists. *)
Lemma new_nodes_hash rql σ s s1 bno b p :
  lists_ok rql σ s → created s s1 bno b p → ht s1 = ht s →
  nodes s1 = INIT_LIST_HEAD (DirtyNode b) (INIT_LIST_HEAD (LruNode b) (INIT_LIST_HEAD (BhNode b) (nodes s))) →
  Hash.hash_ok (keyof s1) (ht s1) σ (nodes s1) ∧ ¬ in_fam σ (BhNode b) ∧
  (∀ l, l ≠ BhNode b → l ≠ LruNode b → l ≠ DirtyNode b → nodes s1 !! l = nodes s !! l).
Proof.
  intros Hlo Hcr Eht Hn.
  assert (Hother : ∀ l, l ≠ BhNode b → l ≠ LruNode b → l ≠ DirtyNode b → nodes s1 !! l = nodes s !! l).
  { intros l H1' H2' H3'. rewrite Hn. unfold INIT_LIST_HEAD. by rewrite !lookup_insert_ne. }
  pose proof (cr_fresh _ _ _ _ _ Hcr) as Hfr.
  split_and!; [| |done].
  - rewrite Eht. eapply Hash.hash_ok_frame; [apply Hlo| |done|].
    + eapply fam_agree; [apply (Hash.ok_fam _ _ _ _ (lo_hash _ _ _ Hlo))|].
      intros q Hq. pose proof (in_fam_loc _ _ _ _ Hlo Hq) as Hl. apply Hother; intros ->; done.
    + intros x k. destruct x as [| | |c| | | | |]; simpl; try done. rewrite (cr_bufs _ _ _ _ _ Hcr).
      intros (e & Ec & ->)%fmap_Some. rewrite lookup_insert_ne; [by rewrite Ec|].
      intros ->. apply Hfr. by eapply elem_of_dom_2.
  - intros Hq. by apply (in_fam_loc _ _ _ _ Hlo) in Hq.
Qed.

Lemma bhash_add_lists rql σ s s1 bno b p :
  lists_ok rql σ s → created s s1 bno b p → ht s1 = ht s → 0 <= bno →
  nodes s1 = INIT_LIST_HEAD (DirtyNode b) (INIT_LIST_HEAD (LruNode b) (INIT_LIST_HEAD (BhNode b) (nodes s))) →
  ∃ t h σ', bhash_add b s1 = Done tt (set_ht t (set_nodes h s1)) ∧ lists_ok rql σ' (set_ht t (set_nodes h s1)).
Proof.
  intros Hlo Hcr Eht Hn0 Hn.
  destruct (new_nodes_hash _ _ _ _ _ _ _ Hlo Hcr Eht Hn) as (Hh & Hnf & Hother).
  pose proof (cr_fresh _ _ _ _ _ Hcr) as Hfr. pose proof (cr_bufs _ _ _ _ _ Hcr) as Eb.
  assert (Ebb : bufs s1 !! b = Some (fresh_buf bno p)) by (rewrite Eb; by rewrite lookup_insert_eq).
  assert (Hnb : ∀ l, l = BhNode b ∨ l = LruNode b ∨ l = DirtyNode b → nodes s1 !! l = Some (Node l l)).
  { intros l Hl. rewrite Hn. unfold INIT_LIST_HEAD. destruct Hl as [->|[->| ->]]; by simplify_map_eq. }
  destruct (Hash.hash_add_head_ok (keyof s1) (ht s1) σ (nodes s1) bno (BhNode b)) as (hd & h & Eadd & Ech & Ho & Hok').
  { done. } { done. } { simpl. by rewrite Ebb. } { done. } { rewrite Hnb by tauto. by eexists. }
  set (t := Hash.set_count (Hash.count (ht s1) + 1) (ht s1)) in *.
  set (σ' := <[hd := _]> σ) in Hok'. exists t, h, σ'.
  assert (Hhd : hd ∈ Hash.heads (ht s)).
  { rewrite <-Eht. unfold Hash.chain in Ech. case_match; [done|]. by eapply list_elem_of_lookup_2. }
  pose proof (heads_neq _ _ (lo_heads _ _ _ Hlo) Hhd) as (Hn1 & Hn2 & Hn3).
  assert (Hd1 : dom (bufs s1) = {[b]} ∪ dom (bufs s)) by (rewrite Eb; by rewrite dom_insert_L).
  assert (Hch : ∀ x, x ∈ Hash.chain_of (ht s1) σ bno → ∃ c, x = BhNode c ∧ c ∈ dom (bufs s)).
  { intros x Hx. destruct (Hash.chain_in _ _ _ _ _ _ Hh Hn0 Hx) as (hd' & xs & Hi & Ex & Hin).
    assert (Hf : in_fam σ x) by (exists hd', xs; split; [done|by right]).
    apply (in_fam_loc _ _ _ _ Hlo) in Hf. apply list_elem_of_lookup in Hi as [i Hi].
    destruct (Hash.ok_keys _ _ _ _ Hh i hd' xs x Hi Ex Hin) as (k & Hk & _).
    destruct x as [| | |c| | | | |]; try done. by exists c. }
  assert (Hh2 : ∀ l, l ≠ BhNode b → l ≠ hd → (∀ c, l ≠ BhNode c) → h !! l = nodes s1 !! l).
  { intros l L1 L2 L3. apply Ho. rewrite !elem_of_cons. intros [?|[?|(c & -> & _)%Hch]]; [done|done|by eapply L3]. }
  assert (Hhdl : ∃ i, hd = HashHead i) by (apply hash_heads_in; by rewrite <-(lo_heads _ _ _ Hlo)).
  destruct Hhdl as [i0 ->].
  assert (Hlru : ∀ c, h !! LruNode c = nodes s1 !! LruNode c) by (intros c; by apply Hh2).
  assert (Hdir : ∀ l, is_dirty_loc (dom (bufs s1)) l → h !! l = nodes s1 !! l) by (intros [] Hl; by apply Hh2).
  split.
  - unfold bhash_add. rewrite (bind_Done _ _ _ _ _ (buf_at_ok _ _ _ Ebb)). unfold update. simpl.
    rewrite Eadd. done.
  - split; cbn [ht nodes bufs set_ht set_nodes].
    + exact Hok'.
    + unfold t. simpl. rewrite Eht. apply Hlo.
    + unfold σ'. rewrite lookup_insert_ne by done. apply Hlo.
    + destruct (lo_act _ _ _ Hlo) as (act & Ea & Ha). exists act. unfold σ'.
      rewrite lookup_insert_ne by done. split; [done|]. intros c. rewrite Ha, Eb. split.
      * intros (x & Ex & Hx). exists x. split; [|done]. rewrite lookup_insert_ne; [done|].
        intros ->. apply Hfr. by eapply elem_of_dom_2.
      * intros (x & [[<- <-]|[_ Ex]]%lookup_insert_Some & Hx); [done|by exists x].
    + destruct (lo_ina _ _ _ Hlo) as (ina & Ea & Ha). exists ina. unfold σ'.
      rewrite lookup_insert_ne by done. split; [done|]. intros c. rewrite Ha, Eb. split.
      * intros (x & Ex & Hx). exists x. split; [|done]. rewrite lookup_insert_ne; [done|].
        intros ->. apply Hfr. by eapply elem_of_dom_2.
      * intros (x & [[<- <-]|[_ Ex]]%lookup_insert_Some & Hx); [by destruct Hx|by exists x].
    + unfold σ'. intros hd2 xs [[<- _]|[_ E2]]%lookup_insert_Some; [|by eapply (lo_dom _ _ _ Hlo)].
      right. right. right. by rewrite <-(lo_heads _ _ _ Hlo).
    + intros c x. rewrite Eb. unfold Hash.chain_of at 1. change (Hash.chain t) with (Hash.chain (ht s1)).
      intros [[<- <-]|[_ Ex]]%lookup_insert_Some.
      * simpl blockno. rewrite Ech. unfold σ'. rewrite lookup_insert_eq. simpl. by left.
      * pose proof (lo_linked _ _ _ Hlo c x Ex) as Hl. unfold Hash.chain_of in Hl. rewrite <-Eht in Hl.
        destruct (Hash.chain (ht s1) (blockno x)) as [hd2|] eqn:Ec2; [|by apply elem_of_nil in Hl].
        unfold σ'. destruct (decide (hd2 = HashHead i0)) as [->|Hne].
        -- rewrite lookup_insert_eq. simpl. right. unfold Hash.chain_of. by rewrite Ech.
        -- by rewrite lookup_insert_ne.
    + intros l Hl. rewrite (Hdir l Hl).
      destruct (decide (l = DirtyNode b)) as [->|Hne].
      * rewrite Hnb by tauto. eexists. split; [done|]. simpl. rewrite Hd1. clear. set_solver.
      * destruct (lo_dirty _ _ _ Hlo l) as (n & En & Hp & Hx).
        { rewrite Hd1 in Hl. destruct l; simpl in *; try done. clear -Hl Hne. set_solver. }
        exists n. split.
        { rewrite Hother; [done| | |done]; by destruct l. }
        assert (Hmono : ∀ q, is_dirty_loc (dom (bufs s)) q → is_dirty_loc (dom (bufs s1)) q).
        { intros [] Hq; simpl in *; try done. rewrite Hd1. clear -Hq. set_solver. }
        split; by apply Hmono.
    + intros c Hc. rewrite Hlru. destruct (decide (c = b)) as [->|Hne].
      * rewrite Hnb by tauto. by eexists.
      * rewrite Hother; [|done|congruence|done]. apply (lo_nodes _ _ _ Hlo). rewrite Hd1 in Hc.
        clear -Hc Hne. set_solver.
Qed.

Lemma cache_created pins rql N view s s1 bno b p σ :
  cache_ok pins rql N view s → pins ⊆ dom (bufs s) → created s s1 bno b p → stocked s1 N → 0 <= bno < N →
  (∀ c e, bufs s !! c = Some e → blockno e ≠ bno) → lists_ok rql σ s1 →
  cache_ok pins rql N view s1.
Proof.
  intros Hc Hpins Hcr Hst Hbno Hno Hlo. pose proof Hcr as [C1 C2 C3 C4 C5 C6 C7].
  assert (Hcase : ∀ c e, bufs s1 !! c = Some e → (c = b ∧ e = fresh_buf bno p) ∨ (c ≠ b ∧ bufs s !! c = Some e)).
  { intros c e. rewrite C4. intros [[<- <-]|[? ?]]%lookup_insert_Some; [by left|right; done]. }
  split; rewrite ?C6.
  - by exists σ.
  - intros c e [[-> ->]|[Hne Ec]]%Hcase.
    + assert (Hnp : b ∉ pins) by (clear -Hpins C1; set_solver). split; simpl; [done|done|by rewrite decide_False|].
      exists (replicate (Z.to_nat PGSIZE) 0). rewrite C5, lookup_insert_eq. split_and!; [done| |].
      * rewrite length_replicate. done.
      * change (buf_is_new (fresh_buf bno p)) with true. by apply (ca_uncached _ _ _ _ _ Hc).
    + destruct (ca_bufs _ _ _ _ _ Hc c e Ec) as [B1 B2 B3 (pg & B4 & B5 & B6)]. split; [done..|].
      exists pg. rewrite C5, lookup_insert_ne by (intros Ex; by apply (C3 c e Ec)). done.
  - intros b1 b2 e1 e2 [[-> ->]|[N1 E1]]%Hcase [[-> ->]|[N2 E2]]%Hcase Hx; [done| | |].
    + simpl in Hx. destruct Hx as [Hx|Hx]; [by destruct (Hno b2 e2)|by destruct (C3 b2 e2)].
    + simpl in Hx. destruct Hx as [Hx|Hx]; [by destruct (Hno b1 e1)|by destruct (C3 b1 e1)].
    + by eapply (ca_inj _ _ _ _ _ Hc).
  - intros n Hn Hall. apply (ca_uncached _ _ _ _ _ Hc n Hn). intros c e Ec. apply (Hall c e).
    rewrite C4, lookup_insert_ne; [done|]. intros ->. apply C1. by eapply elem_of_dom_2.
  - apply Hc.
  - apply Hc.
  - apply Hc.
  - done.
Qed.

(** ** [buf_get] *)

Lemma same_cache_locks L s : same_cache s (set_blk_locks L s).
Proof. by split. Qed.

(** The two ways through [buf_get], under the lock. *)
Definition get_body (bno : Z) : M gd Z :=
  found ← bhash_find bno;
  match found with
  | Some b => mret b
  | None => b ← buf_alloc bno; bhash_add b;; bhash_lru b;; mret b
  end.

Lemma same_rest_refl s : same_rest s s.
Proof. by split. Qed.

Lemma get_body_ok pins rql N view s bno :
  cache_ok pins rql N view s → pins ⊆ dom (bufs s) → 0 <= bno < N →
  ∃ b e s', get_body bno s = Done b s' ∧ cache_ok pins rql N view s' ∧
    bufs s' !! b = Some e ∧ blockno e = bno ∧ same_rest s s' ∧ disk s' = disk s ∧
    dom (bufs s) ⊆ dom (bufs s') ∧ (∀ c x, c ≠ b → bufs s' !! c = Some x → bufs s !! c = Some x).
Proof.
  intros Hc Hpins Hn. pose proof (ca_lists _ _ _ _ _ Hc) as [σ Hlo].
  assert (Hlru : ∀ s1 σ1 b e, cache_ok pins rql N view s1 → lists_ok rql σ1 s1 → bufs s1 !! b = Some e →
    ∃ s' e', bhash_lru b s1 = Done tt s' ∧ cache_ok pins rql N view s' ∧ bufs s' !! b = Some e' ∧
      blockno e' = blockno e ∧ same_rest s1 s' ∧ disk s' = disk s1 ∧ dom (bufs s1) ⊆ dom (bufs s') ∧
      ∀ c x, c ≠ b → bufs s' !! c = Some x → bufs s1 !! c = Some x).
  { intros s1 σ1 b e Hc1 Hlo1 Eb. destruct (bhash_lru_ok _ _ _ _ _ Hlo1 Eb) as (s' & e' & σ' & E & Hl & Hlo').
    exists s', e'. split; [done|]. split; [by eapply cache_lru|]. split.
    { rewrite (lr_bufs _ _ _ _ _ Hl). by rewrite lookup_insert_eq. }
    split; [by rewrite (lr_buf _ _ _ _ _ Hl)|]. split; [apply Hl|]. split; [apply Hl|].
    rewrite (lr_bufs _ _ _ _ _ Hl), dom_insert_L. split; [clear; set_solver|].
    intros c x Hcb. by rewrite lookup_insert_ne. }
  destruct (decide (map_Exists (λ _ e, blockno e = bno) (bufs s))) as [(b & e & Eb & Hb)|Hno].
  - destruct (Hlru s σ b e Hc Hlo Eb) as (s' & e' & E & Hc' & Eb' & Hbn & Hr & Hd & Hdom & Hoth).
    exists b, e', s'. split_and!; [|done|done|congruence|done|done|done|done].
    assert (Ef : bhash_find bno s = Done (Some b) s').
    { unfold bhash_find. erewrite bind_Done; cycle 1.
      { unfold deref. rewrite <-Hb, (find_hit _ _ _ _ _ _ _ Hc Eb). reflexivity. }
      cbv beta iota. by rewrite (bind_Done _ _ _ _ _ E). }
    unfold get_body. by rewrite (bind_Done _ _ _ _ _ Ef).
  - assert (Hno' : ∀ b e, bufs s !! b = Some e → blockno e ≠ bno).
    { intros b e Eb Hb. apply Hno. by exists b, e. }
    destruct (buf_alloc_ok N s bno (ca_stock _ _ _ _ _ Hc)) as (b & p & s1 & Ea & Hcr & Hst & Eht & En).
    { by eapply room. }
    destruct (bhash_add_lists _ _ _ _ _ _ _ Hlo Hcr Eht (proj1 Hn) En) as (t & h & σ2 & Eadd & Hlo2).
    set (s2 := set_ht t (set_nodes h s1)) in *.
    assert (Hcr2 : created s s2 bno b p) by (destruct Hcr as [C1 C2 C3 C4 C5 C6 [S1 S2 S3 S4 S5 S6]]; by split).
    assert (Hc2 : cache_ok pins rql N view s2) by by eapply cache_created.
    assert (Eb2 : bufs s2 !! b = Some (fresh_buf bno p)).
    { rewrite (cr_bufs _ _ _ _ _ Hcr2). by rewrite lookup_insert_eq. }
    destruct (Hlru s2 σ2 b _ Hc2 Hlo2 Eb2) as (s' & e' & E & Hc' & Eb' & Hbn & Hr & Hd & Hdom & Hoth).
    exists b, e', s'. split_and!; [|done|done|done| | | |].
    + unfold get_body.
      assert (Ef : bhash_find bno s = Done None s).
      { unfold bhash_find. erewrite bind_Done; cycle 1.
        { unfold deref. rewrite (find_miss _ _ _ _ _ _ Hc (proj1 Hn) Hno'). reflexivity. }
        done. }
      rewrite (bind_Done _ _ _ _ _ Ef), (bind_Done _ _ _ _ _ Ea), (bind_Done _ _ _ _ _ Eadd).
      by rewrite (bind_Done _ _ _ _ _ E).
    + eapply same_rest_trans; [apply Hcr2|done].
    + rewrite Hd. apply Hcr2.
    + rewrite (cr_bufs _ _ _ _ _ Hcr2), dom_insert_L in Hdom. clear -Hdom. set_solver.
    + intros c x Hcb Ec%Hoth; [|done]. rewrite (cr_bufs _ _ _ _ _ Hcr2), lookup_insert_ne in Ec; done.
Qed.

(** An update of a buffer's bookkeeping: flags other than the LRU's, the
    reference count, the lock. *)
Lemma cache_buf_mod pins pins' rql N view s b e f :
  cache_ok pins rql N view s → bufs s !! b = Some e →
  blockno (f e) = blockno e → page (f e) = page e → active (f e) = active e → visited (f e) = visited e →
  buf_is_new (f e) = buf_is_new e →
  (∀ c, c ≠ b → (c ∈ pins' ↔ c ∈ pins)) →
  Mutex.msem (lock (f e)) = sem_init (if decide (b ∈ pins') then 0 else 1) →
  buf_mod b f s = Done tt (set_bufs (<[b := f e]> (bufs s)) s) ∧
  cache_ok pins' rql N view (set_bufs (<[b := f e]> (bufs s)) s) ∧
  same_rest s (set_bufs (<[b := f e]> (bufs s)) s).
Proof.
  intros Hc Eb F1 F2 F3 F4 F5 Hp Hl. split; [by apply buf_mod_ok|]. split; [|by split].
  destruct (bo_data _ _ _ _ _ _ _ (ca_bufs _ _ _ _ _ Hc b e Eb)) as (pg & P1 & P2 & P3).
  destruct (ca_lists _ _ _ _ _ Hc) as [σ Hlo].
  eapply (cache_update pins pins' rql N view view s _ b e (f e) pg); [done..|].
  split; simpl; try done.
  - apply (ca_disk _ _ _ _ _ Hc). apply (ca_bufs _ _ _ _ _ Hc b e Eb).
  - by rewrite P3, F5.
  - apply Hlo.
Qed.

Lemma buf_get_ok pins rql N view s bno :
  cache_ok pins rql N view s → pins ⊆ dom (bufs s) → bhash_lock ∉ blk_locks s → 0 <= bno < N →
  ∃ b e s', buf_get bno s = Done b s' ∧ cache_ok pins rql N view s' ∧
    bufs s' !! b = Some e ∧ blockno e = bno ∧ same_rest s s' ∧ disk s' = disk s ∧ dom (bufs s) ⊆ dom (bufs s') ∧
    (∀ c x, c ≠ b → bufs s' !! c = Some x → bufs s !! c = Some x).
Proof.
  intros Hc Hpins Hlk Hn. set (s0 := set_blk_locks ({[bhash_lock]} ∪ blk_locks s) s).
  assert (Hc0 : cache_ok pins rql N view s0) by (eapply cache_ok_ext; [apply same_cache_locks|done]).
  destruct (get_body_ok pins rql N view s0 bno Hc0 Hpins Hn) as (b & e & s1 & E & Hc1 & Eb & Hbn & Hr & Hd & Hdom & Hoth).
  set (s2 := set_blk_locks (blk_locks s) s1).
  assert (Hc2 : cache_ok pins rql N view s2) by (eapply cache_ok_ext; [apply same_cache_locks|done]).
  destruct (cache_buf_mod pins pins rql N view s2 b e (λ e, set_refcnt (atomic_inc (refcnt e)) e)) as (Em & Hc3 & Hr3);
    [done..|by apply (ca_bufs _ _ _ _ _ Hc2 b e)|].
  eexists b, _, _. split_and!; [|exact Hc3|simpl; by rewrite lookup_insert_eq|done| |done| |].
  - unfold buf_get. rewrite (bind_Done _ _ _ _ _ (spin_lock_gd _ _ Hlk)).
    unfold get_body in E. apply bind_inv in E as (found & sm & Ef & Em2).
    rewrite (bind_Done _ _ _ _ _ Ef). fold s0 in Ef.
    rewrite (bind_Done _ _ _ _ _ Em2).
    erewrite bind_Done; cycle 1.
    { apply (spin_unlock_gd _ (blk_locks s)); [done|]. by rewrite (sr_locks _ _ Hr). }
    erewrite bind_Done; [reflexivity|exact Em].
  - eapply same_rest_trans; [|exact Hr3]. destruct Hr as [S1 S2 S3 S4 S5 S6]. by split.
  - simpl. rewrite dom_insert_L. clear -Hdom. set_solver.
  - intros c x Hcb. simpl. rewrite lookup_insert_ne by done. by apply Hoth.
Qed.

(** ** The dirty list

    Its nodes stay among themselves whatever state the list is in: an update
    of one of them touches no other list. *)
Definition dirty_closed (B : gset Z) (h : gmap bloc (node bloc)) : Prop :=
  ∀ l, is_dirty_loc B l → ∃ n, h !! l = Some n ∧ is_dirty_loc B (prev n) ∧ is_dirty_loc B (next n).
Definition dirty_step (B : gset Z) (h h' : gmap bloc (node bloc)) : Prop :=
  dirty_closed B h' ∧ ∀ l, ¬ is_dirty_loc B l → h' !! l = h !! l.

Lemma dirty_step_trans B h1 h2 h3 : dirty_step B h1 h2 → dirty_step B h2 h3 → dirty_step B h1 h3.
Proof. intros [_ F1] [C2 F2]. split; [done|]. intros l Hl. by rewrite F2, F1. Qed.

Lemma set_next_dirty B h p v :
  dirty_closed B h → is_dirty_loc B p → is_dirty_loc B v → ∃ h', set_next p v h = Some h' ∧ dirty_step B h h'.
Proof.
  intros Hc Hp Hv. destruct (Hc p Hp) as (n & En & H1' & H2'). unfold set_next. rewrite En. simpl.
  eexists. split; [done|]. split.
  - intros l Hl. destruct (decide (l = p)) as [->|]; [rewrite lookup_insert_eq; eexists; split; [done|by split]|].
    rewrite lookup_insert_ne by done. by apply Hc.
  - intros l Hl. apply lookup_insert_ne. by intros ->.
Qed.
Lemma set_prev_dirty B h p v :
  dirty_closed B h → is_dirty_loc B p → is_dirty_loc B v → ∃ h', set_prev p v h = Some h' ∧ dirty_step B h h'.
Proof.
  intros Hc Hp Hv. destruct (Hc p Hp) as (n & En & H1' & H2'). unfold set_prev. rewrite En. simpl.
  eexists. split; [done|]. split.
  - intros l Hl. destruct (decide (l = p)) as [->|]; [rewrite lookup_insert_eq; eexists; split; [done|by split]|].
    rewrite lookup_insert_ne by done. by apply Hc.
  - intros l Hl. apply lookup_insert_ne. by intros ->.
Qed.

Lemma list_del_dirty B h x : dirty_closed B h → is_dirty_loc B x → ∃ h', list_del x h = Some h' ∧ dirty_step B h h'.
Proof.
  intros Hc Hx. destruct (Hc x Hx) as (n & En & H1' & H2'). unfold list_del, prv, nxt. rewrite En. simpl.
  unfold __list_del. destruct (set_next_dirty B h (prev n) (next n) Hc H1' H2') as (h1 & -> & S1). simpl.
  destruct (set_prev_dirty B h1 (next n) (prev n) (proj1 S1) H2' H1') as (h2 & -> & S2).
  exists h2. split; [done|]. by eapply dirty_step_trans.
Qed.

Lemma list_add_head_dirty B h x :
  dirty_closed B h → is_dirty_loc B x → ∃ h', list_add_head x DirtyHead h = Some h' ∧ dirty_step B h h'.
Proof.
  intros Hc Hx. destruct (Hc DirtyHead I) as (n & En & _ & H2').
  unfold list_add_head, nxt. rewrite En. simpl. unfold __list_add.
  destruct (set_prev_dirty B h (next n) x Hc H2' Hx) as (h1 & -> & S1). simpl.
  destruct (set_next_dirty B h1 DirtyHead x (proj1 S1) I Hx) as (h2 & -> & S2). simpl.
  destruct (set_next_dirty B h2 x (next n) (proj1 S2) Hx H2') as (h3 & -> & S3). simpl.
  destruct (set_prev_dirty B h3 x DirtyHead (proj1 S3) Hx I) as (h4 & -> & S4).
  exists h4. split; [done|]. eauto using dirty_step_trans.
Qed.

(** The node work of a dirty release. *)
Lemma dirty_push B h b :
  dirty_closed B h → b ∈ B →
  ∃ none h1 h2, list_empty DirtyHead h = Some none ∧
    (if negb none then list_del (DirtyNode b) h else Some h) = Some h1 ∧
    list_add_head (DirtyNode b) DirtyHead h1 = Some h2 ∧ dirty_step B h h2.
Proof.
  intros Hc Hb. destruct (Hc DirtyHead I) as (n & En & _ & _).
  unfold list_empty, nxt. rewrite En. simpl.
  exists (bool_decide (next n = DirtyHead)). destruct (bool_decide (next n = DirtyHead)); simpl.
  - destruct (list_add_head_dirty B h (DirtyNode b) Hc Hb) as (h2 & E2 & S2).
    exists h, h2. split; [done|]. split; [done|]. by split.
  - destruct (list_del_dirty B h (DirtyNode b) Hc Hb) as (h1 & E1 & S1).
    destruct (list_add_head_dirty B h1 (DirtyNode b) (proj1 S1) Hb) as (h2 & E2 & S2).
    exists h1, h2. split; [done|]. split; [exact E1|]. split; [exact E2|]. by eapply dirty_step_trans.
Qed.

(** ** Processing one bio *)


Lemma obj_copy_ok dst src n s from bytes to to' :
  0 <= dst.2 → 0 <= src.2 → objs s !! src.1 = Some from → slice (Z.to_nat src.2) (Z.to_nat n) from = Some bytes →
  objs s !! dst.1 = Some to → splice (Z.to_nat dst.2) bytes to = Some to' →
  obj_copy dst src n s = Done tt (set_objs (<[dst.1 := to']> (objs s)) s).
Proof.
  intros H1' H2' E1 E2 E3 E4. unfold obj_copy, update.
  destruct (Z.ltb_spec dst.2 0); [lia|]. destruct (Z.ltb_spec src.2 0); [lia|]. simpl.
  rewrite E1. simpl. rewrite E2. simpl. rewrite E3. simpl. rewrite E4. done.
Qed.

(** The buffer after [buf_release] and [buf_unpin]. *)
Definition released (dirty : bool) (e : buf_head) : buf_head :=
  let f := CLEAR_FLAG (flags e) BH_New in
  Buf (if dirty then SET_FLAG f BH_Dirty else f) (blockno e) (Mutex.Mut 0 (sem_init 1) None)
    (atomic_dec (refcnt e)) (page e).

Lemma release_ok dirty s b e :
  bufs s !! b = Some e → Mutex.msem (lock e) = sem_init 0 → bhash_lock ∉ blk_locks s →
  dirty_closed (dom (bufs s)) (nodes s) →
  ∃ h s', (buf_release b dirty;; buf_unpin b) s = Done tt s' ∧
    s' = set_nodes h (set_bufs (<[b := released dirty e]> (bufs s)) s) ∧
    dirty_step (dom (bufs s)) (nodes s) h.
Proof.
  intros Eb Hl Hlk Hd. set (e1 := set_refcnt (atomic_dec (refcnt e)) e).
  set (e2 := set_flags (CLEAR_FLAG (flags e1) BH_New) e1).
  set (s2 := set_bufs (<[b := e2]> (bufs s)) s).
  assert (Hunpin : ∀ t x, bufs t !! b = Some x → Mutex.msem (lock x) = sem_init 0 →
    buf_unpin b t = Done tt (set_bufs (<[b := set_lock (Mutex.Mut 0 (sem_init 1) None) x]> (bufs t)) t)).
  { intros t x Ex Hx. unfold buf_unpin. rewrite (bind_Done _ _ _ _ _ (buf_at_ok _ _ _ Ex)).
    rewrite (bind_Done _ _ _ _ _ (mutex_unlock_ok _ _ Hx)). by apply buf_mod_ok. }
  assert (E12 : ∀ k : unit → M gd unit, (buf_mod b (λ e, set_refcnt (atomic_dec (refcnt e)) e);;
    buf_mod b (λ e, set_flags (CLEAR_FLAG (flags e) BH_New) e) ≫= k) s = k tt s2).
  { intros k. rewrite (bind_Done _ _ _ _ _ (buf_mod_ok _ _ _ _ Eb)).
    erewrite bind_Done; [|apply (buf_mod_ok b e1); simpl; by rewrite lookup_insert_eq].
    simpl. rewrite insert_insert_eq. done. }
  assert (Eb2 : bufs s2 !! b = Some e2) by (simpl; by rewrite lookup_insert_eq).
  destruct dirty.
  - destruct (dirty_push (dom (bufs s)) (nodes s) b Hd) as (none & h1 & h2 & P1 & P2 & P3 & Hs).
    { by eapply elem_of_dom_2. }
    set (e3 := set_flags (SET_FLAG (flags e2) BH_Dirty) e2).
    exists h2, (set_nodes h2 (set_bufs (<[b := released true e]> (bufs s)) s)). split; [|split; [done|exact Hs]].
    assert (Erel : buf_release b true s = Done tt (set_nodes h2 (set_bufs (<[b := e3]> (bufs s)) s))).
    { unfold buf_release. rewrite E12.
      rewrite (bind_Done _ _ _ _ _ (buf_mod_ok _ _ _ _ Eb2)). cbn [bufs set_bufs s2].
      rewrite insert_insert_eq. fold e3.
      erewrite bind_Done; [|by apply spin_lock_gd].
      erewrite bind_Done; [|unfold node_empty, deref; cbn; rewrite P1; reflexivity].
      destruct none; cbn [negb] in *.
      - injection P2 as <-. erewrite bind_Done; [|reflexivity].
        erewrite bind_Done; [|apply node_do_ok; exact P3].
        rewrite (spin_unlock_gd _ (blk_locks s)) by done. by destruct s.
      - erewrite bind_Done; [|apply node_do_ok; exact P2].
        erewrite bind_Done; [|apply node_do_ok; exact P3].
        rewrite (spin_unlock_gd _ (blk_locks s)) by done. by destruct s. }
    rewrite (bind_Done _ _ _ _ _ Erel). rewrite (Hunpin _ e3); [|simpl; by rewrite lookup_insert_eq|done].
    cbn [bufs set_bufs set_nodes]. rewrite insert_insert_eq. done.
  - exists (nodes s), (set_nodes (nodes s) (set_bufs (<[b := released false e]> (bufs s)) s)). split; [|split; [done|by split]].
    assert (Erel : buf_release b false s = Done tt s2) by (unfold buf_release; by rewrite E12).
    rewrite (bind_Done _ _ _ _ _ Erel), (Hunpin _ e2 Eb2 Hl). unfold s2. simpl. rewrite insert_insert_eq. by destruct s.
Qed.

Lemma pin_ok me s b e : bufs s !! b = Some e → Mutex.msem (lock e) = sem_init 1 →
  buf_pin me b s = Done tt (set_bufs (<[b := set_lock (Mutex.Mut 1 (sem_init 0) (Some me)) e]> (bufs s)) s).
Proof.
  intros Eb Hl. unfold buf_pin. rewrite (bind_Done _ _ _ _ _ (buf_at_ok _ _ _ Eb)).
  rewrite (bind_Done _ _ _ _ _ (mutex_lock_ok _ _ _ Hl)). by apply buf_mod_ok.
Qed.
Lemma bio_at_ok b e s : bios (biom s) !! b = Some e → bio_at b s = Done e s.
Proof. intros E. unfold bio_at, deref. by rewrite E. Qed.
Lemma rq_at_ok r q s : rqs s !! r = Some q → rq_at r s = Done q s.
Proof. intros E. unfold rq_at, deref. by rewrite E. Qed.
Lemma bio_mod_ok b f e s : bios (biom s) !! b = Some e →
  bio_mod b f s = Done tt (set_biom (BioMem (bio_kmem_cache (biom s)) (<[b := f e]> (bios (biom s)))) s).
Proof. intros E. unfold bio_mod, update. by rewrite E. Qed.
Lemma rq_mod_ok r f q s : rqs s !! r = Some q → rq_mod r f s = Done tt (set_rqs (<[r := f q]> (rqs s)) s).
Proof. intros E. unfold rq_mod, update. by rewrite E. Qed.
Lemma do_ll_rw_ok bno p rw c c' d' s : objs s !! p = Some c → ll_rw bno rw c (disk s) = Done c' d' →
  do_ll_rw bno p rw s = Done tt (set_objs (<[p := c']> (objs s)) (set_disk d' s)).
Proof. intros E1 E2. unfold do_ll_rw, mbind, M_bind, deref, zoom. rewrite E1, E2. done. Qed.

(** What processing a bio leaves in place outside the cache and [u]. *)
Record io_post s s' (b bi : Z) (be : bio) (u : Z) : Prop := {
  ip_rqs : rqs s' = rqs s;
  ip_qsem : qsem s' = qsem s;
  ip_kmc : kmc s' = kmc s;
  ip_locks : blk_locks s' = blk_locks s;
  ip_bioc : bio_kmem_cache (biom s') = bio_kmem_cache (biom s);
  ip_bios : ∃ pg, bios (biom s') = <[bi := set_b_page pg be]> (bios (biom s));
  ip_objs : ∀ w, ¬ phys_page w → w ≠ u → objs s' !! w = objs s !! w;
  ip_bufs : ∃ e', bufs s' = <[b := e']> (bufs s) ∧ buf_is_new e' = false;
}.

Lemma released_bits dirty e :
  active (released dirty e) = active e ∧ visited (released dirty e) = visited e ∧
  buf_is_new (released dirty e) = false.
Proof.
  rewrite buf_is_new_bit. unfold active, visited. cbn [flags released].
  change BH_New with (2 ^ 1). change BH_Dirty with (2 ^ 0).
  destruct dirty; rewrite ?set_flag_bit, !clear_flag_bit by lia; cbn [Z.eqb negb];
    change (1 =? 30) with false; change (1 =? 31) with false; change (1 =? 1) with true;
    change (0 =? 30) with false; change (0 =? 31) with false; change (0 =? 1) with false;
    cbn [negb]; by rewrite ?andb_true_r, ?andb_false_r, ?orb_false_r.
Qed.

(** The end of both cases: page [pg] of the buffer is its block's content. *)
Lemma cache_release rql N view view' s s0 s' dirty b e e1 pg h :
  cache_ok ∅ rql N view s → bufs s !! b = Some e →
  page e1 = page e → blockno e1 = blockno e → active e1 = active e → visited e1 = visited e →
  bufs s0 = <[b := e1]> (bufs s) → nodes s0 = nodes s → ht s0 = ht s → pagea s0 = pagea s →
  buf_kmem_cache s0 = buf_kmem_cache s →
  objs s0 !! page e = Some pg → Z.of_nat (length pg) = BLK_SIZE →
  (∀ w, phys_page w → w ≠ page e → objs s0 !! w = objs s !! w) →
  (∀ n, disk_at (disk s0) n = disk_at (disk s) n) →
  (∀ n, n ≠ blockno e → view' !! n = view !! n) → view' !! blockno e = Some pg →
  s' = set_nodes h (set_bufs (<[b := released dirty e1]> (bufs s0)) s0) →
  dirty_step (dom (bufs s0)) (nodes s0) h →
  cache_ok ∅ rql N view' s'.
Proof.
  intros Hc Eb F1 F2 F3 F4 E1 E2 E3 E4 E5 Hpg Hlen Hobj Hdk Hv1 Hv2 -> [Hs1 Hs2].
  pose proof (ca_bufs _ _ _ _ _ Hc b e Eb) as Hbo.
  destruct (released_bits dirty e1) as (R1 & R2 & R3).
  (* bring the pages other than the buffer's back to those of [s] *)
  set (s1 := set_objs (<[page e := pg]> (objs s))
    (set_nodes h (set_bufs (<[b := released dirty e1]> (bufs s0)) (set_disk (disk s0) s)))).
  assert (Hdom : dom (bufs s0) = dom (bufs s)).
  { rewrite E1, dom_insert_L. apply elem_of_dom_2 in Eb. clear -Eb. set_solver. }
  apply (cache_ok_ext _ _ _ _ s1).
  { split; simpl; try done. intros w Hw. destruct (decide (w = page e)) as [->|Hne].
    - by rewrite Hpg, lookup_insert_eq.
    - rewrite lookup_insert_ne by done. by apply Hobj. }
  eapply (cache_update ∅ ∅ rql N view view' s s1 b e (released dirty e1) pg); [done..|].
  split; simpl; try done.
  - by rewrite E1, insert_insert_eq.
  - by rewrite R1.
  - by rewrite R2.
  - by rewrite lookup_insert_eq.
  - intros w Hw. by rewrite lookup_insert_ne.
  - rewrite Hdk. apply (ca_disk _ _ _ _ _ Hc). apply Hbo.
  - by rewrite R3.
  - intros l Hl. rewrite Hs2 by (by rewrite Hdom). by rewrite E2.
  - intros l Hl. rewrite <-Hdom in *. by apply Hs1.
Qed.

(** The situation in which a bio is processed: buffer [b] holds its block,
    [u] is the caller's buffer. *)
Record io_pre rql N view s (b : Z) (e : buf_head) (r : Z) (q : request) (bi : Z) (be : bio)
    (u pos : Z) (ub blk : list Z) : Prop := {
  io_cache : cache_ok ∅ rql N view s;
  io_buf : bufs s !! b = Some e;
  io_lock : bhash_lock ∉ blk_locks s;
  io_rq : rqs s !! r = Some q;
  io_vaddr : vaddr q = (u, pos);
  io_user : ¬ phys_page u;
  io_ub : objs s !! u = Some ub;
  io_pos : 0 <= pos;
  io_bio : bios (biom s) !! bi = Some be;
  io_bno : b_blockno be = blockno e;
  io_off : 0 <= offset be;
  io_len : 0 < len be;
  io_in : offset be + len be <= BLK_SIZE;
  io_room : pos + len be <= Z.of_nat (length ub);
  io_view : view !! blockno e = Some blk;
  io_blk : Z.of_nat (length blk) = BLK_SIZE;
}.

Lemma lock_free rql N view s b e :
  cache_ok ∅ rql N view s → bufs s !! b = Some e → Mutex.msem (lock e) = sem_init 1.
Proof.
  intros Hc Eb. rewrite (bo_lock _ _ _ _ _ _ _ (ca_bufs _ _ _ _ _ Hc b e Eb)).
  rewrite decide_False; [done|]. by apply not_elem_of_empty.
Qed.

Definition pinned (e : buf_head) : buf_head := set_lock (Mutex.Mut 1 (sem_init 0) (Some io_thread)) e.

Lemma dirty_lists rql σ s s' :
  lists_ok rql σ s → nodes s' = nodes s → dom (bufs s') = dom (bufs s) → dirty_closed (dom (bufs s')) (nodes s').
Proof. intros Hlo -> -> l Hl. by apply (lo_dirty _ _ _ Hlo). Qed.

Lemma io_read_ok rql N view s b e r q bi be u pos ub blk :
  io_pre rql N view s b e r q bi be u pos ub blk →
  ∃ data ub' s', slice (Z.to_nat (offset be)) (Z.to_nat (len be)) blk = Some data ∧
    splice (Z.to_nat pos) data ub = Some ub' ∧
    (buf_pin io_thread b;; io_read r bi b) s = Done tt s' ∧ cache_ok ∅ rql N view s' ∧
    io_post s s' b bi be u ∧ objs s' !! u = Some ub'.
Proof.
  intros [Hc Eb Hlk Hrq Hva Hu Hub Hpos Hbi Hbno Hoff Hlen Hin Hroom Hview Hblk].
  pose proof (ca_bufs _ _ _ _ _ Hc b e Eb) as Hbo. pose proof (bo_page _ _ _ _ _ _ _ Hbo) as Hpp.
  destruct (bo_data _ _ _ _ _ _ _ Hbo) as (pg & Hpg & Hpl & Hpd).
  destruct (ca_lists _ _ _ _ _ Hc) as [σ Hlo]. unfold BLK_SIZE in *.
  pose proof (slice_ok (Z.to_nat (offset be)) (Z.to_nat (len be)) blk ltac:(lia)) as Hslice.
  set (data := take _ _) in Hslice. pose proof (slice_length _ _ _ _ Hslice) as Hdl.
  pose proof (splice_ok (Z.to_nat pos) data ub ltac:(lia)) as Hsplice. set (ub' := take _ _ ++ _) in Hsplice.
  assert (Hup : u ≠ page e) by (by intros ->).
  set (s1 := set_bufs (<[b := pinned e]> (bufs s)) s).
  assert (E1 : buf_pin io_thread b s = Done tt s1) by (apply pin_ok; [done|by eapply lock_free]).
  assert (Eb1 : bufs s1 !! b = Some (pinned e)) by (simpl; by rewrite lookup_insert_eq).
  (* after the driver has filled a new page *)
  assert (Hfill : ∃ s2 be2, (if buf_is_new (pinned e) then
       bio_mod bi (set_b_page (page (pinned e)));; bi' ← bio_at bi; do_ll_rw (b_blockno bi') (b_page bi') DEV_READ
     else mret tt) s1 = Done tt s2 ∧
     nodes s2 = nodes s ∧ ht s2 = ht s ∧ bufs s2 = bufs s1 ∧ rqs s2 = rqs s ∧ qsem s2 = qsem s ∧ kmc s2 = kmc s ∧
     blk_locks s2 = blk_locks s ∧ pagea s2 = pagea s ∧ buf_kmem_cache s2 = buf_kmem_cache s ∧
     bio_kmem_cache (biom s2) = bio_kmem_cache (biom s) ∧ bios (biom s2) = <[bi := be2]> (bios (biom s)) ∧
     (∃ p, be2 = set_b_page p be) ∧ objs s2 !! page e = Some blk ∧ (∀ w, w ≠ page e → objs s2 !! w = objs s !! w) ∧
     ∀ n, disk_at (disk s2) n = disk_at (disk s) n).
  { change (buf_is_new (pinned e)) with (buf_is_new e). destruct (buf_is_new e) eqn:Hnew.
    - rewrite Hview in Hpd. symmetry in Hpd.
      destruct (ll_read_ok (disk s) (blockno e) blk pg Hpd Hpl) as (d' & Ell & Hd').
      eexists _, (set_b_page (page e) be). split.
      + erewrite bind_Done; [|apply (bio_mod_ok bi _ be); exact Hbi].
        erewrite bind_Done; [|apply bio_at_ok; cbn; apply lookup_insert_eq].
        cbn [b_blockno b_page set_b_page]. rewrite Hbno. apply (do_ll_rw_ok _ _ _ pg blk d'); done.
      + split_and!; try done; cbn.
        * by eexists.
        * by rewrite lookup_insert_eq.
        * intros w Hw. by rewrite lookup_insert_ne.
    - exists s1, be. rewrite Hview in Hpd. injection Hpd as <-. split_and!; try done; cbn.
      + by rewrite insert_id.
      + exists (b_page be). by destruct be. }
  destruct Hfill as (s2 & be2 & E2 & N2 & T2 & B2 & R2 & Q2 & K2 & L2 & P2 & C2 & BC2 & BB2 & [p2 ->] & O2 & OO2 & D2).
  assert (Ecp : obj_copy (u, pos) (page e, offset be) (len be) s2 = Done tt (set_objs (<[u := ub']> (objs s2)) s2)).
  { apply (obj_copy_ok (u, pos) (page e, offset be) _ _ blk data ub ub'); simpl; try done. by rewrite OO2. }
  set (s3 := set_objs (<[u := ub']> (objs s2)) s2) in *.
  assert (Eb3 : bufs s3 !! b = Some (pinned e)) by (cbn; by rewrite B2).
  assert (Hd3 : dom (bufs s3) = dom (bufs s)).
  { cbn. rewrite B2. cbn. rewrite dom_insert_L. apply elem_of_dom_2 in Eb. clear -Eb. set_solver. }
  destruct (release_ok false s3 b (pinned e) Eb3 eq_refl) as (h & s' & Erel & Es' & Hs').
  { cbn. by rewrite L2. }
  { eapply (dirty_lists _ _ s); done. }
  exists data, ub', s'. split; [done|]. split; [done|]. split; [|split; [|split]].
  - rewrite (bind_Done _ _ _ _ _ E1). unfold io_read. rewrite (bind_Done _ _ _ _ _ (buf_at_ok _ _ _ Eb1)).
    rewrite (bind_Done _ _ _ _ _ E2).
    erewrite bind_Done; [|apply rq_at_ok; rewrite R2; exact Hrq].
    erewrite bind_Done; [|apply buf_at_ok; rewrite B2; exact Eb1].
    erewrite bind_Done; [|apply bio_at_ok; rewrite BB2; apply lookup_insert_eq].
    rewrite Hva. cbn [offset len set_b_page page pinned set_lock]. rewrite (bind_Done _ _ _ _ _ Ecp). exact Erel.
  - eapply (cache_release rql N view view s s3 s' false b e (pinned e) blk h); try done.
    + cbn. rewrite lookup_insert_ne by done. done.
    + intros w Hw Hwe. cbn. rewrite lookup_insert_ne by (by intros ->). by apply OO2.
  - rewrite Es'. split; cbn; try done.
    + by exists p2.
    + intros w Hw Hwu. rewrite lookup_insert_ne by done. apply OO2. by intros ->.
    + eexists. split; [rewrite B2; cbn; by rewrite insert_insert_eq|]. by destruct (released_bits false (pinned e)) as (_ & _ & ?).
  - rewrite Es'. cbn. by rewrite lookup_insert_eq.
Qed.

(** A write over the whole buffer does not depend on what was there. *)
Lemma splice_full {A} (data x y : list A) :
  length data = length x → length data = length y → splice 0 data x = splice 0 data y.
Proof.
  intros H1' H2'. unfold splice. simpl. rewrite !drop_ge by lia. rewrite H1' at 1. rewrite H2' at 1.
  by rewrite !Nat.leb_refl.
Qed.

Lemma io_write_ok rql N view s b e r q bi be u pos ub blk :
  io_pre rql N view s b e r q bi be u pos ub blk →
  ∃ data blk' s', slice (Z.to_nat pos) (Z.to_nat (len be)) ub = Some data ∧
    splice (Z.to_nat (offset be)) data blk = Some blk' ∧
    (buf_pin io_thread b;; io_write r bi b) s = Done tt s' ∧
    cache_ok ∅ rql N (<[blockno e := blk']> view) s' ∧ io_post s s' b bi be u ∧ objs s' !! u = Some ub.
Proof.
  intros [Hc Eb Hlk Hrq Hva Hu Hub Hpos Hbi Hbno Hoff Hlen Hin Hroom Hview Hblk].
  pose proof (ca_bufs _ _ _ _ _ Hc b e Eb) as Hbo. pose proof (bo_page _ _ _ _ _ _ _ Hbo) as Hpp.
  destruct (bo_data _ _ _ _ _ _ _ Hbo) as (pg & Hpg & Hpl & Hpd).
  destruct (ca_lists _ _ _ _ _ Hc) as [σ Hlo]. unfold BLK_SIZE in *.
  pose proof (slice_ok (Z.to_nat pos) (Z.to_nat (len be)) ub ltac:(lia)) as Hslice.
  set (data := take _ _) in Hslice. pose proof (slice_length _ _ _ _ Hslice) as Hdl.
  pose proof (splice_ok (Z.to_nat (offset be)) data blk ltac:(lia)) as Hsplice. set (blk' := take _ _ ++ _) in Hsplice.
  assert (Hup : u ≠ page e) by (by intros ->).
  set (s1 := set_bufs (<[b := pinned e]> (bufs s)) s).
  assert (E1 : buf_pin io_thread b s = Done tt s1) by (apply pin_ok; [done|by eapply lock_free]).
  assert (Eb1 : bufs s1 !! b = Some (pinned e)) by (simpl; by rewrite lookup_insert_eq).
  set (be1 := set_b_page (page e) be).
  set (sb := set_biom (BioMem (bio_kmem_cache (biom s)) (<[bi := be1]> (bios (biom s)))) s1).
  assert (Emod : bio_mod bi (set_b_page (page (pinned e))) s1 = Done tt sb) by (apply (bio_mod_ok bi (set_b_page (page (pinned e))) be s1); exact Hbi).
  assert (Ebe : bio_at bi sb = Done be1 sb) by (apply bio_at_ok; cbn; apply lookup_insert_eq).
  assert (Hfill : ∃ s2 pg2, (if negb ((offset be1 =? 0) && (len be1 =? BLK_SIZE)) && buf_is_new (pinned e) then
       do_ll_rw (b_blockno be1) (b_page be1) DEV_READ else mret tt) sb = Done tt s2 ∧
     nodes s2 = nodes s ∧ ht s2 = ht s ∧ bufs s2 = bufs s1 ∧ rqs s2 = rqs s ∧ qsem s2 = qsem s ∧ kmc s2 = kmc s ∧
     blk_locks s2 = blk_locks s ∧ pagea s2 = pagea s ∧ buf_kmem_cache s2 = buf_kmem_cache s ∧
     biom s2 = biom sb ∧ objs s2 !! page e = Some pg2 ∧ splice (Z.to_nat (offset be)) data pg2 = Some blk' ∧
     (∀ w, w ≠ page e → objs s2 !! w = objs s !! w) ∧ ∀ n, disk_at (disk s2) n = disk_at (disk s) n).
  { change (buf_is_new (pinned e)) with (buf_is_new e). change (offset be1) with (offset be).
    change (len be1) with (len be). rewrite Hview in Hpd.
    destruct ((offset be =? 0) && (len be =? BLK_SIZE)) eqn:Hfull; simpl.
    - apply andb_true_iff in Hfull as [Ho Hl]. zbool. unfold BLK_SIZE in Hl.
      exists sb, pg. split_and!; try done. rewrite Ho in *. rewrite <-Hsplice. apply splice_full; lia.
    - destruct (buf_is_new e) eqn:Hnew.
      + symmetry in Hpd. destruct (ll_read_ok (disk s) (blockno e) blk pg Hpd Hpl) as (d' & Ell & Hd').
        eexists _, blk. split.
        * cbn [b_blockno b_page set_b_page be1]. rewrite Hbno. apply (do_ll_rw_ok _ _ _ pg blk d'); done.
        * split_and!; try done; cbn.
          -- by rewrite lookup_insert_eq.
          -- intros w Hw. by rewrite lookup_insert_ne.
      + exists sb, pg. injection Hpd as ->. split_and!; done. }
  destruct Hfill as (s2 & pg2 & E2 & N2 & T2 & B2 & R2 & Q2 & K2 & L2 & P2 & C2 & BB2 & O2 & SP2 & OO2 & D2).
  assert (Ecp : obj_copy (page e, offset be) (u, pos) (len be) s2 = Done tt (set_objs (<[page e := blk']> (objs s2)) s2)).
  { apply (obj_copy_ok (page e, offset be) (u, pos) _ _ ub data pg2 blk'); simpl; try done. by rewrite OO2. }
  set (s3 := set_objs (<[page e := blk']> (objs s2)) s2) in *.
  assert (Eb3 : bufs s3 !! b = Some (pinned e)) by (cbn; by rewrite B2).
  assert (Hd3 : dom (bufs s3) = dom (bufs s)).
  { cbn. rewrite B2. cbn. rewrite dom_insert_L. apply elem_of_dom_2 in Eb. clear -Eb. set_solver. }
  destruct (release_ok true s3 b (pinned e) Eb3 eq_refl) as (h & s' & Erel & Es' & Hs').
  { cbn. by rewrite L2. }
  { eapply (dirty_lists _ _ s); done. }
  exists data, blk', s'. split; [done|]. split; [done|]. split; [|split; [|split]].
  - rewrite (bind_Done _ _ _ _ _ E1). unfold io_write. rewrite (bind_Done _ _ _ _ _ (buf_at_ok _ _ _ Eb1)).
    rewrite (bind_Done _ _ _ _ _ Emod), (bind_Done _ _ _ _ _ Ebe), (bind_Done _ _ _ _ _ E2).
    erewrite bind_Done; [|apply rq_at_ok; rewrite R2; exact Hrq].
    erewrite bind_Done; [|apply buf_at_ok; rewrite B2; exact Eb1].
    rewrite Hva. cbn [offset len set_b_page be1 page pinned set_lock]. rewrite (bind_Done _ _ _ _ _ Ecp). exact Erel.
  - eapply (cache_release rql N view _ s s3 s' true b e (pinned e) blk' h); try done.
    + cbn. by rewrite lookup_insert_eq.
    + pose proof (splice_length _ _ _ _ Hsplice). unfold BLK_SIZE. lia.
    + intros w Hw Hwe. cbn. rewrite lookup_insert_ne by done. by apply OO2.
    + intros n Hn. by rewrite lookup_insert_ne.
    + by rewrite lookup_insert_eq.
  - rewrite Es'. split; cbn; try done.
    + by rewrite BB2.
    + exists (page e). by rewrite BB2.
    + intros w Hw Hwu. rewrite lookup_insert_ne by (by intros <-). apply OO2. by intros ->.
    + eexists. split; [rewrite B2; cbn; by rewrite insert_insert_eq|]. by destruct (released_bits true (pinned e)) as (_ & _ & ?).
  - rewrite Es'. cbn. rewrite lookup_insert_ne by done. by rewrite OO2.
Qed.

(** ** The bio loop *)

(** What one piece does to the logical device and to the caller's buffer. *)
Inductive io_effect (rw : Z) (view : gmap Z (list Z)) (ub : list Z) (pos : Z) :
    piece → gmap Z (list Z) → list Z → Prop :=
| effect_read b o n blk data ub' : rw = DEV_READ → view !! b = Some blk →
    slice (Z.to_nat o) (Z.to_nat n) blk = Some data → splice (Z.to_nat pos) data ub = Some ub' →
    io_effect rw view ub pos (b, o, n) view ub'
| effect_write b o n blk data blk' : rw = DEV_WRITE → view !! b = Some blk →
    slice (Z.to_nat pos) (Z.to_nat n) ub = Some data → splice (Z.to_nat o) data blk = Some blk' →
    io_effect rw view ub pos (b, o, n) (<[b := blk']> view) ub.

Inductive io_effects (rw : Z) : gmap Z (list Z) → list Z → Z → list piece → gmap Z (list Z) → list Z → Prop :=
| effects_nil view ub pos : io_effects rw view ub pos [] view ub
| effects_cons view ub pos b o n ps view1 ub1 view2 ub2 :
    io_effect rw view ub pos (b, o, n) view1 ub1 → io_effects rw view1 ub1 (pos + n) ps view2 ub2 →
    io_effects rw view ub pos ((b, o, n) :: ps) view2 ub2.

Lemma view_block pins rql N view s n :
  cache_ok pins rql N view s → 0 <= n < N → ∃ blk, view !! n = Some blk ∧ Z.of_nat (length blk) = BLK_SIZE.
Proof.
  intros Hc Hn. destruct (ca_disk _ _ _ _ _ Hc n Hn) as [dk Hdk].
  destruct (decide (map_Exists (λ _ e, blockno e = n) (bufs s))) as [(b & e & Eb & Hb)|Hno].
  - destruct (bo_data _ _ _ _ _ _ _ (ca_bufs _ _ _ _ _ Hc b e Eb)) as (pg & _ & Hl & Hv). rewrite Hb in Hv.
    destruct (buf_is_new e); [|by exists pg]. exists dk. split; [by rewrite Hv|by eapply disk_at_length].
  - exists dk. split; [|by eapply disk_at_length]. rewrite (ca_uncached _ _ _ _ _ Hc n Hn); [done|].
    intros b e Eb Hb. apply Hno. by exists b, e.
Qed.

Record same_thread s s' (u : Z) : Prop := {
  st_qsem : qsem s' = qsem s;
  st_kmc : kmc s' = kmc s;
  st_locks : blk_locks s' = blk_locks s;
  st_objs : ∀ w, ¬ phys_page w → w ≠ u → objs s' !! w = objs s !! w;
}.
Lemma same_thread_trans s1 s2 s3 u : same_thread s1 s2 u → same_thread s2 s3 u → same_thread s1 s3 u.
Proof.
  intros [E1 E2 E3 E4] [F1 F2 F3 F4]. split; [congruence..|]. intros w H1' H2'. by rewrite F4, E4.
Qed.

Definition advance (n : Z) (q : request) : request :=
  Rq (rq_flags q) (rq_bio q) (rq_lock q) ((vaddr q).1, (vaddr q).2 + n).

(** No buffer is left marked new. *)
Definition no_new s : Prop := ∀ b e, bufs s !! b = Some e → buf_is_new e = false.

(** One turn of the loop. *)
Lemma bio_step_ok rw fuel rql N view s r q bi be u pos ub X :
  cache_ok ∅ rql N view s → bhash_lock ∉ blk_locks s → rqs s !! r = Some q → rq_flags q = rw →
  rw = DEV_READ ∨ rw = DEV_WRITE → vaddr q = (u, pos) → ¬ phys_page u → objs s !! u = Some ub → 0 <= pos →
  bi ≠ 0 → bios (biom s) !! bi = Some be → bio_ok (biom s) X → 0 <= b_blockno be < N → 0 <= offset be → 0 < len be →
  offset be + len be <= BLK_SIZE → pos + len be <= Z.of_nat (length ub) →
  ∃ view' ub' s', bio_loop (S fuel) r bi s = bio_loop fuel r (b_next be) s' ∧
    io_effect rw view ub pos (b_blockno be, offset be, len be) view' ub' ∧
    cache_ok ∅ rql N view' s' ∧ rqs s' = <[r := advance (len be) q]> (rqs s) ∧
    objs s' !! u = Some ub' ∧ bio_ok (biom s') ({[bi]} ∪ X) ∧
    bios (biom s') = delete bi (bios (biom s)) ∧ same_thread s s' u ∧ (no_new s → no_new s').
Proof.
  intros Hc Hlk Hrq Hfl Hrw Hva Hu Hub Hpos Hbi0 Hbi Hbok Hbno Hoff Hlen Hin Hroom.
  destruct (buf_get_ok ∅ rql N view s (b_blockno be) Hc ltac:(set_solver) Hlk Hbno)
    as (b & e & s1 & Eg & Hc1 & Eb & Ebn & Hr1 & Hd1 & _ & Hoth1).
  destruct (view_block _ _ _ _ _ _ Hc1 Hbno) as (blk & Hblk & Hbl).
  assert (Hpre : io_pre rql N view s1 b e r q bi be u pos ub blk).
  { split; try done; rewrite ?(sr_rqs _ _ Hr1), ?(sr_biom _ _ Hr1), ?(sr_locks _ _ Hr1); try done.
    - by rewrite (sr_objs _ _ Hr1).
    - by rewrite Ebn. }
  assert (Hcase : ∃ view' ub' s2,
    (buf_pin io_thread b;; q ← rq_at r; if rq_flags q =? DEV_READ then io_read r bi b
       else if rq_flags q =? DEV_WRITE then io_write r bi b else mret tt) s1 = Done tt s2 ∧
    io_effect rw view ub pos (b_blockno be, offset be, len be) view' ub' ∧
    cache_ok ∅ rql N view' s2 ∧ io_post s1 s2 b bi be u ∧ objs s2 !! u = Some ub').
  { assert (Hsplit : ∀ k s2, (buf_pin io_thread b;; k) s1 = Done tt s2 →
      (if rq_flags q =? DEV_READ then io_read r bi b
       else if rq_flags q =? DEV_WRITE then io_write r bi b else mret tt) = k →
      (buf_pin io_thread b;; q ← rq_at r; if rq_flags q =? DEV_READ then io_read r bi b
       else if rq_flags q =? DEV_WRITE then io_write r bi b else mret tt) s1 = Done tt s2).
    { intros k s2 Ek <-. pose proof (pin_ok io_thread _ _ _ Eb (lock_free _ _ _ _ _ _ Hc1 Eb)) as Ep.
      rewrite (bind_Done _ _ _ _ _ Ep) in Ek. rewrite (bind_Done _ _ _ _ _ Ep).
      erewrite bind_Done; [exact Ek|]. apply rq_at_ok. cbn. by rewrite (sr_rqs _ _ Hr1). }
    destruct Hrw as [->| ->].
    - destruct (io_read_ok _ _ _ _ _ _ _ _ _ _ _ _ _ _ Hpre) as (data & ub' & s2 & H1' & H2' & H3' & H4' & H5' & H6').
      exists view, ub', s2. split; [apply (Hsplit _ _ H3'); by rewrite Hfl|]. split_and!; [|done..].
      eapply effect_read; eauto.
    - destruct (io_write_ok _ _ _ _ _ _ _ _ _ _ _ _ _ _ Hpre) as (data & blk' & s2 & H1' & H2' & H3' & H4' & H5' & H6').
      exists (<[b_blockno be := blk']> view), ub, s2. rewrite Ebn in H4'.
      split; [apply (Hsplit _ _ H3'); by rewrite Hfl|]. split_and!; [|done..].
      eapply effect_write; eauto. }
  destruct Hcase as (view' & ub' & s2 & Eio & Heff & Hc2 & [P1 P2 P3 P4 P5 [pg P6] P7 (e' & P8 & P9)] & Hub2).
  set (s3 := set_rqs (<[r := advance (len be) q]> (rqs s2)) s2).
  assert (Hrq2 : rqs s2 !! r = Some q) by by rewrite P1, (sr_rqs _ _ Hr1).
  assert (Hbi2 : bios (biom s2) !! bi = Some (set_b_page pg be)) by (rewrite P6; by rewrite lookup_insert_eq).
  assert (Hbm : bios (biom s2) = <[bi := set_b_page pg be]> (bios (biom s))) by by rewrite P6, (sr_biom _ _ Hr1).
  assert (Hbok3 : bio_ok (biom s3) X).
  { unfold bio_ok in *. cbn. rewrite P5, Hbm, (sr_biom _ _ Hr1), dom_insert_L.
    replace ({[bi]} ∪ dom (bios (biom s))) with (dom (bios (biom s))); [done|].
    apply elem_of_dom_2 in Hbi. clear -Hbi. set_solver. }
  destruct (bio_del_ok (biom s3) X bi Hbok3) as (bm & Edel & Hbok4 & Hbm4); [by eexists|].
  set (s4 := set_biom bm s3). exists view', ub', s4.
  split; [|split_and!].
  - cbn [bio_loop]. destruct (Z.eqb_spec bi 0) as [?|_]; [done|].
    rewrite (bind_Done _ _ _ _ _ (bio_at_ok _ _ _ Hbi)). destruct (Z.eqb_spec (len be) 0) as [?|_]; [lia|].
    rewrite (bind_Done _ _ _ _ _ Eg).
    apply bind_inv in Eio as ([] & sp & Epin & Eio). rewrite (bind_Done _ _ _ _ _ Epin).
    apply bind_inv in Eio as (q' & sq & Eq & Eio). rewrite (bind_Done _ _ _ _ _ Eq).
    rewrite (bind_Done _ _ _ _ _ Eio), (bind_Done _ _ _ _ _ (bio_at_ok _ _ _ Hbi2)).
    erewrite bind_Done; [|apply rq_mod_ok; exact Hrq2].
    assert (Ed : in_bio (bio_del bi) s3 = Done tt s4) by (unfold in_bio, zoom; by rewrite Edel).
    erewrite bind_Done; [|exact Ed]. reflexivity.
  - done.
  - eapply cache_ok_ext; [|exact Hc2]. by split.
  - cbn. by rewrite P1, (sr_rqs _ _ Hr1).
  - done.
  - done.
  - cbn. rewrite Hbm4. cbn. rewrite Hbm, delete_insert_eq. done.
  - split; cbn.
    + by rewrite P2, (sr_qsem _ _ Hr1).
    + by rewrite P3, (sr_kmc _ _ Hr1).
    + by rewrite P4, (sr_locks _ _ Hr1).
    + intros w Hw Hwu. by rewrite P7, (sr_objs _ _ Hr1).
  - intros Hnn c x. cbn. rewrite P8. intros [[<- <-]|[Hne Ec]]%lookup_insert_Some; [done|].
    apply Hoth1 in Ec; [|done]. by eapply Hnn.
Qed.

Lemma effect_length rw view ub pos p view' ub' : io_effect rw view ub pos p view' ub' → length ub' = length ub.
Proof. intros []; [by eapply splice_length|done]. Qed.

Lemma advance_advance m n q : advance n (advance m q) = advance (m + n) q.
Proof. unfold advance. simpl. do 2 f_equal. lia. Qed.
Lemma advance_0 q : advance 0 q = q.
Proof. unfold advance. rewrite Z.add_0_r. destruct q as [? ? ? []]. done. Qed.

Lemma bio_loop_ok rw fuel rql N view s r q bi u pos ub X ids ps start total :
  cache_ok ∅ rql N view s → bhash_lock ∉ blk_locks s → rqs s !! r = Some q → rq_flags q = rw →
  rw = DEV_READ ∨ rw = DEV_WRITE → vaddr q = (u, pos) → ¬ phys_page u → objs s !! u = Some ub → 0 <= pos →
  bio_chain (bios (biom s)) bi ids ps → NoDup ids → bio_ok (biom s) X → covers ps start total →
  start + total <= N * BLK_SIZE → pos + total <= Z.of_nat (length ub) → (length ids <= fuel)%nat →
  ∃ view' ub' s', bio_loop fuel r bi s = Done tt s' ∧ io_effects rw view ub pos ps view' ub' ∧
    cache_ok ∅ rql N view' s' ∧ rqs s' = <[r := advance total q]> (rqs s) ∧ objs s' !! u = Some ub' ∧
    bio_ok (biom s') (list_to_set ids ∪ X) ∧
    (∀ y, bios (biom s') !! y = if decide (y ∈ ids) then None else bios (biom s) !! y) ∧ same_thread s s' u ∧
    (no_new s → no_new s').
Proof.
  revert fuel view s q bi pos ub X ps start total. induction ids as [|x ids IH];
    intros fuel view s q bi pos ub X ps start total Hc Hlk Hrq Hfl Hrw Hva Hu Hub Hpos Hch Hnd Hbok Hcov Hdisk Hroom Hf.
  - destruct ps; [|done]. simpl in Hch, Hcov. subst. exists view, ub, s. split_and!; try done.
    + destruct fuel; done.
    + constructor.
    + rewrite advance_0. symmetry. by apply insert_id.
    + simpl. by rewrite union_empty_l_L.
  - destruct ps as [|[[b o] n] ps]; [done|]. destruct fuel as [|fuel]; [simpl in Hf; lia|].
    destruct Hch as (-> & Hx0 & be & Ebe & <- & <- & <- & Hch). destruct Hcov as (C1 & C2 & C3 & C4 & C5 & Hcov).
    apply NoDup_cons in Hnd as [Hx Hnd].
    pose proof (covers_nonneg _ _ _ Hcov) as Htot.
    assert (Hb : 0 <= b_blockno be < N) by (unfold BLK_SIZE in *; lia).
    destruct (bio_step_ok rw fuel rql N view s r q x be u pos ub X) as
      (view1 & ub1 & s1 & E1 & Heff & Hc1 & Hrq1 & Hub1 & Hbok1 & Hbm1 & Ht1 & Hnn1); try done; [lia|].
    pose proof (effect_length _ _ _ _ _ _ _ Heff) as Hl1.
    destruct (IH fuel view1 s1 (advance (len be) q) (b_next be) (pos + len be) ub1 ({[x]} ∪ X) ps (start + len be) (total - len be))
      as (view2 & ub2 & s2 & E2 & Heff2 & Hc2 & Hrq2 & Hub2 & Hbok2 & Hbm2 & Ht2 & Hnn2).
    + done.
    + by rewrite (st_locks _ _ _ Ht1).
    + rewrite Hrq1. by rewrite lookup_insert_eq.
    + done.
    + done.
    + unfold advance. rewrite Hva. done.
    + done.
    + done.
    + lia.
    + eapply bio_chain_frame; [|exact Hch]. intros y Hy. rewrite Hbm1. apply lookup_delete_ne. by intros ->.
    + done.
    + done.
    + done.
    + lia.
    + rewrite Hl1. lia.
    + simpl in Hf. lia.
    + exists view2, ub2, s2. split_and!; try done.
      * by rewrite E1.
      * by econstructor.
      * rewrite Hrq2, Hrq1, insert_insert_eq, advance_advance. do 2 f_equal. lia.
      * replace (list_to_set (x :: ids) ∪ X) with (list_to_set ids ∪ ({[x]} ∪ X)); [done|].
        clear. set_solver.
      * intros y. rewrite Hbm2, Hbm1. destruct (decide (y ∈ ids)) as [Hy|Hy].
        -- rewrite decide_True; [done|by right].
        -- destruct (decide (y = x)) as [->|Hne].
           ++ rewrite lookup_delete_eq, decide_True; [done|by left].
           ++ rewrite lookup_delete_ne, decide_False; [done| |done]. clear -Hy Hne. set_solver.
      * by eapply same_thread_trans.
      * intros. by apply Hnn2, Hnn1.
Qed.
End blk.

(** ** Bytes *)

(** The byte at absolute address [a] of the device. *)
Definition byte_at (view : gmap Z (list Z)) (a : Z) : option Z :=
  l ← view !! (a / BLK_SIZE); l !! Z.to_nat (a mod BLK_SIZE).

Lemma byte_at_block view b i : 0 <= i < BLK_SIZE → byte_at view (b * BLK_SIZE + i) = l ← view !! b; l !! Z.to_nat i.
Proof.
  intros Hi. unfold byte_at, BLK_SIZE in *.
  replace ((b * 4096 + i) / 4096) with b by (apply Z.div_unique with i; lia).
  replace ((b * 4096 + i) mod 4096) with i by (apply Z.mod_unique with b; lia). done.
Qed.

Lemma effect_read_bytes view ub pos b o n view' ub' :
  io_effect DEV_READ view ub pos (b, o, n) view' ub' → 0 <= o → 0 < n → o + n <= BLK_SIZE → 0 <= pos →
  view' = view ∧ ∀ i : nat, ub' !! i =
    if decide (pos <= Z.of_nat i < pos + n) then byte_at view (b * BLK_SIZE + o + (Z.of_nat i - pos)) else ub !! i.
Proof.
  intros Heff Ho Hn Hin Hpos. inversion Heff as [? ? ? blk data ? _ Hv Hsl Hsp|]; subst; [|done].
  split; [done|]. intros i. pose proof (slice_length _ _ _ _ Hsl) as Hdl.
  rewrite (splice_lookup _ _ _ _ i Hsp), Hdl.
  destruct (decide (pos <= Z.of_nat i < pos + n)) as [Hi|Hi].
  - rewrite decide_True by lia. rewrite (slice_lookup _ _ _ _ _ Hsl) by lia.
    replace (b * BLK_SIZE + o + (Z.of_nat i - pos)) with (b * BLK_SIZE + (o + (Z.of_nat i - pos))) by lia.
    rewrite byte_at_block by lia. rewrite Hv. simpl. f_equal. lia.
  - rewrite decide_False by lia. done.
Qed.

Lemma effect_write_bytes view ub pos b o n view' ub' :
  io_effect DEV_WRITE view ub pos (b, o, n) view' ub' → 0 <= o → 0 < n → o + n <= BLK_SIZE → 0 <= pos →
  (∀ blk, view !! b = Some blk → Z.of_nat (length blk) = BLK_SIZE) →
  ub' = ub ∧ (∀ a, byte_at view' a =
    if decide (b * BLK_SIZE + o <= a < b * BLK_SIZE + o + n) then ub !! Z.to_nat (pos + (a - (b * BLK_SIZE + o)))
    else byte_at view a).
Proof.
  intros Heff Ho Hn Hin Hpos Hbl. inversion Heff as [|? ? ? blk data blk' _ Hv Hsl Hsp]; subst; [done|].
  split; [done|]. intros a. pose proof (slice_length _ _ _ _ Hsl) as Hdl. unfold byte_at.
  pose proof (Z.div_mod a BLK_SIZE ltac:(done)) as Hdm. pose proof (Z.mod_pos_bound a BLK_SIZE ltac:(done)) as Hmb.
  set (q := a / BLK_SIZE) in *. set (m := a mod BLK_SIZE) in *. unfold BLK_SIZE in *.
  destruct (decide (q = b)) as [->|Hq].
  - rewrite lookup_insert_eq, Hv. simpl. rewrite (splice_lookup _ _ _ _ _ Hsp), Hdl.
    destruct (decide (b * 4096 + o <= a < b * 4096 + o + n)).
    + rewrite decide_True by lia. rewrite (slice_lookup _ _ _ _ _ Hsl) by lia. f_equal. lia.
    + by rewrite decide_False by lia.
  - rewrite lookup_insert_ne by done. rewrite decide_False by lia. done.
Qed.

Lemma effects_read_bytes view ub pos ps view' ub' start total :
  io_effects DEV_READ view ub pos ps view' ub' → covers ps start total → 0 <= pos →
  view' = view ∧ length ub' = length ub ∧ ∀ i : nat, ub' !! i =
    if decide (pos <= Z.of_nat i < pos + total) then byte_at view (start + (Z.of_nat i - pos)) else ub !! i.
Proof.
  intros Heff. revert start total. induction Heff as [|view ub pos b o n ps view1 ub1 view2 ub2 Heff1 Heff IH];
    intros start total Hcov Hpos; simpl in Hcov.
  - subst. split_and!; [done..|]. intros i. by rewrite decide_False by lia.
  - destruct Hcov as (C1 & C2 & C3 & C4 & C5 & Hcov).
    pose proof (covers_nonneg _ _ _ Hcov) as Htot.
    destruct (effect_read_bytes _ _ _ _ _ _ _ _ Heff1) as [-> Hb1]; [lia..|].
    destruct (IH (start + n) (total - n)) as (-> & Hl & Hb2); [done|lia|].
    split_and!; [done|by rewrite Hl; eapply effect_length|]. intros i. rewrite Hb2, Hb1.
    destruct (decide (pos <= Z.of_nat i < pos + n)).
    + rewrite decide_False, decide_True by lia. f_equal. lia.
    + destruct (decide (pos + n <= Z.of_nat i < pos + n + (total - n))).
      * rewrite decide_True by lia. f_equal. lia.
      * by rewrite decide_False by lia.
Qed.

Definition whole_blocks (view : gmap Z (list Z)) : Prop :=
  ∀ b blk, view !! b = Some blk → Z.of_nat (length blk) = BLK_SIZE.

Lemma effect_whole rw view ub pos p view' ub' :
  io_effect rw view ub pos p view' ub' → whole_blocks view → whole_blocks view'.
Proof.
  intros [] Hw; [done|]. intros b' blk0 [[<- <-]|[_ E]]%lookup_insert_Some; [|by eapply Hw].
  erewrite splice_length by done. by eapply Hw.
Qed.

Lemma effects_write_bytes view ub pos ps view' ub' start total :
  io_effects DEV_WRITE view ub pos ps view' ub' → covers ps start total → 0 <= pos → whole_blocks view →
  ub' = ub ∧ ∀ a, byte_at view' a =
    if decide (start <= a < start + total) then ub !! Z.to_nat (pos + (a - start)) else byte_at view a.
Proof.
  intros Heff. revert start total. induction Heff as [|view ub pos b o n ps view1 ub1 view2 ub2 Heff1 Heff IH];
    intros start total Hcov Hpos Hw; simpl in Hcov.
  - subst. split; [done|]. intros a. by rewrite decide_False by lia.
  - destruct Hcov as (C1 & C2 & C3 & C4 & C5 & Hcov).
    pose proof (covers_nonneg _ _ _ Hcov) as Htot.
    destruct (effect_write_bytes _ _ _ _ _ _ _ _ Heff1) as [-> Hb1]; [lia..|by apply Hw|].
    destruct (IH (start + n) (total - n)) as (-> & Hb2); [done|lia|by eapply effect_whole|].
    split; [done|]. intros a. rewrite Hb2, Hb1, C5.
    destruct (decide (start <= a < start + n)).
    + rewrite decide_False, decide_True by lia. done.
    + destruct (decide (start + n <= a < start + n + (total - n))).
      * rewrite decide_True by lia. f_equal. lia.
      * by rewrite decide_False by lia.
Qed.

(** * Requests *)
Section requests.
Context {P C D : Type} `{PageAllocLaws P} `{ObjCacheLaws C} `{LLDiskLaws D}.
Local Notation "'gd'" := (gendisk P C D).
Implicit Types (s : gd).
Variables io_thread flush_thread caller : Z.

(** The device between calls: its logical content is [view], [N] blocks; a
    request may span up to [K] blocks. *)
Record dev_ok (N K : Z) (view : gmap Z (list Z)) s : Prop := {
  dv_cache : cache_ok ∅ [] N view s;
  dv_new : no_new s;
  dv_rqs : rqs s = ∅;
  dv_qsem : qsem s = sem_init 0;
  dv_bios : ∃ X, bio_ok (biom s) X ∧ bios (biom s) = ∅ ∧ K <= Z.of_nat (size X);
  dv_kmc : ∃ X L, obj_rep (kmc s) X L ∧ X ≠ ∅;
  dv_bhash : bhash_lock ∉ blk_locks s;
  dv_queue : rq_queue_lock ∉ blk_locks s;
}.

(** The request queue changes, the cache does not. *)
Lemma cache_rq rql rql' N view σ s s' :
  cache_ok ∅ rql N view s → lists_ok rql σ s → fam (nodes s') (<[RqHead := RqNode <$> rql']> σ) →
  (∀ l, l ≠ RqHead → (∀ r, l ≠ RqNode r) → nodes s' !! l = nodes s !! l) →
  ht s' = ht s → bufs s' = bufs s → buf_kmem_cache s' = buf_kmem_cache s → pagea s' = pagea s →
  disk s' = disk s → (∀ u, phys_page u → objs s' !! u = objs s !! u) →
  cache_ok ∅ rql' N view s' ∧ lists_ok rql' (<[RqHead := RqNode <$> rql']> σ) s'.
Proof.
  intros Hc Hlo Hf Hn E1 E2 E3 E4 E5 E6.
  assert (Hh : ∀ hd, hd ∈ Hash.heads (ht s) → <[RqHead := RqNode <$> rql']> σ !! hd = σ !! hd).
  { intros hd Hin. apply (heads_neq _ _ (lo_heads _ _ _ Hlo)) in Hin as (? & _). by rewrite lookup_insert_ne. }
  assert (Hlo' : lists_ok rql' (<[RqHead := RqNode <$> rql']> σ) s').
  { split; rewrite ?E1, ?E2.
    - eapply Hash.hash_ok_frame; [apply Hlo|done|done|]. intros x k. by rewrite (keyof_ext s s').
    - apply Hlo.
    - by rewrite lookup_insert_eq.
    - rewrite lookup_insert_ne by done. apply Hlo.
    - rewrite lookup_insert_ne by done. apply Hlo.
    - intros hd xs [[<- _]|[_ E]]%lookup_insert_Some; [by left|by eapply (lo_dom _ _ _ Hlo)].
    - intros b e Eb. rewrite (Hash.chain_of_frame _ _ _ _ Hh). by apply (lo_linked _ _ _ Hlo).
    - intros l Hl. rewrite Hn; [by apply Hlo| |]; by destruct l.
    - intros b Hb. rewrite Hn by done. by apply (lo_nodes _ _ _ Hlo). }
  split; [|done].
  destruct Hc as [_ Hbo Hinj Hun Hdk Hvw HN Hst]. split; rewrite ?E2, ?E5; try done.
  - by eexists.
  - intros b e Eb. destruct (Hbo b e Eb) as [B1 B2 B3 (pg & B4)]. split; [done..|]. exists pg. by rewrite E6.
  - unfold stocked. by rewrite E2, E3, E4.
Qed.

(** [make_request] queues one request for the byte range. *)
Lemma make_request_ok N K view s bno off len u pos rw :
  dev_ok N K view s → is_u32 bno → is_u32 off → 0 <= len < 2 ^ 32 - BLK_SIZE →
  bno * BLK_SIZE + off + len <= N * BLK_SIZE → blocks_of off len <= K →
  ∃ r bi X XK LK ids ps s', make_request bno off len (u, pos) rw s = Done r s' ∧
    bio_ok (biom s) X ∧ K <= Z.of_nat (size X) ∧ list_to_set ids ⊆ X ∧ NoDup ids ∧
    bio_chain (bios (biom s')) bi ids ps ∧ covers ps (bno * BLK_SIZE + off) len ∧
    bio_ok (biom s') (X ∖ list_to_set ids) ∧ dom (bios (biom s')) = list_to_set ids ∧
    cache_ok ∅ [r] N view s' ∧ rqs s' = {[r := Rq rw bi Mutex.mutex_init_zero (u, pos)]} ∧
    obj_rep (kmc s) XK LK ∧ r ∈ XK ∧ obj_rep (kmc s') (XK ∖ {[r]}) ({[r]} ∪ LK) ∧
    qsem s' = sem_init 0 ∧ blk_locks s' = blk_locks s ∧ (∀ w, objs s' !! w = objs s !! w) ∧ no_new s'.
Proof.
  intros [Hc Hnn Hrqs Hq (X & HX & HXe & HXK) (XK & LK & Hk & Hkne) Hl1 Hl2] Hbno Hoff Hlen Hend Hspan.
  unfold is_u32, BLK_SIZE in *. destruct (ca_lists _ _ _ _ _ Hc) as [σ Hlo].
  destruct (obj_alloc_ok _ _ _ Hk Hkne) as (r & c' & Ea & Hr & Hk').
  pose proof (obj_rep_nonnull _ _ _ _ Hk Hr) as Hr0.
  set (h1 := INIT_LIST_HEAD (RqNode r) (nodes s)).
  set (s1 := set_nodes h1 (set_rqs {[r := Rq REQUEST_NONE 0 Mutex.mutex_init_zero (0, 0)]} (set_kmc c' s))).
  assert (E1 : request_alloc s = Done r s1).
  { unfold request_alloc, zoom, mbind, M_bind. rewrite Ea. destruct (Z.eqb_spec r 0) as [?|_]; [done|].
    unfold modify. cbn. by rewrite Hrqs. }
  pose proof (ca_N _ _ _ _ _ Hc) as HN.
  destruct (bio_list_make_ok (biom s) X bno off len HX) as (bi & bm & ids & ps & Em & Hm & Hlp & Hcov);
    [done|done|lia|unfold BLK_SIZE; lia| |lia|].
  { pose proof (Z.mod_pos_bound off BLK_SIZE ltac:(done)). unfold BLK_SIZE in *. lia. }
  destruct Hm as (Hch & Hnd & Hsub & Hbok & Hdom & Hfr).
  assert (Hf1 : fam h1 σ).
  { eapply fam_agree; [apply (Hash.ok_fam _ _ _ _ (lo_hash _ _ _ Hlo))|]. intros q Hin.
    unfold h1, INIT_LIST_HEAD. rewrite lookup_insert_ne; [done|]. intros <-.
    apply (in_fam_loc _ _ _ _ Hlo) in Hin. by apply elem_of_nil in Hin. }
  destruct (fam_add_tail (RqNode r) RqHead [] h1 σ Hf1) as (h2 & Eadd & Hf2 & _ & [_ Ho2]).
  { by rewrite (lo_rq _ _ _ Hlo). }
  { intros Hin. apply (in_fam_loc _ _ _ _ Hlo) in Hin. by apply elem_of_nil in Hin. }
  { unfold h1, INIT_LIST_HEAD. rewrite lookup_insert_eq. by eexists. }
  set (s5 := set_nodes h2 (set_biom bm (set_rqs {[r := Rq rw bi Mutex.mutex_init_zero (u, pos)]} (set_kmc c' s)))).
  exists r, bi, X, XK, LK, ids, ps, s5.
  destruct (cache_rq [] [r] N view σ s s5 Hc Hlo Hf2) as [Hc5 _]; try done.
  { intros l L1 L2. cbn. rewrite Ho2.
    - unfold h1, INIT_LIST_HEAD. by rewrite lookup_insert_ne by (by intros <-; eapply L2).
    - rewrite !elem_of_cons, elem_of_nil. intros [?|[?|?]]; [by eapply L2|done|done]. }
  split; [|split_and!; try done].
  - unfold make_request. rewrite (bind_Done _ _ _ _ _ E1). destruct (Z.eqb_spec r 0) as [?|_]; [done|].
    erewrite bind_Done; [|apply rq_mod_ok; apply lookup_insert_eq].
    erewrite bind_Done; cycle 1.
    { unfold in_bio, zoom. rewrite u32_small by done. cbn. rewrite Em. reflexivity. }
    erewrite bind_Done; [|apply rq_mod_ok; cbn; apply lookup_insert_eq].
    erewrite bind_Done; [|apply rq_mod_ok; cbn; apply lookup_insert_eq]. cbn.
    erewrite bind_Done; [reflexivity|]. unfold rq_append.
    erewrite bind_Done; [|by apply spin_lock_gd].
    erewrite bind_Done; [|apply node_do_ok; exact Eadd].
    rewrite (spin_unlock_gd _ (blk_locks s)) by done. unfold s5. cbn.
    rewrite !insert_insert_eq, insert_singleton_eq. by destruct s.
  - cbn. rewrite Hdom, HXe, dom_empty_L, union_empty_r_L. done.
Qed.

(** The I/O thread serves the request at the head of the queue. *)
Lemma io_round_ok rw N view s r bi u pos ub X ids ps start total :
  cache_ok ∅ [r] N view s → bhash_lock ∉ blk_locks s → rq_queue_lock ∉ blk_locks s →
  rqs s = {[r := Rq rw bi Mutex.mutex_init_zero (u, pos)]} → qsem s = sem_init 1 →
  rw = DEV_READ ∨ rw = DEV_WRITE → ¬ phys_page u → objs s !! u = Some ub → 0 <= pos →
  bio_chain (bios (biom s)) bi ids ps → NoDup ids → bio_ok (biom s) X → dom (bios (biom s)) = list_to_set ids →
  covers ps start total → start + total <= N * BLK_SIZE → pos + total <= Z.of_nat (length ub) →
  ∃ view' ub' s' va, gen_io_round io_thread s = Done tt s' ∧ io_effects rw view ub pos ps view' ub' ∧
    cache_ok ∅ [] N view' s' ∧ rqs s' = {[r := Rq rw bi (Mutex.Mut 0 (sem_init 1) None) va]} ∧
    objs s' !! u = Some ub' ∧ bio_ok (biom s') (list_to_set ids ∪ X) ∧ bios (biom s') = ∅ ∧
    qsem s' = sem_init 0 ∧ kmc s' = kmc s ∧ blk_locks s' = blk_locks s ∧
    (∀ w, ¬ phys_page w → w ≠ u → objs s' !! w = objs s !! w) ∧ (no_new s → no_new s').
Proof.
  intros Hc Hl1 Hl2 Hrqs Hq Hrw Hu Hub Hpos Hch Hnd Hbok Hdom Hcov Hdisk Hroom.
  destruct (ca_lists _ _ _ _ _ Hc) as [σ Hlo].
  pose proof (Hash.ok_fam _ _ _ _ (lo_hash _ _ _ Hlo)) as Hfam. pose proof (lo_rq _ _ _ Hlo) as Erq.
  destruct (fam_pop RqHead _ (nodes s) σ Hfam Erq) as (h & Epop & Hf & _ & [_ Ho]). simpl in Epop, Hf, Ho.
  set (s2 := set_nodes h (set_qsem (sem_init 0) s)).
  assert (Eget : get_next_rq (set_qsem (sem_init 0) s) = Done (Some r) s2).
  { unfold get_next_rq. erewrite bind_Done; [|by apply spin_lock_gd].
    erewrite bind_Done; cycle 1.
    { unfold node_empty, deref. cbn. destruct Hfam as [Hd _].
      rewrite (list_empty_dll RqHead [RqNode r]) by by apply Hd. reflexivity. }
    rewrite bool_decide_eq_false_2 by done.
    erewrite bind_Done; cycle 1.
    { erewrite bind_Done; [|unfold update_ret; cbn; rewrite Epop; reflexivity]. reflexivity. }
    erewrite bind_Done; [|apply (spin_unlock_gd _ (blk_locks s)); done]. unfold s2. by destruct s. }
  destruct (cache_rq [r] [] N view σ s s2 Hc Hlo Hf) as [Hc2 _]; try done.
  { intros l L1 L2. cbn. apply Ho. rewrite elem_of_cons, elem_of_nil. tauto. }
  assert (Hrq2 : rqs s2 !! r = Some (Rq rw bi Mutex.mutex_init_zero (u, pos))) by (cbn; rewrite Hrqs; apply lookup_singleton_eq).
  assert (Hsz : (length ids <= S (size (bios (biom s2))))%nat).
  { rewrite <-size_dom. cbn. rewrite Hdom, size_list_to_set by done. lia. }
  destruct (bio_loop_ok io_thread rw (S (size (bios (biom s2)))) [] N view s2 r
    (Rq rw bi Mutex.mutex_init_zero (u, pos)) bi u pos ub X ids ps start total)
    as (view' & ub' & s3 & Eloop & Heff & Hc3 & Hrq3 & Hub3 & Hbok3 & Hbm3 & Ht3 & Hnn3); try done.
  set (va := ((u, pos).1, (u, pos).2 + total)).
  set (s4 := set_rqs {[r := Rq rw bi (Mutex.Mut 0 (sem_init 1) None) va]} s3).
  assert (Hrq3' : rqs s3 = {[r := Rq rw bi Mutex.mutex_init_zero va]}).
  { rewrite Hrq3. cbn. rewrite Hrqs. apply insert_singleton_eq. }
  assert (Hrq3l : rqs s3 !! r = Some (Rq rw bi Mutex.mutex_init_zero va)) by (rewrite Hrq3'; apply lookup_singleton_eq).
  exists view', ub', s4, va. split; [|split_and!; try done].
  - unfold gen_io_round. erewrite bind_Done; [|reflexivity]. rewrite Hq. cbn [sem_wait sem_init].
    change (sem_wait io_thread (sem_init 1)) with (sem_init 0, false). cbv beta iota.
    erewrite bind_Done; [|reflexivity]. rewrite (bind_Done _ _ _ _ _ Eget).
    rewrite (bind_Done _ _ _ _ _ (rq_at_ok _ _ _ Hrq2)). erewrite bind_Done; [|reflexivity].
    rewrite (bind_Done _ _ _ _ _ Eloop), (bind_Done _ _ _ _ _ (rq_at_ok _ _ _ Hrq3l)).
    erewrite bind_Done; [|by apply mutex_unlock_ok].
    rewrite (rq_mod_ok _ _ _ _ Hrq3l). rewrite Hrq3', insert_singleton_eq. done.
  - eapply cache_ok_ext; [|exact Hc3]. by split.
  - cbn. apply map_eq. intros y. rewrite Hbm3, lookup_empty. destruct (decide (y ∈ ids)) as [|Hy]; [done|].
    apply not_elem_of_dom. cbn. rewrite Hdom. by rewrite elem_of_list_to_set.
  - cbn. by rewrite (st_qsem _ _ _ Ht3).
  - cbn. by rewrite (st_kmc _ _ _ Ht3).
  - cbn. by rewrite (st_locks _ _ _ Ht3).
  - intros w H1' H2'. cbn. by rewrite (st_objs _ _ _ Ht3).
Qed.

(** A whole request: made, signalled, served, waited for, freed. *)
Lemma gen_rw_ok rw N K view s bno off len u pos ub :
  dev_ok N K view s → rw = DEV_READ ∨ rw = DEV_WRITE →
  is_u32 bno → is_u32 off → 0 <= len < 2 ^ 32 - BLK_SIZE →
  bno * BLK_SIZE + off + len <= N * BLK_SIZE → blocks_of off len <= K →
  ¬ phys_page u → objs s !! u = Some ub → 0 <= pos → pos + len <= Z.of_nat (length ub) →
  ∃ view' ub' s' ps, gen_rw io_thread caller rw bno off len (u, pos) s = Done 0 s' ∧
    covers ps (bno * BLK_SIZE + off) len ∧ io_effects rw view ub pos ps view' ub' ∧
    dev_ok N K view' s' ∧ objs s' !! u = Some ub' ∧ blk_locks s' = blk_locks s ∧
    (∀ w, ¬ phys_page w → w ≠ u → objs s' !! w = objs s !! w).
Proof.
  intros Hdv Hrw Hbno Hoff Hlen Hend Hspan Hu Hub Hpos Hroom.
  destruct (make_request_ok N K view s bno off len u pos rw Hdv Hbno Hoff Hlen Hend Hspan) as
    (r & bi & X & XK & LK & ids & ps & s1 & Emk & HX & HXK & Hsub & Hnd & Hch & Hcov & Hbok & Hdom & Hc1 & Hrq1 &
     Hk & Hr & Hk1 & Hq1 & Hl1 & Ho1 & Hnn1).
  pose proof Hdv as [_ _ _ _ _ _ Hlk1 Hlk2].
  set (s2 := set_qsem (sem_init 1) s1).
  destruct (io_round_ok rw N view s2 r bi u pos ub (X ∖ list_to_set ids) ids ps (bno * BLK_SIZE + off) len)
    as (view' & ub' & s3 & va & Eio & Heff & Hc3 & Hrq3 & Hub3 & Hbok3 & Hbm3 & Hq3 & Hk3 & Hl3 & Ho3 & Hnn3); try done.
  { eapply cache_ok_ext; [|exact Hc1]. by split. }
  { cbn. by rewrite Hl1. } { cbn. by rewrite Hl1. } { cbn. by rewrite Ho1. }
  set (s4 := set_rqs {[r := Rq rw bi (Mutex.Mut 1 (sem_init 0) (Some caller)) va]} s3).
  destruct (obj_free_ok (kmc s4) _ _ r ltac:(cbn; rewrite Hk3; exact Hk1)) as (c' & Efree & Hk5); [set_solver|].
  set (s5 := set_rqs ∅ (set_kmc c' s4)).
  assert (Edel : rq_del r s4 = Done tt s5).
  { unfold rq_del, mbind, M_bind, zoom. rewrite Efree. unfold modify, s5. cbn.
    by rewrite delete_singleton_eq. }
  exists view', ub', s5, ps. split; [|split_and!; try done].
  - unfold gen_rw. rewrite (bind_Done _ _ _ _ _ Emk).
    erewrite bind_Done; cycle 1.
    { unfold signal_io. erewrite bind_Done; [|reflexivity]. rewrite Hq1.
      change (sem_signal (sem_init 0)) with (Some (sem_init 1, @None Z)). reflexivity. }
    erewrite bind_Done; [|reflexivity]. cbn [rqs set_qsem]. rewrite Hrq1, map_size_singleton.
    erewrite bind_Done; cycle 1.
    { cbn [wait_request]. erewrite bind_Done; [|apply rq_at_ok; cbn; rewrite Hrq1; apply lookup_singleton_eq].
      cbn [Mutex.msem rq_lock Mutex.mutex_init_zero]. change (0 <? value (sem_init Mutex.MUTEX_UNLOCK)) with false.
      cbv beta iota. fold s2. rewrite (bind_Done _ _ _ _ _ Eio).
      erewrite bind_Done; [|apply rq_at_ok; rewrite Hrq3; apply lookup_singleton_eq].
      cbn [Mutex.msem rq_lock]. change (0 <? value (sem_init 1)) with true. cbv beta iota.
      erewrite bind_Done; [|by apply mutex_lock_ok].
      rewrite (rq_mod_ok _ _ (Rq rw bi (Mutex.Mut 0 (sem_init 1) None) va)) by (rewrite Hrq3; apply lookup_singleton_eq).
      rewrite Hrq3, insert_singleton_eq. reflexivity. }
    erewrite bind_Done; [|exact Edel]. reflexivity.
  - split; cbn; try done.
    + eapply cache_ok_ext; [|exact Hc3]. by split.
    + by apply Hnn3.
    + exists (list_to_set ids ∪ X ∖ list_to_set ids). split_and!; [done|done|].
      by rewrite <-union_difference_L.
    + exists ({[r]} ∪ XK ∖ {[r]}), (({[r]} ∪ LK) ∖ {[r]}). split; [done|]. set_solver.
    + rewrite Hl3. cbn. by rewrite Hl1.
    + rewrite Hl3. cbn. by rewrite Hl1.
  - cbn. rewrite Hl3. cbn. by rewrite Hl1.
  - intros w H1' H2'. cbn. rewrite Ho3 by done. cbn. by rewrite Ho1.
Qed.

(** * Write-back *)

(** Deleting a node again right after it was popped changes nothing. *)
(** One dirty buffer written back, between two looks at the list. *)
Definition write_back (b : Z) : M gd unit :=
  spin_unlock bhash_lock;;
  buf_pin flush_thread b;;
  e ← buf_at b;
  do_ll_rw (blockno e) (page e) DEV_WRITE;;
  buf_unpin b;;
  spin_lock bhash_lock;;
  buf_mod b (λ e, set_flags (CLEAR_FLAG (flags e) BH_Dirty) e);;
  node_do (list_del (DirtyNode b)).

Definition cleaned (e : buf_head) : buf_head :=
  Buf (CLEAR_FLAG (flags e) BH_Dirty) (blockno e) (Mutex.Mut 0 (sem_init 1) None) (refcnt e) (page e).
Lemma cleaned_bits e :
  active (cleaned e) = active e ∧ visited (cleaned e) = visited e ∧ buf_is_new (cleaned e) = buf_is_new e.
Proof.
  rewrite !buf_is_new_bit. unfold active, visited. cbn [flags cleaned]. change BH_Dirty with (2 ^ 0).
  rewrite !clear_flag_bit by lia. change (0 =? 30) with false. change (0 =? 31) with false.
  change (0 =? 1) with false. cbn [negb]. by rewrite !andb_true_r.
Qed.

Lemma write_back_ok N view s L b e ds h1 :
  cache_ok ∅ [] N view s → no_new s → bhash_lock ∉ L → blk_locks s = {[bhash_lock]} ∪ L →
  dll (nodes s) DirtyHead (DirtyNode b :: ds) → bufs s !! b = Some e →
  list_del (DirtyNode b) (nodes s) = Some h1 → list_del (DirtyNode b) h1 = Some h1 →
  ∃ s', write_back b (set_nodes h1 s) = Done tt s' ∧ cache_ok ∅ [] N view s' ∧ no_new s' ∧
    blk_locks s' = blk_locks s ∧ nodes s' = h1 ∧ bufs s' = <[b := cleaned e]> (bufs s) ∧
    disk_at (disk s') (blockno e) = view !! blockno e ∧
    (∀ n, n ≠ blockno e → disk_at (disk s') n = disk_at (disk s) n) ∧ rqs s' = rqs s ∧ qsem s' = qsem s ∧
    biom s' = biom s ∧ kmc s' = kmc s ∧ (∀ w, objs s' !! w = objs s !! w).
Proof.
  intros Hc Hnn HL Hlk Hd Eb Edel Edel1.
  pose proof (ca_bufs _ _ _ _ _ Hc b e Eb) as Hbo. pose proof (Hnn b e Eb) as Hnew.
  destruct (bo_data _ _ _ _ _ _ _ Hbo) as (pg & Hpg & Hpl & Hpd). rewrite Hnew in Hpd.
  destruct (ca_lists _ _ _ _ _ Hc) as [σ Hlo].
  destruct (ll_write_ok (disk s) (blockno e) pg) as (d' & Ell & Hd1 & Hd2);
    [apply (ca_disk _ _ _ _ _ Hc), Hbo|done|].
  destruct (list_del_dirty (dom (bufs s)) (nodes s) (DirtyNode b)) as (h1' & Edel' & Hstep).
  { intros l Hl. by apply (lo_dirty _ _ _ Hlo). } { by eapply elem_of_dom_2. }
  rewrite Edel in Edel'. injection Edel' as <-.
  set (s' := set_nodes h1 (set_bufs (<[b := cleaned e]> (bufs s)) (set_objs (<[page e := pg]> (objs s)) (set_disk d' s)))).
  assert (Hobjs : ∀ w, objs s' !! w = objs s !! w).
  { intros w. cbn. destruct (decide (w = page e)) as [->|]; [by rewrite lookup_insert_eq|by rewrite lookup_insert_ne]. }
  destruct (cleaned_bits e) as (R1 & R2 & R3).
  exists s'. split; [|split_and!; try done].
  - unfold write_back. erewrite bind_Done; [|apply (spin_unlock_gd _ L); done].
    erewrite bind_Done; [|apply (pin_ok flush_thread _ b e); [exact Eb|by eapply lock_free]].
    erewrite bind_Done; [|apply buf_at_ok; cbn; apply lookup_insert_eq]. cbn [blockno page set_lock].
    erewrite bind_Done; [|apply (do_ll_rw_ok _ _ _ pg pg d'); [exact Hpg|exact Ell]].
    erewrite bind_Done; cycle 1.
    { unfold buf_unpin. erewrite bind_Done; [|apply buf_at_ok; cbn; apply lookup_insert_eq].
      erewrite bind_Done; [|by apply mutex_unlock_ok]. apply buf_mod_ok. cbn. apply lookup_insert_eq. }
    erewrite bind_Done; [|by apply spin_lock_gd].
    erewrite bind_Done; [|apply buf_mod_ok; cbn; apply lookup_insert_eq].
    erewrite node_do_ok; [|exact Edel1]. cbn. rewrite !insert_insert_eq, <-Hlk. unfold s'. by destruct s.
  - eapply (cache_update ∅ ∅ [] N view view s s' b e (cleaned e) pg); [done..|].
    split; simpl; try done.
    + by rewrite lookup_insert_eq.
    + by rewrite R3, Hnew.
    + intros l Hl. by apply Hstep.
    + intros l Hl. by apply Hstep.
  - intros c x. cbn. intros [[<- <-]|[_ Ec]]%lookup_insert_Some; [by rewrite R3|by eapply Hnn].
  - cbn. by rewrite Hd1.
Qed.

Lemma flush_loop_ok fuel N view s L ds n :
  cache_ok ∅ [] N view s → no_new s → bhash_lock ∉ L → blk_locks s = {[bhash_lock]} ∪ L →
  dll (nodes s) DirtyHead (DirtyNode <$> ds) → (∀ b, b ∈ ds → b ∈ dom (bufs s)) → (length ds <= fuel)%nat →
  ∃ s', flush_loop flush_thread fuel n s = Done (n + Z.of_nat (length ds)) s' ∧ cache_ok ∅ [] N view s' ∧
    no_new s' ∧ blk_locks s' = blk_locks s ∧ dll (nodes s') DirtyHead [] ∧
    (∀ c, blockno <$> bufs s' !! c = blockno <$> bufs s !! c) ∧
    (∀ b e, b ∈ ds → bufs s !! b = Some e → disk_at (disk s') (blockno e) = view !! blockno e) ∧
    (∀ m, (∀ b e, b ∈ ds → bufs s !! b = Some e → blockno e ≠ m) → disk_at (disk s') m = disk_at (disk s) m) ∧
    rqs s' = rqs s ∧ qsem s' = qsem s ∧ biom s' = biom s ∧ kmc s' = kmc s ∧ (∀ w, objs s' !! w = objs s !! w).
Proof.
  revert s fuel n. induction ds as [|b ds IH]; intros s fuel n Hc Hnn HL Hlk Hd Hds Hf.
  - exists s. split.
    { destruct fuel; simpl flush_loop; unfold node_empty, mbind, M_bind, deref;
        rewrite (list_empty_dll DirtyHead [] _ Hd); cbn; by rewrite Z.add_0_r. }
    repeat (split; [done|]). split; [by intros b e ?%elem_of_nil|]. by split.
  - destruct fuel as [|fuel]; [simpl in Hf; lia|].
    destruct (pop_then_del _ _ _ _ Hd) as (h1 & Epop & Edel & Hd1 & Edel1).
    assert (Hin : b ∈ dom (bufs s)) by (apply Hds; by left). apply elem_of_dom in Hin as [e Eb].
    destruct (write_back_ok N view s L b e _ h1 Hc Hnn HL Hlk Hd Eb Edel Edel1)
      as (s1 & Ewb & Hc1 & Hnn1 & Hlk1 & En1 & Eb1 & Hdk & Hdk' & R1 & R2 & R3 & R4 & R5).
    assert (Hdom1 : dom (bufs s1) = dom (bufs s)).
    { rewrite Eb1, dom_insert_L. apply elem_of_dom_2 in Eb. clear -Eb. set_solver. }
    assert (Hbn1 : ∀ c, blockno <$> bufs s1 !! c = blockno <$> bufs s !! c).
    { intros c. rewrite Eb1. destruct (decide (c = b)) as [->|]; [by rewrite lookup_insert_eq, Eb|by rewrite lookup_insert_ne]. }
    assert (Hconv : ∀ c x, bufs s !! c = Some x → ∃ y, bufs s1 !! c = Some y ∧ blockno y = blockno x).
    { intros c x Ec. specialize (Hbn1 c). rewrite Ec in Hbn1. simpl in Hbn1. by apply fmap_Some in Hbn1 as (y & ? & ?); exists y. }
    destruct (IH s1 fuel (n + 1)) as (s2 & E2 & Hc2 & Hnn2 & Hlk2 & Hd2 & Hbn2 & Hw2 & Hu2 & Q1 & Q2 & Q3 & Q4 & Q5);
      [done|done|exact HL|by rewrite Hlk1|by rewrite En1|intros c Hcd; rewrite Hdom1; apply Hds; by right|simpl in Hf; lia|].
    exists s2. split; [|split_and!; try done].
    + simpl flush_loop. unfold node_empty. erewrite bind_Done; cycle 1.
      { unfold deref. rewrite (list_empty_dll DirtyHead _ _ Hd). reflexivity. }
      rewrite bool_decide_eq_false_2 by done.
      erewrite bind_Done; [|unfold update_ret; rewrite Epop; reflexivity]. cbv beta iota.
      unfold write_back in Ewb. revert Ewb.
      do 7 (let H := fresh in intros H; apply bind_inv in H as (? & ? & Hx & H); rewrite (bind_Done _ _ _ _ _ Hx); clear Hx; revert H).
      intros Ewb. rewrite (bind_Done _ _ _ _ _ Ewb), E2. f_equal. simpl. lia.
    + by rewrite Hlk2.
    + intros c. by rewrite Hbn2.
    + intros c x [->|Hcd]%elem_of_cons Ec.
      * simplify_eq. destruct (decide (map_Exists (λ c y, c ∈ ds ∧ blockno y = blockno e) (bufs s1))) as [(c & y & Ey & Hcd & Hy)|Hno].
        -- rewrite <-Hy. by eapply Hw2.
        -- rewrite Hu2; [done|]. intros c y Hcd Ey Hy. apply Hno. by exists c, y.
      * destruct (Hconv c x Ec) as (y & Ey & <-). by eapply Hw2.
    + intros m Hm. rewrite Hu2, Hdk'; [done| |].
      * intros Hx. apply (Hm b e); [by left|done|done].
      * intros c y Hcd Ey. specialize (Hbn1 c). rewrite Ey in Hbn1. simpl in Hbn1. symmetry in Hbn1.
        apply fmap_Some in Hbn1 as (x & Ex & ->). apply (Hm c x); [by right|done].
    + by rewrite Q1.
    + by rewrite Q2.
    + by rewrite Q3.
    + by rewrite Q4.
    + intros w. by rewrite Q5.
Qed.

(** A dirty release while the list is not empty, of a buffer whose node is
    stale: [list_pop] left it as the last of the list, both pointers to the
    head.  The [list_del] unlinks the whole list. *)
Lemma stale_release s b e ds d :
  bufs s !! b = Some e → bhash_lock ∉ blk_locks s →
  dll (nodes s) DirtyHead (DirtyNode d :: ds) →
  nodes s !! DirtyNode b = Some (Node DirtyHead DirtyHead) →
  ∃ s', buf_release b true s = Done tt s' ∧ dll (nodes s') DirtyHead [DirtyNode b] ∧
    ∀ c x, c ≠ b → bufs s !! c = Some x → bufs s' !! c = Some x.
Proof.
  intros Eb Hlk Hd Est. destruct Hd as [_ Hp]. simpl in Hp. destruct Hp as [[Hn _] _].
  unfold nxt in Hn. apply fmap_Some in Hn as (nh & Eh & Hnh).
  set (h1 := <[DirtyHead := Node DirtyHead DirtyHead]> (nodes s)).
  set (h2 := <[DirtyNode b := Node DirtyHead DirtyHead]> (<[DirtyHead := Node (DirtyNode b) (DirtyNode b)]> (nodes s))).
  assert (Edel : list_del (DirtyNode b) (nodes s) = Some h1).
  { unfold list_del, prv, nxt. rewrite Est. simpl. unfold __list_del, set_next, set_prev. rewrite Eh. simpl.
    rewrite lookup_insert_eq. simpl. by rewrite insert_insert_eq. }
  assert (Eadd : list_add_head (DirtyNode b) DirtyHead h1 = Some h2).
  { unfold list_add_head, nxt, h1. rewrite lookup_insert_eq. simpl. unfold __list_add, set_prev, set_next.
    rewrite lookup_insert_eq. simpl. rewrite !lookup_insert_eq. simpl.
    rewrite !lookup_insert_ne, Est by done. simpl. rewrite !lookup_insert_eq. simpl. f_equal. unfold h2.
    apply map_eq. intros l. destruct (decide (l = DirtyNode b)) as [->|]; [by rewrite !lookup_insert_eq|].
    rewrite !(lookup_insert_ne _ (DirtyNode b)) by done.
    destruct (decide (l = DirtyHead)) as [->|]; [by rewrite !lookup_insert_eq|]. by rewrite !lookup_insert_ne. }
  eexists. split; [|split].
  - unfold buf_release. rewrite (bind_Done _ _ _ _ _ (buf_mod_ok _ _ _ _ Eb)).
    erewrite bind_Done; [|apply buf_mod_ok; cbn; apply lookup_insert_eq]. cbv beta iota.
    erewrite bind_Done; [|apply buf_mod_ok; cbn; apply lookup_insert_eq].
    erewrite bind_Done; [|by apply spin_lock_gd].
    erewrite bind_Done; cycle 1.
    { unfold node_empty, deref, list_empty, nxt. cbn. rewrite Eh. simpl. reflexivity. }
    rewrite bool_decide_eq_false_2 by (by rewrite <-Hnh). cbn [negb].
    erewrite bind_Done; [|apply node_do_ok; exact Edel].
    erewrite bind_Done; [|apply node_do_ok; exact Eadd].
    by apply (spin_unlock_gd _ (blk_locks s)).
  - cbn. split.
    + by apply NoDup_cons; split; [apply not_elem_of_cons; split; [done|apply not_elem_of_nil]|apply NoDup_singleton].
    + unfold h2. simpl. unfold links, nxt, prv. by simplify_map_eq.
  - intros c x Hcb Ec. cbn. by rewrite !lookup_insert_ne.
Qed.

(** ** Initialisation *)

Lemma empty_lists_fam (h : gmap bloc (node bloc)) σ :
  (∀ hd xs, σ !! hd = Some xs → xs = [] ∧ h !! hd = Some (Node hd hd)) → fam h σ.
Proof.
  intros Hs. split.
  - intros hd xs E. destruct (Hs hd xs E) as [-> En]. split; [apply NoDup_singleton|].
    simpl. unfold links, nxt, prv. by rewrite En.
  - intros hd1 hd2 xs1 xs2 q E1 E2. destruct (Hs _ _ E1) as [-> _], (Hs _ _ E2) as [-> _].
    rewrite !list_elem_of_singleton. congruence.
Qed.

Lemma hash_heads_nodup : NoDup hash_heads.
Proof. by apply (bool_decide_unpack _). Qed.

Definition init_lists : gmap bloc (list bloc) :=
  <[RqHead := []]> (<[ActiveHead := []]> (<[InactiveHead := []]> (Hash.init_fam hash_heads))).

Lemma init_lists_lookup hd xs : init_lists !! hd = Some xs →
  xs = [] ∧ (hd = RqHead ∨ hd = ActiveHead ∨ hd = InactiveHead ∨ hd ∈ hash_heads).
Proof.
  unfold init_lists.
  intros [[<- <-]|[_ [[<- <-]|[_ [[<- <-]|[_ [? ->]%Hash.init_fam_lookup]]%lookup_insert_Some]]%lookup_insert_Some]]%lookup_insert_Some;
    tauto.
Qed.

(** The disk of a device before [gendisk_init]: no buffers and no
    requests, a driver that holds the [N] blocks of [view], and memory for [N]
    buffers and [K] bios. *)
Record fresh_disk (N K : Z) (view : gmap Z (list Z)) (g : gd) : Prop := {
  fd_empty : bufs g = ∅ ∧ rqs g = ∅;
  fd_locks : (bhash_lock ∉ blk_locks g) ∧ (rq_queue_lock ∉ blk_locks g);
  fd_size : N <= 2 ^ 32;
  fd_view : ∀ n, 0 <= n < N → view !! n = disk_at (disk g) n ∧ is_Some (disk_at (disk g) n);
  fd_dom : ∀ n, is_Some (view !! n) → 0 <= n < N;
  fd_bufs : ∃ X, obj_rep (buf_kmem_cache g) X ∅ ∧ N <= Z.of_nat (size X);
  fd_pages : ∃ X, page_rep (pagea g) X ∧ N <= Z.of_nat (size X);
  fd_bios : ∃ X, bio_ok (biom g) X ∧ bios (biom g) = ∅ ∧ K <= Z.of_nat (size X);
}.

Lemma gendisk_init_ok N K view s nm :
  fresh_disk N K view s → (∃ X L, obj_rep (kmc s) X L ∧ (1 < size X)%nat) →
  ∃ s', gendisk_init nm s = Done tt s' ∧ dev_ok N K view s' ∧ dll (nodes s') DirtyHead [] ∧ objs s' = objs s ∧
    disk s' = disk s.
Proof.
  intros [[Eb Er] [Hl1 Hl2] HN Hview Hdom (XB & HB & HBn) (XP & HP & HPn) Hbios] (XK & LK & HK & HKn).
  destruct (obj_alloc_ok _ _ _ HK) as (hs & c' & Ea & Hhs & HK').
  { intros ->. rewrite size_empty in HKn. lia. }
  pose proof (obj_rep_nonnull _ _ _ _ HK Hhs) as Hhs0.
  set (s1 := set_nodes (INIT_LIST_HEAD RqHead (nodes s)) (set_qsem (sem_init 0) s)).
  set (hi := foldl (λ h hd, INIT_LIST_HEAD hd h) (nodes s1) hash_heads).
  set (h := INIT_LIST_HEAD DirtyHead (INIT_LIST_HEAD InactiveHead (INIT_LIST_HEAD ActiveHead hi))).
  set (t := {| Hash.size := HASH_SIZE; Hash.count := 0; Hash.name := nm; Hash.heads := hash_heads |}).
  set (s' := set_counts 0 0 (set_ht t (set_nodes h (set_kmc c' s1)))).
  assert (E : gendisk_init nm s = Done tt s').
  { unfold gendisk_init. erewrite bind_Done; [|reflexivity]. unfold bhash_init, mbind, M_bind, zoom.
    cbn [kmc set_nodes set_qsem]. rewrite Ea. unfold modify. destruct (Z.eqb_spec hs 0) as [?|_]; [done|]. reflexivity. }
  assert (Hself : ∀ l, l = RqHead ∨ l = ActiveHead ∨ l = InactiveHead ∨ l = DirtyHead ∨ l ∈ hash_heads → h !! l = Some (Node l l)).
  { intros l Hl. unfold h, INIT_LIST_HEAD. rewrite !lookup_insert. repeat case_decide; subst; try done.
    unfold hi. rewrite Hash.foldl_init_lookup. case_decide as Hin; [done|].
    destruct Hl as [->|[->|[->|[->|Hl]]]]; try done. simpl. apply lookup_insert_eq. }
  exists s'. split; [done|]. split; [|split; [|done]].
  - split; cbn; try done.
    + split; cbn; rewrite ?Eb; try done.
      * exists init_lists. split; cbn; rewrite ?Eb.
        -- eapply Hash.hash_ok_frame; [apply (Hash.hash_init_ok (keyof s') HASH_SIZE nm hash_heads (nodes s1)); [done|done|apply hash_heads_nodup]| | |done].
           ++ apply empty_lists_fam. intros hd xs [-> Hh]%init_lists_lookup. split; [done|]. apply Hself. tauto.
           ++ intros hd Hin. unfold init_lists. simpl in Hin. apply hash_heads_in in Hin as [i ->].
              by rewrite !lookup_insert_ne.
        -- done.
        -- done.
        -- exists []. split; [done|]. intros b. rewrite elem_of_nil. split; [done|]. intros (e & Ee & _). by rewrite lookup_empty in Ee.
        -- exists []. split; [done|]. intros b. rewrite elem_of_nil. split; [done|]. intros (e & Ee & _). by rewrite lookup_empty in Ee.
        -- intros hd xs [_ Hh]%init_lists_lookup. done.
        -- intros b e Ee. by rewrite lookup_empty in Ee.
        -- intros l Hl. rewrite dom_empty_L in *.
           assert (l = DirtyHead) as -> by (destruct l; try done; by apply not_elem_of_empty in Hl).
           exists (Node DirtyHead DirtyHead). split; [|done]. apply Hself. tauto.
        -- intros b Hin. rewrite dom_empty_L in Hin. by apply not_elem_of_empty in Hin.
      * intros n Hn _. by apply Hview.
      * intros n Hn. by apply Hview.
      * exists XB, XP. cbn. rewrite Eb, dom_empty_L, size_empty. split_and!; [done|done|lia|lia|].
        intros b e Ee. by rewrite lookup_empty in Ee.
    + intros b e. cbn. rewrite Eb, lookup_empty. done.
    + exists (XK ∖ {[hs]}), ({[hs]} ∪ LK). split; [done|]. intros He.
      assert (Hsub : XK ⊆ {[hs]}).
      { intros x Hx. apply elem_of_singleton. destruct (decide (x = hs)); [done|]. exfalso.
        apply (not_elem_of_empty (C := gset Z) x). rewrite <-He. by apply elem_of_difference; split; [|rewrite elem_of_singleton]. }
      apply subseteq_size in Hsub.
      rewrite size_singleton in Hsub. lia.
  - cbn. split; [apply NoDup_singleton|]. simpl. unfold links, nxt, prv. rewrite Hself by tauto. done.
Qed.

End requests.

(** * Properties *)

(** C9: A read through [blk_read] returns the logical bytes of the device, whether
    they come from the cache or from the disk: the caller's buffer receives
    exactly the [len] bytes at block [bno], offset [off] (a range over several
    blocks included), and the logical content of the device does not change. *)
Theorem blk_read_correct `{PageAllocLaws P} `{ObjCacheLaws C} `{LLDiskLaws D} io caller N K view
    (s : gendisk P C D) bno off len u pos ub :
  dev_ok N K view s → is_u32 bno → is_u32 off → 0 <= len < 2 ^ 32 - BLK_SIZE →
  bno * BLK_SIZE + off + len <= N * BLK_SIZE → blocks_of off len <= K →
  ¬ phys_page u → objs s !! u = Some ub → 0 <= pos → pos + len <= Z.of_nat (length ub) →
  ∃ ub' s', blk_read io caller bno off len (Some (u, pos)) s = Done 0 s' ∧ dev_ok N K view s' ∧
    objs s' !! u = Some ub' ∧ length ub' = length ub ∧
    (∀ i : nat, ub' !! i =
      if decide (pos <= Z.of_nat i < pos + len) then byte_at view (bno * BLK_SIZE + off + (Z.of_nat i - pos))
      else ub !! i) ∧
    (∀ w, ¬ phys_page w → w ≠ u → objs s' !! w = objs s !! w).
Proof.
  intros Hdv Hb Ho Hl He Hs Hu Hub Hp Hr.
  destruct (gen_rw_ok io caller DEV_READ N K view s bno off len u pos ub) as
    (view' & ub' & s' & ps & E & Hcov & Heff & Hdv' & Hub' & _ & Hrest); try done; [by left|].
  destruct (effects_read_bytes _ _ _ _ _ _ _ _ Heff Hcov Hp) as (-> & Hlen & Hby).
  by exists ub', s'.
Qed.

(** C8: A write through [blk_write] updates exactly the addressed bytes of the
    device's logical content with those of the caller's buffer; what is read
    afterwards is what was written, without a transfer to the disk. *)
Theorem blk_write_correct `{PageAllocLaws P} `{ObjCacheLaws C} `{LLDiskLaws D} io caller N K view
    (s : gendisk P C D) bno off len u pos ub :
  dev_ok N K view s → is_u32 bno → is_u32 off → 0 <= len < 2 ^ 32 - BLK_SIZE →
  bno * BLK_SIZE + off + len <= N * BLK_SIZE → blocks_of off len <= K →
  ¬ phys_page u → objs s !! u = Some ub → 0 <= pos → pos + len <= Z.of_nat (length ub) →
  ∃ view' s', blk_write io caller bno off len (Some (u, pos)) s = Done 0 s' ∧ dev_ok N K view' s' ∧
    objs s' !! u = Some ub ∧
    (∀ a, byte_at view' a =
      if decide (bno * BLK_SIZE + off <= a < bno * BLK_SIZE + off + len)
      then ub !! Z.to_nat (pos + (a - (bno * BLK_SIZE + off))) else byte_at view a) ∧
    (∀ w, ¬ phys_page w → w ≠ u → objs s' !! w = objs s !! w).
Proof.
  intros Hdv Hb Ho Hl He Hs Hu Hub Hp Hr.
  destruct (gen_rw_ok io caller DEV_WRITE N K view s bno off len u pos ub) as
    (view' & ub' & s' & ps & E & Hcov & Heff & Hdv' & Hub' & _ & Hrest); try done; [by right|].
  destruct (effects_write_bytes _ _ _ _ _ _ _ _ Heff Hcov Hp) as (-> & Hby).
  { intros b blk Eb. pose proof (ca_view _ _ _ _ _ (dv_cache _ _ _ _ Hdv) b (mk_is_Some _ _ Eb)) as Hn.
    destruct (view_block _ _ _ _ _ _ (dv_cache _ _ _ _ Hdv) Hn) as (blk' & Eb' & ?). by simplify_eq. }
  by exists view', s'.
Qed.

(** C10: A round of the flush thread over a well-formed dirty list [ds] writes the
    logical content of the block of every buffer on the list to the disk and no
    other block, returns their number, and leaves the list empty and the
    device's logical content as it was; so the disk holds the logical content of
    every block that it held before the round or that is on the list.  A dirty
    buffer that is not on the list is not written: [stale_dirty_node_drops_list]
    shows how buffers fall off it. *)
Theorem flush_round_correct `{PageAllocLaws P} `{ObjCacheLaws C} `{LLDiskLaws D} flush N K view
    (s : gendisk P C D) ds :
  dev_ok N K view s → dll (nodes s) DirtyHead (DirtyNode <$> ds) → (∀ b, b ∈ ds → b ∈ dom (bufs s)) →
  ∃ s', flush_round flush s = Done (Z.of_nat (length ds)) s' ∧ dev_ok N K view s' ∧
    dll (nodes s') DirtyHead [] ∧
    (∀ b e, b ∈ ds → bufs s !! b = Some e → disk_at (disk s') (blockno e) = view !! blockno e) ∧
    (∀ m, (∀ b e, b ∈ ds → bufs s !! b = Some e → blockno e ≠ m) → disk_at (disk s') m = disk_at (disk s) m) ∧
    (∀ m, disk_at (disk s) m = view !! m ∨ (∃ b e, b ∈ ds ∧ bufs s !! b = Some e ∧ blockno e = m) →
       disk_at (disk s') m = view !! m).
Proof.
  intros [Hc Hnn Hrq Hq Hb Hk Hl1 Hl2] Hd Hds.
  assert (Hnd : NoDup ds) by (destruct Hd as [[_ Hnd]%NoDup_cons _]; by apply NoDup_fmap_1 in Hnd).
  assert (Hf : (length ds <= size (bufs s))%nat).
  { rewrite <-size_dom, <-(size_list_to_set (C := gset Z)) by done. apply subseteq_size. intros b.
    rewrite elem_of_list_to_set. apply Hds. }
  set (s0 := set_blk_locks ({[bhash_lock]} ∪ blk_locks s) s).
  destruct (flush_loop_ok flush (size (bufs s)) N view s0 (blk_locks s) ds 0) as
    (s1 & E & Hc1 & Hnn1 & Hlk1 & Hd1 & _ & Hw & Hu & R1 & R2 & R3 & R4 & R5); try done.
  { eapply cache_ok_ext; [apply same_cache_locks|done]. }
  exists (set_blk_locks (blk_locks s) s1). split; [|split_and!; try done].
  - unfold flush_round. rewrite (bind_Done _ _ _ _ _ (spin_lock_gd _ _ Hl1)).
    erewrite bind_Done; [|exact E]. erewrite bind_Done; [|by apply spin_unlock_gd]. done.
  - split; cbn; rewrite ?R1, ?R2, ?R3, ?R4; try done.
    eapply cache_ok_ext; [apply same_cache_locks|done].
  - intros m Hm. destruct (decide (Exists (λ b, blockno <$> bufs s !! b = Some m) ds)) as [Hin|Hno].
    + apply Exists_exists in Hin as (b & Hb' & (e & Eb & ->)%fmap_Some). by apply (Hw b e).
    + assert (Hno' : ∀ b e, b ∈ ds → bufs s !! b = Some e → blockno e ≠ m).
      { intros b e Hb' Eb E'. apply Hno, Exists_exists. exists b. split; [done|]. by rewrite Eb, <-E'. }
      destruct Hm as [Hm|(b & e & Hb' & Eb & E')]; [|by destruct (Hno' b e)]. simpl. rewrite Hu by done. exact Hm.
Qed.

(** A flush leaves the nodes of the buffers it popped pointing where they
    pointed.  When such a buffer, last of the flushed list, is released dirty
    while other buffers wait in the dirty list, the [list_del] on its stale
    node empties the list: only that buffer is left on it, the others keep
    their dirty pages and will not be written back. *)
Theorem stale_dirty_node_drops_list `{PageAllocLaws P} `{ObjCacheLaws C} `{LLDiskLaws D} (s : gendisk P C D) b e ds d :
  bufs s !! b = Some e → bhash_lock ∉ blk_locks s →
  dll (nodes s) DirtyHead (DirtyNode d :: ds) →
  nodes s !! DirtyNode b = Some (Node DirtyHead DirtyHead) →
  ∃ s', buf_release b true s = Done tt s' ∧ dll (nodes s') DirtyHead [DirtyNode b] ∧
    ∀ c x, c ≠ b → bufs s !! c = Some x → bufs s' !! c = Some x.
Proof. apply stale_release. Qed.

(** * A device of two blocks *)

Definition demo_disk : list Z := replicate (Z.to_nat 8192) 97.
Definition demo_block : list Z := replicate (Z.to_nat 4096) 97.
Definition user_bytes : list Z := replicate (Z.to_nat 5000) 98.

Definition demo_raw : gendisk page_stock stock mvirt :=
  Gd ∅ {| Hash.size := 0; Hash.count := 0; Hash.name := []; Hash.heads := [] |} 0 0 ∅ ∅ (sem_init 0)
    {[-1 := user_bytes]} ∅ (BioMem (Stock [1; 2; 3] ∅) ∅) (Stock [10; 11] ∅) (Stock [20; 21; 22] ∅)
    (PageStock [KERNBASE; KERNBASE + PGSIZE]) (Mvirt demo_disk).
Definition demo_view : gmap Z (list Z) := {[0 := demo_block; 1 := demo_block]}.

Definition run {S A} (m : M S A) (s : S) : S := match m s with Done _ s' => s' | _ => s end.
Definition demo_gd : gendisk page_stock stock mvirt := run (gendisk_init []) demo_raw.
(** After the write of 10 bytes into block 1. *)
Definition demo_dirty : gendisk page_stock stock mvirt := run (blk_write 1 2 1 20 10 (Some (-1, 0))) demo_gd.

Lemma slice_replicate {A} (x : A) i k n : (i + k <= n)%nat → slice i k (replicate n x) = Some (replicate k x).
Proof.
  intros Hl. rewrite slice_ok by (rewrite length_replicate; lia). f_equal.
  rewrite drop_replicate, take_replicate. f_equal. lia.
Qed.

Lemma demo_disk_at b : 0 <= b < 2 → disk_at (Mvirt demo_disk) b = Some demo_block.
Proof.
  intros Hb. unfold disk_at, mvirt_LLDisk, mvirt_at. cbn [addr]. unfold demo_disk at 1. rewrite length_replicate.
  destruct (Z.leb_spec 0 b); [|lia]. rewrite Z2Nat.id by lia. cbn [andb].
  change (8192 <=? 2 ^ 32) with true. cbv iota. apply slice_replicate. unfold PGSIZE. lia.
Qed.

Lemma user_buffer : ¬ phys_page (-1).
Proof. intros H%phys_page_pos. lia. Qed.

Lemma demo_raw_fresh : fresh_disk 2 3 demo_view demo_raw.
Proof.
  split.
  - done.
  - split; apply not_elem_of_empty.
  - done.
  - intros n Hn. cbn [disk demo_raw]. rewrite demo_disk_at by done. split; [|by eexists]. unfold demo_view.
    assert (n = 0 ∨ n = 1) as [->| ->] by lia; [by rewrite lookup_insert_eq|].
    rewrite lookup_insert_ne by done. apply lookup_singleton_eq.
  - intros n [x Hx]. unfold demo_view in Hx.
    apply lookup_insert_Some in Hx as [[<- _]|[_ [<- _]%lookup_singleton_Some]]; lia.
  - exists {[10; 11]}. split; [|by vm_compute]. split_and!; [set_solver|done| |set_solver|set_solver|set_solver].
    by apply (bool_decide_unpack _).
  - exists (list_to_set [KERNBASE; KERNBASE + PGSIZE]). split; [|by vm_compute]. split_and!; [done| |].
    + by apply (bool_decide_unpack _).
    + intros p [->|[->|[]%elem_of_nil]%elem_of_cons]%elem_of_cons; [exists 0|exists 1];
        rewrite ALL_PFN_val; unfold PGSIZE; lia.
  - exists {[1; 2; 3]}. split; [apply demo_bios_ok|]. by split; [|vm_compute].
Qed.

Lemma demo_kmc : obj_rep (kmc demo_raw) {[20; 21; 22]} ∅.
Proof. split_and!; [set_solver|done| |set_solver|set_solver|set_solver]. by apply (bool_decide_unpack _). Qed.

Lemma demo_gd_ok : gendisk_init [] demo_raw = Done tt demo_gd ∧ dev_ok 2 3 demo_view demo_gd ∧
  dll (nodes demo_gd) DirtyHead [] ∧ objs demo_gd = objs demo_raw.
Proof.
  destruct (gendisk_init_ok 2 3 demo_view demo_raw []) as (s' & E & Hdv & Hd & Ho & _).
  - apply demo_raw_fresh.
  - eexists _, _. split; [apply demo_kmc|]. by vm_compute; lia.
  - assert (demo_gd = s') as -> by (unfold demo_gd, run; by rewrite E). done.
Qed.

Lemma demo_buffer : objs demo_gd !! (-1) = Some user_bytes.
Proof. destruct demo_gd_ok as (_ & _ & _ & ->). apply lookup_singleton_eq. Qed.

(** 5000 bytes from offset 100 of block 0. *)
Lemma blk_read_correct_witness :
  ∃ ub' s', blk_read 1 2 0 100 5000 (Some (-1, 0)) demo_gd = Done 0 s' ∧ dev_ok 2 3 demo_view s' ∧
    objs s' !! (-1) = Some ub' ∧ length ub' = length user_bytes ∧
    (∀ i : nat, ub' !! i =
      if decide (0 <= Z.of_nat i < 0 + 5000) then byte_at demo_view (0 * BLK_SIZE + 100 + (Z.of_nat i - 0))
      else user_bytes !! i) ∧
    (∀ w, ¬ phys_page w → w ≠ -1 → objs s' !! w = objs demo_gd !! w).
Proof.
  apply (blk_read_correct 1 2 2 3 demo_view demo_gd 0 100 5000 (-1) 0 user_bytes).
  - apply demo_gd_ok.
  - by split.
  - by split.
  - by split.
  - by vm_compute.
  - by vm_compute.
  - apply user_buffer.
  - apply demo_buffer.
  - lia.
  - unfold user_bytes. rewrite length_replicate. lia.
Defined.

Lemma blk_write_correct_witness :
  ∃ view' s', blk_write 1 2 1 20 10 (Some (-1, 0)) demo_gd = Done 0 s' ∧ dev_ok 2 3 view' s' ∧
    objs s' !! (-1) = Some user_bytes ∧
    (∀ a, byte_at view' a =
      if decide (1 * BLK_SIZE + 20 <= a < 1 * BLK_SIZE + 20 + 10)
      then user_bytes !! Z.to_nat (0 + (a - (1 * BLK_SIZE + 20))) else byte_at demo_view a) ∧
    (∀ w, ¬ phys_page w → w ≠ -1 → objs s' !! w = objs demo_gd !! w).
Proof.
  apply (blk_write_correct 1 2 2 3 demo_view demo_gd 1 20 10 (-1) 0 user_bytes).
  - apply demo_gd_ok.
  - by split.
  - by split.
  - by split.
  - by vm_compute.
  - by vm_compute.
  - apply user_buffer.
  - apply demo_buffer.
  - lia.
  - unfold user_bytes. rewrite length_replicate. lia.
Defined.

(** Flushed, and another block written after that. *)
Definition demo_flushed : gendisk page_stock stock mvirt := run (flush_round 3) demo_dirty.
Definition demo_stale : gendisk page_stock stock mvirt := run (blk_write 1 2 0 0 10 (Some (-1, 0))) demo_flushed.

Lemma demo_dirty_nodes : nodes demo_dirty !! DirtyHead = Some (Node (DirtyNode 10) (DirtyNode 10)) ∧
  nodes demo_dirty !! DirtyNode 10 = Some (Node DirtyHead DirtyHead) ∧ is_Some (bufs demo_dirty !! 10).
Proof. vm_compute. split_and!; [reflexivity..|]. by eexists. Qed.
Lemma demo_stale_nodes : nodes demo_stale !! DirtyHead = Some (Node (DirtyNode 11) (DirtyNode 11)) ∧
  nodes demo_stale !! DirtyNode 11 = Some (Node DirtyHead DirtyHead) ∧
  nodes demo_stale !! DirtyNode 10 = Some (Node DirtyHead DirtyHead) ∧
  is_Some (bufs demo_stale !! 10) ∧ blk_locks demo_stale = ∅.
Proof. vm_compute. split_and!; [reflexivity..|by eexists|reflexivity]. Qed.

Lemma single_dirty (h : gmap bloc (node bloc)) b :
  h !! DirtyHead = Some (Node (DirtyNode b) (DirtyNode b)) → h !! DirtyNode b = Some (Node DirtyHead DirtyHead) →
  dll h DirtyHead [DirtyNode b].
Proof.
  intros E1 E2. split.
  - apply NoDup_cons. split; [|apply NoDup_singleton]. intros H%list_elem_of_singleton. done.
  - simpl. unfold links, nxt, prv. by rewrite E1, E2.
Qed.

Lemma demo_dirty_ok : ∃ view, dev_ok 2 3 view demo_dirty.
Proof.
  destruct demo_gd_ok as (_ & Hdv & _).
  destruct (gen_rw_ok 1 2 DEV_WRITE 2 3 demo_view demo_gd 1 20 10 (-1) 0 user_bytes) as
    (view & ub & s' & ps & E & _ & _ & Hdv' & _).
  - done.
  - by right.
  - by split.
  - by split.
  - by split.
  - by vm_compute.
  - by vm_compute.
  - apply user_buffer.
  - apply demo_buffer.
  - lia.
  - unfold user_bytes. rewrite length_replicate. lia.
  - exists view. assert (demo_dirty = s') as ->; [|done].
    unfold demo_dirty, run, blk_write, gen_disk_write, gen_write. by rewrite E.
Qed.

Lemma flush_round_correct_witness :
  ∃ view s', flush_round 3 demo_dirty = Done 1 s' ∧ dev_ok 2 3 view s' ∧ dll (nodes s') DirtyHead [] ∧
    (∀ b e, b ∈ [10] → bufs demo_dirty !! b = Some e → disk_at (disk s') (blockno e) = view !! blockno e).
Proof.
  destruct demo_dirty_ok as [view Hdv]. destruct demo_dirty_nodes as (E1 & E2 & Eb). exists view.
  destruct (flush_round_correct 3 2 3 view demo_dirty [10]) as (s' & E & Hdv' & Hd & Hw & _).
  - exact Hdv.
  - by apply single_dirty.
  - intros b ->%list_elem_of_singleton. by apply elem_of_dom.
  - exists s'. split; [exact E|]. split; [exact Hdv'|]. split; [exact Hd|exact Hw].
Defined.

(** Buffer 11 waits in the dirty list when buffer 10 is written again: it
    falls off the list. *)
Lemma stale_dirty_node_witness :
  ∃ s', buf_release 10 true demo_stale = Done tt s' ∧ dll (nodes s') DirtyHead [DirtyNode 10].
Proof.
  destruct demo_stale_nodes as (E1 & E2 & E3 & [e Eb] & El).
  destruct (stale_dirty_node_drops_list demo_stale 10 e [] 11) as (s' & E & Hd & _).
  - exact Eb.
  - rewrite El. apply not_elem_of_empty.
  - by apply single_dirty.
  - exact E3.
  - exists s'. by split.
Defined.
