(* ===== verification/BlockDev.v ===== *)
(** What a file system relies on when it calls [blk_read] and [blk_write]: an
    interface, and the proof that the generic disk of Blk provides it.

    [bd_rep b N K f]: the device has [N] blocks, a call may span up to [K]
    blocks, and [f] gives the byte at each absolute address.  Reads return
    those bytes, writes replace them. *)
From S2P Require Import Prelude ListLib Containers PageAlloc Semaphore ObjCache Bio LLDisk Blk.

Class BlockDev (B : Type) := {
  bd_read : Z → Z → Z → M B (list Z);
  bd_write : Z → Z → list Z → M B unit;
  bd_rep : B → Z → Z → (Z → option Z) → Prop;
}.

(** The requests a device of [N] blocks accepts. *)
Definition bd_range (N K bno off len : Z) : Prop :=
  is_u32 bno ∧ is_u32 off ∧ 0 <= len < 2 ^ 32 - BLK_SIZE ∧
  bno * BLK_SIZE + off + len <= N * BLK_SIZE ∧ blocks_of off len <= K.

(** [f] with the bytes [data] from address [start] on. *)
Definition fwrite (start : Z) (data : list Z) (f : Z → option Z) (a : Z) : option Z :=
  if decide (start <= a < start + Z.of_nat (length data)) then data !! Z.to_nat (a - start) else f a.

Class BlockDevLaws (B : Type) `{BlockDev B} : Prop := {
  bd_size b N K f : bd_rep b N K f → N <= 2 ^ 32;
  bd_dom b N K f a : bd_rep b N K f → 0 <= a < N * BLK_SIZE → is_Some (f a);
  bd_ext b N K f g : (∀ a, f a = g a) → bd_rep b N K f → bd_rep b N K g;
  bd_read_ok b N K f bno off len : bd_rep b N K f → bd_range N K bno off len →
    ∃ data b', bd_read bno off len b = Done data b' ∧ Z.of_nat (length data) = len ∧
      (∀ i : nat, (Z.of_nat i < len) → data !! i = f (bno * BLK_SIZE + off + Z.of_nat i)) ∧ bd_rep b' N K f;
  bd_write_ok b N K f bno off data : bd_rep b N K f → bd_range N K bno off (Z.of_nat (length data)) →
    ∃ b', bd_write bno off data b = Done tt b' ∧
      bd_rep b' N K (fwrite (bno * BLK_SIZE + off) data f);
}.

(** * The generic disk *)
Section gendisk.
Context {P C D : Type} `{PageAllocLaws P} `{ObjCacheLaws C} `{LLDiskLaws D}.
Local Notation "'gd'" := (gendisk P C D).
Implicit Types (s : gd).
Variables io_thread caller : Z.

(** The caller's buffer, an object outside the page cache. *)
Definition USER_BUF : Z := -1.

Definition with_buffer {A} (data : list Z) (m : M gd A) : M gd (A * list Z) := λ s,
  match m (set_objs (<[USER_BUF := data]> (objs s)) s) with
  | Done a s' => match objs s' !! USER_BUF with
                 | Some out => Done (a, out) (set_objs (delete USER_BUF (objs s')) s')
                 | None => Fault
                 end
  | Panic => Panic | Fault => Fault | Blocked => Blocked | OutOfFuel => OutOfFuel
  end.

Definition gd_read (bno off len : Z) : M gd (list Z) :=
  '(_, out) ← with_buffer (replicate (Z.to_nat len) 0)
      (blk_read io_thread caller bno off len (Some (USER_BUF, 0)));
  mret out.
Definition gd_write (bno off : Z) (data : list Z) : M gd unit :=
  _ ← with_buffer data (blk_write io_thread caller bno off (Z.of_nat (length data)) (Some (USER_BUF, 0)));
  mret tt.

Definition gd_rep s (N K : Z) (f : Z → option Z) : Prop :=
  ∃ view, dev_ok N K view s ∧ ∀ a, f a = byte_at view a.

#[global] Instance gendisk_BlockDev : BlockDev gd := {
  bd_read := gd_read; bd_write := gd_write; bd_rep := gd_rep;
}.

Lemma user_buf_obj : ¬ phys_page USER_BUF.
Proof. intros Hp%phys_page_pos. unfold USER_BUF in Hp. lia. Qed.

Lemma dev_ok_objs N K view s o :
  dev_ok N K view s → (∀ w, phys_page w → o !! w = objs s !! w) → dev_ok N K view (set_objs o s).
Proof.
  intros [D1 D2 D3 D4 D5 D6 D7 D8] Ho. split; try done. eapply cache_ok_ext; [|exact D1]. by split.
Qed.

Lemma dev_ok_view N K view s n blk :
  dev_ok N K view s → view !! n = Some blk → 0 <= n < N ∧ Z.of_nat (length blk) = BLK_SIZE.
Proof.
  intros Hd E. pose proof (ca_view _ _ _ _ _ (dv_cache _ _ _ _ Hd) n (mk_is_Some _ _ E)) as Hn. split; [done|].
  destruct (view_block _ _ _ _ _ _ (dv_cache _ _ _ _ Hd) Hn) as (b' & E' & ?). by simplify_eq.
Qed.

#[global] Instance gendisk_BlockDevLaws : BlockDevLaws gd.
Proof.
  split.
  - intros s N K f (view & Hd & _). apply (ca_N _ _ _ _ _ (dv_cache _ _ _ _ Hd)).
  - intros s N K f a (view & Hd & Hf) Ha. rewrite Hf. unfold byte_at.
    destruct (view_block _ _ _ _ _ (a / BLK_SIZE) (dv_cache _ _ _ _ Hd)) as (blk & -> & Hl).
    { unfold BLK_SIZE in *. split; [apply Z.div_pos; lia|apply Z.div_lt_upper_bound; lia]. }
    simpl. apply lookup_lt_is_Some. pose proof (Z.mod_pos_bound a BLK_SIZE ltac:(done)). lia.
  - intros s N K f g Hfg (view & Hd & Hf). exists view. split; [done|]. intros a. by rewrite <-Hfg.
  - intros s N K f bno off len (view & Hd & Hf) (R1 & R2 & R3 & R4 & R5).
    pose proof (ca_N _ _ _ _ _ (dv_cache _ _ _ _ Hd)) as HN.
    set (buf := replicate (Z.to_nat len) 0). set (s0 := set_objs (<[USER_BUF := buf]> (objs s)) s).
    assert (Hd0 : dev_ok N K view s0).
    { apply dev_ok_objs; [done|]. intros w Hw. apply lookup_insert_ne. intros <-. by apply user_buf_obj in Hw. }
    assert (Hbl : Z.of_nat (length buf) = len) by (unfold buf; rewrite length_replicate; lia).
    assert (Hend : 0 + len <= Z.of_nat (length buf)) by lia.
    destruct (gen_rw_ok io_thread caller DEV_READ N K view s0 bno off len USER_BUF 0 buf) as
      (view' & ub & s1 & ps & E & Hcov & Heff & Hd1 & Hub & _); try done; [by left|apply user_buf_obj|apply lookup_insert_eq|].
    destruct (effects_read_bytes _ _ _ _ _ _ _ _ Heff Hcov ltac:(done)) as (-> & Hlen & Hby).
    exists ub, (set_objs (delete USER_BUF (objs s1)) s1). split; [|split; [lia|split]].
    + simpl. unfold gd_read. rewrite (bind_Done _ _ _ (0, ub) (set_objs (delete USER_BUF (objs s1)) s1)); [done|].
      unfold with_buffer. fold buf s0. unfold blk_read, gen_disk_read, gen_read. by rewrite E, Hub.
    + intros i Hi. rewrite Hby, decide_True by lia. rewrite Hf. f_equal. lia.
    + exists view. split; [|done]. apply dev_ok_objs; [done|]. intros w Hw. apply lookup_delete_ne.
      intros <-. by apply user_buf_obj in Hw.
  - intros s N K f bno off data (view & Hd & Hf) (R1 & R2 & R3 & R4 & R5).
    set (s0 := set_objs (<[USER_BUF := data]> (objs s)) s). set (len := Z.of_nat (length data)) in *.
    assert (Hd0 : dev_ok N K view s0).
    { apply dev_ok_objs; [done|]. intros w Hw. apply lookup_insert_ne. intros <-. by apply user_buf_obj in Hw. }
    destruct (gen_rw_ok io_thread caller DEV_WRITE N K view s0 bno off len USER_BUF 0 data) as
      (view' & ub & s1 & ps & E & Hcov & Heff & Hd1 & Hub & _); try done; [by right|apply user_buf_obj|apply lookup_insert_eq|].
    destruct (effects_write_bytes _ _ _ _ _ _ _ _ Heff Hcov ltac:(done)) as (-> & Hby).
    { intros n blk En. by destruct (dev_ok_view _ _ _ _ _ _ Hd En). }
    exists (set_objs (delete USER_BUF (objs s1)) s1). split.
    + simpl. unfold gd_write. rewrite (bind_Done _ _ _ (0, data) (set_objs (delete USER_BUF (objs s1)) s1)); [done|].
      unfold with_buffer. fold len s0. unfold blk_write, gen_disk_write, gen_write. by rewrite E, Hub.
    + exists view'. split.
      * apply dev_ok_objs; [done|]. intros w Hw. apply lookup_delete_ne. intros <-. by apply user_buf_obj in Hw.
      * intros a. unfold fwrite. fold len. rewrite Hby, Hf. case_decide as Ha; [f_equal; lia|done].
Qed.
End gendisk.

(** * A RAM disk

    The plainest block device: a sparse array of bytes. *)
Record ramdisk := Ramdisk { rd_blocks : Z; rd_bytes : gmap Z Z }.

Definition rd_at (d : ramdisk) (a : Z) : Z := default 0 (rd_bytes d !! a).
Fixpoint rd_store (a : Z) (data : list Z) (m : gmap Z Z) : gmap Z Z :=
  match data with [] => m | x :: data => rd_store (a + 1) data (<[a := x]> m) end.
Definition rd_range (d : ramdisk) (a len : Z) : bool := (0 <=? a) && (a + len <=? rd_blocks d * BLK_SIZE).

#[global] Instance ramdisk_BlockDev : BlockDev ramdisk := {
  bd_read := λ bno off len d,
    if rd_range d (bno * BLK_SIZE + off) len then
      Done ((λ i, rd_at d (bno * BLK_SIZE + off + Z.of_nat i)) <$> seq 0 (Z.to_nat len)) d
    else Fault;
  bd_write := λ bno off data d,
    if rd_range d (bno * BLK_SIZE + off) (Z.of_nat (length data)) then
      Done tt (Ramdisk (rd_blocks d) (rd_store (bno * BLK_SIZE + off) data (rd_bytes d)))
    else Fault;
  bd_rep := λ d N K f, N = rd_blocks d ∧ N <= 2 ^ 32 ∧
    ∀ a, f a = if decide (0 <= a < N * BLK_SIZE) then Some (rd_at d a) else None;
}.

Lemma rd_store_lookup a data m b :
  rd_store a data m !! b =
    if decide (a <= b < a + Z.of_nat (length data)) then data !! Z.to_nat (b - a) else m !! b.
Proof.
  revert a m. induction data as [|x data IH]; intros a m; simpl; [by rewrite decide_False by lia|].
  rewrite IH. destruct (decide (a = b)) as [->|Hn].
  - rewrite decide_False, decide_True, Z.sub_diag, lookup_insert_eq by lia. done.
  - rewrite lookup_insert_ne by done. destruct (decide (a + 1 <= b < a + 1 + Z.of_nat (length data))).
    + rewrite decide_True by lia. replace (Z.to_nat (b - a)) with (S (Z.to_nat (b - (a + 1)))) by lia. done.
    + by rewrite decide_False by lia.
Qed.

#[global] Instance ramdisk_BlockDevLaws : BlockDevLaws ramdisk.
Proof.
  split; simpl.
  - by intros b N K f (_ & ? & _).
  - intros b N K f a (_ & _ & Hf) Ha. rewrite Hf, decide_True by done. by eexists.
  - intros b N K f g Hfg (? & ? & Hf). split_and!; [done|done|]. intros a. by rewrite <-Hfg.
  - intros b N K f bno off len (HN & HN32 & Hf) (R1 & R2 & R3 & R4 & _). unfold is_u32, BLK_SIZE in *. unfold rd_range, BLK_SIZE.
    destruct (Z.leb_spec 0 (bno * 4096 + off)); [|lia].
    destruct (Z.leb_spec (bno * 4096 + off + len) (rd_blocks b * 4096)); [|lia]. simpl.
    eexists _, b. split; [done|]. rewrite length_fmap, length_seq. split; [lia|]. split; [|done].
    intros i Hi. rewrite list_lookup_fmap, lookup_seq_lt by lia. simpl. by rewrite Hf, decide_True by lia.
  - intros b N K f bno off data (HN & HN32 & Hf) (R1 & R2 & R3 & R4 & _). unfold is_u32, BLK_SIZE in *. unfold rd_range, BLK_SIZE.
    destruct (Z.leb_spec 0 (bno * 4096 + off)); [|lia].
    destruct (Z.leb_spec (bno * 4096 + off + Z.of_nat (length data)) (rd_blocks b * 4096)); [|lia]. simpl.
    eexists. split; [done|]. simpl. split_and!; [done|done|]. intros a. unfold fwrite, rd_at. simpl.
    rewrite rd_store_lookup. destruct (decide (_ <= a < _ + Z.of_nat (length data))) as [Ha|Ha].
    + rewrite (decide_True (P := 0 <= a < _)) by lia.
      destruct (lookup_lt_is_Some_2 data (Z.to_nat (a - (bno * 4096 + off)))) as [x ->]; [lia|done].
    + apply Hf.
Qed.
