(* ===== verification/Devs.v ===== *)
(** The registry of block devices: kernel/dev/devs.c, [register_block] of
    kernel/dev/blk/blk_dev.c and the operation table of kernel/dev/blk/gendisk.c.

    A device has its own generic disk, a [gendisk] of Blk; [kmalloc]'s cache,
    the only allocator a registration uses, is shared by all of them.  The two
    threads that [gendisk_init] creates are recorded; Blk models their bodies
    and Proc the creation. *)
From S2P Require Import Prelude ListLib StringLib Containers Buddy PageAlloc Semaphore ObjCache Bio LLDisk Blk.

Inductive dnode := BdHead | BdNode (bd : Z).
#[global] Instance dnode_eq_dec : EqDecision dnode.
Proof. solve_decision. Defined.
#[global] Instance dnode_countable : Countable dnode.
Proof.
  refine (inj_countable' (λ l, match l with BdHead => None | BdNode b => Some b end)
    (λ x, match x with None => BdHead | Some b => BdNode b end) _).
  by intros [].
Defined.

(** * Operation tables *)

(** The functions of gendisk.c that stand in for those a driver does not give. *)
Inductive generic := GenOpen | GenRelease | GenStartIo | GenDiskSize | GenLlRw | GenRead | GenWrite.
(** A function pointer of a disk: the driver's, by its address, or a generic one. *)
Inductive gd_fn := Driver (p : Z) | Generic (g : generic).

Record gendisk_operations (A : Type) := GdOps {
  op_open : A; op_release : A; op_start_io : A; op_disk_size : A; op_ll_rw : A; op_read : A; op_write : A;
}.
Arguments GdOps {A}. Arguments op_open {A}. Arguments op_release {A}. Arguments op_start_io {A}.
Arguments op_disk_size {A}. Arguments op_ll_rw {A}. Arguments op_read {A}. Arguments op_write {A}.

(** [(ops->f) ? (ops->f) : gen_f] *)
Definition select (p : Z) (g : generic) : gd_fn := if p =? 0 then Generic g else Driver p.
Definition gd_ops (ops : gendisk_operations Z) : gendisk_operations gd_fn :=
  GdOps (select (op_open ops) GenOpen) (select (op_release ops) GenRelease) (select (op_start_io ops) GenStartIo)
    (select (op_disk_size ops) GenDiskSize) (select (op_ll_rw ops) GenLlRw) (select (op_read ops) GenRead)
    (select (op_write ops) GenWrite).

(** What a registered disk offers, field by field: the function the driver
    gives, or, where it gives none, the generic function of the same name. *)
Inductive offered : Z → generic → gd_fn → Prop :=
| offered_driver p g : p ≠ 0 → offered p g (Driver p)
| offered_generic g : offered 0 g (Generic g).
Record table_of (ops : gendisk_operations Z) (t : gendisk_operations gd_fn) : Prop := TableOf {
  t_open : offered (op_open ops) GenOpen (op_open t);
  t_release : offered (op_release ops) GenRelease (op_release t);
  t_start_io : offered (op_start_io ops) GenStartIo (op_start_io t);
  t_disk_size : offered (op_disk_size ops) GenDiskSize (op_disk_size t);
  t_ll_rw : offered (op_ll_rw ops) GenLlRw (op_ll_rw t);
  t_read : offered (op_read ops) GenRead (op_read t);
  t_write : offered (op_write ops) GenWrite (op_write t);
}.
Lemma select_offered p g : offered p g (select p g).
Proof. unfold select. destruct (Z.eqb_spec p 0) as [->|]; by constructor. Qed.
Lemma gd_ops_table ops : table_of ops (gd_ops ops).
Proof. split; apply select_offered. Qed.

(** [struct block_device], without the disk and the list node. *)
Record block_device := Bd {
  bd_dev : Z; bd_name : list Z; disk_size : Z; ops_of : gendisk_operations gd_fn; private : Z;
}.
Definition set_bd_dev x b := Bd x (bd_name b) (disk_size b) (ops_of b) (private b).
Definition set_bd_name x b := Bd (bd_dev b) x (disk_size b) (ops_of b) (private b).
Definition set_disk_size x b := Bd (bd_dev b) (bd_name b) x (ops_of b) (private b).
Definition set_ops_of x b := Bd (bd_dev b) (bd_name b) (disk_size b) x (private b).
Definition set_private x b := Bd (bd_dev b) (bd_name b) (disk_size b) (ops_of b) x.

Inductive kthread := GenStartIoThread (bd : Z) | FlushThread (bd : Z).

Definition dev_lock : lockid := ("dev_lists"%string, 0).
Definition NAME_LEN : nat := 16.

Section devs.
Context {P C D : Type} `{PageAllocLaws P} `{ObjCacheLaws C} `{LLDiskLaws D}.

(** [dev_lists], the devices and their disks. *)
Record devs := Devs {
  devno : Z; dnodes : gmap dnode (node dnode); bds : gmap Z block_device; gds : gmap Z (gendisk P C D);
  kmalloc_cache : C; kthreads : list kthread; d_locks : gset lockid; said : list string;
}.
Definition set_devno x s := Devs x (dnodes s) (bds s) (gds s) (kmalloc_cache s) (kthreads s) (d_locks s) (said s).
Definition set_dnodes x s := Devs (devno s) x (bds s) (gds s) (kmalloc_cache s) (kthreads s) (d_locks s) (said s).
Definition set_bds x s := Devs (devno s) (dnodes s) x (gds s) (kmalloc_cache s) (kthreads s) (d_locks s) (said s).
Definition set_gds x c s := Devs (devno s) (dnodes s) (bds s) x c (kthreads s) (d_locks s) (said s).
Definition set_kthreads x s := Devs (devno s) (dnodes s) (bds s) (gds s) (kmalloc_cache s) x (d_locks s) (said s).
Definition set_d_locks x s := Devs (devno s) (dnodes s) (bds s) (gds s) (kmalloc_cache s) (kthreads s) x (said s).
Definition set_said x s := Devs (devno s) (dnodes s) (bds s) (gds s) (kmalloc_cache s) (kthreads s) (d_locks s) x.

#[global] Instance devs_HasLocks : HasLocks devs := { locks := d_locks; set_locks := set_d_locks }.

Definition bd_at (bd : Z) : M devs block_device := deref (λ s, bds s !! bd).
Definition bd_mod (bd : Z) (f : block_device → block_device) : M devs unit :=
  update (λ s, b ← bds s !! bd; Some (set_bds (<[bd := f b]> (bds s)) s)).
(** A computation on the disk of [bd], which allocates from the shared cache. *)
Definition in_gd {A} (bd : Z) (m : M (gendisk P C D) A) : M devs A := λ s,
  match gds s !! bd with
  | None => Fault
  | Some g =>
      match m (set_kmc (kmalloc_cache s) g) with
      | Done a g => Done a (set_gds (<[bd := g]> (gds s)) (kmc g) s)
      | Panic => Panic | Fault => Fault | OutOfFuel => OutOfFuel | Blocked => Blocked
      end
  end.

(** * devs.c *)

Definition devs_init : M devs unit :=
  modify (λ s, set_devno 1 (set_dnodes (INIT_LIST_HEAD BdHead (dnodes s)) (set_d_locks (d_locks s ∖ {[dev_lock]}) s))).

(** [devno] is a [uint32]. *)
Definition devno_alloc : M devs Z :=
  spin_lock dev_lock;;
  n ← gets devno;
  modify (set_devno (u32 (n + 1)));;
  spin_unlock dev_lock;;
  mret n.

Definition node_do (f : gmap dnode (node dnode) → option (gmap dnode (node dnode))) : M devs unit :=
  update (λ s, h ← f (dnodes s); Some (set_dnodes h s)).
Definition devs_add (n : dnode) : M devs unit :=
  spin_lock dev_lock;; node_do (list_add_tail n BdHead);; spin_unlock dev_lock.
Definition devs_del (n : dnode) : M devs unit :=
  spin_lock dev_lock;; node_do (list_del n);; spin_unlock dev_lock.

(** * gendisk.c *)

Definition say (t : string) : M devs unit := modify (λ s, set_said (said s ++ [t]) s).
Definition gen_open (bd mode : Z) : M devs Z := say "gen_open";; mret 0.
Definition gen_release (bd mode : Z) : M devs Z := say "gen_release";; mret 0.
Definition gen_disk_size (bd : Z) : M devs Z := say "gen_disk_size";; b ← bd_at bd; mret (disk_size b).
Definition gen_ll_rw (bd bio rw : Z) : M devs Z := say "gen_ll_rw";; mret 0.

Definition kthread_create (t : kthread) : M devs unit := modify (λ s, set_kthreads (kthreads s ++ [t]) s).

(** [gd->dev = bd] is the index of the disk. *)
Definition gendisk_init (bd : Z) (ops : gendisk_operations Z) : M devs unit :=
  in_gd bd rq_queue_init;;
  bd_mod bd (set_ops_of (gd_ops ops));;
  in_gd bd (bhash_init (chars_of "bcache"));;
  kthread_create (GenStartIoThread bd);;
  kthread_create (FlushThread bd).

(** * blk_dev.c *)

Definition blk_set_private (bd p : Z) : M devs unit := bd_mod bd (set_private p).

(** [strncpy(bd->name, name, 16)]: the byte behind [name] is the low byte of
    [disk_size]. *)
Definition strncpy_bd_name (bd : Z) (name : list Z) : M devs unit :=
  b ← bd_at bd;
  r ← with_mem (strings (bd_name b ++ [disk_size b mod 256]) name) (strncpy NAME_AT ARG_AT (Z.of_nat NAME_LEN));
  bd_mod bd (λ b, set_disk_size (disk_size b - disk_size b mod 256 + default 0 (r.2 !! (NAME_AT + 16)))
    (set_bd_name (bytes_of r.2 NAME_AT NAME_LEN) b)).

Definition register_block (bd : Z) (ops : gendisk_operations Z) (name : list Z) (size : Z) : M devs Z :=
  n ← devno_alloc;
  bd_mod bd (set_bd_dev n);;
  devs_add (BdNode bd);;
  strncpy_bd_name bd name;;
  bd_mod bd (set_disk_size size);;
  gendisk_init bd ops;;
  mret 0.

(** Not implemented in the source. *)
Definition unregister_block (bd : Z) : M devs Z := mret 0.

(** * Facts *)

(** The registry holds the devices [xs], in the order of their registration,
    numbered from 1 on. *)
Record registry (xs : list Z) s : Prop := {
  rg_list : dll (dnodes s) BdHead (BdNode <$> xs);
  rg_lock : dev_lock ∉ d_locks s;
  rg_next : devno s = u32 (1 + Z.of_nat (length xs));
  rg_dev : ∀ i bd, xs !! i = Some bd → ∃ b, bds s !! bd = Some b ∧ bd_dev b = u32 (1 + Z.of_nat i);
}.

Lemma devs_init_ok s : ∃ s', devs_init s = Done tt s' ∧ registry [] s'.
Proof.
  eexists. split; [done|]. split; cbn; [apply dll_init|set_solver|done|done].
Qed.

Lemma bd_mod_ok bd f b s : bds s !! bd = Some b → bd_mod bd f s = Done tt (set_bds (<[bd := f b]> (bds s)) s).
Proof. intros E. unfold bd_mod, update. by rewrite E. Qed.

Lemma in_gd_ok {A} bd (m : M (gendisk P C D) A) g a g' s :
  gds s !! bd = Some g → m (set_kmc (kmalloc_cache s) g) = Done a g' →
  in_gd bd m s = Done a (set_gds (<[bd := g']> (gds s)) (kmc g') s).
Proof. intros Eg Em. unfold in_gd. by rewrite Eg, Em. Qed.

Lemma devno_alloc_ok s : dev_lock ∉ d_locks s → devno_alloc s = Done (devno s) (set_devno (u32 (devno s + 1)) s).
Proof.
  intros Hl. unfold devno_alloc. erewrite bind_Done by (unfold spin_lock; by rewrite decide_False).
  erewrite bind_Done by done. erewrite bind_Done by done. cbn.
  erewrite bind_Done by (unfold spin_unlock; rewrite decide_True by (cbn; set_solver); done). cbn.
  rewrite lock_unlock_locks by done. by destruct s.
Qed.

Lemma devs_add_ok n xs s : dev_lock ∉ d_locks s → dll (dnodes s) BdHead xs → n ∉ BdHead :: xs → is_Some (dnodes s !! n) →
  ∃ h, devs_add n s = Done tt (set_dnodes h s) ∧ dll h BdHead (xs ++ [n]) ∧ only (dnodes s) h (n :: BdHead :: xs).
Proof.
  intros Hl Hd Hn Hdom. destruct (list_add_tail_dll _ _ _ _ Hd Hn Hdom) as (h & Eh & Hh & Ho).
  exists h. split; [|done]. unfold devs_add. erewrite bind_Done by (unfold spin_lock; by rewrite decide_False).
  erewrite bind_Done by (unfold node_do, update; cbn; by rewrite Eh).
  unfold spin_unlock. rewrite decide_True by (cbn; set_solver). cbn. rewrite lock_unlock_locks by done. by destruct s.
Qed.

(** The second NUL of [strncpy] may change [disk_size]. *)
Lemma strncpy_bd_name_ok bd b n s :
  bds s !! bd = Some b → length (bd_name b) = NAME_LEN → Forall (λ c, 0 < c < 256) n → (length n < NAME_LEN)%nat →
  ∃ nm z, strncpy_bd_name bd (n ++ [0]) s = Done tt (set_bds (<[bd := set_disk_size z (set_bd_name nm b)]> (bds s)) s) ∧
    length nm = NAME_LEN ∧ n ++ [0] `prefix_of` nm.
Proof.
  intros Eb Hlen Hn Hl. unfold strncpy_bd_name. erewrite bind_Done by (unfold bd_at, deref; by rewrite Eb).
  destruct (strncpy_field (bd_name b ++ [disk_size b mod 256]) n NAME_LEN s) as (m & E & Hm);
    [done|by rewrite length_app, Hlen|done|unfold NAME_LEN; lia|].
  rewrite (bind_Done _ _ _ _ _ E), (bd_mod_ok _ _ _ _ Eb). set (l := n ++ _) in Hm.
  assert (Hll : length l = 17%nat).
  { unfold l. rewrite !length_app, length_drop, length_app, Hlen. simpl. unfold NAME_LEN in *. lia. }
  exists (take NAME_LEN l). eexists. split; [|split].
  - cbn [snd]. rewrite (bytes_of_list m NAME_AT l); [done| |]; unfold NAME_LEN in *; [lia|].
    intros i Hi. apply Hm. lia.
  - by rewrite length_take, Hll.
  - exists (take (NAME_LEN - S (length n)) (0 :: drop (length n + 2) (bd_name b ++ [disk_size b mod 256]))).
    unfold l. change (n ++ [0; 0] ++ ?t) with (n ++ [0] ++ 0 :: t). rewrite app_assoc, take_app_ge by (rewrite length_app; simpl; lia).
    f_equal. rewrite length_app. simpl. f_equal. unfold NAME_LEN. lia.
Qed.

Lemma gendisk_init_in bd ops b g nm g' s :
  nm = chars_of "bcache" → bds s !! bd = Some b → gds s !! bd = Some g →
  Blk.gendisk_init nm (set_kmc (kmalloc_cache s) g) = Done tt g' →
  gendisk_init bd ops s = Done tt (set_kthreads (kthreads s ++ [GenStartIoThread bd; FlushThread bd])
    (set_gds (<[bd := g']> (gds s)) (kmc g') (set_bds (<[bd := set_ops_of (gd_ops ops) b]> (bds s)) s))).
Proof.
  intros -> Eb Eg E. unfold Blk.gendisk_init in E. erewrite bind_Done in E by done. cbv beta in E.
  match type of E with bhash_init _ ?x = _ => set (g1 := x) in * end.
  unfold gendisk_init. erewrite bind_Done by by apply (in_gd_ok bd rq_queue_init g tt g1).
  set (s1 := set_gds _ _ s). erewrite bind_Done by by apply (bd_mod_ok bd _ b s1). set (s2 := set_bds _ s1).
  erewrite bind_Done; [|apply (in_gd_ok bd _ g1 tt g' s2); [cbn; apply lookup_insert_eq|]].
  2:{ rewrite <-E. f_equal. }
  erewrite bind_Done by done. unfold kthread_create, modify. cbn. rewrite <-app_assoc, insert_insert_eq. by destruct s.
Qed.

(** C37: Registering a device gives it the next number, puts it at the end of the
    list of devices, stores its name and its size, the driver's functions where
    it has them and the generic ones where not, and starts its two threads; no
    other device changes.  Its disk is then one that the block layer serves. *)
Theorem register_block_correct N K view xs s bd b g ops n sz X L :
  registry xs s → bds s !! bd = Some b → bd ∉ xs → is_Some (dnodes s !! BdNode bd) → gds s !! bd = Some g →
  length (bd_name b) = NAME_LEN → Forall (λ c, 0 < c < 256) n → (length n < NAME_LEN)%nat →
  fresh_disk N K view g → obj_rep (kmalloc_cache s) X L → (1 < size X)%nat →
  ∃ s' nm g' t, register_block bd ops (n ++ [0]) sz s = Done 0 s' ∧ registry (xs ++ [bd]) s' ∧
    bds s' = <[bd := Bd (u32 (1 + Z.of_nat (length xs))) nm sz t (private b)]> (bds s) ∧ table_of ops t ∧
    length nm = NAME_LEN ∧ n ++ [0] `prefix_of` nm ∧
    gds s' = <[bd := g']> (gds s) ∧ dev_ok N K view g' ∧ kmalloc_cache s' = kmc g' ∧
    kthreads s' = kthreads s ++ [GenStartIoThread bd; FlushThread bd].
Proof.
  intros [Rl Rk Rn Rd] Eb Hbd Hdom Eg Hlen Hn Hl Hf Hrep HX.
  destruct (gendisk_init_ok N K view (set_kmc (kmalloc_cache s) g) (chars_of "bcache")) as (g' & Ei & Hdev & _);
    [by destruct Hf; split|by exists X, L|].
  unfold register_block. rewrite (bind_Done _ _ _ _ _ (devno_alloc_ok s Rk)). set (s1 := set_devno _ s).
  rewrite (bind_Done _ _ _ _ _ (bd_mod_ok bd (set_bd_dev (devno s)) b s1 Eb)). set (s2 := set_bds _ s1).
  destruct (devs_add_ok (BdNode bd) (BdNode <$> xs) s2) as (h & Ea & Hh & Ho); [done|done| |done|].
  { rewrite elem_of_cons, list_elem_of_fmap. naive_solver. }
  rewrite (bind_Done _ _ _ _ _ Ea). set (s3 := set_dnodes h s2).
  destruct (strncpy_bd_name_ok bd (set_bd_dev (devno s) b) n s3) as (nm & z & Es & Hnm & Hpre); [apply lookup_insert_eq|done..|].
  rewrite (bind_Done _ _ _ _ _ Es). set (b4 := set_disk_size z _). set (s4 := set_bds _ s3).
  rewrite (bind_Done _ _ _ _ _ (bd_mod_ok bd (set_disk_size sz) b4 s4 (lookup_insert_eq _ _ _))). set (s5 := set_bds _ s4).
  erewrite bind_Done; [|apply (gendisk_init_in bd ops (set_disk_size sz b4) g (chars_of "bcache") g' s5); [done|apply lookup_insert_eq|done|done]].
  eexists _, nm, g', (gd_ops ops). split; [reflexivity|]. unfold s5, s4, s3, s2, s1, b4. cbn. rewrite !insert_insert_eq, Rn.
  split; [|by split_and!; try apply gd_ops_table]. split; cbn.
  - by rewrite fmap_app.
  - done.
  - rewrite length_app. simpl. unfold u32. rewrite Zplus_mod_idemp_l. f_equal. lia.
  - intros i c Hc. apply lookup_snoc_Some in Hc as [[Hi Hc]|[-> ->]].
    + destruct (Rd i c Hc) as (x & Ex & Hx). exists x. rewrite lookup_insert_ne; [done|].
      intros ->. apply Hbd. by eapply list_elem_of_lookup_2.
    + rewrite lookup_insert_eq. by eexists.
Qed.
End devs.

(** * A registered RAM disk *)

(** The table of mvir_blk.c: its own [open], [release] and [ll_rw]. *)
Definition mvirt_ops : gendisk_operations Z := GdOps 4096 4352 0 0 4608 0 0.
Definition demo_bd : block_device :=
  Bd 0 (replicate 16 0) 0 (GdOps (Driver 0) (Driver 0) (Driver 0) (Driver 0) (Driver 0) (Driver 0) (Driver 0)) 0.
Definition demo_devs : devs (P := page_stock) (C := stock) (D := mvirt) :=
  Devs 0 {[BdNode 7 := Node (BdNode 7) (BdNode 7)]} {[7 := demo_bd]} {[7 := demo_raw]} (Stock [20; 21; 22] ∅) [] ∅ [].
Definition demo_ready : devs (P := page_stock) (C := stock) (D := mvirt) := run devs_init demo_devs.

Lemma register_block_correct_witness :
  ∃ s', register_block 7 mvirt_ops (chars_of "mvirt_blk_dev" ++ [0]) DISK_SIZE demo_ready = Done 0 s' ∧
    registry [7] s' ∧ (op_ll_rw ∘ ops_of <$> bds s' !! 7) = Some (Driver 4608) ∧
    (op_read ∘ ops_of <$> bds s' !! 7) = Some (Generic GenRead).
Proof.
  destruct (register_block_correct 2 3 demo_view [] demo_ready 7 demo_bd demo_raw mvirt_ops (chars_of "mvirt_blk_dev") DISK_SIZE
    {[20; 21; 22]} ∅) as (s' & nm & g' & t & E & Hr & Hb & Ht & _).
  - destruct (devs_init_ok demo_devs) as (s' & E & Hr). unfold demo_ready, run. by rewrite E.
  - apply lookup_singleton_eq.
  - apply not_elem_of_nil.
  - by eexists.
  - apply lookup_singleton_eq.
  - done.
  - by apply (bool_decide_unpack _).
  - by apply Nat.ltb_lt.
  - apply demo_raw_fresh.
  - apply demo_kmc.
  - by vm_compute; lia.
  - exists s'. split; [exact E|]. split; [exact Hr|]. rewrite Hb, lookup_insert_eq. destruct Ht. simpl in *.
    split; [by inversion t_ll_rw0|by inversion t_read0].
Defined.
