(* ===== verification/Layout.v ===== *)
(** The on-disk records of the file system (fs/easyfs/easyfs.h) and their bytes.

    The kernel reads and writes [struct easy_d_super_block], [struct
    easy_d_inode] and [struct easy_dirent] as the raw bytes of the structures:
    little-endian fields at the offsets the compiler gives them (rv64, natural
    alignment).  [encode_*] is the memory image of a structure, [decode_*] reads
    its fields back; the two bytes of padding in the inode are a field. *)
From S2P Require Import Prelude.

(** * Little-endian numbers *)

Fixpoint le (n : nat) (z : Z) : list Z :=
  match n with O => [] | S n => z mod 256 :: le n (z / 256) end.
Fixpoint unle (l : list Z) : Z :=
  match l with [] => 0 | b :: l => b mod 256 + 256 * unle l end.

Lemma length_le n z : length (le n z) = n.
Proof. revert z. induction n as [|n IH]; intros z; simpl; [done|]. by rewrite IH. Qed.

Lemma unle_range l : 0 <= unle l < 256 ^ Z.of_nat (length l).
Proof.
  induction l as [|b l IH]; simpl unle; simpl length; [done|].
  rewrite Nat2Z.inj_succ, Z.pow_succ_r by lia. pose proof (Z.mod_pos_bound b 256). lia.
Qed.

Lemma unle_le n z : unle (le n z) = z mod 256 ^ Z.of_nat n.
Proof.
  revert z. induction n as [|n IH]; intros z; simpl le; simpl unle; [by rewrite Z.mod_1_r|].
  rewrite IH, Nat2Z.inj_succ, Z.pow_succ_r, Z.mod_mod by lia.
  by rewrite Z.rem_mul_r by lia.
Qed.

Lemma unle_le_small n z : 0 <= z < 256 ^ Z.of_nat n → unle (le n z) = z.
Proof. intros. rewrite unle_le. by apply Z.mod_small. Qed.

Lemma le_unle l : (∀ b, b ∈ l → 0 <= b < 256) → le (length l) (unle l) = l.
Proof.
  induction l as [|b l IH]; intros Hb; simpl; [done|]. assert (0 <= b < 256) by (apply Hb; by left).
  rewrite (Z.mod_small b) by lia. replace (b + 256 * unle l) with (unle l * 256 + b) by lia.
  rewrite Z.div_add_l, (Z.div_small b), Z.add_0_r by lia.
  rewrite IH by (intros; apply Hb; by right). f_equal.
  rewrite Z.add_comm, Z.mod_add, Z.mod_small by lia. done.
Qed.

(** The field of [n] bytes at offset [off]. *)
Definition field (off n : nat) (l : list Z) : Z := unle (take n (drop off l)).

Lemma field_range off n l : 0 <= field off n l < 256 ^ Z.of_nat n.
Proof.
  unfold field. pose proof (unle_range (take n (drop off l))) as Hr. split; [lia|].
  eapply Z.lt_le_trans; [apply Hr|]. apply Z.pow_le_mono_r; [lia|]. rewrite length_take. lia.
Qed.

Lemma field_app off n l1 l2 : (length l1 <= off)%nat → field off n (l1 ++ l2) = field (off - length l1) n l2.
Proof. intros Hl. unfold field. by rewrite drop_app_ge. Qed.

Lemma field_here n z l : field 0 n (le n z ++ l) = z mod 256 ^ Z.of_nat n.
Proof. unfold field. rewrite drop_0, take_app_length' by (by rewrite length_le). apply unle_le. Qed.

(** ** Arrays of 32-bit words *)

Definition encode_words (ws : list Z) : list Z := ws ≫= le 4.
Definition decode_words (n : nat) (l : list Z) : list Z := (λ i, field (4 * i) 4 l) <$> seq 0 n.

Lemma length_encode_words ws : length (encode_words ws) = (4 * length ws)%nat.
Proof. unfold encode_words. induction ws as [|w ws IH]; [done|]. rewrite bind_cons, length_app, IH, length_le. simpl. lia. Qed.

Lemma length_decode_words n l : length (decode_words n l) = n.
Proof. unfold decode_words. by rewrite length_fmap, length_seq. Qed.

Lemma field_encode_words ws l i w :
  ws !! i = Some w → field (4 * i) 4 (encode_words ws ++ l) = u32 w.
Proof.
  unfold encode_words. revert i. induction ws as [|x ws IH]; intros [|i]; [done|done| |].
  - intros [= <-]. rewrite bind_cons, <-app_assoc. exact (field_here 4 x _).
  - intros Hi. rewrite bind_cons, <-app_assoc, field_app by (rewrite length_le; lia).
    rewrite length_le. replace (4 * S i - 4)%nat with (4 * i)%nat by lia. by apply IH.
Qed.

Lemma decode_words_lookup n l i : (i < n)%nat → decode_words n l !! i = Some (field (4 * i) 4 l).
Proof. intros Hi. unfold decode_words. by rewrite list_lookup_fmap, lookup_seq_lt. Qed.

Lemma decode_encode_words ws l :
  Forall is_u32 ws → decode_words (length ws) (encode_words ws ++ l) = ws.
Proof.
  intros Hw. apply list_eq. intros i. destruct (decide (i < length ws)%nat) as [Hi|Hi].
  - rewrite decode_words_lookup by done. destruct (lookup_lt_is_Some_2 ws i Hi) as [w Ew].
    rewrite (field_encode_words _ _ _ _ Ew), Ew. f_equal. apply u32_small. by eapply Forall_lookup_1 in Hw.
  - rewrite !lookup_ge_None_2; [done|lia|rewrite length_decode_words; lia].
Qed.

Lemma decode_words_u32 n l : Forall is_u32 (decode_words n l).
Proof.
  apply Forall_lookup_2. intros i w Hi. pose proof (lookup_lt_Some _ _ _ Hi) as Hl.
  rewrite length_decode_words in Hl. rewrite decode_words_lookup in Hi by done. injection Hi as <-.
  apply field_range.
Qed.

(** * Inodes *)

Definition NDIRECT : nat := 12.
Definition NINDIRECT : nat := 1024.
Definition BLOCK_SIZE : Z := 4096.
Definition MAXFILE : Z := 1036.

(** [enum easy_file_type] *)
Definition F_NONE : Z := 0.
Definition F_REG : Z := 1.
Definition F_DIR : Z := 2.
Definition F_DEV : Z := 3.

Record easy_d_inode := DInode {
  i_no : Z; i_type : Z; i_devno : Z; i_pad : Z; i_size : Z; i_addrs : list Z; i_nlink : Z
}.

Definition set_i_type x (d : easy_d_inode) := DInode (i_no d) x (i_devno d) (i_pad d) (i_size d) (i_addrs d) (i_nlink d).
Definition set_i_size x (d : easy_d_inode) := DInode (i_no d) (i_type d) (i_devno d) (i_pad d) x (i_addrs d) (i_nlink d).
Definition set_i_addrs x (d : easy_d_inode) := DInode (i_no d) (i_type d) (i_devno d) (i_pad d) (i_size d) x (i_nlink d).
Definition set_i_nlink x (d : easy_d_inode) := DInode (i_no d) (i_type d) (i_devno d) (i_pad d) (i_size d) (i_addrs d) x.

(** [sizeof(struct easy_d_inode)] *)
Definition D_INODE_BYTES : nat := 72.

Definition encode_inode (d : easy_d_inode) : list Z :=
  le 4 (i_no d) ++ le 4 (i_type d) ++ le 2 (i_devno d) ++ le 2 (i_pad d) ++ le 4 (i_size d) ++
  encode_words (i_addrs d) ++ le 4 (u32 (i_nlink d)).
Definition decode_inode (l : list Z) : easy_d_inode :=
  DInode (field 0 4 l) (field 4 4 l) (field 8 2 l) (field 10 2 l) (field 12 4 l)
    (decode_words 13 (drop 16 l)) (i32 (field 68 4 l)).

Record inode_wf (d : easy_d_inode) : Prop := {
  wf_no : is_u32 (i_no d);
  wf_type : is_u32 (i_type d);
  wf_devno : 0 <= i_devno d < 2 ^ 16;
  wf_pad : 0 <= i_pad d < 2 ^ 16;
  wf_size : is_u32 (i_size d);
  wf_len : length (i_addrs d) = 13%nat;
  wf_addrs : Forall is_u32 (i_addrs d);
  wf_nlink : is_i32 (i_nlink d);
}.

Lemma length_encode_inode d : length (i_addrs d) = 13%nat → length (encode_inode d) = D_INODE_BYTES.
Proof. intros Hl. unfold encode_inode. rewrite !length_app, !length_le, length_encode_words, Hl. done. Qed.

(** Reading the first field, and skipping a field. *)
Lemma field_skip off n l1 l2 k : length l1 = k → (k <= off)%nat → field off n (l1 ++ l2) = field (off - k) n l2.
Proof. intros <-. apply field_app. Qed.

Lemma i32_u32 z : is_i32 z → i32 (u32 z) = z.
Proof.
  unfold is_i32. intros Hz. unfold i32, u32. rewrite Zplus_mod_idemp_l, Z.mod_small; lia.
Qed.
Lemma u32_i32 z : u32 (i32 z) = u32 z.
Proof. unfold i32, u32. rewrite Zminus_mod_idemp_l. f_equal. lia. Qed.

Lemma field_last n z : field 0 n (le n z) = z mod 256 ^ Z.of_nat n.
Proof. rewrite <-(app_nil_r (le n z)). apply field_here. Qed.

(** Evaluate a field at a concrete offset of a concatenation of fields. *)
Ltac field_eval :=
  repeat first
    [ rewrite field_here | rewrite field_last
    | erewrite field_skip; [|first [apply length_le | rewrite length_encode_words; eassumption]|simpl; lia]; cbn [Nat.sub] ].

Lemma decode_encode_inode d : inode_wf d → decode_inode (encode_inode d) = d.
Proof.
  intros [H1 H2 H3 H4 H5 H6 H7 H8]. destruct d as [no ty dev pad sz addrs nl]; simpl in *.
  unfold decode_inode, encode_inode; simpl i_no; simpl i_type; simpl i_devno; simpl i_pad; simpl i_size;
    simpl i_addrs; simpl i_nlink. unfold is_u32 in *.
  assert (Hl : (4 * length addrs)%nat = 52%nat) by lia.
  f_equal.
  - field_eval. rewrite Z.mod_small; lia.
  - field_eval. rewrite Z.mod_small; lia.
  - field_eval. rewrite Z.mod_small; lia.
  - field_eval. rewrite Z.mod_small; lia.
  - field_eval. rewrite Z.mod_small; lia.
  - change (drop 16 _) with (encode_words addrs ++ le 4 (u32 nl)). rewrite <-H6. by apply decode_encode_words.
  - field_eval. rewrite (Z.mod_small (u32 nl)) by apply u32_range. by apply i32_u32.
Qed.

Lemma decode_inode_wf l : inode_wf (decode_inode l).
Proof.
  split; cbn [decode_inode i_no i_type i_devno i_pad i_size i_addrs i_nlink].
  1-5: first [exact (field_range _ 4 l)|exact (field_range _ 2 l)].
  { apply length_decode_words. }
  { apply decode_words_u32. }
  unfold is_i32, i32. pose proof (Z.mod_pos_bound (field 68 4 l + 2 ^ 31) (2 ^ 32)). lia.
Qed.

(** * The superblock *)

Record easy_d_super_block := DSuper {
  inode_count : Z; inode_free : Z; inode_size : Z; inode_map_start : Z; inode_area_start : Z;
  block_count : Z; block_free : Z; block_size : Z; block_map_start : Z; block_area_start : Z;
  name : list Z; magic : Z
}.

Definition set_inode_free x (d : easy_d_super_block) := DSuper (inode_count d) x (inode_size d)
  (inode_map_start d) (inode_area_start d) (block_count d) (block_free d) (block_size d) (block_map_start d)
  (block_area_start d) (name d) (magic d).
Definition set_block_free x (d : easy_d_super_block) := DSuper (inode_count d) (inode_free d) (inode_size d)
  (inode_map_start d) (inode_area_start d) (block_count d) x (block_size d) (block_map_start d)
  (block_area_start d) (name d) (magic d).

(** [sizeof(struct easy_d_super_block)] *)
Definition D_SUPER_BYTES : nat := 60.

Definition super_ints (d : easy_d_super_block) : list Z :=
  [inode_count d; inode_free d; inode_size d; inode_map_start d; inode_area_start d;
   block_count d; block_free d; block_size d; block_map_start d; block_area_start d].

Definition encode_super (d : easy_d_super_block) : list Z :=
  encode_words (u32 <$> super_ints d) ++ name d ++ le 4 (magic d).
Definition decode_super (l : list Z) : easy_d_super_block :=
  let int i := i32 (field (4 * i) 4 l) in
  DSuper (int 0%nat) (int 1%nat) (int 2%nat) (int 3%nat) (int 4%nat) (int 5%nat) (int 6%nat) (int 7%nat)
    (int 8%nat) (int 9%nat) (take 16 (drop 40 l)) (field 56 4 l).

Record super_wf (d : easy_d_super_block) : Prop := {
  sw_ints : Forall is_i32 (super_ints d);
  sw_name : length (name d) = 16%nat;
  sw_magic : is_u32 (magic d);
}.

Lemma decode_encode_super d : super_wf d → decode_super (encode_super d) = d.
Proof.
  intros [Hi Hn Hm]. unfold is_u32 in Hm.
  assert (Hw : ∀ i x, super_ints d !! i = Some x → i32 (field (4 * i) 4 (encode_super d)) = x).
  { intros i x Ex. unfold encode_super. rewrite (field_encode_words _ _ _ (u32 x)) by by rewrite list_lookup_fmap, Ex.
    rewrite (u32_small (u32 x)) by apply u32_range. apply i32_u32. by eapply Forall_lookup_1 in Hi. }
  assert (Hlen : length (encode_words (u32 <$> super_ints d)) = 40%nat) by by rewrite length_encode_words.
  set (bs := encode_super d) in *.
  assert (Hnm : take 16 (drop 40 bs) = name d).
  { unfold bs, encode_super. rewrite drop_app_length' by done. by apply take_app_length'. }
  assert (Hmg : field 56 4 bs = magic d).
  { unfold bs, encode_super. rewrite (field_skip _ _ _ _ 40), (field_skip _ _ _ _ 16); [|done|lia|done|lia].
    simpl Nat.sub. rewrite field_last, Z.mod_small; lia. }
  unfold decode_super. cbv zeta. rewrite Hnm, Hmg. clearbody bs. destruct d; simpl in *. f_equal.
  - by apply (Hw 0%nat).
  - by apply (Hw 1%nat).
  - by apply (Hw 2%nat).
  - by apply (Hw 3%nat).
  - by apply (Hw 4%nat).
  - by apply (Hw 5%nat).
  - by apply (Hw 6%nat).
  - by apply (Hw 7%nat).
  - by apply (Hw 8%nat).
  - by apply (Hw 9%nat).
Qed.

(** * Directory entries *)

Definition DIR_MAXLEN : nat := 16.
Record easy_dirent := Dirent { d_ino : Z; d_type : Z; d_name : list Z }.
Definition set_d_name x (d : easy_dirent) := Dirent (d_ino d) (d_type d) x.

(** [sizeof(struct easy_dirent)] *)
Definition DIRENT_BYTES : nat := 24.

Definition encode_dirent (d : easy_dirent) : list Z := le 4 (d_ino d) ++ le 4 (d_type d) ++ d_name d.
Definition decode_dirent (l : list Z) : easy_dirent := Dirent (field 0 4 l) (field 4 4 l) (take 16 (drop 8 l)).

Record dirent_wf (d : easy_dirent) : Prop := {
  dw_ino : is_u32 (d_ino d);
  dw_type : is_u32 (d_type d);
  dw_name : length (d_name d) = DIR_MAXLEN;
}.

Lemma length_encode_dirent d : dirent_wf d → length (encode_dirent d) = DIRENT_BYTES.
Proof. intros [_ _ Hn]. unfold encode_dirent. by rewrite !length_app, !length_le, Hn. Qed.

Lemma decode_encode_dirent d : dirent_wf d → decode_dirent (encode_dirent d) = d.
Proof.
  intros [H1 H2 H3]. destruct d as [no ty nm]; simpl in *. unfold is_u32, DIR_MAXLEN in *.
  unfold decode_dirent, encode_dirent; simpl d_ino; simpl d_type; simpl d_name. f_equal.
  - field_eval. rewrite Z.mod_small; lia.
  - field_eval. rewrite Z.mod_small; lia.
  - apply (take_ge nm 16). lia.
Qed.
