(* ===== verification/Efs.v ===== *)
(** The file system's inodes and superblock: fs/easyfs/inode.c and
    fs/easyfs/super.c (the dentry operations are in Dentry).

    One mounted file system [fs], over a block device ([BlockDev]), the two
    slab caches ([ObjCache]) and the page allocator ([PageAlloc]); the bitmaps,
    the hash tables and the list nodes are those of Bitmap, Containers and
    ListLib.  Structures are maps from pointers to their contents, 0 is NULL;
    the static [root_m_inode] has an address of its own.  A page behind
    [i_indir] is an array of 32-bit words.

    Reads return the bytes the code stores at [vaddr]; writes take the bytes it
    finds there.  Spinlocks are the set of the locks held; a sleep lock that is
    not free blocks the call. *)
From S2P Require Import Prelude ListLib Containers Bitmap Buddy PageAlloc Semaphore ObjCache Bio BlockDev Layout.

(** * Data *)

Definition S_DIRTY : Z := 1.
Definition I_DIRTY : Z := 1.
Definition I_VALID : Z := 2.
Definition SET_FLAG (flags flag : Z) : Z := Z.lor flags flag.
Definition CLEAR_FLAG (flags flag : Z) : Z := Z.ldiff flags flag.
Definition TEST_FLAG (flags flag : Z) : Z := Z.land flags flag.
Definition EASYFS_MAGIC : Z := 305419896.
Definition SUPER_BLOCK_LOCATION : Z := 1.

(** List nodes and heads, named after the members that hold them. *)
Inductive floc :=
| S_ihash (i : Z) | I_hnode (p : Z) | S_ilist | I_list (p : Z) | S_idirty_list | I_dirty (p : Z)
| S_dhash (i : Z) | D_hnode (d : Z) | S_dlist | D_list (d : Z) | S_ddirty_list | D_dirty (d : Z)
| D_child (d : Z) | D_sibling (d : Z).
#[global] Instance floc_eq_dec : EqDecision floc.
Proof. solve_decision. Defined.
#[global] Instance floc_countable : Countable floc.
Proof.
  refine (inj_countable'
    (λ l, match l with
       | S_ihash i => (0, i) | I_hnode p => (1, p) | S_ilist => (2, 0) | I_list p => (3, p)
       | S_idirty_list => (4, 0) | I_dirty p => (5, p) | S_dhash i => (6, i) | D_hnode d => (7, d)
       | S_dlist => (8, 0) | D_list d => (9, d) | S_ddirty_list => (10, 0) | D_dirty d => (11, d)
       | D_child d => (12, d) | D_sibling d => (13, d) end)
    (λ x, match x with
       | (0, i) => S_ihash i | (1, p) => I_hnode p | (2, _) => S_ilist | (3, p) => I_list p
       | (4, _) => S_idirty_list | (5, p) => I_dirty p | (6, i) => S_dhash i | (7, d) => D_hnode d
       | (8, _) => S_dlist | (9, d) => D_list d | (10, _) => S_ddirty_list | (11, d) => D_dirty d
       | (12, d) => D_child d | (_, d) => D_sibling d end) _).
  by intros [].
Defined.

(** [i_sb] is [&m_esb] or NULL; [i_indir] is a page or NULL. *)
Record easy_m_inode := MInode {
  i_di : easy_d_inode; i_slock : Mutex.mutex; i_refcnt : Z; i_flags : Z; i_sb : Z; i_indir : Z
}.
Definition set_i_di x (i : easy_m_inode) := MInode x (i_slock i) (i_refcnt i) (i_flags i) (i_sb i) (i_indir i).
Definition set_i_slock x (i : easy_m_inode) := MInode (i_di i) x (i_refcnt i) (i_flags i) (i_sb i) (i_indir i).
Definition set_i_refcnt x (i : easy_m_inode) := MInode (i_di i) (i_slock i) x (i_flags i) (i_sb i) (i_indir i).
Definition set_i_flags x (i : easy_m_inode) := MInode (i_di i) (i_slock i) (i_refcnt i) x (i_sb i) (i_indir i).
Definition set_i_indir x (i : easy_m_inode) := MInode (i_di i) (i_slock i) (i_refcnt i) (i_flags i) (i_sb i) x.

Record easy_dentry := Dentry {
  d_dd : easy_dirent; d_inode : Z; d_parent : Z; d_slock : Mutex.mutex; d_flags : Z; d_refcnt : Z
}.
Definition set_d_dd x (d : easy_dentry) := Dentry x (d_inode d) (d_parent d) (d_slock d) (d_flags d) (d_refcnt d).
Definition set_d_inode x (d : easy_dentry) := Dentry (d_dd d) x (d_parent d) (d_slock d) (d_flags d) (d_refcnt d).
Definition set_d_parent x (d : easy_dentry) := Dentry (d_dd d) (d_inode d) x (d_slock d) (d_flags d) (d_refcnt d).
Definition set_d_slock x (d : easy_dentry) := Dentry (d_dd d) (d_inode d) (d_parent d) x (d_flags d) (d_refcnt d).
Definition set_d_flags x (d : easy_dentry) := Dentry (d_dd d) (d_inode d) (d_parent d) (d_slock d) x (d_refcnt d).

(** Memory the slab has handed out before it is written. *)
Definition zero_di : easy_d_inode := DInode 0 0 0 0 0 (replicate 13 0) 0.
Definition zero_inode : easy_m_inode := MInode zero_di (Mutex.Mut 0 (sem_init 0) None) 0 0 0 0.
Definition zero_dentry : easy_dentry := Dentry (Dirent 0 0 (replicate 16 0)) 0 0 (Mutex.Mut 0 (sem_init 0) None) 0 0.

(** Static objects. *)
Definition M_ESB : Z := -3.
Definition root_m_inode : Z := -1.
Definition root_dentry : Z := -2.

(** The superblock [m_esb] with the bitmaps, and every object it leads to. *)
Record efs (P C B : Type) := Efs {
  s_bd : B;
  s_ds : easy_d_super_block;
  s_flags : Z;
  imap : Bmp.bitmap;
  bmap : Bmp.bitmap;
  s_ihash : Hash.hash_table floc;
  s_dhash : Hash.hash_table floc;
  nodes : gmap floc (node floc);
  inodes : gmap Z easy_m_inode;
  dentries : gmap Z easy_dentry;
  indirs : gmap Z (list Z);
  efs_locks : gset lockid;
  efs_inode_kmem_cache : C;
  efs_dentry_kmem_cache : C;
  pagea : P;
}.
Arguments Efs {P C B}.
Arguments s_bd {P C B}. Arguments s_ds {P C B}. Arguments s_flags {P C B}. Arguments imap {P C B}. Arguments bmap {P C B}. Arguments s_ihash {P C B}. Arguments s_dhash {P C B}. Arguments nodes {P C B}.
Arguments inodes {P C B}. Arguments dentries {P C B}. Arguments indirs {P C B}. Arguments efs_locks {P C B}. Arguments efs_inode_kmem_cache {P C B}. Arguments efs_dentry_kmem_cache {P C B}. Arguments pagea {P C B}.

Definition sb_lock : lockid := ("sb-lock"%string, 0).
Definition i_lock (p : Z) : lockid := ("i_lock"%string, p).
Definition d_lock (d : Z) : lockid := ("dentry"%string, d).

Section efs.
Context {P C B : Type} `{PageAllocLaws P} `{ObjCacheLaws C} `{BlockDevLaws B}.
Local Notation "'fs'" := (efs P C B).
Implicit Types (s : fs).

Definition set_bd x s : fs := Efs x (s_ds s) (s_flags s) (imap s) (bmap s) (s_ihash s) (s_dhash s) (nodes s)
  (inodes s) (dentries s) (indirs s) (efs_locks s) (efs_inode_kmem_cache s) (efs_dentry_kmem_cache s) (pagea s).
Definition set_ds x s : fs := Efs (s_bd s) x (s_flags s) (imap s) (bmap s) (s_ihash s) (s_dhash s) (nodes s)
  (inodes s) (dentries s) (indirs s) (efs_locks s) (efs_inode_kmem_cache s) (efs_dentry_kmem_cache s) (pagea s).
Definition set_sflags x s : fs := Efs (s_bd s) (s_ds s) x (imap s) (bmap s) (s_ihash s) (s_dhash s) (nodes s)
  (inodes s) (dentries s) (indirs s) (efs_locks s) (efs_inode_kmem_cache s) (efs_dentry_kmem_cache s) (pagea s).
Definition set_imap x s : fs := Efs (s_bd s) (s_ds s) (s_flags s) x (bmap s) (s_ihash s) (s_dhash s) (nodes s)
  (inodes s) (dentries s) (indirs s) (efs_locks s) (efs_inode_kmem_cache s) (efs_dentry_kmem_cache s) (pagea s).
Definition set_bmap x s : fs := Efs (s_bd s) (s_ds s) (s_flags s) (imap s) x (s_ihash s) (s_dhash s) (nodes s)
  (inodes s) (dentries s) (indirs s) (efs_locks s) (efs_inode_kmem_cache s) (efs_dentry_kmem_cache s) (pagea s).
Definition set_s_ihash x s : fs := Efs (s_bd s) (s_ds s) (s_flags s) (imap s) (bmap s) x (s_dhash s) (nodes s)
  (inodes s) (dentries s) (indirs s) (efs_locks s) (efs_inode_kmem_cache s) (efs_dentry_kmem_cache s) (pagea s).
Definition set_s_dhash x s : fs := Efs (s_bd s) (s_ds s) (s_flags s) (imap s) (bmap s) (s_ihash s) x (nodes s)
  (inodes s) (dentries s) (indirs s) (efs_locks s) (efs_inode_kmem_cache s) (efs_dentry_kmem_cache s) (pagea s).
Definition set_nodes x s : fs := Efs (s_bd s) (s_ds s) (s_flags s) (imap s) (bmap s) (s_ihash s) (s_dhash s) x
  (inodes s) (dentries s) (indirs s) (efs_locks s) (efs_inode_kmem_cache s) (efs_dentry_kmem_cache s) (pagea s).
Definition set_inodes x s : fs := Efs (s_bd s) (s_ds s) (s_flags s) (imap s) (bmap s) (s_ihash s) (s_dhash s)
  (nodes s) x (dentries s) (indirs s) (efs_locks s) (efs_inode_kmem_cache s) (efs_dentry_kmem_cache s) (pagea
  s).
Definition set_dentries x s : fs := Efs (s_bd s) (s_ds s) (s_flags s) (imap s) (bmap s) (s_ihash s) (s_dhash
  s) (nodes s) (inodes s) x (indirs s) (efs_locks s) (efs_inode_kmem_cache s) (efs_dentry_kmem_cache s) (pagea
  s).
Definition set_indirs x s : fs := Efs (s_bd s) (s_ds s) (s_flags s) (imap s) (bmap s) (s_ihash s) (s_dhash s)
  (nodes s) (inodes s) (dentries s) x (efs_locks s) (efs_inode_kmem_cache s) (efs_dentry_kmem_cache s) (pagea
  s).
Definition set_efs_locks x s : fs := Efs (s_bd s) (s_ds s) (s_flags s) (imap s) (bmap s) (s_ihash s) (s_dhash
  s) (nodes s) (inodes s) (dentries s) (indirs s) x (efs_inode_kmem_cache s) (efs_dentry_kmem_cache s) (pagea
  s).
Definition set_icache x s : fs := Efs (s_bd s) (s_ds s) (s_flags s) (imap s) (bmap s) (s_ihash s) (s_dhash s)
  (nodes s) (inodes s) (dentries s) (indirs s) (efs_locks s) x (efs_dentry_kmem_cache s) (pagea s).
Definition set_dcache x s : fs := Efs (s_bd s) (s_ds s) (s_flags s) (imap s) (bmap s) (s_ihash s) (s_dhash s)
  (nodes s) (inodes s) (dentries s) (indirs s) (efs_locks s) (efs_inode_kmem_cache s) x (pagea s).
Definition set_pagea x s : fs := Efs (s_bd s) (s_ds s) (s_flags s) (imap s) (bmap s) (s_ihash s) (s_dhash s)
  (nodes s) (inodes s) (dentries s) (indirs s) (efs_locks s) (efs_inode_kmem_cache s) (efs_dentry_kmem_cache s)
  x.

#[global] Instance efs_has_locks : HasLocks fs := {| locks := efs_locks; set_locks := set_efs_locks |}.

(** The running thread and the device number of the disk. *)
Variables me bd_dev : Z.

(** ** Accesses *)

Definition inode_at (p : Z) : M fs easy_m_inode := deref (λ s, inodes s !! p).
Definition inode_mod (p : Z) (f : easy_m_inode → easy_m_inode) : M fs unit :=
  update (λ s, i ← inodes s !! p; Some (set_inodes (<[p := f i]> (inodes s)) s)).
Definition di_mod (p : Z) (f : easy_d_inode → easy_d_inode) : M fs unit :=
  inode_mod p (λ i, set_i_di (f (i_di i)) i).
Definition node_do (f : gmap floc (node floc) → option (gmap floc (node floc))) : M fs unit :=
  update (λ s, h ← f (nodes s); Some (set_nodes h s)).
Definition node_empty (l : floc) : M fs bool := deref (λ s, list_empty l (nodes s)).
Definition dev_read (bno off len : Z) : M fs (list Z) := zoom s_bd set_bd (bd_read (u32 bno) (u32 off) len).
Definition dev_write (bno off : Z) (data : list Z) : M fs unit := zoom s_bd set_bd (bd_write (u32 bno) (u32 off) data).
(** [blk_read_count], [blk_write_count] *)
Definition dev_read_count (bno count : Z) : M fs (list Z) := dev_read bno 0 (u32 (count * BLK_SIZE)).
(** [sleep_on(&i->i_slock)], [wake_up(&i->i_slock)] *)
Definition i_sleep (p : Z) : M fs unit :=
  i ← inode_at p; l ← sleep_on me (i_slock i); inode_mod p (set_i_slock l).
Definition i_wake (p : Z) : M fs unit :=
  i ← inode_at p; l ← wake_up (i_slock i); inode_mod p (set_i_slock l).

(** * super.c: the bitmaps *)

Definition efs_imap_alloc : M fs Z :=
  no ← zoom imap set_imap Bmp.bitmap_alloc;
  if no =? -1 then panic else
  modify (λ s, set_ds (set_inode_free (i32 (inode_free (s_ds s) - 1)) (s_ds s)) s);;
  modify (λ s, set_sflags (SET_FLAG (s_flags s) S_DIRTY) s);;
  mret no.

Definition efs_imap_free (ino : Z) : M fs unit :=
  free ← zoom imap set_imap (Bmp.bitmap_is_free ino);
  if negb (free =? 0) then panic else
  modify (λ s, set_ds (set_inode_free (i32 (inode_free (s_ds s) + 1)) (s_ds s)) s);;
  zoom imap set_imap (Bmp.bitmap_free ino);;
  modify (λ s, set_sflags (SET_FLAG (s_flags s) S_DIRTY) s).

Definition efs_bmap_alloc : M fs Z :=
  no ← zoom bmap set_bmap Bmp.bitmap_alloc;
  if no =? -1 then panic else
  modify (λ s, set_ds (set_block_free (i32 (block_free (s_ds s) - 1)) (s_ds s)) s);;
  modify (λ s, set_sflags (SET_FLAG (s_flags s) S_DIRTY) s);;
  mret no.

Definition efs_bmap_free (bno : Z) : M fs unit :=
  free ← zoom bmap set_bmap (Bmp.bitmap_is_free bno);
  if negb (free =? 0) then panic else
  modify (λ s, set_ds (set_block_free (i32 (block_free (s_ds s) + 1)) (s_ds s)) s);;
  zoom bmap set_bmap (Bmp.bitmap_free bno);;
  modify (λ s, set_sflags (SET_FLAG (s_flags s) S_DIRTY) s).

(** * inode.c *)

Definition offset_ino (ino : Z) : M fs Z := gets (λ s, i32 (ino * inode_size (s_ds s))).

(** [i_di] keeps what the object's memory held. *)
Definition efs_i_alloc : M fs Z :=
  p ← zoom efs_inode_kmem_cache set_icache obj_alloc;
  if p =? 0 then panic else
  modify (λ s,
    let old := default zero_inode (inodes s !! p) in
    set_nodes (INIT_LIST_HEAD (I_dirty p) (INIT_LIST_HEAD (I_list p) (INIT_LIST_HEAD (I_hnode p) (nodes s))))
      (set_inodes (<[p := MInode (i_di old) sleep_init 0 0 M_ESB 0]> (inodes s)) s));;
  mret p.

(** [&inode->i_sb->s_idirty_list]: a fault through a NULL [i_sb]. *)
Definition efs_i_sdirty (p : Z) : M fs unit :=
  inode_mod p (λ i, set_i_flags (SET_FLAG (i_flags i) I_DIRTY) i);;
  clean ← node_empty (I_dirty p);
  if (clean : bool) then
    i ← inode_at p;
    if i_sb i =? M_ESB then node_do (list_add_head (I_dirty p) S_idirty_list) else fault
  else mret tt.

Definition efs_i_cdirty (p : Z) : M fs unit :=
  inode_mod p (λ i, set_i_flags (CLEAR_FLAG (i_flags i) I_DIRTY) i);;
  node_do (list_del_init (I_dirty p)).

Definition efs_i_addsb (p : Z) : M fs unit :=
  i ← inode_at p;
  update (λ s, '(t, h) ← Hash.hash_add_head (s_ihash s) (i_no (i_di i)) (I_hnode p) (nodes s);
    Some (set_s_ihash t (set_nodes h s)));;
  node_do (list_add_head (I_list p) S_ilist).

Definition efs_i_fill (p ino : Z) : M fs Z :=
  assert_ (0 <? ino);;
  off ← offset_ino ino;
  start ← gets (λ s, inode_area_start (s_ds s));
  data ← dev_read start off (Z.of_nat D_INODE_BYTES);
  di_mod p (λ _, decode_inode data);;
  mret 0.

Definition efs_i_update (p : Z) : M fs Z :=
  i ← inode_at p;
  assert_ (0 <? i_no (i_di i));;
  off ← offset_ino (i32 (i_no (i_di i)));
  start ← gets (λ s, inode_area_start (s_ds s));
  dev_write start off (encode_inode (i_di i));;
  (if i_indir i =? 0 then mret tt else
     addr ← deref (λ _ : fs, i_addrs (i_di i) !! NDIRECT);
     ws ← deref (λ s, indirs s !! i_indir i);
     dev_write addr 0 (encode_words ws));;
  mret 0.

(** [spin_lock(&m_esb.s_lock); bno = efs_bmap_alloc(); spin_unlock(...)] *)
Definition bmap_alloc_locked : M fs Z :=
  spin_lock sb_lock;;
  bno ← efs_bmap_alloc;
  spin_unlock sb_lock;;
  mret bno.

(** A slot of [i_addrs] and a word of the indirect page. *)
Definition addr_at (p : Z) (k : nat) : M fs Z := deref (λ s, i ← inodes s !! p; i_addrs (i_di i) !! k).
Definition set_addr (p : Z) (k : nat) (bno : Z) : M fs unit :=
  di_mod p (λ d, set_i_addrs (<[k := u32 bno]> (i_addrs d)) d).
Definition word_at (pg : Z) (k : nat) : M fs Z := deref (λ s, ws ← indirs s !! pg; ws !! k).
Definition set_word (pg : Z) (k : nat) (bno : Z) : M fs unit :=
  update (λ s, ws ← indirs s !! pg; Some (set_indirs (<[pg := <[k := u32 bno]> ws]> (indirs s)) s)).

(** The block behind slot [k] of [i_addrs], allocated on demand; 0 when there
    is none and none is wanted. *)
Definition slot_block (p : Z) (k : nat) (alloc : bool) : M fs Z :=
  a ← addr_at p k;
  if i32 a =? 0 then
    if alloc then bno ← bmap_alloc_locked; set_addr p k bno;; mret bno else mret 0
  else mret (i32 a).

(** [if (!inode->i_indir) ...] *)
Definition load_indir (p bno : Z) : M fs unit :=
  i ← inode_at p;
  if i_indir i =? 0 then
    pg ← zoom pagea set_pagea alloc_zeroed;
    inode_mod p (set_i_indir pg);;
    modify (λ s, set_indirs (<[pg := replicate NINDIRECT 0]> (indirs s)) s);;
    data ← dev_read_count bno 1;
    modify (λ s, set_indirs (<[pg := decode_words NINDIRECT data]> (indirs s)) s)
  else mret tt.

(** [blk[k] = efs_bmap_alloc(); bno = blk[k];] *)
Definition alloc_word (pg : Z) (k : nat) : M fs Z :=
  spin_lock sb_lock;;
  b ← efs_bmap_alloc;
  set_word pg k b;;
  spin_unlock sb_lock;;
  w ← word_at pg k;
  mret (i32 w).

Definition efs_i_bmap (p lbno : Z) (alloc : bool) : M fs Z :=
  if lbno <? 0 then panic
  else if lbno <? Z.of_nat NDIRECT then slot_block p (Z.to_nat lbno) alloc
  else
    let lbno := lbno - Z.of_nat NDIRECT in
    if lbno <? Z.of_nat NINDIRECT then
      bno ← slot_block p NDIRECT alloc;
      if bno =? 0 then mret 0 else
      load_indir p bno;;
      i ← inode_at p;
      w ← word_at (i_indir i) (Z.to_nat lbno);
      if w =? 0 then
        if alloc then alloc_word (i_indir i) (Z.to_nat lbno) else mret 0
      else mret (i32 w)
    else mret 0.

Definition efs_i_put (p : Z) : M fs unit :=
  i ← inode_at p;
  assert_ (0 <? i_refcnt i);;
  inode_mod p (λ i, set_i_refcnt (atomic_dec (i_refcnt i)) i).
Definition efs_i_dup (p : Z) : M fs unit :=
  inode_mod p (λ i, set_i_refcnt (atomic_inc (i_refcnt i)) i).

(** The key of an inode's hash node is its [i_no]. *)
Definition inode_key s (l : floc) : option Z :=
  match l with I_hnode p => i_no ∘ i_di <$> inodes s !! p | _ => None end.

Definition efs_i_find (ino : Z) : M fs (option Z) :=
  r ← deref (λ s, Hash.hash_find (inode_key s) (s_ihash s) ino (nodes s));
  match r with
  | None => mret None
  | Some (I_hnode p) => mret (Some p)
  | Some _ => fault
  end.

(** A new object for [ino], in the lists, its sleep lock held. *)
Definition get_new (ino : Z) : M fs Z :=
  p ← efs_i_alloc;
  di_mod p (λ d, DInode (u32 ino) (i_type d) (i_devno d) (i_pad d) (i_size d) (i_addrs d) (i_nlink d));;
  efs_i_addsb p;;
  i_sleep p;;
  mret p.

Definition efs_i_get (ino : Z) : M fs Z :=
  spin_lock sb_lock;;
  found ← efs_i_find ino;
  p ← match found with Some p => mret p | None => get_new ino end;
  spin_unlock sb_lock;;
  (match found with
   | None =>
       efs_i_fill p ino;;
       inode_mod p (λ i, set_i_flags (SET_FLAG (i_flags i) I_VALID) i);;
       i_wake p
   | Some _ =>
       i ← inode_at p;
       if TEST_FLAG (i_flags i) I_VALID =? 0 then i_sleep p;; i_wake p else mret tt
   end);;
  inode_mod p (λ i, set_i_refcnt (atomic_inc (i_refcnt i)) i);;
  mret p.

(** The loop of [efs_i_read]: the bytes stored at [vaddr] so far are [acc]. *)
Fixpoint read_loop (fuel : nat) (p offset len tot : Z) (acc : list Z) : M fs (Z * list Z) :=
  match fuel with
  | O => out_of_fuel
  | S fuel =>
      if tot <? len then
        bno ← efs_i_bmap p (offset / BLOCK_SIZE) false;
        if bno =? 0 then mret (tot, acc) else
        let m := Z.min (u32 (len - tot)) (BLOCK_SIZE - offset mod BLOCK_SIZE) in
        data ← dev_read bno (offset mod BLOCK_SIZE) m;
        read_loop fuel p (u32 (offset + m)) len (u32 (tot + m)) (acc ++ data)
      else mret (tot, acc)
  end.
(** The blocks a range of [len] bytes can touch, and the final test. *)
Definition io_fuel (len : Z) : nat := Z.to_nat (len / BLOCK_SIZE + 3).

Definition efs_i_read (p offset len : Z) : M fs (Z * list Z) :=
  i ← inode_at p;
  let sz := i_size (i_di i) in
  if (sz <? offset) || (u32 (offset + len) <? offset) then mret (0, []) else
  let len := if sz <? u32 (offset + len) then u32 (sz - offset) else len in
  i_sleep p;;
  r ← read_loop (io_fuel len) p offset len 0 [];
  i_wake p;;
  mret r.

(** The loop of [efs_i_write]: [data] is what is left at [vaddr]; the result is
    [tot] and the advanced [offset]. *)
Fixpoint write_loop (fuel : nat) (p offset len tot : Z) (data : list Z) : M fs (Z * Z) :=
  match fuel with
  | O => out_of_fuel
  | S fuel =>
      if tot <? len then
        bno ← efs_i_bmap p (offset / BLOCK_SIZE) true;
        if bno =? 0 then mret (tot, offset) else
        let m := Z.min (u32 (len - tot)) (BLOCK_SIZE - offset mod BLOCK_SIZE) in
        bytes ← deref (λ _ : fs, slice 0 (Z.to_nat m) data);
        dev_write bno (offset mod BLOCK_SIZE) bytes;;
        write_loop fuel p (u32 (offset + m)) len (u32 (tot + m)) (drop (Z.to_nat m) data)
      else mret (tot, offset)
  end.

(** The section under both spinlocks that ends [efs_i_write], [efs_i_trunc] and
    [efs_i_type]: an update of [i_di], then [efs_i_sdirty]. *)
Definition di_update (p : Z) (f : easy_d_inode → easy_d_inode) : M fs unit :=
  spin_lock sb_lock;;
  spin_lock (i_lock p);;
  di_mod p f;;
  efs_i_sdirty p;;
  spin_unlock (i_lock p);;
  spin_unlock sb_lock.

Definition efs_i_write (p offset len : Z) (data : list Z) : M fs Z :=
  i ← inode_at p;
  if (i_size (i_di i) <? offset) || (u32 (offset + len) <? offset) then mret (-1) else
  if MAXFILE * BLOCK_SIZE <? u32 (offset + len) then mret (-1) else
  i_sleep p;;
  '(tot, offset) ← write_loop (io_fuel len) p offset len 0 data;
  di_update p (λ d, if i_size d <? offset then set_i_size offset d else d);;
  i_wake p;;
  mret (i32 tot).

(** Both loops of [efs_i_data_free]: free up to the first zero entry. *)
Fixpoint free_until_zero (bnos : list Z) : M fs unit :=
  match bnos with
  | [] => mret tt
  | b :: bnos => if b =? 0 then mret tt else efs_bmap_free (i32 b);; free_until_zero bnos
  end.
Definition efs_i_data_free (p : Z) : M fs unit :=
  i ← inode_at p;
  free_until_zero (i_addrs (i_di i));;
  i ← inode_at p;
  if i_indir i =? 0 then mret tt else
  ws ← deref (λ s, indirs s !! i_indir i);
  free_until_zero ws.

Definition efs_i_trunc (p : Z) : M fs unit :=
  i_sleep p;;
  spin_lock sb_lock;;
  efs_i_data_free p;;
  spin_unlock sb_lock;;
  i_wake p;;
  di_update p (set_i_size 0).

Definition efs_i_new : M fs Z :=
  spin_lock sb_lock;;
  ino ← efs_imap_alloc;
  spin_unlock sb_lock;;
  p ← efs_i_alloc;
  di_mod p (λ d, DInode (u32 ino) F_NONE (u16 bd_dev) (i_pad d) 0 (replicate 13 0) 1);;
  inode_mod p (set_i_refcnt 0);;
  spin_lock sb_lock;;
  efs_i_sdirty p;;
  efs_i_addsb p;;
  spin_unlock sb_lock;;
  mret p.

Definition efs_i_unlink (p : Z) : M fs Z :=
  if p =? 0 then mret (-1) else
  i ← inode_at p;
  if i_no (i_di i) <=? 1 then mret (-1) else
  let '(n, zero) := atomic_dec_and_test (i_nlink (i_di i)) in
  di_mod p (set_i_nlink n);;
  if zero then
    i ← inode_at p;
    if 0 <? i_refcnt i then
      di_mod p (λ d, set_i_nlink (atomic_inc (i_nlink d)) d);;
      mret (-1)
    else
      efs_i_trunc p;;
      spin_lock sb_lock;;
      i ← inode_at p;
      efs_imap_free (i32 (i_no (i_di i)));;
      spin_unlock sb_lock;;
      mret 0
  else mret 0.

Definition efs_i_size (p : Z) : M fs Z := i ← inode_at p; mret (i32 (i_size (i_di i))).

Definition efs_i_type (p ftype : Z) : M fs unit := di_update p (set_i_type ftype).

Definition efs_i_root_init : M fs unit :=
  off ← offset_ino 1;
  start ← gets (λ s, inode_area_start (s_ds s));
  data ← dev_read start off (Z.of_nat D_INODE_BYTES);
  let d := decode_inode data in
  assert_ (i_no d =? 1);;
  modify (λ s,
    set_nodes (INIT_LIST_HEAD (I_dirty root_m_inode) (INIT_LIST_HEAD (I_list root_m_inode)
        (INIT_LIST_HEAD (I_hnode root_m_inode) (nodes s))))
      (set_inodes (<[root_m_inode :=
        MInode d sleep_init 1 (SET_FLAG 0 I_VALID) M_ESB (i_indir (default zero_inode (inodes s !! root_m_inode)))]>
        (inodes s)) s));;
  efs_i_addsb root_m_inode.

(** * super.c: mounting *)

(** [memcpy] of [data] into the words of a zeroed page block of [n] bytes. *)
Definition words64 (data : list Z) (n : Z) : option (list Z) :=
  if Z.of_nat (length data) <=? n then
    Some ((λ i, field (8 * i) 8 data) <$> seq 0 (Z.to_nat (n / 8)))
  else None.
Definition encode_words64 (ws : list Z) : list Z := ws ≫= le 8.

(** [efs_fill_imap] and [efs_fill_bmap]: [n] is the size in bytes of the pages
    allocated for the map. *)
Definition fill_map (n map_start area_start count free : Z) (wr : Bmp.bitmap → fs → fs) (rd : fs → Bmp.bitmap) :
    M fs unit :=
  data ← dev_read_count map_start (i32 (area_start - map_start));
  ws ← deref (λ _ : fs, words64 data n);
  modify (wr (Bmp.bitmap_init_zone ws count));;
  zoom rd wr (Bmp.bitmap_reset_allo 1);;
  zoom rd wr (Bmp.bitmap_reset_unused free).

Definition efs_fill_imap : M fs unit :=
  pg ← zoom pagea set_pagea alloc_zeroed;
  assert_ (negb (pg =? 0));;
  d ← gets s_ds;
  fill_map PGSIZE (inode_map_start d) (inode_area_start d) (inode_count d) (inode_free d) set_imap imap.

(** [alloc4] is [__alloc_pages(0, 4)], sixteen contiguous pages.  It does not clear
    them, so the words behind the data read are zero here and old memory in the
    kernel; the map's operations look at the first [block_count] bits only, which
    the data read covers. *)
Definition efs_fill_bmap (alloc4 : M P Z) : M fs unit :=
  pg ← zoom pagea set_pagea alloc4;
  assert_ (negb (pg =? 0));;
  d ← gets s_ds;
  fill_map (16 * PGSIZE) (block_map_start d) (block_area_start d) (block_count d) (block_free d) set_bmap bmap.

Definition efs_sb_read : M fs unit :=
  data ← dev_read SUPER_BLOCK_LOCATION 0 (Z.of_nat D_SUPER_BYTES);
  modify (set_ds (decode_super data)).

(** [ih] and [dh]: whether [kmalloc] gave the two tables their heads. *)
Definition efs_sb_fill (alloc4 : M P Z) (ih dh : bool) : M fs unit :=
  d ← gets s_ds;
  if negb (magic d =? EASYFS_MAGIC) then panic else
  modify (set_sflags 0);;
  modify (λ s,
    let heads (f : Z → floc) (ok : bool) := if ok then Some (f ∘ Z.of_nat <$> seq 0 41) else None in
    let '(_, ti, h) := Hash.hash_init 41 [] (heads S_ihash ih) (nodes s) in
    let '(_, td, h) := Hash.hash_init 41 [] (heads S_dhash dh) h in
    set_s_ihash ti (set_s_dhash td (set_nodes
      (INIT_LIST_HEAD S_ddirty_list (INIT_LIST_HEAD S_idirty_list (INIT_LIST_HEAD S_dlist (INIT_LIST_HEAD S_ilist h)))) s)));;
  efs_fill_imap;;
  efs_fill_bmap alloc4.

(** Without the last call, [kthread_create(efs_sync, ...)]: the body of that thread
    is [efs_sync] in Dentry, its creation in Proc. *)
Definition efs_sb_init (alloc4 : M P Z) (ih dh : bool) : M fs unit :=
  efs_sb_read;; efs_sb_fill alloc4 ih dh.
End efs.
