(* ===== verification/EfsFile.v ===== *)
(** The contents of a file: [efs_i_bmap], [efs_i_read] and [efs_i_write]
    (fs/easyfs/inode.c) against the bytes of the block device.

    [slots f s i] are the data blocks of an inode in the order of the file, 0
    where none is mapped; [fbyte f s i a] is the byte at offset [a] of the file.
    [fs_ok] and [inode_ok] are the invariant: mapped blocks are pairwise
    distinct and in use in the block bitmap, and free blocks hold zeros. *)
From S2P Require Import Prelude ListLib Containers Bitmap Buddy PageAlloc Semaphore ObjCache Bio BlockDev Layout Efs.

#[local] Arguments replicate : simpl never.
#[local] Arguments decode_words : simpl never.

(** * Bytes of the device *)

Definition disk_bytes (f : Z → option Z) (a : Z) (n : nat) : list Z :=
  (λ i, default 0 (f (a + Z.of_nat i))) <$> seq 0 n.
Definition disk_words (f : Z → option Z) (b : Z) : list Z :=
  decode_words NINDIRECT (disk_bytes f (b * BLOCK_SIZE) (Z.to_nat BLOCK_SIZE)).

Lemma length_disk_bytes f a n : length (disk_bytes f a n) = n.
Proof. unfold disk_bytes. by rewrite length_fmap, length_seq. Qed.

Lemma disk_bytes_lookup f a n i : (i < n)%nat → disk_bytes f a n !! i = Some (default 0 (f (a + Z.of_nat i))).
Proof. intros Hi. unfold disk_bytes. by rewrite list_lookup_fmap, lookup_seq_lt. Qed.

Lemma disk_bytes_ext f g a n :
  (∀ x, a <= x < a + Z.of_nat n → f x = g x) → disk_bytes f a n = disk_bytes g a n.
Proof.
  intros Hfg. apply list_fmap_ext. intros i x Hx. apply lookup_seq in Hx as [-> Hi]. by rewrite Hfg by lia.
Qed.

Lemma disk_words_ext f g b :
  (∀ x, b * BLOCK_SIZE <= x < (b + 1) * BLOCK_SIZE → f x = g x) → disk_words f b = disk_words g b.
Proof. intros Hfg. unfold disk_words. f_equal. apply disk_bytes_ext. unfold BLOCK_SIZE in *. intros; apply Hfg. lia. Qed.

Lemma length_disk_words f b : length (disk_words f b) = NINDIRECT.
Proof. apply length_decode_words. Qed.

Lemma fwrite_other start data f a :
  ¬ (start <= a < start + Z.of_nat (length data)) → fwrite start data f a = f a.
Proof. intros. unfold fwrite. by rewrite decide_False. Qed.

(** A write inside block [b] leaves the other blocks alone. *)
Lemma fwrite_block b o data f b' o' :
  0 <= o → o + Z.of_nat (length data) <= BLOCK_SIZE → 0 <= o' < BLOCK_SIZE → b' ≠ b →
  fwrite (b * BLOCK_SIZE + o) data f (b' * BLOCK_SIZE + o') = f (b' * BLOCK_SIZE + o').
Proof. unfold BLOCK_SIZE. intros. apply fwrite_other. nia. Qed.

Lemma fwrite_here b o data f o' :
  fwrite (b * BLOCK_SIZE + o) data f (b * BLOCK_SIZE + o') =
    if decide (o <= o' < o + Z.of_nat (length data)) then data !! Z.to_nat (o' - o) else f (b * BLOCK_SIZE + o').
Proof.
  unfold fwrite. destruct (decide (o <= o' < _)); [rewrite decide_True by lia; f_equal; lia|by rewrite decide_False by lia].
Qed.

Section file.
Context {P C B : Type} `{PageAllocLaws P} `{ObjCacheLaws C} `{BlockDevLaws B}.
Local Notation "'fs'" := (efs P C B).
Implicit Types (s : fs) (i : easy_m_inode) (f : Z → option Z).

(** * The invariant *)

Definition addr12 i : Z := default 0 (i_addrs (i_di i) !! NDIRECT).
Definition ind_words f s i : list Z :=
  if decide (addr12 i = 0) then replicate NINDIRECT 0
  else if decide (i_indir i = 0) then disk_words f (addr12 i)
  else default [] (indirs s !! i_indir i).
Definition slots f s i : list Z := take NDIRECT (i_addrs (i_di i)) ++ ind_words f s i.
(** Every block of the inode: those of the file and the indirect one. *)
Definition all_blocks f s i : list Z := addr12 i :: slots f s i.

Definition fbyte f s i (a : Z) : option Z :=
  b ← slots f s i !! Z.to_nat (a / BLOCK_SIZE);
  if b =? 0 then None else f (b * BLOCK_SIZE + a mod BLOCK_SIZE).

Record inode_ok (lo : Z) f s i : Prop := {
  io_len : length (i_addrs (i_di i)) = 13%nat;
  io_page : i_indir i ≠ 0 → addr12 i ≠ 0 ∧ ∃ ws, indirs s !! i_indir i = Some ws ∧ length ws = NINDIRECT;
  io_inj : ∀ j k b, all_blocks f s i !! j = Some b → all_blocks f s i !! k = Some b → b ≠ 0 → j = k;
  io_used : ∀ b, b ∈ all_blocks f s i → b ≠ 0 → lo <= b < Bmp.size (bmap s) ∧ Bmp.used (bmap s) b = true;
}.

Record fs_ok (lo N K : Z) f (X : gset Z) s : Prop := {
  fo_dev : bd_rep (s_bd s) N K f;
  fo_K : 1 <= K;
  fo_map : Bmp.bitmap_wf lo (bmap s);
  fo_lo : 0 < lo;
  fo_size : Bmp.size (bmap s) <= N ∧ Bmp.size (bmap s) < 2 ^ 31;
  fo_zero : ∀ b, lo <= b < Bmp.size (bmap s) → Bmp.used (bmap s) b = false → disk_words f b = replicate NINDIRECT 0;
  fo_lock : sb_lock ∉ efs_locks s;
  fo_pages : page_rep (pagea s) X;
}.

(** What the operations on one file leave alone. *)
Record same_rest s s' : Prop := {
  sr_imap : imap s' = imap s;
  sr_ihash : s_ihash s' = s_ihash s;
  sr_dhash : s_dhash s' = s_dhash s;
  sr_nodes : nodes s' = nodes s;
  sr_dentries : dentries s' = dentries s;
  sr_locks : efs_locks s' = efs_locks s;
  sr_icache : efs_inode_kmem_cache s' = efs_inode_kmem_cache s;
  sr_dcache : efs_dentry_kmem_cache s' = efs_dentry_kmem_cache s;
  sr_ds : ∃ x, s_ds s' = set_block_free x (s_ds s);
}.
Lemma ds_same (d : easy_d_super_block) : d = set_block_free (block_free d) d.
Proof. by destruct d. Qed.
Lemma fs_rest_refl s : same_rest s s.
Proof. split; try done. exists (block_free (s_ds s)). by destruct (s_ds s). Qed.
Lemma fs_rest_trans s1 s2 s3 : same_rest s1 s2 → same_rest s2 s3 → same_rest s1 s3.
Proof.
  intros [] [? ? ? ? ? ? ? ? [x Ex]]. split; try congruence.
  destruct sr_ds0 as [y Ey]. exists x. by rewrite Ex, Ey.
Qed.

(** ** The block bitmap *)

Lemma bmap_alloc_ok lo s :
  Bmp.bitmap_wf lo (bmap s) → 0 <= lo → Bmp.unused (bmap s) ≠ 0 →
  ∃ t s', efs_bmap_alloc s = Done t s' ∧ same_rest s s' ∧ s_bd s' = s_bd s ∧ inodes s' = inodes s ∧
    indirs s' = indirs s ∧ pagea s' = pagea s ∧ Bmp.bitmap_wf lo (bmap s') ∧
    lo <= t < Bmp.size (bmap s) ∧ Bmp.used (bmap s) t = false ∧ Bmp.size (bmap s') = Bmp.size (bmap s) ∧
    Bmp.unused (bmap s') = Bmp.unused (bmap s) - 1 ∧
    (∀ k, 0 <= k → Bmp.used (bmap s') k = if decide (k = t) then true else Bmp.used (bmap s) k) ∧
    ∀ j, lo <= j < t → Bmp.used (bmap s) j = true.
Proof.
  intros Hwf Hlo Hu.
  destruct (Bmp.bitmap_alloc_correct lo (bmap s) Hwf) as [_ Ha].
  destruct (Ha Hu) as (t & b' & E & Ht & Hf & Hleast & Hk & Hs & Hun & Hwf').
  exists t. eexists. split.
  { unfold efs_bmap_alloc. erewrite bind_Done; [|unfold zoom; rewrite E; reflexivity].
    destruct (Z.eqb_spec t (-1)); [lia|]. reflexivity. }
  split; [split; try done; by eexists|]. split_and!; done || lia.
Qed.

Lemma bmap_alloc_locked_ok lo s :
  Bmp.bitmap_wf lo (bmap s) → 0 <= lo → Bmp.unused (bmap s) ≠ 0 → sb_lock ∉ efs_locks s →
  ∃ t s', bmap_alloc_locked s = Done t s' ∧ same_rest s s' ∧ s_bd s' = s_bd s ∧ inodes s' = inodes s ∧
    indirs s' = indirs s ∧ pagea s' = pagea s ∧ Bmp.bitmap_wf lo (bmap s') ∧
    lo <= t < Bmp.size (bmap s) ∧ Bmp.used (bmap s) t = false ∧ Bmp.size (bmap s') = Bmp.size (bmap s) ∧
    Bmp.unused (bmap s') = Bmp.unused (bmap s) - 1 ∧
    (∀ k, 0 <= k → Bmp.used (bmap s') k = if decide (k = t) then true else Bmp.used (bmap s) k) ∧
    ∀ j, lo <= j < t → Bmp.used (bmap s) j = true.
Proof.
  intros Hwf Hlo Hu Hl.
  set (s1 := set_efs_locks ({[sb_lock]} ∪ efs_locks s) s).
  destruct (bmap_alloc_ok lo s1 Hwf Hlo Hu) as (t & s2 & E & [R1 R2 R3 R4 R5 R6 R7 R8 R9] & Hrest).
  exists t, (set_efs_locks (efs_locks s) s2). split.
  - unfold bmap_alloc_locked. erewrite bind_Done; [|unfold spin_lock; simpl; by rewrite decide_False].
    fold s1. rewrite (bind_Done _ _ _ _ _ E). erewrite bind_Done; [done|].
    unfold spin_unlock. simpl. rewrite R6. simpl. rewrite decide_True by set_solver.
    by rewrite lock_unlock_locks.
  - split; [split; done|]. exact Hrest.
Qed.

(** ** The device *)

Lemma dev_read_ok N K f s bno off len :
  bd_rep (s_bd s) N K f → 1 <= K → 0 <= bno → 0 <= off → 0 < len → off + len <= BLOCK_SIZE → bno < N →
  ∃ b', dev_read bno off len s = Done (disk_bytes f (bno * BLOCK_SIZE + off) (Z.to_nat len)) (set_bd b' s) ∧
    bd_rep b' N K f.
Proof.
  intros Hr HK Hb Ho Hl He HN. pose proof (bd_size _ _ _ _ Hr). unfold BLOCK_SIZE in *.
  assert (Hrange : bd_range N K bno off len).
  { unfold bd_range, is_u32, blocks_of, BLK_SIZE. split_and!; try lia.
    destruct (Z.eqb_spec len 0); [lia|]. rewrite Z.mod_small by lia.
    assert ((off + len - 1) / 4096 = 0) as ->; [apply Z.div_small; lia|lia]. }
  destruct (bd_read_ok _ _ _ _ _ _ _ Hr Hrange) as (d & b' & E & Hlen & Hd & Hr').
  exists b'. split; [|done]. unfold dev_read, zoom. rewrite !u32_small by lia. rewrite E. f_equal.
  apply list_eq. intros k. destruct (decide (Z.of_nat k < len)) as [Hk|Hk].
  - rewrite disk_bytes_lookup by lia. rewrite Hd by done. unfold BLK_SIZE.
    destruct (bd_dom _ _ _ _ (bno * 4096 + off + Z.of_nat k) Hr) as [x ->]; [unfold BLK_SIZE; lia|done].
  - rewrite !lookup_ge_None_2; [done|rewrite length_disk_bytes; lia|lia].
Qed.

Lemma dev_write_ok N K f s bno off data :
  bd_rep (s_bd s) N K f → 1 <= K → 0 <= bno → 0 <= off → data ≠ [] →
  off + Z.of_nat (length data) <= BLOCK_SIZE → bno < N →
  ∃ b', dev_write bno off data s = Done tt (set_bd b' s) ∧
    bd_rep b' N K (fwrite (bno * BLOCK_SIZE + off) data f).
Proof.
  intros Hr HK Hb Ho Hl He HN. pose proof (bd_size _ _ _ _ Hr). unfold BLOCK_SIZE in *.
  assert (length data ≠ 0%nat) by by destruct data.
  assert (Hrange : bd_range N K bno off (Z.of_nat (length data))).
  { unfold bd_range, is_u32, blocks_of, BLK_SIZE. split_and!; try lia.
    destruct (Z.eqb_spec (Z.of_nat (length data)) 0); [lia|]. rewrite Z.mod_small by lia.
    assert ((off + Z.of_nat (length data) - 1) / 4096 = 0) as ->; [apply Z.div_small; lia|lia]. }
  destruct (bd_write_ok _ _ _ _ _ _ _ Hr Hrange) as (b' & E & Hr').
  exists b'. split; [|done]. unfold dev_write, zoom. rewrite !u32_small by lia. by rewrite E.
Qed.

(** ** One more block *)

Lemma length_ind_words lo f s i : inode_ok lo f s i → length (ind_words f s i) = NINDIRECT.
Proof.
  intros Hi. unfold ind_words. case_decide; [by rewrite length_replicate|]. case_decide; [apply length_disk_words|].
  destruct (io_page _ _ _ _ Hi) as [_ (ws & -> & Hl)]; done.
Qed.
Lemma length_slots lo f s i : inode_ok lo f s i → length (slots f s i) = Z.to_nat MAXFILE.
Proof.
  intros Hi. unfold slots. rewrite length_app, (length_ind_words _ _ _ _ Hi), length_take, (io_len _ _ _ _ Hi). done.
Qed.

(** A block that becomes used. *)
Record block_taken (lo t : Z) s s' : Prop := {
  bt_range : lo <= t < Bmp.size (bmap s);
  bt_free : Bmp.used (bmap s) t = false;
  bt_size : Bmp.size (bmap s') = Bmp.size (bmap s);
  bt_used : ∀ k, 0 <= k → Bmp.used (bmap s') k = if decide (k = t) then true else Bmp.used (bmap s) k;
}.

Lemma inode_ok_take lo f s i s' i' j t :
  inode_ok lo f s i → block_taken lo t s s' → 0 < lo → (j < length (all_blocks f s i))%nat →
  all_blocks f s' i' = <[j := t]> (all_blocks f s i) →
  length (i_addrs (i_di i')) = 13%nat →
  (i_indir i' ≠ 0 → addr12 i' ≠ 0 ∧ ∃ ws, indirs s' !! i_indir i' = Some ws ∧ length ws = NINDIRECT) →
  inode_ok lo f s' i'.
Proof.
  intros Hi [Ht Hf Hs Hu] Hlo Hj E Hl Hp.
  assert (Hnt : t ∉ all_blocks f s i).
  { intros Hin. destruct (io_used _ _ _ _ Hi t Hin) as [_ Hx]; [lia|]. by rewrite Hf in Hx. }
  split; [done|done| |].
  - rewrite E. intros a b x Ha Hb Hx. rewrite list_lookup_insert in Ha, Hb.
    repeat case_decide; deex; simplify_eq; try lia.
    + destruct Hnt. by eapply list_elem_of_lookup_2.
    + destruct Hnt. by eapply list_elem_of_lookup_2.
    + by eapply (io_inj _ _ _ _ Hi).
  - rewrite E, Hs. intros b [a Ha]%list_elem_of_lookup Hb. rewrite list_lookup_insert in Ha.
    case_decide; deex; simplify_eq.
    + rewrite Hu, decide_True by lia. done.
    + apply list_elem_of_lookup_2 in Ha. destruct (io_used _ _ _ _ Hi b Ha Hb) as [? Hub]. split; [done|].
      rewrite Hu by lia. by rewrite Hub; case_decide.
Qed.

Lemma fs_ok_take lo N K f X s s' t :
  fs_ok lo N K f X s → block_taken lo t s s' → Bmp.bitmap_wf lo (bmap s') → s_bd s' = s_bd s →
  efs_locks s' = efs_locks s → pagea s' = pagea s → fs_ok lo N K f X s'.
Proof.
  intros [F1 F2 F3 F4 F5 F6 F7 F8] [Ht Hf Hs Hu] Hwf Eb El Ep. split; rewrite ?Eb, ?El, ?Ep, ?Hs; try done.
  intros b Hb Hub. apply F6; [done|]. rewrite Hu in Hub by lia. by case_decide.
Qed.

(** The indirect words do not depend on what changes elsewhere. *)
Lemma ind_words_ext f s s' i i' :
  addr12 i' = addr12 i → i_indir i' = i_indir i → indirs s' !! i_indir i = indirs s !! i_indir i →
  ind_words f s' i' = ind_words f s i.
Proof. intros E1 E2 E3. unfold ind_words. by rewrite E1, E2, E3. Qed.

(** What [efs_i_bmap] does to the inode [p]. *)
Record grown (lo N K p : Z) f (X : gset Z) s i f' (X' : gset Z) s' i' : Prop := {
  gr_rest : same_rest s s';
  gr_inodes : inodes s' = <[p := i']> (inodes s);
  gr_fs : fs_ok lo N K f' X' s';
  gr_pages : X' ⊆ X;
  gr_room : X ≠ ∅ ∨ i_indir i ≠ 0 → X' ≠ ∅ ∨ i_indir i' ≠ 0;
  gr_inode : inode_ok lo f' s' i';
  gr_self : i' = set_i_indir (i_indir i') (set_i_di (set_i_addrs (i_addrs (i_di i')) (i_di i)) i);
  gr_size : Bmp.size (bmap s') = Bmp.size (bmap s);
  gr_used : ∀ b, 0 <= b → Bmp.used (bmap s) b = true → Bmp.used (bmap s') b = true;
  gr_indirs : ∀ pg, pg ∉ X → pg ≠ i_indir i → indirs s' !! pg = indirs s !! pg;
  gr_blocks : ∀ b, b ∈ all_blocks f' s' i' → b ≠ 0 → b ∈ all_blocks f s i ∨ Bmp.used (bmap s) b = false;
  gr_indir : i_indir i' = i_indir i ∨ (i_indir i = 0 ∧ i_indir i' ∈ X);
}.

Arguments gr_rest {_ _ _ _ _ _ _ _ _ _ _ _} _.
Arguments gr_inodes {_ _ _ _ _ _ _ _ _ _ _ _} _.
Arguments gr_fs {_ _ _ _ _ _ _ _ _ _ _ _} _.
Arguments gr_pages {_ _ _ _ _ _ _ _ _ _ _ _} _.
Arguments gr_room {_ _ _ _ _ _ _ _ _ _ _ _} _.
Arguments gr_inode {_ _ _ _ _ _ _ _ _ _ _ _} _.
Arguments gr_self {_ _ _ _ _ _ _ _ _ _ _ _} _.
Arguments gr_size {_ _ _ _ _ _ _ _ _ _ _ _} _.
Arguments gr_used {_ _ _ _ _ _ _ _ _ _ _ _} _.
Arguments gr_indirs {_ _ _ _ _ _ _ _ _ _ _ _} _.
Arguments gr_blocks {_ _ _ _ _ _ _ _ _ _ _ _} _.
Arguments gr_indir {_ _ _ _ _ _ _ _ _ _ _ _} _.

Lemma grown_refl lo N K f X p s i :
  fs_ok lo N K f X s → inode_ok lo f s i → inodes s !! p = Some i → grown lo N K p f X s i f X s i.
Proof.
  intros Hf Hi Ei. split; try done.
  - apply fs_rest_refl.
  - by rewrite insert_id.
  - by destruct i as [[] ? ? ? ? ?].
  - intros; by left.
  - by left.
Qed.

Lemma grown_take lo N K f X p s i s' i' j t :
  fs_ok lo N K f X s → inode_ok lo f s i → block_taken lo t s s' → (j < length (all_blocks f s i))%nat →
  all_blocks f s' i' = <[j := t]> (all_blocks f s i) → length (i_addrs (i_di i')) = 13%nat →
  (i_indir i' ≠ 0 → addr12 i' ≠ 0 ∧ ∃ ws, indirs s' !! i_indir i' = Some ws ∧ length ws = NINDIRECT) →
  Bmp.bitmap_wf lo (bmap s') → s_bd s' = s_bd s → pagea s' = pagea s → i_indir i' = i_indir i →
  same_rest s s' → inodes s' = <[p := i']> (inodes s) →
  i' = set_i_indir (i_indir i') (set_i_di (set_i_addrs (i_addrs (i_di i')) (i_di i)) i) →
  (∀ pg, pg ≠ i_indir i → indirs s' !! pg = indirs s !! pg) →
  grown lo N K p f X s i f X s' i'.
Proof.
  intros Hf Hi Hb Hj Ea Hl Hp Hwf Ebd Epg Ein Hr Eis Eself Epages. split; try done.
  - eapply fs_ok_take; [done|done|done|done|apply (sr_locks _ _ Hr)|done].
  - by rewrite Ein.
  - eapply inode_ok_take; [done|done|apply (fo_lo _ _ _ _ _ _ Hf)|done..].
  - apply (bt_size _ _ _ _ Hb).
  - intros b Hb0 Hu. rewrite (bt_used _ _ _ _ Hb) by done. rewrite Hu. by case_decide.
  - intros pg _. apply Epages.
  - intros b [k Hk]%list_elem_of_lookup Hb0. rewrite Ea, list_lookup_insert in Hk. case_decide; deex; simplify_eq.
    + right. apply (bt_free _ _ _ _ Hb).
    + left. by eapply list_elem_of_lookup_2.
  - by left.
Qed.

Lemma grown_trans lo N K p f X s i f1 X1 s1 i1 f2 X2 s2 i2 :
  0 < lo → grown lo N K p f X s i f1 X1 s1 i1 → grown lo N K p f1 X1 s1 i1 f2 X2 s2 i2 →
  grown lo N K p f X s i f2 X2 s2 i2.
Proof.
  intros Hlo [A1 A2 A3 A4 A5 A6 A7 A8 A9 A10 A11 A12] [B1 B2 B3 B4 B5 B6 B7 B8 B9 B10 B11 B12].
  split; try done.
  - by eapply fs_rest_trans.
  - rewrite B2, A2. apply insert_insert_eq.
  - by transitivity X1.
  - auto.
  - rewrite B7, A7. by destruct i as [[] ? ? ? ? ?].
  - congruence.
  - auto.
  - intros pg Hp Hn. rewrite B10, A10; [done|done|done|by intros Hx%A4|].
    destruct A12 as [->|[? ?]]; [done|by intros ->].
  - intros b Hb Hn. destruct (B11 b Hb Hn) as [Hb1|Hu]; [by apply A11|]. right.
    destruct (io_used _ _ _ _ B6 b Hb Hn) as [Hr _].
    destruct (Bmp.used (bmap s) b) eqn:E; [|done]. rewrite A9 in Hu; [done|lia|done].
  - destruct A12 as [E1|[E1 E2]], B12 as [E3|[E3 E4]].
    + left. congruence.
    + right. split; [congruence|by apply A4].
    + right. by rewrite E3.
    + right. split; [done|by apply A4].
Qed.

(** ** [slot_block] *)

Lemma inode_mod_ok p g i s :
  inodes s !! p = Some i → inode_mod p g s = Done tt (set_inodes (<[p := g i]> (inodes s)) s).
Proof. intros E. unfold inode_mod, update. by rewrite E. Qed.
Lemma inode_at_ok p i s : inodes s !! p = Some i → inode_at p s = Done i s.
Proof. intros E. unfold inode_at, deref. by rewrite E. Qed.

(** The position of slot [k] of [i_addrs] in [all_blocks]. *)
Definition slot_index (k : nat) : nat := if decide (k = NDIRECT) then 0%nat else S k.

Lemma all_blocks_addr f s i k a :
  length (i_addrs (i_di i)) = 13%nat → (k < 13)%nat → i_addrs (i_di i) !! k = Some a →
  all_blocks f s i !! slot_index k = Some a.
Proof.
  intros Hl Hk Ea. unfold slot_index, all_blocks, slots. case_decide as Hd.
  - subst k. simpl. unfold addr12. by rewrite Ea.
  - simpl. unfold NDIRECT in *. rewrite lookup_app_l by (rewrite length_take; lia).
    by rewrite lookup_take_lt by lia.
Qed.

Lemma block_small lo N K f X s i b :
  fs_ok lo N K f X s → inode_ok lo f s i → b ∈ all_blocks f s i → i32 b = b ∧ u32 b = b ∧ (b ≠ 0 → 0 < b < N).
Proof.
  intros Hf Hi Hb. destruct (decide (b = 0)) as [->|Hn]; [done|].
  destruct (io_used _ _ _ _ Hi b Hb Hn) as [Hr _]. pose proof (fo_lo _ _ _ _ _ _ Hf).
  pose proof (fo_size _ _ _ _ _ _ Hf). rewrite i32_small, u32_small by lia. split_and!; done || lia.
Qed.

(** Changing slot [k] of [i_addrs], with an indirect block that is zero when it
    becomes the one pointed to. *)
Lemma all_blocks_set_addr f s s' i k t :
  length (i_addrs (i_di i)) = 13%nat → (k < 13)%nat → i_addrs (i_di i) !! k = Some 0 → t ≠ 0 →
  (i_indir i ≠ 0 → addr12 i ≠ 0) → indirs s' = indirs s → disk_words f t = replicate NINDIRECT 0 →
  all_blocks f s' (set_i_di (set_i_addrs (<[k := t]> (i_addrs (i_di i))) (i_di i)) i) =
    <[slot_index k := t]> (all_blocks f s i).
Proof.
  intros Hl Hk E0 Ht Hin Eind Hz. unfold slot_index, all_blocks, slots, ind_words, addr12 in *. simpl.
  rewrite Eind. destruct (decide (k = NDIRECT)) as [Hd|Hd].
  - subst k. rewrite list_lookup_insert_eq by lia. rewrite E0 in *. simpl in *.
    rewrite take_insert_ge by done. f_equal. f_equal. rewrite decide_False by done.
    destruct (decide (i_indir i = 0)); [done|]. by destruct Hin.
  - rewrite list_lookup_insert_ne by done. rewrite take_insert_lt by (unfold NDIRECT in *; lia).
    rewrite <-insert_app_l; [done|]. rewrite length_take. unfold NDIRECT in *. lia.
Qed.

Lemma slot_block_ok lo N K f X p s i k a :
  fs_ok lo N K f X s → inode_ok lo f s i → inodes s !! p = Some i → (k < 13)%nat →
  i_addrs (i_di i) !! k = Some a → (a = 0 → Bmp.unused (bmap s) ≠ 0) →
  ∃ bno s' i', slot_block p k true s = Done bno s' ∧ grown lo N K p f X s i f X s' i' ∧ bno ≠ 0 ∧
    i_addrs (i_di i') = <[k := bno]> (i_addrs (i_di i)) ∧ i_indir i' = i_indir i ∧
    Bmp.unused (bmap s') = Bmp.unused (bmap s) - (if decide (a = 0) then 1 else 0) ∧
    all_blocks f s' i' = <[slot_index k := bno]> (all_blocks f s i) ∧
    (a ≠ 0 → bno = a ∧ s' = s).
Proof.
  intros Hf Hi Ei Hk Ea Hu. pose proof (io_len _ _ _ _ Hi) as Hl.
  pose proof (all_blocks_addr f s i k a Hl Hk Ea) as Eb.
  destruct (block_small _ _ _ _ _ _ _ a Hf Hi) as (E32 & _ & _); [by eapply list_elem_of_lookup_2|].
  assert (Eat : addr_at p k s = Done a s) by (unfold addr_at, deref; rewrite Ei; simpl; by rewrite Ea).
  unfold slot_block. rewrite (bind_Done _ _ _ _ _ Eat), E32. destruct (Z.eqb_spec a 0) as [->|Ha].
  - pose proof (fo_lo _ _ _ _ _ _ Hf) as Hlo.
    destruct (bmap_alloc_locked_ok lo s (fo_map _ _ _ _ _ _ Hf) ltac:(lia) (Hu eq_refl) (fo_lock _ _ _ _ _ _ Hf))
      as (t & s1 & E1 & Hr & Ebd & Eis & Eind & Epg & Hwf & Ht & Hfree & Hs & Hun & Hk' & _).
    rewrite (bind_Done _ _ _ _ _ E1). pose proof (fo_size _ _ _ _ _ _ Hf) as Hsz.
    set (i' := set_i_di (set_i_addrs (<[k := t]> (i_addrs (i_di i))) (i_di i)) i).
    assert (E2 : set_addr p k t s1 = Done tt (set_inodes (<[p := i']> (inodes s)) s1)).
    { unfold set_addr, di_mod. rewrite (inode_mod_ok _ _ i) by by rewrite Eis.
      rewrite Eis. do 3 f_equal. unfold i'. by rewrite u32_small by lia. }
    rewrite (bind_Done _ _ _ _ _ E2). exists t, (set_inodes (<[p := i']> (inodes s)) s1), i'.
    assert (Hall : all_blocks f (set_inodes (<[p := i']> (inodes s)) s1) i' = <[slot_index k := t]> (all_blocks f s i)).
    { unfold i'. apply all_blocks_set_addr; try done; [lia|by apply (io_page _ _ _ _ Hi)|].
      by apply (fo_zero _ _ _ _ _ _ Hf). }
    split; [done|]. split; [|split_and!; done || lia].
    eapply (grown_take _ _ _ _ _ _ _ _ _ _ (slot_index k) t); try done.
    + eapply lookup_lt_Some. apply Eb.
    + unfold i'. simpl. by rewrite length_insert.
    + intros Hin. destruct (io_page _ _ _ _ Hi Hin) as (H12 & ws & Ews & Hwl). split.
      * unfold addr12, i' in *. simpl. rewrite list_lookup_insert. case_decide; simpl; [lia|done].
      * exists ws. simpl. by rewrite Eind.
    + destruct Hr. by split.
    + intros pg _. simpl. by rewrite Eind.
  - exists a, s, i. split; [done|]. split; [by apply grown_refl|]. rewrite decide_False by done.
    split_and!; [done|by rewrite list_insert_id|done|lia|by rewrite list_insert_id|done].
Qed.

(** ** [load_indir] *)

Lemma page_nonnull X s pg lo N K f : fs_ok lo N K f X s → pg ∈ X → pg ≠ 0.
Proof.
  intros Hf Hp. destruct (page_rep_phys _ _ _ (fo_pages _ _ _ _ _ _ Hf) Hp) as (q & Hq & ->).
  pose proof ALL_PFN_val. unfold KERNBASE, PGSIZE in *. lia.
Qed.

Lemma all_blocks_ext f s s' i i' :
  i_addrs (i_di i') = i_addrs (i_di i) → ind_words f s' i' = ind_words f s i → all_blocks f s' i' = all_blocks f s i.
Proof. intros E1 E2. unfold all_blocks, slots, addr12. by rewrite E1, E2. Qed.

Lemma inode_ok_ext lo f s s' i i' :
  inode_ok lo f s i → i_addrs (i_di i') = i_addrs (i_di i) → ind_words f s' i' = ind_words f s i →
  bmap s' = bmap s →
  (i_indir i' ≠ 0 → addr12 i' ≠ 0 ∧ ∃ ws, indirs s' !! i_indir i' = Some ws ∧ length ws = NINDIRECT) →
  inode_ok lo f s' i'.
Proof.
  intros [I1 I2 I3 I4] E1 E2 E3 Hp. pose proof (all_blocks_ext f s s' i i' E1 E2) as Ea.
  split; rewrite ?Ea, ?E1, ?E3; done.
Qed.

Lemma load_indir_ok lo N K f X p s i :
  fs_ok lo N K f X s → inode_ok lo f s i → inodes s !! p = Some i → addr12 i ≠ 0 →
  (X ≠ ∅ ∨ i_indir i ≠ 0) →
  ∃ X' s' i', load_indir p (addr12 i) s = Done tt s' ∧ grown lo N K p f X s i f X' s' i' ∧ i_indir i' ≠ 0 ∧
    indirs s' !! i_indir i' = Some (ind_words f s i) ∧ i_di i' = i_di i ∧ bmap s' = bmap s ∧
    ind_words f s' i' = ind_words f s i.
Proof.
  intros Hf Hi Ei H12 Hroom. unfold load_indir. rewrite (bind_Done _ _ _ _ _ (inode_at_ok _ _ _ Ei)).
  destruct (Z.eqb_spec (i_indir i) 0) as [E0|En].
  - assert (HX : X ≠ ∅) by (by destruct Hroom).
    destruct (alloc_zeroed_ok _ _ (fo_pages _ _ _ _ _ _ Hf) HX) as (pg & a' & Ea & Hpg & Hrep).
    pose proof (page_nonnull X s pg lo N K f Hf Hpg) as Hpg0.
    erewrite bind_Done; [|unfold zoom; rewrite Ea; reflexivity].
    erewrite bind_Done; [|by apply (inode_mod_ok p _ i)]. simpl inodes.
    erewrite bind_Done; [|done].
    destruct (block_small _ _ _ _ _ _ _ (addr12 i) Hf Hi) as (_ & _ & Hr); [by left|]. specialize (Hr H12).
    match goal with |- context [mbind _ (dev_read_count _ _) ?s0] =>
      destruct (dev_read_ok N K f s0 (addr12 i) 0 4096) as (b' & Eb & Hb');
        [apply (fo_dev _ _ _ _ _ _ Hf)|apply (fo_K _ _ _ _ _ _ Hf)|lia..|unfold BLOCK_SIZE; lia|lia|] end.
    erewrite bind_Done; [|exact Eb].
    rewrite Z.add_0_r. change (decode_words _ _) with (disk_words f (addr12 i)).
    set (i' := set_i_indir pg i).
    assert (Eind : ind_words f s i = disk_words f (addr12 i)).
    { unfold ind_words. by rewrite decide_False, decide_True. }
    eexists (X ∖ {[pg]}), _, i'. split; [done|].
    match goal with |- grown _ _ _ _ _ _ _ _ _ _ ?s1 _ ∧ _ => set (s' := s1) end.
    assert (Elook : indirs s' !! pg = Some (disk_words f (addr12 i))) by (simpl; by rewrite lookup_insert_eq).
    assert (Ew : ind_words f s' i' = ind_words f s i).
    { rewrite Eind. unfold ind_words. change (addr12 i') with (addr12 i). rewrite !decide_False by done.
      change (i_indir i') with pg. by rewrite Elook. }
    split; [|split_and!; [done|change (i_indir i') with pg; by rewrite Elook, Eind|done..]].
    split; try done.
    + split; try done. exists (block_free (s_ds s)). apply ds_same.
    + destruct Hf. by split.
    + set_solver.
    + by right.
    + eapply (inode_ok_ext lo f s); [done|done|done|done|]. intros _. split; [done|].
      exists (disk_words f (addr12 i)). split; [done|apply length_disk_words].
    + by destruct i as [[] ? ? ? ? ?].
    + intros q Hq Hqi. assert (pg ≠ q) by (intros ->; done). simpl. by rewrite !lookup_insert_ne.
    + intros b Hb _. left. by rewrite (all_blocks_ext f s s' i i') in Hb.
    + right. done.
  - exists X, s, i. split; [done|]. split; [by apply grown_refl|]. split; [done|].
    destruct (io_page _ _ _ _ Hi En) as (_ & ws & Ews & _).
    split_and!; [|done..]. unfold ind_words. by rewrite !decide_False, Ews by done.
Qed.

(** ** [efs_i_bmap] *)

Lemma alloc_word_ok lo N K f X p s i ws k :
  fs_ok lo N K f X s → inode_ok lo f s i → inodes s !! p = Some i → addr12 i ≠ 0 → i_indir i ≠ 0 →
  indirs s !! i_indir i = Some ws → (k < NINDIRECT)%nat → Bmp.unused (bmap s) ≠ 0 →
  ∃ bno s', alloc_word (i_indir i) k s = Done bno s' ∧ grown lo N K p f X s i f X s' i ∧ bno ≠ 0 ∧
    all_blocks f s' i = <[(13 + k)%nat := bno]> (all_blocks f s i) ∧
    Bmp.unused (bmap s') = Bmp.unused (bmap s) - 1.
Proof.
  intros Hf Hi Ei H12 Hin Ews Hk Hu. pose proof (fo_lo _ _ _ _ _ _ Hf) as Hlo.
  pose proof (fo_size _ _ _ _ _ _ Hf) as Hsz.
  destruct (io_page _ _ _ _ Hi Hin) as (_ & ws' & Ews' & Hwl). simplify_eq.
  set (s1 := set_efs_locks ({[sb_lock]} ∪ efs_locks s) s).
  destruct (bmap_alloc_ok lo s1 (fo_map _ _ _ _ _ _ Hf) ltac:(lia) Hu) as
    (t & s2 & E & [R1 R2 R3 R4 R5 R6 R7 R8 R9] & Ebd & Eis & Eind & Epg & Hwf & Ht & Hfree & Hs & Hun & Hus & _).
  change (bmap s1) with (bmap s) in *. change (indirs s1) with (indirs s) in *. change (inodes s1) with (inodes s) in *.
  set (s3 := set_indirs (<[i_indir i := <[k := t]> ws]> (indirs s)) s2).
  set (s' := set_efs_locks (efs_locks s) s3).
  assert (Hl : ({[sb_lock]} ∪ efs_locks s) ∖ {[sb_lock]} = efs_locks s).
  { apply lock_unlock_locks. apply (fo_lock _ _ _ _ _ _ Hf). }
  exists t, s'. split.
  { unfold alloc_word. rewrite (bind_Done _ _ _ tt s1).
    2:{ unfold spin_lock. simpl. rewrite decide_False; [done|apply (fo_lock _ _ _ _ _ _ Hf)]. }
    rewrite (bind_Done _ _ _ _ _ E). rewrite (bind_Done _ _ _ tt s3).
    2:{ unfold set_word, update. rewrite Eind. simpl. rewrite Ews. simpl. unfold s3. by rewrite u32_small by lia. }
    rewrite (bind_Done _ _ _ tt s').
    2:{ unfold spin_unlock, s'. simpl. rewrite R6. simpl. rewrite decide_True by set_solver. by rewrite Hl. }
    rewrite (bind_Done _ _ _ t s'); [by rewrite i32_small by lia|].
    unfold word_at, deref. simpl. rewrite lookup_insert_eq. simpl. by rewrite list_lookup_insert_eq by lia. }
  assert (Hall : all_blocks f s' i = <[(13 + k)%nat := t]> (all_blocks f s i)).
  { assert (Ew : ind_words f s' i = <[k := t]> (ind_words f s i)).
    { unfold ind_words. rewrite !decide_False by done. simpl. by rewrite lookup_insert_eq, Ews. }
    unfold all_blocks, slots. rewrite Ew. change (<[(13 + k)%nat:=t]> (addr12 i :: ?l)) with (addr12 i :: <[(12 + k)%nat := t]> l).
    f_equal. rewrite <-insert_app_r. do 2 f_equal. rewrite length_take, (io_len _ _ _ _ Hi). done. }
  split; [|split_and!; done || lia].
  eapply (grown_take _ _ _ _ _ _ _ _ _ _ (13 + k) t); try done.
  - simpl. rewrite (length_slots _ _ _ _ Hi). unfold MAXFILE, NINDIRECT in *. lia.
  - apply (io_len _ _ _ _ Hi).
  - intros _. split; [done|]. exists (<[k := t]> ws). simpl. by rewrite lookup_insert_eq, length_insert.
  - simpl. rewrite insert_id by done. done.
  - by destruct i as [[] ? ? ? ? ?].
  - intros pg Hp. simpl. by rewrite lookup_insert_ne.
Qed.

(** The indirect block still to be allocated. *)
Definition need i : Z := if decide (addr12 i = 0) then 1 else 0.

Lemma slots_set f s s' i i' k b :
  all_blocks f s' i' = <[S k := b]> (all_blocks f s i) → slots f s' i' = <[k := b]> (slots f s i) ∧ addr12 i' = addr12 i.
Proof. unfold all_blocks. intros [= E1 E2]. done. Qed.

Lemma efs_i_bmap_ok lo N K f X p s i lb :
  fs_ok lo N K f X s → inode_ok lo f s i → inodes s !! p = Some i → 0 <= lb < MAXFILE →
  1 + need i <= Bmp.unused (bmap s) → (X ≠ ∅ ∨ i_indir i ≠ 0) →
  ∃ bno X' s' i', efs_i_bmap p lb true s = Done bno s' ∧ grown lo N K p f X s i f X' s' i' ∧ bno ≠ 0 ∧
    slots f s' i' = <[Z.to_nat lb := bno]> (slots f s i) ∧
    (slots f s i !! Z.to_nat lb = Some 0 ∨ slots f s i !! Z.to_nat lb = Some bno) ∧
    Bmp.unused (bmap s) - need i - 1 <= Bmp.unused (bmap s') - need i'.
Proof.
  intros Hf Hi Ei Hlb Hu Hroom. pose proof (io_len _ _ _ _ Hi) as Hlen. unfold need in Hu.
  unfold efs_i_bmap, MAXFILE in *. destruct (Z.ltb_spec lb 0); [lia|].
  destruct (Z.ltb_spec lb (Z.of_nat NDIRECT)) as [Hd|Hd].
  - destruct (lookup_lt_is_Some_2 (i_addrs (i_di i)) (Z.to_nat lb)) as [a Ea]; [unfold NDIRECT in *; lia|].
    destruct (slot_block_ok lo N K f X p s i (Z.to_nat lb) a) as (b & s' & i' & E & Hg & Hb & Ead & _ & Hun & Hall & Hold);
      [done..|unfold NDIRECT in *; lia|done|case_decide; lia|].
    unfold slot_index in Hall. rewrite decide_False in Hall by (unfold NDIRECT in *; lia).
    apply slots_set in Hall as [Hs H12]. exists b, X, s', i'. split_and!; [done..| |].
    + unfold slots. rewrite lookup_app_l by (rewrite length_take; unfold NDIRECT in *; lia).
      rewrite lookup_take_lt by (unfold NDIRECT in *; lia). rewrite Ea.
      destruct (decide (a = 0)) as [->|Ha]; [by left|]. right. by destruct (Hold Ha) as [-> _].
    + unfold need. rewrite H12. repeat case_decide; lia.
  - cbv zeta. destruct (Z.ltb_spec (lb - Z.of_nat NDIRECT) (Z.of_nat NINDIRECT)) as [Hd'|Hd'];
      [|unfold NDIRECT, NINDIRECT in *; lia].
    destruct (lookup_lt_is_Some_2 (i_addrs (i_di i)) NDIRECT) as [a Ea]; [unfold NDIRECT in *; lia|].
    assert (Ha12 : addr12 i = a) by (unfold addr12; by rewrite Ea).
    destruct (slot_block_ok lo N K f X p s i NDIRECT a) as (b & s1 & i1 & E1 & Hg1 & Hb & Ead & _ & Hun1 & Hall1 & Hold);
      [done..|unfold NDIRECT; lia|done|rewrite Ha12 in Hu; case_decide; lia|].
    rewrite (bind_Done _ _ _ _ _ E1). destruct (Z.eqb_spec b 0); [done|].
    assert (Ei1 : inodes s1 !! p = Some i1) by (rewrite (gr_inodes Hg1); apply lookup_insert_eq).
    assert (Hb12 : addr12 i1 = b) by (unfold addr12; rewrite Ead, list_lookup_insert_eq by (unfold NDIRECT; lia); done).
    pose proof (gr_inode Hg1) as Hi1. pose proof (gr_fs Hg1) as Hf1.
    destruct (load_indir_ok lo N K f X p s1 i1) as (X2 & s2 & i2 & E2 & Hg2 & Hin2 & Ews & Edi & Ebm & Eiw);
      [done..|by rewrite Hb12|by apply (gr_room Hg1)|].
    rewrite Hb12 in E2. rewrite (bind_Done _ _ _ _ _ E2).
    assert (Ei2 : inodes s2 !! p = Some i2) by (rewrite (gr_inodes Hg2); apply lookup_insert_eq).
    pose proof (gr_inode Hg2) as Hi2. pose proof (gr_fs Hg2) as Hf2.
    rewrite (bind_Done _ _ _ _ _ (inode_at_ok _ _ _ Ei2)).
    pose proof (grown_trans _ _ _ _ _ _ _ _ _ _ _ _ _ _ _ _ (fo_lo _ _ _ _ _ _ Hf) Hg1 Hg2) as Hg.
    set (k := Z.to_nat (lb - Z.of_nat NDIRECT)).
    assert (Hk : (k < NINDIRECT)%nat) by (unfold k; lia).
    assert (H12 : addr12 i2 = b) by (unfold addr12; rewrite Edi; exact Hb12).
    assert (Hall2 : all_blocks f s2 i2 = <[0%nat := b]> (all_blocks f s i)).
    { rewrite (all_blocks_ext f s1 s2 i1 i2) by (rewrite ?Edi; done). exact Hall1. }
    assert (Hsl : slots f s2 i2 = slots f s i) by (unfold all_blocks in Hall2; by injection Hall2).
    destruct (lookup_lt_is_Some_2 (ind_words f s1 i1) k) as [w Ew]; [by rewrite (length_ind_words _ _ _ _ Hi1)|].
    assert (Eat : word_at (i_indir i2) k s2 = Done w s2).
    { unfold word_at, deref. rewrite Ews. simpl. by rewrite Ew. }
    rewrite (bind_Done _ _ _ _ _ Eat).
    assert (Hlk : slots f s i !! Z.to_nat lb = Some w).
    { rewrite <-Hsl. unfold slots. rewrite Eiw, lookup_app_r; rewrite length_take, Edi.
      - rewrite (io_len _ _ _ _ Hi1), <-Ew. f_equal. unfold k, NDIRECT. lia.
      - rewrite (io_len _ _ _ _ Hi1). unfold NDIRECT in *. lia. }
    assert (Hneed : need i2 = 0) by (unfold need; by rewrite H12, decide_False).
    assert (Hun : Bmp.unused (bmap s2) = Bmp.unused (bmap s) - need i) by (unfold need; rewrite Ebm, Hun1, Ha12; done).
    assert (Hneed' : need i = if decide (addr12 i = 0) then 1 else 0) by done.
    destruct (Z.eqb_spec w 0) as [->|Hw].
    + destruct (alloc_word_ok lo N K f X2 p s2 i2 (ind_words f s1 i1) k) as (t & s3 & E3 & Hg3 & Ht & Hall3 & Hun3);
        [done..|by rewrite H12|done|done|done|case_decide; lia|].
      exists t, X2, s3, i2. split; [exact E3|]. split; [eapply grown_trans; [apply (fo_lo _ _ _ _ _ _ Hf)|done|done]|].
      split; [done|]. split; [|split; [by left|lia]].
      rewrite <-Hsl. apply (slots_set f s2 s3 i2 i2 (Z.to_nat lb) t). rewrite Hall3. f_equal. unfold k, NDIRECT in *. lia.
    + assert (Ew32 : i32 w = w).
      { eapply (block_small _ _ _ _ _ _ _ w Hf Hi). right. by eapply list_elem_of_lookup_2. }
      rewrite Ew32. exists w, X2, s2, i2. split_and!; [done|done|done| |by right|lia].
      rewrite Hsl. by rewrite list_insert_id.
Qed.

(** Without allocation. *)
Lemma slot_block_peek lo N K f X p s i k a :
  fs_ok lo N K f X s → inode_ok lo f s i → inodes s !! p = Some i → (k < 13)%nat →
  i_addrs (i_di i) !! k = Some a → slot_block p k false s = Done a s.
Proof.
  intros Hf Hi Ei Hk Ea.
  pose proof (all_blocks_addr f s i k a (io_len _ _ _ _ Hi) Hk Ea) as Eb.
  destruct (block_small _ _ _ _ _ _ _ a Hf Hi) as (E32 & _ & _); [by eapply list_elem_of_lookup_2|].
  assert (Eat : addr_at p k s = Done a s) by (unfold addr_at, deref; rewrite Ei; simpl; by rewrite Ea).
  unfold slot_block. rewrite (bind_Done _ _ _ _ _ Eat), E32. by destruct (Z.eqb_spec a 0) as [->|].
Qed.

Lemma efs_i_bmap_peek lo N K f X p s i lb :
  fs_ok lo N K f X s → inode_ok lo f s i → inodes s !! p = Some i → 0 <= lb < MAXFILE →
  (X ≠ ∅ ∨ i_indir i ≠ 0) →
  ∃ b X' s' i', efs_i_bmap p lb false s = Done b s' ∧ grown lo N K p f X s i f X' s' i' ∧
    slots f s i !! Z.to_nat lb = Some b ∧ slots f s' i' = slots f s i ∧ i_di i' = i_di i ∧ bmap s' = bmap s.
Proof.
  intros Hf Hi Ei Hlb Hroom. pose proof (io_len _ _ _ _ Hi) as Hlen.
  unfold efs_i_bmap, MAXFILE in *. destruct (Z.ltb_spec lb 0); [lia|].
  destruct (Z.ltb_spec lb (Z.of_nat NDIRECT)) as [Hd|Hd].
  - destruct (lookup_lt_is_Some_2 (i_addrs (i_di i)) (Z.to_nat lb)) as [a Ea]; [unfold NDIRECT in *; lia|].
    exists a, X, s, i. rewrite (slot_block_peek lo N K f X p s i _ a); [|done..|unfold NDIRECT in *; lia|done].
    split_and!; [done|by apply grown_refl| |done..].
    unfold slots. rewrite lookup_app_l by (rewrite length_take; unfold NDIRECT in *; lia).
    by rewrite lookup_take_lt by (unfold NDIRECT in *; lia).
  - cbv zeta. destruct (Z.ltb_spec (lb - Z.of_nat NDIRECT) (Z.of_nat NINDIRECT)) as [Hd'|Hd'];
      [|unfold NDIRECT, NINDIRECT in *; lia].
    destruct (lookup_lt_is_Some_2 (i_addrs (i_di i)) NDIRECT) as [a Ea]; [unfold NDIRECT in *; lia|].
    assert (Ha12 : addr12 i = a) by (unfold addr12; by rewrite Ea).
    rewrite (bind_Done _ _ _ a s) by (eapply slot_block_peek; try done; unfold NDIRECT; lia).
    set (k := Z.to_nat (lb - Z.of_nat NDIRECT)).
    assert (Hk : (k < NINDIRECT)%nat) by (unfold k; lia).
    assert (Hlk : slots f s i !! Z.to_nat lb = ind_words f s i !! k).
    { unfold slots. rewrite lookup_app_r; rewrite length_take, Hlen; [f_equal; unfold k, NDIRECT; lia|unfold NDIRECT in *; lia]. }
    destruct (Z.eqb_spec a 0) as [Ea0|Hn].
    + exists 0, X, s, i. split_and!; [done|by apply grown_refl| |done..]. rewrite Hlk. unfold ind_words.
      rewrite Ha12, decide_True by done. by apply lookup_replicate_2.
    + destruct (load_indir_ok lo N K f X p s i) as (X2 & s2 & i2 & E2 & Hg2 & Hin2 & Ews & Edi & Ebm & Eiw);
        [done..|by rewrite Ha12|done|].
      rewrite Ha12 in E2. rewrite (bind_Done _ _ _ _ _ E2).
      assert (Ei2 : inodes s2 !! p = Some i2) by (rewrite (gr_inodes Hg2); apply lookup_insert_eq).
      rewrite (bind_Done _ _ _ _ _ (inode_at_ok _ _ _ Ei2)).
      destruct (lookup_lt_is_Some_2 (ind_words f s i) k) as [w Ew]; [by rewrite (length_ind_words _ _ _ _ Hi)|].
      assert (Eat : word_at (i_indir i2) k s2 = Done w s2).
      { unfold word_at, deref. rewrite Ews. simpl. by rewrite Ew. }
      rewrite (bind_Done _ _ _ _ _ Eat). rewrite Ew in Hlk.
      assert (Ew32 : i32 w = w).
      { eapply (block_small _ _ _ _ _ _ _ w Hf Hi). right. by eapply list_elem_of_lookup_2. }
      assert (Hsl : slots f s2 i2 = slots f s i) by (unfold slots; by rewrite Edi, Eiw).
      exists w, X2, s2, i2. rewrite Ew32. destruct (Z.eqb_spec w 0) as [->|]; done.
Qed.

(** ** A write to a mapped block *)

Lemma ind_words_write f s i bd' b o data :
  0 <= o → o + Z.of_nat (length data) <= BLOCK_SIZE → addr12 i ≠ b →
  ind_words (fwrite (b * BLOCK_SIZE + o) data f) (set_bd bd' s) i = ind_words f s i.
Proof.
  intros Ho Hl Hn. unfold ind_words. do 2 (case_decide; [try done|]); [|done].
  apply disk_words_ext. intros x Hx.
  replace x with (addr12 i * BLOCK_SIZE + (x - addr12 i * BLOCK_SIZE)) by lia. apply fwrite_block; done || lia.
Qed.

Lemma mapped_write lo N K f X s i k b o data bd' :
  fs_ok lo N K f X s → inode_ok lo f s i → slots f s i !! k = Some b → b ≠ 0 →
  0 <= o → o + Z.of_nat (length data) <= BLOCK_SIZE →
  bd_rep bd' N K (fwrite (b * BLOCK_SIZE + o) data f) →
  let f' := fwrite (b * BLOCK_SIZE + o) data f in
  fs_ok lo N K f' X (set_bd bd' s) ∧ inode_ok lo f' (set_bd bd' s) i ∧
  slots f' (set_bd bd' s) i = slots f s i.
Proof.
  intros Hf Hi Hk Hb Ho Hl Hr f'.
  assert (Hne : addr12 i ≠ b).
  { intros E. pose proof (io_inj _ _ _ _ Hi 0 (S k) b) as Hx. rewrite <-E in Hx at 1.
    specialize (Hx eq_refl Hk Hb). lia. }
  assert (Ew : ind_words f' (set_bd bd' s) i = ind_words f s i) by by apply ind_words_write.
  assert (Es : slots f' (set_bd bd' s) i = slots f s i) by (unfold slots; by rewrite Ew).
  assert (Ea : all_blocks f' (set_bd bd' s) i = all_blocks f s i) by (unfold all_blocks; by rewrite Es).
  assert (Hin : b ∈ all_blocks f s i) by (right; by eapply list_elem_of_lookup_2).
  destruct (io_used _ _ _ _ Hi b Hin Hb) as [Hrange Hub].
  split_and!; [| |done].
  - destruct Hf as [F1 F2 F3 F4 F5 F6 F7 F8]. split; try done. intros c Hc Huc. simpl in Hc, Huc.
    rewrite <-(F6 c Hc Huc). apply disk_words_ext. intros x Hx.
    replace x with (c * BLOCK_SIZE + (x - c * BLOCK_SIZE)) by lia.
    apply fwrite_block; [done|done|lia|]. intros ->. by rewrite Huc in Hub.
  - destruct Hi as [I1 I2 I3 I4]. split; rewrite ?Ea; done.
Qed.

(** ** Writing a range *)

Record wrote (lo N K p : Z) f X s i f' X' s' i' (start : Z) (data : list Z) : Prop := {
  wr_grown : grown lo N K p f X s i f' X' s' i';
  wr_data : ∀ k, (k < length data)%nat → fbyte f' s' i' (start + Z.of_nat k) = data !! k;
  wr_keep : ∀ a v, 0 <= a → ¬ (start <= a < start + Z.of_nat (length data)) →
    fbyte f s i a = Some v → fbyte f' s' i' a = Some v;
  wr_frame : ∀ b o, 0 <= o < BLOCK_SIZE → b = 0 ∨ b ∉ all_blocks f s i →
    (lo <= b < Bmp.size (bmap s) → Bmp.used (bmap s) b = true) →
    f' (b * BLOCK_SIZE + o) = f (b * BLOCK_SIZE + o);
  wr_unused : Bmp.unused (bmap s') - need i' >= Bmp.unused (bmap s) - need i -
    (if decide (data = []) then 0 else (start mod BLOCK_SIZE + Z.of_nat (length data) + BLOCK_SIZE - 1) / BLOCK_SIZE);
}.

(** One turn of the loop of [efs_i_write]. *)
Lemma write_step lo N K f X p s i offset data :
  fs_ok lo N K f X s → inode_ok lo f s i → inodes s !! p = Some i →
  0 <= offset → offset / BLOCK_SIZE < MAXFILE → data ≠ [] →
  offset mod BLOCK_SIZE + Z.of_nat (length data) <= BLOCK_SIZE →
  1 + need i <= Bmp.unused (bmap s) → (X ≠ ∅ ∨ i_indir i ≠ 0) →
  ∃ bno s1 f' X' s' i', efs_i_bmap p (offset / BLOCK_SIZE) true s = Done bno s1 ∧ bno ≠ 0 ∧
    dev_write bno (offset mod BLOCK_SIZE) data s1 = Done tt s' ∧ wrote lo N K p f X s i f' X' s' i' offset data.
Proof.
  intros Hf Hi Ei Ho Hlb Hd Hm Hu Hroom. set (lb := offset / BLOCK_SIZE) in *. set (o := offset mod BLOCK_SIZE) in *.
  assert (Hlb0 : 0 <= lb) by (apply Z.div_pos; unfold BLOCK_SIZE; lia).
  assert (Hob : 0 <= o < BLOCK_SIZE) by (apply Z.mod_pos_bound; unfold BLOCK_SIZE; lia).
  assert (Hoff : offset = lb * BLOCK_SIZE + o) by (unfold lb, o; pose proof (Z.div_mod offset BLOCK_SIZE ltac:(done)); lia).
  destruct (efs_i_bmap_ok lo N K f X p s i lb) as (b & X1 & s1 & i1 & E1 & Hg & Hb & Hsl & Hold & Hun); [done..|lia|done|done|].
  pose proof (gr_fs Hg) as Hf1. pose proof (gr_inode Hg) as Hi1.
  pose proof (length_slots _ _ _ _ Hi) as Hlen.
  assert (Hk : slots f s1 i1 !! Z.to_nat lb = Some b) by (rewrite Hsl; apply list_lookup_insert_eq; lia).
  destruct (block_small _ _ _ _ _ _ _ b Hf1 Hi1) as (_ & _ & Hbr); [right; by eapply list_elem_of_lookup_2|].
  specialize (Hbr Hb).
  destruct (dev_write_ok N K f s1 b o data) as (bd' & E2 & Hr');
    [apply (fo_dev _ _ _ _ _ _ Hf1)|apply (fo_K _ _ _ _ _ _ Hf1)|lia|lia|done|lia|lia|].
  destruct (mapped_write lo N K f X1 s1 i1 (Z.to_nat lb) b o data bd') as (Hf2 & Hi2 & Hs2); [done..|lia|lia|done|].
  set (f' := fwrite (b * BLOCK_SIZE + o) data f) in *.
  exists b, s1, f', X1, (set_bd bd' s1), i1. split; [done|]. split; [done|]. split; [done|].
  assert (Hab : all_blocks f' (set_bd bd' s1) i1 = all_blocks f s1 i1) by (unfold all_blocks; by rewrite Hs2).
  assert (Hby : ∀ a, 0 <= a → fbyte f' (set_bd bd' s1) i1 a =
    if decide (a / BLOCK_SIZE = lb) then
      (if decide (o <= a mod BLOCK_SIZE < o + Z.of_nat (length data)) then data !! Z.to_nat (a mod BLOCK_SIZE - o)
       else f (b * BLOCK_SIZE + a mod BLOCK_SIZE))
    else fbyte f s i a).
  { intros a Ha. unfold fbyte. rewrite Hs2, Hsl. assert (0 <= a / BLOCK_SIZE) by (apply Z.div_pos; unfold BLOCK_SIZE; lia).
    case_decide as Hal.
    - rewrite Hal, list_lookup_insert_eq by lia. simpl. destruct (Z.eqb_spec b 0); [done|]. apply fwrite_here.
    - rewrite list_lookup_insert_ne by lia. destruct (slots f s i !! Z.to_nat (a / BLOCK_SIZE)) as [c|] eqn:Ec; [|done].
      simpl. destruct (Z.eqb_spec c 0) as [|Hc]; [done|]. apply fwrite_block; [lia|lia|apply Z.mod_pos_bound; done|].
      intros ->. assert (Hc1 : slots f s1 i1 !! Z.to_nat (a / BLOCK_SIZE) = Some b) by (rewrite Hsl, list_lookup_insert_ne by lia; done).
      pose proof (io_inj _ _ _ _ Hi1 (S (Z.to_nat (a / BLOCK_SIZE))) (S (Z.to_nat lb)) b Hc1 Hk Hb). lia. }
  split.
  - destruct Hg as [G1 G2 G3 G4 G5 G6 G7 G8 G9 G10 G11 G12]. split; try done.
    + destruct G1. by split.
    + intros c. rewrite Hab. apply G11.
  - intros k Hkd. rewrite Hby by lia.
    assert (Hq : (offset + Z.of_nat k) / BLOCK_SIZE = lb ∧ (offset + Z.of_nat k) mod BLOCK_SIZE = o + Z.of_nat k).
    { rewrite Hoff. replace (lb * BLOCK_SIZE + o + Z.of_nat k) with ((o + Z.of_nat k) + lb * BLOCK_SIZE) by lia.
      rewrite Z.div_add, Z.mod_add, Z.div_small, Z.mod_small by (unfold BLOCK_SIZE in *; lia). lia. }
    destruct Hq as [-> ->]. rewrite !decide_True by lia. f_equal. lia.
  - intros a v Ha Hna Hv. rewrite Hby by done. case_decide as Hal; [|done].
    rewrite decide_False.
    + unfold fbyte in Hv. rewrite Hal in Hv. destruct Hold as [Hold|Hold]; rewrite Hold in Hv; simpl in Hv; [done|].
      by destruct (Z.eqb_spec b 0).
    + intros Hr. apply Hna. rewrite Hoff. pose proof (Z.div_mod a BLOCK_SIZE ltac:(done)). lia.
  - intros c q Hq Hc Huc. apply fwrite_block; [lia|lia|done|]. intros ->.
    assert (Hin : b ∈ all_blocks f s1 i1) by (right; by eapply list_elem_of_lookup_2).
    destruct (io_used _ _ _ _ Hi1 b Hin Hb) as [Hrange _]. rewrite (gr_size Hg) in Hrange.
    destruct Hc as [?|Hc]; [done|]. destruct (gr_blocks Hg b Hin Hb) as [?|Hx]; [done|]. by rewrite Huc in Hx.
  - rewrite decide_False by done. change (bmap (set_bd bd' s1)) with (bmap s1).
    assert (1 <= (offset mod BLOCK_SIZE + Z.of_nat (length data) + BLOCK_SIZE - 1) / BLOCK_SIZE); [|lia].
    assert (length data ≠ 0%nat) by by destruct data. apply Z.div_le_lower_bound; unfold BLOCK_SIZE in *; lia.
Qed.

Lemma wrote_nil lo N K p f X s i start :
  fs_ok lo N K f X s → inode_ok lo f s i → inodes s !! p = Some i → wrote lo N K p f X s i f X s i start [].
Proof. intros. split; try done; [by apply grown_refl|simpl; lia..|rewrite decide_True by done; lia]. Qed.

(** The blocks a range of [n] bytes from [start] on takes. *)
Definition span (start n : Z) : Z := if decide (n = 0) then 0 else (start mod BLOCK_SIZE + n + BLOCK_SIZE - 1) / BLOCK_SIZE.

Lemma span_block start n m :
  0 < m → 0 < n → start mod BLOCK_SIZE + n = BLOCK_SIZE → span start (n + m) = 1 + span (start + n) m.
Proof.
  intros Hm Hn He. unfold span. rewrite !decide_False by lia.
  assert (Hz : (start + n) mod BLOCK_SIZE = 0).
  { rewrite <-Zplus_mod_idemp_l, He. by apply Z.mod_same. }
  rewrite Hz. replace (start mod BLOCK_SIZE + (n + m) + BLOCK_SIZE - 1) with (1 * BLOCK_SIZE + (m + BLOCK_SIZE - 1)) by lia.
  rewrite Z.div_add_l by done. f_equal. 
Qed.
Lemma span_one start n : 0 < n → start mod BLOCK_SIZE + n <= BLOCK_SIZE → span start n = 1.
Proof.
  intros Hn He. unfold span. rewrite decide_False by lia.
  pose proof (Z.mod_pos_bound start BLOCK_SIZE ltac:(done)).
  replace (start mod BLOCK_SIZE + n + BLOCK_SIZE - 1) with (1 * BLOCK_SIZE + (start mod BLOCK_SIZE + n - 1)) by lia.
  rewrite Z.div_add_l by done. rewrite Z.div_small by lia. done.
Qed.
Lemma span_pos start n : 0 < n → 1 <= span start n.
Proof.
  intros Hn. unfold span. rewrite decide_False by lia.
  pose proof (Z.mod_pos_bound start BLOCK_SIZE ltac:(done)).
  apply Z.div_le_lower_bound; unfold BLOCK_SIZE in *; lia.
Qed.

Lemma wrote_unused lo N K p f X s i f' X' s' i' start data :
  wrote lo N K p f X s i f' X' s' i' start data →
  Bmp.unused (bmap s') - need i' >= Bmp.unused (bmap s) - need i - span start (Z.of_nat (length data)).
Proof. intros [_ _ _ _ Hu]. unfold span. destruct data; [done|]. rewrite decide_False in Hu by done. by rewrite decide_False. Qed.

Lemma wrote_app lo N K p f X s i f1 X1 s1 i1 f2 X2 s2 i2 start d1 d2 :
  0 < lo → 0 <= start → wrote lo N K p f X s i f1 X1 s1 i1 start d1 →
  wrote lo N K p f1 X1 s1 i1 f2 X2 s2 i2 (start + Z.of_nat (length d1)) d2 →
  d1 ≠ [] → start mod BLOCK_SIZE + Z.of_nat (length d1) <= BLOCK_SIZE →
  (d2 ≠ [] → start mod BLOCK_SIZE + Z.of_nat (length d1) = BLOCK_SIZE) →
  wrote lo N K p f X s i f2 X2 s2 i2 start (d1 ++ d2).
Proof.
  intros Hlo Hst W1 W2 Hd1 Hle Heq. pose proof (wrote_unused _ _ _ _ _ _ _ _ _ _ _ _ _ _ W1) as U1.
  pose proof (wrote_unused _ _ _ _ _ _ _ _ _ _ _ _ _ _ W2) as U2.
  destruct W1 as [G1 D1 K1 F1 _], W2 as [G2 D2 K2 F2 _]. split.
  - by eapply grown_trans.
  - intros k Hk. rewrite length_app in Hk. destruct (decide (k < length d1)%nat) as [Hk1|Hk1].
    + rewrite lookup_app_l by done. destruct (lookup_lt_is_Some_2 d1 k Hk1) as [v Ev]. rewrite Ev.
      apply K2; [lia|lia|]. by rewrite D1.
    + rewrite lookup_app_r by lia. rewrite <-D2 by lia. f_equal. lia.
  - intros a v Ha Hn Hv. rewrite length_app in Hn. apply K2; [done|lia|]. apply K1; [done|lia|done].
  - intros b o Ho Hb Hu. rewrite F2, F1; [done|done|done|done|done| |].
    + destruct (decide (b = 0)) as [->|Hb0]; [by left|]. right. intros Hb1. destruct Hb as [?|Hb]; [done|].
      destruct (gr_blocks G1 b Hb1 Hb0) as [?|Hx]; [done|].
      destruct (io_used _ _ _ _ (gr_inode G1) b Hb1 Hb0) as [Hr _]. rewrite (gr_size G1) in Hr. by rewrite Hu in Hx.
    + intros Hr. apply (gr_used G1); [lia|]. apply Hu. by rewrite <-(gr_size G1).
  - rewrite decide_False by by destruct d1. rewrite length_app, Nat2Z.inj_add.
    change (Bmp.unused (bmap s2) - need i2 >= Bmp.unused (bmap s) - need i -
      (start mod BLOCK_SIZE + (Z.of_nat (length d1) + Z.of_nat (length d2)) + BLOCK_SIZE - 1) / BLOCK_SIZE).
    assert (Hp1 : 0 < Z.of_nat (length d1)) by (destruct d1; simpl; [done|lia]).
    assert (Es : (start mod BLOCK_SIZE + (Z.of_nat (length d1) + Z.of_nat (length d2)) + BLOCK_SIZE - 1) / BLOCK_SIZE =
      span start (Z.of_nat (length d1) + Z.of_nat (length d2))) by (unfold span; by rewrite decide_False by lia).
    rewrite Es. destruct d2 as [|x d2]; [simpl length in *; rewrite Z.add_0_r in *; unfold span in U2; rewrite decide_True in U2 by done; lia|].
    rewrite span_block by (simpl; try lia; by apply Heq). rewrite span_one in U1 by lia. lia.
Qed.

Lemma write_loop_ok lo N K p (fuel : nat) : ∀ f X s i offset data len tot,
  fs_ok lo N K f X s → inode_ok lo f s i → inodes s !! p = Some i →
  0 <= offset → offset + Z.of_nat (length data) <= MAXFILE * BLOCK_SIZE →
  0 <= tot → tot + Z.of_nat (length data) = len → len < 2 ^ 32 →
  span offset (Z.of_nat (length data)) + need i <= Bmp.unused (bmap s) → (X ≠ ∅ ∨ i_indir i ≠ 0) →
  span offset (Z.of_nat (length data)) < Z.of_nat fuel →
  ∃ f' X' s' i', write_loop fuel p offset len tot data s = Done (len, offset + Z.of_nat (length data)) s' ∧
    wrote lo N K p f X s i f' X' s' i' offset data.
Proof.
  induction fuel as [|fuel IH]; intros f X s i offset data len tot Hf Hi Ei Ho He Ht Hl Hl32 Hu Hroom Hfuel.
  { assert (0 <= span offset (Z.of_nat (length data))); [|lia].
    destruct (decide (Z.of_nat (length data) = 0)) as [E|]; [by rewrite E|].
    transitivity 1; [lia|]. apply span_pos. lia. }
  cbn [write_loop]. destruct (Z.ltb_spec tot len) as [Htl|Htl]; cycle 1.
  { assert (data = []) as -> by (destruct data; simpl in *; [done|lia]). simpl in *.
    exists f, X, s, i. split; [f_equal; f_equal; lia|]. by apply wrote_nil. }
  pose proof (Z.mod_pos_bound offset BLOCK_SIZE ltac:(done)) as Hmod.
  assert (H32 : MAXFILE * BLOCK_SIZE < 2 ^ 32) by done.
  set (m := Z.min (u32 (len - tot)) (BLOCK_SIZE - offset mod BLOCK_SIZE)) in *.
  assert (Hm : m = Z.min (Z.of_nat (length data)) (BLOCK_SIZE - offset mod BLOCK_SIZE)).
  { unfold m. rewrite u32_small by lia. f_equal. lia. }
  set (d1 := take (Z.to_nat m) data). set (d2 := drop (Z.to_nat m) data).
  assert (Hd : data = d1 ++ d2) by (unfold d1, d2; by rewrite take_drop).
  assert (Hl1 : Z.of_nat (length d1) = m) by (unfold d1; rewrite length_take; lia).
  assert (Hl2 : Z.of_nat (length d2) = Z.of_nat (length data) - m) by (unfold d2; rewrite length_drop; lia).
  assert (Hd1 : d1 ≠ []) by (intros Ed; rewrite Ed in Hl1; simpl in Hl1; lia).
  assert (Hsp : 1 <= span offset (Z.of_nat (length data))) by (apply span_pos; lia).
  destruct (write_step lo N K f X p s i offset d1) as (b & s1 & f1 & X1 & s2 & i1 & E1 & Hb & E2 & W1); try done.
  { apply Z.div_lt_upper_bound; [done|]. lia. }
  { lia. }
  { lia. }
  rewrite (bind_Done _ _ _ _ _ E1). destruct (Z.eqb_spec b 0); [done|].
  cbv zeta. fold m. rewrite (bind_Done _ _ _ d1 s1).
  2:{ unfold deref. rewrite slice_ok by lia. done. }
  rewrite (bind_Done _ _ _ _ _ E2). fold d2. rewrite (u32_small (offset + m)), (u32_small (tot + m)) by lia.
  pose proof (wrote_unused _ _ _ _ _ _ _ _ _ _ _ _ _ _ W1) as U1. rewrite span_one in U1 by lia.
  pose proof (wr_grown _ _ _ _ _ _ _ _ _ _ _ _ _ _ W1) as G1.
  assert (Hsplit : d2 = [] ∨ (d2 ≠ [] ∧ offset mod BLOCK_SIZE + m = BLOCK_SIZE ∧
    span offset (Z.of_nat (length data)) = 1 + span (offset + m) (Z.of_nat (length d2)))).
  { destruct (decide (d2 = [])) as [|Hn]; [by left|]. right. assert (length d2 ≠ 0%nat) by by destruct d2.
    assert (Hmm : offset mod BLOCK_SIZE + m = BLOCK_SIZE) by lia. split_and!; [done|done|].
    replace (Z.of_nat (length data)) with (m + Z.of_nat (length d2)) by lia. apply span_block; lia. }
  assert (Hsp2 : span (offset + m) (Z.of_nat (length d2)) <= span offset (Z.of_nat (length data)) - 1).
  { destruct Hsplit as [->|(_ & _ & ->)]; [|lia]. change (span _ (Z.of_nat (length []))) with 0. lia. }
  destruct (IH f1 X1 s2 i1 (offset + m) d2 len (tot + m)) as (f2 & X2 & s3 & i2 & E3 & W2).
  - apply (gr_fs G1).
  - apply (gr_inode G1).
  - rewrite (gr_inodes G1). apply lookup_insert_eq.
  - lia.
  - lia.
  - lia.
  - lia.
  - done.
  - lia.
  - by apply (gr_room G1).
  - lia.
  - exists f2, X2, s3, i2. split; [rewrite E3; f_equal; f_equal; lia|]. rewrite Hd.
    eapply wrote_app; [apply (fo_lo _ _ _ _ _ _ Hf)|done|exact W1|by rewrite Hl1|done|lia|].
    intros Hn. destruct Hsplit as [|(_ & ? & _)]; [done|lia].
Qed.

(** ** Locks and the list of dirty inodes *)

Lemma efs_lock_ok l s : l ∉ efs_locks s → spin_lock l s = Done tt (set_efs_locks ({[l]} ∪ efs_locks s) s).
Proof. intros Hl. unfold spin_lock. simpl. by rewrite decide_False. Qed.
Lemma efs_unlock_ok l L s :
  l ∉ L → efs_locks s = {[l]} ∪ L → spin_unlock l s = Done tt (set_efs_locks L s).
Proof.
  intros Hl E. unfold spin_unlock. simpl. rewrite E, decide_True by set_solver. by rewrite lock_unlock_locks.
Qed.

Definition held (me : Z) : Mutex.mutex := Mutex.Mut 1 (sem_init 0) (Some me).
Definition released : Mutex.mutex := Mutex.Mut 0 (sem_init 1) None.

Lemma i_sleep_ok me p i s : inodes s !! p = Some i → idle (i_slock i) →
  i_sleep me p s = Done tt (set_inodes (<[p := set_i_slock (held me) i]> (inodes s)) s).
Proof.
  intros Ei Hl. unfold i_sleep. rewrite (bind_Done _ _ _ _ _ (inode_at_ok _ _ _ Ei)).
  erewrite bind_Done; [|by apply mutex_lock_ok]. by apply inode_mod_ok.
Qed.
Lemma i_wake_ok p i s : inodes s !! p = Some i → busy (i_slock i) →
  i_wake p s = Done tt (set_inodes (<[p := set_i_slock released i]> (inodes s)) s).
Proof.
  intros Ei Hl. unfold i_wake. rewrite (bind_Done _ _ _ _ _ (inode_at_ok _ _ _ Ei)).
  erewrite bind_Done; [|by apply mutex_unlock_ok]. by apply inode_mod_ok.
Qed.

(** The list of dirty inodes is well formed, next to the other lists [σ]; the
    node of [p] is on it, or on no list and its own neighbour. *)
Record dirty_ok s (σ : gmap floc (list floc)) (ds : list Z) : Prop := {
  do_fam : fam (nodes s) σ;
  do_list : σ !! S_idirty_list = Some (I_dirty <$> ds);
}.
Definition dirty_node s (σ : gmap floc (list floc)) (ds : list Z) (p : Z) : Prop :=
  p ∈ ds ∨ (¬ in_fam σ (I_dirty p) ∧ nodes s !! I_dirty p = Some (Node (I_dirty p) (I_dirty p))).

(** The dirty inodes after [efs_i_sdirty]. *)
Definition with_dirty (p : Z) (ds : list Z) : list Z := if decide (p ∈ ds) then ds else p :: ds.

Lemma efs_i_sdirty_ok p i s σ ds :
  inodes s !! p = Some i → i_sb i = M_ESB → dirty_ok s σ ds → dirty_node s σ ds p →
  ∃ h, efs_i_sdirty p s =
      Done tt (set_nodes h (set_inodes (<[p := set_i_flags (SET_FLAG (i_flags i) I_DIRTY) i]> (inodes s)) s)) ∧
    fam h (<[S_idirty_list := I_dirty <$> with_dirty p ds]> σ) ∧
    only (nodes s) h (I_dirty p :: S_idirty_list :: (I_dirty <$> ds)).
Proof.
  intros Ei Hsb [Hfam Hds] Hn. unfold efs_i_sdirty.
  rewrite (bind_Done _ _ _ _ _ (inode_mod_ok _ _ _ _ Ei)).
  set (s1 := set_inodes _ s). unfold with_dirty. destruct (decide (p ∈ ds)) as [Hin|Hin].
  - exists (nodes s). split; [|split; [by rewrite insert_id|apply only_refl]].
    assert (Hl : dll (nodes s) S_idirty_list (I_dirty <$> ds)) by by apply Hfam.
    destruct (dll_next_ne _ _ _ (I_dirty p) Hl) as (y & Ey & Hy); [apply list_elem_of_fmap; eauto|].
    rewrite (bind_Done _ _ _ false s1); [done|].
    unfold node_empty, deref, list_empty. simpl. rewrite Ey. simpl. by rewrite bool_decide_eq_false_2.
  - destruct Hn as [?|[Hno En]]; [done|].
    destruct (fam_add_head (I_dirty p) S_idirty_list (I_dirty <$> ds) (nodes s) σ) as (h & E & Hf' & _ & Ho);
      [done|done|done|by eexists|].
    exists h. split; [|split; [by rewrite fmap_cons|done]].
    rewrite (bind_Done _ _ _ true s1).
    2:{ unfold node_empty, deref, list_empty, nxt. simpl. rewrite En. simpl. by rewrite bool_decide_eq_true_2. }
    rewrite (bind_Done _ _ _ (set_i_flags (SET_FLAG (i_flags i) I_DIRTY) i) s1).
    2:{ apply inode_at_ok. apply lookup_insert_eq. }
    simpl. rewrite Hsb, Z.eqb_refl. unfold node_do, update. simpl. by rewrite E.
Qed.

Lemma di_update_ok p g i s σ ds :
  inodes s !! p = Some i → i_sb i = M_ESB → dirty_ok s σ ds → dirty_node s σ ds p →
  sb_lock ∉ efs_locks s → i_lock p ∉ efs_locks s →
  ∃ h, di_update p g s = Done tt (set_nodes h
      (set_inodes (<[p := set_i_flags (SET_FLAG (i_flags i) I_DIRTY) (set_i_di (g (i_di i)) i)]> (inodes s)) s)) ∧
    fam h (<[S_idirty_list := I_dirty <$> with_dirty p ds]> σ) ∧
    only (nodes s) h (I_dirty p :: S_idirty_list :: (I_dirty <$> ds)).
Proof.
  intros Ei Hsb Hd Hn Hl1 Hl2. unfold di_update, di_mod.
  rewrite (bind_Done _ _ _ _ _ (efs_lock_ok sb_lock s Hl1)).
  assert (Hne : i_lock p ∉ {[sb_lock]} ∪ efs_locks s) by set_solver.
  rewrite (bind_Done _ _ _ _ _ (efs_lock_ok (i_lock p) (set_efs_locks ({[sb_lock]} ∪ efs_locks s) s) Hne)).
  set (i1 := set_i_di (g (i_di i)) i). set (L := {[i_lock p]} ∪ ({[sb_lock]} ∪ efs_locks s)).
  set (s1 := set_inodes (<[p := i1]> (inodes s)) (set_efs_locks L s)).
  destruct (efs_i_sdirty_ok p i1 s1 σ ds) as (h & E & Hf & Ho); [apply lookup_insert_eq|done|by destruct Hd|done|].
  exists h. split; [|done]. rewrite (bind_Done _ _ _ tt s1); [|exact (inode_mod_ok p (λ i, set_i_di (g (i_di i)) i) i (set_efs_locks L (set_efs_locks ({[sb_lock]} ∪ efs_locks s) s)) Ei)].
  rewrite (bind_Done _ _ _ _ _ E).
  erewrite bind_Done; [|apply (efs_unlock_ok (i_lock p) ({[sb_lock]} ∪ efs_locks s)); [done|reflexivity]].
  erewrite efs_unlock_ok; [|exact Hl1|reflexivity].
  f_equal. unfold s1. destruct s; cbn. by rewrite insert_insert_eq.
Qed.

(** ** What locks, flags and sizes do not touch *)

Lemma fs_ok_same lo N K f X s s' :
  fs_ok lo N K f X s → s_bd s' = s_bd s → bmap s' = bmap s → efs_locks s' = efs_locks s → pagea s' = pagea s →
  fs_ok lo N K f X s'.
Proof. intros [] E1 E2 E3 E4. split; rewrite ?E1, ?E2, ?E3, ?E4; done. Qed.

Record same_file s s' i i' : Prop := {
  sf_addrs : i_addrs (i_di i') = i_addrs (i_di i);
  sf_indir : i_indir i' = i_indir i;
  sf_indirs : indirs s' = indirs s;
  sf_bmap : bmap s' = bmap s;
}.
Lemma same_all_blocks f s s' i i' : same_file s s' i i' → all_blocks f s' i' = all_blocks f s i.
Proof.
  intros [E1 E2 E3 _]. apply all_blocks_ext; [done|]. apply ind_words_ext; [unfold addr12; by rewrite E1|done|by rewrite E3].
Qed.
Lemma same_slots f s s' i i' : same_file s s' i i' → slots f s' i' = slots f s i.
Proof. intros Hs%(same_all_blocks f). unfold all_blocks in Hs. by injection Hs. Qed.
Lemma same_fbyte f s s' i i' a : same_file s s' i i' → fbyte f s' i' a = fbyte f s i a.
Proof. intros Hs. unfold fbyte. by rewrite (same_slots f s s' i i' Hs). Qed.
Lemma same_inode_ok lo f s s' i i' : same_file s s' i i' → inode_ok lo f s i → inode_ok lo f s' i'.
Proof.
  intros Hs [I1 I2 I3 I4]. pose proof (same_all_blocks f s s' i i' Hs) as Ea. destruct Hs as [E1 E2 E3 E4].
  split; rewrite ?Ea, ?E1, ?E2, ?E3, ?E4; try done. unfold addr12. rewrite E1. exact I2.
Qed.

(** Another inode [j] whose blocks and indirect page are its own. *)
Record separate f (X : gset Z) s i j : Prop := {
  sp_blocks : ∀ b, b ∈ all_blocks f s j → b ≠ 0 → b ∉ all_blocks f s i;
  sp_page : i_indir j ≠ 0 → i_indir j ≠ i_indir i ∧ i_indir j ∉ X;
}.

Lemma other_file lo N K p f X s i f' X' s' i' start data j a :
  wrote lo N K p f X s i f' X' s' i' start data → inode_ok lo f s j → separate f X s i j → 0 <= a →
  fbyte f' s' j a = fbyte f s j a.
Proof.
  intros [G _ _ F _] Hj [Sb Sp] Ha.
  assert (Hblk : ∀ b o, b ∈ all_blocks f s j → b ≠ 0 → 0 <= o < BLOCK_SIZE →
    f' (b * BLOCK_SIZE + o) = f (b * BLOCK_SIZE + o)).
  { intros b o Hb Hn Ho. apply F; [done|right; by apply Sb|]. intros _. by apply (io_used _ _ _ _ Hj). }
  assert (Hs : slots f' s' j = slots f s j).
  { unfold slots. f_equal. unfold ind_words. do 2 (case_decide; [try done|]).
    - apply disk_words_ext. intros x Hx. replace x with (addr12 j * BLOCK_SIZE + (x - addr12 j * BLOCK_SIZE)) by lia.
      apply Hblk; [by left|done|lia].
    - destruct Sp as [Sp1 Sp2]; [done|]. by rewrite (gr_indirs G). }
  unfold fbyte. rewrite Hs. destruct (slots f s j !! _) as [b|] eqn:Eb; [|done]. simpl.
  destruct (Z.eqb_spec b 0) as [|Hb]; [done|].
  apply Hblk; [right; by eapply list_elem_of_lookup_2|done|apply Z.mod_pos_bound; done].
Qed.

Lemma io_fuel_span offset n : 0 <= n → span offset n < Z.of_nat (io_fuel n).
Proof.
  intros Hn. unfold span, io_fuel. assert (0 <= n / BLOCK_SIZE) by (apply Z.div_pos; done || lia).
  rewrite Z2Nat.id by lia. case_decide; [lia|]. pose proof (Z.mod_pos_bound offset BLOCK_SIZE ltac:(done)).
  apply Z.div_lt_upper_bound; [done|]. pose proof (Z.div_mod n BLOCK_SIZE ltac:(done)).
  pose proof (Z.mod_pos_bound n BLOCK_SIZE ltac:(done)). unfold BLOCK_SIZE in *. lia.
Qed.

(** * A file that can be read and written *)

Record file_ready (lo N K : Z) f (X : gset Z) s (p : Z) i (σ : gmap floc (list floc)) (ds : list Z) : Prop := {
  fr_fs : fs_ok lo N K f X s;
  fr_inode : inode_ok lo f s i;
  fr_at : inodes s !! p = Some i;
  fr_idle : idle (i_slock i);
  fr_sb : i_sb i = M_ESB;
  fr_lock : i_lock p ∉ efs_locks s;
  fr_dirty : dirty_ok s σ ds;
  fr_node : dirty_node s σ ds p;
  fr_room : X ≠ ∅ ∨ i_indir i ≠ 0;
}.

(** The offsets [efs_i_write] accepts. *)
Definition write_range i (offset len : Z) : Prop :=
  0 <= offset <= i_size (i_di i) ∧ 0 <= len ∧ offset + len <= MAXFILE * BLOCK_SIZE.

(** The write loop between taking and releasing the sleep lock. *)
Lemma locked_write me lo N K f X s p i σ ds offset data :
  file_ready lo N K f X s p i σ ds → write_range i offset (Z.of_nat (length data)) →
  span offset (Z.of_nat (length data)) + need i <= Bmp.unused (bmap s) →
  let i1 := set_i_slock (held me) i in let s1 := set_inodes (<[p := i1]> (inodes s)) s in
  i_sleep me p s = Done tt s1 ∧
  ∃ f' X' s' i', write_loop (io_fuel (Z.of_nat (length data))) p offset (Z.of_nat (length data)) 0 data s1 =
      Done (Z.of_nat (length data), offset + Z.of_nat (length data)) s' ∧
    wrote lo N K p f X s1 i1 f' X' s' i' offset data.
Proof.
  intros [R1 R2 R3 R4 R5 R6 R7 R8 R9] (Ho & Hl & Hmax) Hu i1 s1. split; [by apply i_sleep_ok|].
  assert (Hsame : same_file s s1 i i1) by done.
  assert (H32 : MAXFILE * BLOCK_SIZE < 2 ^ 32) by done.
  apply (write_loop_ok lo N K p); [by eapply fs_ok_same|by eapply same_inode_ok|apply lookup_insert_eq|lia..|done|done|].
  apply io_fuel_span. lia.
Qed.

Lemma size_update (d : easy_d_inode) (n : Z) :
  let d' := if i_size d <? n then set_i_size n d else d in
  i_size d' = Z.max (i_size d) n ∧ i_addrs d' = i_addrs d ∧ i_no d' = i_no d.
Proof. cbv zeta. destruct (Z.ltb_spec (i_size d) n); simpl; split_and!; lia || done. Qed.

Lemma efs_i_write_reject me lo N K f X s p i σ ds offset data :
  file_ready lo N K f X s p i σ ds → is_u32 offset → Z.of_nat (length data) < 2 ^ 32 →
  is_u32 (i_size (i_di i)) → i_size (i_di i) <= MAXFILE * BLOCK_SIZE →
  ¬ write_range i offset (Z.of_nat (length data)) →
  efs_i_write me p offset (Z.of_nat (length data)) data s = Done (-1) s.
Proof.
  intros Hr Hoff Hlen Hsz Hszm. unfold is_u32 in *.
  assert (H32 : MAXFILE * BLOCK_SIZE < 2 ^ 32) by done.
  unfold efs_i_write. rewrite (bind_Done _ _ _ _ _ (inode_at_ok _ _ _ (fr_at _ _ _ _ _ _ _ _ _ _ Hr))).
  intros Hn. destruct (Z.ltb_spec (i_size (i_di i)) offset); [done|].
  destruct (decide (offset + Z.of_nat (length data) < 2 ^ 32)) as [Hov|Hov].
  + rewrite u32_small by lia. destruct (Z.ltb_spec (offset + Z.of_nat (length data)) offset); [done|].
    destruct (Z.ltb_spec (MAXFILE * BLOCK_SIZE) (offset + Z.of_nat (length data))); [done|].
    destruct Hn. unfold write_range. lia.
  + assert (Eu : u32 (offset + Z.of_nat (length data)) = offset + Z.of_nat (length data) - 2 ^ 32).
    { unfold u32. symmetry. apply (Z.mod_unique _ _ 1); lia. }
    rewrite Eu. destruct (Z.ltb_spec (offset + Z.of_nat (length data) - 2 ^ 32) offset); [done|lia].
Qed.

Lemma efs_i_write_ok me lo N K f X s p i σ ds offset data :
  file_ready lo N K f X s p i σ ds → is_u32 offset → Z.of_nat (length data) < 2 ^ 32 →
  is_u32 (i_size (i_di i)) → i_size (i_di i) <= MAXFILE * BLOCK_SIZE →
  write_range i offset (Z.of_nat (length data)) →
  span offset (Z.of_nat (length data)) + need i <= Bmp.unused (bmap s) →
  ∃ f' X' s' i', efs_i_write me p offset (Z.of_nat (length data)) data s = Done (Z.of_nat (length data)) s' ∧
    inodes s' = <[p := i']> (inodes s) ∧
    file_ready lo N K f' X' s' p i' (<[S_idirty_list := I_dirty <$> with_dirty p ds]> σ) (with_dirty p ds) ∧
    i_size (i_di i') = Z.max (i_size (i_di i)) (offset + Z.of_nat (length data)) ∧
    i_flags i' = SET_FLAG (i_flags i) I_DIRTY ∧
    (∀ k, (k < length data)%nat → fbyte f' s' i' (offset + Z.of_nat k) = data !! k) ∧
    (∀ a v, 0 <= a → ¬ (offset <= a < offset + Z.of_nat (length data)) →
       fbyte f s i a = Some v → fbyte f' s' i' a = Some v) ∧
    (∀ j a, inode_ok lo f s j → separate f X s i j → 0 <= a → fbyte f' s' j a = fbyte f s j a).
Proof.
  intros Hr Hoff Hlen Hsz Hszm. unfold is_u32 in *.
  assert (H32 : MAXFILE * BLOCK_SIZE < 2 ^ 32) by done.
  unfold efs_i_write. rewrite (bind_Done _ _ _ _ _ (inode_at_ok _ _ _ (fr_at _ _ _ _ _ _ _ _ _ _ Hr))).
  intros Hw Hu. pose proof Hw as (Ho & Hl & Hmax).
  destruct (locked_write me lo N K f X s p i σ ds offset data Hr Hw Hu) as (E1 & f' & X' & s2 & i2 & E2 & W).
  destruct (Z.ltb_spec (i_size (i_di i)) offset); [lia|]. rewrite u32_small by lia.
  destruct (Z.ltb_spec (offset + Z.of_nat (length data)) offset); [lia|].
  destruct (Z.ltb_spec (MAXFILE * BLOCK_SIZE) (offset + Z.of_nat (length data))); [lia|]. cbn [orb].
  rewrite (bind_Done _ _ _ _ _ E1), (bind_Done _ _ _ _ _ E2).
  pose proof (wr_grown _ _ _ _ _ _ _ _ _ _ _ _ _ _ W) as G. destruct (gr_rest G) as [_ _ _ Q4 _ Q6 _ _ _].
  assert (Ei2 : inodes s2 !! p = Some i2) by (rewrite (gr_inodes G); apply lookup_insert_eq).
  assert (Eself := gr_self G).
  destruct Hr as [R1 R2 R3 R4 R5 R6 [R7 R7'] R8 R9].
  destruct (di_update_ok p (λ d, if i_size d <? offset + Z.of_nat (length data) then
      set_i_size (offset + Z.of_nat (length data)) d else d) i2 s2 σ ds) as (h & E3 & Hfam & Hon);
    [done|by rewrite Eself|split; by rewrite ?Q4|by unfold dirty_node; rewrite Q4|by rewrite Q6; apply (fo_lock _ _ _ _ _ _ R1)|by rewrite Q6|].
  rewrite (bind_Done _ _ _ _ _ E3).
  pose proof (size_update (i_di i2) (offset + Z.of_nat (length data))) as Hd. cbv zeta in Hd. cbv beta in E3.
  set (i3 := set_i_flags (SET_FLAG (i_flags i2) I_DIRTY) (set_i_di _ i2)) in *.
  set (s3 := set_nodes h (set_inodes (<[p := i3]> (inodes s2)) s2)) in *.
  assert (Ei3 : inodes s3 !! p = Some i3) by apply lookup_insert_eq.
  assert (Hb3 : busy (i_slock i3)) by (unfold i3; simpl; by rewrite Eself).
  rewrite (bind_Done _ _ _ _ _ (i_wake_ok p i3 s3 Ei3 Hb3)).
  set (i4 := set_i_slock released i3). set (s4 := set_inodes (<[p := i4]> (inodes s3)) s3).
  destruct Hd as (Hd1 & Hd2 & _).
  assert (Hsame : same_file s2 s4 i2 i4) by by split.
  exists f', X', s4, i4. split; [by rewrite i32_small by (unfold MAXFILE, BLOCK_SIZE in *; lia)|].
  split. { simpl. rewrite (gr_inodes G). simpl. by rewrite !insert_insert_eq. }
  split.
  { split.
    - eapply (fs_ok_same lo N K f' X' s2); [apply (gr_fs G)|done..].
    - eapply same_inode_ok; [exact Hsame|apply (gr_inode G)].
    - apply lookup_insert_eq.
    - done.
    - simpl. by rewrite Eself.
    - simpl. by rewrite Q6.
    - split; [exact Hfam|]. apply lookup_insert_eq.
    - left. unfold with_dirty. case_decide; [done|by left].
    - simpl. apply (gr_room G). exact R9. }
  split. { simpl. rewrite Hd1. by rewrite Eself. }
  split. { simpl. by rewrite Eself. }
  pose proof W as [_ D Kp F _]. split_and!.
  + intros k Hk. rewrite (same_fbyte f' s2 s4 i2 i4 _ Hsame). by apply D.
  + intros a v Ha Hn Hv. rewrite (same_fbyte f' s2 s4 i2 i4 _ Hsame). apply Kp; [done|done|].
    rewrite (same_fbyte f s _ i); [done|by split].
  + intros j a Hj Hsp Ha.
    set (s1 := set_inodes (<[p := set_i_slock (held me) i]> (inodes s)) s) in *.
    assert (Hj1 : same_file s s1 j j) by done.
    assert (Hi1 : same_file s s1 i (set_i_slock (held me) i)) by done.
    rewrite (same_fbyte f' s2 s4 j j) by done.
    rewrite (other_file lo N K p f X s1 (set_i_slock (held me) i) f' X' s2 i2 offset data j a);
      [by apply same_fbyte|exact W|by eapply same_inode_ok| |done].
    destruct Hsp as [Hs1 Hs2]. split; [|done].
    intros b. rewrite (same_all_blocks f s s1 j j Hj1), (same_all_blocks f s s1 i _ Hi1). apply Hs1.
Qed.

(** C2: A write inside the limits stores exactly the bytes given at the offset given,
    leaves the other bytes of the file, the other files and the blocks in use
    alone, grows the size to cover the range, and puts the inode on the dirty
    list; a write outside the limits returns -1 and changes nothing. *)
Theorem efs_i_write_correct me lo N K f X s p i σ ds offset data :
  file_ready lo N K f X s p i σ ds → is_u32 offset → Z.of_nat (length data) < 2 ^ 32 →
  is_u32 (i_size (i_di i)) → i_size (i_di i) <= MAXFILE * BLOCK_SIZE →
  (¬ write_range i offset (Z.of_nat (length data)) →
     efs_i_write me p offset (Z.of_nat (length data)) data s = Done (-1) s) ∧
  (write_range i offset (Z.of_nat (length data)) →
   span offset (Z.of_nat (length data)) + need i <= Bmp.unused (bmap s) →
   ∃ f' X' s' i', efs_i_write me p offset (Z.of_nat (length data)) data s = Done (Z.of_nat (length data)) s' ∧
     inodes s' = <[p := i']> (inodes s) ∧
     file_ready lo N K f' X' s' p i' (<[S_idirty_list := I_dirty <$> with_dirty p ds]> σ) (with_dirty p ds) ∧
     i_size (i_di i') = Z.max (i_size (i_di i)) (offset + Z.of_nat (length data)) ∧
     i_flags i' = SET_FLAG (i_flags i) I_DIRTY ∧
     (∀ k, (k < length data)%nat → fbyte f' s' i' (offset + Z.of_nat k) = data !! k) ∧
     (∀ a v, 0 <= a → ¬ (offset <= a < offset + Z.of_nat (length data)) →
        fbyte f s i a = Some v → fbyte f' s' i' a = Some v) ∧
     (∀ j a, inode_ok lo f s j → separate f X s i j → 0 <= a → fbyte f' s' j a = fbyte f s j a)).
Proof. intros. split; [by eapply efs_i_write_reject|by eapply efs_i_write_ok]. Qed.

(** ** Reading a range *)

Lemma fbyte_block f s i lb b o a :
  slots f s i !! Z.to_nat lb = Some b → b ≠ 0 → 0 <= o < BLOCK_SIZE → a = lb * BLOCK_SIZE + o →
  fbyte f s i a = f (b * BLOCK_SIZE + o).
Proof.
  intros Hb Hn Ho ->. unfold fbyte.
  rewrite Z.div_add_l, Z.div_small, Z.add_0_r, Hb by done || lia. simpl. destruct (Z.eqb_spec b 0); [done|].
  by rewrite (Z.add_comm (lb * BLOCK_SIZE)), Z.mod_add, Z.mod_small by done || lia.
Qed.

Lemma grown_bd lo N K f X p s i bd' :
  fs_ok lo N K f X (set_bd bd' s) → inode_ok lo f (set_bd bd' s) i → inodes s !! p = Some i →
  grown lo N K p f X s i f X (set_bd bd' s) i.
Proof.
  intros Hf Hi Ei. split; try done.
  - split; try done. exists (block_free (s_ds s)). apply ds_same.
  - by rewrite insert_id.
  - by destruct i as [[] ? ? ? ? ?].
  - intros b Hb _. by left.
  - by left.
Qed.

Lemma read_loop_ok lo N K p (fuel : nat) : ∀ f X s i offset len tot acc,
  fs_ok lo N K f X s → inode_ok lo f s i → inodes s !! p = Some i →
  0 <= offset → 0 <= tot <= len → offset + (len - tot) <= MAXFILE * BLOCK_SIZE → len < 2 ^ 32 →
  (X ≠ ∅ ∨ i_indir i ≠ 0) → span offset (len - tot) < Z.of_nat fuel →
  ∃ d X' s' i', read_loop fuel p offset len tot acc s = Done (tot + Z.of_nat (length d), acc ++ d) s' ∧
    grown lo N K p f X s i f X' s' i' ∧ slots f s' i' = slots f s i ∧ i_di i' = i_di i ∧ bmap s' = bmap s ∧
    Z.of_nat (length d) <= len - tot ∧
    (∀ k, (k < length d)%nat → d !! k = fbyte f s i (offset + Z.of_nat k)) ∧
    (Z.of_nat (length d) = len - tot ∨
     slots f s i !! Z.to_nat ((offset + Z.of_nat (length d)) / BLOCK_SIZE) = Some 0).
Proof.
  induction fuel as [|fuel IH]; intros f X s i offset len tot acc Hf Hi Ei Ho Ht He Hl Hroom Hfuel.
  { assert (0 <= span offset (len - tot)); [|lia].
    destruct (decide (len - tot = 0)) as [E|]; [by rewrite E|].
    transitivity 1; [lia|]. apply span_pos. lia. }
  assert (H32 : MAXFILE * BLOCK_SIZE < 2 ^ 32) by done.
  cbn [read_loop]. destruct (Z.ltb_spec tot len) as [Htl|Htl]; cycle 1.
  { exists [], X, s, i. rewrite app_nil_r. simpl. split; [f_equal; f_equal; lia|]. split; [by apply grown_refl|].
    split_and!; [done|done|done|lia|lia|left; lia]. }
  pose proof (Z.mod_pos_bound offset BLOCK_SIZE ltac:(done)) as Hmod.
  pose proof (Z.div_mod offset BLOCK_SIZE ltac:(done)) as Hdm.
  set (lb := offset / BLOCK_SIZE) in *. set (o := offset mod BLOCK_SIZE) in *.
  assert (Hlb : 0 <= lb < MAXFILE).
  { split; [apply Z.div_pos; done|]. apply Z.div_lt_upper_bound; [done|]. lia. }
  destruct (efs_i_bmap_peek lo N K f X p s i lb) as (b & X1 & s1 & i1 & E1 & G1 & Hb & Hsl & Edi & Ebm); [done..|].
  rewrite (bind_Done _ _ _ _ _ E1). destruct (Z.eqb_spec b 0) as [->|Hn].
  { exists [], X1, s1, i1. rewrite app_nil_r. simpl. rewrite !Z.add_0_r.
    split_and!; [done|done|done|done|done|lia|lia|by right]. }
  cbv zeta. set (m := Z.min (u32 (len - tot)) (BLOCK_SIZE - o)).
  assert (Hm : m = Z.min (len - tot) (BLOCK_SIZE - o)) by (unfold m; by rewrite u32_small by lia).
  destruct (block_small _ _ _ _ _ _ _ b Hf Hi) as (_ & _ & Hbr); [right; by eapply list_elem_of_lookup_2|].
  specialize (Hbr Hn). pose proof (gr_fs G1) as Hf1. pose proof (gr_inode G1) as Hi1.
  destruct (dev_read_ok N K f s1 b o m) as (bd' & E2 & Hr');
    [apply (fo_dev _ _ _ _ _ _ Hf1)|apply (fo_K _ _ _ _ _ _ Hf1)|lia..|].
  rewrite (bind_Done _ _ _ _ _ E2). set (d1 := disk_bytes f (b * BLOCK_SIZE + o) (Z.to_nat m)).
  assert (Hl1 : Z.of_nat (length d1) = m) by (unfold d1; rewrite length_disk_bytes; lia).
  assert (Hd1 : ∀ k, (k < length d1)%nat → d1 !! k = fbyte f s i (offset + Z.of_nat k)).
  { intros k Hk. unfold d1. rewrite disk_bytes_lookup by lia.
    rewrite (fbyte_block f s i lb b (o + Z.of_nat k)); [|done|done|lia|lia]. rewrite Z.add_assoc.
    destruct (bd_dom _ _ _ _ (b * BLOCK_SIZE + o + Z.of_nat k) (fo_dev _ _ _ _ _ _ Hf)) as [v ->]; [|done].
    unfold BLK_SIZE, BLOCK_SIZE in *. nia. }
  rewrite (u32_small (offset + m)), (u32_small (tot + m)) by lia.
  set (s2 := set_bd bd' s1). assert (Hs2 : same_file s1 s2 i1 i1) by done.
  assert (Hf2 : fs_ok lo N K f X1 s2) by by destruct Hf1; split.
  assert (Hi2 : inode_ok lo f s2 i1) by by eapply same_inode_ok.
  assert (Ei2 : inodes s2 !! p = Some i1) by (simpl; rewrite (gr_inodes G1); apply lookup_insert_eq).
  assert (Hsp2 : span (offset + m) (len - (tot + m)) < Z.of_nat fuel).
  { destruct (decide (len - (tot + m) = 0)) as [Ez|Hz]; [rewrite Ez; unfold span; rewrite decide_True by done|].
    - pose proof (span_pos offset (len - tot) ltac:(lia)). lia.
    - replace (len - tot) with (m + (len - (tot + m))) in Hfuel by lia.
      rewrite span_block in Hfuel; [lia|lia|lia|]. fold o. lia. }
  destruct (IH f X1 s2 i1 (offset + m) len (tot + m) (acc ++ d1)) as
    (d2 & X3 & s3 & i3 & E3 & G3 & Hsl3 & Edi3 & Ebm3 & Hl3 & Hd3 & Hend); [done..|lia|lia|lia|done|by apply (gr_room G1)|done|].
  assert (G2 : grown lo N K p f X s i f X1 s2 i1).
  { eapply grown_trans; [apply (fo_lo _ _ _ _ _ _ Hf)|exact G1|]. by apply grown_bd. }
  exists (d1 ++ d2), X3, s3, i3. rewrite E3, <-app_assoc, !length_app, !Nat2Z.inj_add.
  rewrite (same_slots f s1 s2 i1 i1 Hs2) in Hsl3.
  split; [f_equal; f_equal; lia|]. split; [eapply grown_trans; [apply (fo_lo _ _ _ _ _ _ Hf)|exact G2|exact G3]|].
  split; [congruence|]. split; [congruence|]. split; [by rewrite Ebm3|]. split; [lia|]. split.
  - intros k Hk. destruct (decide (k < length d1)%nat) as [Hk1|Hk1].
    + rewrite lookup_app_l by done. by apply Hd1.
    + rewrite lookup_app_r, Hd3 by lia. rewrite (same_fbyte f s1 s2 i1 i1) by done. unfold fbyte. rewrite Hsl.
      replace (offset + m + Z.of_nat (k - length d1)) with (offset + Z.of_nat k) by lia. done.
  - destruct Hend as [?|Hend]; [left; lia|right].
    rewrite (same_slots f s1 s2 i1 i1 Hs2), Hsl in Hend. rewrite <-Hend. f_equal. f_equal. f_equal. lia.
Qed.

(** ** [efs_i_read] *)

(** How many bytes a read of [len] bytes at [offset] is about. *)
Definition read_len i (offset len : Z) : Z := Z.min len (i_size (i_di i) - offset).

Lemma efs_i_read_past me lo N K f X s p i σ ds offset len :
  file_ready lo N K f X s p i σ ds → is_u32 offset → is_u32 len → is_u32 (i_size (i_di i)) →
  i_size (i_di i) <= MAXFILE * BLOCK_SIZE →
  i_size (i_di i) < offset ∨ 2 ^ 32 <= offset + len → efs_i_read me p offset len s = Done (0, []) s.
Proof.
  intros Hr Hoff Hlen Hsz Hszm. unfold is_u32 in *.
  assert (H32 : MAXFILE * BLOCK_SIZE < 2 ^ 32) by done.
  unfold efs_i_read. rewrite (bind_Done _ _ _ _ _ (inode_at_ok _ _ _ (fr_at _ _ _ _ _ _ _ _ _ _ Hr))). cbv zeta.
  intros Hn. destruct (Z.ltb_spec (i_size (i_di i)) offset); [done|].
  destruct Hn as [?|Hov]; [lia|].
  assert (Eu : u32 (offset + len) = offset + len - 2 ^ 32) by (unfold u32; symmetry; apply (Z.mod_unique _ _ 1); lia).
  rewrite Eu. destruct (Z.ltb_spec (offset + len - 2 ^ 32) offset); [done|lia].
Qed.

Lemma efs_i_read_ok me lo N K f X s p i σ ds offset len :
  file_ready lo N K f X s p i σ ds → is_u32 offset → is_u32 len → is_u32 (i_size (i_di i)) →
  i_size (i_di i) <= MAXFILE * BLOCK_SIZE →
  offset <= i_size (i_di i) → offset + len < 2 ^ 32 →
  ∃ d X' s' i', efs_i_read me p offset len s = Done (Z.of_nat (length d), d) s' ∧
    (∀ k, (k < length d)%nat → d !! k = fbyte f s i (offset + Z.of_nat k)) ∧
    (Z.of_nat (length d) = read_len i offset len ∨
     (Z.of_nat (length d) < read_len i offset len ∧ fbyte f s i (offset + Z.of_nat (length d)) = None)) ∧
    inodes s' = <[p := i']> (inodes s) ∧ i_di i' = i_di i ∧ file_ready lo N K f X' s' p i' σ ds ∧
    (∀ a, fbyte f s' i' a = fbyte f s i a) ∧ bmap s' = bmap s.
Proof.
  intros Hr Hoff Hlen Hsz Hszm. unfold is_u32 in *.
  assert (H32 : MAXFILE * BLOCK_SIZE < 2 ^ 32) by done.
  unfold efs_i_read. rewrite (bind_Done _ _ _ _ _ (inode_at_ok _ _ _ (fr_at _ _ _ _ _ _ _ _ _ _ Hr))). cbv zeta.
  intros Ho Hov. destruct (Z.ltb_spec (i_size (i_di i)) offset); [lia|]. rewrite !(u32_small (offset + len)) by lia.
  destruct (Z.ltb_spec (offset + len) offset); [lia|]. cbn [orb].
  assert (Hl' : (if i_size (i_di i) <? offset + len then u32 (i_size (i_di i) - offset) else len) = read_len i offset len).
  { unfold read_len. destruct (Z.ltb_spec (i_size (i_di i)) (offset + len)); rewrite ?u32_small by lia; lia. }
  rewrite Hl'. set (n := read_len i offset len). assert (Hn : 0 <= n <= len ∧ offset + n <= i_size (i_di i)) by (unfold n, read_len; lia).
  destruct Hr as [R1 R2 R3 R4 R5 R6 [R7 R7'] R8 R9].
  rewrite (bind_Done _ _ _ _ _ (i_sleep_ok me p i s R3 R4)).
  set (i1 := set_i_slock (held me) i). set (s1 := set_inodes (<[p := i1]> (inodes s)) s).
  assert (Hs1 : same_file s s1 i i1) by done.
  destruct (read_loop_ok lo N K p (io_fuel n) f X s1 i1 offset n 0 []) as
    (d & X' & s2 & i2 & E2 & G & Hsl & Edi & Ebm & Hdl & Hd & Hend);
    [by eapply fs_ok_same|by eapply same_inode_ok|apply lookup_insert_eq|lia|lia|lia|lia|done| |].
  { rewrite Z.sub_0_r. apply io_fuel_span. lia. }
  rewrite (bind_Done _ _ _ _ _ E2). rewrite Z.add_0_l, app_nil_l.
  assert (Ei2 : inodes s2 !! p = Some i2) by (rewrite (gr_inodes G); apply lookup_insert_eq).
  assert (Eself := gr_self G). destruct (gr_rest G) as [_ _ _ Q4 _ Q6 _ _ _].
  rewrite (bind_Done _ _ _ _ _ (i_wake_ok p i2 s2 Ei2 ltac:(by rewrite Eself))).
  set (i3 := set_i_slock released i2). set (s3 := set_inodes (<[p := i3]> (inodes s2)) s2).
  assert (Hs3 : same_file s2 s3 i2 i3) by done.
  exists d, X', s3, i3. split; [done|]. split.
  { intros k Hk. rewrite Hd by done. by apply same_fbyte. }
  split.
  { destruct Hend as [?|Hz]; [left; lia|]. destruct (decide (Z.of_nat (length d) = n)); [by left|right].
    split; [fold n; lia|]. unfold fbyte. rewrite <-(same_slots f s s1 i i1 Hs1), Hz. done. }
  split. { simpl. rewrite (gr_inodes G). simpl. by rewrite !insert_insert_eq. }
  split; [exact Edi|]. split.
  { split.
    - eapply (fs_ok_same lo N K f X' s2); [apply (gr_fs G)|done..].
    - eapply same_inode_ok; [exact Hs3|apply (gr_inode G)].
    - apply lookup_insert_eq.
    - done.
    - simpl. by rewrite Eself.
    - simpl. by rewrite Q6.
    - split; simpl; by rewrite ?Q4.
    - unfold dirty_node. simpl. by rewrite Q4.
    - simpl. apply (gr_room G). exact R9. }
  split; [|exact Ebm]. intros a. rewrite (same_fbyte f s2 s3 i2 i3 a Hs3). unfold fbyte.
  by rewrite Hsl, (same_slots f s s1 i i1 Hs1).
Qed.

(** C3: A read returns the bytes of the file from the offset on, as many as asked
    for and present, up to the first block that is not mapped; the contents of
    the file and the free blocks stay.  Past the end it returns 0. *)
Theorem efs_i_read_correct me lo N K f X s p i σ ds offset len :
  file_ready lo N K f X s p i σ ds → is_u32 offset → is_u32 len → is_u32 (i_size (i_di i)) →
  i_size (i_di i) <= MAXFILE * BLOCK_SIZE →
  (i_size (i_di i) < offset ∨ 2 ^ 32 <= offset + len → efs_i_read me p offset len s = Done (0, []) s) ∧
  (offset <= i_size (i_di i) → offset + len < 2 ^ 32 →
   ∃ d X' s' i', efs_i_read me p offset len s = Done (Z.of_nat (length d), d) s' ∧
     (∀ k, (k < length d)%nat → d !! k = fbyte f s i (offset + Z.of_nat k)) ∧
     (Z.of_nat (length d) = read_len i offset len ∨
      (Z.of_nat (length d) < read_len i offset len ∧ fbyte f s i (offset + Z.of_nat (length d)) = None)) ∧
     inodes s' = <[p := i']> (inodes s) ∧ i_di i' = i_di i ∧ file_ready lo N K f X' s' p i' σ ds ∧
     (∀ a, fbyte f s' i' a = fbyte f s i a) ∧ bmap s' = bmap s).
Proof. intros. split; [by eapply efs_i_read_past|by eapply efs_i_read_ok]. Qed.

(** ** The indirect block is not cleared *)

(** When the indirect block is allocated, its words are what the free block held:
    a word that is not 0 becomes the block of the file at that place, although
    nothing was allocated for it.  (The invariant above therefore asks for free
    blocks to be zero, which [efs_i_trunc] does not provide.) *)
Theorem stale_indirect_block lo N K f X p s i k :
  bd_rep (s_bd s) N K f → 1 <= K → Bmp.bitmap_wf lo (bmap s) → 0 < lo →
  Bmp.size (bmap s) <= N → Bmp.size (bmap s) < 2 ^ 31 → sb_lock ∉ efs_locks s → page_rep (pagea s) X → X ≠ ∅ →
  inodes s !! p = Some i → length (i_addrs (i_di i)) = 13%nat → addr12 i = 0 → i_indir i = 0 →
  (k < NINDIRECT)%nat → Bmp.unused (bmap s) ≠ 0 →
  ∃ b, lo <= b < Bmp.size (bmap s) ∧ Bmp.used (bmap s) b = false ∧ (∀ j, lo <= j < b → Bmp.used (bmap s) j = true) ∧
    ∀ w, disk_words f b !! k = Some w → w ≠ 0 → i32 w ≠ 0 →
    ∃ s', efs_i_bmap p (Z.of_nat (NDIRECT + k)) true s = Done (i32 w) s' ∧
      ∀ j, 0 <= j → Bmp.used (bmap s') j = if decide (j = b) then true else Bmp.used (bmap s) j.
Proof.
  intros Hr HK Hwf Hlo HN Hsz Hlk Hpg HX Ei Hl H12 Hin Hk Hu.
  destruct (bmap_alloc_locked_ok lo s Hwf ltac:(lia) Hu Hlk)
    as (t & s1 & E1 & Hrest & Ebd & Eis & Eind & Epg & _ & Ht & Hfree & _ & _ & Hus & Hleast).
  exists t. split; [done|]. split; [done|]. split; [done|]. intros w Hw Hw0 Hw32.
  destruct (lookup_lt_is_Some_2 (i_addrs (i_di i)) NDIRECT) as [a Ea]; [unfold NDIRECT; lia|].
  assert (a = 0) as -> by (unfold addr12 in H12; by rewrite Ea in H12).
  set (i1 := set_i_di (set_i_addrs (<[NDIRECT := t]> (i_addrs (i_di i))) (i_di i)) i).
  set (s2 := set_inodes (<[p := i1]> (inodes s)) s1).
  assert (E2 : slot_block p NDIRECT true s = Done t s2).
  { unfold slot_block. rewrite (bind_Done _ _ _ 0 s) by (unfold addr_at, deref; rewrite Ei; simpl; by rewrite Ea).
    change (i32 0 =? 0) with true. cbv iota. rewrite (bind_Done _ _ _ _ _ E1), (bind_Done _ _ _ tt s2); [done|].
    unfold set_addr, di_mod. rewrite (inode_mod_ok _ _ i) by by rewrite Eis. rewrite Eis. unfold s2, i1.
    by rewrite u32_small by lia. }
  destruct (alloc_zeroed_ok _ _ Hpg HX) as (pg & a' & Eal & Hpin & _).
  assert (Hpg0 : pg ≠ 0).
  { destruct (page_rep_phys _ _ _ Hpg Hpin) as (q & Hq & ->). pose proof ALL_PFN_val. unfold KERNBASE, PGSIZE in *. lia. }
  set (i3 := set_i_indir pg i1).
  set (s3 := set_indirs (<[pg := replicate NINDIRECT 0]> (indirs s)) (set_inodes (<[p := i3]> (inodes s)) (set_pagea a' s1))).
  destruct (dev_read_ok N K f s3 t 0 4096) as (b' & E3 & _); [by rewrite <-Ebd in Hr|done|lia..|done|lia|].
  set (s4 := set_indirs (<[pg := disk_words f t]> (indirs s)) (set_bd b' s3)).
  assert (E4 : load_indir p t s2 = Done tt s4).
  { unfold load_indir. rewrite (bind_Done _ _ _ i1 s2) by (apply inode_at_ok; apply lookup_insert_eq).
    change (i_indir i1) with (i_indir i). rewrite Hin, Z.eqb_refl.
    rewrite (bind_Done _ _ _ pg (set_pagea a' s2)) by (unfold zoom; simpl; by rewrite Epg, Eal).
    rewrite (bind_Done _ _ _ tt (set_inodes (<[p := i3]> (inodes s)) (set_pagea a' s1))).
    2:{ rewrite (inode_mod_ok p _ i1) by apply lookup_insert_eq. f_equal. unfold s2. destruct s1; cbn. by rewrite insert_insert_eq. }
    rewrite (bind_Done _ _ _ tt s3) by (unfold modify, s3; simpl; by rewrite Eind).
    rewrite (bind_Done _ _ _ _ _ E3). rewrite Z.add_0_r. unfold modify, s4. f_equal. unfold s3. destruct s1; cbn.
    by rewrite insert_insert_eq. }
  exists s4. split; [|exact Hus].
  unfold efs_i_bmap. unfold NINDIRECT, NDIRECT in Hk.
  destruct (Z.ltb_spec (Z.of_nat (NDIRECT + k)) 0); [lia|].
  destruct (Z.ltb_spec (Z.of_nat (NDIRECT + k)) (Z.of_nat NDIRECT)); [lia|]. cbv zeta.
  destruct (Z.ltb_spec (Z.of_nat (NDIRECT + k) - Z.of_nat NDIRECT) (Z.of_nat NINDIRECT)); [|unfold NINDIRECT in *; lia].
  rewrite (bind_Done _ _ _ _ _ E2). destruct (Z.eqb_spec t 0); [lia|].
  rewrite (bind_Done _ _ _ _ _ E4). rewrite (bind_Done _ _ _ i3 s4) by (apply inode_at_ok; apply lookup_insert_eq).
  replace (Z.to_nat (Z.of_nat (NDIRECT + k) - Z.of_nat NDIRECT)) with k by lia.
  rewrite (bind_Done _ _ _ w s4).
  2:{ unfold word_at, deref. simpl. rewrite lookup_insert_eq. simpl. by rewrite Hw. }
  by destruct (Z.eqb_spec w 0).
Qed.
End file.

(** * A small file system for the examples

    Sixteen blocks on a RAM disk; the file 7 holds "hello" in block 3. *)

Definition hello : list Z := [104; 101; 108; 108; 111].
Definition demo_inode : easy_m_inode :=
  MInode (DInode 2 F_REG 0 0 5 (3 :: replicate 12 0) 1) released 0 I_VALID M_ESB 0.
Definition demo_bits : Bmp.bitmap := Bmp.Bitmap [15] 16 12 4.
Definition demo_ht : Hash.hash_table floc := Hash.Build_hash_table 0 0 [] [].
Definition demo_efs (bytes : gmap Z Z) (i : easy_m_inode) : efs page_stock stock ramdisk :=
  Efs (Ramdisk 16 bytes) (DSuper 15 13 128 2 2 16 12 4096 2 3 (replicate 16 0) EASYFS_MAGIC) 0 demo_bits demo_bits
    demo_ht demo_ht (INIT_LIST_HEAD S_idirty_list (INIT_LIST_HEAD (I_dirty 7) ∅)) {[7 := i]} ∅ ∅ ∅
    (Stock [] ∅) (Stock [] ∅) (PageStock [KERNBASE + PGSIZE * 5]).
Definition demo_bytes : gmap Z Z := rd_store (3 * 4096) hello ∅.
Definition demo_f (bytes : gmap Z Z) (a : Z) : option Z :=
  if decide (0 <= a < 16 * BLK_SIZE) then Some (rd_at (Ramdisk 16 bytes) a) else None.
Definition demo_pages : gset Z := {[KERNBASE + PGSIZE * 5]}.
Definition demo_lists : gmap floc (list floc) := {[S_idirty_list := []]}.

Lemma disk_words_zero f b :
  (∀ x, b * BLOCK_SIZE <= x < (b + 1) * BLOCK_SIZE → default 0 (f x) = 0) → disk_words f b = replicate NINDIRECT 0.
Proof.
  intros Hz. unfold disk_words. apply list_eq. intros k. destruct (decide (k < NINDIRECT)%nat) as [Hk|Hk].
  - rewrite decode_words_lookup, lookup_replicate_2 by done. f_equal. unfold field.
    assert (Hall : ∀ l, (∀ x, x ∈ l → x = 0) → unle l = 0).
    { induction l as [|x l IH]; intros Hl; simpl; [done|]. rewrite (Hl x), IH; [done| |by left].
      intros y Hy. apply Hl. by right. }
    apply Hall. intros x Hx. apply list_elem_of_lookup in Hx as [j Hj]. apply lookup_take_Some in Hj as [Hj _].
    rewrite lookup_drop in Hj. pose proof (lookup_lt_Some _ _ _ Hj) as Hl. rewrite length_disk_bytes in Hl.
    rewrite disk_bytes_lookup in Hj by done. injection Hj as <-. apply Hz. unfold BLOCK_SIZE in *. lia.
  - rewrite !lookup_ge_None_2; [done|rewrite length_replicate; lia|rewrite length_decode_words; lia].
Qed.

Lemma demo_bits_wf : Bmp.bitmap_wf 1 demo_bits.
Proof.
  split; simpl; [lia| |lia|lia| |by vm_compute].
  - intros [|i] w [= <-]. lia.
  - intros j Hj. assert (j = 1 ∨ j = 2 ∨ j = 3) as [->|[->| ->]] by lia; done.
Qed.

Lemma demo_pages_rep : page_rep (PageStock [KERNBASE + PGSIZE * 5]) demo_pages.
Proof.
  split; [unfold demo_pages; simpl; set_solver|]. split; [apply NoDup_singleton|].
  intros q ->%list_elem_of_singleton. exists 5. split; [rewrite ALL_PFN_val; lia|done].
Qed.

Lemma demo_ready : file_ready 1 16 4 (demo_f demo_bytes) demo_pages (demo_efs demo_bytes demo_inode) 7 demo_inode demo_lists [].
Proof.
  split; try done.
  - split; simpl; try done; [apply demo_bits_wf| |apply demo_pages_rep].
    intros b Hb Hu. apply disk_words_zero. intros x Hx. unfold demo_f, BLOCK_SIZE, BLK_SIZE in *.
    rewrite decide_True by lia.
    change (default 0 (rd_store (3 * 4096) hello ∅ !! x) = 0). rewrite rd_store_lookup.
    rewrite decide_False; [done|]. intros Hr. simpl length in Hr. assert (b = 3) as -> by lia. done.
  - split; try done.
    + intros j k b Hj Hk Hb.
      assert (E : ∀ j, all_blocks (demo_f demo_bytes) (demo_efs demo_bytes demo_inode) demo_inode !! j = Some b → j = 1%nat); [|by rewrite (E j), (E k)].
      intros [|[|j']] E; [by injection E as <-|done|].
      assert (E' : (replicate 11 0 ++ replicate NINDIRECT 0) !! j' = Some b) by exact E.
      apply list_elem_of_lookup_2 in E'. exfalso. apply Hb.
      by apply elem_of_app in E' as [[-> _]%elem_of_replicate|[-> _]%elem_of_replicate].
    + intros b Hb Hn. change (all_blocks _ _ _) with (0 :: 3 :: replicate 11 0 ++ replicate NINDIRECT 0) in Hb.
      apply elem_of_cons in Hb as [->|Hb]; [done|]. apply elem_of_cons in Hb as [->|Hb]; [done|].
      by apply elem_of_app in Hb as [[-> _]%elem_of_replicate|[-> _]%elem_of_replicate].
  - split; [|done]. unfold demo_lists. split.
    + intros hd xs [<- <-]%lookup_singleton_Some. split; [apply NoDup_singleton|]. done.
    + intros hd1 hd2 xs1 xs2 q [<- <-]%lookup_singleton_Some [<- <-]%lookup_singleton_Some. done.
  - right. split; [|done]. unfold demo_lists. intros (hd & xs & [<- <-]%lookup_singleton_Some & Hq). by apply list_elem_of_singleton in Hq.
  - left. unfold demo_pages. set_solver.
Qed.

(** Overwriting "lo" and appending two bytes. *)
Lemma efs_i_write_correct_witness :
  ∃ s', efs_i_write 1 7 3 4 [76; 79; 33; 33] (demo_efs demo_bytes demo_inode) = Done 4 s' ∧
    ∃ i', inodes s' !! 7 = Some i' ∧ i_size (i_di i') = 7.
Proof.
  destruct (efs_i_write_correct 1 _ _ _ _ _ _ _ _ _ _ 3 [76; 79; 33; 33] demo_ready ltac:(done) ltac:(done) ltac:(done) ltac:(done))
    as [_ Hw].
  destruct Hw as (f' & X' & s' & i' & E & Ei & _ & Hsz & _); [by vm_compute|by vm_compute|].
  exists s'. split; [exact E|]. exists i'. split; [rewrite Ei; apply lookup_insert_eq|exact Hsz].
Defined.

(** Reading ten bytes from offset 1 gives the four that are there. *)
Lemma efs_i_read_correct_witness :
  ∃ s', efs_i_read 1 7 1 10 (demo_efs demo_bytes demo_inode) = Done (4, [101; 108; 108; 111]) s'.
Proof.
  destruct (efs_i_read_correct 1 _ _ _ _ _ _ _ _ _ _ 1 10 demo_ready ltac:(done) ltac:(done) ltac:(done) ltac:(done))
    as [_ Hr].
  destruct Hr as (d & X' & s' & i' & E & _ & _); [by vm_compute|by vm_compute|].
  assert (d = [101; 108; 108; 111]) as -> by (clear -E; vm_compute in E; by injection E). exists s'. exact E.
Defined.

(** Block 4 is free and starts with the word 9: the thirteenth block of the
    file is then block 9, which nobody allocated. *)
Definition stale_bytes : gmap Z Z := rd_store (4 * 4096) [9; 0; 0; 0] ∅.
Lemma stale_indirect_block_witness :
  ∃ s', efs_i_bmap 7 12 true (demo_efs stale_bytes demo_inode) = Done 9 s' ∧ Bmp.used (bmap s') 9 = false.
Proof.
  destruct (stale_indirect_block 1 16 4 (demo_f stale_bytes) demo_pages 7 (demo_efs stale_bytes demo_inode) demo_inode 0)
    as (b & Hb & Hu & Hl & Hw); try done.
  - apply demo_bits_wf.
  - apply demo_pages_rep.
  - unfold NINDIRECT. lia.
  - assert (b = 4) as ->.
    { destruct (decide (b < 4)); [|destruct (decide (b = 4)); [done|by specialize (Hl 4 ltac:(lia))]].
      simpl in Hb. assert (b = 1 ∨ b = 2 ∨ b = 3) as [->|[->| ->]] by lia; done. }
    destruct (Hw 9) as (s' & E & Hs); [by vm_compute|done|done|]. exists s'. split; [exact E|]. by rewrite Hs.
Defined.
