(* ===== verification/EfsInode.v ===== *)
(** Inodes between memory and disk: [efs_i_update], [efs_i_fill], [efs_i_get],
    [efs_i_trunc] and the inode part of [efs_sync] (fs/easyfs/inode.c,
    fs/easyfs/super.c).

    [inode_slot s ino] is the disk address of inode [ino]'s 72 bytes. *)
From S2P Require Import Prelude ListLib Containers Bitmap Buddy PageAlloc Semaphore ObjCache Bio BlockDev Layout Efs EfsFile.

#[local] Arguments replicate : simpl never.
#[local] Arguments decode_words : simpl never.

Section inode.
Context {P C B : Type} `{PageAllocLaws P} `{ObjCacheLaws C} `{BlockDevLaws B}.
Local Notation "'fs'" := (efs P C B).
Implicit Types (s : fs) (i : easy_m_inode) (f : Z → option Z).

Definition inode_slot s (ino : Z) : Z := inode_area_start (s_ds s) * BLOCK_SIZE + ino * inode_size (s_ds s).
Definition slot_block_no s (ino : Z) : Z := inode_slot s ino / BLOCK_SIZE.

(** The inode table holds a slot for [ino]: slots do not straddle blocks. *)
Record table_ok (N : Z) s (ino : Z) : Prop := {
  to_ino : 0 < ino;
  to_start : 0 <= inode_area_start (s_ds s) < 2 ^ 31;
  to_size : Z.of_nat D_INODE_BYTES <= inode_size (s_ds s) ∧ (inode_size (s_ds s) | BLOCK_SIZE);
  to_off : ino * inode_size (s_ds s) < 2 ^ 31;
  to_end : inode_slot s ino + Z.of_nat D_INODE_BYTES <= N * BLOCK_SIZE;
}.

(** The slot lies inside its block. *)
Lemma slot_in_block N s ino :
  table_ok N s ino →
  (ino * inode_size (s_ds s)) mod BLOCK_SIZE + Z.of_nat D_INODE_BYTES <= BLOCK_SIZE ∧
  slot_block_no s ino * BLOCK_SIZE <= inode_slot s ino ∧
  inode_slot s ino + Z.of_nat D_INODE_BYTES <= (slot_block_no s ino + 1) * BLOCK_SIZE.
Proof.
  intros [T1 T2 [T3 [k Hk]] T4 T5]. unfold slot_block_no, inode_slot in *.
  set (z := inode_size (s_ds s)) in *. change (Z.of_nat D_INODE_BYTES) with 72 in *. unfold BLOCK_SIZE in *.
  rewrite Z.div_add_l by lia. assert (Hkp : 0 < k) by nia.
  assert (Hm : (ino * z) mod 4096 <= 4096 - z).
  { rewrite Hk. rewrite Z.mul_mod_distr_r by lia. pose proof (Z.mod_pos_bound ino k Hkp). nia. }
  pose proof (Z.div_mod (ino * z) 4096 ltac:(done)). pose proof (Z.mod_pos_bound (ino * z) 4096 ltac:(done)). lia.
Qed.

Lemma range_one_block N K bno off len :
  1 <= K → N <= 2 ^ 32 → 0 <= bno → 0 <= off < 2 ^ 32 → 0 < len → off mod BLOCK_SIZE + len <= BLOCK_SIZE →
  bno * BLOCK_SIZE + off + len <= N * BLOCK_SIZE → bd_range N K bno off len.
Proof.
  intros HK HN Hb Ho Hl Hm He. unfold bd_range, is_u32, blocks_of, BLK_SIZE. unfold BLOCK_SIZE in *.
  pose proof (Z.mod_pos_bound off 4096 ltac:(done)).
  split_and!; try lia. destruct (Z.eqb_spec len 0); [lia|].
  assert ((off mod 4096 + len - 1) / 4096 = 0) as ->; [apply Z.div_small; lia|lia].
Qed.

Lemma dev_read_range N K f s bno off len :
  bd_rep (s_bd s) N K f → bd_range N K bno off len → 0 <= bno →
  ∃ b', dev_read bno off len s = Done (disk_bytes f (bno * BLOCK_SIZE + off) (Z.to_nat len)) (set_bd b' s) ∧
    bd_rep b' N K f.
Proof.
  intros Hr Hrange Hb. destruct (bd_read_ok _ _ _ _ _ _ _ Hr Hrange) as (d & b' & E & Hlen & Hd & Hr').
  destruct Hrange as (R1 & R2 & R3 & R4 & _). unfold is_u32 in *.
  exists b'. split; [|done]. unfold dev_read, zoom. rewrite !u32_small by lia. rewrite E. f_equal.
  apply list_eq. intros k. destruct (decide (Z.of_nat k < len)) as [Hk|Hk].
  - rewrite disk_bytes_lookup by lia. rewrite Hd by done. unfold BLK_SIZE in *. unfold BLOCK_SIZE.
    destruct (bd_dom _ _ _ _ (bno * 4096 + off + Z.of_nat k) Hr) as [x ->]; [unfold BLK_SIZE; lia|done].
  - rewrite !lookup_ge_None_2; [done|rewrite length_disk_bytes; lia|lia].
Qed.

Lemma dev_write_range N K f s bno off data :
  bd_rep (s_bd s) N K f → bd_range N K bno off (Z.of_nat (length data)) →
  ∃ b', dev_write bno off data s = Done tt (set_bd b' s) ∧ bd_rep b' N K (fwrite (bno * BLOCK_SIZE + off) data f).
Proof.
  intros Hr Hrange. destruct (bd_write_ok _ _ _ _ _ _ _ Hr Hrange) as (b' & E & Hr').
  destruct Hrange as (R1 & R2 & _). unfold is_u32 in *.
  exists b'. split; [|done]. unfold dev_write, zoom. rewrite !u32_small by lia. by rewrite E.
Qed.

Lemma disk_bytes_fwrite a data f : disk_bytes (fwrite a data f) a (length data) = data.
Proof.
  apply list_eq. intros k. destruct (decide (k < length data)%nat) as [Hk|Hk].
  - rewrite disk_bytes_lookup by done. unfold fwrite. rewrite decide_True by lia.
    replace (Z.to_nat (a + Z.of_nat k - a)) with k by lia.
    destruct (lookup_lt_is_Some_2 data k Hk) as [x ->]. done.
  - rewrite !lookup_ge_None_2; [done|lia|rewrite length_disk_bytes; lia].
Qed.

Lemma disk_words_fwrite b ws f :
  length ws = NINDIRECT → Forall is_u32 ws → disk_words (fwrite (b * BLOCK_SIZE + 0) (encode_words ws) f) b = ws.
Proof.
  intros Hl Hw. unfold disk_words. rewrite Z.add_0_r.
  replace (Z.to_nat BLOCK_SIZE) with (length (encode_words ws)) by by rewrite length_encode_words, Hl.
  rewrite disk_bytes_fwrite, <-Hl, <-(app_nil_r (encode_words ws)). by apply decode_encode_words.
Qed.

(** ** [efs_i_update] *)

(** The disk after the inode's slot, and the indirect block if it is loaded,
    have been written. *)
Definition updated f s i (ws : list Z) : Z → option Z :=
  let f1 := fwrite (inode_slot s (i_no (i_di i))) (encode_inode (i_di i)) f in
  if decide (i_indir i = 0) then f1 else fwrite (addr12 i * BLOCK_SIZE + 0) (encode_words ws) f1.

Record update_ready (lo N K : Z) f s (p : Z) i (ws : list Z) : Prop := {
  ur_dev : bd_rep (s_bd s) N K f;
  ur_K : 1 <= K;
  ur_at : inodes s !! p = Some i;
  ur_wf : inode_wf (i_di i);
  ur_table : table_ok N s (i_no (i_di i));
  ur_page : i_indir i ≠ 0 → indirs s !! i_indir i = Some ws ∧ length ws = NINDIRECT ∧ Forall is_u32 ws ∧ 0 < addr12 i < N;
}.

Lemma offset_ino_ok N s ino : table_ok N s ino → offset_ino (i32 ino) s = Done (ino * inode_size (s_ds s)) s ∧
    offset_ino ino s = Done (ino * inode_size (s_ds s)) s ∧ 0 <= ino * inode_size (s_ds s) < 2 ^ 31.
Proof.
  intros [T1 T2 [T3 T3'] T4 T5]. change (Z.of_nat D_INODE_BYTES) with 72 in *. unfold offset_ino, gets.
  assert (0 <= ino * inode_size (s_ds s) < 2 ^ 31) by nia. rewrite (i32_small ino) by nia. rewrite i32_small by lia. done.
Qed.

Lemma table_range N K f s ino :
  bd_rep (s_bd s) N K f → 1 <= K → table_ok N s ino →
  bd_range N K (inode_area_start (s_ds s)) (ino * inode_size (s_ds s)) (Z.of_nat D_INODE_BYTES).
Proof.
  intros Hr HK Ht. pose proof (slot_in_block N s ino Ht) as (Hin & _ & _). pose proof (bd_size _ _ _ _ Hr).
  destruct (offset_ino_ok N s ino Ht) as (_ & _ & Ho). destruct Ht as [T1 T2 T3 T4 T5].
  unfold inode_slot in T5. by apply range_one_block; try lia.
Qed.

Lemma efs_i_update_ok lo N K f s p i ws :
  update_ready lo N K f s p i ws →
  ∃ bd', efs_i_update p s = Done 0 (set_bd bd' s) ∧ bd_rep bd' N K (updated f s i ws).
Proof.
  intros [Hr HK Ei Hwf Ht Hp]. unfold efs_i_update. rewrite (bind_Done _ _ _ _ _ (inode_at_ok _ _ _ Ei)).
  rewrite (bind_Done _ _ _ tt s) by (unfold assert_; destruct (Z.ltb_spec 0 (i_no (i_di i))); [done|destruct Ht; lia]).
  destruct (offset_ino_ok N s _ Ht) as (Eo & _ & _). rewrite (bind_Done _ _ _ _ _ Eo), (bind_Done _ _ _ (inode_area_start (s_ds s)) s) by done.
  pose proof (length_encode_inode _ (wf_len _ Hwf)) as Hle.
  destruct (dev_write_range N K f s (inode_area_start (s_ds s)) (i_no (i_di i) * inode_size (s_ds s)) (encode_inode (i_di i)))
    as (b1 & E1 & Hr1); [done|rewrite Hle; by apply (table_range N K f)|].
  rewrite (bind_Done _ _ _ _ _ E1). unfold updated, inode_slot. cbv zeta.
  destruct (Z.eqb_spec (i_indir i) 0) as [E0|En]; [rewrite decide_True by done|rewrite decide_False by done].
  { exists b1. done. }
  destruct (Hp En) as (Ews & Hl & Hw & H12).
  destruct (lookup_lt_is_Some_2 (i_addrs (i_di i)) NDIRECT) as [a Ea]; [rewrite (wf_len _ Hwf); unfold NDIRECT; lia|].
  assert (Ha : addr12 i = a) by (unfold addr12; by rewrite Ea). rewrite Ha in *.
  assert (Hlw : Z.of_nat (length (encode_words ws)) = BLOCK_SIZE) by by rewrite length_encode_words, Hl.
  destruct (dev_write_ok N K (fwrite (inode_slot s (i_no (i_di i))) (encode_inode (i_di i)) f) (set_bd b1 s) a 0 (encode_words ws))
    as (b2 & E2 & Hr2); [exact Hr1|done|lia|lia|intros E; by rewrite E in Hlw|lia|lia|].
  exists b2. split; [|exact Hr2].
  rewrite (bind_Done _ _ _ tt (set_bd b2 s)); [done|].
  rewrite (bind_Done _ _ _ a (set_bd b1 s)) by (unfold deref; by rewrite Ea).
  rewrite (bind_Done _ _ _ ws (set_bd b1 s)) by (unfold deref; simpl; by rewrite Ews).
  exact E2.
Qed.

Definition in_block (b a : Z) : Prop := b * BLOCK_SIZE <= a < (b + 1) * BLOCK_SIZE.

Lemma updated_other f s i ws a :
  length (i_addrs (i_di i)) = 13%nat → (i_indir i ≠ 0 → length ws = NINDIRECT) →
  ¬ (inode_slot s (i_no (i_di i)) <= a < inode_slot s (i_no (i_di i)) + Z.of_nat D_INODE_BYTES) →
  (i_indir i ≠ 0 → ¬ in_block (addr12 i) a) → updated f s i ws a = f a.
Proof.
  intros Hl Hw Hs Hb. unfold updated. cbv zeta. rewrite <-(length_encode_inode (i_di i) Hl) in Hs.
  case_decide as Hi; [by apply fwrite_other|]. rewrite fwrite_other; [by apply fwrite_other|].
  rewrite length_encode_words, Hw by done. unfold in_block in Hb. specialize (Hb Hi).
  change (Z.of_nat (4 * NINDIRECT)) with BLOCK_SIZE. lia.
Qed.

Lemma updated_slot N f s i ws :
  inode_wf (i_di i) → table_ok N s (i_no (i_di i)) → (i_indir i ≠ 0 → length ws = NINDIRECT) →
  (i_indir i ≠ 0 → slot_block_no s (i_no (i_di i)) ≠ addr12 i) →
  decode_inode (disk_bytes (updated f s i ws) (inode_slot s (i_no (i_di i))) D_INODE_BYTES) = i_di i.
Proof.
  intros Hwf Ht Hw Hn. pose proof (length_encode_inode _ (wf_len _ Hwf)) as Hle.
  destruct (slot_in_block N s _ Ht) as (_ & Hb1 & Hb2).
  assert (Hsame : disk_bytes (updated f s i ws) (inode_slot s (i_no (i_di i))) D_INODE_BYTES =
    disk_bytes (fwrite (inode_slot s (i_no (i_di i))) (encode_inode (i_di i)) f) (inode_slot s (i_no (i_di i))) D_INODE_BYTES).
  { apply disk_bytes_ext. intros x Hx. unfold updated. cbv zeta. case_decide as Hi; [done|].
    apply fwrite_other. rewrite length_encode_words, Hw by done. specialize (Hn Hi).
    change (Z.of_nat (4 * NINDIRECT)) with BLOCK_SIZE. unfold BLOCK_SIZE in *. nia. }
  rewrite Hsame, <-Hle, disk_bytes_fwrite. by apply decode_encode_inode.
Qed.

(** ** [efs_i_fill] *)

Lemma efs_i_fill_ok N K f s q j ino :
  bd_rep (s_bd s) N K f → 1 <= K → table_ok N s ino → inodes s !! q = Some j →
  ∃ bd', efs_i_fill q ino s = Done 0 (set_inodes
      (<[q := set_i_di (decode_inode (disk_bytes f (inode_slot s ino) D_INODE_BYTES)) j]> (inodes s)) (set_bd bd' s)) ∧
    bd_rep bd' N K f.
Proof.
  intros Hr HK Ht Ej. unfold efs_i_fill.
  rewrite (bind_Done _ _ _ tt s) by (unfold assert_; destruct (Z.ltb_spec 0 ino); [done|destruct Ht; lia]).
  destruct (offset_ino_ok N s _ Ht) as (_ & Eo & _).
  rewrite (bind_Done _ _ _ _ _ Eo), (bind_Done _ _ _ (inode_area_start (s_ds s)) s) by done.
  destruct (dev_read_range N K f s (inode_area_start (s_ds s)) (ino * inode_size (s_ds s)) (Z.of_nat D_INODE_BYTES))
    as (bd' & E & Hr'); [done|by apply (table_range N K f)|destruct Ht; lia|].
  rewrite (bind_Done _ _ _ _ _ E). exists bd'. split; [|done].
  unfold di_mod. rewrite (bind_Done _ _ _ _ _ (inode_mod_ok q _ j (set_bd bd' s) Ej)). done.
Qed.

(** ** Reloading *)

(** The inode is apart from the block that holds its slot. *)
Definition table_apart f s i : Prop := slot_block_no s (i_no (i_di i)) ∉ all_blocks f s i.

(** C14: Writing an inode to its slot of the inode table and filling another inode
    object from that slot gives back every field and the same contents of the
    file: nothing the object holds in memory is lost. *)
Theorem efs_i_update_fill lo N K f s p i ws q j :
  update_ready lo N K f s p i ws → inode_ok lo f s i → 0 < lo → table_apart f s i → 0 < slot_block_no s (i_no (i_di i)) →
  inodes s !! q = Some j → q ≠ p → i_indir j = 0 →
  ∃ f' s1 s2, efs_i_update p s = Done 0 s1 ∧ efs_i_fill q (i_no (i_di i)) s1 = Done 0 s2 ∧
    bd_rep (s_bd s2) N K f' ∧ inodes s2 = <[q := set_i_di (i_di i) j]> (inodes s) ∧
    ∀ a, 0 <= a → fbyte f' s2 (set_i_di (i_di i) j) a = fbyte f s i a.
Proof.
  intros Hu Hi Hlo Hap Hsb Ej Hqp Hj0. destruct (efs_i_update_ok lo N K f s p i ws Hu) as (b1 & E1 & Hr1).
  destruct Hu as [Hr HK Ei Hwf Ht Hp]. pose proof (io_len _ _ _ _ Hi) as Hlen.
  destruct (efs_i_fill_ok N K (updated f s i ws) (set_bd b1 s) q j (i_no (i_di i))) as (b2 & E2 & Hr2);
    [done|done|by destruct Ht|done|].
  assert (Hwl : i_indir i ≠ 0 → length ws = NINDIRECT) by (intros ?; by apply Hp).
  assert (Hsep : ∀ b, b ∈ all_blocks f s i → b ≠ 0 → slot_block_no s (i_no (i_di i)) ≠ b) by (intros b Hb _ <-; done).
  change (inode_slot (set_bd b1 s) (i_no (i_di i))) with (inode_slot s (i_no (i_di i))) in E2.
  rewrite (updated_slot N f s i ws) in E2; [|done|done|done|].
  2:{ intros Hn. apply Hsep; [by left|]. by apply (io_page _ _ _ _ Hi). }
  eexists (updated f s i ws), _, _. split; [exact E1|]. split; [exact E2|]. split; [done|]. split; [done|].
  intros a Ha. set (s2 := set_inodes _ _). set (j' := set_i_di (i_di i) j).
  (* a byte of a data block of the file is untouched *)
  assert (Hdata : ∀ k b x, slots f s i !! k = Some b → b ≠ 0 → in_block b x → updated f s i ws x = f x).
  { intros k b x Hk Hb Hx. apply updated_other; [done|done| |].
    - destruct (slot_in_block N s _ Ht) as (_ & Hb1 & Hb2). specialize (Hsep b ltac:(right; by eapply list_elem_of_lookup_2) Hb).
      unfold in_block, BLOCK_SIZE in *. nia.
    - intros Hn Hx'. assert (b = addr12 i) as -> by (unfold in_block, BLOCK_SIZE in *; lia).
      by pose proof (io_inj _ _ _ _ Hi 0 (S k) (addr12 i) eq_refl Hk Hb). }
  assert (Hind : ind_words (updated f s i ws) s2 j' = ind_words f s i).
  { unfold ind_words. change (addr12 j') with (addr12 i). change (i_indir j') with (i_indir j). rewrite Hj0.
    destruct (decide (addr12 i = 0)) as [|H12]; [done|]. rewrite (decide_True (P := 0 = 0)) by done.
    destruct (decide (i_indir i = 0)) as [E0|En].
    - apply disk_words_ext. intros x Hx. apply updated_other; [done|done| |done].
      destruct (slot_in_block N s _ Ht) as (_ & Hb1 & Hb2). specialize (Hsep (addr12 i) ltac:(by left) H12).
      unfold BLOCK_SIZE in *. nia.
    - destruct (Hp En) as (Ews & Hl & Hw & _). rewrite Ews. unfold updated. cbv zeta. rewrite decide_False by done.
      by apply disk_words_fwrite. }
  assert (Hs : slots (updated f s i ws) s2 j' = slots f s i) by (unfold slots; by rewrite Hind).
  unfold fbyte. rewrite Hs. destruct (slots f s i !! _) as [b|] eqn:Eb; [|done]. simpl.
  destruct (Z.eqb_spec b 0) as [|Hb]; [done|]. eapply Hdata; [exact Eb|done|].
  pose proof (Z.mod_pos_bound a BLOCK_SIZE ltac:(done)). unfold in_block. lia.
Qed.

(** ** [efs_i_trunc] *)

(** The entries [efs_i_data_free] gets to. *)
Fixpoint until_zero (l : list Z) : list Z :=
  match l with [] => [] | b :: l => if b =? 0 then [] else b :: until_zero l end.

Lemma until_zero_in l b : b ∈ until_zero l → b ∈ l ∧ b ≠ 0.
Proof.
  induction l as [|x l IH]; simpl; [by intros ?%elem_of_nil|].
  destruct (Z.eqb_spec x 0); [by intros ?%elem_of_nil|]. intros [->|Hb]%elem_of_cons; [by split; [left|]|].
  destruct (IH Hb). by split; [right|].
Qed.

(** What the release of blocks leaves alone. *)
Record freed (lo : Z) (bs : list Z) s s' : Prop := {
  fd_rest : same_rest s s';
  fd_bd : s_bd s' = s_bd s;
  fd_inodes : inodes s' = inodes s;
  fd_indirs : indirs s' = indirs s;
  fd_pagea : pagea s' = pagea s;
  fd_wf : Bmp.bitmap_wf lo (bmap s');
  fd_size : Bmp.size (bmap s') = Bmp.size (bmap s);
  fd_used : ∀ k, 0 <= k → Bmp.used (bmap s') k = if decide (k ∈ bs) then false else Bmp.used (bmap s) k;
  fd_unused : Bmp.unused (bmap s') = Bmp.unused (bmap s) + Z.of_nat (length bs);
}.

Lemma freed_trans lo bs1 bs2 s1 s2 s3 : freed lo bs1 s1 s2 → freed lo bs2 s2 s3 → freed lo (bs1 ++ bs2) s1 s3.
Proof.
  intros [A1 A2 A3 A4 A5 A6 A7 A8 A9] [B1 B2 B3 B4 B5 B6 B7 B8 B9]. split; try congruence.
  - by eapply fs_rest_trans.
  - intros k Hk. rewrite B8, A8 by done. destruct (decide (k ∈ bs2)), (decide (k ∈ bs1)), (decide (k ∈ bs1 ++ bs2)); set_solver.
  - rewrite B9, A9, length_app. lia.
Qed.

Lemma efs_bmap_free_ok lo s b :
  Bmp.bitmap_wf lo (bmap s) → 0 <= lo <= b → b < Bmp.size (bmap s) → Bmp.used (bmap s) b = true →
  ∃ s', efs_bmap_free b s = Done tt s' ∧ freed lo [b] s s'.
Proof.
  intros Hwf Hb Hsz Hu. destruct (Bmp.bitmap_free_correct lo (bmap s) b Hwf) as [_ Hf].
  destruct Hf as (m & E & Hwf' & Hs & _ & Hk & Hun); [lia|].
  assert (Eis : Bmp.bitmap_is_free b (bmap s) = Done 0 (bmap s)).
  { unfold Bmp.bitmap_is_free. rewrite (bind_Done _ _ _ (Bmp.size (bmap s)) (bmap s)) by done.
    destruct (Z.ltb_spec b 0); [lia|]. destruct (Z.leb_spec (Bmp.size (bmap s)) b); [lia|]. cbn [orb].
    rewrite quot_div, rem_mod by lia. unfold Bmp.used in Hu.
    destruct (Bmp.map (bmap s) !! Z.to_nat (b / 64)) as [w|] eqn:Ew; [|done].
    rewrite (bind_Done _ _ _ w (bmap s)).
    - rewrite Bmp.test_testbit by (apply Z.mod_pos_bound; lia). by rewrite Hu.
    - apply Bmp.word_ok; [apply Z.div_pos; lia|done]. }
  eexists. split.
  { unfold efs_bmap_free. rewrite (bind_Done _ _ _ 0 (set_bmap (bmap s) s)) by (unfold zoom; by rewrite Eis).
    unfold modify, zoom, mbind, M_bind. simpl. rewrite E. reflexivity. }
  split; try done.
  - split; try done. by eexists.
  - intros k Hk0. simpl. rewrite Hk by done. destruct (decide (k = b)), (decide (k ∈ [b])); set_solver.
  - simpl. rewrite Hun, Hu. done.
Qed.

Lemma free_until_zero_ok lo l : ∀ s,
  Bmp.bitmap_wf lo (bmap s) → 0 <= lo → Bmp.size (bmap s) < 2 ^ 31 → NoDup (until_zero l) →
  (∀ b, b ∈ until_zero l → lo <= b < Bmp.size (bmap s) ∧ Bmp.used (bmap s) b = true) →
  ∃ s', free_until_zero l s = Done tt s' ∧ freed lo (until_zero l) s s'.
Proof.
  induction l as [|b l IH]; intros s Hwf Hlo Hsz Hnd Hin.
  { exists s. split; [done|]. split; try done; [apply fs_rest_refl|simpl; lia]. }
  simpl in *. destruct (Z.eqb_spec b 0) as [|Hb].
  { exists s. split; [done|]. split; try done; [apply fs_rest_refl|simpl; lia]. }
  apply NoDup_cons in Hnd as [Hnb Hnd]. destruct (Hin b ltac:(by left)) as [Hr Hu].
  rewrite i32_small by lia. destruct (efs_bmap_free_ok lo s b Hwf) as (s1 & E1 & F1); [lia|lia|done|].
  destruct (IH s1) as (s2 & E2 & F2); [apply (fd_wf _ _ _ _ F1)|done|by rewrite (fd_size _ _ _ _ F1)|done| |].
  { intros c Hc. destruct (Hin c ltac:(by right)) as [Hrc Huc]. rewrite (fd_size _ _ _ _ F1). split; [done|].
    rewrite (fd_used _ _ _ _ F1) by lia. rewrite decide_False; [done|]. intros ->%list_elem_of_singleton. done. }
  exists s2. rewrite (bind_Done _ _ _ _ _ E1). split; [done|]. by apply (freed_trans lo [b] (until_zero l) s s1 s2).
Qed.

(** The blocks [efs_i_trunc] releases. *)
Definition trunc_blocks s i : list Z :=
  until_zero (i_addrs (i_di i)) ++
  (if decide (i_indir i = 0) then [] else until_zero (default [] (indirs s !! i_indir i))).

(** Distinct entries stay distinct in what [until_zero] takes. *)
Definition inj_nonzero (l : list Z) : Prop := ∀ j k b, l !! j = Some b → l !! k = Some b → b ≠ 0 → j = k.

Lemma until_zero_lookup l j b : until_zero l !! j = Some b → l !! j = Some b ∧ b ≠ 0.
Proof.
  revert j. induction l as [|x l IH]; intros j; simpl; [done|]. destruct (Z.eqb_spec x 0); [done|].
  destruct j as [|j]; simpl; [by intros [= ->]|]. apply IH.
Qed.
Lemma until_zero_nodup l : inj_nonzero l → NoDup (until_zero l).
Proof.
  intros Hi. apply NoDup_alt. intros j k b Hj%until_zero_lookup Hk%until_zero_lookup.
  destruct Hj, Hk. by eapply Hi.
Qed.

(** [i_addrs] and the indirect words, as positions of [all_blocks]. *)
Lemma entries_inj lo f s i :
  inode_ok lo f s i → inj_nonzero (i_addrs (i_di i) ++ ind_words f s i) ∧
  ∀ b, b ∈ i_addrs (i_di i) ++ ind_words f s i → b ∈ all_blocks f s i.
Proof.
  intros Hi. pose proof (io_len _ _ _ _ Hi) as Hl.
  set (pos j := if decide (j = NDIRECT) then 0%nat else if decide (j < NDIRECT)%nat then S j else j).
  assert (Hpos : ∀ j b, (i_addrs (i_di i) ++ ind_words f s i) !! j = Some b → all_blocks f s i !! pos j = Some b).
  { intros j b Hj. unfold pos. destruct (decide (j < 13)%nat) as [Hj13|Hj13].
    - rewrite lookup_app_l in Hj by lia. pose proof (all_blocks_addr f s i j b Hl Hj13 Hj) as Hb.
      unfold slot_index in Hb. case_decide; [done|]. by rewrite decide_True by (unfold NDIRECT in *; lia).
    - rewrite lookup_app_r in Hj by lia. unfold NDIRECT. rewrite !decide_False by lia. unfold all_blocks, slots.
      destruct j as [|j]; [lia|]. simpl lookup. rewrite lookup_app_r; rewrite length_take, Hl; [|unfold NDIRECT; lia].
      rewrite Hl in Hj. rewrite <-Hj. f_equal; unfold NDIRECT; lia. }
  split.
  - intros j k b Hj Hk Hb. pose proof (io_inj _ _ _ _ Hi _ _ _ (Hpos j b Hj) (Hpos k b Hk) Hb) as Hjk.
    unfold pos in Hjk. repeat case_decide; unfold NDIRECT in *; lia.
  - intros b [j Hj]%list_elem_of_lookup. eapply list_elem_of_lookup_2. by apply Hpos.
Qed.

Lemma efs_i_data_free_ok lo f s p i :
  Bmp.bitmap_wf lo (bmap s) → 0 < lo → Bmp.size (bmap s) < 2 ^ 31 → inode_ok lo f s i → inodes s !! p = Some i →
  ∃ s', efs_i_data_free p s = Done tt s' ∧ freed lo (trunc_blocks s i) s s'.
Proof.
  intros Hwf Hlo Hsz Hi Ei.
  destruct (entries_inj lo f s i Hi) as [Hinj Hsub].
  assert (Hin : ∀ b, b ∈ i_addrs (i_di i) ++ ind_words f s i → b ≠ 0 → lo <= b < Bmp.size (bmap s) ∧ Bmp.used (bmap s) b = true).
  { intros b Hb. apply (io_used _ _ _ _ Hi). by apply Hsub. }
  unfold efs_i_data_free. rewrite (bind_Done _ _ _ _ _ (inode_at_ok _ _ _ Ei)).
  destruct (free_until_zero_ok lo (i_addrs (i_di i)) s) as (s1 & E1 & F1);
    [done|lia|done| | |].
  { apply until_zero_nodup. intros j k b Hj Hk. apply Hinj; rewrite lookup_app_l; done || by eapply lookup_lt_Some. }
  { intros b [Hb Hn]%until_zero_in. apply Hin; [apply elem_of_app; by left|done]. }
  rewrite (bind_Done _ _ _ _ _ E1).
  rewrite (bind_Done _ _ _ i s1) by (apply inode_at_ok; by rewrite (fd_inodes _ _ _ _ F1)).
  unfold trunc_blocks. destruct (Z.eqb_spec (i_indir i) 0) as [E0|En].
  { rewrite decide_True by done. exists s1. by rewrite app_nil_r. }
  rewrite decide_False by done. destruct (io_page _ _ _ _ Hi En) as (H12 & ws & Ews & Hwl). rewrite Ews. simpl default.
  assert (Eiw : ind_words f s i = ws) by (unfold ind_words; by rewrite !decide_False, Ews by done). rewrite Eiw in *.
  rewrite (bind_Done _ _ _ ws s1) by (unfold deref; by rewrite (fd_indirs _ _ _ _ F1), Ews).
  destruct (free_until_zero_ok lo ws s1) as (s2 & E2 & F2);
    [apply (fd_wf _ _ _ _ F1)|lia|by rewrite (fd_size _ _ _ _ F1)| | |].
  { apply until_zero_nodup. intros j k b Hj Hk Hb.
    assert (length (i_addrs (i_di i)) + j = length (i_addrs (i_di i)) + k)%nat; [|lia].
    apply (Hinj _ _ b); [rewrite lookup_app_r, <-Hj by lia; f_equal; lia|rewrite lookup_app_r, <-Hk by lia; f_equal; lia|done]. }
  { intros b Hb'. pose proof (until_zero_in _ _ Hb') as [Hb Hn]. rewrite (fd_size _ _ _ _ F1).
    destruct (Hin b) as [Hr Hu]; [apply elem_of_app; by right|done|]. split; [done|].
    rewrite (fd_used _ _ _ _ F1) by lia. rewrite decide_False; [done|].
    intros [Hba _]%until_zero_in. apply list_elem_of_lookup in Hb as [k Hk], Hba as [j Hj].
    pose proof (lookup_lt_Some _ _ _ Hj) as Hjl.
    assert (j = length (i_addrs (i_di i)) + k)%nat; [|lia].
    apply (Hinj _ _ b); [by rewrite lookup_app_l| |done]. rewrite lookup_app_r by lia. rewrite <-Hk. f_equal. lia. }
  exists s2. split; [exact E2|]. by eapply freed_trans.
Qed.

(** C17: Truncating a file empties it and releases its blocks: the entries of
    [i_addrs] up to the first 0 and, when the indirect block is loaded, its words
    up to the first 0.  The numbers stay in [i_addrs]: the inode goes on mapping
    blocks that are free. *)
Theorem efs_i_trunc_correct me lo N K f X s p i σ ds :
  file_ready lo N K f X s p i σ ds →
  ∃ s' i', efs_i_trunc me p s = Done tt s' ∧ inodes s' = <[p := i']> (inodes s) ∧ i_size (i_di i') = 0 ∧
    i_flags i' = SET_FLAG (i_flags i) I_DIRTY ∧ i_addrs (i_di i') = i_addrs (i_di i) ∧ i_indir i' = i_indir i ∧
    idle (i_slock i') ∧ efs_locks s' = efs_locks s ∧
    dirty_ok s' (<[S_idirty_list := I_dirty <$> with_dirty p ds]> σ) (with_dirty p ds) ∧
    Bmp.bitmap_wf lo (bmap s') ∧
    Bmp.unused (bmap s') = Bmp.unused (bmap s) + Z.of_nat (length (trunc_blocks s i)) ∧
    ∀ b, 0 <= b → Bmp.used (bmap s') b = if decide (b ∈ trunc_blocks s i) then false else Bmp.used (bmap s) b.
Proof.
  intros [R1 R2 R3 R4 R5 R6 [R7 R7'] R8 R9]. pose proof (fo_lock _ _ _ _ _ _ R1) as Hlk.
  set (i1 := set_i_slock (held me) i). set (s1 := set_inodes (<[p := i1]> (inodes s)) s).
  set (s2 := set_efs_locks ({[sb_lock]} ∪ efs_locks s) s1).
  assert (Hsame : same_file s s2 i i1) by done.
  destruct (efs_i_data_free_ok lo f s2 p i1) as (s3 & E3 & F3);
    [apply (fo_map _ _ _ _ _ _ R1)|apply (fo_lo _ _ _ _ _ _ R1)|apply (fo_size _ _ _ _ _ _ R1)|by eapply same_inode_ok|apply lookup_insert_eq|].
  change (trunc_blocks s2 i1) with (trunc_blocks s i) in F3.
  destruct F3 as [[_ _ _ Q4 _ Q6 _ _ _] _ Q2 Q3 _ Q5 Q7 Q8 Q9].
  set (s4 := set_efs_locks (efs_locks s) s3).
  set (i5 := set_i_slock released i1). set (s5 := set_inodes (<[p := i5]> (inodes s4)) s4).
  destruct (di_update_ok p (set_i_size 0) i5 s5 σ ds) as (h & E6 & Hfam & _);
    [apply lookup_insert_eq|done|split; simpl; by rewrite ?Q4|by unfold dirty_node; simpl; rewrite Q4|done|done|].
  eexists _, _. split.
  { unfold efs_i_trunc. rewrite (bind_Done _ _ _ _ _ (i_sleep_ok me p i s R3 R4)). fold i1 s1.
    rewrite (bind_Done _ _ _ _ _ (efs_lock_ok sb_lock s1 Hlk)). fold s2.
    rewrite (bind_Done _ _ _ _ _ E3).
    rewrite (bind_Done _ _ _ tt s4) by (apply efs_unlock_ok; [done|by rewrite Q6]).
    rewrite (bind_Done _ _ _ tt s5); [exact E6|]. apply (i_wake_ok p i1 s4); [|done].
    simpl. rewrite Q2. apply lookup_insert_eq. }
  split. { simpl. rewrite Q2. simpl. by rewrite !insert_insert_eq. }
  split_and!; try done.
  split; [exact Hfam|]. simpl. apply lookup_insert_eq.
Qed.

(** ** The inode cache *)

(** [p] is linked in the hash table under the number [ino]. *)
Definition in_cache s (σ : gmap floc (list floc)) (p ino : Z) : Prop :=
  ∃ hd xs, hd ∈ Hash.heads (s_ihash s) ∧ σ !! hd = Some xs ∧ I_hnode p ∈ xs ∧ inode_key s (I_hnode p) = Some ino.

(** The hash table and the list of inodes are well formed, each number is
    cached once, and the slab holds the objects [X] in none of the lists. *)
Record icache_ok s (σ : gmap floc (list floc)) (X L : gset Z) : Prop := {
  ic_hash : Hash.hash_ok (inode_key s) (s_ihash s) σ (nodes s);
  ic_list : is_Some (σ !! S_ilist);
  ic_heads : (S_ilist ∉ Hash.heads (s_ihash s)) ∧ (S_idirty_list ∉ Hash.heads (s_ihash s));
  ic_unique : ∀ p q ino, in_cache s σ p ino → in_cache s σ q ino → p = q;
  ic_obj : obj_rep (efs_inode_kmem_cache s) X L;
  ic_fresh : ∀ p, p ∈ X → ¬ in_fam σ (I_hnode p) ∧ ¬ in_fam σ (I_list p) ∧ ¬ in_fam σ (I_dirty p);
}.

Lemma find_linked s σ h x ino :
  Hash.hash_ok (inode_key s) (s_ihash s) σ h → 0 <= ino → x ∈ Hash.chain_of (s_ihash s) σ ino →
  inode_key s x = Some ino → ∃ p, x = I_hnode p ∧ in_cache s σ p ino.
Proof.
  intros Hok Hino Hx Hk. destruct (Hash.chain_in _ _ _ _ _ _ Hok Hino Hx) as (hd & xs & Hh & E & Hin).
  destruct x; try done. eexists. split; [done|]. by exists hd, xs.
Qed.

Lemma efs_i_find_ok s σ X L ino :
  icache_ok s σ X L → 0 <= ino →
  (∃ p, efs_i_find ino s = Done (Some p) s ∧ in_cache s σ p ino) ∨
  (efs_i_find ino s = Done None s ∧ ∀ p, ¬ in_cache s σ p ino).
Proof.
  intros Hc Hino. pose proof (Hash.hash_find_complete _ _ _ _ ino (ic_hash _ _ _ _ Hc) Hino) as Hf.
  unfold efs_i_find. destruct (Hash.hash_find _ _ _ _) as [[x|]|] eqn:E; [| |done].
  - destruct Hf as [Hx Hk]. destruct (find_linked s σ _ x ino (ic_hash _ _ _ _ Hc) Hino Hx Hk) as (p & -> & Hp).
    left. exists p. split; [|done]. rewrite (bind_Done _ _ _ (Some (I_hnode p)) s) by (unfold deref; by rewrite E). done.
  - right. rewrite (bind_Done _ _ _ None s) by (unfold deref; by rewrite E). split; [done|].
    intros p (hd & xs & Hh & Hx & Hin & Hk). by apply (Hf hd xs (I_hnode p)).
Qed.

(** The inode object [efs_i_get] returns for a number that is not cached. *)
Definition loaded (d : easy_d_inode) : easy_m_inode := MInode d released 1 I_VALID M_ESB 0.

Lemma fresh_in_cache s s' σ σ' p ino hd xs :
  hd ∈ Hash.heads (s_ihash s) → σ !! hd = Some xs →
  (∃ ys, σ' = <[S_ilist := ys]> (<[hd := I_hnode p :: xs]> σ)) →
  S_ilist ∉ Hash.heads (s_ihash s) → Hash.heads (s_ihash s') = Hash.heads (s_ihash s) →
  (∀ q, inode_key s' (I_hnode q) = if decide (q = p) then Some ino else inode_key s (I_hnode q)) →
  ∀ q k, in_cache s' σ' q k → (q = p ∧ k = ino) ∨ (q ≠ p ∧ in_cache s σ q k).
Proof.
  intros Hh Hx Hσ Hil Eh Hk q k (hd' & xs' & Hh' & Hx' & Hin & Hkey). rewrite Hk in Hkey. rewrite Eh in Hh'.
  case_decide as Hq; [left; naive_solver|right]. split; [done|].
  assert (Hx2 : (<[hd := I_hnode p :: xs]> σ) !! hd' = Some xs').
  { destruct Hσ as [ys ->]. rewrite lookup_insert_ne in Hx'; [done|by intros <-]. }
  destruct (decide (hd = hd')) as [<-|Hne].
  - rewrite lookup_insert_eq in Hx2. injection Hx2 as <-. exists hd, xs.
    apply elem_of_cons in Hin as [Hin|Hin]; [naive_solver|]. done.
  - rewrite lookup_insert_ne in Hx2 by done. by exists hd', xs'.
Qed.

Lemma efs_i_alloc_ok s X L :
  obj_rep (efs_inode_kmem_cache s) X L → X ≠ ∅ →
  ∃ p c', efs_i_alloc s = Done p (set_nodes (INIT_LIST_HEAD (I_dirty p) (INIT_LIST_HEAD (I_list p)
        (INIT_LIST_HEAD (I_hnode p) (nodes s))))
      (set_inodes (<[p := MInode (i_di (default zero_inode (inodes s !! p))) sleep_init 0 0 M_ESB 0]> (inodes s))
        (set_icache c' s))) ∧
    p ∈ X ∧ obj_rep c' (X ∖ {[p]}) ({[p]} ∪ L).
Proof.
  intros Hr HX. destruct (obj_alloc_ok _ _ _ Hr HX) as (p & c' & E & Hp & Hr').
  pose proof (obj_rep_nonnull _ _ _ _ Hr Hp). exists p, c'. split; [|done].
  unfold efs_i_alloc. rewrite (bind_Done _ _ _ p (set_icache c' s)) by (unfold zoom; by rewrite E).
  by destruct (Z.eqb_spec p 0).
Qed.

(** Three nodes that are in no list can be initialised. *)
Lemma init_fresh h σ (a b c : floc) :
  fam h σ → ¬ in_fam σ a → ¬ in_fam σ b → ¬ in_fam σ c →
  fam (INIT_LIST_HEAD a (INIT_LIST_HEAD b (INIT_LIST_HEAD c h))) σ.
Proof.
  intros Hf Ha Hb Hc. eapply fam_agree; [exact Hf|]. intros q Hq. unfold INIT_LIST_HEAD.
  rewrite !lookup_insert_ne; [done|by intros <-..].
Qed.

(** The hash table does not depend on an object that is not in it. *)
Lemma hash_ok_fresh s s' t σ h h' p :
  Hash.hash_ok (inode_key s) t σ h → fam h' σ → ¬ in_fam σ (I_hnode p) →
  (∀ x k, inode_key s x = Some k → x ≠ I_hnode p → inode_key s' x = Some k) → Hash.hash_ok (inode_key s') t σ h'.
Proof.
  intros [J1 J2 J3 J4 J5 J6 J7] Hf Hp Hkey. split; try done.
  intros n hd xs x Hn Hx Hin. destruct (J6 n hd xs x Hn Hx Hin) as (k & Hk & Hr). exists k. split; [|done].
  apply Hkey; [done|]. intros ->. apply Hp. exists hd, xs. split; [done|by right].
Qed.

Lemma efs_i_addsb_ok s p i σ ys :
  inodes s !! p = Some i → 0 <= i_no (i_di i) → Hash.hash_ok (inode_key s) (s_ihash s) σ (nodes s) →
  σ !! S_ilist = Some ys → S_ilist ∉ Hash.heads (s_ihash s) → ¬ in_fam σ (I_hnode p) → ¬ in_fam σ (I_list p) →
  is_Some (nodes s !! I_hnode p) → is_Some (nodes s !! I_list p) →
  ∃ t h hd xs, efs_i_addsb p s = Done tt (set_nodes h (set_s_ihash t s)) ∧ Hash.heads t = Hash.heads (s_ihash s) ∧
    hd ∈ Hash.heads (s_ihash s) ∧ σ !! hd = Some xs ∧
    Hash.hash_ok (inode_key s) t (<[S_ilist := I_list p :: ys]> (<[hd := I_hnode p :: xs]> σ)) h ∧
    only (nodes s) h (I_hnode p :: I_list p :: S_ilist :: hd :: xs ++ ys).
Proof.
  intros Ei Hno Hok Hys Hil Hh Hl Hdh Hdl. destruct (Hash.chain_ok _ _ _ _ _ Hok Hno) as (n & hd & xs & _ & Hhd & Hch & Hx & Hco).
  assert (Hin : hd ∈ Hash.heads (s_ihash s)) by by eapply list_elem_of_lookup_2.
  destruct (Hash.hash_add_head_ok (inode_key s) (s_ihash s) σ (nodes s) (i_no (i_di i)) (I_hnode p)) as (hd' & h1 & E1 & Hch' & Ho1 & Hok1);
    [done|done|simpl; by rewrite Ei|done|done|].
  rewrite Hch in Hch'. injection Hch' as <-. rewrite Hco in *.
  set (t := Hash.set_count (Hash.count (s_ihash s) + 1) (s_ihash s)) in *.
  assert (Hys1 : (<[hd := I_hnode p :: xs]> σ) !! S_ilist = Some ys) by (rewrite lookup_insert_ne; [done|by intros ->]).
  destruct (fam_add_head (I_list p) S_ilist ys h1 (<[hd := I_hnode p :: xs]> σ)) as (h2 & E2 & Hf2 & _ & Ho2).
  - apply (Hash.ok_fam _ _ _ _ Hok1).
  - done.
  - intros (hd' & zs & Ez & Hq). apply lookup_insert_Some in Ez as [[<- <-]|[Hne Ez]]; [|by apply Hl; exists hd', zs].
    apply Hl. exists hd, xs. split; [done|]. clear -Hq. set_solver.
  - rewrite <-elem_of_dom, (proj1 Ho1), elem_of_dom. done.
  - exists t, h2, hd, xs. split_and!; try done.
    + unfold efs_i_addsb. rewrite (bind_Done _ _ _ _ _ (inode_at_ok _ _ _ Ei)).
      rewrite (bind_Done _ _ _ tt (set_s_ihash t (set_nodes h1 s))) by (unfold update; by rewrite E1).
      unfold node_do, update. simpl. rewrite E2. simpl. by destruct s.
    + eapply Hash.hash_ok_frame; [exact Hok1|exact Hf2| |done].
      intros hd' Hhd'. rewrite lookup_insert_ne; [done|]. intros <-. by apply Hil.
    + eapply only_trans; [exact Ho1|exact Ho2|clear; set_solver..].
Qed.

(** ** [efs_i_get] *)

Record get_ready (N K : Z) f s σ (X L : gset Z) (ino : Z) : Prop := {
  gt_cache : icache_ok s σ X L;
  gt_lock : sb_lock ∉ efs_locks s;
  gt_dev : bd_rep (s_bd s) N K f;
  gt_K : 1 <= K;
  gt_table : table_ok N s ino;
  gt_ino : ino < 2 ^ 31;
}.

(** A miss links a new object, whose sleep lock is held, under the number. *)
Lemma get_new_ok me s σ X L ino :
  icache_ok s σ X L → 0 < ino < 2 ^ 31 → X ≠ ∅ →
  ∃ p d t h c' hd xs ys, let s1 := set_inodes (<[p := MInode d (held me) 0 0 M_ESB 0]> (inodes s))
      (set_nodes h (set_s_ihash t (set_icache c' s))) in
    get_new me ino s = Done p s1 ∧ p ∈ X ∧ obj_rep c' (X ∖ {[p]}) ({[p]} ∪ L) ∧
    Hash.heads t = Hash.heads (s_ihash s) ∧ hd ∈ Hash.heads (s_ihash s) ∧ σ !! hd = Some xs ∧ σ !! S_ilist = Some ys ∧
    i_no d = ino ∧
    Hash.hash_ok (inode_key s1) t (<[S_ilist := I_list p :: ys]> (<[hd := I_hnode p :: xs]> σ)) h.
Proof.
  intros [Ih [ys Iys] [Iil _] _ Iobj Ifr] Hino HX.
  destruct (efs_i_alloc_ok s X L Iobj HX) as (p & c' & E1 & Hp & Hobj).
  destruct (Ifr p Hp) as (F1 & F2 & F3).
  match type of E1 with _ = Done _ ?x => set (s1 := x) in * end.
  set (d0 := i_di (default zero_inode (inodes s !! p))) in *.
  set (d := DInode ino (i_type d0) (i_devno d0) (i_pad d0) (i_size d0) (i_addrs d0) (i_nlink d0)).
  set (i1 := MInode d sleep_init 0 0 M_ESB 0).
  set (s2 := set_inodes (<[p := i1]> (inodes s1)) s1).
  assert (Ei1 : inodes s1 !! p = Some (MInode d0 sleep_init 0 0 M_ESB 0)) by apply lookup_insert_eq.
  assert (E2 : di_mod p (λ d, DInode (u32 ino) (i_type d) (i_devno d) (i_pad d) (i_size d) (i_addrs d) (i_nlink d)) s1 = Done tt s2).
  { unfold di_mod. rewrite (inode_mod_ok _ _ _ _ Ei1). unfold s2, i1, d. by rewrite u32_small by lia. }
  assert (Ei2 : inodes s2 !! p = Some i1) by apply lookup_insert_eq.
  assert (Hkey : ∀ x k, inode_key s x = Some k → x ≠ I_hnode p → inode_key s2 x = Some k).
  { intros x k Hx Hne. destruct x; try done. simpl in *. rewrite !lookup_insert_ne by (by intros ->). done. }
  assert (Hok2 : Hash.hash_ok (inode_key s2) (s_ihash s2) σ (nodes s2)).
  { eapply hash_ok_fresh; [exact Ih|by apply (init_fresh _ _ _ _ _ (Hash.ok_fam _ _ _ _ Ih) F3 F2 F1)|exact F1|exact Hkey]. }
  destruct (efs_i_addsb_ok s2 p i1 σ ys) as (t & h & hd & xs & E3 & Ht & Hhd & Hx & Hok3 & _);
    [done|simpl; lia|done|done|done|done|done|simpl; unfold INIT_LIST_HEAD; simplify_map_eq; by eexists..|].
  set (s3 := set_nodes h (set_s_ihash t s2)) in *.
  exists p, d, t, h, c', hd, xs, ys. cbv zeta.
  split; [|split_and!; try done].
  - unfold get_new. rewrite (bind_Done _ _ _ _ _ E1), (bind_Done _ _ _ _ _ E2), (bind_Done _ _ _ _ _ E3).
    rewrite (bind_Done _ _ _ _ _ (i_sleep_ok me p i1 s3 Ei2 eq_refl)). unfold mret, M_ret. f_equal.
    unfold s3, s2, s1. simpl. by rewrite !insert_insert_eq.
  - eapply Hash.hash_ok_frame; [exact Hok3|apply (Hash.ok_fam _ _ _ _ Hok3)|done|].
    intros x k Hk. destruct x as [|q| | | | | | | | | | | |]; try done. simpl in *.
    destruct (decide (p = q)) as [->|Hne]; [rewrite lookup_insert_eq in *; done|rewrite !lookup_insert_ne in * by done; done].
Qed.

(** The initialisation of a new object, after the lock is released. *)
Lemma get_fill_ok N K f s p d me ino :
  inodes s !! p = Some (MInode d (held me) 0 0 M_ESB 0) → bd_rep (s_bd s) N K f → 1 <= K → table_ok N s ino →
  ∃ bd', (efs_i_fill p ino;; inode_mod p (λ i, set_i_flags (SET_FLAG (i_flags i) I_VALID) i);; i_wake p) s =
      Done tt (set_inodes (<[p := MInode (decode_inode (disk_bytes f (inode_slot s ino) D_INODE_BYTES)) released 0 I_VALID M_ESB 0]>
        (inodes s)) (set_bd bd' s)) ∧ bd_rep bd' N K f.
Proof.
  intros Ei Hr HK Ht. destruct (efs_i_fill_ok N K f s p _ ino Hr HK Ht Ei) as (bd' & E & Hr').
  exists bd'. split; [|done]. rewrite (bind_Done _ _ _ _ _ E).
  rewrite (bind_Done _ _ _ _ _ (inode_mod_ok p _ _ _ (lookup_insert_eq _ _ _))).
  rewrite (i_wake_ok p _ _ (lookup_insert_eq _ _ _)) by done. f_equal. simpl. by rewrite !insert_insert_eq.
Qed.

(** Membership after two insertions at the heads of two lists. *)
Lemma in_fam_two (σ : gmap floc (list floc)) hd xs ys a b q :
  σ !! hd = Some xs → σ !! S_ilist = Some ys → in_fam (<[S_ilist := b :: ys]> (<[hd := a :: xs]> σ)) q →
  q = a ∨ q = b ∨ in_fam σ q.
Proof.
  intros Hx Hy (h & zs & E & Hq). apply lookup_insert_Some in E as [[<- <-]|[_ E]].
  - apply elem_of_cons in Hq as [->|Hq]; [right; right; exists S_ilist, ys; split; [done|by left]|].
    apply elem_of_cons in Hq as [->|Hq]; [by right; left|]. right; right. exists S_ilist, ys. split; [done|by right].
  - apply lookup_insert_Some in E as [[<- <-]|[_ E]]; [|right; right; by exists h, zs].
    apply elem_of_cons in Hq as [->|Hq]; [right; right; exists hd, xs; split; [done|by left]|].
    apply elem_of_cons in Hq as [->|Hq]; [by left|]. right; right. exists hd, xs. split; [done|by right].
Qed.

(** The cache with the new object [p] is well formed.  [σ0] are the lists [p] is
    added to: those of [σ], [p] possibly linked as a dirty inode already. *)
Lemma icache_ok_added s s1 s' σ σ0 X L p i c' t h hd xs ys ino :
  icache_ok s σ X L → (∀ q, ¬ in_cache s σ q ino) →
  (∀ l, l ∈ Hash.heads (s_ihash s) ∨ l = S_ilist → σ0 !! l = σ !! l) → (∀ q, in_fam σ0 q → in_fam σ q ∨ q = I_dirty p) →
  p ∈ X → obj_rep c' (X ∖ {[p]}) ({[p]} ∪ L) → Hash.heads t = Hash.heads (s_ihash s) →
  hd ∈ Hash.heads (s_ihash s) → σ0 !! hd = Some xs → σ0 !! S_ilist = Some ys →
  Hash.hash_ok (inode_key s1) t (<[S_ilist := I_list p :: ys]> (<[hd := I_hnode p :: xs]> σ0)) h →
  inode_key s1 (I_hnode p) = Some ino → (∀ q, q ≠ p → inode_key s1 (I_hnode q) = inode_key s (I_hnode q)) →
  i_no (i_di i) = ino → inodes s' = <[p := i]> (inodes s) → s_ihash s' = t → nodes s' = h → efs_inode_kmem_cache s' = c' →
  icache_ok s' (<[S_ilist := I_list p :: ys]> (<[hd := I_hnode p :: xs]> σ0)) (X ∖ {[p]}) ({[p]} ∪ L) ∧
  in_cache s' (<[S_ilist := I_list p :: ys]> (<[hd := I_hnode p :: xs]> σ0)) p ino ∧
  (∀ q k, in_cache s' (<[S_ilist := I_list p :: ys]> (<[hd := I_hnode p :: xs]> σ0)) q k → (q = p ∧ k = ino) ∨ (q ≠ p ∧ in_cache s σ q k)).
Proof.
  intros [Ih Iys [Iil Iid] Iu Iobj Ifr] Hmiss Hl0 Hf0 Hp Hobj Ht Hhd Hx Hys Hok Hk1 Hk2 Hno Eis Eht En Ec.
  set (σ' := <[S_ilist := _]> _) in *.
  assert (Hkey : ∀ q, inode_key s' (I_hnode q) = if decide (q = p) then Some ino else inode_key s (I_hnode q)).
  { intros q. simpl. rewrite Eis. case_decide as Hq; [subst q; rewrite lookup_insert_eq; simpl; by rewrite Hno|].
    by rewrite lookup_insert_ne. }
  assert (Hcase : ∀ q k, in_cache s' σ' q k → (q = p ∧ k = ino) ∨ (q ≠ p ∧ in_cache s σ q k)).
  { intros q k Hq. destruct (fresh_in_cache s s' σ0 σ' p ino hd xs Hhd Hx) with (q := q) (k := k) as [?|[? (hd' & zs & Hh & E & ?)]];
      [by exists (I_list p :: ys)|done|by rewrite Eht|done|done|by left|right].
    split; [done|]. exists hd', zs. split; [done|]. by rewrite <-Hl0 by by left. }
  split; [split|split; [|done]].
  - rewrite Eht, En. eapply Hash.hash_ok_frame; [exact Hok|apply (Hash.ok_fam _ _ _ _ Hok)|done|].
    intros x k Hk. destruct x as [|q| | | | | | | | | | | |]; try done. rewrite Hkey. case_decide as Hq.
    + subst q. by rewrite Hk1 in Hk.
    + by rewrite <-Hk2.
  - unfold σ'. rewrite lookup_insert_eq. by eexists.
  - rewrite Eht, Ht. done.
  - intros q r k [[-> ->]|[Hq Hqc]]%Hcase [[-> Hr]|[Hr Hrc]]%Hcase; [done| | |by eapply Iu].
    + by destruct (Hmiss r).
    + subst k. by destruct (Hmiss q).
  - by rewrite Ec.
  - intros q [Hq Hqp]%elem_of_difference. destruct (Ifr q Hq) as (F1 & F2 & F3). rewrite elem_of_singleton in Hqp.
    split_and!; intros [Eq|[Eq|[Hin|Eq]%Hf0]]%(in_fam_two _ _ _ _ _ _ _ Hx Hys); try done; by injection Eq.
  - exists hd, (I_hnode p :: xs). rewrite Eht, Ht. split; [done|]. unfold σ'. rewrite lookup_insert_ne by (by intros <-).
    rewrite lookup_insert_eq. split; [done|]. split; [by left|]. rewrite Hkey. by rewrite decide_True.
Qed.

(** C13: [efs_i_get] returns the inode object of the number and takes a reference.  A
    cached object is returned as it is and nothing else changes; otherwise an
    object that was in no list becomes the one cached object of the number, with
    the fields its slot of the inode table holds, and every other object keeps
    its fields.  The lock and the sleep lock are released. *)
Theorem efs_i_get_correct me N K f s σ X L ino :
  get_ready N K f s σ X L ino → X ≠ ∅ →
  i_no (decode_inode (disk_bytes f (inode_slot s ino) D_INODE_BYTES)) = ino →
  (∃ p i, in_cache s σ p ino ∧ inodes s !! p = Some i ∧
    (TEST_FLAG (i_flags i) I_VALID ≠ 0 →
     efs_i_get me ino s = Done p (set_inodes (<[p := set_i_refcnt (atomic_inc (i_refcnt i)) i]> (inodes s)) s))) ∨
  (∀ q, ¬ in_cache s σ q ino) ∧
  ∃ p s' σ', efs_i_get me ino s = Done p s' ∧ p ∈ X ∧
    inodes s' = <[p := loaded (decode_inode (disk_bytes f (inode_slot s ino) D_INODE_BYTES))]> (inodes s) ∧
    icache_ok s' σ' (X ∖ {[p]}) ({[p]} ∪ L) ∧ in_cache s' σ' p ino ∧
    (∀ q k, in_cache s' σ' q k → q = p ∨ in_cache s σ q k) ∧
    efs_locks s' = efs_locks s ∧ bd_rep (s_bd s') N K f.
Proof.
  intros [Hc Hlk Hdev HK Ht Hlt] HX Hno. set (s1 := set_efs_locks ({[sb_lock]} ∪ efs_locks s) s).
  assert (Hino : 0 < ino < 2 ^ 31) by (destruct Ht; lia).
  assert (Hc1 : icache_ok s1 σ X L) by (destruct Hc; by split).
  destruct (efs_i_find_ok s1 σ X L ino) as [(p & Ef & Hp)|(Ef & Hmiss)]; [done|lia|left|right].
  - destruct Hp as (hd & xs & Hh & Hx & Hin & Hk). simpl in Hk.
    destruct (inodes s !! p) as [i|] eqn:Ei; [|done]. simpl in Hk.
    exists p, i. split; [exists hd, xs; simpl; by rewrite Ei|]. split; [done|]. intros Hv. unfold efs_i_get.
    rewrite (bind_Done _ _ _ _ _ (efs_lock_ok sb_lock s Hlk)). fold s1. rewrite (bind_Done _ _ _ _ _ Ef), (bind_Done _ _ _ p s1) by done.
    rewrite (bind_Done _ _ _ tt (set_efs_locks (efs_locks s) s1)) by by apply efs_unlock_ok.
    assert (Es : set_efs_locks (efs_locks s) s1 = s) by by destruct s. rewrite Es.
    rewrite (bind_Done _ _ _ tt s).
    2:{ rewrite (bind_Done _ _ _ _ _ (inode_at_ok _ _ _ Ei)). by destruct (Z.eqb_spec (TEST_FLAG (i_flags i) I_VALID) 0). }
    by rewrite (bind_Done _ _ _ _ _ (inode_mod_ok p _ i s Ei)).
  - split; [done|]. destruct (get_new_ok me s1 σ X L ino) as (p & d & t & h & c' & hd & xs & ys & En & Hp & Hobj & Eh & Hhd & Hx & Hys & Hd & Hok);
      [done|done|done|].
    match type of En with _ = Done _ ?x => set (s2 := x) in * end.
    set (s3 := set_efs_locks (efs_locks s) s2). assert (Ht3 : table_ok N s3 ino) by (destruct Ht; by split).
    destruct (get_fill_ok N K f s3 p d me ino) as (bd' & E3 & Hr'); [apply lookup_insert_eq|done|done|done|].
    change (inode_slot s3 ino) with (inode_slot s ino) in E3. set (dd := decode_inode _) in *.
    match type of E3 with _ = Done _ ?x => set (s4 := x) in * end.
    set (s5 := set_inodes (<[p := loaded dd]> (inodes s4)) s4).
    assert (E5 : efs_i_get me ino s = Done p s5).
    { unfold efs_i_get. rewrite (bind_Done _ _ _ _ _ (efs_lock_ok sb_lock s Hlk)). fold s1.
      rewrite (bind_Done _ _ _ _ _ Ef), (bind_Done _ _ _ _ _ En).
      rewrite (bind_Done _ _ _ tt s3) by (by apply efs_unlock_ok).
      rewrite (bind_Done _ _ _ _ _ E3).
      by rewrite (bind_Done _ _ _ _ _ (inode_mod_ok p _ _ _ (lookup_insert_eq _ _ _))). }
    assert (E6 : inodes s5 = <[p := loaded dd]> (inodes s)) by (simpl; by rewrite !insert_insert_eq).
    assert (K1 : inode_key s2 (I_hnode p) = Some ino) by (simpl; rewrite lookup_insert_eq; simpl; by rewrite Hd).
    assert (K2 : ∀ q, q ≠ p → inode_key s2 (I_hnode q) = inode_key s (I_hnode q)).
    { intros q Hq. simpl. by rewrite lookup_insert_ne. }
    destruct (icache_ok_added s s2 s5 σ σ X L p (loaded dd) c' t h hd xs ys ino) as (H5 & H6 & H7); try done; [by left|].
    eexists p, s5, _. split; [exact E5|]. split; [done|]. split; [done|]. split; [exact H5|]. split; [exact H6|].
    split; [|done]. intros q k [[-> _]|[_ ?]]%H7; [by left|by right].
Qed.
End inode.

(** * Examples on the small file system

    The slot of inode 2 and the file's one block, block 3, lie apart. *)

Definition demo_f0 : Z → option Z := demo_f demo_bytes.
Definition demo_inode9 : easy_m_inode := MInode zero_di released 0 0 M_ESB 0.
Definition demo_two : efs page_stock stock ramdisk :=
  set_inodes {[7 := demo_inode; 9 := demo_inode9]} (demo_efs demo_bytes demo_inode).

(** Inode 2 is written back and read into another object. *)
Lemma efs_i_update_fill_witness :
  ∃ f' s1 s2, efs_i_update 7 demo_two = Done 0 s1 ∧ efs_i_fill 9 2 s1 = Done 0 s2 ∧
    inodes s2 !! 9 = Some (set_i_di (i_di demo_inode) demo_inode9) ∧
    fbyte f' s2 (set_i_di (i_di demo_inode) demo_inode9) 4 = Some 111.
Proof.
  destruct (efs_i_update_fill 1 16 4 demo_f0 demo_two 7 demo_inode [] 9 demo_inode9)
    as (f' & s1 & s2 & E1 & E2 & _ & Ei & Hb); try done.
  - split; try done.
    + split; try done. apply (bool_decide_unpack _). by vm_compute.
    + split; try done. split; [done|]. by exists 32.
  - destruct (fr_inode _ _ _ _ _ _ _ _ _ _ demo_ready) as [I1 I2 I3 I4]. by split.
  - vm_compute. intros Hin. repeat (apply elem_of_cons in Hin as [?|Hin]; [done|]). by apply elem_of_nil in Hin.
  - exists f', s1, s2. split; [exact E1|]. split; [exact E2|]. rewrite Ei, lookup_insert_eq. split; [done|].
    rewrite Hb by done. by vm_compute.
Defined.

(** Truncating the file frees block 3. *)
Lemma efs_i_trunc_correct_witness :
  ∃ s' i', efs_i_trunc 1 7 (demo_efs demo_bytes demo_inode) = Done tt s' ∧ inodes s' !! 7 = Some i' ∧
    i_size (i_di i') = 0 ∧ Bmp.used (bmap s') 3 = false ∧ head (i_addrs (i_di i')) = Some 3.
Proof.
  destruct (efs_i_trunc_correct 1 _ _ _ _ _ _ _ _ _ _ demo_ready)
    as (s' & i' & E & Ei & Hsz & _ & Ha & _ & _ & _ & _ & _ & _ & Hu).
  exists s', i'. split; [exact E|]. split; [rewrite Ei; apply lookup_insert_eq|]. split; [done|]. split; [|by rewrite Ha].
  rewrite Hu by done. by rewrite decide_True by (vm_compute; left).
Defined.

(** An empty inode cache with one free object, 11. *)
Definition demo_tree : gmap floc (list floc) := {[S_ihash 0 := []; S_ilist := []; S_idirty_list := []]}.
Definition demo_cache : efs page_stock stock ramdisk :=
  set_s_ihash (Hash.Build_hash_table 1 0 [] [S_ihash 0])
    (set_nodes (INIT_LIST_HEAD (S_ihash 0) (INIT_LIST_HEAD S_ilist (INIT_LIST_HEAD S_idirty_list ∅)))
      (set_icache (Stock [11] ∅)
        (set_bd (Ramdisk 16 (rd_store (2 * 4096 + 2 * 128) (encode_inode (i_di demo_inode)) demo_bytes))
          (demo_efs demo_bytes demo_inode)))).

Definition demo_cache_f (a : Z) : option Z :=
  if decide (0 <= a < 16 * BLK_SIZE) then Some (rd_at (s_bd demo_cache) a) else None.

Lemma demo_tree_heads hd xs q : demo_tree !! hd = Some xs → q ∈ hd :: xs → q = S_ihash 0 ∨ q = S_ilist ∨ q = S_idirty_list.
Proof.
  unfold demo_tree. intros E Hq.
  repeat (apply lookup_insert_Some in E as [[<- <-]|[_ E]]; [apply list_elem_of_singleton in Hq; tauto|]).
  apply lookup_singleton_Some in E as [<- <-]. apply list_elem_of_singleton in Hq; tauto.
Qed.

(** Any state with these three empty lists. *)
Lemma demo_icache_ok (s : efs page_stock stock ramdisk) :
  s_ihash s = s_ihash demo_cache → efs_inode_kmem_cache s = Stock [11] ∅ →
  (∀ hd, hd ∈ [S_ihash 0; S_ilist; S_idirty_list] → nodes s !! hd = Some (Node hd hd)) → icache_ok s demo_tree {[11]} ∅.
Proof.
  intros Eh Ec Hn.
  assert (Hno : ∀ hd xs, hd ∈ Hash.heads (s_ihash s) → demo_tree !! hd = Some xs → xs = []).
  { intros hd xs. rewrite Eh. intros ->%list_elem_of_singleton E. by injection E. }
  split; try done.
  - rewrite Eh. split; try done.
    + apply fam_empty. intros hd xs E. unfold demo_tree in E.
      repeat (apply lookup_insert_Some in E as [[<- <-]|[_ E]]; [split; [done|apply Hn; set_solver]|]).
      apply lookup_singleton_Some in E as [<- <-]. split; [done|apply Hn; set_solver].
    + apply NoDup_singleton.
    + by intros hd ->%list_elem_of_singleton.
    + intros n hd xs x Hhd E Hx. apply list_elem_of_lookup_2 in Hhd. rewrite <-Eh in Hhd.
      rewrite (Hno _ _ Hhd E) in Hx. by apply elem_of_nil in Hx.
  - rewrite Eh. split; intros E; by apply list_elem_of_singleton in E.
  - intros p q ino (hd & xs & Hhd & E & Hx & _). rewrite (Hno _ _ Hhd E) in Hx. by apply elem_of_nil in Hx.
  - rewrite Ec. split_and!; simpl; try done. apply NoDup_singleton.
  - intros p _. split_and!; intros (hd & xs & E & Hq); destruct (demo_tree_heads _ _ _ E Hq) as [|[|]]; done.
Qed.

Lemma demo_cache_ready : get_ready 16 4 demo_cache_f demo_cache demo_tree {[11]} ∅ 2.
Proof.
  split; try done; [|split; try done; split; [done|by exists 32]].
  apply demo_icache_ok; [done..|]. intros hd Hhd. unfold demo_cache. simpl. unfold INIT_LIST_HEAD.
  repeat (apply elem_of_cons in Hhd as [->|Hhd]; [by simplify_map_eq|]). by apply elem_of_nil in Hhd.
Qed.

(** Inode 2 is loaded into object 11. *)
Lemma efs_i_get_correct_witness :
  ∃ s', efs_i_get 1 2 demo_cache = Done 11 s' ∧ inodes s' !! 11 = Some (loaded (i_di demo_inode)).
Proof.
  destruct (efs_i_get_correct 1 16 4 demo_cache_f demo_cache demo_tree {[11]} ∅ 2 demo_cache_ready)
    as [(p & i & (hd & xs & Hh & E & Hin & _) & _)|(_ & p & s' & σ' & E & Hp & Ei & _)].
  - set_solver.
  - by vm_compute.
  - apply list_elem_of_singleton in Hh as ->. injection E as <-. by apply elem_of_nil in Hin.
  - apply elem_of_singleton in Hp as ->. exists s'. split; [exact E|]. rewrite Ei, lookup_insert_eq.
    by vm_compute.
Defined.
