(* ===== verification/Dentry.v ===== *)
(** Directories: fs/easyfs/dentry.c, the periodic synchronisation of super.c
    ([efs_sync]) and [efs_mount] of fs.c.

    A dentry pointer is a number, 0 being NULL.  Strings are the bytes from the
    pointer on: a name field has 16 bytes, a path or a name argument ends with
    its NUL.  The string functions run on a small memory that holds the two
    strings they are given ([NAME_AT] and [ARG_AT]).  What [printk] would print
    is the result of the listing functions. *)
From S2P Require Import Prelude ListLib Containers StringLib Bitmap Buddy PageAlloc Semaphore ObjCache Bio BlockDev Layout Efs.

Definition D_CHILD : Z := 1.
Definition D_DIRTY : Z := 2.
Definition MAX_PATH_LEN : nat := 256.
Definition SLASH : Z := 47.

(** The static string [t], indexed by the file type. *)
Definition t_chars : list Z := [0; 45; 100; 98; 0].

Section dentry.
Context {P C B : Type} `{PageAllocLaws P} `{ObjCacheLaws C} `{BlockDevLaws B}.
Local Notation "'fs'" := (efs P C B).
Implicit Types (s : fs).

Variables me bd_dev : Z.

(** ** Accesses *)

Definition dentry_at (d : Z) : M fs easy_dentry := deref (λ s, dentries s !! d).
Definition dentry_mod (d : Z) (f : easy_dentry → easy_dentry) : M fs unit :=
  update (λ s, x ← dentries s !! d; Some (set_dentries (<[d := f x]> (dentries s)) s)).
(** [sleep_on(&d->d_slock)], [wake_up(&d->d_slock)] *)
Definition d_sleep (d : Z) : M fs unit :=
  x ← dentry_at d; l ← sleep_on me (d_slock x); dentry_mod d (set_d_slock l).
Definition d_wake (d : Z) : M fs unit :=
  x ← dentry_at d; l ← wake_up (d_slock x); dentry_mod d (set_d_slock l).
Definition set_d_flag (d flag : Z) : M fs unit := dentry_mod d (λ x, set_d_flags (SET_FLAG (d_flags x) flag) x).

(** The entries [list_for_each_entry] visits from the head [hd]. *)
Definition entries (entry : floc → option Z) (hd : floc) : M fs (list Z) :=
  deref (λ s, p ← nxt (nodes s) hd; l ← list_for_each (size (nodes s)) hd p (nodes s); mapM entry l).
Definition child_entry (l : floc) : option Z := match l with D_sibling d => Some d | _ => None end.
Definition hash_entry (l : floc) : option Z := match l with D_hnode d => Some d | _ => None end.
Definition children (pd : Z) : M fs (list Z) := entries child_entry (D_child pd).

(** ** Small operations *)

Definition efs_d_type_tostr (type : Z) : M fs Z :=
  deref (λ _ : fs, if type <? 0 then None else t_chars !! Z.to_nat type).

Definition efs_d_namecmp (s t : list Z) : M fs Z :=
  r ← with_mem (strings s t) (strncmp NAME_AT ARG_AT (Z.of_nat DIR_MAXLEN));
  mret r.1.

Definition efs_d_hash (name : list Z) : M fs Z :=
  r ← with_mem (wr NAME_AT name ∅) (strhash NAME_AT);
  mret r.1.

Definition efs_d_sdirty (d : Z) : M fs unit :=
  set_d_flag d D_DIRTY;;
  clean ← node_empty (D_dirty d);
  if (clean : bool) then node_do (list_add_head (D_dirty d) S_ddirty_list) else mret tt.

Definition efs_d_cdirty (d : Z) : M fs unit :=
  dentry_mod d (λ x, set_d_flags (CLEAR_FLAG (d_flags x) D_DIRTY) x);;
  node_do (list_del_init (D_dirty d)).

Definition efs_d_addsb (d : Z) : M fs unit :=
  x ← dentry_at d;
  key ← efs_d_hash (d_name (d_dd x));
  update (λ s, '(t, h) ← Hash.hash_add_head (s_dhash s) key (D_hnode d) (nodes s);
    Some (set_s_dhash t (set_nodes h s)));;
  node_do (list_add_head (D_list d) S_dlist).

(** [INIT_LIST_HEAD] on every node of a dentry. *)
Definition init_d_nodes (d : Z) (h : gmap floc (node floc)) : gmap floc (node floc) :=
  INIT_LIST_HEAD (D_dirty d) (INIT_LIST_HEAD (D_list d) (INIT_LIST_HEAD (D_hnode d)
    (INIT_LIST_HEAD (D_sibling d) (INIT_LIST_HEAD (D_child d) h)))).

(** [d_dd] keeps what the object's memory held. *)
Definition efs_d_alloc : M fs Z :=
  d ← zoom efs_dentry_kmem_cache set_dcache obj_alloc;
  assert_ (negb (d =? 0));;
  modify (λ s,
    let old := default zero_dentry (dentries s !! d) in
    set_nodes (init_d_nodes d (nodes s))
      (set_dentries (<[d := Dentry (d_dd old) 0 0 sleep_init 0 0]> (dentries s)) s));;
  mret d.

Definition efs_d_conn (d pd : Z) : M fs unit :=
  dentry_mod d (set_d_parent pd);;
  node_do (list_add_tail (D_sibling d) (D_child pd)).

(** [efs_i_read(pi, off, sizeof(struct easy_dirent), &d->d_dd)]: the bytes read
    replace the first ones of the entry. *)
Definition read_dirent (pi off d : Z) : M fs unit :=
  r ← efs_i_read me pi off (Z.of_nat DIRENT_BYTES);
  dentry_mod d (λ x, set_d_dd (decode_dirent (r.2 ++ drop (length r.2) (encode_dirent (d_dd x)))) x).

(** The loop of [efs_d_fill], [n] entries from the [i]-th on. *)
Fixpoint fill_loop (n : nat) (i pi pd : Z) : M fs unit :=
  match n with
  | O => mret tt
  | S n =>
      d ← efs_d_alloc;
      read_dirent pi (u32 (i * Z.of_nat DIRENT_BYTES)) d;;
      efs_d_conn d pd;;
      spin_lock sb_lock;;
      efs_d_addsb d;;
      spin_unlock sb_lock;;
      fill_loop n (i + 1) pi pd
  end.

Definition efs_d_fill (pd : Z) : M fs unit :=
  x ← dentry_at pd;
  pi ← efs_i_get me (i32 (d_ino (d_dd x)));
  dentry_mod pd (set_d_inode pi);;
  i ← inode_at pi;
  fill_loop (Z.to_nat (i32 (i_size (i_di i) / Z.of_nat DIRENT_BYTES))) 0 pi pd;;
  efs_i_put pi.

(** [if (!TEST_FLAG(&pd->d_flags, D_CHILD)) { efs_d_fill(pd); SET_FLAG(...); }] *)
Definition fill_once (pd : Z) : M fs unit :=
  x ← dentry_at pd;
  if TEST_FLAG (d_flags x) D_CHILD =? 0 then efs_d_fill pd;; set_d_flag pd D_CHILD else mret tt.

(** [if (!d->d_inode) { d->d_inode = efs_i_get(...); efs_i_put(d->d_inode); }] *)
Definition attach_put (d : Z) : M fs unit :=
  x ← dentry_at d;
  if d_inode x =? 0 then
    p ← efs_i_get me (i32 (d_ino (d_dd x)));
    dentry_mod d (set_d_inode p);;
    efs_i_put p
  else mret tt.

(** [if (d->d_inode) efs_i_dup(d->d_inode); else d->d_inode = efs_i_get(...);]
    and the pointer. *)
Definition attach_ref (d : Z) : M fs Z :=
  x ← dentry_at d;
  (if d_inode x =? 0 then
     p ← efs_i_get me (i32 (d_ino (d_dd x)));
     dentry_mod d (set_d_inode p)
   else efs_i_dup (d_inode x));;
  x ← dentry_at d;
  mret (d_inode x).

(** The loop of [efs_d_update]. *)
Fixpoint update_loop (ds : list Z) (pi offset : Z) : M fs unit :=
  match ds with
  | [] => mret tt
  | d :: ds =>
      x ← dentry_at d;
      efs_i_write me pi (u32 offset) (Z.of_nat DIRENT_BYTES) (encode_dirent (d_dd x));;
      update_loop ds pi (i32 (offset + Z.of_nat DIRENT_BYTES))
  end.

Definition efs_d_update (pd : Z) : M fs unit :=
  attach_put pd;;
  ds ← children pd;
  x ← dentry_at pd;
  update_loop ds (d_inode x) 0.

(** ** Names *)

(** The first of [ds] whose name compares equal to [name]; 0 when none does. *)
Fixpoint name_loop (ds : list Z) (name : list Z) : M fs Z :=
  match ds with
  | [] => mret 0
  | d :: ds =>
      x ← dentry_at d;
      r ← efs_d_namecmp (d_name (d_dd x)) name;
      if r =? 0 then mret d else name_loop ds name
  end.

Definition efs_d_name_check (pd : Z) (name : list Z) : M fs Z :=
  fill_once pd;;
  ds ← children pd;
  name_loop ds name.

Definition efs_d_namex (pd : Z) (name : list Z) : M fs Z := efs_d_name_check pd name.

(** [strncpy(d->d_dd.d_name, name, DIR_MAXLEN)]: the byte after the name field
    is the low byte of the pointer [d_inode]. *)
Definition strncpy_name (d : Z) (name : list Z) : M fs unit :=
  x ← dentry_at d;
  r ← with_mem (strings (d_name (d_dd x) ++ [d_inode x mod 256]) name) (strncpy NAME_AT ARG_AT (Z.of_nat DIR_MAXLEN));
  dentry_mod d (λ x, set_d_inode (d_inode x - d_inode x mod 256 + default 0 (r.2 !! (NAME_AT + 16)))
    (set_d_dd (set_d_name (bytes_of r.2 NAME_AT DIR_MAXLEN) (d_dd x)) x)).

(** ** Listing *)

Fixpoint list_loop (ds : list Z) : M fs (list (Z * list Z)) :=
  match ds with
  | [] => mret []
  | d :: ds =>
      x ← dentry_at d;
      c ← efs_d_type_tostr (d_type (d_dd x));
      r ← list_loop ds;
      mret ((c, d_name (d_dd x)) :: r)
  end.

(** The lines printed. *)
Definition efs_d_lookup (pd : Z) : M fs (list (Z * list Z)) :=
  d_sleep pd;;
  fill_once pd;;
  ds ← children pd;
  r ← list_loop ds;
  d_wake pd;;
  mret r.

Definition efs_d_info (d : Z) : M fs (list (Z * list Z)) := if d =? 0 then mret [] else list_loop [d].

(** ** Creating, removing, renaming *)

(** [spin_lock(&m_esb.s_lock); spin_lock(&d->d_lock); pd->d_inode->i_di.i_size
    += delta; efs_d_sdirty(pd); ...] *)
Definition resize_parent (d pd delta : Z) : M fs unit :=
  spin_lock sb_lock;;
  spin_lock (d_lock d);;
  x ← dentry_at pd;
  di_mod (d_inode x) (λ i, set_i_size (u32 (i_size i + delta)) i);;
  efs_d_sdirty pd;;
  spin_unlock (d_lock d);;
  spin_unlock sb_lock.

Definition efs_d_creat (pd : Z) (name : list Z) (type : Z) : M fs Z :=
  if pd =? 0 then mret 0 else
  x ← dentry_at pd;
  if negb (d_type (d_dd x) =? F_DIR) then mret 0 else
  d_sleep pd;;
  dup ← efs_d_name_check pd name;
  if negb (dup =? 0) then d_wake pd;; mret 0 else
  new_i ← efs_i_new bd_dev;
  new_d ← efs_d_alloc;
  i ← inode_at new_i;
  dentry_mod new_d (λ x, set_d_dd (Dirent (i_no (i_di i)) (u32 type) (d_name (d_dd x))) x);;
  strncpy_name new_d name;;
  efs_i_type new_i type;;
  efs_d_conn new_d pd;;
  resize_parent pd pd (Z.of_nat DIRENT_BYTES);;
  d_wake pd;;
  mret new_d.

Definition efs_d_unlink (d : Z) : M fs unit :=
  if d =? 0 then mret tt else
  x ← dentry_at d;
  full ← (if d_type (d_dd x) =? F_DIR then
            fill_once d;;
            none ← node_empty (D_child d);
            mret (negb none)
          else mret false);
  if (full : bool) then mret tt else
  if d_ino (d_dd x) =? 1 then mret tt else
  p ← attach_ref d;
  efs_i_put p;;
  r ← efs_i_unlink me p;
  if r =? 0 then
    node_do (list_del (D_sibling d));;
    x ← dentry_at d;
    resize_parent d (d_parent x) (- Z.of_nat DIRENT_BYTES)
  else mret tt.

Definition efs_d_rename (d : Z) (rename : list Z) : M fs unit :=
  x ← dentry_at d;
  dup ← efs_d_name_check (d_parent x) rename;
  if negb (dup =? 0) then mret tt else
  attach_ref d;;
  spin_lock (d_lock d);;
  strncpy_name d rename;;
  spin_unlock (d_lock d);;
  x ← dentry_at d;
  efs_i_put (d_inode x).

(** ** Reading and writing files *)

Definition efs_d_read (d offset len : Z) : M fs (Z * list Z) :=
  if d =? 0 then mret (-1, []) else
  d_sleep d;;
  attach_put d;;
  x ← dentry_at d;
  efs_i_dup (d_inode x);;
  '(tot, data) ← efs_i_read me (d_inode x) offset len;
  efs_i_put (d_inode x);;
  d_wake d;;
  mret (i32 tot, data).

Definition efs_d_write (d offset len : Z) (data : list Z) : M fs Z :=
  if d =? 0 then mret (-1) else
  x ← dentry_at d;
  if d_type (d_dd x) =? F_DIR then mret (-1) else
  d_sleep d;;
  attach_put d;;
  x ← dentry_at d;
  efs_i_dup (d_inode x);;
  res ← efs_i_write me (d_inode x) offset len data;
  efs_i_put (d_inode x);;
  d_wake d;;
  mret res.

Definition efs_d_fsize (d : Z) : M fs Z :=
  p ← attach_ref d;
  fsize ← efs_i_size p;
  efs_i_put p;;
  mret fsize.

(** ** The root *)

Definition efs_d_root_init : M fs unit :=
  i ← inode_at root_m_inode;
  assert_ (negb (i_sb i =? 0));;
  modify (λ s,
    let old := default zero_dentry (dentries s !! root_dentry) in
    set_nodes (init_d_nodes root_dentry (nodes s))
      (set_dentries (<[root_dentry := Dentry (d_dd old) 0 0 sleep_init 0 (d_refcnt old)]> (dentries s)) s));;
  efs_d_fill root_dentry;;
  set_d_flag root_dentry D_CHILD;;
  efs_d_addsb root_dentry.

(** [efs_mount]: [alloc4], [ih] and [dh] are those of [efs_sb_fill]. *)
Definition efs_mount (alloc4 : M P Z) (ih dh : bool) : M fs Z :=
  efs_sb_init alloc4 ih dh;;
  efs_i_root_init;;
  efs_d_root_init;;
  mret 0.

(** ** [efs_sync] *)

(** [list_entry(list_pop(head), ...)] *)
Definition pop_entry (entry : floc → option Z) (hd : floc) : M fs Z :=
  update_ret (λ s, '(x, h) ← list_pop hd (nodes s); l ← x; d ← entry l; Some (d, set_nodes h s)).
Definition idirty_entry (l : floc) : option Z := match l with I_dirty p => Some p | _ => None end.
Definition ddirty_entry (l : floc) : option Z := match l with D_dirty d => Some d | _ => None end.

(** One blk_write_count of a bitmap: [n] blocks of the map's memory. *)
Definition sync_map (map_start area_start : Z) (words : list Z) : M fs unit :=
  bytes ← deref (λ _ : fs, slice 0 (Z.to_nat (u32 (i32 (area_start - map_start) * BLK_SIZE))) (encode_words64 words));
  dev_write map_start 0 bytes.

Definition sync_super : M fs unit :=
  flags ← gets s_flags;
  if TEST_FLAG flags S_DIRTY =? 0 then mret tt else
  spin_unlock sb_lock;;
  d ← gets s_ds;
  dev_write SUPER_BLOCK_LOCATION 0 (encode_super d);;
  im ← gets imap;
  sync_map (inode_map_start d) (inode_area_start d) (Bmp.map im);;
  bm ← gets bmap;
  sync_map (block_map_start d) (block_area_start d) (Bmp.map bm);;
  spin_lock sb_lock;;
  modify (λ s, set_sflags (CLEAR_FLAG (s_flags s) S_DIRTY) s).

Fixpoint sync_inodes (fuel : nat) : M fs unit :=
  none ← node_empty S_idirty_list;
  if (none : bool) then mret tt else
  match fuel with
  | O => out_of_fuel
  | S fuel =>
      p ← pop_entry idirty_entry S_idirty_list;
      spin_unlock sb_lock;;
      i_sleep me p;;
      efs_i_update p;;
      i_wake p;;
      spin_lock sb_lock;;
      spin_lock (i_lock p);;
      efs_i_cdirty p;;
      spin_unlock (i_lock p);;
      sync_inodes fuel
  end.

Fixpoint sync_dentries (fuel : nat) : M fs unit :=
  none ← node_empty S_ddirty_list;
  if (none : bool) then mret tt else
  match fuel with
  | O => out_of_fuel
  | S fuel =>
      d ← pop_entry ddirty_entry S_ddirty_list;
      spin_unlock sb_lock;;
      d_sleep d;;
      efs_d_update d;;
      d_wake d;;
      spin_lock sb_lock;;
      spin_lock (d_lock d);;
      efs_d_cdirty d;;
      spin_unlock (d_lock d);;
      sync_dentries fuel
  end.

(** One round of the thread, after its sleep: the lists hold fewer nodes than
    the heap. *)
Definition efs_sync : M fs unit :=
  spin_lock sb_lock;;
  sync_super;;
  n ← gets (λ s, size (nodes s));
  sync_inodes n;;
  n ← gets (λ s, size (nodes s));
  sync_dentries n;;
  spin_unlock sb_lock.
End dentry.
