(* ===== verification/Path.v ===== *)
(** Path names: [efs_d_named] and the operations that start from a path
    (fs/easyfs/dentry.c).

    [efs_d_named] copies the path into a buffer from [kmalloc] and cuts it at
    the slashes.  The buffers are the objects of a cache of their own. *)
From S2P Require Import Prelude ListLib Containers StringLib Bitmap Buddy PageAlloc Semaphore ObjCache BlockDev Layout Efs EfsFile Dentry.

(** The file system and the allocator of the path buffers. *)
Record pathfs (F A : Type) := PathFs { pf_fs : F; pf_mem : A }.
Arguments PathFs {F A}.
Arguments pf_fs {F A}.
Arguments pf_mem {F A}.
Definition set_pf_fs {F A} (x : F) (s : pathfs F A) : pathfs F A := PathFs x (pf_mem s).
Definition set_pf_mem {F A} (x : A) (s : pathfs F A) : pathfs F A := PathFs (pf_fs s) x.

(** ** Cutting a path at its slashes

    [walk_path] is the loop of [efs_d_named] over a directory lookup [lookup],
    which gets the bytes from the component on.  [p] and [name] are positions
    in the buffer [buf]; the result is the directory reached, the position of
    the last component and the buffer, or [None] when a lookup returned NULL. *)
Section walk.
Context {F : Type} (lookup : Z → list Z → M F Z).

Fixpoint walk_path (fuel : nat) (buf : list Z) (d : Z) (p name : nat) : M F (option (Z * nat * list Z)) :=
  match fuel with
  | O => out_of_fuel
  | S fuel =>
      c ← deref (λ _ : F, buf !! p);
      if c =? 0 then mret (Some (d, name, buf))
      else if c =? SLASH then
        let buf := <[p := 0]> buf in
        dtmp ← lookup d (drop name buf);
        if dtmp =? 0 then mret None else walk_path fuel buf dtmp (S p) (S p)
      else walk_path fuel buf d (S p) name
  end.

(** The loop and the last component. *)
Definition resolve (buf : list Z) (d : Z) (p : nat) : M F (option Z) :=
  r ← walk_path (length buf) buf d p p;
  match r with
  | None => mret None
  | Some (d, name, buf) =>
      c ← deref (λ _ : F, buf !! name);
      if c =? 0 then mret (Some d) else
      dtmp ← lookup d (drop name buf);
      mret (Some dtmp)
  end.
End walk.

(** ** The components of a path

    The specification of [resolve]: the components of the string that follows
    the first slash are looked up one after the other, each in the directory the
    one before led to; an empty last component stands for that directory. *)
Fixpoint components (s : list Z) : list (list Z) :=
  match s with
  | [] => [[]]
  | c :: s =>
      if c =? SLASH then [] :: components s else
      match components s with [] => [[c]] | n :: ns => (c :: n) :: ns end
  end.

Fixpoint walk_names {F} (look : Z → list Z → M F Z) (d : Z) (ns : list (list Z)) : M F (option Z) :=
  match ns with
  | [] => mret (Some d)
  | [n] => match n with [] => mret (Some d) | _ => x ← look d n; mret (Some x) end
  | n :: ns => x ← look d n; if x =? 0 then mret None else walk_names look x ns
  end.

(** The component under way, [n], in front. *)
Definition prefixed (n : list Z) (ns : list (list Z)) : list (list Z) :=
  match ns with [] => [n] | n' :: ns => (n ++ n') :: ns end.

Lemma components_nonempty s : components s ≠ [].
Proof. destruct s as [|c s]; simpl; [done|]. case_match; [done|]. by case_match. Qed.

Lemma prefixed_cons n c s :
  c ≠ SLASH → prefixed n (components (c :: s)) = prefixed (n ++ [c]) (components s).
Proof.
  intros Hc. simpl. destruct (Z.eqb_spec c SLASH); [done|]. pose proof (components_nonempty s).
  destruct (components s) as [|m ms]; [done|]. simpl. by rewrite <-app_assoc.
Qed.

Section walk_ok.
Context {F : Type} (lookup : Z → list Z → M F Z) (look : Z → list Z → M F Z).
(** [lookup] reads the bytes it gets up to the NUL. *)
Hypothesis lookup_string : ∀ d n t x, Forall (λ c, c ≠ 0) n → lookup d (n ++ 0 :: t) x = look d n x.

Definition last_step (r : option (Z * nat * list Z)) : M F (option Z) :=
  match r with
  | None => mret None
  | Some (d, name, buf) =>
      c ← deref (λ _ : F, buf !! name);
      if c =? 0 then mret (Some d) else
      dtmp ← lookup d (drop name buf);
      mret (Some dtmp)
  end.

Lemma walk_path_ok fuel pre n s rest d x :
  (length s < fuel)%nat → Forall (λ c, c ≠ 0) n → Forall (λ c, c ≠ 0) s →
  (walk_path lookup fuel (pre ++ n ++ s ++ 0 :: rest) d (length pre + length n) (length pre) ≫= last_step) x =
  walk_names look d (prefixed n (components s)) x.
Proof.
  revert pre n s d x. induction fuel as [|fuel IH]; intros pre n s d x Hf Hn Hs; [lia|].
  simpl walk_path. destruct s as [|c s].
  - assert (E : (pre ++ n ++ [] ++ 0 :: rest) !! (length pre + length n)%nat = Some 0).
    { rewrite app_assoc, lookup_app_r by (rewrite length_app; lia). rewrite length_app, Nat.sub_diag. done. }
    unfold deref at 1. unfold mbind, M_bind at 1 2. rewrite E. simpl. rewrite app_nil_r.
    rewrite lookup_app_r, Nat.sub_diag by lia. rewrite drop_app_length.
    destruct n as [|c n]; [done|]. simpl. apply Forall_cons in Hn as Hn'. destruct Hn' as [Hc _].
    pose proof (lookup_string d (c :: n) rest x Hn) as El. unfold deref, mbind, M_bind.
    destruct (Z.eqb_spec c 0); [done|]. simpl in *. by rewrite El.
  - apply Forall_cons in Hs as [Hc Hs]. simpl in Hf.
    assert (E : (pre ++ n ++ (c :: s) ++ 0 :: rest) !! (length pre + length n)%nat = Some c).
    { rewrite app_assoc, lookup_app_r by (rewrite length_app; lia). rewrite length_app, Nat.sub_diag. done. }
    unfold deref at 1. unfold mbind at 2, M_bind at 2. rewrite E. destruct (Z.eqb_spec c 0); [done|].
    destruct (Z.eqb_spec c SLASH) as [->|Hslash].
    + assert (Eb : <[(length pre + length n)%nat := 0]> (pre ++ n ++ (SLASH :: s) ++ 0 :: rest) =
                   (pre ++ n ++ [0]) ++ [] ++ s ++ 0 :: rest).
      { rewrite insert_app_r, insert_app_r_alt by lia. rewrite Nat.sub_diag, <-!app_assoc. done. }
      rewrite Eb. rewrite <-!app_assoc, drop_app_length. change ([0] ++ [] ++ s ++ 0 :: rest) with (0 :: s ++ 0 :: rest).
      pose proof (lookup_string d n (s ++ 0 :: rest) x Hn) as El.
      assert (Hp : ∃ m ms, components s = m :: ms) by (pose proof (components_nonempty s); destruct (components s); [done|eauto]).
      destruct Hp as (m & ms & Hms). simpl components.
      destruct (Z.eqb_spec SLASH SLASH); [|done]. rewrite Hms. simpl prefixed. rewrite app_nil_r. simpl walk_names.
      unfold mbind, M_bind. rewrite El. destruct (look d n x) as [d' x'| | | |]; try done. destruct (Z.eqb_spec d' 0); [done|].
      specialize (IH (pre ++ n ++ [0]) [] s d' x' ltac:(lia) ltac:(done) Hs). rewrite Hms in IH.
      refine (eq_trans _ IH). unfold mbind, M_bind. rewrite !length_app, <-!app_assoc. simpl length. simpl app.
      by replace (length pre + (length n + 1) + 0)%nat with (S (length pre + length n)) by lia;
        replace (length pre + (length n + 1))%nat with (S (length pre + length n)) by lia.
    + rewrite prefixed_cons by done. specialize (IH pre (n ++ [c]) s d x).
      rewrite length_app in IH. simpl in IH. rewrite <-IH; [|lia|by apply Forall_app; split; [|constructor]|done].
      rewrite <-!app_assoc. unfold mbind, M_bind. simpl.
      by replace (S (length pre + length n)) with (length pre + (length n + 1))%nat by lia.
Qed.

(** Resolving the string [s] from the position behind [pre]. *)
Lemma resolve_ok pre s rest d x :
  Forall (λ c, c ≠ 0) s →
  resolve lookup (pre ++ s ++ 0 :: rest) d (length pre) x = walk_names look d (components s) x.
Proof.
  intros Hs. pose proof (walk_path_ok (length (pre ++ s ++ 0 :: rest)) pre [] s rest d x) as Hw.
  rewrite app_nil_l, Nat.add_0_r in Hw.
  assert (Ep : prefixed [] (components s) = components s) by by destruct (components s) eqn:E; [destruct (components_nonempty s)|].
  rewrite Ep in Hw. rewrite <-Hw; [done| |done|done]. rewrite !length_app. simpl. lia.
Qed.
End walk_ok.

Section path.
Context {P C B A : Type} `{PageAllocLaws P} `{ObjCacheLaws C} `{BlockDevLaws B} `{ObjCacheLaws A}.
Local Notation "'fs'" := (efs P C B).
Local Notation "'pfs'" := (pathfs (efs P C B) A).

Variables me : Z.

Definition in_fs {X} (m : M fs X) : M pfs X := zoom pf_fs set_pf_fs m.

(** [sleep_on(&d->d_slock); dtmp = efs_d_namex(d, name); wake_up(...)] *)
Definition locked_namex (d : Z) (name : list Z) : M fs Z :=
  d_sleep me d;;
  dtmp ← efs_d_namex me d name;
  d_wake d;;
  mret dtmp.

(** The search of the dentry cache. *)
Definition cached_named (path : list Z) : M fs Z :=
  spin_lock sb_lock;;
  key ← efs_d_hash path;
  hd ← deref (λ s, Hash.chain (s_dhash s) key);
  ds ← entries hash_entry hd;
  d ← name_loop ds path;
  spin_unlock sb_lock;;
  mret d.

(** [kmalloc(MAX_PATH_LEN + 1, 0)], the NUL at its end and the copy: the buffer.
    The bytes after the copied NULs keep what the allocator left there. *)
Definition path_buffer (junk path : list Z) : M fs (list Z) :=
  r ← with_mem (strings (<[MAX_PATH_LEN := 0]> junk) path) (strncpy NAME_AT ARG_AT (Z.of_nat MAX_PATH_LEN));
  mret (bytes_of r.2 NAME_AT (S MAX_PATH_LEN)).

(** [junk] is what the allocated buffer holds.  A relative path leaves [d]
    uninitialised. *)
Definition efs_d_named (junk path : list Z) : M pfs Z :=
  d ← in_fs (cached_named path);
  if negb (d =? 0) then mret d else
  tmp ← zoom pf_mem set_pf_mem obj_alloc;
  if tmp =? 0 then fault else
  buf ← in_fs (path_buffer junk path);
  c ← deref (λ _ : pfs, buf !! O);
  if negb (c =? SLASH) then fault else
  r ← in_fs (resolve locked_namex buf root_dentry 1);
  match r with
  | None => mret 0
  | Some d => zoom pf_mem set_pf_mem (obj_free tmp);; mret d
  end.

Definition efs_d_namei (junk path : list Z) : M pfs Z :=
  d ← efs_d_named junk path;
  if d =? 0 then mret 0 else in_fs (attach_ref me d).

Definition efs_d_read_name (junk path : list Z) (offset len : Z) : M pfs (Z * list Z) :=
  d ← efs_d_named junk path;
  if d =? 0 then mret (-1, []) else in_fs (efs_d_read me d offset len).

Definition efs_d_write_name (junk path : list Z) (offset len : Z) (data : list Z) : M pfs Z :=
  d ← efs_d_named junk path;
  if d =? 0 then mret (-1) else in_fs (efs_d_write me d offset len data).

(** ** Lookups read a string *)

Lemma strings_arg a l i c : l !! i = Some c → strings a l !! (ARG_AT + Z.of_nat i) = Some c.
Proof.
  intros Hl. pose proof (lookup_lt_Some _ _ _ Hl). unfold strings. rewrite wr_lookup, decide_True by lia.
  by replace (Z.to_nat (ARG_AT + Z.of_nat i - ARG_AT)) with i by lia.
Qed.

Lemma namecmp_string a n t s :
  Forall (λ c, c ≠ 0) n → efs_d_namecmp a (n ++ 0 :: t) s = efs_d_namecmp (P := P) (C := C) (B := B) a (n ++ [0]) s.
Proof.
  intros Hn. unfold efs_d_namecmp, strncmp, with_mem, mbind, M_bind.
  destruct (strncmp_loop_agree (Z.to_nat (Z.of_nat DIR_MAXLEN)) NAME_AT ARG_AT n (strings a (n ++ 0 :: t)) (strings a (n ++ [0])))
    as [(r & E1 & E2)|[E1 E2]].
  - intros i Hi. unfold strings. rewrite !(wr_lookup ARG_AT), !decide_False; [done|unfold NAME_AT, ARG_AT, DIR_MAXLEN in *; lia..].
  - intros i c Hc. split; [by eapply Forall_lookup_1 in Hn|].
    split; apply strings_arg; rewrite lookup_app_l; done || by eapply lookup_lt_Some.
  - apply strings_arg. rewrite lookup_app_r, Nat.sub_diag by lia. done.
  - apply strings_arg. rewrite lookup_app_r, Nat.sub_diag by lia. done.
  - by rewrite E1, E2.
  - by rewrite E1, E2.
Qed.

Lemma name_loop_string ds n t s :
  Forall (λ c, c ≠ 0) n → name_loop ds (n ++ 0 :: t) s = name_loop (P := P) (C := C) (B := B) ds (n ++ [0]) s.
Proof.
  intros Hn. revert s. induction ds as [|d ds IH]; intros s; [done|]. simpl.
  apply bind_ext; [done|]. intros x s1. apply bind_ext; [by apply namecmp_string|].
  intros r s2. by destruct (r =? 0).
Qed.

Lemma locked_namex_string d n t s :
  Forall (λ c, c ≠ 0) n → locked_namex d (n ++ 0 :: t) s = locked_namex d (n ++ [0]) s.
Proof.
  intros Hn. unfold locked_namex, efs_d_namex, efs_d_name_check.
  apply bind_ext; [done|]. intros _ s1. apply bind_ext; [|done].
  apply bind_ext; [done|]. intros _ s2. apply bind_ext; [done|]. intros ds s3. by apply name_loop_string.
Qed.

(** ** The copy of the path *)

Lemma path_buffer_ok junk l s :
  Forall (λ c, 0 < c < 256) l → (length l < MAX_PATH_LEN)%nat → length junk = S MAX_PATH_LEN →
  ∃ rest, path_buffer junk (l ++ [0]) s = Done (l ++ 0 :: rest) s.
Proof.
  intros Hl Hlen Hj. unfold path_buffer. set (m := strings _ _).
  pose proof (strncpy_ok NAME_AT ARG_AT (Z.of_nat MAX_PATH_LEN) l m) as Hc.
  rewrite Z.min_l in Hc by lia. destruct (Z.ltb_spec (Z.of_nat (length l)) (Z.of_nat MAX_PATH_LEN)); [|lia].
  rewrite (bind_Done _ _ _ (Z.of_nat (length l), wr NAME_AT (l ++ [0; 0]) m) s).
  2:{ unfold with_mem. rewrite Hc; [done|by vm_compute|by apply (cstr_wr _ _ [])| |].
      - intros b Hb. unfold m, strings. unfold NAME_AT, ARG_AT, MAX_PATH_LEN in *. rewrite !wr_lookup, decide_False by lia.
        rewrite decide_True by (rewrite length_insert, Hj; lia). apply lookup_lt_is_Some_2. rewrite length_insert, Hj. lia.
      - intros i Hi. unfold NAME_AT, ARG_AT, MAX_PATH_LEN. lia. }
  exists (drop (S (length l)) (bytes_of (wr NAME_AT (l ++ [0; 0]) m) NAME_AT (S MAX_PATH_LEN))).
  unfold mret, M_ret. f_equal. simpl snd. set (b := bytes_of _ _ _).
  assert (Hb : ∀ i c, (l ++ [0]) !! i = Some c → b !! i = Some c).
  { intros i c Hi. pose proof (lookup_lt_Some _ _ _ Hi) as Hlt. rewrite length_app in Hlt. simpl in Hlt.
    unfold b, bytes_of. rewrite list_lookup_fmap, lookup_seq_lt by lia. simpl.
    rewrite wr_lookup, decide_True by (rewrite length_app; simpl; lia).
    replace (Z.to_nat (NAME_AT + Z.of_nat i - NAME_AT)) with i by lia.
    change [0; 0] with ([0] ++ [0]). by rewrite app_assoc, (lookup_app_l_Some _ _ _ _ Hi). }
  assert (Ht : take (S (length l)) b = l ++ [0]).
  { apply list_eq. intros i. destruct (decide (i < S (length l))%nat) as [Hi|Hi].
    - rewrite lookup_take_lt by done. destruct (lookup_lt_is_Some_2 (l ++ [0]) i) as [c Ec]; [rewrite length_app; simpl; lia|].
      by rewrite Ec, (Hb _ _ Ec).
    - rewrite !lookup_ge_None_2; [done|rewrite length_app; simpl; lia|rewrite length_take; lia]. }
  rewrite <-(take_drop (S (length l)) b) at 1. rewrite Ht, <-app_assoc. done.
Qed.

(** C16: Name resolution.  For an absolute path of at most 255 characters that the
    dentry cache does not hold, [efs_d_named] looks its components up one after
    the other, from the root, each under the sleep lock of its directory.  The
    path buffer is released when the last lookup is reached; when a lookup on the
    way fails the function returns NULL and the buffer stays allocated. *)
Theorem efs_d_named_correct junk l s s1 a X L :
  Forall (λ c, 0 < c < 256) l → (length l < 255)%nat → length junk = S MAX_PATH_LEN →
  obj_rep a X L → X ≠ ∅ → cached_named (SLASH :: l ++ [0]) s = Done 0 s1 →
  ∃ tmp, tmp ∈ X ∧
    match walk_names (λ d n, locked_namex d (n ++ [0])) root_dentry (components l) s1 with
    | Done (Some d) s2 => ∃ a', efs_d_named junk (SLASH :: l ++ [0]) (PathFs s a) = Done d (PathFs s2 a') ∧ obj_rep a' X L
    | Done None s2 => ∃ a', efs_d_named junk (SLASH :: l ++ [0]) (PathFs s a) = Done 0 (PathFs s2 a') ∧
        obj_rep a' (X ∖ {[tmp]}) ({[tmp]} ∪ L)
    | Panic => efs_d_named junk (SLASH :: l ++ [0]) (PathFs s a) = Panic
    | Fault => efs_d_named junk (SLASH :: l ++ [0]) (PathFs s a) = Fault
    | Blocked => efs_d_named junk (SLASH :: l ++ [0]) (PathFs s a) = Blocked
    | OutOfFuel => efs_d_named junk (SLASH :: l ++ [0]) (PathFs s a) = OutOfFuel
    end.
Proof.
  intros Hl Hlen Hj Hr HX Hc. destruct (obj_alloc_ok _ _ _ Hr HX) as (tmp & a1 & Ea & Htmp & Hr1).
  pose proof (obj_rep_nonnull _ _ _ _ Hr Htmp) as Hnz.
  pose proof (obj_rep_disjoint _ _ _ Hr) as Hdis.
  assert (Hl' : Forall (λ c, 0 < c < 256) (SLASH :: l)) by (apply Forall_cons; done).
  destruct (path_buffer_ok junk (SLASH :: l) s1 Hl' ltac:(unfold MAX_PATH_LEN; simpl; lia) Hj) as (rest & Eb).
  assert (Hn0 : Forall (λ c, c ≠ 0) l) by (eapply Forall_impl; [exact Hl|]; simpl; lia).
  pose proof (resolve_ok locked_namex (λ d n, locked_namex d (n ++ [0])) (λ d n t x Hn, locked_namex_string d n t x Hn)
    [SLASH] l rest root_dentry s1 Hn0) as Hres. change (length [SLASH]) with 1%nat in Hres.
  assert (E : efs_d_named junk (SLASH :: l ++ [0]) (PathFs s a) =
    match walk_names (λ d n, locked_namex d (n ++ [0])) root_dentry (components l) s1 with
    | Done (Some d) s2 => (zoom pf_mem set_pf_mem (obj_free tmp);; mret d) (PathFs s2 a1)
    | Done None s2 => Done 0 (PathFs s2 a1)
    | Panic => Panic | Fault => Fault | Blocked => Blocked | OutOfFuel => OutOfFuel
    end).
  { unfold efs_d_named. rewrite (bind_Done _ _ _ 0 (PathFs s1 a)) by (unfold in_fs, zoom; simpl; by rewrite Hc).
    change (negb (0 =? 0)) with false. cbv iota.
    rewrite (bind_Done _ _ _ tmp (PathFs s1 a1)) by (unfold zoom; simpl; by rewrite Ea).
    destruct (Z.eqb_spec tmp 0); [done|].
    rewrite (bind_Done _ _ _ ((SLASH :: l) ++ 0 :: rest) (PathFs s1 a1)).
    2:{ unfold in_fs, zoom. simpl pf_fs. change (SLASH :: l ++ [0]) with ((SLASH :: l) ++ [0]). by rewrite Eb. }
    rewrite (bind_Done _ _ _ SLASH (PathFs s1 a1)) by done. change (negb (SLASH =? SLASH)) with false. cbv iota.
    unfold mbind at 1, M_bind at 1. unfold in_fs, zoom at 1. simpl pf_fs.
    change ((SLASH :: l) ++ 0 :: rest) with ([SLASH] ++ l ++ 0 :: rest). rewrite Hres.
    by destruct (walk_names _ _ _ s1) as [[d|] s2| | | |]. }
  exists tmp. split; [done|]. rewrite E. destruct (walk_names _ _ _ s1) as [[d|] s2| | | |]; try done; [|by eexists].
  destruct (obj_free_ok _ _ _ tmp Hr1) as (a2 & Ef & Hr2); [set_solver|].
  exists a2. split; [rewrite (bind_Done _ _ _ tt (PathFs s2 a2)); [done|unfold zoom; simpl; by rewrite Ef]|].
  assert (E1 : {[tmp]} ∪ X ∖ {[tmp]} = X) by (rewrite <-union_difference_singleton_L; done).
  assert (E2 : ({[tmp]} ∪ L) ∖ {[tmp]} = L) by (apply leibniz_equiv; set_solver).
  by rewrite E1, E2 in Hr2.
Qed.
End path.

(** * A directory tree

    The root holds the directory [a] (dentry 100), which holds the file [b]
    (dentry 101); both directories are filled. *)
Definition nm (l : list Z) : list Z := take 16 (l ++ replicate 16 0).
Definition dir_entry (ino : Z) (type : Z) (name : list Z) (inode parent flags : Z) : easy_dentry :=
  Dentry (Dirent ino type (nm name)) inode parent released flags 0.
Definition dir_nodes : gmap floc (node floc) := default ∅ (
  let h := init_d_nodes root_dentry (init_d_nodes 100 (init_d_nodes 101 (INIT_LIST_HEAD (S_dhash 0) ∅))) in
  h ← list_add_tail (D_sibling 100) (D_child root_dentry) h;
  list_add_tail (D_sibling 101) (D_child 100) h).
Definition dir_efs : efs page_stock stock ramdisk :=
  set_s_dhash (Hash.Build_hash_table 1 0 [] [S_dhash 0]) (set_nodes dir_nodes (set_dentries
    (<[root_dentry := dir_entry 1 F_DIR [SLASH] root_m_inode 0 D_CHILD]>
      (<[100 := dir_entry 2 F_DIR [97] 0 root_dentry D_CHILD]> {[101 := dir_entry 3 F_REG [98] 0 100 0]}))
    (demo_efs demo_bytes demo_inode))).

(** "/a/b" leads to dentry 101, "/x/b" to NULL and the loss of buffer 55. *)
Lemma efs_d_named_correct_witness :
  (∃ s2 a', efs_d_named 1 (replicate 257 0) [47; 97; 47; 98; 0] (PathFs dir_efs (Stock [55] ∅)) = Done 101 (PathFs s2 a')) ∧
  ∃ s2 a', efs_d_named 1 (replicate 257 0) [47; 120; 47; 98; 0] (PathFs dir_efs (Stock [55] ∅)) = Done 0 (PathFs s2 a') ∧
    obj_rep a' ∅ {[55]}.
Proof.
  assert (Hr : obj_rep (Stock [55] ∅) {[55]} ∅) by (split_and!; simpl; try done; apply NoDup_singleton).
  assert (Hl : ∀ c, 0 < c < 256 → Forall (λ c, 0 < c < 256) [c; 47; 98]) by (intros c Hc; repeat constructor; lia).
  split.
  - destruct (efs_d_named_correct 1 (replicate 257 0) [97; 47; 98] dir_efs dir_efs (Stock [55] ∅) {[55]} ∅)
      as (tmp & _ & Hm); [by apply Hl|simpl; lia|done|done|set_solver|by vm_compute|].
    assert (Ew : walk_names (λ d n, locked_namex 1 d (n ++ [0])) root_dentry (components [97; 47; 98]) dir_efs =
      Done (Some 101) dir_efs) by by vm_compute.
    rewrite Ew in Hm. destruct Hm as (a' & E & _). exists dir_efs, a'. exact E.
  - destruct (efs_d_named_correct 1 (replicate 257 0) [120; 47; 98] dir_efs dir_efs (Stock [55] ∅) {[55]} ∅)
      as (tmp & Ht & Hm); [by apply Hl|simpl; lia|done|done|set_solver|by vm_compute|].
    assert (Ew : walk_names (λ d n, locked_namex 1 d (n ++ [0])) root_dentry (components [120; 47; 98]) dir_efs =
      Done None dir_efs) by by vm_compute.
    rewrite Ew in Hm. destruct Hm as (a' & E & Hr'). exists dir_efs, a'. split; [exact E|].
    apply elem_of_singleton in Ht as ->. rewrite difference_diag_L, union_empty_r_L in Hr'. exact Hr'.
Defined.
