(* ===== verification/Dirs.v ===== *)
(** The directory operations of fs/easyfs/dentry.c.

    A directory whose entries are in memory is the list of its children: the
    lists of the family [σ] at [D_child d].  [tree_ok] is the invariant of the
    dentries and inodes in memory; [named s d n] says that dentry [d] carries the
    name [n]. *)
From S2P Require Import Prelude ListLib Containers StringLib Bitmap Buddy PageAlloc Semaphore ObjCache BlockDev Layout Efs EfsFile EfsInode Dentry.

#[local] Arguments replicate : simpl never.

#[global] Instance D_dirty_inj : Inj (=) (=) D_dirty.
Proof. by intros ?? [=]. Qed.
#[global] Instance I_dirty_inj : Inj (=) (=) I_dirty.
Proof. by intros ?? [=]. Qed.
#[global] Instance D_sibling_inj : Inj (=) (=) D_sibling.
Proof. by intros ?? [=]. Qed.

Section dirs.
Context {P C B : Type} `{PageAllocLaws P} `{ObjCacheLaws C} `{BlockDevLaws B}.
Local Notation "'fs'" := (efs P C B).
Implicit Types (s : fs) (σ : gmap floc (list floc)).

(** ** Names *)

Definition chars (n : list Z) : Prop := Forall (λ c, 0 < c < 256) n.
Definition entry_name (x : easy_dentry) (n : list Z) : Prop :=
  chars n ∧ (∃ pad, d_name (d_dd x) = n ++ 0 :: pad) ∧ length (d_name (d_dd x)) = DIR_MAXLEN.
Definition named s (d : Z) (n : list Z) : Prop := ∃ x, dentries s !! d = Some x ∧ entry_name x n.

Lemma chars_nul_inj n m t t' : chars n → chars m → n ++ 0 :: t = m ++ 0 :: t' → n = m.
Proof.
  revert m. induction n as [|c n IH]; intros [|c' m] Hn Hm E; simpl in E; [done| | |].
  - injection E as <- _. apply Forall_cons in Hm as [? _]. lia.
  - injection E as -> _. apply Forall_cons in Hn as [? _]. lia.
  - injection E as -> E. apply Forall_cons in Hn as [_ Hn], Hm as [_ Hm]. f_equal. by apply IH.
Qed.
Lemma named_inj s d n m : named s d n → named s d m → n = m.
Proof.
  intros (x & E & Hn & (t & En) & _) (y & E' & Hm & (t' & Em) & _). rewrite E in E'. injection E' as <-.
  rewrite En in Em. by eapply chars_nul_inj.
Qed.
Lemma entry_name_short x n : entry_name x n → (length n < DIR_MAXLEN)%nat.
Proof. intros (_ & (t & E) & Hl). rewrite E, length_app in Hl. simpl in Hl. lia. Qed.

Lemma namecmp_ok x n m t s :
  entry_name x n → chars m → ∃ r, efs_d_namecmp (d_name (d_dd x)) (m ++ 0 :: t) s = Done r s ∧ (r = 0 ↔ n = m).
Proof.
  intros Hx Hm. pose proof (entry_name_short _ _ Hx) as Hl. destruct Hx as (Hn & (pad & E) & Hlen).
  unfold efs_d_namecmp, with_mem, strncmp, mbind, M_bind. rewrite (strncmp_loop_ref _ _ _ n m).
  - exists (cmp_ref DIR_MAXLEN n m). split; [by rewrite Nat2Z.id|]. rewrite cmp_ref_zero, (take_ge n) by (done || lia).
    split; [|intros <-; by rewrite take_ge by lia]. intros En. destruct (decide (length m <= DIR_MAXLEN)%nat); [by rewrite take_ge in En|].
    apply (f_equal length) in En. rewrite length_take in En. lia.
  - unfold strings. rewrite E. apply cstr_wr_other; [by apply cstr_wr|].
    intros i Hi. unfold NAME_AT, ARG_AT, DIR_MAXLEN in *. lia.
  - by apply cstr_wr.
Qed.

Lemma dentry_at_ok d x s : dentries s !! d = Some x → dentry_at d s = Done x s.
Proof. intros E. unfold dentry_at, deref. by rewrite E. Qed.
Lemma dentry_mod_ok d f x s :
  dentries s !! d = Some x → dentry_mod d f s = Done tt (set_dentries (<[d := f x]> (dentries s)) s).
Proof. intros E. unfold dentry_mod, update. by rewrite E. Qed.

(** [name_loop] finds the first entry of the name. *)
Lemma name_loop_ok ds m t s :
  (∀ d, d ∈ ds → ∃ n, named s d n) → chars m →
  ∃ r, name_loop ds (m ++ 0 :: t) s = Done r s ∧
    ((r = 0 ∧ ∀ d, d ∈ ds → ¬ named s d m) ∨ (r ∈ ds ∧ named s r m)).
Proof.
  intros Hds Hm. induction ds as [|d ds IH]; simpl.
  { exists 0. split; [done|]. left. split; [done|]. intros d Hd. by apply elem_of_nil in Hd. }
  destruct (Hds d) as (n & x & Ex & Hx); [by left|].
  destruct (namecmp_ok x n m t s Hx Hm) as (r & Er & Hr).
  rewrite (bind_Done _ _ _ _ _ (dentry_at_ok _ _ _ Ex)), (bind_Done _ _ _ _ _ Er).
  destruct (Z.eqb_spec r 0) as [E0|En].
  - exists d. split; [done|]. right. split; [by left|]. exists x. apply Hr in E0. by subst n.
  - destruct IH as (r' & E' & Hr'); [intros d' Hd'; apply Hds; by right|]. exists r'. split; [done|].
    destruct Hr' as [[-> Hno]|[Hin Hn]]; [left|right; split; [by right|done]].
    split; [done|]. intros d' [->|Hd']%elem_of_cons; [|by apply Hno].
    intros Hd. apply En, Hr. eapply named_inj; [|exact Hd]. by exists x.
Qed.

(** ** Children *)

Lemma entries_ok (entry : floc → option Z) (mk : Z → floc) hd ds s :
  (∀ d, entry (mk d) = Some d) → dll (nodes s) hd (mk <$> ds) → entries entry hd s = Done ds s.
Proof.
  intros Hmk Hd. destruct (list_for_each_dll _ _ _ Hd) as (p & Ep & El). unfold entries, deref. rewrite Ep. simpl.
  rewrite El. assert (E : mapM entry (mk <$> ds) = Some ds); [|cbn [mbind option_bind]; by rewrite E].
  by apply mapM_fmap_Some.
Qed.
Lemma children_ok s σ pd ds :
  fam (nodes s) σ → σ !! D_child pd = Some (D_sibling <$> ds) → children pd s = Done ds s.
Proof. intros [Hf _] E. apply (entries_ok _ D_sibling); [done|]. by apply Hf. Qed.

(** ** The two halves of the lists

    Inodes and dentries are linked in lists of their own: an operation on one
    half leaves the nodes of the other alone. *)

Definition i_side (l : floc) : Prop :=
  match l with S_ihash _ | I_hnode _ | S_ilist | I_list _ | S_idirty_list | I_dirty _ => True | _ => False end.
Definition d_side (l : floc) : Prop := ¬ i_side l.
Definition on_side (side : floc → Prop) σ : Prop := ∀ q, in_fam σ q → side q.
Definition same_nodes (side : floc → Prop) (h h' : gmap floc (node floc)) : Prop := ∀ q, side q → h' !! q = h !! q.

Lemma fam_side side h h' σ : fam h σ → on_side side σ → same_nodes side h h' → fam h' σ.
Proof. intros Hf Hs Hn. eapply fam_agree; [exact Hf|]. intros q Hq. by apply Hn, Hs. Qed.
Lemma only_other (side : floc → Prop) h h' xs :
  only h h' xs → (∀ q, q ∈ xs → ¬ side q) → same_nodes side h h'.
Proof. intros [_ Ho] Hx q Hq. apply Ho. intros Hin. by apply (Hx q). Qed.
Lemma same_nodes_trans side h1 h2 h3 : same_nodes side h1 h2 → same_nodes side h2 h3 → same_nodes side h1 h3.
Proof. intros H12 H23 q Hq. by rewrite H23, H12. Qed.
Lemma in_fam_insert σ hd xs q : in_fam (<[hd := xs]> σ) q → q = hd ∨ q ∈ xs ∨ in_fam σ q.
Proof.
  intros (h & ys & E & Hq). apply lookup_insert_Some in E as [[<- <-]|[_ E]].
  - apply elem_of_cons in Hq as [->|Hq]; [by left|by right; left].
  - right; right. by exists h, ys.
Qed.
Lemma on_side_insert side σ hd xs :
  on_side side σ → side hd → (∀ q, q ∈ xs → side q) → on_side side (<[hd := xs]> σ).
Proof. intros Hs Hh Hx q [->|[Hq|Hq]]%in_fam_insert; [done|by apply Hx|by apply Hs]. Qed.
Lemma on_side_list side σ hd xs q : on_side side σ → σ !! hd = Some xs → q ∈ hd :: xs → side q.
Proof. intros Hs E Hq. apply Hs. by exists hd, xs. Qed.

(** ** The inodes in memory

    [X] are the free objects of the slab, [L] those in use.  No inode is cached
    under a number the bitmap holds free. *)
Record inodes_ok (lo : Z) s σ (X L : gset Z) : Prop := {
  ik_cache : icache_ok s σ X L;
  ik_side : on_side i_side σ;
  ik_dirty : ∃ ids, σ !! S_idirty_list = Some (I_dirty <$> ids) ∧ ∀ p, p ∈ {[root_m_inode]} ∪ L → dirty_node s σ ids p;
  ik_at : ∀ p, p ∈ {[root_m_inode]} ∪ L → ∃ i, inodes s !! p = Some i ∧ i_sb i = M_ESB;
  ik_map : Bmp.bitmap_wf lo (imap s) ∧ 0 < lo ∧ Bmp.size (imap s) < 2 ^ 31;
  ik_new : ∀ q ino, in_cache s σ q ino → 0 < ino ∧ Bmp.used (imap s) ino = true;
  ik_root : root_m_inode ∉ X;
}.

Lemma ik_fam lo s σ X L : inodes_ok lo s σ X L → fam (nodes s) σ.
Proof. intros [[Ih] _ _ _ _ _ _]. apply (Hash.ok_fam _ _ _ _ Ih). Qed.

(** What an operation on dentries and on the other fields of inodes keeps. *)
Record inodes_kept s s' : Prop := {
  kp_nodes : same_nodes i_side (nodes s) (nodes s');
  kp_inodes : ∀ p i, inodes s !! p = Some i →
    ∃ i', inodes s' !! p = Some i' ∧ i_no (i_di i') = i_no (i_di i) ∧ i_sb i' = i_sb i;
  kp_hash : s_ihash s' = s_ihash s;
  kp_cache : efs_inode_kmem_cache s' = efs_inode_kmem_cache s;
  kp_imap : imap s' = imap s;
}.

Lemma kept_key s s' x k : inodes_kept s s' → inode_key s x = Some k → inode_key s' x = Some k.
Proof.
  intros [_ Hi _ _ _] Hk. destruct x; try done. simpl in *. destruct (inodes s !! p) as [i|] eqn:E; [|done].
  destruct (Hi p i E) as (i' & -> & Hn & _). simpl in *. by rewrite Hn.
Qed.
Lemma kept_in_cache lo s s' σ X L q ino :
  inodes_ok lo s σ X L → inodes_kept s s' → in_cache s' σ q ino ↔ in_cache s σ q ino.
Proof.
  intros Hok Hk. pose proof (kp_hash _ _ Hk) as Eh. split.
  - intros (hd & xs & Hh & E & Hin & Hkey). rewrite Eh in Hh. exists hd, xs. split_and!; try done.
    pose proof (ic_hash _ _ _ _ (ik_cache _ _ _ _ _ Hok)) as [_ _ _ _ _ Hkeys _].
    pose proof Hh as [n Hn]%list_elem_of_lookup. destruct (Hkeys n hd xs _ Hn E Hin) as (k & Hk' & _).
    pose proof (kept_key _ _ _ _ Hk Hk') as Hk2. rewrite Hkey in Hk2. by rewrite Hk', Hk2.
  - intros (hd & xs & Hh & E & Hin & Hkey). exists hd, xs. rewrite Eh. split_and!; try done. by eapply kept_key.
Qed.

Lemma inodes_frame lo s s' σ X L : inodes_ok lo s σ X L → inodes_kept s s' → inodes_ok lo s' σ X L.
Proof.
  intros Hok Hk. pose proof Hk as [Kn Ki Kh Kc Km]. pose proof (kept_in_cache lo s s' σ X L) as Hcc.
  pose proof Hok as [[Ih Iys Iil Iu Iobj Ifr] Is (ids & Eids & Hids) Ia Im In Ir].
  assert (Hf : fam (nodes s') σ) by by eapply fam_side; [apply (ik_fam _ _ _ _ _ Hok)| |].
  split; try done.
  - split; try (by rewrite ?Kh, ?Kc).
    + rewrite Kh. eapply Hash.hash_ok_frame; [exact Ih|done|done|]. intros x k Hx. by eapply kept_key.
    + intros p q ino Hp%Hcc Hq%Hcc; [by eapply Iu|done..].
  - exists ids. split; [done|]. intros p Hp. destruct (Hids p Hp) as [?|[? E]]; [by left|right]. split; [done|]. by rewrite Kn.
  - intros p Hp. destruct (Ia p Hp) as (i & E & Hsb). destruct (Ki p i E) as (i' & E' & _ & Hsb'). exists i'. by rewrite Hsb'.
  - by rewrite Km.
  - intros q ino Hq%Hcc; [|done..]. rewrite Km. by eapply In.
Qed.

(** ** A new inode *)

Definition new_inode (bd_dev ino pad flags : Z) : easy_m_inode :=
  MInode (DInode ino F_NONE (u16 bd_dev) pad 0 (replicate 13 0) 1) sleep_init 0 flags M_ESB 0.

Lemma efs_imap_alloc_ok lo s :
  Bmp.bitmap_wf lo (imap s) → 0 < lo → Bmp.unused (imap s) ≠ 0 →
  ∃ t ds b', efs_imap_alloc s = Done t (set_sflags (SET_FLAG (s_flags s) S_DIRTY) (set_ds ds (set_imap b' s))) ∧
    lo <= t < Bmp.size (imap s) ∧ Bmp.used (imap s) t = false ∧ (∀ j, lo <= j < t → Bmp.used (imap s) j = true) ∧
    Bmp.bitmap_wf lo b' ∧ Bmp.size b' = Bmp.size (imap s) ∧
    ∀ k, 0 <= k → Bmp.used b' k = if decide (k = t) then true else Bmp.used (imap s) k.
Proof.
  intros Hwf Hlo Hu. destruct (Bmp.bitmap_alloc_correct lo (imap s) Hwf) as [_ Ha].
  destruct (Ha Hu) as (t & b' & E & Ht & Hf & Hleast & Hk & Hs & _ & Hwf'). eexists t, _, b'.
  split; [|done]. unfold efs_imap_alloc. rewrite (bind_Done _ _ _ t (set_imap b' s)) by (unfold zoom; by rewrite E).
  destruct (Z.eqb_spec t (-1)); [lia|]. reflexivity.
Qed.

(** What [efs_i_new] does to the state. *)
Record new_frame s s' : Prop := {
  nw_bd : s_bd s' = s_bd s;
  nw_bmap : bmap s' = bmap s;
  nw_dhash : s_dhash s' = s_dhash s;
  nw_dentries : dentries s' = dentries s;
  nw_indirs : indirs s' = indirs s;
  nw_locks : efs_locks s' = efs_locks s;
  nw_dcache : efs_dentry_kmem_cache s' = efs_dentry_kmem_cache s;
  nw_pagea : pagea s' = pagea s;
  nw_nodes : same_nodes d_side (nodes s) (nodes s');
}.

(** The node part of [efs_i_new]: a fresh object [p] joins the dirty list, the
    hash table and the list of inodes. *)
Lemma new_linked s p i σ ids ys :
  inodes s !! p = Some i → i_sb i = M_ESB → 0 <= i_no (i_di i) → dirty_ok s σ ids → dirty_node s σ ids p → p ∉ ids →
  Hash.hash_ok (inode_key s) (s_ihash s) σ (nodes s) → σ !! S_ilist = Some ys →
  (S_ilist ∉ Hash.heads (s_ihash s)) → (S_idirty_list ∉ Hash.heads (s_ihash s)) →
  ¬ in_fam σ (I_hnode p) → ¬ in_fam σ (I_list p) → is_Some (nodes s !! I_hnode p) → is_Some (nodes s !! I_list p) →
  ∃ t h hd xs, let σ0 := <[S_idirty_list := I_dirty <$> p :: ids]> σ in
    let s1 := set_inodes (<[p := set_i_flags (SET_FLAG (i_flags i) I_DIRTY) i]> (inodes s)) s in
    (efs_i_sdirty p;; efs_i_addsb p) s = Done tt (set_nodes h (set_s_ihash t s1)) ∧
    Hash.heads t = Hash.heads (s_ihash s) ∧ hd ∈ Hash.heads (s_ihash s) ∧ σ0 !! hd = Some xs ∧ σ0 !! S_ilist = Some ys ∧
    Hash.hash_ok (inode_key s1) t (<[S_ilist := I_list p :: ys]> (<[hd := I_hnode p :: xs]> σ0)) h ∧
    only (nodes s) h ((I_dirty p :: S_idirty_list :: (I_dirty <$> ids)) ++ I_hnode p :: I_list p :: S_ilist :: hd :: xs ++ ys).
Proof.
  intros Ei Hsb Hno Hd Hdn Hpi Hok Hys Hil Hid Fh Fl Nh Nl.
  destruct (efs_i_sdirty_ok p i s σ ids Ei Hsb Hd Hdn) as (h1 & E1 & Hf1 & Ho1).
  assert (Ew : with_dirty p ids = p :: ids) by (unfold with_dirty; by rewrite decide_False).
  rewrite Ew in Hf1. set (σ0 := <[S_idirty_list := I_dirty <$> p :: ids]> σ) in *.
  set (i1 := set_i_flags _ i) in *. set (s1 := set_inodes (<[p := i1]> (inodes s)) s) in *.
  set (s2 := set_nodes h1 s1) in *.
  assert (Hok0 : Hash.hash_ok (inode_key s2) (s_ihash s2) σ0 (nodes s2)).
  { eapply Hash.hash_ok_frame; [exact Hok|exact Hf1| |].
    - intros hd Hhd. unfold σ0. rewrite lookup_insert_ne; [done|by intros <-].
    - intros x k Hx. destruct x as [|q| | | | | | | | | | | |]; try done. simpl in *.
      destruct (decide (p = q)) as [<-|Hne]; [rewrite lookup_insert_eq, Ei in *; done|by rewrite lookup_insert_ne]. }
  assert (Hys0 : σ0 !! S_ilist = Some ys) by (unfold σ0; by rewrite lookup_insert_ne).
  destruct Hd as [_ Hdl].
  assert (Hnf : ∀ q, q ≠ S_idirty_list → q ≠ I_dirty p → ¬ in_fam σ q → ¬ in_fam σ0 q).
  { intros q Hq1 Hq2 Hq [?|[Hin|?]]%in_fam_insert; [done| |done].
    apply elem_of_cons in Hin as [?|Hin]; [done|]. apply Hq. exists S_idirty_list. eexists. split; [done|by right]. }
  destruct (efs_i_addsb_ok s2 p i1 σ0 ys) as (t & h & hd & xs & E2 & Ht & Hhd & Hx & Hok2 & Ho2);
    [apply lookup_insert_eq|done|done|done|done|by apply Hnf|by apply Hnf| | |].
  { rewrite <-elem_of_dom. simpl. rewrite (proj1 Ho1). by apply elem_of_dom. }
  { rewrite <-elem_of_dom. simpl. rewrite (proj1 Ho1). by apply elem_of_dom. }
  exists t, h, hd, xs. cbv zeta. split; [rewrite (bind_Done _ _ _ _ _ E1); exact E2|].
  split_and!; try done. eapply only_trans; [exact Ho1|exact Ho2|clear; set_solver..].
Qed.

Lemma efs_i_new_ok bd_dev lo s σ X L :
  inodes_ok lo s σ X L → X ≠ ∅ → Bmp.unused (imap s) ≠ 0 → sb_lock ∉ efs_locks s →
  ∃ p ino pad s' σ', efs_i_new bd_dev s = Done p s' ∧ p ∈ X ∧
    lo <= ino < Bmp.size (imap s) ∧ Bmp.used (imap s) ino = false ∧ (∀ j, lo <= j < ino → Bmp.used (imap s) j = true) ∧
    (∀ k, 0 <= k → Bmp.used (imap s') k = if decide (k = ino) then true else Bmp.used (imap s) k) ∧
    inodes s' = <[p := new_inode bd_dev ino pad (SET_FLAG 0 I_DIRTY)]> (inodes s) ∧
    inodes_ok lo s' σ' (X ∖ {[p]}) ({[p]} ∪ L) ∧ in_cache s' σ' p ino ∧ new_frame s s' ∧
    ∃ ids, σ' !! S_idirty_list = Some (I_dirty <$> p :: ids).
Proof.
  intros [Hc Hs (ids & Eids & Hids) Hat [Hwf [Hlo Hsz]] Hnew Hroot] HX Hu Hlk.
  set (sL := set_efs_locks ({[sb_lock]} ∪ efs_locks s) s).
  destruct (efs_imap_alloc_ok lo sL Hwf Hlo Hu) as (ino & ds & b' & Ea & Hino & Hfree & Hleast & Hwf' & Hsz' & Hus).
  change (imap sL) with (imap s) in *.
  set (s1 := set_sflags (SET_FLAG (s_flags s) S_DIRTY) (set_ds ds (set_imap b' s))).
  pose proof Hc as [Ih [ys Iys] [Iil Iid] _ Iobj Ifr].
  destruct (efs_i_alloc_ok s1 X L Iobj HX) as (p & c' & Ep & Hp & Hobj). destruct (Ifr p Hp) as (F1 & F2 & F3).
  match type of Ep with _ = Done _ ?x => set (s2 := x) in * end.
  set (d0 := i_di (default zero_inode (inodes s1 !! p))) in *.
  set (i := new_inode bd_dev ino (i_pad d0) 0). set (s3 := set_inodes (<[p := i]> (inodes s)) s2).
  set (s4 := set_efs_locks ({[sb_lock]} ∪ efs_locks s) s3).
  assert (Hpi : p ∉ ids).
  { intros Hin. apply F3. exists S_idirty_list. eexists. split; [exact Eids|]. right. apply list_elem_of_fmap. eauto. }
  assert (Hkey : ∀ q, q ≠ p → inode_key s4 (I_hnode q) = inode_key s (I_hnode q)) by (intros q Hq; simpl; by rewrite lookup_insert_ne).
  assert (Hok4 : Hash.hash_ok (inode_key s4) (s_ihash s4) σ (nodes s4)).
  { eapply hash_ok_fresh; [exact Ih|by apply (init_fresh _ _ _ _ _ (Hash.ok_fam _ _ _ _ Ih) F3 F2 F1)|exact F1|].
    intros x k Hk Hx. destruct x; try done. rewrite Hkey; [done|]. by intros ->. }
  assert (Hmiss : ∀ q, ¬ in_cache s σ q ino) by (intros q Hq; destruct (Hnew _ _ Hq) as [_ Hq']; congruence).
  destruct (new_linked s4 p i σ ids ys) as (t & h & hd & xs & El & Ht & Hhd & Hx & Hys & Hok & Ho);
    [apply lookup_insert_eq|done|simpl; lia|split; [apply (Hash.ok_fam _ _ _ _ Hok4)|done]| |done|done|done|done|done|done|done| | |].
  { right. split; [done|]. simpl. unfold INIT_LIST_HEAD. apply lookup_insert_eq. }
  { simpl. unfold INIT_LIST_HEAD. simplify_map_eq. by eexists. }
  { simpl. unfold INIT_LIST_HEAD. simplify_map_eq. by eexists. }
  set (i' := set_i_flags _ i) in *. set (σ0 := <[S_idirty_list := _]> σ) in *.
  match type of El with _ = Done _ ?x => set (s5 := x) in * end.
  set (s6 := set_efs_locks (efs_locks s) s5).
  destruct (icache_ok_added s (set_inodes (<[p := i']> (inodes s4)) s4) s6 σ σ0 X L p i' c' t h hd xs ys ino)
    as (H5 & H6 & H7); try done.
  { intros l Hl. unfold σ0. rewrite lookup_insert_ne; [done|]. intros <-. by destruct Hl. }
  { intros q [->|[Hq|Hq]]%in_fam_insert; [left|rewrite fmap_cons in Hq; apply elem_of_cons in Hq as [->|Hq]; [by right|left]|by left].
    - exists S_idirty_list. eexists. split; [done|by left].
    - exists S_idirty_list. eexists. split; [done|by right]. }
  { simpl. by rewrite lookup_insert_eq. }
  { intros q Hq. simpl. by rewrite !lookup_insert_ne. }
  { simpl. by rewrite !insert_insert_eq. }
  set (σ' := <[S_ilist := _]> _) in *.
  exists p, ino, (i_pad d0), s6, σ'. split.
  { unfold efs_i_new. rewrite (bind_Done _ _ _ _ _ (efs_lock_ok sb_lock s Hlk)). fold sL. rewrite (bind_Done _ _ _ _ _ Ea).
    rewrite (bind_Done _ _ _ tt s1).
    2:{ rewrite (efs_unlock_ok sb_lock (efs_locks s)); done. }
    rewrite (bind_Done _ _ _ _ _ Ep).
    rewrite (bind_Done _ _ _ tt s3).
    2:{ unfold di_mod. rewrite (inode_mod_ok p _ _ _ (lookup_insert_eq _ _ _)). unfold s3, i, new_inode. simpl.
        rewrite u32_small by lia. by rewrite insert_insert_eq. }
    rewrite (bind_Done _ _ _ tt s3).
    2:{ rewrite (inode_mod_ok p _ i s3) by apply lookup_insert_eq. unfold s3. simpl. by rewrite insert_insert_eq. }
    rewrite (bind_Done _ _ _ tt s4) by exact (efs_lock_ok sb_lock s3 Hlk).
    rewrite (bind_two _ _ _ _ _ _ El). rewrite (bind_Done _ _ _ tt s6); [done|]. by apply efs_unlock_ok. }
  assert (Hs0 : on_side i_side σ0).
  { apply on_side_insert; [done|done|]. intros q (y & -> & _)%list_elem_of_fmap. done. }
  assert (Hxy : ∀ q, q ∈ (I_dirty p :: S_idirty_list :: (I_dirty <$> ids)) ++ I_hnode p :: I_list p :: S_ilist :: hd :: xs ++ ys →
    q = I_dirty p ∨ q = I_hnode p ∨ q = I_list p ∨ in_fam σ q).
  { intros q Hq. assert (Hh : ∀ l, l ∈ hd :: xs → l = I_dirty p ∨ in_fam σ l).
    { intros l Hl. assert (Hl0 : in_fam σ0 l) by (exists hd, xs; done). apply in_fam_insert in Hl0 as [->|[Hin|?]]; [| |by right].
      - right. exists S_idirty_list. eexists. split; [done|by left].
      - rewrite fmap_cons in Hin. apply elem_of_cons in Hin as [->|Hin]; [by left|]. right.
        exists S_idirty_list. eexists. split; [done|by right]. }
    assert (Hd : ∀ l, l ∈ S_idirty_list :: (I_dirty <$> ids) → in_fam σ l) by (intros l Hl; exists S_idirty_list; eauto).
    assert (Hl : ∀ l, l ∈ S_ilist :: ys → in_fam σ l) by (intros l Hl'; exists S_ilist; eauto).
    clear -Hq Hh Hd Hl. apply elem_of_app in Hq as [[->|Hq]%elem_of_cons|Hq]; [by left|right; right; right; by apply Hd|].
    apply elem_of_cons in Hq as [->|Hq]; [tauto|]. apply elem_of_cons in Hq as [->|Hq]; [tauto|].
    apply elem_of_cons in Hq as [->|Hq]; [right; right; right; apply Hl; by left|].
    apply elem_of_cons in Hq as [->|Hq]; [destruct (Hh hd); [by left|tauto..]|].
    apply elem_of_app in Hq as [Hq|Hq]; [destruct (Hh q); [by right|tauto..]|right; right; right; apply Hl; by right]. }
  assert (Hdl : σ' !! S_idirty_list = Some (I_dirty <$> p :: ids)).
  { unfold σ', σ0. rewrite 2!lookup_insert_ne; [apply lookup_insert_eq|intros ->; by apply Iid|done]. }
  split_and!; try done; [lia|lia|simpl; by rewrite !insert_insert_eq| | |by exists ids].
  - split; try done.
    + intros q Hq. apply (in_fam_two σ0 hd xs ys) in Hq as [->|[->|Hq]]; [done|done|by apply Hs0|done|done].
    + exists (p :: ids). split; [done|].
      intros q Hq. destruct (decide (q = p)) as [->|Hqp]; [left; by left|].
      assert (Hq' : q ∈ {[root_m_inode]} ∪ L) by set_solver. destruct (Hids q Hq') as [?|[Hnf Hn]]; [left; by right|right].
      split.
      * intros [E|[E|Hin]]%(in_fam_two σ0 hd xs ys); [done|done| |done|done].
        apply in_fam_insert in Hin as [?|[Hin|?]]; [done| |done]. rewrite fmap_cons in Hin.
        apply elem_of_cons in Hin as [E|Hin]; [by injection E|]. apply Hnf. exists S_idirty_list. eexists. split; [done|by right].
      * change (nodes s6) with h. rewrite (proj2 Ho).
        -- simpl. unfold INIT_LIST_HEAD. by rewrite !lookup_insert_ne by congruence.
        -- intros [E|[E|[E|?]]]%Hxy; [by injection E|done..].
    + intros q Hq. destruct (decide (q = p)) as [->|Hqp]; [exists i'; split; [apply lookup_insert_eq|done]|].
      destruct (Hat q) as (j & Ej & Hj); [set_solver|]. exists j. split; [|done]. simpl. by rewrite !lookup_insert_ne.
    + simpl. by rewrite Hsz'.
    + intros q k [[-> ->]|[_ Hq]]%H7.
      * split; [lia|]. simpl. rewrite Hus by lia. by rewrite decide_True.
      * destruct (Hnew _ _ Hq) as [Hk0 Hku]. split; [done|]. simpl. rewrite Hus by lia. by case_decide.
    + set_solver.
  - split; try done. simpl. eapply same_nodes_trans; [|eapply only_other; [exact Ho|]].
    + intros q Hq. simpl. unfold INIT_LIST_HEAD. rewrite !lookup_insert_ne; [done|by intros <-; apply Hq..].
    + intros q [->|[->|[->|Hq]]]%Hxy Hd; apply Hd; [done..|by apply Hs].
Qed.

(** ** The dentries in memory

    [Xd] are the free objects of the slab, [Ld] those in use. *)

Definition d_node (d : Z) (l : floc) : Prop :=
  l = D_hnode d ∨ l = D_list d ∨ l = D_dirty d ∨ l = D_child d ∨ l = D_sibling d.

(** Dentry [d] is [x], with the children [ds] in memory: they carry different
    names, and the file of a filled directory has one entry per child. *)
Record dentry_ok s σ (L Ld : gset Z) (d : Z) (x : easy_dentry) (ds : list Z) : Prop := {
  dk_at : dentries s !! d = Some x;
  dk_list : σ !! D_child d = Some (D_sibling <$> ds);
  dk_entries : ∀ c, c ∈ ds → c ∈ Ld ∧ ∃ y n, dentries s !! c = Some y ∧ d_parent y = d ∧ entry_name y n;
  dk_names : ∀ c1 c2 n, c1 ∈ ds → c2 ∈ ds → named s c1 n → named s c2 n → c1 = c2;
  dk_inode : d_inode x ≠ 0 → d_inode x ∈ {[root_m_inode]} ∪ L;
  dk_size : TEST_FLAG (d_flags x) D_CHILD ≠ 0 → d_inode x ≠ 0 ∧
    ∃ i, inodes s !! d_inode x = Some i ∧ i_size (i_di i) = Z.of_nat (DIRENT_BYTES * length ds);
  dk_idle : idle (d_slock x);
}.

Record dents_ok s σ (L Xd Ld : gset Z) : Prop := {
  dt_fam : fam (nodes s) σ;
  dt_side : on_side d_side σ;
  dt_dirty : ∃ dds, σ !! S_ddirty_list = Some (D_dirty <$> dds) ∧ ∀ d, d ∈ {[root_dentry]} ∪ Ld →
    d ∈ dds ∨ (¬ in_fam σ (D_dirty d) ∧ nodes s !! D_dirty d = Some (Node (D_dirty d) (D_dirty d)));
  dt_cache : obj_rep (efs_dentry_kmem_cache s) Xd Ld;
  dt_fresh : ∀ d l, d ∈ Xd → d_node d l → ¬ in_fam σ l;
  dt_each : ∀ d, d ∈ {[root_dentry]} ∪ Ld → ∃ x ds, dentry_ok s σ L Ld d x ds;
  dt_inj : ∀ d1 d2 x1 x2, d1 ∈ {[root_dentry]} ∪ Ld → d2 ∈ {[root_dentry]} ∪ Ld →
    dentries s !! d1 = Some x1 → dentries s !! d2 = Some x2 → d_inode x1 = d_inode x2 → d_inode x1 ≠ 0 → d1 = d2;
  dt_root : root_dentry ∉ Xd ∪ Ld;
  dt_shape : ∀ d x, dentries s !! d = Some x → length (d_name (d_dd x)) = DIR_MAXLEN;
  dt_null : 0 ∉ Ld;
}.

(** Everything in memory. *)
Definition tree_ok lo s σi σd (X L Xd Ld : gset Z) : Prop := inodes_ok lo s σi X L ∧ dents_ok s σd L Xd Ld.

(** Sizes of the inodes in use. *)
Definition sizes_kept (L : gset Z) s s' : Prop := ∀ p i, p ∈ {[root_m_inode]} ∪ L → inodes s !! p = Some i →
  ∃ i', inodes s' !! p = Some i' ∧ i_size (i_di i') = i_size (i_di i).

Lemma dentry_frame s s' σ L L' Ld d x ds :
  dentry_ok s σ L Ld d x ds → dentries s' = dentries s → L ⊆ L' → sizes_kept L s s' → dentry_ok s' σ L' Ld d x ds.
Proof.
  intros [K1 K2 K3 K4 K5 K6 K7] Ed HL Hi. split; try done.
  - by rewrite Ed.
  - intros c Hc. rewrite Ed. by apply K3.
  - intros c1 c2 n H1' H2'. unfold named. rewrite Ed. by apply K4.
  - intros Hx. specialize (K5 Hx). set_solver.
  - intros Hx. destruct (K6 Hx) as (Hz & i & Ei & Hsz). split; [done|].
    destruct (Hi _ i (K5 Hz) Ei) as (i' & E' & Hsz'). exists i'. by rewrite Hsz'.
Qed.

Lemma dents_frame s s' σ L L' Xd Ld :
  dents_ok s σ L Xd Ld → same_nodes d_side (nodes s) (nodes s') → dentries s' = dentries s →
  efs_dentry_kmem_cache s' = efs_dentry_kmem_cache s → L ⊆ L' → sizes_kept L s s' → dents_ok s' σ L' Xd Ld.
Proof.
  intros [Df Ds (dds & Ed & Hd) Dc Dfr De Di Dr Dsh Dz] Hn Ed' Ec HL Hi.
  split; try done.
  - by eapply fam_side.
  - exists dds. split; [done|]. intros d Hd'. destruct (Hd d Hd') as [?|[? E]]; [by left|right]. split; [done|].
    rewrite Hn; [done|]. by intros ?.
  - by rewrite Ec.
  - intros d Hd'. destruct (De d Hd') as (x & ds & Hx). exists x, ds. by eapply dentry_frame.
  - intros d1 d2 x1 x2. rewrite Ed'. apply Di.
  - intros d x. rewrite Ed'. apply Dsh.
Qed.

(** ** Locks and flags of a dentry *)

Lemma d_sleep_ok me d x s : dentries s !! d = Some x → idle (d_slock x) →
  d_sleep me d s = Done tt (set_dentries (<[d := set_d_slock (held me) x]> (dentries s)) s).
Proof.
  intros Ex Hl. unfold d_sleep. rewrite (bind_Done _ _ _ _ _ (dentry_at_ok _ _ _ Ex)).
  erewrite bind_Done; [|by apply mutex_lock_ok]. by apply dentry_mod_ok.
Qed.
Lemma d_wake_ok d x s : dentries s !! d = Some x → busy (d_slock x) →
  d_wake d s = Done tt (set_dentries (<[d := set_d_slock released x]> (dentries s)) s).
Proof.
  intros Ex Hl. unfold d_wake. rewrite (bind_Done _ _ _ _ _ (dentry_at_ok _ _ _ Ex)).
  erewrite bind_Done; [|by apply mutex_unlock_ok]. by apply dentry_mod_ok.
Qed.

(** ** A new dentry *)

Lemma fam_new_list h σ hd :
  fam h σ → ¬ in_fam σ hd → h !! hd = Some (Node hd hd) → fam h (<[hd := []]> σ).
Proof.
  intros [Hd Hdis] Hno Eh. assert (Hself : ∀ q xs l, σ !! l = Some xs → q ∈ l :: xs → q ≠ hd).
  { intros q xs l El Hq ->. apply Hno. by exists l, xs. }
  split.
  - intros l xs [[<- <-]|[_ E]]%lookup_insert_Some; [|by apply Hd].
    split; [apply NoDup_singleton|]. simpl. unfold links, nxt, prv. by rewrite Eh.
  - intros l1 l2 xs1 xs2 q [[<- <-]|[_ E1]]%lookup_insert_Some [[<- <-]|[_ E2]]%lookup_insert_Some H1' H2'; [done| | |by eapply Hdis].
    + apply list_elem_of_singleton in H1' as ->. by destruct (Hself _ _ _ E2 H2').
    + apply list_elem_of_singleton in H2' as ->. by destruct (Hself _ _ _ E1 H1').
Qed.

Definition new_dentry (dd : easy_dirent) : easy_dentry := Dentry dd 0 0 sleep_init 0 0.

Lemma efs_d_alloc_ok s Xd Ld :
  obj_rep (efs_dentry_kmem_cache s) Xd Ld → Xd ≠ ∅ →
  ∃ d c', efs_d_alloc s = Done d (set_nodes (init_d_nodes d (nodes s))
      (set_dentries (<[d := new_dentry (d_dd (default zero_dentry (dentries s !! d)))]> (dentries s)) (set_dcache c' s))) ∧
    d ∈ Xd ∧ obj_rep c' (Xd ∖ {[d]}) ({[d]} ∪ Ld).
Proof.
  intros Hr HX. destruct (obj_alloc_ok _ _ _ Hr HX) as (d & c' & E & Hd & Hr').
  pose proof (obj_rep_nonnull _ _ _ _ Hr Hd). exists d, c'. split; [|done].
  unfold efs_d_alloc. rewrite (bind_Done _ _ _ d (set_dcache c' s)) by (unfold zoom; by rewrite E).
  destruct (Z.eqb_spec d 0); [done|]. by rewrite (bind_Done _ _ _ tt (set_dcache c' s)).
Qed.

Lemma init_d_nodes_other d h q : ¬ d_node d q → init_d_nodes d h !! q = h !! q.
Proof.
  intros Hq. unfold init_d_nodes, INIT_LIST_HEAD. unfold d_node in Hq.
  rewrite !lookup_insert_ne; [done|intros <-; tauto..].
Qed.
Lemma init_d_nodes_own d h q : d_node d q → init_d_nodes d h !! q = Some (Node q q).
Proof. intros Hq. unfold init_d_nodes, INIT_LIST_HEAD. destruct Hq as [->|[->|[->|[->| ->]]]]; by simplify_map_eq. Qed.
Lemma init_d_fam d h σ :
  fam h σ → (∀ l, d_node d l → ¬ in_fam σ l) → fam (init_d_nodes d h) (<[D_child d := []]> σ).
Proof.
  intros Hf Hno. apply fam_new_list.
  - eapply fam_agree; [exact Hf|]. intros q Hq. apply init_d_nodes_other. intros Hd. by apply (Hno q).
  - apply Hno. unfold d_node. tauto.
  - apply init_d_nodes_own. unfold d_node. tauto.
Qed.

(** Copying a name of at most 15 characters into the field of a dentry without
    an inode. *)
Lemma strncpy_name_ok d x n s :
  dentries s !! d = Some x → d_inode x = 0 → length (d_name (d_dd x)) = DIR_MAXLEN → chars n → (length n < DIR_MAXLEN)%nat →
  ∃ nm, strncpy_name d (n ++ [0]) s = Done tt (set_dentries (<[d := set_d_dd (set_d_name nm (d_dd x)) x]> (dentries s)) s) ∧
    length nm = DIR_MAXLEN ∧ ∃ pad, nm = n ++ 0 :: pad.
Proof.
  intros Ex Hi Hlen Hn Hl. unfold strncpy_name. rewrite (bind_Done _ _ _ _ _ (dentry_at_ok _ _ _ Ex)).
  destruct (strncpy_field (d_name (d_dd x) ++ [d_inode x mod 256]) n DIR_MAXLEN s) as (m & E & Hm);
    [done|by rewrite length_app, Hlen|done|unfold DIR_MAXLEN; lia|].
  rewrite (bind_Done _ _ _ _ _ E), (dentry_mod_ok _ _ _ _ Ex). rewrite Hi in *. simpl snd.
  set (l := n ++ _) in Hm. assert (Hll : length l = 17%nat).
  { unfold l. rewrite !length_app, length_drop, length_app, Hlen. simpl. unfold DIR_MAXLEN in *. lia. }
  assert (Hz : m !! (NAME_AT + 16) = Some 0).
  { change (NAME_AT + 16) with (NAME_AT + Z.of_nat 16). rewrite Hm by (unfold DIR_MAXLEN; lia). unfold l. rewrite lookup_app_r by (unfold DIR_MAXLEN in *; lia).
    destruct (decide (length n = 15)%nat) as [-> |]; [done|].
    rewrite lookup_app_r, lookup_drop by (simpl; unfold DIR_MAXLEN in *; lia). simpl length.
    rewrite lookup_app_r by (rewrite Hlen; unfold DIR_MAXLEN in *; lia). rewrite Hlen.
    replace (_ - DIR_MAXLEN)%nat with 0%nat by (unfold DIR_MAXLEN in *; lia). done. }
  exists (take DIR_MAXLEN l). rewrite (bytes_of_list m NAME_AT l) by (rewrite ?Hll; intros; try apply Hm; unfold DIR_MAXLEN in *; lia).
  split; [|split].
  - rewrite Hz. change (0 - 0 mod 256 + default 0 (Some 0)) with 0. do 2 f_equal. unfold set_d_inode, set_d_dd. simpl. by rewrite Hi.
  - rewrite length_take, Hll. done.
  - exists (drop (S (length n)) (take DIR_MAXLEN l)). rewrite <-(take_drop (S (length n)) (take DIR_MAXLEN l)) at 1.
    rewrite take_take, Nat.min_l by lia. rewrite cons_middle, app_assoc. f_equal. unfold l.
    rewrite take_app_ge by lia. f_equal. by replace (S (length n) - length n)%nat with 1%nat by lia.
Qed.

(** ** Linking and resizing *)

Lemma efs_d_conn_ok d pd x xs s σ :
  dentries s !! d = Some x → fam (nodes s) σ → σ !! D_child pd = Some xs → ¬ in_fam σ (D_sibling d) →
  is_Some (nodes s !! D_sibling d) →
  ∃ h, efs_d_conn d pd s = Done tt (set_nodes h (set_dentries (<[d := set_d_parent pd x]> (dentries s)) s)) ∧
    fam h (<[D_child pd := xs ++ [D_sibling d]]> σ) ∧ only (nodes s) h (D_sibling d :: D_child pd :: xs).
Proof.
  intros Ex Hf Ec Hno Hn. destruct (fam_add_tail _ _ _ _ _ Hf Ec Hno Hn) as (h & E & Hf' & _ & Ho).
  exists h. split; [|done]. unfold efs_d_conn. rewrite (bind_Done _ _ _ _ _ (dentry_mod_ok _ _ _ _ Ex)).
  unfold node_do, update. simpl. by rewrite E.
Qed.

Definition d_dirty_node (dds : list Z) σ (h : gmap floc (node floc)) (d : Z) : Prop :=
  d ∈ dds ∨ (¬ in_fam σ (D_dirty d) ∧ h !! D_dirty d = Some (Node (D_dirty d) (D_dirty d))).

Lemma efs_d_sdirty_ok d x s σ dds :
  dentries s !! d = Some x → fam (nodes s) σ → σ !! S_ddirty_list = Some (D_dirty <$> dds) → d_dirty_node dds σ (nodes s) d →
  ∃ h, efs_d_sdirty d s =
      Done tt (set_nodes h (set_dentries (<[d := set_d_flags (SET_FLAG (d_flags x) D_DIRTY) x]> (dentries s)) s)) ∧
    fam h (<[S_ddirty_list := D_dirty <$> with_dirty d dds]> σ) ∧
    only (nodes s) h (D_dirty d :: S_ddirty_list :: (D_dirty <$> dds)).
Proof.
  intros Ex Hfam Hds Hn. unfold efs_d_sdirty, set_d_flag.
  rewrite (bind_Done _ _ _ _ _ (dentry_mod_ok _ _ _ _ Ex)).
  set (s1 := set_dentries _ s). unfold with_dirty. destruct (decide (d ∈ dds)) as [Hin|Hin].
  - exists (nodes s). split; [|split; [by rewrite insert_id|apply only_refl]].
    assert (Hl : dll (nodes s) S_ddirty_list (D_dirty <$> dds)) by by apply Hfam.
    destruct (dll_next_ne _ _ _ (D_dirty d) Hl) as (y & Ey & Hy); [apply list_elem_of_fmap; eauto|].
    rewrite (bind_Done _ _ _ false s1); [done|].
    unfold node_empty, deref, list_empty. simpl. rewrite Ey. simpl. by rewrite bool_decide_eq_false_2.
  - destruct Hn as [?|[Hno En]]; [done|].
    destruct (fam_add_head (D_dirty d) S_ddirty_list (D_dirty <$> dds) (nodes s) σ) as (h & E & Hf' & _ & Ho);
      [done|done|done|by eexists|].
    exists h. split; [|split; [by rewrite fmap_cons|done]].
    rewrite (bind_Done _ _ _ true s1).
    2:{ unfold node_empty, deref, list_empty, nxt. simpl. rewrite En. simpl. by rewrite bool_decide_eq_true_2. }
    unfold node_do, update. simpl. by rewrite E.
Qed.

(** [efs_i_type] on an inode that is on the dirty list already. *)
Lemma di_update_dirty p g i s σ ids :
  inodes s !! p = Some i → fam (nodes s) σ → σ !! S_idirty_list = Some (I_dirty <$> ids) → p ∈ ids →
  sb_lock ∉ efs_locks s → i_lock p ∉ efs_locks s →
  di_update p g s = Done tt (set_inodes
    (<[p := set_i_flags (SET_FLAG (i_flags i) I_DIRTY) (set_i_di (g (i_di i)) i)]> (inodes s)) s).
Proof.
  intros Ei Hf Ed Hp Hl1 Hl2. unfold di_update, di_mod.
  rewrite (bind_Done _ _ _ _ _ (efs_lock_ok sb_lock s Hl1)).
  set (sL := set_efs_locks _ s). rewrite (bind_Done _ _ _ _ _ (efs_lock_ok (i_lock p) sL ltac:(unfold sL; simpl; set_solver))).
  set (L := {[i_lock p]} ∪ efs_locks sL). set (sL2 := set_efs_locks L sL).
  rewrite (bind_Done _ _ _ _ _ (inode_mod_ok p _ i sL2 Ei)). set (i1 := set_i_di (g (i_di i)) i).
  set (s1 := set_inodes (<[p := i1]> (inodes sL2)) sL2).
  set (s2 := set_inodes (<[p := set_i_flags (SET_FLAG (i_flags i1) I_DIRTY) i1]> (inodes s1)) s1).
  rewrite (bind_Done _ _ _ tt s2).
  2:{ unfold efs_i_sdirty. rewrite (bind_Done _ _ _ _ _ (inode_mod_ok p _ i1 s1 (lookup_insert_eq _ _ _))). fold s2.
      assert (Hl : dll (nodes s) S_idirty_list (I_dirty <$> ids)) by by apply Hf.
      destruct (dll_next_ne _ _ _ (I_dirty p) Hl) as (y & Ey & Hy); [apply list_elem_of_fmap; eauto|].
      rewrite (bind_Done _ _ _ false s2); [done|].
      unfold node_empty, deref, list_empty. change (nodes s2) with (nodes s). rewrite Ey. simpl. by rewrite bool_decide_eq_false_2. }
  erewrite bind_Done; [|apply (efs_unlock_ok (i_lock p) (efs_locks sL)); [unfold sL; simpl; set_solver|reflexivity]].
  erewrite efs_unlock_ok; [|exact Hl1|reflexivity].
  f_equal. unfold s2, s1, i1. destruct s; cbn. by rewrite insert_insert_eq.
Qed.

Lemma resize_parent_ok d pd delta x i s σ dds :
  dentries s !! pd = Some x → inodes s !! d_inode x = Some i → fam (nodes s) σ →
  σ !! S_ddirty_list = Some (D_dirty <$> dds) → d_dirty_node dds σ (nodes s) pd →
  sb_lock ∉ efs_locks s → d_lock d ∉ efs_locks s →
  ∃ h, resize_parent d pd delta s = Done tt (set_nodes h
      (set_dentries (<[pd := set_d_flags (SET_FLAG (d_flags x) D_DIRTY) x]> (dentries s))
        (set_inodes (<[d_inode x := set_i_di (set_i_size (u32 (i_size (i_di i) + delta)) (i_di i)) i]> (inodes s)) s))) ∧
    fam h (<[S_ddirty_list := D_dirty <$> with_dirty pd dds]> σ) ∧
    only (nodes s) h (D_dirty pd :: S_ddirty_list :: (D_dirty <$> dds)).
Proof.
  intros Ex Ei Hf Ed Hdn Hl1 Hl2. unfold resize_parent.
  rewrite (bind_Done _ _ _ _ _ (efs_lock_ok sb_lock s Hl1)).
  set (sL := set_efs_locks _ s). rewrite (bind_Done _ _ _ _ _ (efs_lock_ok (d_lock d) sL ltac:(unfold sL; simpl; set_solver))).
  set (L := {[d_lock d]} ∪ efs_locks sL). set (sL2 := set_efs_locks L sL).
  rewrite (bind_Done _ _ _ _ _ (dentry_at_ok pd x sL2 Ex)).
  unfold di_mod. rewrite (bind_Done _ _ _ _ _ (inode_mod_ok (d_inode x) _ i sL2 Ei)).
  set (s1 := set_inodes _ sL2).
  destruct (efs_d_sdirty_ok pd x s1 σ dds) as (h & E & Hf' & Ho); [done..|].
  exists h. split; [|done]. rewrite (bind_Done _ _ _ _ _ E).
  erewrite bind_Done; [|apply (efs_unlock_ok (d_lock d) (efs_locks sL)); [unfold sL; simpl; set_solver|reflexivity]].
  erewrite efs_unlock_ok; [|exact Hl1|reflexivity]. f_equal.
Qed.

(** ** A directory with one more entry *)

(** [s'] is [s] with the fresh dentry [d] linked as the last child of [pd]. *)
Record added s s' σ (L Xd Ld : gset Z) (pd d : Z) (x y : easy_dentry) (n : list Z) (ds dds : list Z) : Prop := {
  ad_pd : pd ∈ {[root_dentry]} ∪ Ld;
  ad_d : d ∈ Xd;
  ad_filled : TEST_FLAG (d_flags x) D_CHILD ≠ 0;
  ad_new : ∀ c, c ∈ ds → ¬ named s c n;
  ad_name : entry_name y n;
  ad_parent : d_parent y = pd;
  ad_blank : d_inode y = 0 ∧ d_flags y = 0 ∧ idle (d_slock y);
  ad_dentries : dentries s' = <[pd := set_d_slock released (set_d_flags (SET_FLAG (d_flags x) D_DIRTY) x)]> (<[d := y]> (dentries s));
  ad_inodes : ∃ i i', inodes s !! d_inode x = Some i ∧ inodes s' = <[d_inode x := i']> (inodes s) ∧
    i_size (i_di i') = i_size (i_di i) + Z.of_nat DIRENT_BYTES;
  ad_dds : σ !! S_ddirty_list = Some (D_dirty <$> dds);
  ad_nodes : ∀ q, q ≠ pd → q ∉ dds → nodes s' !! D_dirty q = if decide (q = d) then Some (Node (D_dirty d) (D_dirty d)) else nodes s !! D_dirty q;
  ad_cache : obj_rep (efs_dentry_kmem_cache s') (Xd ∖ {[d]}) ({[d]} ∪ Ld);
}.

(** The lists afterwards. *)
Definition lists_added σ (pd d : Z) (ds dds : list Z) : gmap floc (list floc) :=
  <[S_ddirty_list := D_dirty <$> with_dirty pd dds]> (<[D_child pd := (D_sibling <$> ds) ++ [D_sibling d]]> (<[D_child d := []]> σ)).

Lemma in_lists_added σ pd d ds dds q :
  σ !! D_child pd = Some (D_sibling <$> ds) → σ !! S_ddirty_list = Some (D_dirty <$> dds) →
  in_fam (lists_added σ pd d ds dds) q → q = D_dirty pd ∨ q = D_child d ∨ q = D_sibling d ∨ in_fam σ q.
Proof.
  intros Ec Ed [->|[Hq|Hq]]%in_fam_insert.
  - right; right; right. exists S_ddirty_list. eexists. split; [done|by left].
  - assert (Hq' : q = D_dirty pd ∨ q ∈ D_dirty <$> dds).
    { unfold with_dirty in Hq. case_decide; [by right|]. rewrite fmap_cons in Hq. by apply elem_of_cons in Hq. }
    destruct Hq' as [->|Hq']; [by left|]. right; right; right. exists S_ddirty_list. eexists. split; [done|by right].
  - apply in_fam_insert in Hq as [->|[Hq|Hq]].
    + right; right; right. exists (D_child pd). eexists. split; [done|by left].
    + apply elem_of_app in Hq as [Hq| ->%list_elem_of_singleton]; [|tauto].
      right; right; right. exists (D_child pd). eexists. split; [done|by right].
    + apply in_fam_insert in Hq as [->|[Hq|Hq]]; [tauto|by apply elem_of_nil in Hq|tauto].
Qed.

Section added.
Context s s' σ (L Xd Ld : gset Z) (pd d : Z) (x y : easy_dentry) (n : list Z) (ds dds : list Z).
Hypothesis Hok : dents_ok s σ L Xd Ld.
Hypothesis Hpd : dentry_ok s σ L Ld pd x ds.
Hypothesis Had : added s s' σ L Xd Ld pd d x y n ds dds.
Let σ' := lists_added σ pd d ds dds.
Let x' := set_d_slock released (set_d_flags (SET_FLAG (d_flags x) D_DIRTY) x).

Lemma added_fresh : d ∉ {[root_dentry]} ∪ Ld.
Proof. pose proof (obj_rep_disjoint _ _ _ (dt_cache _ _ _ _ _ Hok)). pose proof (dt_root _ _ _ _ _ Hok). pose proof (ad_d _ _ _ _ _ _ _ _ _ _ _ _ _ Had). set_solver. Qed.
Lemma added_ne : pd ≠ d.
Proof. pose proof added_fresh. pose proof (ad_pd _ _ _ _ _ _ _ _ _ _ _ _ _ Had). by intros ->. Qed.

(** The other dentries keep their name and parent. *)
Lemma added_at c z : c ≠ d → dentries s !! c = Some z →
  ∃ z', dentries s' !! c = Some z' ∧ d_dd z' = d_dd z ∧ d_parent z' = d_parent z ∧ d_inode z' = d_inode z.
Proof.
  intros Hc Ez. rewrite (ad_dentries _ _ _ _ _ _ _ _ _ _ _ _ _ Had). destruct (decide (c = pd)) as [->|Hne].
  - rewrite lookup_insert_eq. exists x'. rewrite (dk_at _ _ _ _ _ _ _ Hpd) in Ez. by injection Ez as <-.
  - exists z. by rewrite !lookup_insert_ne.
Qed.
Lemma added_named c m : c ∈ {[root_dentry]} ∪ Ld → named s' c m ↔ named s c m.
Proof.
  intros Hc. assert (Hcd : c ≠ d) by (pose proof added_fresh; by intros ->).
  destruct (dt_each _ _ _ _ _ Hok c Hc) as (z & dz & [Ez _ _ _ _ _ _]).
  destruct (added_at c z Hcd Ez) as (z' & Ez' & Edd & _).
  split; intros (w & Ew & Hw); [rewrite Ez' in Ew|rewrite Ez in Ew]; injection Ew as <-;
    [exists z|exists z']; (split; [done|]); unfold entry_name in *; by rewrite Edd in *.
Qed.
Lemma added_new_named m : named s' d m ↔ m = n.
Proof.
  pose proof (ad_name _ _ _ _ _ _ _ _ _ _ _ _ _ Had) as Hy.
  assert (E : dentries s' !! d = Some y).
  { rewrite (ad_dentries _ _ _ _ _ _ _ _ _ _ _ _ _ Had), lookup_insert_ne by apply added_ne. apply lookup_insert_eq. }
  assert (Hn : named s' d n) by by exists y.
  split; [intros Hm; by eapply named_inj|by intros ->].
Qed.

Lemma added_pd_ok : dentry_ok s' σ' L ({[d]} ∪ Ld) pd x' (ds ++ [d]).
Proof.
  pose proof added_fresh as Hfr. pose proof added_ne as Hne.
  destruct Had as [A1 A2 A3 A4 A5 A6 A7 A8 (i & i' & Ei & Eis & Hsz) A10 A11 A12]. destruct Hpd as [K1 K2 K3 K4 K5 K6 K7].
  assert (Hin : ∀ c, c ∈ ds → c ∈ {[root_dentry]} ∪ Ld) by (intros c Hc; destruct (K3 c Hc); set_solver).
  split.
  - rewrite A8. apply lookup_insert_eq.
  - unfold σ', lists_added. rewrite lookup_insert_ne by done. rewrite lookup_insert_eq. by rewrite fmap_app.
  - intros c [Hc|Hc]%elem_of_app.
    + destruct (K3 c Hc) as (HcL & z & m & Ez & Hpz & Hm). split; [set_solver|].
      destruct (added_at c z) as (z' & Ez' & Edd & Hpz' & _); [by intros ->; apply Hfr, Hin|done|].
      exists z', m. split_and!; [done|by rewrite Hpz'|]. unfold entry_name. by rewrite Edd.
    + apply list_elem_of_singleton in Hc as ->. split; [set_solver|]. exists y, n. split_and!; [|done|done]. rewrite A8, lookup_insert_ne by done. apply lookup_insert_eq.
  - intros c1 c2 m [H1'|H1']%elem_of_app [H2'|H2']%elem_of_app.
    + rewrite !added_named by by apply Hin. by apply K4.
    + apply list_elem_of_singleton in H2' as ->. rewrite added_new_named, added_named by by apply Hin.
      intros Hm ->. by destruct (A4 c1).
    + apply list_elem_of_singleton in H1' as ->. rewrite added_new_named, added_named by by apply Hin.
      intros -> Hm. by destruct (A4 c2).
    + apply list_elem_of_singleton in H1', H2'. by subst.
  - exact K5.
  - intros _. destruct (K6 A3) as (Hz & i0 & Ei0 & Hs0). rewrite Ei in Ei0. injection Ei0 as <-.
    split; [done|]. exists i'. split; [rewrite Eis; apply lookup_insert_eq|]. rewrite Hsz, Hs0, length_app. simpl length. lia.
  - done.
Qed.

Lemma added_old e z ez : e ∈ {[root_dentry]} ∪ Ld → e ≠ pd → dentry_ok s σ L Ld e z ez → dentry_ok s' σ' L ({[d]} ∪ Ld) e z ez.
Proof.
  intros He Hep [K1 K2 K3 K4 K5 K6 K7]. pose proof added_fresh as Hfr.
  assert (Hed : e ≠ d) by by intros ->. assert (Hin : ∀ c, c ∈ ez → c ∈ {[root_dentry]} ∪ Ld) by (intros c Hc; destruct (K3 c Hc); set_solver).
  destruct Had as [A1 A2 A3 A4 A5 A6 A7 A8 (i & i' & Ei & Eis & Hsz) A10 A11 A12].
  split; try done.
  - by rewrite A8, !lookup_insert_ne.
  - unfold σ', lists_added. rewrite !lookup_insert_ne by congruence. done.
  - intros c Hc. destruct (K3 c Hc) as (HcL & w & m & Ew & Hpw & Hm). split; [set_solver|].
    destruct (added_at c w) as (w' & Ew' & Edd & Hpw' & _); [by intros ->; apply Hfr, Hin|done|].
    exists w', m. split_and!; [done|by rewrite Hpw'|]. unfold entry_name. by rewrite Edd.
  - intros c1 c2 m H1' H2'. rewrite !added_named by by apply Hin. by apply K4.
  - intros Hf. destruct (K6 Hf) as (Hz & j & Ej & Hj). split; [done|]. exists j. split; [|done].
    rewrite Eis, lookup_insert_ne; [done|]. intros E. apply Hep.
    by apply (dt_inj _ _ _ _ _ Hok e pd z x); [done|done|done|apply (dk_at _ _ _ _ _ _ _ Hpd)|done|done].
Qed.

Lemma added_leaf : dentry_ok s' σ' L ({[d]} ∪ Ld) d y [].
Proof.
  pose proof added_ne as Hne. destruct Had as [A1 A2 A3 A4 A5 A6 (B1 & B2 & B3) A8 _ _ _ _]. split; try done.
  - rewrite A8, lookup_insert_ne by done. apply lookup_insert_eq.
  - unfold σ', lists_added. rewrite lookup_insert_ne by done. rewrite lookup_insert_ne by congruence. by rewrite lookup_insert_eq.
  - intros c Hc. by apply elem_of_nil in Hc.
  - intros c1 c2 m Hc. by apply elem_of_nil in Hc.
  - by rewrite B2.
Qed.

Lemma added_dirty e : e ∈ {[root_dentry]} ∪ ({[d]} ∪ Ld) → d_dirty_node (with_dirty pd dds) σ' (nodes s') e.
Proof.
  intros He. pose proof added_fresh as Hfr. pose proof added_ne as Hne.
  pose proof (dk_list _ _ _ _ _ _ _ Hpd) as Hlist. pose proof (dt_fresh _ _ _ _ _ Hok) as Hfresh.
  destruct Had as [A1 A2 A3 A4 A5 A6 A7 A8 _ A10 A11 A12]. destruct (dt_dirty _ _ _ _ _ Hok) as (dds' & Edds & Hd).
  rewrite A10 in Edds. injection Edds as Edds. apply (inj (fmap D_dirty)) in Edds as <-.
  assert (Hwd : ∀ q, q ∈ dds → q ∈ with_dirty pd dds) by (intros q Hq; unfold with_dirty; case_decide; [done|by right]).
  destruct (decide (e = pd)) as [->|Hep]; [left; unfold with_dirty; case_decide; [done|by left]|].
  destruct (decide (e = d)) as [->|Hed].
  - assert (Hno : ¬ in_fam σ (D_dirty d)) by (apply (Hfresh d); [done|unfold d_node; tauto]).
    right. split.
    + intros [E|[E|[E|Hq]]]%in_lists_added; [by injection E|done..|done|done].
    + rewrite A11; [by rewrite decide_True|done|]. intros Hq. apply Hno. exists S_ddirty_list. eexists. split; [done|].
      right. apply list_elem_of_fmap. eauto.
  - destruct (Hd e) as [Hin|[Hno En]]; [clear -He Hed; set_solver|left; by apply Hwd|]. right. split.
    + intros [E|[E|[E|Hq]]]%in_lists_added; [by injection E|done..|done|done].
    + rewrite A11; [by rewrite decide_False|done|]. intros Hq. apply Hno. exists S_ddirty_list. eexists. split; [done|].
      right. apply list_elem_of_fmap. eauto.
Qed.

(** The invariant of the dentries is kept. *)
Lemma added_dents : fam (nodes s') σ' → dents_ok s' σ' L (Xd ∖ {[d]}) ({[d]} ∪ Ld).
Proof.
  intros Hf. pose proof added_fresh as Hfr. pose proof added_ne as Hne. pose proof (dk_list _ _ _ _ _ _ _ Hpd) as Hlist.
  pose proof (dk_at _ _ _ _ _ _ _ Hpd) as Hat.
  destruct Hok as [D1 D2 D3 D4 D5 D6 D7 D8 D9 D10]. pose proof Had as [A1 A2 A3 A4 A5 A6 (B1 & B2 & B3) A8 A9 A10 A11 A12].
  assert (Hpx : pd ∉ Xd) by (pose proof (obj_rep_disjoint _ _ _ D4) as Hdd; clear -A1 D8 Hdd; set_solver).
  split; try done.
  - intros q [->|[->|[->|Hq]]]%in_lists_added; [by intros ?..|by apply D2|done|done].
  - exists (with_dirty pd dds). split; [apply lookup_insert_eq|]. intros e He. by apply added_dirty.
  - intros e l [He Hed]%elem_of_difference Hl [E|[E|[E|Hq]]]%in_lists_added; [| | |by apply (D5 e l)|done|done].
    + destruct Hl as [->|[->|[->|[->| ->]]]]; try done. injection E as ->. done.
    + destruct Hl as [->|[->|[->|[->| ->]]]]; try done. injection E as ->. by apply Hed, elem_of_singleton.
    + destruct Hl as [->|[->|[->|[->| ->]]]]; try done. injection E as ->. by apply Hed, elem_of_singleton.
  - intros e He. destruct (decide (e = pd)) as [->|Hep]; [exists x', (ds ++ [d]); by apply added_pd_ok|].
    destruct (decide (e = d)) as [->|Hed]; [exists y, []; by apply added_leaf|].
    assert (He' : e ∈ {[root_dentry]} ∪ Ld) by (clear -He Hed; set_solver). destruct (D6 e He') as (z & ez & Hz). exists z, ez. by apply added_old.
  - assert (Hlk : ∀ e z, e ∈ {[root_dentry]} ∪ ({[d]} ∪ Ld) → dentries s' !! e = Some z → d_inode z ≠ 0 →
      e ∈ {[root_dentry]} ∪ Ld ∧ ∃ z0, dentries s !! e = Some z0 ∧ d_inode z0 = d_inode z).
    { intros e z He. rewrite A8. destruct (decide (e = pd)) as [->|Hep].
      - rewrite lookup_insert_eq. intros [= <-] Hz. split; [done|]. by exists x.
      - rewrite lookup_insert_ne by done. destruct (decide (e = d)) as [->|Hed].
        + rewrite lookup_insert_eq. intros [= <-] Hz. done.
        + rewrite lookup_insert_ne by done. intros E _. split; [clear -He Hed; set_solver|]. by exists z. }
    intros d1 d2 z1 z2 Hd1 Hd2 E1 E2 Ez Hz. destruct (Hlk d1 z1 Hd1 E1 Hz) as (H1' & w1 & F1 & G1).
    destruct (Hlk d2 z2 Hd2 E2 ltac:(by rewrite <-Ez)) as (H2' & w2 & F2 & G2). apply (D7 d1 d2 w1 w2); congruence.
  - clear -D8 Hfr. set_solver.
  - intros e z. rewrite A8. intros [[<- <-]|[_ [[<- <-]|[_ E]]%lookup_insert_Some]]%lookup_insert_Some.
    + by apply (D9 pd x).
    + apply A5.
    + by apply (D9 e).
  - pose proof (obj_rep_nonnull _ _ _ _ D4 A2) as Hd0. clear -D10 Hd0. set_solver.
Qed.
End added.

(** ** Lookup and creation *)

Lemma fill_once_filled me pd x s :
  dentries s !! pd = Some x → TEST_FLAG (d_flags x) D_CHILD ≠ 0 → fill_once me pd s = Done tt s.
Proof.
  intros Ex Hf. unfold fill_once. rewrite (bind_Done _ _ _ _ _ (dentry_at_ok _ _ _ Ex)).
  by destruct (Z.eqb_spec (TEST_FLAG (d_flags x) D_CHILD) 0).
Qed.

(** [efs_d_name_check] in a filled directory, whose sleep lock may be held. *)
Lemma name_check_ok me pd x ds s s' σ L Ld m t :
  fam (nodes s) σ → dentry_ok s σ L Ld pd x ds → TEST_FLAG (d_flags x) D_CHILD ≠ 0 → chars m →
  nodes s' = nodes s → (∃ l, dentries s' = <[pd := set_d_slock l x]> (dentries s)) →
  ∃ r, efs_d_name_check me pd (m ++ 0 :: t) s' = Done r s' ∧
    ((r = 0 ∧ ∀ c, c ∈ ds → ¬ named s c m) ∨ (r ∈ ds ∧ named s r m)).
Proof.
  intros Hf [K1 K2 K3 _ _ _ _] Hfl Hm En [l Ed]. unfold efs_d_name_check.
  assert (Ex : dentries s' !! pd = Some (set_d_slock l x)) by (rewrite Ed; apply lookup_insert_eq).
  rewrite (bind_Done _ _ _ _ _ (fill_once_filled me pd _ _ Ex Hfl)).
  rewrite <-En in Hf. rewrite (bind_Done _ _ _ _ _ (children_ok _ _ _ _ Hf K2)).
  assert (Hnm : ∀ c n, named s' c n ↔ named s c n).
  { intros c n. unfold named. rewrite Ed. destruct (decide (c = pd)) as [->|Hc]; [|by rewrite lookup_insert_ne].
    rewrite lookup_insert_eq, K1. split; intros (y & [= <-] & Hy); by eexists. }
  destruct (name_loop_ok ds m t s') as (r & E & Hr); [|done|].
  { intros c Hc. destruct (K3 c Hc) as (_ & y & n & Ey & _ & Hn). exists n. apply Hnm. by exists y. }
  exists r. split; [exact E|]. destruct Hr as [[-> Hno]|[Hin Hn]]; [left|right]; (split; [done|]); [|by apply Hnm].
  intros c Hc. rewrite <-Hnm. by apply Hno.
Qed.

Record creat_ready lo s σi σd (X L Xd Ld : gset Z) (pd : Z) x (ds : list Z) (name : list Z) (type : Z) : Prop := {
  cr_tree : tree_ok lo s σi σd X L Xd Ld;
  cr_pd : pd ∈ {[root_dentry]} ∪ Ld ∧ pd ≠ 0;
  cr_dir : dentry_ok s σd L Ld pd x ds;
  cr_type : d_type (d_dd x) = F_DIR;
  cr_filled : TEST_FLAG (d_flags x) D_CHILD ≠ 0;
  cr_small : Z.of_nat (DIRENT_BYTES * S (length ds)) < 2 ^ 32;
  cr_name : chars name ∧ (length name < DIR_MAXLEN)%nat;
  cr_ftype : is_u32 type;
  cr_stock : X ≠ ∅ ∧ Xd ≠ ∅ ∧ Bmp.unused (imap s) ≠ 0;
  cr_locks : efs_locks s = ∅;
}.

(** The steps of [efs_d_creat] that follow [efs_i_new], which has returned [p]. *)
Definition creat_dentry (p pd : Z) (name : list Z) (type : Z) : M fs Z :=
  new_d ← efs_d_alloc;
  i ← inode_at p;
  dentry_mod new_d (λ x, set_d_dd (Dirent (i_no (i_di i)) (u32 type) (d_name (d_dd x))) x);;
  strncpy_name new_d (name ++ [0]);;
  efs_i_type p type;;
  efs_d_conn new_d pd;;
  resize_parent pd pd (Z.of_nat DIRENT_BYTES);;
  d_wake pd;;
  mret new_d.

(** They connect a new dentry for [p], the dirty inode [i] of [s]. *)
Lemma creat_tail pd name type s p i σi σd ids x ipd Xd Ld dds ds :
  inodes s !! p = Some i → fam (nodes s) σi → σi !! S_idirty_list = Some (I_dirty <$> ids) → p ∈ ids → on_side i_side σi →
  fam (nodes s) σd → on_side d_side σd → σd !! D_child pd = Some (D_sibling <$> ds) → σd !! S_ddirty_list = Some (D_dirty <$> dds) →
  d_dirty_node dds σd (nodes s) pd → (∀ d l, d ∈ Xd → d_node d l → ¬ in_fam σd l) →
  (∀ d z, dentries s !! d = Some z → length (d_name (d_dd z)) = DIR_MAXLEN) →
  obj_rep (efs_dentry_kmem_cache s) Xd Ld → Xd ≠ ∅ → pd ∉ Xd → dentries s !! pd = Some x → busy (d_slock x) →
  inodes s !! d_inode x = Some ipd → d_inode x ≠ p → chars name → (length name < DIR_MAXLEN)%nat → is_u32 type → efs_locks s = ∅ →
  ∃ d nm c' h, let y := Dentry (Dirent (i_no (i_di i)) type nm) 0 pd sleep_init 0 0 in
    let i' := set_i_flags (SET_FLAG (i_flags i) I_DIRTY) (set_i_di (set_i_type type (i_di i)) i) in
    let ipd' := set_i_di (set_i_size (u32 (i_size (i_di ipd) + Z.of_nat DIRENT_BYTES)) (i_di ipd)) ipd in
    creat_dentry p pd name type s = Done d (set_nodes h (set_dentries
       (<[pd := set_d_slock released (set_d_flags (SET_FLAG (d_flags x) D_DIRTY) x)]> (<[d := y]> (dentries s)))
       (set_inodes (<[d_inode x := ipd']> (<[p := i']> (inodes s))) (set_dcache c' s)))) ∧
    d ∈ Xd ∧ obj_rep c' (Xd ∖ {[d]}) ({[d]} ∪ Ld) ∧ length nm = DIR_MAXLEN ∧ (∃ pad, nm = name ++ 0 :: pad) ∧
    fam h (lists_added σd pd d ds dds) ∧
    same_nodes i_side (nodes s) h ∧
    ∀ q, q ≠ pd → q ∉ dds → h !! D_dirty q = if decide (q = d) then Some (Node (D_dirty d) (D_dirty d)) else nodes s !! D_dirty q.
Proof.
  intros Ei Hfi Edi Hp Hsi Hfd Hsd Ec Edd Hdn Hfresh Hshape Hobj HXd Hpx Ex Hb Eipd Hne Hn Hnl Hty Hlk.
  destruct (efs_d_alloc_ok s Xd Ld Hobj HXd) as (d & c' & E1 & Hd & Hobj').
  assert (Hpd : pd ≠ d) by by intros ->.
  set (dd0 := d_dd (default zero_dentry (dentries s !! d))) in *.
  assert (Hl0 : length (d_name dd0) = DIR_MAXLEN).
  { unfold dd0. destruct (dentries s !! d) as [z|] eqn:Ez; [by eapply Hshape|done]. }
  match type of E1 with _ = Done _ ?z => set (s1 := z) in * end.
  set (y1 := new_dentry (Dirent (i_no (i_di i)) type (d_name dd0))).
  set (s2 := set_dentries (<[d := y1]> (dentries s1)) s1).
  destruct (strncpy_name_ok d y1 name s2) as (nm & E3 & Hnml & Hpad); [apply lookup_insert_eq|done..|].
  set (y2 := set_d_dd _ y1) in *. set (s3 := set_dentries (<[d := y2]> (dentries s2)) s2) in *.
  assert (Hfi3 : fam (nodes s3) σi).
  { eapply fam_agree; [exact Hfi|]. intros q Hq. apply init_d_nodes_other. intros Hdn'. specialize (Hsi q Hq).
    destruct Hdn' as [->|[->|[->|[->| ->]]]]; done. }
  pose proof (di_update_dirty p (set_i_type type) i s3 σi ids) as E4. specialize (E4 Ei Hfi3 Edi Hp ltac:(simpl; by rewrite Hlk) ltac:(simpl; by rewrite Hlk)).
  set (i' := set_i_flags _ (set_i_di _ i)) in *. set (s4 := set_inodes _ s3) in *.
  assert (Hnd : ∀ l, d_node d l → ¬ in_fam σd l) by (intros l; by apply Hfresh).
  destruct (efs_d_conn_ok d pd y2 (D_sibling <$> ds) s4 (<[D_child d := []]> σd)) as (h5 & E5 & Hf5 & Ho5).
  { apply lookup_insert_eq. }
  { by apply init_d_fam. }
  { by rewrite lookup_insert_ne by congruence. }
  { intros [?|[Hq|Hq]]%in_fam_insert; [done|by apply elem_of_nil in Hq|]. apply (Hnd (D_sibling d)); [unfold d_node; tauto|done]. }
  { exists (Node (D_sibling d) (D_sibling d)). apply init_d_nodes_own. unfold d_node. tauto. }
  set (s5 := set_nodes h5 _) in *. set (σ5 := <[D_child pd := _]> _) in *.
  assert (Hd5 : ∀ q, nodes s5 !! D_dirty q = if decide (q = d) then Some (Node (D_dirty d) (D_dirty d)) else nodes s !! D_dirty q).
  { intros q. change (nodes s5) with h5. rewrite (proj2 Ho5).
    - change (nodes s4) with (init_d_nodes d (nodes s)). case_decide as Hq.
      + subst q. apply init_d_nodes_own. unfold d_node. tauto.
      + apply init_d_nodes_other. intros [E|[E|[E|[E|E]]]]; try done. by injection E.
    - intros [E|[E|(c & E & _)%list_elem_of_fmap]%elem_of_cons]%elem_of_cons; done. }
  set (y3 := set_d_parent pd y2) in *.
  destruct (resize_parent_ok pd pd (Z.of_nat DIRENT_BYTES) x ipd s5 σ5 dds) as (h6 & E6 & Hf6 & Ho6).
  { simpl. by rewrite !lookup_insert_ne. }
  { simpl. by rewrite lookup_insert_ne. }
  { done. }
  { unfold σ5. by rewrite !lookup_insert_ne. }
  { destruct Hdn as [?|[Hno Hself]]; [by left|right]. split; [|rewrite Hd5; by rewrite decide_False].
    intros [E|[Hq|[E|[Hq|Hq]]%in_fam_insert]]%in_fam_insert; [done| |done|by apply elem_of_nil in Hq|done].
    apply elem_of_app in Hq as [(c & E & _)%list_elem_of_fmap|E%list_elem_of_singleton]; done. }
  { simpl. by rewrite Hlk. }
  { simpl. by rewrite Hlk. }
  match type of E6 with _ = Done _ ?z => set (s6 := z) in * end.
  exists d, nm, c', h6. cbv zeta. split_and!; try done.
  - unfold creat_dentry. rewrite (bind_Done _ _ _ _ _ E1). rewrite (bind_Done _ _ _ i s1) by by apply inode_at_ok.
    rewrite (bind_Done _ _ _ tt s2).
    2:{ rewrite (dentry_mod_ok d _ (new_dentry dd0) s1) by apply lookup_insert_eq.
        unfold s2, y1. by rewrite u32_small by done. }
    rewrite (bind_Done _ _ _ _ _ E3), (bind_Done _ _ _ _ _ E4), (bind_Done _ _ _ _ _ E5), (bind_Done _ _ _ _ _ E6).
    rewrite (bind_Done _ _ _ _ _ (d_wake_ok pd _ s6 (lookup_insert_eq _ _ _) Hb)).
    set (x' := set_d_slock released _).
    assert (Ed : <[pd := x']> (dentries s6) = <[pd := x']> (<[d := y3]> (dentries s))); [|by rewrite Ed].
    change (dentries s6) with (<[pd := set_d_flags (SET_FLAG (d_flags x) D_DIRTY) x]> (<[d := y3]> (<[d := y2]> (<[d := y1]>
      (<[d := new_dentry dd0]> (dentries s)))))). by rewrite !insert_insert_eq.
  - eapply same_nodes_trans; [|eapply only_other; [exact Ho6|]].
    + eapply same_nodes_trans; [|eapply only_other; [exact Ho5|]].
      * intros q Hq. change (nodes s4) with (init_d_nodes d (nodes s)). apply init_d_nodes_other.
        intros [->|[->|[->|[->| ->]]]]; done.
      * intros q [->|[->|(c & -> & _)%list_elem_of_fmap]%elem_of_cons]%elem_of_cons; by intros ?.
    + intros q [->|[->|(c & -> & _)%list_elem_of_fmap]%elem_of_cons]%elem_of_cons; by intros ?.
  - intros q Hq Hqd. rewrite (proj2 Ho6); [apply Hd5|].
    intros [E|[E|(c & E & Hc)%list_elem_of_fmap]%elem_of_cons]%elem_of_cons; [by injection E|done|].
    injection E as <-. done.
Qed.

(** Taking the sleep lock of a dentry, and changing an inode's flags and type,
    leave the invariants alone. *)
Lemma inodes_dentries lo s σ X L m : inodes_ok lo s σ X L → inodes_ok lo (set_dentries m s) σ X L.
Proof. intros Hok. eapply inodes_frame; [exact Hok|]. split; try done. intros p i Ei. by exists i. Qed.

(** With the lock of the directory taken, the names are searched. *)
Lemma creat_start me bd_dev lo s σi σd X L Xd Ld pd x ds name type :
  creat_ready lo s σi σd X L Xd Ld pd x ds name type →
  let sA := set_dentries (<[pd := set_d_slock (held me) x]> (dentries s)) s in
  ∃ r, efs_d_creat me bd_dev pd (name ++ [0]) type s =
      (if negb (r =? 0) then d_wake pd;; mret 0 else new_i ← efs_i_new bd_dev; creat_dentry new_i pd name type) sA ∧
    ((r = 0 ∧ ∀ c, c ∈ ds → ¬ named s c name) ∨ (r ∈ ds ∧ named s r name)).
Proof.
  intros [[Hi Hd] [Hpd Hpd0] Hx Hxt Hfl _ [Hn _] _ _ _] sA. pose proof (dk_at _ _ _ _ _ _ _ Hx) as Ex.
  destruct (name_check_ok me pd x ds s sA σd L Ld name [] (dt_fam _ _ _ _ _ Hd) Hx Hfl Hn eq_refl (ex_intro _ (held me) eq_refl)) as (r & Er & Hr).
  exists r. split; [|exact Hr]. unfold efs_d_creat. destruct (Z.eqb_spec pd 0); [done|].
  rewrite (bind_Done _ _ _ _ _ (dentry_at_ok _ _ _ Ex)). rewrite Hxt. change (negb (F_DIR =? F_DIR)) with false. cbv iota.
  rewrite (bind_Done _ _ _ _ _ (d_sleep_ok me pd x s Ex (dk_idle _ _ _ _ _ _ _ Hx))). fold sA. by rewrite (bind_Done _ _ _ _ _ Er).
Qed.

(** A free inode object is none of those in use, and the directory is not a free dentry. *)
Lemma creat_fresh lo s σi σd X L Xd Ld pd x ds name type p :
  creat_ready lo s σi σd X L Xd Ld pd x ds name type → p ∈ X →
  (pd ∉ Xd) ∧ (∀ q, q ∈ {[root_m_inode]} ∪ L → q ≠ p) ∧ d_inode x ≠ p.
Proof.
  intros [[Hi Hd] [Hpd _] Hx _ Hfl _ _ _ _ _] Hp.
  assert (Hin : ∀ q, q ∈ {[root_m_inode]} ∪ L → q ≠ p).
  { pose proof (obj_rep_disjoint _ _ _ (ic_obj _ _ _ _ (ik_cache _ _ _ _ _ Hi))) as Hdis. pose proof (ik_root _ _ _ _ _ Hi) as Hro.
    intros q Hq ->. apply elem_of_union in Hq as [E%elem_of_singleton|Hq]; [by rewrite E in Hp|by apply (Hdis p)]. }
  split; [|split; [done|]].
  - pose proof (obj_rep_disjoint _ _ _ (dt_cache _ _ _ _ _ Hd)) as Hdd. pose proof (dt_root _ _ _ _ _ Hd) as Hro. clear -Hpd Hdd Hro. set_solver.
  - apply Hin. eapply dk_inode; [exact Hx|]. by apply (dk_size _ _ _ _ _ _ _ Hx Hfl).
Qed.

(** Once [efs_i_new] has made [p], the new dentry for it is connected. *)
Lemma creat_connected me bd_dev lo s σi σd X L Xd Ld pd x ds name type p ino pad sB σi' ids :
  creat_ready lo s σi σd X L Xd Ld pd x ds name type → (∀ c, c ∈ ds → ¬ named s c name) → p ∈ X →
  let sA := set_dentries (<[pd := set_d_slock (held me) x]> (dentries s)) s in
  inodes sB = <[p := new_inode bd_dev ino pad (SET_FLAG 0 I_DIRTY)]> (inodes sA) →
  inodes_ok lo sB σi' (X ∖ {[p]}) ({[p]} ∪ L) → new_frame sA sB → σi' !! S_idirty_list = Some (I_dirty <$> p :: ids) →
  ∃ d y s' dds, creat_dentry p pd name type sB = Done d s' ∧ d_ino (d_dd y) = ino ∧ d_type (d_dd y) = type ∧
    inodes s' !! p = Some (MInode (DInode ino type (u16 bd_dev) pad 0 (replicate 13 0) 1) sleep_init 0 (SET_FLAG 0 I_DIRTY) M_ESB 0) ∧
    imap s' = imap sB ∧ inodes_kept sB s' ∧ fam (nodes s') (lists_added σd pd d ds dds) ∧
    ∃ s1, dents_ok s1 σd ({[p]} ∪ L) Xd Ld ∧ dentry_ok s1 σd ({[p]} ∪ L) Ld pd x ds ∧
      added s1 s' σd ({[p]} ∪ L) Xd Ld pd d x y name ds dds.
Proof.
  intros Hready Hno Hp sA Eis HiB Hfr Eids. pose proof Hready as [[Hi Hd] [Hpd Hpd0] Hx Hxt Hfl Hsmall [Hn Hnl] Hty [HX [HXd Hu]] Hlk].
  pose proof (dk_at _ _ _ _ _ _ _ Hx) as Ex. pose proof (dt_fam _ _ _ _ _ Hd) as Hfd.
  set (xA := set_d_slock (held me) x) in *.
  destruct Hfr as [W1 W2 W3 W4 W5 W6 W7 W8 W9].
  destruct (dk_size _ _ _ _ _ _ _ Hx Hfl) as (Hz & ipd & Eipd & Hsz).
  destruct (creat_fresh _ _ _ _ _ _ _ _ _ _ _ _ _ p Hready Hp) as (Hpx & Hin & Hpn).
  destruct (dt_dirty _ _ _ _ _ Hd) as (dds & Edds & Hdds).
  assert (HfdB : fam (nodes sB) σd) by (eapply fam_side; [exact Hfd|apply (dt_side _ _ _ _ _ Hd)|exact W9]).
  set (i := new_inode bd_dev ino pad (SET_FLAG 0 I_DIRTY)) in *.
  destruct (creat_tail pd name type sB p i σi' σd (p :: ids) xA ipd Xd Ld dds ds)
    as (d & nm & c' & h & Et & Hdx & Hobj & Hnml & Hpad & Hfh & Hni & Hnd); try done.
  { rewrite Eis. apply lookup_insert_eq. }
  { apply (ik_fam _ _ _ _ _ HiB). }
  { by left. }
  { apply (ik_side _ _ _ _ _ HiB). }
  { apply (dt_side _ _ _ _ _ Hd). }
  { apply (dk_list _ _ _ _ _ _ _ Hx). }
  { destruct (Hdds pd Hpd) as [?|[? E]]; [by left|right]. split; [done|]. rewrite W9; [done|]. by intros ?. }
  { apply (dt_fresh _ _ _ _ _ Hd). }
  { intros e z. rewrite W4. simpl. intros [[<- <-]|[_ E]]%lookup_insert_Some;
      [apply (dt_shape _ _ _ _ _ Hd pd x Ex)|by apply (dt_shape _ _ _ _ _ Hd e)]. }
  { rewrite W7. apply (dt_cache _ _ _ _ _ Hd). }
  { rewrite W4. apply lookup_insert_eq. }
  { rewrite Eis, lookup_insert_ne by done. done. }
  { rewrite W6. done. }
  cbv zeta in Et. set (y := Dentry _ 0 pd _ 0 0) in *. set (i' := set_i_flags _ _) in *. set (ipd' := set_i_di _ ipd) in *.
  match type of Et with _ = Done _ ?z => set (s' := z) in * end.
  set (s1 := set_inodes (<[p := i']> (inodes s)) s).
  assert (Hsk : sizes_kept L s s1).
  { intros q j Hq Ej. exists j. split; [|done]. simpl. rewrite lookup_insert_ne; [done|]. intros <-. by apply (Hin p). }
  assert (HL : L ⊆ {[p]} ∪ L) by apply union_subseteq_r.
  assert (Hd1 : dents_ok s1 σd ({[p]} ∪ L) Xd Ld) by by eapply dents_frame.
  assert (Hx1 : dentry_ok s1 σd ({[p]} ∪ L) Ld pd x ds) by by eapply dentry_frame.
  assert (EiB : inodes s' = <[d_inode x := ipd']> (<[p := i']> (inodes s))).
  { simpl. rewrite Eis. change (inodes sA) with (inodes s). by rewrite insert_insert_eq. }
  assert (Ey : entry_name y name) by (split; [done|split; [done|exact Hnml]]).
  assert (Had : added s1 s' σd ({[p]} ∪ L) Xd Ld pd d x y name ds dds).
  { split; try done.
    - simpl. rewrite W4. change (dentries sA) with (<[pd := xA]> (dentries s)). apply map_eq. intros k.
      destruct (decide (k = pd)) as [->|Hk]; [by rewrite !lookup_insert_eq|]. rewrite !(lookup_insert_ne _ pd) by done.
      destruct (decide (k = d)) as [->|Hkd]; [by rewrite !lookup_insert_eq|]. rewrite !(lookup_insert_ne _ d) by done.
      by rewrite lookup_insert_ne.
    - exists ipd, ipd'. split_and!; [simpl; by rewrite lookup_insert_ne|exact EiB|].
      simpl. rewrite Hsz, u32_small; [unfold DIRENT_BYTES; lia|unfold DIRENT_BYTES in *; lia].
    - intros q Hq Hqd. change (nodes s') with h. rewrite Hnd by done. case_decide; [done|]. rewrite W9; [done|]. by intros ?. }
  exists d, y, s', dds. split_and!; try done.
  - rewrite EiB, lookup_insert_ne, lookup_insert_eq by done. done.
  - split; try done. intros q j Ej. rewrite EiB. rewrite Eis in Ej.
    destruct (decide (q = p)) as [->|Hqp].
    + rewrite lookup_insert_ne, lookup_insert_eq by done. rewrite lookup_insert_eq in Ej. injection Ej as <-. by exists i'.
    + rewrite lookup_insert_ne in Ej by done. destruct (decide (q = d_inode x)) as [->|Hqi].
      * rewrite lookup_insert_eq. simpl in Ej. rewrite Eipd in Ej. injection Ej as <-. by exists ipd'.
      * rewrite !lookup_insert_ne by done. by exists j.
  - by exists s1.
Qed.

(** C1: [efs_d_creat] in a filled directory.  If an entry of the name exists, the
    result is NULL and nothing but the sleep lock, now idle, has changed.  Otherwise
    a dentry that was free becomes the last child of the directory: it has the
    name, the type and the least free inode number, whose new inode is in memory,
    cached and dirty; the directory's file grows by one entry; and the
    invariants of the inodes and dentries in memory are kept. *)
Theorem efs_d_creat_correct me bd_dev lo s σi σd X L Xd Ld pd x ds name type :
  creat_ready lo s σi σd X L Xd Ld pd x ds name type →
  (∃ c, c ∈ ds ∧ named s c name ∧
    efs_d_creat me bd_dev pd (name ++ [0]) type s = Done 0 (set_dentries (<[pd := set_d_slock released x]> (dentries s)) s)) ∨
  (∀ c, c ∈ ds → ¬ named s c name) ∧
  ∃ d y p ino pad s' σi' σd' x', efs_d_creat me bd_dev pd (name ++ [0]) type s = Done d s' ∧ d ∈ Xd ∧ p ∈ X ∧
    tree_ok lo s' σi' σd' (X ∖ {[p]}) ({[p]} ∪ L) (Xd ∖ {[d]}) ({[d]} ∪ Ld) ∧
    dentry_ok s' σd' ({[p]} ∪ L) ({[d]} ∪ Ld) pd x' (ds ++ [d]) ∧
    dentries s' !! d = Some y ∧ entry_name y name ∧ d_ino (d_dd y) = ino ∧ d_type (d_dd y) = type ∧
    lo <= ino < Bmp.size (imap s) ∧ Bmp.used (imap s) ino = false ∧ (∀ j, lo <= j < ino → Bmp.used (imap s) j = true) ∧
    Bmp.used (imap s') ino = true ∧ in_cache s' σi' p ino ∧
    inodes s' !! p = Some (MInode (DInode ino type (u16 bd_dev) pad 0 (replicate 13 0) 1) sleep_init 0 (SET_FLAG 0 I_DIRTY) M_ESB 0).
Proof.
  intros Hready. pose proof Hready as [[Hi Hd] [Hpd Hpd0] Hx Hxt Hfl Hsmall [Hn Hnl] Hty [HX [HXd Hu]] Hlk].
  pose proof (dk_at _ _ _ _ _ _ _ Hx) as Ex. pose proof (dt_fam _ _ _ _ _ Hd) as Hfd.
  set (xA := set_d_slock (held me) x). set (sA := set_dentries (<[pd := xA]> (dentries s)) s).
  destruct (creat_start me bd_dev _ _ _ _ _ _ _ _ _ _ _ _ _ Hready) as (r & Estart & Hr). fold xA sA in Estart.
  destruct Hr as [[-> Hno]|[Hin Hnm]]; [right|left].
  2:{ exists r. split_and!; [done..|]. rewrite Estart.
      assert (r ≠ 0).
      { intros ->. destruct (dk_entries _ _ _ _ _ _ _ Hx 0 Hin) as [H0' _].
        by apply (dt_null _ _ _ _ _ Hd). }
      destruct (Z.eqb_spec r 0); [done|]. change (negb false) with true. cbv iota.
      rewrite (bind_Done _ _ _ _ _ (d_wake_ok pd xA sA (lookup_insert_eq _ _ _) eq_refl)).
      unfold mret, M_ret. f_equal. unfold sA. simpl. by rewrite insert_insert_eq. }
  split; [done|].
  destruct (efs_i_new_ok bd_dev lo sA σi X L) as (p & ino & pad & sB & σi' & En & Hp & Hino & Hfree & Hleast & Hus & Eis & HiB & Hcache & Hfr & ids & Eids);
    [by apply inodes_dentries|done|done|simpl; by rewrite Hlk|].
  destruct (creat_connected me bd_dev lo s σi σd X L Xd Ld pd x ds name type p ino pad sB σi' ids)
    as (d & y & s' & dds & Et & Eyi & Eyt & Ep & Em & Hkept & Hfh & s1 & Hd1 & Hx1 & Had); try done.
  change (imap sA) with (imap s) in *.
  exists d, y, p, ino, pad, s', σi', (lists_added σd pd d ds dds), (set_d_slock released (set_d_flags (SET_FLAG (d_flags x) D_DIRTY) x)).
  split_and!; try done; try lia.
  - rewrite Estart. change (negb (0 =? 0)) with false. cbv iota. rewrite (bind_Done _ _ _ _ _ En). exact Et.
  - apply (ad_d _ _ _ _ _ _ _ _ _ _ _ _ _ Had).
  - split; [by eapply inodes_frame|by eapply added_dents].
  - by eapply added_pd_ok.
  - rewrite (ad_dentries _ _ _ _ _ _ _ _ _ _ _ _ _ Had), lookup_insert_ne; [apply lookup_insert_eq|].
    intros E. destruct (creat_fresh _ _ _ _ _ _ _ _ _ _ _ _ _ p Hready Hp) as (Hpx & _). apply Hpx. rewrite E. apply (ad_d _ _ _ _ _ _ _ _ _ _ _ _ _ Had).
  - apply (ad_name _ _ _ _ _ _ _ _ _ _ _ _ _ Had).
  - rewrite Em, Hus by (destruct (ik_map _ _ _ _ _ Hi) as (_ & ? & _); lia). by rewrite decide_True.
  - by eapply kept_in_cache.
Qed.
End dirs.

(** * An empty root directory

    One free inode object (11), one free dentry (55), the bitmap of the examples
    for the inode numbers. *)
Definition demo_root : easy_m_inode := MInode (DInode 1 F_DIR 0 0 0 (replicate 13 0) 1) released 1 I_VALID M_ESB 0.
Definition demo_rootd : easy_dentry := Dentry (Dirent 1 F_DIR (SLASH :: replicate 15 0)) root_m_inode 0 released D_CHILD 0.
Definition demo_nodes : gmap floc (node floc) :=
  INIT_LIST_HEAD (S_ihash 0) (INIT_LIST_HEAD S_ilist (INIT_LIST_HEAD S_idirty_list (INIT_LIST_HEAD (I_dirty root_m_inode)
    (INIT_LIST_HEAD S_ddirty_list (init_d_nodes root_dentry ∅))))).
Definition demo_dir : efs page_stock stock ramdisk :=
  set_nodes demo_nodes (set_dentries {[root_dentry := demo_rootd]} (set_inodes {[root_m_inode := demo_root]}
    (set_dcache (Stock [55] ∅) demo_cache))).
Definition demo_dirs : gmap floc (list floc) := {[D_child root_dentry := []; S_ddirty_list := []]}.

Lemma demo_dirs_heads hd xs q : demo_dirs !! hd = Some xs → q ∈ hd :: xs → q = D_child root_dentry ∨ q = S_ddirty_list.
Proof.
  unfold demo_dirs. intros E Hq.
  repeat (apply lookup_insert_Some in E as [[<- <-]|[_ E]]; [apply list_elem_of_singleton in Hq; tauto|]).
  apply lookup_singleton_Some in E as [<- <-]. apply list_elem_of_singleton in Hq; tauto.
Qed.

Lemma demo_dir_inodes : inodes_ok 1 demo_dir demo_tree {[11]} ∅.
Proof.
  assert (Hno : ∀ q ino, ¬ in_cache demo_dir demo_tree q ino).
  { intros q ino (hd & xs & Hhd & E & Hx & _). apply list_elem_of_singleton in Hhd as ->. injection E as <-. by apply elem_of_nil in Hx. }
  split; try done.
  - apply demo_icache_ok; [done..|]. intros hd Hhd. repeat (apply elem_of_cons in Hhd as [->|Hhd]; [done|]). by apply elem_of_nil in Hhd.
  - intros q (hd & xs & E & Hq). by destruct (demo_tree_heads _ _ _ E Hq) as [->|[->| ->]].
  - exists []. split; [done|]. intros p Hp. assert (p = root_m_inode) as -> by set_solver. right. split; [|done].
    intros (hd & xs & E & Hq). by destruct (demo_tree_heads _ _ _ E Hq) as [?|[?|?]].
  - intros p Hp. assert (p = root_m_inode) as -> by set_solver. by eexists.
  - split; [apply demo_bits_wf|done].
  - by intros q ino ?%Hno.
Qed.

Lemma demo_dir_root : dentry_ok demo_dir demo_dirs ∅ ∅ root_dentry demo_rootd [].
Proof.
  split; try done; [by intros c ?%elem_of_nil|by intros c1 c2 n ?%elem_of_nil|].
  intros _. split; [done|]. by eexists.
Qed.

Lemma demo_dir_dents : dents_ok demo_dir demo_dirs ∅ {[55]} ∅.
Proof.
  assert (Hone : ∀ d, d ∈ {[root_dentry]} ∪ (∅ : gset Z) → d = root_dentry) by set_solver.
  split; try done.
  - apply fam_empty. intros hd xs E. unfold demo_dirs in E.
    repeat (apply lookup_insert_Some in E as [[<- <-]|[_ E]]; [done|]). by apply lookup_singleton_Some in E as [<- <-].
  - intros q (hd & xs & E & Hq). destruct (demo_dirs_heads _ _ _ E Hq) as [->| ->]; by intros ?.
  - exists []. split; [done|]. intros d ->%Hone. right. split; [|done].
    intros (hd & xs & E & Hq). by destruct (demo_dirs_heads _ _ _ E Hq).
  - split_and!; simpl; try done. apply NoDup_singleton.
  - intros d l ->%elem_of_singleton Hl (hd & xs & E & Hq).
    destruct (demo_dirs_heads _ _ _ E Hq) as [->| ->]; by destruct Hl as [|[|[|[|]]]].
  - intros d ->%Hone. exists demo_rootd, []. apply demo_dir_root.
  - intros d1 d2 x1 x2 ->%Hone ->%Hone. done.
  - intros d x. simpl. intros [<- <-]%lookup_singleton_Some. done.
Qed.

(** Creating the directory "ab" in the root gives dentry 55, inode 4, object 11. *)
Lemma efs_d_creat_correct_witness :
  ∃ s' y, efs_d_creat 1 0 root_dentry [97; 98; 0] F_DIR demo_dir = Done 55 s' ∧ dentries s' !! 55 = Some y ∧
    entry_name y [97; 98] ∧ ∃ i, inodes s' !! 11 = Some i ∧ i_no (i_di i) = d_ino (d_dd y).
Proof.
  destruct (efs_d_creat_correct 1 0 1 demo_dir demo_tree demo_dirs {[11]} ∅ {[55]} ∅ root_dentry demo_rootd [] [97; 98] F_DIR)
    as [(c & Hc & _)|(_ & d & y & p & ino & pad & s' & σi & σd & x & E & Hd & Hp & _ & _ & Ey & Hn & Hi & _ & _ & _ & _ & _ & _ & Ei)].
  - split; try done.
    + split; [apply demo_dir_inodes|apply demo_dir_dents].
    + apply demo_dir_root.
    + split; [repeat constructor|by apply Nat.ltb_lt].
  - by apply elem_of_nil in Hc.
  - apply elem_of_singleton in Hd as ->. apply elem_of_singleton in Hp as ->.
    exists s', y. split; [exact E|]. split; [done|]. split; [done|]. eexists. split; [exact Ei|]. by symmetry.
Defined.
