(* ===== verification/Sched.v ===== *)
(** The scheduler: kernel/sched.c and the thread life cycle of kernel/proc.c.

    Every CPU runs the loop [scheduler], a thread, or an interrupt handler that
    wakes a thread.  The shared state is one [thread_info] per thread, the run
    and exit lists of the CPUs threaded through the [sched] nodes, and the
    locks.  A step of the machine is what one CPU does between two points at
    which it takes or releases a lock; the steps are compositions of the
    operations below. *)
From S2P Require Import Prelude ListLib.

Definition NCPU : Z := 4.
Definition NO_CPU_AFF : Z := -1.

Inductive task_state := UNUSED | USED | SLEEPING | RUNNABLE | RUNNING | ZOMBIE | IDLE.
#[global] Instance task_state_eq_dec : EqDecision task_state.
Proof. solve_decision. Defined.

(** The list nodes: the heads [sched_list.run] and [sched_list.out] of a CPU,
    and the field [sched] of a thread. *)
Inductive link := Run (c : Z) | Out (c : Z) | Thr (t : Z).
#[global] Instance link_eq_dec : EqDecision link.
Proof. solve_decision. Defined.
#[global] Instance link_countable : Countable link.
Proof.
  refine (inj_countable' (λ l, match l with Run c => (0, c) | Out c => (1, c) | Thr t => (2, t) end)
    (λ p, if p.1 =? 0 then Run p.2 else if p.1 =? 1 then Out p.2 else Thr p.2) _).
  by intros [].
Defined.

(** Where a thread is; ghost.  [Waiting]: on the queue of a semaphore;
    [Claimed c]: taken from that queue (or just created) by CPU [c]. *)
Inductive place := Listed (c : Z) | On (c : Z) | Waiting | Claimed (c : Z) | Gone (c : Z).
#[global] Instance place_eq_dec : EqDecision place.
Proof. solve_decision. Defined.

(** [struct thread_info]; [lock] is the CPU that holds [thread->lock].
    [ctx_ra] and [ctx_sp] are the two fields of the context that creation
    sets; its other registers are zero then. *)
Record thread_info := Thread {
  task : Z; lock : option Z; signal : Z; flags : Z; state : task_state; pid : Z; ticks : Z;
  tf : Z; func : Z; args : Z; cpu_affinity : Z; ctx_ra : Z; ctx_sp : Z; name : list Z;
  at_ : place;
}.

Definition set_lock l (t : thread_info) : thread_info :=
  Thread (task t) l (signal t) (flags t) (state t) (pid t) (ticks t) (tf t) (func t) (args t)
    (cpu_affinity t) (ctx_ra t) (ctx_sp t) (name t) (at_ t).
Definition set_state st (t : thread_info) : thread_info :=
  Thread (task t) (lock t) (signal t) (flags t) st (pid t) (ticks t) (tf t) (func t) (args t)
    (cpu_affinity t) (ctx_ra t) (ctx_sp t) (name t) (at_ t).
Definition set_ticks n (t : thread_info) : thread_info :=
  Thread (task t) (lock t) (signal t) (flags t) (state t) (pid t) n (tf t) (func t) (args t)
    (cpu_affinity t) (ctx_ra t) (ctx_sp t) (name t) (at_ t).
Definition set_at p (t : thread_info) : thread_info :=
  Thread (task t) (lock t) (signal t) (flags t) (state t) (pid t) (ticks t) (tf t) (func t) (args t)
    (cpu_affinity t) (ctx_ra t) (ctx_sp t) (name t) p.

(** What a CPU is doing.  [Add w u], [AddTo w u k], [Added w u] are inside
    [add_runnable_task(u)], called by [yield] or by [wakeup_process]; the
    latter remembers the thread it was called from, [None] being an interrupt
    of the scheduler loop. *)
Inductive why := Yield | Wake (back : option Z).
Inductive pc :=
| Loop                      (* the top of the loop of [scheduler] *)
| Chose (t : Z)             (* has picked [t]; holds the list lock, wants [t->lock] *)
| Enter (t : Z)             (* in [t] after [swtch], still holds [t->lock] *)
| Runs (t : Z)              (* runs [t] *)
| WakeWant (back : option Z) (u : Z)    (* [wakeup_process(u)], wants [u->lock] *)
| Add (w : why) (u : Z)
| AddTo (w : why) (u : Z) (k : Z)
| Added (w : why) (u : Z)
| Leave (t : Z).            (* [t] has left through [sched]; [t->lock] still held *)

Record cpu := Cpu { thread : option Z; does : pc }.

Record sched_state := SS {
  threads : gmap Z thread_info;
  links_ : gmap link (node link);
  cpus : gmap Z cpu;
  list_lock : gmap Z Z;      (* the run list locks that are held, with the holder *)
  load_cpu_id : Z;
}.

Definition map_thread (f : thread_info → thread_info) (t : Z) (s : sched_state) : sched_state :=
  SS (alter f t (threads s)) (links_ s) (cpus s) (list_lock s) (load_cpu_id s).
Definition set_cpu (c : Z) (th : option Z) (p : pc) (s : sched_state) : sched_state :=
  SS (threads s) (links_ s) (<[c := Cpu th p]> (cpus s)) (list_lock s) (load_cpu_id s).
Definition set_links (h : gmap link (node link)) (s : sched_state) : sched_state :=
  SS (threads s) h (cpus s) (list_lock s) (load_cpu_id s).
Definition set_list_lock l (s : sched_state) : sched_state :=
  SS (threads s) (links_ s) (cpus s) l (load_cpu_id s).
Definition set_load n (s : sched_state) : sched_state :=
  SS (threads s) (links_ s) (cpus s) (list_lock s) n.

(** * Operations *)

(** [pick_next_task]: from the tail of the list, the first RUNNABLE thread. *)
Fixpoint pick_loop (fuel : nat) (head pos : link) (s : sched_state) : outcome sched_state (option Z) :=
  if decide (pos = head) then Done None s else
    match fuel with
    | O => OutOfFuel
    | S fuel =>
        match pos with
        | Thr t =>
            match threads s !! t with
            | Some th =>
                if decide (state th = RUNNABLE) then Done (Some t) s
                else match prv (links_ s) pos with
                     | Some p => pick_loop fuel head p s
                     | None => Fault
                     end
            | None => Fault
            end
        | _ => Fault
        end
    end.
Definition pick_next_task (c : Z) : M sched_state (option Z) := λ s,
  match list_empty (Run c) (links_ s) with
  | None => Fault
  | Some true => Done None s
  | Some false =>
      match prv (links_ s) (Run c) with
      | Some p => pick_loop (size (links_ s)) (Run c) p s
      | None => Fault
      end
  end.

(** [add_runnable_task]: the section under [load_lock] chooses the CPU ([%] is
    C's), the section under that CPU's list lock adds at the head. *)
Definition choose_cpu (u : Z) : M sched_state Z := λ s,
  match threads s !! u with
  | None => Fault
  | Some th =>
      if cpu_affinity th =? NO_CPU_AFF then
        let id := Z.rem (i32 (load_cpu_id s + 1)) NCPU in Done id (set_load id s)
      else Done (cpu_affinity th) s
  end.
Definition enqueue (u k : Z) : M sched_state unit :=
  update (λ s, h ← list_add_head (Thr u) (Run k) (links_ s); Some (set_links h s)).
Definition add_runnable_task (u : Z) : M sched_state unit := choose_cpu u ≫= enqueue u.

(** The assertions at the head of [sched] on the lock and the state; the third, that
    interrupts are off, is in Switch ([sched_out]), where the hart is. *)
Definition sched_asserts (c t : Z) : M sched_state unit := λ s,
  match threads s !! t with
  | None => Fault
  | Some th =>
      if decide (lock th = Some c) then if decide (state th = RUNNING) then Panic else Done tt s
      else Panic
  end.

(** The loop body of [scheduler] once it has both locks, up to [swtch]. *)
Definition dispatch (c t : Z) : M sched_state unit := λ s,
  match list_del (Thr t) (links_ s) with
  | None => Fault
  | Some h =>
      Done tt (map_thread (λ th, set_at (On c) (set_state RUNNING (set_lock (Some c) th))) t
        (set_cpu c (Some t) (Enter t) (set_list_lock (delete c (list_lock s)) (set_links h s))))
  end.

(** The end of the loop body, after [swtch] has come back from [t]. *)
Definition switched_back (c t : Z) (s : sched_state) : sched_state :=
  map_thread (set_lock None) t (set_cpu c None Loop s).

(** Fields written by [yield], [sem_wait], [quit] under [thread->lock]. *)
Definition yield_fields (c : Z) (th : thread_info) : thread_info :=
  set_state RUNNABLE (set_ticks 10 (set_lock (Some c) th)).
Definition sleep_fields (c : Z) (th : thread_info) : thread_info :=
  set_at Waiting (set_state SLEEPING (set_lock (Some c) th)).
Definition quit_fields (c : Z) (th : thread_info) : thread_info :=
  set_at (Gone c) (set_state ZOMBIE (set_lock (Some c) th)).
(** [wakeup_process] once it has [thread->lock]. *)
Definition wake_fields (c : Z) (th : thread_info) : thread_info :=
  set_state RUNNABLE (set_lock (Some c) th).

(** [quit]: the node goes to the tail of the exit list of this CPU. *)
Definition quit_links (c t : Z) : M sched_state unit :=
  update (λ s, h ← list_add_tail (Thr t) (Out c) (links_ s); Some (set_links h s)).

(** ** Creation *)
Definition PGSIZE : Z := 4096.
Definition Kernel_stack_top (t : Z) : Z := u64 (t + 2 * PGSIZE - 16).
(** Code addresses: [thread_entry] and [forkret]. *)
Definition thread_entry : Z := 1.
Definition forkret : Z := 2.

(** [thread_info_init] leaves [state], [pid] and [name] as they are. *)
Definition thread_info_init (t : Z) (old : thread_info) : thread_info :=
  Thread 0 None 0 0 (state old) (pid old) 10 0 0 0 NO_CPU_AFF 0 (Kernel_stack_top t) (name old) (at_ old).

(** [sched_init], on [NCPU] CPUs whose loops are about to start. *)
Definition cpu_ids : list Z := [0; 1; 2; 3].
Definition sched_init (h : gmap link (node link)) : sched_state :=
  SS ∅ (fold_left (λ h c, INIT_LIST_HEAD (Out c) (INIT_LIST_HEAD (Run c) h)) cpu_ids h)
    (list_to_map ((λ c, (c, Cpu None Loop)) <$> cpu_ids)) ∅ (-1).

(** What [kthread_create] hands to [wakeup_process]: a kernel thread, from an
    object whose earlier content was [old]. *)
Definition alloc_kthread (u tsk newpid : Z) (old : thread_info) : thread_info :=
  let t := thread_info_init u old in
  Thread tsk (lock t) (signal t) (flags t) (state t) (if pid t =? 0 then newpid else pid t) (ticks t)
    (tf t) (func t) (args t) (cpu_affinity t) thread_entry (ctx_sp t) (name t) (at_ t).
Definition kthread_fields (f a : Z) (nm : list Z) (aff : Z) (t : thread_info) : thread_info :=
  Thread (task t) (lock t) (signal t) (flags t) (state t) (pid t) (ticks t) (tf t) f a aff
    (ctx_ra t) (ctx_sp t) nm (at_ t).
(** The range check at the head of [kthread_create]. *)
Definition affinity_ok (aff : Z) : bool := negb ((aff <? NO_CPU_AFF) || (NCPU <=? aff)).
Definition add_thread (u : Z) (th : thread_info) (s : sched_state) : sched_state :=
  SS (<[u := th]> (threads s)) (INIT_LIST_HEAD (Thr u) (links_ s)) (cpus s) (list_lock s) (load_cpu_id s).

(** * The machine *)
Definition unlocked (t : Z) (s : sched_state) : Prop := ∃ th, threads s !! t = Some th ∧ lock th = None.
Definition base (b : option Z) : pc := match b with Some t => Runs t | None => Loop end.

Inductive label := Dispatch (t : Z) | Other.
#[global] Instance label_eq_dec : EqDecision label.
Proof. solve_decision. Defined.

(** [step c l s s']: CPU [c] moves.  Taking a lock needs it free. *)
Inductive step (c : Z) : label → sched_state → sched_state → Prop :=
(* scheduler: take the list lock, pick, then take the thread lock *)
| s_pick s t : cpus s !! c = Some (Cpu None Loop) → list_lock s !! c = None →
    pick_next_task c s = Done (Some t) s →
    step c Other s (set_cpu c None (Chose t) (set_list_lock (<[c := c]> (list_lock s)) s))
| s_idle s : cpus s !! c = Some (Cpu None Loop) → list_lock s !! c = None →
    pick_next_task c s = Done None s → step c Other s s
| s_dispatch s s' t : cpus s !! c = Some (Cpu None (Chose t)) → unlocked t s →
    dispatch c t s = Done tt s' → step c (Dispatch t) s s'
(* the thread side of swtch: thread_entry, forkret or the end of sched *)
| s_enter s t : cpus s !! c = Some (Cpu (Some t) (Enter t)) →
    step c Other s (map_thread (set_lock None) t (set_cpu c (Some t) (Runs t) s))
(* yield *)
| s_yield s t : cpus s !! c = Some (Cpu (Some t) (Runs t)) → unlocked t s →
    step c Other s (map_thread (yield_fields c) t (set_cpu c (Some t) (Add Yield t) s))
(* sem_wait: queued on the semaphore, SLEEPING, then sched *)
| s_sleep s s' t : cpus s !! c = Some (Cpu (Some t) (Runs t)) → unlocked t s →
    sched_asserts c t (map_thread (sleep_fields c) t s) = Done tt s' →
    step c Other s (set_cpu c (Some t) (Leave t) s')
(* quit *)
| s_quit s s1 s' t : cpus s !! c = Some (Cpu (Some t) (Runs t)) → unlocked t s →
    quit_links c t (map_thread (quit_fields c) t s) = Done tt s1 → sched_asserts c t s1 = Done tt s' →
    step c Other s (set_cpu c (Some t) (Leave t) s')
(* sem_signal, from a thread or from an interrupt: the waiter leaves the queue *)
| s_signal s b u th : cpus s !! c = Some (Cpu b (base b)) → threads s !! u = Some th → at_ th = Waiting →
    step c Other s (map_thread (set_at (Claimed c)) u (set_cpu c b (WakeWant b u) s))
(* kthread_create, from a thread or from the boot code, up to wakeup_process *)
| s_create s b u tsk newpid f a nm aff old : cpus s !! c = Some (Cpu b (base b)) →
    threads s !! u = None → affinity_ok aff = true →
    step c Other s (set_cpu c b (WakeWant b u)
      (add_thread u (set_at (Claimed c) (kthread_fields f a nm aff (alloc_kthread u tsk newpid old))) s))
(* wakeup_process *)
| s_wake s b u : cpus s !! c = Some (Cpu b (WakeWant b u)) → unlocked u s →
    step c Other s (map_thread (wake_fields c) u (set_cpu c b (Add (Wake b) u) s))
(* add_runnable_task *)
| s_choose s s' b w u k : cpus s !! c = Some (Cpu b (Add w u)) → choose_cpu u s = Done k s' →
    step c Other s (set_cpu c b (AddTo w u k) s')
| s_enqueue s s' b w u k : cpus s !! c = Some (Cpu b (AddTo w u k)) → list_lock s !! k = None →
    enqueue u k s = Done tt s' →
    step c Other s (map_thread (set_at (Listed k)) u (set_cpu c b (Added w u) s'))
| s_yielded s s' b t : cpus s !! c = Some (Cpu b (Added Yield t)) → sched_asserts c t s = Done tt s' →
    step c Other s (set_cpu c b (Leave t) s')
| s_woken s b b' u : cpus s !! c = Some (Cpu b (Added (Wake b') u)) →
    step c Other s (map_thread (set_lock None) u (set_cpu c b (base b') s))
(* back in scheduler *)
| s_back s b t : cpus s !! c = Some (Cpu b (Leave t)) → step c Other s (switched_back c t s).

(** A finite run, and what runs reach from [sched_init]. *)
Inductive run : list (Z * label) → sched_state → sched_state → Prop :=
| run_nil s : run [] s s
| run_cons c l ls s1 s2 s3 : step c l s1 s2 → run ls s2 s3 → run ((c, l) :: ls) s1 s3.

Definition reachable (s : sched_state) : Prop := ∃ h ls, run ls (sched_init h) s.

(** * Invariant *)

(** The thread a CPU executes; the thread of them that is nowhere else yet; the
    thread it is waking; the thread lock it holds; the thread it has put on a list or is leaving. *)
Definition executing (p : pc) : option Z :=
  match p with
  | Loop | Chose _ => None
  | Enter t | Runs t | Leave t => Some t
  | WakeWant b _ => b
  | Add Yield u | AddTo Yield u _ | Added Yield u => Some u
  | Add (Wake b) _ | AddTo (Wake b) _ _ | Added (Wake b) _ => b
  end.
Definition owned (p : pc) : option Z :=
  match p with Leave _ | Added Yield _ => None | _ => executing p end.
Definition claimed (p : pc) : option Z :=
  match p with WakeWant _ u | Add (Wake _) u | AddTo (Wake _) u _ => Some u | _ => None end.
Definition holds (p : pc) : option Z :=
  match p with Enter t | Leave t | Add _ t | AddTo _ t _ | Added _ t => Some t | _ => None end.
Definition leaving (p : pc) : option Z :=
  match p with Leave t | Added _ t => Some t | _ => None end.
Definition adding (p : pc) : option Z :=
  match p with Add _ u | AddTo _ u _ | Added _ u => Some u | _ => None end.
Definition chosen (p : pc) : option Z := match p with Chose t => Some t | _ => None end.

(** What CPU [c] at [p] means for thread [t]. *)
Record pair_ok (c : Z) (p : pc) (t : Z) (th : thread_info) : Prop := {
  p_on : owned p = Some t ↔ at_ th = On c;
  p_claimed : claimed p = Some t ↔ at_ th = Claimed c;
  p_lock : holds p = Some t ↔ lock th = Some c;
  p_leaving : leaving p = Some t → ∀ d, at_ th ≠ On d;
  p_chosen : chosen p = Some t → at_ th = Listed c;
  p_adding : adding p = Some t → state th = RUNNABLE;
  p_running : owned p = Some t → adding p ≠ Some t → state th = RUNNING;
}.

Record cpu_ok (ths : gmap Z thread_info) (x : cpu) : Prop := {
  c_thread : thread x = executing (does x);
  c_exists : ∀ t, executing (does x) = Some t ∨ claimed (does x) = Some t ∨ holds (does x) = Some t ∨
    chosen (does x) = Some t → is_Some (ths !! t);
  c_target : ∀ w u k, does x = AddTo w u k → k ∈ cpu_ids;
}.

Record thread_ok (th : thread_info) : Prop := {
  t_state : match at_ th with
            | Listed _ => state th = RUNNABLE
            | Waiting => state th = SLEEPING
            | Gone _ => state th = ZOMBIE
            | On _ | Claimed _ => True
            end;
  t_range : ∀ c, at_ th = On c ∨ at_ th = Claimed c ∨ lock th = Some c → c ∈ cpu_ids;
  t_aff : affinity_ok (cpu_affinity th) = true;
}.

Record core (ths : gmap Z thread_info) (cps : gmap Z cpu) : Prop := {
  k_pair : ∀ c x t th, cps !! c = Some x → ths !! t = Some th → pair_ok c (does x) t th;
  k_cpu : ∀ c x, cps !! c = Some x → cpu_ok ths x;
  k_dom : ∀ c, is_Some (cps !! c) ↔ c ∈ cpu_ids;
  k_thread : ∀ t th, ths !! t = Some th → thread_ok th;
}.

Lemma alter_some {A} (f : A → A) (m : gmap Z A) t x : m !! t = Some x → alter f t m = <[t := f x]> m.
Proof.
  intros E. apply map_eq. intros u. destruct (decide (t = u)) as [<-|].
  - by rewrite lookup_alter_eq, lookup_insert_eq, E.
  - by rewrite lookup_alter_ne, lookup_insert_ne.
Qed.

(** The effect of a step on the threads it is not about, and on the other CPUs. *)
Record other_threads (p p' : pc) (t : Z) : Prop := {
  o_owned : ∀ u, u ≠ t → owned p = Some u ↔ owned p' = Some u;
  o_claimed : ∀ u, u ≠ t → claimed p = Some u ↔ claimed p' = Some u;
  o_holds : ∀ u, u ≠ t → holds p = Some u ↔ holds p' = Some u;
  o_leaving : ∀ u, u ≠ t → leaving p' = Some u → leaving p = Some u;
  o_chosen : ∀ u, u ≠ t → chosen p' = Some u → chosen p = Some u;
  o_adding : ∀ u, u ≠ t → adding p' = Some u ↔ adding p = Some u;
  o_exec : ∀ u, u ≠ t → executing p' = Some u → executing p = Some u;
}.
Record other_cpus (c : Z) (th th' : thread_info) : Prop := {
  q_on : ∀ d, d ≠ c → at_ th' = On d ↔ at_ th = On d;
  q_claimed : ∀ d, d ≠ c → at_ th' = Claimed d ↔ at_ th = Claimed d;
  q_lock : ∀ d, d ≠ c → lock th' = Some d ↔ lock th = Some d;
  q_runs : ∀ d, at_ th' = On d → (∃ e, at_ th = On e) ∨ (∀ e, lock th = Some e → e = c);
  q_listed : ∀ d, d ≠ c → at_ th = Listed d → at_ th' = Listed d;
  q_state : state th' = state th ∨
    ((∀ e, lock th = Some e → e = c) ∧ (∀ d, d ≠ c → at_ th ≠ On d));
}.

Lemma leaving_holds p t : leaving p = Some t → holds p = Some t.
Proof. by destruct p. Qed.
Lemma adding_holds p t : adding p = Some t → holds p = Some t.
Proof. by destruct p. Qed.

Lemma core_move ths cps c t x x' th th' :
  core ths cps → cps !! c = Some x → ths !! t = Some th →
  pair_ok c (does x') t th' → other_threads (does x) (does x') t → other_cpus c th th' →
  thread x' = executing (does x') → (∀ w u k, does x' = AddTo w u k → k ∈ cpu_ids) → thread_ok th' →
  core (<[t := th']> ths) (<[c := x']> cps).
Proof.
  intros [Hp Hc Hd Ht] Ex Et Hpair [Ho1 Ho2 Ho3 Ho4 Ho5 Ho7 Ho6] [Q1 Q2 Q3 Q4 Q5 Q6] Hx Hk Hth. split.
  - intros d y u thu. rewrite !lookup_insert_Some. intros [[<- <-]|[Hdc Ed]] [[<- <-]|[Hut Eu]]; [done| | |by eauto].
    + destruct (Hp c x u thu Ex Eu) as [P1 P2 P3 P4 P5 P6 P7]. split.
      * by rewrite <-Ho1.
      * by rewrite <-Ho2.
      * by rewrite <-Ho3.
      * eauto.
      * eauto.
      * rewrite Ho7 by done. done.
      * rewrite Ho7, <-Ho1 by done. done.
    + destruct (Hp d y t th Ed Et) as [P1 P2 P3 P4 P5 P6 P7]. split.
      * by rewrite Q1.
      * by rewrite Q2.
      * by rewrite Q3.
      * intros Hl e He. destruct (Q4 e He) as [[e' He']|Hfree]; [by destruct (P4 Hl e')|].
        apply Hdc. symmetry. apply Hfree, P3. by apply leaving_holds.
      * intros Hch. by apply Q5, P5.
      * intros Ha. destruct Q6 as [-> |[Hf _]]; [by apply P6|]. exfalso. apply Hdc. symmetry.
        by apply Hf, P3, adding_holds.
      * intros Ho Ha. destruct Q6 as [-> |[_ Hf]]; [by apply P7|]. exfalso. apply (Hf d); [congruence|].
        by apply P1.
  - assert (Hin : ∀ u, is_Some (ths !! u) → is_Some (<[t:=th']> ths !! u)).
    { intros u Hu. rewrite lookup_insert_is_Some. by destruct (decide (t = u)); auto. }
    intros d y. rewrite lookup_insert_Some. intros [[<- <-]|[Hdc Ed]].
    + split; [done| |done]. intros u Hu. destruct (decide (u = t)) as [->|Hut].
      * rewrite lookup_insert_eq. eauto.
      * apply Hin, (Hc c x Ex). rewrite <-(Ho2 u), <-(Ho3 u) in Hu by done. naive_solver.
    + destruct (Hc d y Ed) as [C1 C2 C3]. split; [done| |done]. eauto.
  - intros d. rewrite lookup_insert_is_Some, <-Hd. destruct (decide (c = d)) as [<-|]; naive_solver.
  - intros u thu. rewrite lookup_insert_Some. naive_solver.
Qed.

(** A CPU moves and no thread changes. *)
Lemma core_cpu ths cps c x x' :
  core ths cps → cps !! c = Some x →
  owned (does x) = owned (does x') → claimed (does x) = claimed (does x') →
  holds (does x) = holds (does x') →
  (∀ t, leaving (does x') = Some t → leaving (does x) = Some t) →
  (∀ t, chosen (does x') = Some t → ∃ th, ths !! t = Some th ∧ at_ th = Listed c) →
  (∀ t, adding (does x') = Some t → adding (does x) = Some t) →
  (∀ t, owned (does x') = Some t → adding (does x) = Some t → adding (does x') = Some t) →
  executing (does x) = executing (does x') → thread x' = executing (does x') →
  (∀ w u k, does x' = AddTo w u k → k ∈ cpu_ids) →
  core ths (<[c := x']> cps).
Proof.
  intros [Hp Hc Hd Ht] Ex E1 E2 E3 Hl Hch A1 A2 E4 Hx Hk. split.
  - intros d y u thu. rewrite lookup_insert_Some. intros [[<- <-]|[Hdc Ed]] Eu; [|by eauto].
    destruct (Hp c x u thu Ex Eu) as [P1 P2 P3 P4 P5 P6 P7]. split; [by rewrite <-E1|by rewrite <-E2|by rewrite <-E3|by eauto| |by intros ?%A1; auto|].
    { intros (th & Eth & Hat)%Hch. by simplify_eq. }
    intros Ho Ha. apply P7; [congruence|]. auto.
  - intros d y. rewrite lookup_insert_Some. intros [[<- <-]|[Hdc Ed]]; [|by eauto].
    split; [done| |done]. intros u Hu. rewrite <-E2, <-E3, <-E4 in Hu.
    destruct Hu as [Hu|[Hu|[Hu|(th & -> & _)%Hch]]]; [by apply (Hc c x Ex); auto..|eauto].
  - intros d. rewrite lookup_insert_is_Some, <-Hd. destruct (decide (c = d)) as [<-|]; naive_solver.
  - done.
Qed.

(** ** The lists *)
Definition place_of (hd : link) : option place :=
  match hd with Run c => Some (Listed c) | Out c => Some (Gone c) | Thr _ => None end.

Record lists (ths : gmap Z thread_info) (h : gmap link (node link)) (σ : gmap link (list link)) : Prop := {
  l_fam : fam h σ;
  l_heads : ∀ hd, is_Some (σ !! hd) ↔ ∃ c, c ∈ cpu_ids ∧ (hd = Run c ∨ hd = Out c);
  l_in : ∀ hd xs q, σ !! hd = Some xs → q ∈ xs →
    ∃ t th, q = Thr t ∧ ths !! t = Some th ∧ place_of hd = Some (at_ th);
  l_at : ∀ t th hd, ths !! t = Some th → place_of hd = Some (at_ th) →
    ∃ xs, σ !! hd = Some xs ∧ Thr t ∈ xs;
  l_node : ∀ t, is_Some (ths !! t) → is_Some (h !! Thr t);
}.

Record inv (s : sched_state) (σ : gmap link (list link)) : Prop := {
  i_core : core (threads s) (cpus s);
  i_lists : lists (threads s) (links_ s) σ;
  i_chose : ∀ c x t, cpus s !! c = Some x → chosen (does x) = Some t →
    ∃ xs, σ !! Run c = Some (xs ++ [Thr t]);
  i_lock : ∀ k d, list_lock s !! k = Some d ↔
    d = k ∧ ∃ x t, cpus s !! k = Some x ∧ chosen (does x) = Some t;
  i_load : -1 <= load_cpu_id s < NCPU;
}.

Lemma not_place th c : at_ th = On c ∨ at_ th = Claimed c → ∀ hd, place_of hd ≠ Some (at_ th).
Proof. intros H hd. destruct hd; simpl; intuition congruence. Qed.
Lemma place_of_inj hd hd' p : place_of hd = Some p → place_of hd' = Some p → hd = hd'.
Proof. destruct hd, hd'; simpl; congruence. Qed.

Lemma lists_same ths h σ t th th' :
  lists ths h σ → ths !! t = Some th →
  (∀ hd, place_of hd = Some (at_ th) ↔ place_of hd = Some (at_ th')) → lists (<[t := th']> ths) h σ.
Proof.
  intros [Hf Hh Hin Hat Hn] Et Hp. split; [done|done| | |].
  - intros hd xs q E Hq. destruct (Hin hd xs q E Hq) as (u & thu & -> & Eu & Hu).
    destruct (decide (u = t)) as [->|Hut].
    + simplify_eq. exists t, th'. rewrite lookup_insert_eq. split_and!; [done..|]. by apply Hp.
    + exists u, thu. by rewrite lookup_insert_ne.
  - intros u thu hd. rewrite lookup_insert_Some. intros [[<- <-]|[_ Eu]] Hu; [|by eauto].
    apply (Hat t th); [done|]. by apply Hp.
  - intros u. rewrite lookup_insert_is_Some. intros [<-|[_ ?]]; eauto.
Qed.

Lemma not_listed ths h σ t th :
  lists ths h σ → ths !! t = Some th → (∀ hd, place_of hd ≠ Some (at_ th)) → ¬ in_fam σ (Thr t).
Proof.
  intros Hl Et Hp (hd & xs & E & [<-|Hq]%elem_of_cons).
  - destruct (proj1 (l_heads _ _ _ Hl (Thr t)) (mk_is_Some _ _ E)) as (c & _ & [|]); done.
  - destruct (l_in _ _ _ Hl _ _ _ E Hq) as (u & thu & [= <-] & Eu & Hu). simplify_eq. by destruct (Hp hd).
Qed.

(** A node enters or leaves one list, and its thread the corresponding place. *)
Lemma lists_change ths h h' σ hd xs xs' t th' :
  lists ths h σ → σ !! hd = Some xs → fam h' (<[hd := xs']> σ) → is_Some (ths !! t) →
  (∀ q, is_Some (h !! q) → is_Some (h' !! q)) →
  (∀ q, q ≠ Thr t → q ∈ xs' ↔ q ∈ xs) →
  (Thr t ∈ xs' ↔ place_of hd = Some (at_ th')) →
  (∀ hd', hd' ≠ hd → place_of hd' ≠ Some (at_ th')) →
  (∀ hd' ys, hd' ≠ hd → σ !! hd' = Some ys → Thr t ∉ ys) →
  lists (<[t := th']> ths) h' (<[hd := xs']> σ).
Proof.
  intros [Hf Hh Hin Hat Hn] E Hf' Ht Hdom Hq Htx Hoth Hno. split; [done| | | |].
  - intros hd'. rewrite lookup_insert_is_Some, <-Hh.
    destruct (decide (hd = hd')) as [<-|]; naive_solver.
  - intros hd' ys q. rewrite lookup_insert_Some. intros [[<- <-]|[Hne E']] Hqy.
    + destruct (decide (q = Thr t)) as [->|Hqt].
      * exists t, th'. rewrite lookup_insert_eq. split_and!; [done..|]. by apply Htx.
      * apply Hq in Hqy; [|done]. destruct (Hin _ _ _ E Hqy) as (u & thu & -> & Eu & Hu).
        exists u, thu. rewrite lookup_insert_ne by congruence. done.
    + assert (q ≠ Thr t) by (intros ->; by eapply Hno).
      destruct (Hin _ _ _ E' Hqy) as (u & thu & -> & Eu & Hu).
      exists u, thu. rewrite lookup_insert_ne by congruence. done.
  - intros u thu hd'. rewrite lookup_insert_Some. intros [[<- <-]|[Hut Eu]] Hu.
    + destruct (decide (hd' = hd)) as [->|Hne]; [|by destruct (Hoth hd')].
      rewrite lookup_insert_eq. eexists. split; [done|]. by apply Htx.
    + destruct (Hat _ _ _ Eu Hu) as (ys & Ey & Hy).
      destruct (decide (hd' = hd)) as [->|Hne].
      * simplify_eq. rewrite lookup_insert_eq. eexists. split; [done|]. apply Hq; [congruence|done].
      * rewrite lookup_insert_ne by done. eauto.
  - intros u. rewrite lookup_insert_is_Some. intros [<-|[_ ?]]; eauto.
Qed.

Lemma lists_add ths h h' σ hd xs xs' t th th' :
  lists ths h σ → σ !! hd = Some xs → ths !! t = Some th → (∀ hd, place_of hd ≠ Some (at_ th)) →
  place_of hd = Some (at_ th') → fam h' (<[hd := xs']> σ) →
  (xs' = Thr t :: xs ∨ xs' = xs ++ [Thr t]) → dom h' = dom h →
  lists (<[t := th']> ths) h' (<[hd := xs']> σ).
Proof.
  intros Hl E Et Hno Hp Hf Hx Hd. assert (Hmem : ∀ q, q ∈ xs' ↔ q = Thr t ∨ q ∈ xs).
  { intros q. destruct Hx as [-> | ->]; [by rewrite elem_of_cons|].
    rewrite elem_of_app, list_elem_of_singleton. tauto. }
  eapply lists_change; [done|done|done|eauto| | | | |].
  - intros q. by rewrite <-!elem_of_dom, Hd.
  - intros q Hq. rewrite Hmem. tauto.
  - rewrite Hmem. naive_solver.
  - intros hd' Hne Hp'. by apply Hne, (place_of_inj hd' hd (at_ th')).
  - intros hd' ys _ E' Hin. apply (not_listed _ _ _ _ _ Hl Et Hno). exists hd', ys. split; [done|by right].
Qed.

Lemma lists_del ths h h' σ hd xs ys t th' :
  lists ths h σ → σ !! hd = Some (xs ++ Thr t :: ys) → (∀ hd, place_of hd ≠ Some (at_ th')) →
  fam h' (<[hd := xs ++ ys]> σ) → dom h' = dom h →
  lists (<[t := th']> ths) h' (<[hd := xs ++ ys]> σ).
Proof.
  intros Hl E Hno Hf Hd.
  destruct (l_in _ _ _ Hl _ _ (Thr t) E) as (t' & th & [= <-] & Et & Hp); [set_solver|].
  assert (Hnd : NoDup (xs ++ Thr t :: ys)).
  { destruct (l_fam _ _ _ Hl) as [Hdl _]. destruct (Hdl _ _ E) as [Hnd _]. by apply NoDup_cons in Hnd as [_ ?]. }
  eapply lists_change; [done|done|done|eauto| | | | |].
  - intros q. by rewrite <-!elem_of_dom, Hd.
  - intros q Hq. set_solver.
  - split; [|by intros ?%Hno]. intros Hin. exfalso.
    apply NoDup_app in Hnd as (_ & Hx & Hn). apply NoDup_cons in Hn as [Hn _].
    apply elem_of_app in Hin as [Hin|Hin]; [|done]. apply (Hx _ Hin). by left.
  - intros hd' _. apply Hno.
  - intros hd' zs Hne E' Hin. destruct (l_in _ _ _ Hl _ _ _ E' Hin) as (u & thu & [= <-] & Eu & Hu).
    simplify_eq. by apply Hne, (place_of_inj hd' hd (at_ th)).
Qed.

Lemma lists_new ths h σ t th' :
  lists ths h σ → ths !! t = None → (∀ hd, place_of hd ≠ Some (at_ th')) →
  lists (<[t := th']> ths) (INIT_LIST_HEAD (Thr t) h) σ.
Proof.
  intros [Hf Hh Hin Hat Hn] Et Hno.
  assert (Hout : ∀ q, in_fam σ q → q ≠ Thr t).
  { intros q (hd & xs & E & [->|Hq]%elem_of_cons) ->.
    - destruct (proj1 (Hh (Thr t)) (mk_is_Some _ _ E)) as (c & _ & [|]); done.
    - destruct (Hin _ _ _ E Hq) as (u & thu & [= <-] & Eu & _). congruence. }
  split; [|done| | |].
  - apply fam_agree with h; [done|]. intros q Hq. unfold INIT_LIST_HEAD.
    rewrite lookup_insert_ne; [done|]. intros <-. by apply (Hout (Thr t)).
  - intros hd xs q E Hq. destruct (Hin hd xs q E Hq) as (u & thu & -> & Eu & Hu).
    exists u, thu. rewrite lookup_insert_ne by congruence. done.
  - intros u thu hd. rewrite lookup_insert_Some. intros [[<- <-]|[_ Eu]] Hu; [by destruct (Hno hd)|eauto].
  - intros u. unfold INIT_LIST_HEAD. rewrite !lookup_insert_is_Some.
    intros [<-|[Hne ?]]; [by left|right]. split; [congruence|eauto].
Qed.

(** ** Operations under the invariant *)
Lemma cpu_ids_range c : c ∈ cpu_ids ↔ 0 <= c < 4.
Proof.
  unfold cpu_ids. rewrite !elem_of_cons, elem_of_nil. lia.
Qed.

Section ops.
Context (s : sched_state) (σ : gmap link (list link)) (Hinv : inv s σ).

Lemma run_list c : c ∈ cpu_ids → ∃ xs, σ !! Run c = Some xs.
Proof. intros Hc. apply (l_heads _ _ _ (i_lists _ _ Hinv)). exists c. auto. Qed.

Lemma run_member c xs t : σ !! Run c = Some xs → Thr t ∈ xs →
  ∃ th, threads s !! t = Some th ∧ at_ th = Listed c ∧ state th = RUNNABLE.
Proof.
  intros E Hin. destruct (l_in _ _ _ (i_lists _ _ Hinv) _ _ _ E Hin) as (u & th & [= <-] & Et & [= Hp]).
  exists th. split_and!; [done|done|]. pose proof (t_state _ (k_thread _ _ (i_core _ _ Hinv) _ _ Et)) as Hs.
  by rewrite <-Hp in Hs.
Qed.

(** The thread that has waited longest. *)
Definition oldest (xs : list link) : option Z :=
  match last xs with Some (Thr t) => Some t | _ => None end.

Lemma pick_next_task_ok c xs : σ !! Run c = Some xs → pick_next_task c s = Done (oldest xs) s.
Proof.
  intros E. destruct (l_fam _ _ _ (i_lists _ _ Hinv)) as [Hd _]. specialize (Hd _ _ E).
  unfold pick_next_task. rewrite (list_empty_dll _ _ _ Hd). unfold oldest.
  destruct xs as [|x xs'] using rev_ind; [done|]. clear IHxs'.
  rewrite bool_decide_eq_false_2 by (by destruct xs'). rewrite last_snoc.
  rewrite (path_last _ _ _ _ (proj2 Hd)), last_snoc. simpl.
  destruct (l_in _ _ _ (i_lists _ _ Hinv) _ _ x E) as (t & th & -> & Et & _); [set_solver|].
  destruct (run_member c _ t E) as (th' & Et' & _ & Hst); [set_solver|]. simplify_eq.
  pose proof (length_dll _ _ _ Hd) as Hlen. destruct (size (links_ s)); [lia|]. simpl.
  by rewrite Et, decide_True.
Qed.

Lemma choose_cpu_ok u th : threads s !! u = Some th →
  ∃ k n, choose_cpu u s = Done k (set_load n s) ∧ k ∈ cpu_ids ∧ -1 <= n < NCPU.
Proof.
  intros Et. pose proof (t_aff _ (k_thread _ _ (i_core _ _ Hinv) _ _ Et)) as Ha.
  pose proof (i_load _ _ Hinv) as Hl. unfold choose_cpu. rewrite Et.
  unfold NCPU in *. destruct (Z.eqb_spec (cpu_affinity th) NO_CPU_AFF) as [Heq|Hne].
  - rewrite i32_small by lia. eexists _, _. split; [done|].
    assert (0 <= Z.rem (load_cpu_id s + 1) 4 < 4) by (apply Z.rem_bound_pos; lia).
    split; [|lia]. by apply cpu_ids_range.
  - exists (cpu_affinity th), (load_cpu_id s). split; [by destruct s|]. split; [|done].
    unfold affinity_ok, NO_CPU_AFF, NCPU in *. apply cpu_ids_range.
    apply negb_true_iff, orb_false_iff in Ha as [?%Z.ltb_ge ?%Z.leb_gt]. lia.
Qed.

Lemma enqueue_ok u th k xs : threads s !! u = Some th → (∀ hd, place_of hd ≠ Some (at_ th)) →
  σ !! Run k = Some xs → ∃ h', enqueue u k s = Done tt (set_links h' s) ∧
    lists (<[u := set_at (Listed k) th]> (threads s)) h' (<[Run k := Thr u :: xs]> σ).
Proof.
  intros Et Hp E. pose proof (i_lists _ _ Hinv) as Hl.
  destruct (fam_add_head (Thr u) (Run k) xs (links_ s) σ) as (h' & Eh & Hf & _ & [Hd _]);
    [apply Hl|done|by eapply not_listed|by eapply l_node|].
  exists h'. unfold enqueue, update. rewrite Eh. split; [done|].
  eapply lists_add; [done|done|done|done|done|done|by left|done].
Qed.

Lemma quit_links_ok c t th : c ∈ cpu_ids → threads s !! t = Some th → (∀ hd, place_of hd ≠ Some (at_ th)) →
  ∃ h' ys, quit_links c t (map_thread (quit_fields c) t s) = Done tt (set_links h' (map_thread (quit_fields c) t s)) ∧
    lists (<[t := quit_fields c th]> (threads s)) h' (<[Out c := ys]> σ).
Proof.
  intros Hc Et Hp. pose proof (i_lists _ _ Hinv) as Hl.
  destruct (proj2 (l_heads _ _ _ Hl (Out c))) as [xs E]; [exists c; auto|].
  destruct (fam_add_tail (Thr t) (Out c) xs (links_ s) σ) as (h' & Eh & Hf & _ & [Hd _]);
    [apply Hl|done|by eapply not_listed|by eapply l_node|].
  exists h', (xs ++ [Thr t]). unfold quit_links, update, map_thread. simpl. rewrite Eh. split; [done|].
  eapply lists_add; [done|done|done|done|done|done|by right|done].
Qed.

Lemma dispatch_ok c t th xs : σ !! Run c = Some (xs ++ [Thr t]) → threads s !! t = Some th →
  let th' := set_at (On c) (set_state RUNNING (set_lock (Some c) th)) in
  ∃ h', dispatch c t s = Done tt (SS (<[t := th']> (threads s)) h' (<[c := Cpu (Some t) (Enter t)]> (cpus s))
          (delete c (list_lock s)) (load_cpu_id s)) ∧
    lists (<[t := th']> (threads s)) h' (<[Run c := xs]> σ).
Proof.
  intros E Et th'. pose proof (i_lists _ _ Hinv) as Hl.
  destruct (fam_del (Thr t) (Run c) xs [] (links_ s) σ) as (h' & Eh & Hf & _ & [Hd _]); [apply Hl|done|].
  exists h'. unfold dispatch, map_thread. rewrite Eh. simpl. rewrite (alter_some _ _ _ _ Et). split; [done|].
  rewrite <-(app_nil_r xs). eapply lists_del; [done|done|by intros []| |done]. by rewrite app_nil_r in *.
Qed.

End ops.

(** ** Every step keeps the invariant *)

(** The lock table when the choice of no CPU changes. *)
Lemma lock_same (cps : gmap Z cpu) (ll : gmap Z Z) c x x' :
  cps !! c = Some x → chosen (does x) = None → chosen (does x') = None →
  (∀ k d, ll !! k = Some d ↔ d = k ∧ ∃ x t, cps !! k = Some x ∧ chosen (does x) = Some t) →
  (∀ k d, ll !! k = Some d ↔ d = k ∧ ∃ x t, <[c := x']> cps !! k = Some x ∧ chosen (does x) = Some t).
Proof.
  intros E N N' H k d. rewrite H. split; intros [-> (y & t & Ey & Hy)]; (split; [done|]).
  - exists y, t. split; [|done]. rewrite lookup_insert_ne; [done|]. intros <-. congruence.
  - rewrite lookup_insert_Some in Ey. destruct Ey as [[<- <-]|[_ Ey]]; [congruence|eauto].
Qed.
Lemma chose_same (cps : gmap Z cpu) (σ σ' : gmap link (list link)) c x' :
  chosen (does x') = None →
  (∀ d x t, d ≠ c → cps !! d = Some x → chosen (does x) = Some t → ∃ xs, σ !! Run d = Some (xs ++ [Thr t])) →
  (∀ d xs, d ≠ c → σ !! Run d = Some xs →
    (∃ x t, cps !! d = Some x ∧ chosen (does x) = Some t) → σ' !! Run d = Some xs) →
  (∀ d x t, <[c := x']> cps !! d = Some x → chosen (does x) = Some t → ∃ xs, σ' !! Run d = Some (xs ++ [Thr t])).
Proof.
  intros N H Hσ d x t. rewrite lookup_insert_Some. intros [[<- <-]|[Hne E]] Hx; [congruence|].
  destruct (H d x t) as [xs Exs]; [done..|]. exists xs. eapply Hσ; eauto.
Qed.

(** A step on one thread that leaves the lists alone. *)
Lemma inv_quiet s σ c x x' t th th' n :
  inv s σ → cpus s !! c = Some x → threads s !! t = Some th →
  pair_ok c (does x') t th' → other_threads (does x) (does x') t → other_cpus c th th' →
  thread x' = executing (does x') → (∀ w u k, does x' = AddTo w u k → k ∈ cpu_ids) → thread_ok th' →
  chosen (does x) = None → chosen (does x') = None →
  (∀ hd, place_of hd = Some (at_ th) ↔ place_of hd = Some (at_ th')) → -1 <= n < NCPU →
  inv (SS (<[t := th']> (threads s)) (links_ s) (<[c := x']> (cpus s)) (list_lock s) n) σ.
Proof.
  intros [Hc Hl Hch Hk Hn] Ex Et Hp Ho1 Ho2 Hx Hto Hth N N' Hpl Hn'. split; simpl; [|by eapply lists_same| | |done].
  - by eapply core_move.
  - eapply chose_same; [done|intros; by eapply Hch|done].
  - by eapply lock_same.
Qed.

(** The facts about CPU [c] and its thread [t], and a step by [inv_quiet]. *)
Ltac facts Hi Ex t th Et :=
  destruct (c_exists _ _ (k_cpu _ _ (i_core _ _ Hi) _ _ Ex) t) as [th Et]; [by auto|];
  pose proof (k_pair _ _ (i_core _ _ Hi) _ _ _ _ Ex Et) as [?P1 ?P2 ?P3 ?P4 ?P5 ?P6 ?P7];
  pose proof (k_thread _ _ (i_core _ _ Hi) _ _ Et) as [?T1 ?T2 ?T3]; simpl in *.
Ltac frames := split; simpl in *; intros; intuition (try congruence; eauto).
(** The range part of [thread_ok], given where the thread was. *)
Ltac ranges T Hat := split; simpl in *;
  [rewrite ?Hat in *; auto|intros ? [?|[?|?]]; (try congruence); (apply T; first [by auto|intuition congruence])|done].
Ltac quiet Hi Ex Et Hat :=
  let T := fresh "T" in
  pose proof (t_range _ (k_thread _ _ (i_core _ _ Hi) _ _ Et)) as T;
  unfold switched_back, map_thread; simpl; rewrite (alter_some _ _ _ _ Et);
  eapply (inv_quiet _ _ _ _ _ _ _ _ _ Hi Ex Et);
  [clear Hi T; frames|clear Hi T; frames|clear Hi T; frames|try done|try done|ranges T Hat|done|done
  |first [reflexivity|intros []; simpl; split; congruence]|apply Hi].

Lemma inv_enter s σ c t :
  inv s σ → cpus s !! c = Some (Cpu (Some t) (Enter t)) →
  inv (map_thread (set_lock None) t (set_cpu c (Some t) (Runs t) s)) σ.
Proof. intros Hi Ex. facts Hi Ex t th Et. assert (Hat : at_ th = On c) by (by apply P1). quiet Hi Ex Et Hat. Qed.

Lemma inv_yield s σ c t :
  inv s σ → cpus s !! c = Some (Cpu (Some t) (Runs t)) → unlocked t s →
  inv (map_thread (yield_fields c) t (set_cpu c (Some t) (Add Yield t) s)) σ.
Proof.
  intros Hi Ex (th & Et & Hu). facts Hi Ex t th' Et'. simplify_eq. assert (Hat : at_ th = On c) by (by apply P1). clear P1. quiet Hi Ex Et Hat.
Qed.

Lemma inv_signal s σ c b u th :
  inv s σ → cpus s !! c = Some (Cpu b (base b)) → threads s !! u = Some th → at_ th = Waiting →
  inv (map_thread (set_at (Claimed c)) u (set_cpu c b (WakeWant b u) s)) σ.
Proof.
  intros Hi Ex Et Hat. pose proof (k_pair _ _ (i_core _ _ Hi) _ _ _ _ Ex Et) as [P1 P2 P3 P4 P5 P6 P7].
  pose proof (k_thread _ _ (i_core _ _ Hi) _ _ Et) as [T1 T2 T3].
  assert (Hc : c ∈ cpu_ids) by (apply (k_dom _ _ (i_core _ _ Hi)); eauto).
  destruct b; quiet Hi Ex Et Hat.
Qed.

Lemma inv_wake s σ c b u :
  inv s σ → cpus s !! c = Some (Cpu b (WakeWant b u)) → unlocked u s →
  inv (map_thread (wake_fields c) u (set_cpu c b (Add (Wake b) u) s)) σ.
Proof.
  intros Hi Ex (th & Et & Hu). facts Hi Ex u th' Et'. simplify_eq.
  assert (Hat : at_ th = Claimed c) by (by apply P2). clear P2. quiet Hi Ex Et Hat.
Qed.

Lemma inv_woken s σ c b b' u :
  inv s σ → cpus s !! c = Some (Cpu b (Added (Wake b') u)) →
  inv (map_thread (set_lock None) u (set_cpu c b (base b') s)) σ.
Proof.
  intros Hi Ex. facts Hi Ex u th Et. pose proof (c_thread _ _ (k_cpu _ _ (i_core _ _ Hi) _ _ Ex)) as Hb.
  simpl in Hb. subst b'. destruct b; quiet Hi Ex Et I.
Qed.

Lemma inv_back s σ c b t :
  inv s σ → cpus s !! c = Some (Cpu b (Leave t)) → inv (switched_back c t s) σ.
Proof. intros Hi Ex. facts Hi Ex t th Et. quiet Hi Ex Et I. Qed.

(** [sem_wait] and [quit] pass the assertions of [sched]. *)
Lemma sched_asserts_ok c t s th :
  threads s !! t = Some th → lock th = Some c → state th ≠ RUNNING → sched_asserts c t s = Done tt s.
Proof. intros E El Es. unfold sched_asserts. by rewrite E, decide_True, decide_False. Qed.

Lemma inv_sleep s σ c t s' :
  inv s σ → cpus s !! c = Some (Cpu (Some t) (Runs t)) → unlocked t s →
  sched_asserts c t (map_thread (sleep_fields c) t s) = Done tt s' →
  inv (set_cpu c (Some t) (Leave t) s') σ.
Proof.
  intros Hi Ex (th & Et & Hu). facts Hi Ex t th' Et'. simplify_eq.
  assert (Hat : at_ th = On c) by (by apply P1). clear P1.
  rewrite (sched_asserts_ok c t _ (sleep_fields c th)); [intros [= <-]|simpl; by rewrite (alter_some _ _ _ _ Et), lookup_insert_eq|done..].
  change (inv (map_thread (sleep_fields c) t (set_cpu c (Some t) (Leave t) s)) σ). quiet Hi Ex Et Hat.
Qed.

(** A step of one CPU on no thread, with the lists and the choices unchanged. *)
Lemma inv_cpu s σ c x x' n :
  inv s σ → cpus s !! c = Some x → chosen (does x) = None → chosen (does x') = None →
  core (threads s) (<[c := x']> (cpus s)) → -1 <= n < NCPU →
  inv (SS (threads s) (links_ s) (<[c := x']> (cpus s)) (list_lock s) n) σ.
Proof.
  intros [Hc Hl Hch Hk Hn] Ex N N' Hcore Hn'. split; simpl; [done|done| | |done].
  - eapply chose_same; [done|intros; by eapply Hch|done].
  - by eapply lock_same.
Qed.

Lemma inv_choose s σ c b w u k s' :
  inv s σ → cpus s !! c = Some (Cpu b (Add w u)) → choose_cpu u s = Done k s' →
  inv (set_cpu c b (AddTo w u k) s') σ.
Proof.
  intros Hi Ex Ek. facts Hi Ex u th Et. destruct (choose_cpu_ok s σ Hi u th Et) as (k' & n & E & Hk & Hn).
  rewrite E in Ek. injection Ek as <- <-. pose proof (c_thread _ _ (k_cpu _ _ (i_core _ _ Hi) _ _ Ex)) as Hb.
  eapply (inv_cpu _ _ _ _ (Cpu b (AddTo w u k')) n Hi Ex); [done|done| |done].
  eapply core_cpu; [apply Hi|done|by destruct w..|done|done|done|done|by destruct w|done|].
  by intros ? ? ? [= -> -> ->].
Qed.

Lemma inv_yielded s σ c b t s' :
  inv s σ → cpus s !! c = Some (Cpu b (Added Yield t)) → sched_asserts c t s = Done tt s' →
  inv (set_cpu c b (Leave t) s') σ.
Proof.
  intros Hi Ex. pose proof (c_thread _ _ (k_cpu _ _ (i_core _ _ Hi) _ _ Ex)) as Hb. simpl in Hb. subst b.
  unfold sched_asserts. destruct (threads s !! t) as [th|]; [|done].
  repeat case_decide; [done| |done]. intros [= <-].
  eapply (inv_cpu _ _ _ _ (Cpu (Some t) (Leave t)) _ Hi Ex); [done|done| |apply Hi].
  by eapply core_cpu; [apply Hi|done|..].
Qed.

Lemma inv_pick s σ c t :
  inv s σ → cpus s !! c = Some (Cpu None Loop) → list_lock s !! c = None →
  pick_next_task c s = Done (Some t) s →
  inv (set_cpu c None (Chose t) (set_list_lock (<[c := c]> (list_lock s)) s)) σ.
Proof.
  intros Hi Ex El Ep. pose proof Hi as [Hc Hl Hch Hk Hn].
  assert (Hcid : c ∈ cpu_ids) by (apply (k_dom _ _ Hc); eauto).
  destruct (run_list s σ Hi c Hcid) as [xs E]. rewrite (pick_next_task_ok s σ Hi c xs E) in Ep.
  injection Ep as Ep. unfold oldest in Ep.
  assert (∃ ys, xs = ys ++ [Thr t]) as [ys ->].
  { destruct xs as [|x ys _] using rev_ind; [done|]. rewrite last_snoc in Ep.
    destruct x; simplify_eq. by exists ys. }
  destruct (run_member s σ Hi c _ t E) as (th & Et & Hat & _); [set_solver|]. split; simpl; [|done| | |done].
  - eapply core_cpu; [done|done|done|done|done|done|by intros ? [= <-]; eauto|done..].
  - intros d x u. rewrite lookup_insert_Some. intros [[<- <-]|[_ Ed]] Hx; [|by eapply Hch].
    injection Hx as <-. eauto.
  - intros k d. rewrite lookup_insert_Some, Hk. split.
    + intros [[<- <-]|[Hne (-> & x & u & E' & Hu)]]; (split; [done|]).
      * exists (Cpu None (Chose t)), t. by rewrite lookup_insert_eq.
      * exists x, u. by rewrite lookup_insert_ne.
    + intros (-> & x & u & E' & Hu). destruct (decide (c = k)) as [<-|Hne]; [by left|right].
      rewrite lookup_insert_ne in E' by done. split_and!; [done|done|by exists x, u].
Qed.

Lemma inv_dispatch s σ c t s' :
  inv s σ → cpus s !! c = Some (Cpu None (Chose t)) → unlocked t s → dispatch c t s = Done tt s' →
  ∃ xs, σ !! Run c = Some (xs ++ [Thr t]) ∧ inv s' (<[Run c := xs]> σ).
Proof.
  intros Hi Ex (th & Et & Hu). facts Hi Ex t th0 Et0. simplify_eq.
  pose proof Hi as [Hc Hl Hch Hk Hn]. destruct (Hch c _ t Ex eq_refl) as [xs E].
  destruct (dispatch_ok s σ Hi c t th xs E Et) as (h' & -> & Hl'). intros [= <-].
  assert (Hat : at_ th = Listed c) by (by apply P5). assert (Hcid : c ∈ cpu_ids) by (apply (k_dom _ _ Hc); eauto).
  exists xs. split; [done|]. split; simpl; [|done| | |done].
  - eapply core_move; [done|done|done|frames|clear Hi Hc; frames| |done|done|].
    + split; simpl; intros; intuition congruence.
    + split; simpl; [auto|intros d [[= <-]|[?|[= <-]]]; done|done].
  - eapply chose_same; [done|intros; by eapply Hch|]. intros d ys Hd Ed _.
    rewrite lookup_insert_ne; [done|congruence].
  - intros k d. rewrite lookup_delete_Some, Hk. split.
    + intros [Hne (-> & x & u & E' & Hx)]. split; [done|]. exists x, u. by rewrite lookup_insert_ne.
    + intros (-> & x & u & E' & Hx). rewrite lookup_insert_Some in E'.
      destruct E' as [[<- <-]|[Hne E']]; [done|]. split_and!; [done|done|by exists x, u].
Qed.

Lemma inv_enqueue s σ c b w u k s' :
  inv s σ → cpus s !! c = Some (Cpu b (AddTo w u k)) → list_lock s !! k = None → enqueue u k s = Done tt s' →
  ∃ xs, σ !! Run k = Some xs ∧
    inv (map_thread (set_at (Listed k)) u (set_cpu c b (Added w u) s')) (<[Run k := Thr u :: xs]> σ).
Proof.
  intros Hi Ex El. facts Hi Ex u th Et.
  pose proof Hi as [Hc Hl Hch Hk Hn]. pose proof (k_cpu _ _ Hc _ _ Ex) as [C1 C2 C3]. simpl in *.
  pose proof (C3 _ _ _ eq_refl) as Hkid. destruct (run_list s σ Hi k Hkid) as [xs E].
  assert (Hat : at_ th = On c ∨ at_ th = Claimed c) by (destruct w; [left; by apply P1|right; by apply P2]).
  destruct (enqueue_ok s σ Hi u th k xs Et) as (h' & -> & Hl'); [by eapply not_place|done|].
  intros [= <-]. exists xs. split; [done|]. unfold map_thread. simpl. rewrite (alter_some _ _ _ _ Et).
  split; simpl; [|done| | |done].
  - assert (Hsame : ∀ d, lock th = Some d → d = c) by (intros d Hd; destruct P3 as [P3 _]; specialize (P3 eq_refl); congruence).
    assert (Hlc : lock th = Some c) by (by apply P3). assert (Hrun : state th = RUNNABLE) by auto.
    eapply core_move; [done|done|done|clear Hi Hc Hl Hl' C2 C3 Hch Hk..]; destruct w; try done;
      [frames..|ranges T2 Hat|ranges T2 Hat].
  - eapply chose_same; [by destruct w|intros; by eapply Hch|]. intros d ys Hd Ed (x & t & Exd & Hx).
    rewrite lookup_insert_ne; [done|]. intros [= ->].
    assert (Hlk : list_lock s !! d = Some d) by (apply Hk; eauto). congruence.
  - by eapply lock_same; [done|..].
Qed.

Lemma inv_quit s σ c t s1 s' :
  inv s σ → cpus s !! c = Some (Cpu (Some t) (Runs t)) → unlocked t s →
  quit_links c t (map_thread (quit_fields c) t s) = Done tt s1 → sched_asserts c t s1 = Done tt s' →
  ∃ ys, inv (set_cpu c (Some t) (Leave t) s') (<[Out c := ys]> σ).
Proof.
  intros Hi Ex (th & Et & Hu). facts Hi Ex t th' Et'. simplify_eq.
  assert (Hat : at_ th = On c) by (by apply P1). pose proof Hi as [Hc Hl Hch Hk Hn].
  assert (Hcid : c ∈ cpu_ids) by (apply (k_dom _ _ Hc); eauto).
  destruct (quit_links_ok s σ Hi c t th Hcid Et) as (h' & ys & -> & Hl'); [apply (not_place _ c); auto|].
  intros [= <-]. unfold map_thread. rewrite (alter_some _ _ _ _ Et).
  rewrite (sched_asserts_ok c t _ (quit_fields c th)); [|simpl; by rewrite lookup_insert_eq|done..].
  intros [= <-]. exists ys. split; simpl; [|done| | |done].
  - clear P1. eapply core_move; [done|done|done|clear Hi Hc Hl Hl' Hch Hk..]; [frames..|done|done|ranges T2 Hat].
  - eapply chose_same; [done|intros; by eapply Hch|]. intros. by rewrite lookup_insert_ne.
  - by eapply lock_same.
Qed.

Lemma core_new ths cps c x x' u th' :
  core ths cps → cps !! c = Some x → ths !! u = None → c ∈ cpu_ids →
  pair_ok c (does x') u th' → other_threads (does x) (does x') u →
  at_ th' = Claimed c → lock th' = None → thread_ok th' →
  thread x' = executing (does x') → (∀ w u k, does x' = AddTo w u k → k ∈ cpu_ids) →
  (∀ t, executing (does x') = Some t → is_Some (ths !! t)) →
  core (<[u := th']> ths) (<[c := x']> cps).
Proof.
  intros [Hp Hc Hd Ht] Ex Eu Hcid Hpair [Ho1 Ho2 Ho3 Ho4 Ho5 Ho7 Ho6] Hat Hlk Hth Hx Hto Hex.
  assert (Hnew : ∀ d y, cps !! d = Some y → executing (does y) ≠ Some u ∧ claimed (does y) ≠ Some u ∧
    holds (does y) ≠ Some u ∧ chosen (does y) ≠ Some u).
  { intros d y Ed. pose proof (c_exists _ _ (Hc d y Ed) u) as H. rewrite Eu in H.
    split_and!; intros Hy; (destruct H as [? ?]; [tauto|done]). }
  assert (Hin : ∀ v, is_Some (ths !! v) → is_Some (<[u:=th']> ths !! v)).
  { intros v Hv. rewrite lookup_insert_is_Some. by destruct (decide (u = v)); auto. }
  split.
  - intros d y v thv. rewrite !lookup_insert_Some. intros [[<- <-]|[Hdc Ed]] [[<- <-]|[Hut Ev]]; [done| | |by eauto].
    + destruct (Hp c x v thv Ex Ev) as [P1 P2 P3 P4 P5 P6 P7]. split; eauto.
      * by rewrite <-Ho1.
      * by rewrite <-Ho2.
      * by rewrite <-Ho3.
      * rewrite Ho7 by done. done.
      * rewrite Ho7, <-Ho1 by done. done.
    + destruct (Hnew d y Ed) as (N1 & N2 & N3 & N4). split.
      * split; [|congruence]. intros Ho. destruct N1. by destruct (does y) as [| | | | |[]| |[]|].
      * split; congruence.
      * split; congruence.
      * by intros ?%leaving_holds.
      * done.
      * by intros ?%adding_holds.
      * intros Ho. destruct N1. by destruct (does y) as [| | | | |[]| |[]|].
  - intros d y. rewrite lookup_insert_Some. intros [[<- <-]|[Hdc Ed]].
    + split; [done| |done]. intros v Hv. destruct (decide (v = u)) as [->|Hvu]; [rewrite lookup_insert_eq; eauto|].
      apply Hin. destruct Hv as [Hv|Hv]; [auto|]. apply (Hc c x Ex).
      rewrite <-(Ho2 v), <-(Ho3 v) in Hv by done. naive_solver.
    + destruct (Hc d y Ed) as [C1 C2 C3]. split; [done| |done]. eauto.
  - intros d. rewrite lookup_insert_is_Some, <-Hd. destruct (decide (c = d)) as [<-|]; naive_solver.
  - intros v thv. rewrite lookup_insert_Some. naive_solver.
Qed.

Lemma inv_create s σ c b u tsk newpid f a nm aff old :
  inv s σ → cpus s !! c = Some (Cpu b (base b)) → threads s !! u = None → affinity_ok aff = true →
  inv (set_cpu c b (WakeWant b u)
    (add_thread u (set_at (Claimed c) (kthread_fields f a nm aff (alloc_kthread u tsk newpid old))) s)) σ.
Proof.
  intros Hi Ex Eu Ha. pose proof Hi as [Hc Hl Hch Hk Hn].
  assert (Hcid : c ∈ cpu_ids) by (apply (k_dom _ _ Hc); eauto).
  pose proof (c_exists _ _ (k_cpu _ _ Hc _ _ Ex)) as Hex.
  assert (Hbu : b ≠ Some u).
  { intros ->. destruct (Hex u) as [? ?]; [by left|congruence]. }
  split; simpl; [| | | |done].
  - eapply core_new; [done|done|done|done| | |done|done| |done|done|].
    + split; simpl; intros; intuition congruence.
    + destruct b; split; simpl in *; intros; intuition congruence.
    + split; simpl; [done| |done]. intros d [?|[[= <-]|?]]; done.
    + simpl. intros t Ht. apply Hex. left. by destruct b.
  - apply lists_new; [done..|]. apply (not_place _ c). auto.
  - eapply chose_same; [done|intros; by eapply Hch|done].
  - eapply lock_same; [done|by destruct b|done|done].
Qed.

(** The effect of a step on the queues of the CPUs: only a dispatch takes from
    one, always at the old end; additions are at the new end. *)
Definition queues_move (c : Z) (l : label) (σ σ' : gmap link (list link)) : Prop :=
  ∀ k xs, σ !! Run k = Some xs → ∃ ys, σ' !! Run k = Some ys ∧
    ((∃ t, l = Dispatch t ∧ k = c ∧ xs = ys ++ [Thr t]) ∨
     ((l = Other ∨ k ≠ c) ∧ ∃ us, ys = us ++ xs)).

Lemma queues_same c σ : queues_move c Other σ σ.
Proof. intros k xs E. exists xs. split; [done|]. right. split; [by left|by exists []]. Qed.

Lemma inv_step s σ c l s' : inv s σ → step c l s s' → ∃ σ', inv s' σ' ∧ queues_move c l σ σ'.
Proof.
  intros Hi Hs. destruct Hs.
  all: try (exists σ; split; [|apply queues_same]; eauto using inv_pick, inv_enter, inv_yield, inv_sleep,
    inv_signal, inv_create, inv_wake, inv_choose, inv_yielded, inv_woken, inv_back; fail).
  - destruct (inv_dispatch s σ c t s') as (xs & E & Hi'); [done..|]. exists (<[Run c := xs]> σ). split; [done|].
    intros k ys Ek. destruct (decide (k = c)) as [->|Hne].
    + simplify_eq. rewrite lookup_insert_eq. eexists. split; [done|]. left. eauto.
    + rewrite lookup_insert_ne by congruence. exists ys. split; [done|]. right. split; [by right|by exists []].
  - destruct (inv_quit s σ c t s1 s') as (ys & Hi'); [done..|]. eexists. split; [done|].
    intros k xs Ek. exists xs. rewrite lookup_insert_ne by done. split; [done|]. right.
    split; [by left|by exists []].
  - destruct (inv_enqueue s σ c b w u k s') as (xs & E & Hi'); [done..|]. eexists. split; [done|].
    intros k' ys Ek. destruct (decide (k = k')) as [->|Hne].
    + simplify_eq. rewrite lookup_insert_eq. eexists. split; [done|]. right. split; [by left|by exists [Thr u]].
    + rewrite lookup_insert_ne by congruence. exists ys. split; [done|]. right. split; [by left|by exists []].
Qed.

Lemma sched_init_inv h : ∃ σ, inv (sched_init h) σ.
Proof.
  set (heads := flat_map (λ c, [Run c; Out c]) cpu_ids).
  set (σ := list_to_map ((λ hd, (hd, [])) <$> heads) : gmap link (list link)).
  assert (Hσ : ∀ hd xs, σ !! hd = Some xs → xs = [] ∧ hd ∈ heads).
  { intros hd xs (hd' & [= -> ->] & Hin)%elem_of_list_to_map_2%list_elem_of_fmap. done. }
  assert (Hcpu : ∀ c x, cpus (sched_init h) !! c = Some x → x = Cpu None Loop).
  { intros c x (c' & [= -> ->] & _)%elem_of_list_to_map_2%list_elem_of_fmap. done. }
  assert (Hdom : ∀ c, is_Some (cpus (sched_init h) !! c) ↔ c ∈ cpu_ids).
  { intros c. change (cpus (sched_init h)) with (list_to_map ((λ c, (c, Cpu None Loop)) <$> cpu_ids) : gmap Z cpu).
    by rewrite <-elem_of_dom, dom_list_to_map_L, elem_of_list_to_set. }
  assert (Hhd : ∀ hd, hd ∈ heads ↔ ∃ c, c ∈ cpu_ids ∧ (hd = Run c ∨ hd = Out c)).
  { intros hd. unfold heads. rewrite list_elem_of_In, in_flat_map. setoid_rewrite <-list_elem_of_In.
    setoid_rewrite elem_of_cons. setoid_rewrite list_elem_of_singleton. done. }
  exists σ. split; simpl.
  - split; [done| |intros c|done].
    + intros c x E. rewrite (Hcpu c x E). split; simpl; [done|naive_solver|done].
    + apply Hdom.
  - split; [| |intros hd xs q (-> & _)%Hσ Hq; by apply elem_of_nil in Hq|done|by intros t [? ?]].
    + apply fam_empty. intros hd xs (-> & Hin)%Hσ. split; [done|]. clear -Hin.
      unfold INIT_LIST_HEAD. subst heads. simpl in Hin. rewrite !elem_of_cons, elem_of_nil in Hin.
      destruct_or! Hin; subst; try done; by simplify_map_eq.
    + intros hd. rewrite <-Hhd, <-elem_of_dom. unfold σ.
      by rewrite dom_list_to_map_L, elem_of_list_to_set, <-list_fmap_compose, list_fmap_id.
  - intros c x t E. by rewrite (Hcpu c x E).
  - intros k d. split; [done|]. intros (_ & x & t & E & Hx). by rewrite (Hcpu k x E) in Hx.
  - unfold NCPU. lia.
Qed.

Lemma sched_inv_reachable s : reachable s → ∃ σ, inv s σ.
Proof.
  intros (h & ls & Hr). destruct (sched_init_inv h) as [σ Hi].
  induction Hr as [s|c l ls s1 s2 s3 Hs _ IH] in σ, Hi |- *; [eauto|].
  destruct (inv_step _ _ _ _ _ Hi Hs) as (σ' & Hi' & _). eauto.
Qed.

(** ** Progress *)
Definition can_step (c : Z) (s : sched_state) : Prop := ∃ l s', step c l s s'.

(** CPU [c] spins on a lock that [d] holds. *)
Definition waits_for (s : sched_state) (c d : Z) : Prop :=
  ∃ x, cpus s !! c = Some x ∧
    match does x with
    | Chose t | WakeWant _ t => ∃ th, threads s !! t = Some th ∧ lock th = Some d
    | AddTo _ _ k => list_lock s !! k = Some d
    | _ => False
    end.

Section progress.
Context (s : sched_state) (σ : gmap link (list link)) (Hi : inv s σ).

(** A CPU that holds a thread lock moves, unless it waits for a list lock. *)
Lemma holder_steps d x t : cpus s !! d = Some x → holds (does x) = Some t →
  (∀ w k, does x ≠ AddTo w t k) → can_step d s.
Proof.
  intros Ex Hh Hn. destruct x as [b p]. simpl in *.
  destruct (c_exists _ _ (k_cpu _ _ (i_core _ _ Hi) _ _ Ex) t) as [th Et]; [auto|].
  pose proof (c_thread _ _ (k_cpu _ _ (i_core _ _ Hi) _ _ Ex)) as Hb.
  pose proof (k_pair _ _ (i_core _ _ Hi) _ _ _ _ Ex Et) as [P1 P2 P3 P4 P5 P6 P7]. simpl in *.
  destruct p as [| | | | |w u|w u k|[|b'] u|u]; simplify_eq/=.
  - eexists _, _. by apply s_enter.
  - destruct (choose_cpu_ok s σ Hi t th Et) as (k & n & E & _). eexists _, _. by eapply s_choose.
  - by destruct (Hn w k).
  - eexists _, _. eapply s_yielded; [done|]. apply sched_asserts_ok with th; [done|by apply P3|].
    intros Hr.
    by rewrite P6 in Hr.
  - eexists _, _. by apply s_woken.
  - eexists _, _. by eapply s_back.
Qed.

(** What a CPU holds when it waits for, or is to take, a queued thread. *)
Lemma lock_free_or_steps t th : threads s !! t = Some th →
  (∀ d, at_ th = On d ∨ at_ th = Claimed d → ∀ x, cpus s !! d = Some x → ∀ w k, does x ≠ AddTo w t k) →
  unlocked t s ∨ ∃ d, lock th = Some d ∧ can_step d s.
Proof.
  intros Et Hat. destruct (lock th) as [d|] eqn:El; [right|left; by exists th].
  exists d. split; [done|]. assert (Hd : d ∈ cpu_ids) by (apply (k_thread _ _ (i_core _ _ Hi) _ _ Et); auto).
  apply (k_dom _ _ (i_core _ _ Hi)) in Hd as [x Ex].
  pose proof (k_pair _ _ (i_core _ _ Hi) _ _ _ _ Ex Et) as [P1 P2 P3 P4 P5 P6 P7].
  eapply holder_steps; [done|by apply P3|]. intros w k Hx. rewrite Hx in *.
  eapply (Hat d); [|done|done]. destruct w; [left; by apply P1|right; by apply P2].
Qed.

Lemma chose_steps c b t : cpus s !! c = Some (Cpu b (Chose t)) →
  can_step c s ∨ ∃ d, waits_for s c d ∧ can_step d s.
Proof.
  intros Ex. facts Hi Ex t th Et. pose proof (c_thread _ _ (k_cpu _ _ (i_core _ _ Hi) _ _ Ex)) as Hb.
  simpl in Hb. subst b. specialize (P5 eq_refl).
  destruct (lock_free_or_steps t th Et) as [Hu|(d & Hl & Hd)].
  - intros d [?|?]; congruence.
  - left. destruct (i_chose _ _ Hi _ _ _ Ex eq_refl) as [xs E].
    destruct (dispatch_ok s σ Hi c t th xs E Et) as (h' & Ed & _). eexists _, _. by eapply s_dispatch.
  - right. exists d. split; [|done]. eexists. split; [done|]. simpl. eauto.
Qed.

Lemma cpu_steps c x : cpus s !! c = Some x →
  can_step c s ∨ ∃ d, waits_for s c d ∧ (can_step d s ∨ ∃ e, waits_for s d e ∧ can_step e s).
Proof.
  intros Ex. destruct x as [b p]. pose proof (c_thread _ _ (k_cpu _ _ (i_core _ _ Hi) _ _ Ex)) as Hb. simpl in Hb.
  destruct p as [|t|t|t|b' u|w u|w u k|w u|t]; simpl in *; subst.
  - left. destruct (run_list s σ Hi c) as [xs E]; [apply (k_dom _ _ (i_core _ _ Hi)); eauto|].
    pose proof (pick_next_task_ok s σ Hi c xs E) as Ep.
    assert (list_lock s !! c = None).
    { apply eq_None_not_Some. intros [d (-> & x & t & Ex' & Hx)%(i_lock _ _ Hi)]. by simplify_eq. }
    destruct (oldest xs); eexists _, _; [by eapply s_pick|by eapply s_idle].
  - destruct (chose_steps c _ t Ex) as [?|(d & ? & ?)]; [by left|right; eauto].
  - left. eapply holder_steps; [done|simpl; done|done].
  - left. facts Hi Ex t th Et. assert (Hat : at_ th = On c) by (by apply P1).
    destruct (lock th) as [d|] eqn:El; [|eexists _, _; apply s_yield; [done|by exists th]].
    assert (Hd : d ∈ cpu_ids) by (apply T2; auto). apply (k_dom _ _ (i_core _ _ Hi)) in Hd as [y Ey].
    pose proof (k_pair _ _ (i_core _ _ Hi) _ _ _ _ Ey Et) as [Q1 Q2 Q3 Q4 _ _ _].
    pose proof (proj2 Q3 El) as Hh. exfalso. assert (Hne : d ≠ c) by (intros ->; by simplify_eq).
    destruct y as [by' py]. destruct py as [| | | | |[]|[]| |]; simplify_eq/=; try (by apply (Q4 eq_refl c));
      try (destruct Q1 as [Q1 _]; specialize (Q1 eq_refl)); try (destruct Q2 as [Q2 _]; specialize (Q2 eq_refl)); congruence.
  - facts Hi Ex u th Et. assert (Hat : at_ th = Claimed c) by (by apply P2).
    destruct (lock_free_or_steps u th Et) as [Hu|(d & Hl & Hd)].
    + intros d [?|Hcl] y Ey w k; [congruence|]. assert (d = c) as -> by congruence. simplify_eq. done.
    + left. eexists _, _. by eapply s_wake.
    + right. exists d. split; [|by left]. eexists. split; [done|]. simpl. eauto.
  - left. eapply holder_steps; [done|simpl; done|done].
  - facts Hi Ex u th Et. pose proof (k_cpu _ _ (i_core _ _ Hi) _ _ Ex) as [_ _ C3].
    destruct (list_lock s !! k) as [d|] eqn:El.
    + right. pose proof El as El'. apply (i_lock _ _ Hi) in El' as (-> & y & t & Ey & Hy). exists k.
      split; [eexists; split; [done|]; done|]. destruct y as [by' []]; simplify_eq/=. by eapply chose_steps.
    + left. destruct (run_list s σ Hi k (C3 _ _ _ eq_refl)) as [xs E].
      destruct (enqueue_ok s σ Hi u th k xs Et) as (h' & Ee & _); [|done|by eexists _, _; eapply s_enqueue].
      apply (not_place _ c). destruct w; [left; by apply P1|right; by apply P2].
  - left. eapply holder_steps; [done|simpl; done|done].
  - left. eapply holder_steps; [done|simpl; done|done].
Qed.

(** A CPU is the only one to execute its thread. *)
Lemma executing_unique c d x y t : cpus s !! c = Some x → cpus s !! d = Some y →
  thread x = Some t → thread y = Some t → c = d.
Proof.
  intros Ex Ey Hx Hy. rewrite (c_thread _ _ (k_cpu _ _ (i_core _ _ Hi) _ _ Ex)) in Hx.
  rewrite (c_thread _ _ (k_cpu _ _ (i_core _ _ Hi) _ _ Ey)) in Hy.
  destruct (c_exists _ _ (k_cpu _ _ (i_core _ _ Hi) _ _ Ex) t) as [th Et]; [auto|].
  pose proof (k_pair _ _ (i_core _ _ Hi) _ _ _ _ Ex Et) as [P1 _ P3 P4 _ _ _].
  pose proof (k_pair _ _ (i_core _ _ Hi) _ _ _ _ Ey Et) as [Q1 _ Q3 Q4 _ _ _].
  assert (Hcase : ∀ p, executing p = Some t → owned p = Some t ∨ leaving p = Some t).
  { clear. intros p. destruct p as [| | | | |[]|[]|[]|]; simpl; auto. }
  destruct (Hcase _ Hx) as [Ho|Hl], (Hcase _ Hy) as [Ho'|Hl'].
  - apply P1 in Ho. apply Q1 in Ho'. congruence.
  - apply P1 in Ho. by destruct (Q4 Hl' c).
  - apply Q1 in Ho'. by destruct (P4 Hl d).
  - apply leaving_holds, P3 in Hl. apply leaving_holds, Q3 in Hl'. congruence.
Qed.
End progress.

(** The threads queued on CPU [k], the one to run next first, as a walk from the
    tail of its list finds them. *)
Definition run_queue (k : Z) (s : sched_state) : option (list link) :=
  p ← prv (links_ s) (Run k); list_for_each_reverse (size (links_ s)) (Run k) p (links_ s).

Lemma run_queue_ok s σ k xs : inv s σ → σ !! Run k = Some xs → run_queue k s = Some (reverse xs).
Proof.
  intros Hi E. destruct (l_fam _ _ _ (i_lists _ _ Hi)) as [Hd _].
  destruct (list_for_each_reverse_dll _ _ _ (Hd _ _ E)) as (p & Ep & Ew). unfold run_queue. by rewrite Ep.
Qed.

(** C4: Where a thread can be in a reachable state: no thread is executed by two
    CPUs; a CPU that runs a thread has it RUNNING; the run list of a CPU is a
    well-formed list without repetition of exactly the threads queued there,
    each of them RUNNABLE, and a thread on it that some CPU still executes is
    one whose lock that CPU holds until it has switched away. *)
Theorem sched_exclusive s :
  reachable s →
  (∀ c d x y t, cpus s !! c = Some x → cpus s !! d = Some y → thread x = Some t → thread y = Some t → c = d) ∧
  (∀ c b t th, cpus s !! c = Some (Cpu b (Runs t)) → threads s !! t = Some th → b = Some t ∧ state th = RUNNING) ∧
  (∀ k, k ∈ cpu_ids → ∃ q, run_queue k s = Some q ∧ NoDup q ∧
    (∀ t th, threads s !! t = Some th → Thr t ∈ q ↔ at_ th = Listed k) ∧
    ∀ l, l ∈ q → ∃ t th, l = Thr t ∧ threads s !! t = Some th ∧ state th = RUNNABLE ∧
      ∀ c x, cpus s !! c = Some x → thread x = Some t → lock th = Some c).
Proof.
  intros [σ Hi]%sched_inv_reachable. split_and!.
  - intros c d x y t. by apply (executing_unique s σ Hi).
  - intros c b t th Ex Et. pose proof (k_pair _ _ (i_core _ _ Hi) _ _ _ _ Ex Et) as [_ _ _ _ _ _ P7].
    split; [apply (c_thread _ _ (k_cpu _ _ (i_core _ _ Hi) _ _ Ex))|by apply P7].
  - intros k Hk. destruct (run_list s σ Hi k Hk) as [xs E]. exists (reverse xs).
    pose proof (i_lists _ _ Hi) as Hl. split; [by apply (run_queue_ok s σ)|]. split_and!.
    + rewrite reverse_Permutation. destruct (l_fam _ _ _ Hl) as [Hd _]. destruct (Hd _ _ E) as [Hnd _].
      by apply NoDup_cons in Hnd as [_ ?].
    + intros t th Et. rewrite elem_of_reverse. split.
      * intros Hin. destruct (run_member s σ Hi k xs t E Hin) as (th' & Et' & ? & _). by simplify_eq.
      * intros Hat. destruct (l_at _ _ _ Hl t th (Run k) Et) as (xs' & E' & ?); [by rewrite Hat|by simplify_eq].
    + intros l. rewrite elem_of_reverse. intros Hin. destruct (l_in _ _ _ Hl _ _ l E Hin) as (t & th & -> & Et & _).
      destruct (run_member s σ Hi k xs t E Hin) as (th' & Et' & Hat & Hst). simplify_eq.
      exists t, th. split_and!; [done..|]. intros c x Ex Hx.
      rewrite (c_thread _ _ (k_cpu _ _ (i_core _ _ Hi) _ _ Ex)) in Hx.
      pose proof (k_pair _ _ (i_core _ _ Hi) _ _ _ _ Ex Et) as [P1 _ P3 _ _ _ _].
      apply P3. destruct (does x) as [| | | | |[]|[]|[]|]; simplify_eq/=; try done;
        destruct P1 as [P1 _]; specialize (P1 eq_refl); congruence.
Qed.

(** C12: The scheduler does not deadlock, and [sched], [pick_next_task] and the list
    operations neither panic nor fault: in a reachable state every CPU can move,
    or spins on a lock whose holder can move, or on one whose holder spins on a
    lock whose holder can move. *)
Theorem sched_progress s c :
  reachable s → c ∈ cpu_ids →
  can_step c s ∨ ∃ d, waits_for s c d ∧ (can_step d s ∨ ∃ e, waits_for s d e ∧ can_step e s).
Proof.
  intros [σ Hi]%sched_inv_reachable Hc. apply (k_dom _ _ (i_core _ _ Hi)) in Hc as [x Ex].
  by apply (cpu_steps s σ Hi c x).
Qed.

(** The dispatches of CPU [k] in a run. *)
Definition dispatches (k : Z) (ls : list (Z * label)) : nat :=
  length (filter (λ p, p.1 = k ∧ p.2 ≠ Other) ls).

(** C11: No thread starves: when [n] threads are queued before [t] on CPU [k], then
    whatever the CPUs do, [t] is among the next [n + 1] threads that [k]
    dispatches. *)
Theorem no_starvation s s' ls k q t n :
  reachable s → k ∈ cpu_ids → run_queue k s = Some q → q !! n = Some (Thr t) →
  run ls s s' → (n < dispatches k ls)%nat → (k, Dispatch t) ∈ ls.
Proof.
  intros [σ Hi]%sched_inv_reachable Hk Hq Hn Hr Hlt.
  destruct (run_list s σ Hi k Hk) as [xs E]. rewrite (run_queue_ok s σ k xs Hi E) in Hq.
  injection Hq as <-. revert σ xs n Hi E Hn Hlt.
  induction Hr as [s|c l ls s1 s2 s3 Hs _ IH]; intros σ xs n Hi E Hn Hlt; [unfold dispatches in Hlt; simpl in Hlt; lia|].
  destruct (inv_step _ _ _ _ _ Hi Hs) as (σ' & Hi' & Hm).
  destruct (Hm k xs E) as (ys & E' & [(t' & -> & -> & ->)|(Hno & us & ->)]).
  - rewrite reverse_snoc in Hn. destruct n as [|n]; simplify_eq/=; [by left|right].
    unfold dispatches in Hlt. rewrite filter_cons_True in Hlt by done. simpl in Hlt.
    by eapply (IH σ' ys n); [..|unfold dispatches; lia].
  - right. unfold dispatches in Hlt. rewrite filter_cons_False in Hlt by (simpl; naive_solver).
    eapply (IH σ' _ n); [done|done| |done]. rewrite reverse_app. by apply lookup_app_l_Some.
Qed.

(** A run from boot: CPU 0 creates thread 100, which is queued on CPU 0, and
    dispatches it. *)
Definition blank_thread : thread_info := Thread 0 None 0 0 UNUSED 0 0 0 0 0 0 0 0 [] Waiting.

Lemma demo_queued : ∃ s, run (replicate 5 (0, Other)) (sched_init ∅) s ∧
  run_queue 0 s = Some [Thr 100] ∧ ∃ s', run [(0, Other); (0, Dispatch 100)] s s'.
Proof.
  eexists. split; [|split].
  - eapply run_cons; [apply (s_create 0 _ None 100 0 7 0 0 [] NO_CPU_AFF blank_thread); vm_compute; reflexivity|].
    eapply run_cons; [eapply (s_wake 0 _ None 100); [reflexivity|eexists; split; vm_compute; reflexivity]|].
    eapply run_cons; [eapply (s_choose 0); [reflexivity|vm_compute; reflexivity]|].
    eapply run_cons; [eapply (s_enqueue 0); [reflexivity|reflexivity|vm_compute; reflexivity]|].
    eapply run_cons; [eapply (s_woken 0); reflexivity|]. apply run_nil.
  - vm_compute. reflexivity.
  - eexists. eapply run_cons; [eapply (s_pick 0 _ 100); vm_compute; reflexivity|].
    eapply run_cons; [eapply (s_dispatch 0); [vm_compute; reflexivity|eexists; split; vm_compute; reflexivity
      |vm_compute; reflexivity]|]. apply run_nil.
Qed.

Lemma sched_exclusive_witness : ∃ s q, run_queue 0 s = Some q ∧ q = [Thr 100] ∧ NoDup q.
Proof.
  destruct demo_queued as (s & Hr & Hq & _).
  destruct (sched_exclusive s) as (_ & _ & H); [by exists ∅, (replicate 5 (0, Other))|].
  destruct (H 0) as (q & Hq' & Hnd & _); [by left|]. exists s, q.
  assert (E : Some q = Some [Thr 100]) by (by rewrite <-Hq'). by injection E as ->.
Defined.

Lemma sched_progress_witness : can_step 3 (sched_init ∅) ∨ ∃ d, waits_for (sched_init ∅) 3 d.
Proof.
  destruct (sched_progress (sched_init ∅) 3) as [?|(d & ? & _)].
  - exists ∅, []. apply run_nil.
  - by do 3 right; left.
  - by left.
  - right. by exists d.
Defined.

Lemma no_starvation_witness : ∃ s s' ls, run ls s s' ∧ dispatches 0 ls = 1%nat ∧ (0, Dispatch 100) ∈ ls.
Proof.
  destruct demo_queued as (s & Hr & Hq & s' & Hr'). exists s, s', [(0, Other); (0, Dispatch 100)].
  split; [done|]. split; [reflexivity|].
  apply (no_starvation s s' _ 0 [Thr 100] 100 0); [by exists ∅, (replicate 5 (0, Other))|by left|done|done|done|].
  vm_compute. lia.
Defined.
