(* ===== verification/Proc.v ===== *)
(** Threads and tasks: the allocation half of kernel/proc.c, and
    [kthread_create] and [user_init]'s neighbours of kernel/sched.c as the
    sequential functions they are.  The theorem ties [kthread_create] to the
    machine of Sched: undisturbed, a call is five of its steps. *)
From S2P Require Import Prelude ListLib StringLib ObjCache Sched.

Section proc.
Context {C : Type} `{ObjCacheLaws C}.

(** The object caches, what memory holds where an object is handed out
    ([raw]; [kmem_cache_alloc] does not clear it), [pid_pool.pids], the tasks,
    and the scheduler's state. *)
Record proc_state := PS {
  task_struct_kmem_cache : C; thread_info_kmem_cache : C; tf_kmem_cache : C;
  raw : Z → thread_info; pids : Z; tasks : gset Z; sch : sched_state;
}.

Definition set_task_cache c s := PS c (thread_info_kmem_cache s) (tf_kmem_cache s) (raw s) (pids s) (tasks s) (sch s).
Definition set_thread_cache c s := PS (task_struct_kmem_cache s) c (tf_kmem_cache s) (raw s) (pids s) (tasks s) (sch s).
Definition set_tf_cache c s :=
  PS (task_struct_kmem_cache s) (thread_info_kmem_cache s) c (raw s) (pids s) (tasks s) (sch s).
Definition set_pids n s :=
  PS (task_struct_kmem_cache s) (thread_info_kmem_cache s) (tf_kmem_cache s) (raw s) n (tasks s) (sch s).
Definition set_tasks t s :=
  PS (task_struct_kmem_cache s) (thread_info_kmem_cache s) (tf_kmem_cache s) (raw s) (pids s) t (sch s).
Definition set_sch x s :=
  PS (task_struct_kmem_cache s) (thread_info_kmem_cache s) (tf_kmem_cache s) (raw s) (pids s) (tasks s) x.

(** [proc_init]. *)
Definition proc_init (s : proc_state) : proc_state := set_pids 0 s.

(** [task_struct_init]: a zeroed [mm], free locks; the task is known by its
    address. *)
Definition task_struct_init (t : Z) : M proc_state unit := modify (λ s, set_tasks ({[t]} ∪ tasks s) s).

Definition set_pid_task (p tsk : Z) (t : thread_info) : thread_info :=
  Thread tsk (lock t) (signal t) (flags t) (state t) p (ticks t) (tf t) (func t) (args t)
    (cpu_affinity t) (ctx_ra t) (ctx_sp t) (name t) (at_ t).
Definition set_ra (ra : Z) (t : thread_info) : thread_info :=
  Thread (task t) (lock t) (signal t) (flags t) (state t) (pid t) (ticks t) (tf t) (func t) (args t)
    (cpu_affinity t) ra (ctx_sp t) (name t) (at_ t).
Definition set_tf (f : Z) (t : thread_info) : thread_info :=
  Thread (task t) (lock t) (signal t) (flags t) (state t) (pid t) (ticks t) f (func t) (args t)
    (cpu_affinity t) (ctx_ra t) (ctx_sp t) (name t) (at_ t).

(** [alloc_thread]: the new thread, still private to the caller, with its
    address; [None] is NULL. *)
Definition alloc_thread : M proc_state (option (Z * thread_info)) :=
  tsk ← zoom task_struct_kmem_cache set_task_cache obj_alloc;
  if tsk =? 0 then mret None else
  t ← zoom thread_info_kmem_cache set_thread_cache obj_alloc;
  if t =? 0 then
    zoom task_struct_kmem_cache set_task_cache (obj_free tsk);;
    mret None
  else
    task_struct_init tsk;;
    old ← gets (λ s, raw s t);
    let th := thread_info_init t old in
    n ← gets pids;
    (if pid th =? 0 then modify (set_pids (i32 (n + 1))) else mret tt);;
    mret (Some (t, set_pid_task (if pid th =? 0 then n else pid th) tsk th)).

Definition proc_alloc_kthread : M proc_state (option (Z * thread_info)) :=
  r ← alloc_thread;
  match r with
  | None => mret None
  | Some (t, th) => mret (Some (t, set_ra thread_entry th))
  end.

Definition alloc_uthread : M proc_state (option (Z * thread_info)) :=
  r ← alloc_thread;
  match r with
  | None => mret None
  | Some (t, th) =>
      f ← zoom tf_kmem_cache set_tf_cache obj_alloc;
      if f =? 0 then panic else mret (Some (t, set_ra forkret (set_tf f th)))
  end.

(** [strncpy(t->name, name, 16)] over the array's old content. *)
Definition copy_name (nm old : list Z) : list Z :=
  let b := strncpy_bytes nm 16 in b ++ drop (length b) old.

(** [wakeup_process] in one go. *)
Definition wakeup_process (c u : Z) : M sched_state unit :=
  s ← get;
  match threads s !! u with
  | Some th =>
      (if decide (lock th = None) then mret tt else λ _, Blocked);;
      modify (map_thread (wake_fields c) u);;
      k ← choose_cpu u;
      l ← gets list_lock;
      (if decide (l !! k = None) then mret tt else λ _, Blocked);;
      enqueue u k;;
      modify (map_thread (set_at (Listed k)) u);;
      modify (map_thread (set_lock None) u)
  | None => fault
  end.

(** [kthread_create], on CPU [c]. *)
Definition kthread_create (c f a : Z) (nm : list Z) (aff : Z) : M proc_state unit :=
  if negb (affinity_ok aff) then mret tt else
  r ← proc_alloc_kthread;
  match r with
  | None => mret tt
  | Some (t, th) =>
      let th := kthread_fields f a (copy_name nm (name th)) aff th in
      zoom sch set_sch (modify (add_thread t (set_at (Claimed c) th));; wakeup_process c t)
  end.

(** * Theorems *)

(** Objects the clients of the three caches hold. *)
Definition caches_rep (s : proc_state) (XT LT XH LH XF LF : gset Z) : Prop :=
  obj_rep (task_struct_kmem_cache s) XT LT ∧ obj_rep (thread_info_kmem_cache s) XH LH ∧
  obj_rep (tf_kmem_cache s) XF LF.

(** The task released by [alloc_thread] when no thread object is left. *)
Definition none_left (c : C) : Prop := ∃ c', obj_alloc c = Done 0 c' ∧ c' = c.

Lemma alloc_thread_ok s XT LT XH LH XF LF :
  caches_rep s XT LT XH LH XF LF → XT ≠ ∅ → XH ≠ ∅ → is_i32 (pids s + 1) →
  ∃ t th tsk s', alloc_thread s = Done (Some (t, th)) s' ∧ t ∈ XH ∧ t ≠ 0 ∧ tsk ∈ XT ∧
    th = set_pid_task (if pid (raw s t) =? 0 then pids s else pid (raw s t)) tsk (thread_info_init t (raw s t)) ∧
    pids s' = (if pid (raw s t) =? 0 then pids s + 1 else pids s) ∧ tasks s' = {[tsk]} ∪ tasks s ∧
    sch s' = sch s ∧ raw s' = raw s ∧
    caches_rep s' (XT ∖ {[tsk]}) ({[tsk]} ∪ LT) (XH ∖ {[t]}) ({[t]} ∪ LH) XF LF.
Proof.
  intros (HT & HH & HF) NT NH Hp.
  destruct (obj_alloc_ok _ _ _ HT NT) as (tsk & cT & ET & Htsk & HT').
  destruct (obj_alloc_ok _ _ _ HH NH) as (t & cH & EH & Ht & HH').
  pose proof (obj_rep_nonnull _ _ _ _ HT Htsk) as Z1. pose proof (obj_rep_nonnull _ _ _ _ HH Ht) as Z2.
  unfold alloc_thread. erewrite bind_Done by (unfold zoom; by rewrite ET).
  destruct (Z.eqb_spec tsk 0); [done|]. erewrite bind_Done by (unfold zoom; simpl; by rewrite EH).
  destruct (Z.eqb_spec t 0); [done|]. cbn. unfold mbind, M_bind, mret, M_ret, modify, gets. cbn.
  destruct (pid (raw s t) =? 0) eqn:Ep; eexists t, _, tsk, _; (split; [done|]); simpl;
    rewrite ?Ep, ?i32_small by done; by split_and!.
Qed.

(** The fields of a thread that [alloc_thread] made at [t], where memory held
    [old]: [state] and [name] are whatever was there, and so is a non-zero pid. *)
Record blank_at (t tsk newpid : Z) (old th : thread_info) : Prop := BlankAt {
  ba_task : task th = tsk; ba_lock : lock th = None; ba_signal : signal th = 0; ba_flags : flags th = 0;
  ba_state : state th = state old; ba_pid : pid th = (if decide (pid old = 0) then newpid else pid old);
  ba_ticks : ticks th = 10; ba_tf : tf th = 0; ba_func : func th = 0; ba_args : args th = 0;
  ba_aff : cpu_affinity th = -1; ba_ra : ctx_ra th = 0; ba_sp : ctx_sp th = (t + 8192 - 16) mod 2 ^ 64;
  ba_name : name th = name old;
}.
Lemma blank_at_init t tsk n old :
  blank_at t tsk n old (set_pid_task (if pid old =? 0 then n else pid old) tsk (thread_info_init t old)).
Proof. split; try done. simpl. by destruct (Z.eqb_spec (pid old) 0); case_decide. Qed.

Lemma alloc_thread_no_task s : none_left (task_struct_kmem_cache s) → alloc_thread s = Done None s.
Proof.
  intros (c' & E & ->). unfold alloc_thread. erewrite bind_Done by (unfold zoom; by rewrite E). by destruct s.
Qed.

Lemma alloc_thread_no_thread s XT LT XH LH XF LF :
  caches_rep s XT LT XH LH XF LF → XT ≠ ∅ → none_left (thread_info_kmem_cache s) →
  ∃ s', alloc_thread s = Done None s' ∧ caches_rep s' XT LT XH LH XF LF ∧
    pids s' = pids s ∧ tasks s' = tasks s ∧ sch s' = sch s.
Proof.
  intros (HT & HH & HF) NT (c' & E0 & ->).
  destruct (obj_alloc_ok _ _ _ HT NT) as (tsk & cT & ET & Htsk & HT').
  pose proof (obj_rep_nonnull _ _ _ _ HT Htsk) as Z1.
  destruct (obj_free_ok _ _ _ tsk HT') as (cT' & EF & HT''); [set_solver|].
  assert (Ea : alloc_thread s = Done None (set_task_cache cT' (set_task_cache cT s))).
  { unfold alloc_thread. erewrite bind_Done by (unfold zoom; by rewrite ET).
    destruct (Z.eqb_spec tsk 0); [done|]. erewrite bind_Done by (unfold zoom; simpl; by rewrite E0).
    rewrite Z.eqb_refl. erewrite bind_Done by (unfold zoom; simpl; by rewrite EF). done. }
  eexists. split; [exact Ea|]. split_and!; [|done..].
  split; [|done]. pose proof (obj_rep_disjoint _ _ _ HT).
  replace XT with ({[tsk]} ∪ XT ∖ {[tsk]}) by (apply set_eq; intros x; destruct (decide (x = tsk)); set_solver).
  replace LT with (({[tsk]} ∪ LT) ∖ {[tsk]}) by set_solver. simpl.
  replace (({[tsk]} ∪ XT ∖ {[tsk]}) ∖ {[tsk]}) with (XT ∖ {[tsk]}) in HT'' by set_solver. done.
Qed.

Lemma kthread_create_none c f a nm aff s s' :
  alloc_thread s = Done None s' → kthread_create c f a nm aff s = Done tt (if affinity_ok aff then s' else s).
Proof.
  intros Ea. unfold kthread_create. destruct (affinity_ok aff); simpl; [|done].
  unfold proc_alloc_kthread. erewrite bind_Done by (by erewrite bind_Done by exact Ea). done.
Qed.


(** [choose_cpu] and [enqueue] do not look at what the CPUs do. *)
Lemma choose_cpu_frame c b p u k n (s : sched_state) :
  choose_cpu u (set_cpu c b p s) = Done k (set_load n (set_cpu c b p s)) →
  choose_cpu u s = Done k (set_load n s) ∧
  ∀ th, threads s !! u = Some th → cpu_affinity th ≠ NO_CPU_AFF → k = cpu_affinity th.
Proof.
  unfold choose_cpu. simpl. destruct (threads s !! u) as [th|]; [|done].
  destruct (Z.eqb_spec (cpu_affinity th) NO_CPU_AFF); intros [= <- Hn].
  - simplify_eq. split; [done|]. by intros ? [= <-].
  - split; [destruct s; simpl in *; by rewrite Hn|]. by intros ? [= <-].
Qed.
Lemma enqueue_frame c b p u k h (s : sched_state) :
  enqueue u k (set_cpu c b p s) = Done tt (set_links h (set_cpu c b p s)) → enqueue u k s = Done tt (set_links h s).
Proof.
  unfold enqueue, update. simpl. destruct (list_add_head _ _ _) as [h0|]; simpl; [|done]. by intros [= ->].
Qed.

(** Undisturbed, [wakeup_process] is four steps of the machine. *)
Lemma wakeup_process_run (w : sched_state) σ c b u th :
  inv (set_cpu c b (WakeWant b u) w) σ → threads w !! u = Some th → lock th = None → list_lock w = ∅ →
  ∃ k w', wakeup_process c u w = Done tt w' ∧
    run (replicate 4 (c, Other)) (set_cpu c b (WakeWant b u) w) (set_cpu c b (base b) w') ∧
    threads w' !! u = Some (set_lock None (set_at (Listed k) (wake_fields c th))) ∧ cpus w' = cpus w ∧
    (cpu_affinity th ≠ NO_CPU_AFF → k = cpu_affinity th) ∧ (Thr u) ∈ default [] (run_queue k w').
Proof.
  intros I1 Et1 El Hll. set (z1 := set_cpu c b (WakeWant b u) w) in *.
  assert (Hset : ∀ b1 p1 b2 p2 (s : sched_state), set_cpu c b1 p1 (set_cpu c b2 p2 s) = set_cpu c b1 p1 s).
  { intros. unfold set_cpu. simpl. by rewrite insert_insert_eq. }
  assert (Hcpu : ∀ b1 p1 (s : sched_state), cpus (set_cpu c b1 p1 s) !! c = Some (Cpu b1 p1)) by (intros; apply lookup_insert_eq).
  assert (U1 : unlocked u z1) by (by exists th).
  pose proof (s_wake c z1 b u (Hcpu _ _ _) U1) as S2. pose proof (inv_wake z1 σ c b u I1 (Hcpu _ _ _) U1) as I2.
  set (w2 := map_thread (wake_fields c) u w).
  assert (E2 : map_thread (wake_fields c) u (set_cpu c b (Add (Wake b) u) z1) = set_cpu c b (Add (Wake b) u) w2).
  { unfold z1. by rewrite Hset. }
  rewrite E2 in S2, I2.
  assert (Et2 : threads w2 !! u = Some (wake_fields c th)).
  { change (alter (wake_fields c) u (threads w) !! u = Some (wake_fields c th)). by rewrite lookup_alter_eq, Et1. }
  destruct (choose_cpu_ok _ σ I2 u _ Et2) as (k & n & Ek & Hk & Hn).
  destruct (choose_cpu_frame _ _ _ _ _ _ _ Ek) as [Ek' Haff].
  pose proof (s_choose c _ _ b (Wake b) u k (Hcpu _ _ _) Ek) as S3.
  pose proof (inv_choose _ σ c b (Wake b) u k _ I2 (Hcpu _ _ _) Ek) as I3.
  set (w3 := set_load n w2).
  change (set_load n (set_cpu c b (Add (Wake b) u) w2)) with (set_cpu c b (Add (Wake b) u) w3) in S3, I3.
  rewrite Hset in S3, I3. destruct (run_list _ σ I3 k Hk) as [xs Exs].
  destruct (enqueue_ok _ σ I3 u (wake_fields c th) k xs Et2) as (h' & Ee & _); [|done|].
  { pose proof (k_pair _ _ (i_core _ _ I3) c _ u _ (Hcpu _ _ _) Et2) as [_ P2 _ _ _ _ _].
    apply (not_place _ c). right. by apply P2. }
  assert (L3 : list_lock (set_cpu c b (AddTo (Wake b) u k) w3) !! k = None) by (simpl; by rewrite Hll).
  pose proof (s_enqueue c _ _ b (Wake b) u k (Hcpu _ _ _) L3 Ee) as S4.
  destruct (inv_enqueue _ σ c b (Wake b) u k _ I3 (Hcpu _ _ _) L3 Ee) as (xs' & _ & I4).
  set (w4 := map_thread (set_at (Listed k)) u (set_links h' w3)).
  change (set_links h' (set_cpu c b (AddTo (Wake b) u k) w3)) with (set_cpu c b (AddTo (Wake b) u k) (set_links h' w3)) in S4, I4.
  rewrite Hset in S4, I4.
  change (map_thread (set_at (Listed k)) u (set_cpu c b (Added (Wake b) u) (set_links h' w3)))
    with (set_cpu c b (Added (Wake b) u) w4) in S4, I4.
  pose proof (s_woken c _ b b u (Hcpu _ _ _) : step c Other (set_cpu c b (Added (Wake b) u) w4) _) as S5.
  pose proof (inv_woken _ _ c b b u I4 (Hcpu _ _ _)) as I5. rewrite Hset in S5, I5.
  set (w5 := map_thread (set_lock None) u w4).
  change (map_thread (set_lock None) u (set_cpu c b (base b) w4)) with (set_cpu c b (base b) w5) in S5, I5.
  exists k, w5. split_and!.
  - unfold wakeup_process. unfold mbind, M_bind. cbn [get]. rewrite Et1, decide_True by done.
    cbn [mret M_ret modify]. fold w2. rewrite Ek'. fold w3. cbn [gets].
    rewrite decide_True by (simpl; by rewrite Hll). cbn [mret M_ret]. by rewrite (enqueue_frame _ _ _ _ _ _ _ Ee).
  - simpl. do 4 (eapply run_cons; [done|]). apply run_nil.
  - change (alter (set_lock None) u (alter (set_at (Listed k)) u (threads w2)) !! u =
      Some (set_lock None (set_at (Listed k) (wake_fields c th)))). by rewrite !lookup_alter_eq, Et2.
  - done.
  - apply (Haff _ Et2).
  - change (run_queue k w5) with (run_queue k (set_cpu c b (base b) w5)).
    rewrite (run_queue_ok _ _ k _ I5 (lookup_insert_eq _ _ _)). simpl. rewrite elem_of_reverse. by left.
Qed.

(** C32: Undisturbed, [kthread_create] is five steps of the scheduler's machine:
    the new thread, with the function, argument and affinity it was given and
    its stack at the top of its two pages, ends up in a run queue, that of its
    own CPU when it has an affinity. *)
Theorem kthread_create_refines (s : proc_state) XT LT XH LH XF LF c b f a nm aff :
  caches_rep s XT LT XH LH XF LF → XT ≠ ∅ → XH ≠ ∅ → is_i32 (pids s + 1) →
  reachable (sch s) → cpus (sch s) !! c = Some (Cpu b (base b)) → list_lock (sch s) = ∅ →
  (∀ t, t ∈ XH → threads (sch s) !! t = None) → affinity_ok aff = true →
  ∃ t s', kthread_create c f a nm aff s = Done tt s' ∧ t ∈ XH ∧
    run (replicate 5 (c, Other)) (sch s) (sch s') ∧
    ∃ th k, threads (sch s') !! t = Some th ∧ func th = f ∧ args th = a ∧ cpu_affinity th = aff ∧
      ctx_ra th = thread_entry ∧ ctx_sp th = Kernel_stack_top t ∧
      (aff ≠ NO_CPU_AFF → k = aff) ∧ (Thr t) ∈ default [] (run_queue k (sch s')).
Proof.
  intros Hcaches NT NH Hp Hreach Ex Hll Hfresh Ha.
  destruct (alloc_thread_ok s _ _ _ _ _ _ Hcaches NT NH Hp)
    as (t & th & tsk & s1 & Ea & Ht & Ht0 & _ & Hth & _ & _ & Hsch & _ & _).
  specialize (Hfresh t Ht). destruct (sched_inv_reachable _ Hreach) as [σ Hi].
  set (new := set_at (Claimed c) (kthread_fields f a (copy_name nm (name th)) aff
    (alloc_kthread t tsk (pids s) (raw s t)))).
  pose proof (s_create c (sch s) b t tsk (pids s) f a (copy_name nm (name th)) aff (raw s t) Ex Hfresh Ha) as S1.
  pose proof (inv_create (sch s) σ c b t tsk (pids s) f a (copy_name nm (name th)) aff (raw s t) Hi Ex Hfresh Ha) as I1.
  fold new in S1, I1. set (w := add_thread t new (sch s)) in *.
  destruct (wakeup_process_run w σ c b t new I1) as (k & w' & Ew & Hr & Et & Ecpu & Haff & Hin);
    [apply lookup_insert_eq|done|done|].
  assert (Ew' : set_cpu c b (base b) w' = w').
  { destruct w'; unfold set_cpu; simpl in *. rewrite Ecpu, insert_id by done. done. }
  rewrite Ew' in Hr. exists t, (set_sch w' s1). split_and!; [|done| |].
  - unfold kthread_create. rewrite Ha. change (negb true) with false. cbv iota.
    unfold proc_alloc_kthread. erewrite bind_Done by (by erewrite bind_Done by exact Ea). cbv beta iota.
    unfold zoom. cbv beta. rewrite Hsch. erewrite bind_Done by done. cbv beta.
    replace (add_thread t _ (sch s)) with w by (unfold w, new; subst th; done). by rewrite Ew.
  - simpl. eapply run_cons; done.
  - exists (set_lock None (set_at (Listed k) (wake_fields c new))), k. by split_and!.
Qed.
End proc.
Arguments proc_state : clear implicits.

Definition demo_procs (threads_left : list Z) : proc_state stock :=
  PS (Stock [8] ∅) (Stock threads_left ∅) (Stock [] ∅) (λ _, blank_thread) 1 ∅ (sched_init ∅).

Lemma demo_procs_rep l : NoDup l → 0 ∉ l →
  caches_rep (demo_procs l) {[8]} ∅ (list_to_set l) ∅ ∅ ∅.
Proof.
  intros Hn H0. split; [|split]; simpl; split_and!; try done; try set_solver; try by apply NoDup_singleton. constructor.
Qed.


Lemma kthread_create_refines_witness :
  ∃ t s', kthread_create 0 7 0 [] 2 (demo_procs [4096]) = Done tt s' ∧
    ∃ th, threads (sch s') !! t = Some th ∧ func th = 7 ∧ cpu_affinity th = 2.
Proof.
  destruct (kthread_create_refines (demo_procs [4096]) {[8]} ∅ {[4096]} ∅ ∅ ∅ 0 None 7 0 [] 2)
    as (t & s' & E & _ & _ & th & k & Et & Hf & _ & Ha & _).
  - apply (demo_procs_rep [4096]); [by apply NoDup_singleton|by intros ?%list_elem_of_singleton].
  - set_solver.
  - set_solver.
  - unfold is_i32. simpl. lia.
  - exists ∅, []. apply run_nil.
  - reflexivity.
  - reflexivity.
  - done.
  - reflexivity.
  - exists t, s'. eauto.
Defined.
