(* ===== verification/Work.v ===== *)
(** The per-CPU work queues of kernel/work.c.

    A work is pushed on the queue of the current CPU, usually from a timer
    interrupt, and taken by the handler thread of that CPU, which waits on the
    queue's semaphore.  Threads that [sem_signal] hands to [wakeup_process],
    and threads the component creates, appear in [calls], the calls made to
    the scheduler (Sched, Proc), in order. *)
From S2P Require Import Prelude ListLib Containers Semaphore ObjCache Sched.

Inductive call := WakeupProcess (t : Z) | KthreadCreate (func args : Z) (aff : Z).
#[global] Instance call_eq_dec : EqDecision call.
Proof. solve_decision. Defined.

(** List nodes: the head in [work_queue[c].queue], the field of a work. *)
Inductive wlink := Queue (c : Z) | Work (w : Z).
#[global] Instance wlink_eq_dec : EqDecision wlink.
Proof. solve_decision. Defined.
#[global] Instance wlink_countable : Countable wlink.
Proof.
  refine (inj_countable' (λ l, match l with Queue c => (true, c) | Work w => (false, w) end)
    (λ p, if p.1 : bool then Queue p.2 else Work p.2) _).
  by intros [].
Defined.

Record work_queue_struct := WQ { queue : Fifo.fifo wlink; count : semaphore }.

Section work.
Context {K : Type} `{ObjCacheLaws K}.

(** [works] gives [func] and [args] of the allocated works. *)
Record work_state := WS {
  work_queue : gmap Z work_queue_struct; wlinks : gmap wlink (node wlink);
  works : gmap Z (Z * Z); wkmc : K; calls : list call;
}.
Definition set_queue c q s := WS (<[c := q]> (work_queue s)) (wlinks s) (works s) (wkmc s) (calls s).
Definition set_wlinks h s := WS (work_queue s) h (works s) (wkmc s) (calls s).
Definition set_works m s := WS (work_queue s) (wlinks s) m (wkmc s) (calls s).
Definition set_wkmc k s := WS (work_queue s) (wlinks s) (works s) k (calls s).
Definition add_call x s := WS (work_queue s) (wlinks s) (works s) (wkmc s) (calls s ++ [x]).

Definition work_alloc (func args : Z) : M work_state Z :=
  w ← zoom wkmc set_wkmc obj_alloc;
  if w =? 0 then mret 0 else
  modify (λ s, set_wlinks (INIT_LIST_HEAD (Work w) (wlinks s)) (set_works (<[w := (func, args)]> (works s)) s));;
  mret w.

Definition work_free (w : Z) : M work_state unit :=
  zoom wkmc set_wkmc (obj_free w);; modify (λ s, set_works (delete w (works s)) s).

(** [work_queue_init] for one CPU; the handler thread is bound to it.
    [kthread_work_handler] stands for that function's address. *)
Definition kthread_work_handler_addr : Z := 3.
Definition work_queue_init1 (c : Z) : M work_state unit := λ s,
  let '(q, h) := Fifo.fifo_init (Queue c) (wlinks s) in
  Done tt (add_call (KthreadCreate kthread_work_handler_addr 0 c)
    (set_queue c (WQ q (sem_init 0)) (set_wlinks h s))).
Fixpoint work_queue_init_loop (cs : list Z) : M work_state unit :=
  match cs with
  | [] => mret tt
  | c :: cs => work_queue_init1 c;; work_queue_init_loop cs
  end.
Definition work_queue_init : M work_state unit := work_queue_init_loop cpu_ids.

(** [sem_signal(&work_queue[c].count)]. *)
Definition count_signal (c : Z) : M work_state unit :=
  q ← deref (λ s, work_queue s !! c);
  match sem_signal (count q) with
  | None => panic
  | Some (m, w) =>
      modify (set_queue c (WQ (queue q) m));;
      match w with Some t => modify (add_call (WakeupProcess t)) | None => mret tt end
  end.

Definition work_queue_push (c func args : Z) : M work_state unit :=
  w ← work_alloc func args;
  if w =? 0 then mret tt else
  q ← deref (λ s, work_queue s !! c);
  update (λ s, '(f, h) ← Fifo.fifo_push (queue q) (Work w) (wlinks s);
    Some (set_queue c (WQ f (count q)) (set_wlinks h s)));;
  count_signal c.

(** [sem_wait] of [work_queue_pop]: [true] when the handler [t] has to sleep. *)
Definition work_wait (c t : Z) : M work_state bool :=
  q ← deref (λ s, work_queue s !! c);
  let '(m, b) := sem_wait t (count q) in
  modify (set_queue c (WQ (queue q) m));; mret b.
(** The rest of [work_queue_pop], once [sem_wait] has returned; [None] is NULL. *)
Definition work_take (c : Z) : M work_state (option Z) :=
  q ← deref (λ s, work_queue s !! c);
  r ← update_ret (λ s, '(r, f, h) ← Fifo.fifo_pop (queue q) (wlinks s);
    Some (r, set_queue c (WQ f (count q)) (set_wlinks h s)));
  match r with Some (Work w) => mret (Some w) | Some _ => fault | None => mret None end.
(** The rest of the body of [kthread_work_handler]: call the function of the work,
    then free the work.  [run] is the call through the pointer; it acts on a
    state [T] that the work queues are part of. *)
Section handler.
Context {T : Type} (rd : T → work_state) (wr : work_state → T → T) (run : Z → Z → M T unit).
Definition work_call (w : Z) : M T unit :=
  fa ← deref (λ s, works (rd s) !! w);
  run fa.1 fa.2;;
  zoom rd wr (work_free w).
(** The body of the loop after [sem_wait]. *)
Definition work_handle (c : Z) : M T unit :=
  r ← zoom rd wr (work_take c);
  match r with None => fault | Some w => work_call w end.
End handler.

(** * Correctness *)

(** CPU [c] has the works [ws] queued, oldest first; [sleeping] is the handler
    when it waits; [granted] is 1 when the handler has been let through
    [sem_wait] and has not taken its work yet.  The semaphore counts the other
    works. *)
Definition queue_ok (c : Z) (ws : list Z) (sleeping : option Z) (granted : Z) (s : work_state) : Prop :=
  ∃ f m, work_queue s !! c = Some (WQ f m) ∧ Fifo.f_list f = Queue c ∧
    Fifo.fifo_repr f (wlinks s) (Work <$> ws) ∧ sem_ok m ∧
    waiters m = option_list sleeping ∧ Z.of_nat (length ws) = permits m + granted ∧ 0 <= granted ∧
    (∀ w, w ∈ ws → is_Some (works s !! w)).

Definition mem_ok (X L : gset Z) (s : work_state) : Prop :=
  obj_rep (wkmc s) X L ∧ (∀ w, is_Some (works s !! w) → w ∈ L).


Lemma work_alloc_ok func args X L s :
  mem_ok X L s → X ≠ ∅ → ∃ w k', w ∈ X ∧ w ≠ 0 ∧ works s !! w = None ∧
    let s' := set_wlinks (INIT_LIST_HEAD (Work w) (wlinks s)) (set_works (<[w := (func, args)]> (works s)) (set_wkmc k' s)) in
    work_alloc func args s = Done w s' ∧ mem_ok (X ∖ {[w]}) ({[w]} ∪ L) s'.
Proof.
  intros [Hk HL] HX. destruct (obj_alloc_ok _ _ _ Hk HX) as (w & k' & Ea & Hwx & Hk').
  pose proof (obj_rep_nonnull _ _ _ _ Hk Hwx) as Hw0. pose proof (obj_rep_disjoint _ _ _ Hk) as Hdis.
  exists w, k'. split; [done|]. split; [done|]. split; [|intros s'; split].
  - apply eq_None_not_Some. intros Hs%HL. set_solver.
  - unfold work_alloc. erewrite bind_Done by (unfold zoom; by rewrite Ea).
    rewrite (proj2 (Z.eqb_neq _ _) Hw0). done.
  - split; [done|]. simpl. intros w'. rewrite lookup_insert_is_Some. intros [<-|[_ ?%HL]]; set_solver.
Qed.

(** The calls a signal makes: it wakes the handler when that sleeps. *)
Definition push_calls (sleeping : option Z) : list call :=
  match sleeping with Some t => [WakeupProcess t] | None => [] end.

Lemma count_signal_ok c f m sleeping s :
  work_queue s !! c = Some (WQ f m) → sem_ok m → waiters m = option_list sleeping → value m + 1 < 2 ^ 31 - 1 →
  ∃ m' s', count_signal c s = Done tt s' ∧ sem_ok m' ∧ waiters m' = [] ∧
    permits m' = permits m + (if sleeping is Some _ then 0 else 1) ∧
    work_queue s' = <[c := WQ f m']> (work_queue s) ∧ calls s' = calls s ++ push_calls sleeping ∧
    wlinks s' = wlinks s ∧ works s' = works s ∧ wkmc s' = wkmc s.
Proof.
  intros Eq Hm Hw Hb. destruct (sem_signal_spec m Hm) as (m' & wk & Es & Hv & Hm' & Hcase).
  specialize (Hm' Hb). unfold count_signal. erewrite bind_Done by (unfold deref; by rewrite Eq).
  simpl. rewrite Es. exists m'. erewrite bind_Done by done. rewrite Hw in Hcase.
  destruct sleeping as [t|]; simpl in Hcase.
  - destruct Hcase as (t' & us & [= <- <-] & -> & Hw' & Hp'). eexists. split; [done|]. simpl. split_and!; try done. lia.
  - destruct Hcase as (-> & Hw' & Hp'). eexists. split; [done|]. simpl. rewrite app_nil_r. by split_and!.
Qed.

Definition grant (sleeping : option Z) (granted : Z) : Z :=
  match sleeping with Some _ => granted + 1 | None => granted end.

Lemma work_queue_push_ok c func args ws sleeping g X L s :
  queue_ok c ws sleeping g s → mem_ok X L s → X ≠ ∅ → Z.of_nat (length ws) < 2 ^ 31 - 2 →
  ∃ w s', work_queue_push c func args s = Done tt s' ∧ w ∈ X ∧ mem_ok (X ∖ {[w]}) ({[w]} ∪ L) s' ∧
    works s' = <[w := (func, args)]> (works s) ∧ calls s' = calls s ++ push_calls sleeping ∧
    works s !! w = None ∧ queue_ok c (ws ++ [w]) None (grant sleeping g) s'.
Proof.
  intros (f & m & Eq & Ef & Hf & Hm & Hw & Hp & Hg & Hin) Hmem HX Hb.
  destruct (work_alloc_ok func args X L s Hmem HX) as (w & k' & Hwx & Hw0 & Hnew & Ea & Hmem').
  assert (Hnin : Work w ∉ Queue c :: (Work <$> ws)).
  { rewrite elem_of_cons, list_elem_of_fmap. intros [?|(w' & [= <-] & Hw')]; [done|].
    apply Hin in Hw' as [? ?]. congruence. }
  set (h1 := INIT_LIST_HEAD (Work w) (wlinks s)) in *.
  assert (Hf1 : Fifo.fifo_repr f h1 (Work <$> ws)).
  { destruct Hf as [Hd Hs]. split; [|done]. rewrite Ef in *. destruct Hd as [Hnd Hpa]. split; [done|].
    eapply path_frame; [|exact Hpa]. intros q Hq. unfold h1, INIT_LIST_HEAD. rewrite lookup_insert_ne; [done|].
    intros <-. apply Hnin. clear -Hq. set_solver. }
  destruct (Fifo.fifo_push_repr f (Work w) h1 (Work <$> ws) Hf1) as (f' & h' & Epush & Hf' & Ef' & _);
    [by rewrite Ef|unfold h1, INIT_LIST_HEAD; rewrite lookup_insert_eq; eauto|].
  assert (Hb' : value m + 1 < 2 ^ 31 - 1) by (unfold permits in Hp; lia).
  match type of Ea with _ = Done _ ?x => set (s1 := x) in * end.
  set (s2 := set_queue c (WQ f' m) (set_wlinks h' s1)).
  destruct (count_signal_ok c f' m sleeping s2) as (m' & s3 & Es & Hm' & Hw' & Hp' & Q1 & Q2 & Q3 & Q4 & Q5);
    [apply lookup_insert_eq|done|done|done|].
  exists w, s3. split_and!.
  - unfold work_queue_push. erewrite bind_Done by exact Ea. rewrite (proj2 (Z.eqb_neq _ _) Hw0).
    erewrite bind_Done by (unfold deref; simpl; by rewrite Eq). simpl queue.
    erewrite bind_Done by (unfold update; change (wlinks s1) with h1; rewrite Epush; done). exact Es.
  - done.
  - destruct Hmem' as [M1 M2]. split; [by rewrite Q5|by rewrite Q4].
  - by rewrite Q4.
  - by rewrite Q2.
  - done.
  - exists f', m'. rewrite Q1, Q3. split_and!; [apply lookup_insert_eq|congruence| |done|done| | |].
    + by rewrite fmap_app.
    + rewrite length_app. simpl. destruct sleeping; simpl in *; lia.
    + destruct sleeping; simpl; lia.
    + intros v. rewrite Q4. simpl. rewrite elem_of_app, list_elem_of_singleton, lookup_insert_is_Some'.
      intros [?%Hin| ->]; auto.
Qed.

(** ** The handler *)

Lemma work_wait_ok c t ws X L s :
  queue_ok c ws None 0 s → mem_ok X L s →
  ∃ s', work_wait c t s = Done (bool_decide (ws = [])) s' ∧
    queue_ok c ws (if decide (ws = []) then Some t else None) (if decide (ws = []) then 0 else 1) s' ∧
    mem_ok X L s' ∧ works s' = works s ∧ calls s' = calls s.
Proof.
  intros (f & m & Eq & Ef & Hf & Hok & Hwt & Hp & _ & Hin) Hm.
  pose proof (sem_wait_spec t m Hok ltac:(rewrite Hwt; apply not_elem_of_nil)) as Hs.
  unfold work_wait. destruct (sem_wait t m) as [m' b] eqn:Em. destruct Hs as (Hv & Hok' & Hb & Hwt' & Hp').
  assert (Hperm : permits m = 0 ↔ ws = []).
  { rewrite Z.add_0_r in Hp. rewrite <-Hp. by destruct ws. }
  exists (set_queue c (WQ f m') s). split; [|split; [|by split_and!]].
  - erewrite bind_Done by (unfold deref; by rewrite Eq). change (count (WQ f m)) with m. rewrite Em, Hb.
    by rewrite (bool_decide_ext _ _ Hperm).
  - exists f, m'. simpl. rewrite lookup_insert_eq.
    assert (Hmin : - 2 ^ 31 < value m - 1) by (destruct Hok as (Hl & _ & _); rewrite Hwt in Hl; simpl in Hl; lia).
    rewrite Hwt in Hwt'. rewrite Hwt'. rewrite (bool_decide_ext _ _ Hperm) in Hb. subst b.
    destruct (decide (ws = [])) as [->|Hne].
    + rewrite bool_decide_eq_true_2 in * by done. split_and!; try done; [by apply Hok'|]. rewrite Hp'. simpl in *. lia.
    + rewrite bool_decide_eq_false_2 in * by done. split_and!; try done; [by apply Hok'|]. rewrite Hp'.
      lia.
Qed.

Lemma work_take_ok c w ws sl g X L s :
  queue_ok c (w :: ws) sl g s → 0 < g → mem_ok X L s →
  ∃ s', work_take c s = Done (Some w) s' ∧ queue_ok c ws sl (g - 1) s' ∧ mem_ok X L s' ∧ works s' = works s ∧
    calls s' = calls s.
Proof.
  intros (f & m & Eq & Ef & Hf & Hok & Hwt & Hp & Hg & Hin) Hg' Hm.
  destruct (Fifo.fifo_pop_repr f (wlinks s) _ Hf) as (f' & h' & Epop & Hf' & Ef' & _). simpl in Epop, Hf'.
  exists (set_queue c (WQ f' m) (set_wlinks h' s)). split; [|split; [|by split_and!]].
  - unfold work_take. erewrite bind_Done by (unfold deref; by rewrite Eq). simpl queue.
    erewrite bind_Done by (unfold update_ret; rewrite Epop; done). done.
  - exists f', m. simpl. rewrite lookup_insert_eq. split_and!; try done; [congruence|simpl in Hp; lia|lia|].
    intros v Hv. apply Hin. by right.
Qed.

Lemma work_free_ok w X L s :
  mem_ok X L s → w ∈ L → ∃ k, work_free w s = Done tt (set_works (delete w (works s)) (set_wkmc k s)) ∧
    mem_ok ({[w]} ∪ X) (L ∖ {[w]}) (set_works (delete w (works s)) (set_wkmc k s)).
Proof.
  intros [Hk HL] Hw. destruct (obj_free_ok _ _ _ w Hk Hw) as (k & E & Hk'). exists k. split.
  - unfold work_free. by erewrite bind_Done by (unfold zoom; simpl; by rewrite E).
  - split; [done|]. simpl. intros v. rewrite lookup_delete_is_Some. intros [Hne ?%HL]. set_solver.
Qed.

(** The queue does not look at the memory of works that are not on it. *)
Lemma queue_ok_free c ws sl g w k s :
  queue_ok c ws sl g s → w ∉ ws → queue_ok c ws sl g (set_works (delete w (works s)) (set_wkmc k s)).
Proof.
  intros (f & m & ? & ? & ? & ? & ? & ? & ? & Hin) Hw. exists f, m. split_and!; try done.
  intros v Hv. simpl. rewrite lookup_delete_ne; [by apply Hin|]. by intros ->.
Qed.

(** ** Serving under every interleaving

    The machine of one CPU: its interrupts push works, and its handler [t] takes
    its next stretch, in any order.  A stretch ends before [sem_wait], before
    [fifo_pop] and before the call of the work; a push comes between two
    stretches, never inside [fifo_pop] (see [pop_interrupted_loses]).  The calls
    are recorded in a journal. *)
Inductive handler_phase := Ready | Asleep | Granted | Holding (w : Z).
Inductive work_op := Push (func args : Z) | Handler.

Definition journalled : Type := work_state * list (Z * Z).
Definition note_call (f a : Z) : M journalled unit := modify (λ s, (s.1, s.2 ++ [(f, a)])).
Definition on_work {A} (m : M work_state A) : M journalled A := zoom fst (λ w s, (w, s.2)) m.

Definition handler_step (c t : Z) (p : handler_phase) : M journalled handler_phase :=
  match p with
  | Ready => b ← on_work (work_wait c t); mret (if b : bool then Asleep else Granted)
  | Asleep => mret Asleep     (* not runnable *)
  | Granted => r ← on_work (work_take c); match r with Some w => mret (Holding w) | None => fault end
  | Holding w => work_call fst (λ w s, (w, s.2)) note_call w;; mret Ready
  end.
(** A push; the handler can run again when the push called [wakeup_process] on it. *)
Definition push_step (c t f a : Z) (p : handler_phase) : M journalled handler_phase :=
  s ← get;
  on_work (work_queue_push c f a);;
  s' ← get;
  mret (if decide (WakeupProcess t ∈ drop (length (calls s.1)) (calls s'.1)) then Granted else p).
Fixpoint work_run (c t : Z) (os : list work_op) (p : handler_phase) : M journalled handler_phase :=
  match os with
  | [] => mret p
  | o :: os =>
      p ← match o with Push f a => push_step c t f a p | Handler => handler_step c t p end;
      work_run c t os p
  end.

(** The jobs pushed, in order. *)
Definition pushed (os : list work_op) : list (Z * Z) :=
  omap (λ o, match o with Push f a => Some (f, a) | Handler => None end) os.

Definition in_hand (p : handler_phase) : list Z := match p with Holding w => [w] | _ => [] end.
Definition sleeper (t : Z) (p : handler_phase) : option Z := match p with Asleep => Some t | _ => None end.
Definition permit (p : handler_phase) : Z := match p with Granted => 1 | _ => 0 end.

(** [ps] are the jobs pushed so far; [ws] the works queued. *)
Record served (c t : Z) (s0 : work_state) (X L : gset Z) (ps : list (Z * Z)) (p : handler_phase) (ws : list Z)
    (s : journalled) : Prop := Served {
  sv_queue : queue_ok c ws (sleeper t p) (permit p) s.1;
  sv_asleep : p = Asleep → ws = [];
  sv_nodup : NoDup (in_hand p ++ ws);
  sv_sub : ∀ w, w ∈ in_hand p ++ ws → w ∈ X;
  sv_mem : mem_ok (X ∖ list_to_set (in_hand p ++ ws)) (list_to_set (in_hand p ++ ws) ∪ L) s.1;
  sv_jobs : ∃ js, Forall2 (λ w j, works s.1 !! w = Some j) (in_hand p ++ ws) js ∧ ps = s.2 ++ js;
  sv_rest : ∀ w, w ∉ in_hand p ++ ws → works s.1 !! w = works s0 !! w;
}.

Lemma served_init c t X L s :
  queue_ok c [] None 0 s → mem_ok X L s → served c t s X L [] Ready [] (s, []).
Proof.
  intros Hq Hm. split; try done; simpl.
  - constructor.
  - by intros w ?%elem_of_nil.
  - by rewrite difference_empty_L, union_empty_l_L.
  - exists []. split; [constructor|done].
Qed.

Lemma jobs_frame (m m' : gmap Z (Z * Z)) l js :
  Forall2 (λ w j, m !! w = Some j) l js → (∀ w, w ∈ l → m' !! w = m !! w) → Forall2 (λ w j, m' !! w = Some j) l js.
Proof.
  induction 1 as [|w j l js Hj _ IH]; intros Hm; constructor.
  - rewrite Hm; [done|by left].
  - apply IH. intros v Hv. apply Hm. by right.
Qed.

(** A journalled computation on the works alone. *)
Lemma on_work_ok {A} (m : M work_state A) a (s : journalled) w : m s.1 = Done a w → on_work m s = Done a (w, s.2).
Proof. intros E. unfold on_work, zoom. by rewrite E. Qed.

Lemma served_push c t s0 X L ps p ws f a s :
  served c t s0 X L ps p ws s → (length (in_hand p ++ ws) < size X)%nat → Z.of_nat (length ws) < 2 ^ 31 - 2 →
  ∃ w p' s', push_step c t f a p s = Done p' s' ∧ served c t s0 X L (ps ++ [(f, a)]) p' (ws ++ [w]) s'.
Proof.
  intros [Hq Hsl Hnd Hsub Hm (js & Hjs & Hps) Hrest] HX Hb. set (l := in_hand p ++ ws) in *.
  assert (HX' : X ∖ list_to_set l ≠ ∅).
  { intros E. assert (Hl : X ⊆ list_to_set l) by (intros v Hv; destruct (decide (v ∈ (list_to_set l : gset Z))) as [?|Hn]; [done|]; exfalso; apply (not_elem_of_empty (C := gset Z) v); rewrite <-E; by apply elem_of_difference). apply subseteq_size in Hl.
    rewrite size_list_to_set in Hl by done. lia. }
  destruct (work_queue_push_ok c f a ws _ _ _ _ s.1 Hq Hm HX' Hb) as (w & s1 & E & Hw & Hm' & Hwk & Hc & Hnone & Hq').
  apply elem_of_difference in Hw as [HwX Hwl]. rewrite elem_of_list_to_set in Hwl.
  set (p' := match p with Asleep => Granted | _ => p end).
  assert (Hih : in_hand p' ++ ws ++ [w] = l ++ [w]) by (unfold l; rewrite app_assoc; by destruct p).
  exists w, p', (s1, s.2). split.
  - unfold push_step. rewrite (bind_Done get _ _ s s eq_refl), (bind_Done _ _ _ _ _ (on_work_ok _ _ s _ E)).
    rewrite (bind_Done get _ _ _ _ eq_refl). cbn [fst]. rewrite Hc, drop_app_length. unfold mret, M_ret. f_equal.
    destruct (decide _) as [Hd|Hd]; destruct p; simpl in *; try done; try (by apply elem_of_nil in Hd).
    destruct Hd. by left.
  - split; simpl; rewrite ?Hih.
    + by destruct p.
    + by destruct p.
    + apply NoDup_app. split_and!; [done| |apply NoDup_singleton]. by intros v Hv ->%list_elem_of_singleton.
    + intros v [?| ->%list_elem_of_singleton]%elem_of_app; [by apply Hsub|done].
    + rewrite list_to_set_app_L. simpl.
      replace (X ∖ (list_to_set l ∪ ({[w]} ∪ ∅))) with (X ∖ list_to_set l ∖ {[w]}) by set_solver.
      by replace (list_to_set l ∪ ({[w]} ∪ ∅) ∪ L) with ({[w]} ∪ (list_to_set l ∪ L)) by set_solver.
    + exists (js ++ [(f, a)]). split; [|by rewrite Hps, app_assoc]. rewrite Hwk. apply Forall2_app.
      * apply (jobs_frame _ _ _ _ Hjs). intros v Hv. apply lookup_insert_ne. by intros ->.
      * constructor; [apply lookup_insert_eq|constructor].
    + intros v [Hv Hvw]%not_elem_of_app. rewrite Hwk, lookup_insert_ne; [by apply Hrest|].
      intros ->. apply Hvw. by left.
Qed.

(** The stretches of the handler that are left. *)
Definition stretches (p : handler_phase) (ws : list Z) : nat :=
  match p with
  | Ready => 3 * length ws + 1 | Asleep => 0 | Granted => 3 * length ws | Holding _ => 3 * length ws + 2
  end.

Lemma work_call_ok w j X L (s : journalled) :
  works s.1 !! w = Some j → mem_ok X L s.1 → w ∈ L →
  ∃ k, let s1 := set_works (delete w (works s.1)) (set_wkmc k s.1) in
    work_call fst (λ w s, (w, s.2)) note_call w s = Done tt (s1, s.2 ++ [j]) ∧ mem_ok ({[w]} ∪ X) (L ∖ {[w]}) s1.
Proof.
  intros Ew Hm Hw. destruct (work_free_ok w X L s.1 Hm Hw) as (k & E & Hm'). exists k. split; [|done].
  unfold work_call. erewrite bind_Done by (unfold deref; by rewrite Ew).
  rewrite (bind_Done _ _ _ tt (s.1, s.2 ++ [j])) by (by destruct j). unfold zoom. simpl. by rewrite E.
Qed.

Lemma served_handler c t s0 X L ps p ws s :
  served c t s0 X L ps p ws s → (∀ w, w ∈ X → works s0 !! w = None) → X ## L →
  ∃ p' ws' s', handler_step c t p s = Done p' s' ∧ served c t s0 X L ps p' ws' s' ∧
    stretches p' ws' = pred (stretches p ws).
Proof.
  intros [Hq Hsl Hnd Hsub Hm (js & Hjs & Hps) Hrest] Hnew Hdis. destruct p as [| | |w]; simpl in *.
  - destruct (work_wait_ok c t ws _ _ s.1 Hq Hm) as (s1 & E & Hq1 & Hm1 & Hwk & Hc).
    exists (if decide (ws = []) then Asleep else Granted), ws, (s1, s.2). split; [|split].
    + rewrite (bind_Done _ _ _ _ _ (on_work_ok _ _ s _ E)). unfold mret, M_ret. f_equal.
      destruct (decide (ws = [])); [by rewrite bool_decide_eq_true_2|by rewrite bool_decide_eq_false_2].
    + split; simpl; rewrite ?Hwk; destruct (decide (ws = [])); simpl; try done; by exists js.
    + destruct (decide (ws = [])) as [->|]; simpl; lia.
  - exists Asleep, ws, s. split; [done|]. split; [|done]. split; simpl; try done. by exists js.
  - destruct ws as [|w ws].
    { exfalso. destruct Hq as (f & m & _ & _ & _ & _ & _ & Hp & _). unfold permits in Hp. simpl in Hp. lia. }
    destruct (work_take_ok c w ws _ 1 _ _ s.1 Hq ltac:(lia) Hm) as (s1 & E & Hq1 & Hm1 & Hwk & Hc).
    exists (Holding w), ws, (s1, s.2). split; [|split; [|simpl; lia]].
    + by rewrite (bind_Done _ _ _ _ _ (on_work_ok _ _ s _ E)).
    + split; simpl; rewrite ?Hwk; try done. by exists js.
  - inversion Hjs as [|? j ? js' Hj Hjs' E1 E2]; subst. apply NoDup_cons in Hnd as [Hw Hnd].
    assert (HwX : w ∈ X) by (apply Hsub; by left).
    destruct (work_call_ok w j _ _ s Hj Hm) as (k & E & Hm1); [set_solver|].
    eexists Ready, ws, _. split; [by rewrite (bind_Done _ _ _ _ _ E)|split; [|simpl; lia]].
    split; simpl; try done.
    + by apply queue_ok_free.
    + intros v Hv. apply Hsub. by right.
    + replace (X ∖ list_to_set ws) with ({[w]} ∪ X ∖ ({[w]} ∪ list_to_set ws)).
      2:{ apply set_eq. intros v. destruct (decide (v = w)); set_solver. }
      by replace (list_to_set ws ∪ L) with (({[w]} ∪ list_to_set ws ∪ L) ∖ {[w]}) by set_solver.
    + exists js'. split; [|by rewrite <-app_assoc]. apply (jobs_frame _ _ _ _ Hjs').
      intros v Hv. apply lookup_delete_ne. by intros ->.
    + intros v Hv. destruct (decide (v = w)) as [->|Hne].
      * rewrite lookup_delete_eq. symmetry. by apply Hnew.
      * rewrite lookup_delete_ne by done. apply Hrest. by apply not_elem_of_cons.
Qed.

Lemma served_len c t s0 X L ps p ws s : served c t s0 X L ps p ws s → (length (in_hand p ++ ws) <= length ps)%nat.
Proof. intros [_ _ _ _ _ (js & Hjs%Forall2_length & ->) _]. rewrite Hjs, length_app. lia. Qed.

Lemma served_run c t s0 X L os ps p ws s :
  served c t s0 X L ps p ws s → (∀ w, w ∈ X → works s0 !! w = None) → X ## L →
  (length (ps ++ pushed os) <= size X)%nat → Z.of_nat (length (ps ++ pushed os)) < 2 ^ 31 - 2 →
  ∃ p' ws' s', work_run c t os p s = Done p' s' ∧ served c t s0 X L (ps ++ pushed os) p' ws' s'.
Proof.
  intros Hs Hnew Hdis. revert ps p ws s Hs. induction os as [|[f a|] os IH]; intros ps p ws s Hs HX Hb; simpl in *.
  - exists p, ws, s. by rewrite app_nil_r.
  - pose proof (served_len _ _ _ _ _ _ _ _ _ Hs) as Hl. pose proof HX as HX0. pose proof Hb as Hb0.
    change ((f, a) :: pushed os) with ([(f, a)] ++ pushed os) in *. rewrite app_assoc in *.
    rewrite !length_app in HX, Hb. simpl in HX, Hb. rewrite length_app in Hl.
    destruct (served_push c t s0 X L ps p ws f a s Hs) as (w & p1 & s1 & E & Hs1); [rewrite length_app; lia|lia|].
    destruct (IH _ _ _ _ Hs1 HX0 Hb0) as (p' & ws' & s' & E' & Hs'). exists p', ws', s'.
    split; [by rewrite (bind_Done _ _ _ _ _ E)|done].
  - destruct (served_handler c t s0 X L ps p ws s Hs Hnew Hdis) as (p1 & ws1 & s1 & E & Hs1 & _).
    destruct (IH _ _ _ _ Hs1 HX Hb) as (p' & ws' & s' & E' & Hs'). exists p', ws', s'.
    split; [by rewrite (bind_Done _ _ _ _ _ E)|done].
Qed.

Lemma served_drain c t s0 X L n ps p ws s :
  served c t s0 X L ps p ws s → (∀ w, w ∈ X → works s0 !! w = None) → X ## L → (stretches p ws <= n)%nat →
  ∃ s', work_run c t (replicate n Handler) p s = Done Asleep s' ∧ served c t s0 X L ps Asleep [] s'.
Proof.
  intros Hs Hnew Hdis. revert p ws s Hs. induction n as [|n IH]; intros p ws s Hs Hn.
  - destruct p as [| | |w]; simpl in Hn; try lia.
    + exists s. destruct Hs as [? Hsl ? ? ? ? ?]. rewrite (Hsl eq_refl) in *. done.
    + destruct ws; [|simpl in Hn; lia]. destruct Hs as [(f & m & _ & _ & _ & _ & _ & Hp & _) _ _ _ _ _ _].
      unfold permits in Hp. simpl in Hp. lia.
  - destruct (served_handler c t s0 X L ps p ws s Hs Hnew Hdis) as (p1 & ws1 & s1 & E & Hs1 & Hst).
    destruct (IH _ _ _ Hs1) as (s' & E' & Hs'); [lia|]. exists s'. simpl. by rewrite (bind_Done _ _ _ _ _ E).
Qed.

Lemma work_run_app c t os1 os2 p s p1 s1 :
  work_run c t os1 p s = Done p1 s1 → work_run c t (os1 ++ os2) p s = work_run c t os2 p1 s1.
Proof.
  revert p s. induction os1 as [|o os1 IH]; intros p s E; simpl in *; [by injection E as -> ->|].
  set (m := match o with Push _ _ => _ | Handler => _ end) in *. unfold mbind, M_bind in *.
  destruct (m s) as [p2 s2| | | |]; try done. by apply IH.
Qed.

(** C23: Works are served in the order in which they were pushed, each with its
    function and argument, whatever the interleaving of the pushes with the
    stretches of the handler (a push does not interrupt [fifo_pop]; when it does,
    a work can be lost, [pop_interrupted_loses]).  From an idle queue with memory
    for the works, the jobs called so far, the one in the handler's hands and
    those queued are at every point the jobs pushed, in order; the handler sleeps
    only when nothing is left; and once it has had three stretches for each job,
    it has called exactly the jobs pushed, in order, sleeps on the queue and has
    given back all the memory. *)
Theorem work_queue_served c t os X L s :
  queue_ok c [] None 0 s → mem_ok X L s → (length (pushed os) <= size X)%nat →
  Z.of_nat (length (pushed os)) < 2 ^ 31 - 2 →
  (∃ p ws s1 js, work_run c t os Ready (s, []) = Done p s1 ∧ pushed os = s1.2 ++ js ∧
    Forall2 (λ w j, works s1.1 !! w = Some j) (in_hand p ++ ws) js ∧
    queue_ok c ws (sleeper t p) (permit p) s1.1 ∧ (p = Asleep → js = [])) ∧
  ∀ n, (3 * length (pushed os) + 1 <= n)%nat →
    ∃ s2, work_run c t (os ++ replicate n Handler) Ready (s, []) = Done Asleep s2 ∧ s2.2 = pushed os ∧
      queue_ok c [] (Some t) 0 s2.1 ∧ mem_ok X L s2.1 ∧ works s2.1 = works s.
Proof.
  intros Hq Hm HX Hb. pose proof (obj_rep_disjoint _ _ _ (proj1 Hm)) as Hdis.
  assert (Hnew : ∀ w, w ∈ X → works s !! w = None).
  { intros w Hw. apply eq_None_not_Some. intros Hs%(proj2 Hm). set_solver. }
  destruct (served_run c t s X L os [] Ready [] (s, []) (served_init c t X L s Hq Hm) Hnew Hdis HX Hb)
    as (p & ws & s1 & E & Hs1). simpl in Hs1. split.
  - pose proof Hs1 as [Hq1 Hsl _ _ _ (js & Hjs & Hps) _]. exists p, ws, s1, js. split_and!; try done.
    intros ->. rewrite (Hsl eq_refl) in Hjs. by inversion Hjs.
  - intros n Hn. pose proof (served_len _ _ _ _ _ _ _ _ _ Hs1) as Hl.
    destruct (served_drain c t s X L n _ p ws s1 Hs1 Hnew Hdis) as (s2 & E2 & Hs2).
    { rewrite length_app in Hl. destruct p; simpl in *; lia. }
    exists s2. rewrite (work_run_app _ _ _ _ _ _ _ _ E). destruct Hs2 as [Hq2 _ _ _ Hm2 (js & Hjs & Hps) Hrest].
    simpl in *. inversion Hjs; subst js. rewrite app_nil_r in Hps. rewrite difference_empty_L, union_empty_l_L in Hm2.
    split_and!; try done. apply map_eq. intros w. apply Hrest. by apply not_elem_of_nil.
Qed.
End work.
Arguments work_state : clear implicits.

(** ** A push that interrupts a pop

    [fifo_pop] runs in the handler with interrupts on and takes no lock, and
    the timer interrupt of the same CPU pushes on the same list.  [list_del]
    reads the two neighbours and then writes their links; [pop_interrupted] is
    a pop of the entry [w] with the push of [v] between the reads and the
    writes. *)
Definition pop_interrupted (c w v : Z) (h : gmap wlink (node wlink)) : option (gmap wlink (node wlink)) :=
  pv ← prv h (Work w); nx ← nxt h (Work w);
  h ← list_add_tail (Work v) (Queue c) h;
  __list_del pv nx h.

(** With one work queued, the work pushed by the interrupt is lost: the list is
    empty afterwards, although one of two works has been taken. *)
Theorem pop_interrupted_loses c w v h :
  dll h (Queue c) [Work w] → v ≠ w → is_Some (h !! Work v) →
  ∃ h', pop_interrupted c w v h = Some h' ∧ list_empty (Queue c) h' = Some true ∧ dll h' (Queue c) [].
Proof.
  intros Hd Hne Hv. pose proof Hd as [_ Hp]. simpl in Hp. destruct Hp as [[Hn1 Hp1] [Hn2 Hp2]].
  destruct (list_add_tail_dll (Work v) (Queue c) [Work w] h Hd) as (h1 & E1 & [Hnd1 Hp] & _).
  { rewrite !elem_of_cons, elem_of_nil. intros [?|[[= ?]|?]]; done. }
  { done. }
  simpl in Hp. destruct Hp as [[Hq1 _] [_ [_ Hq3]]].
  unfold nxt, prv in Hq1, Hq3. apply fmap_Some in Hq1 as (n0 & E0 & _).
  set (h2 := <[Queue c := Node (prev n0) (Queue c)]> h1).
  set (h3 := <[Queue c := Node (Queue c) (Queue c)]> h2).
  exists h3. assert (Eh : pop_interrupted c w v h = Some h3).
  { unfold pop_interrupted. rewrite Hp1, Hn2. simpl. rewrite E1. simpl.
    unfold __list_del, set_next, set_prev. rewrite E0. simpl. rewrite lookup_insert_eq. done. }
  assert (E3 : h3 !! Queue c = Some (Node (Queue c) (Queue c))) by apply lookup_insert_eq.
  split; [done|]. split.
  - unfold list_empty, nxt. rewrite E3. simpl. by rewrite bool_decide_eq_true_2.
  - split; [apply NoDup_singleton|]. simpl. unfold links, nxt, prv. by rewrite E3.
Qed.

Lemma pop_interrupted_loses_witness :
  let h : gmap wlink (node wlink) := {[Queue 0 := Node (Work 1) (Work 1); Work 1 := Node (Queue 0) (Queue 0);
    Work 2 := Node (Work 2) (Work 2)]} in
  ∃ h', pop_interrupted 0 1 2 h = Some h' ∧ list_empty (Queue 0) h' = Some true.
Proof.
  intros h. destruct (pop_interrupted_loses 0 1 2 h) as (h' & E & He & _).
  - split; [|vm_compute; auto]. apply NoDup_cons. split; [by intros ?%list_elem_of_singleton|apply NoDup_singleton].
  - done.
  - by eexists.
  - by exists h'.
Defined.

(** The queue of CPU 0 after [work_queue_init], with memory for two works. *)
Definition demo_work : work_state stock :=
  match work_queue_init (WS ∅ ∅ ∅ (Stock [64; 32] ∅) []) with Done _ s => s | _ => WS ∅ ∅ ∅ (Stock [] ∅) [] end.

Lemma demo_work_ok : queue_ok 0 [] None 0 demo_work ∧ mem_ok {[64; 32]} ∅ demo_work.
Proof.
  split.
  - exists {| Fifo.f_size := 0; Fifo.f_list := Queue 0 |}, (sem_init 0). split_and!; try done.
    + split; [|done]. split; [apply NoDup_singleton|]. by vm_compute.
    + by split_and!; [|constructor|..].
    + by intros w ?%elem_of_nil.
  - split; [|by intros w [? ?]]. simpl. split_and!; try done; try set_solver.
    apply NoDup_cons. split; [by intros ?%list_elem_of_singleton|apply NoDup_singleton].
Qed.

(** Two pushes with a stretch of the handler before, between and after them: the
    handler first sleeps, is woken by the first push, holds that work when the
    second comes, and serves both. *)
Lemma work_queue_served_witness :
  (∃ p s1, work_run 0 100 [Handler; Push 7 1; Handler; Push 5 2] Ready (demo_work, []) = Done p s1 ∧
    [(7, 1); (5, 2)] = s1.2 ++ [(7, 1); (5, 2)] ∧ p = Holding 64) ∧
  ∃ s2, work_run 0 100 ([Handler; Push 7 1; Handler; Push 5 2] ++ replicate 7 Handler) Ready (demo_work, []) = Done Asleep s2 ∧
    s2.2 = [(7, 1); (5, 2)] ∧ works s2.1 = ∅.
Proof.
  destruct demo_work_ok as [Hq Hm].
  destruct (work_queue_served 0 100 [Handler; Push 7 1; Handler; Push 5 2] {[64; 32]} ∅ demo_work Hq Hm)
    as [(p & ws & s1 & js & E & Hjs & _) Hend].
  - by vm_compute.
  - simpl. lia.
  - split.
    + exists p, s1. assert (E' := E). vm_compute in E'. injection E' as Hp Hs1. subst p. rewrite <-Hs1 in *. done.
    + destruct (Hend 7%nat) as (s2 & E2 & Hj & _ & _ & Hw); [simpl; lia|]. by exists s2.
Defined.
