(* ===== verification/Timer.v ===== *)
(** The kernel timers of kernel/timer.c, with the work queue that carries their
    callbacks and the sleep built on them.

    [timer_queue[c]] is the list of the timers created on CPU [c]; every third
    tick the timer interrupt of a CPU checks its own list.  A callback that
    does not block goes to the work queue (Work), a blocking one gets a kernel
    thread ([KthreadCreate] in [calls]). *)
From S2P Require Import Prelude ListLib Containers Semaphore ObjCache Sched Work.

Inductive tlink := TimerQueue (c : Z) | Tm (t : Z).
#[global] Instance tlink_eq_dec : EqDecision tlink.
Proof. solve_decision. Defined.
#[global] Instance tlink_countable : Countable tlink.
Proof.
  refine (inj_countable' (λ l, match l with TimerQueue c => (true, c) | Tm t => (false, t) end)
    (λ p, if p.1 : bool then TimerQueue p.2 else Tm p.2) _).
  by intros [].
Defined.

(** [timer_t]; the times are [uint64], [count] an [int]. *)
Record timer := Timer {
  callback : Z; args : Z; init_time : Z; during_time : Z; count : Z; block : Z;
}.
Definition set_init n (t : timer) : timer := Timer (callback t) (args t) n (during_time t) (count t) (block t).
Definition set_count n (t : timer) : timer := Timer (callback t) (args t) (init_time t) (during_time t) n (block t).

Definition NO_RESTRICT : Z := -1.
Definition TIMER_NO_BLOCK : Z := 0.
Definition TIMER_BLOCK : Z := 1.
(** The address of [thread_time_up]. *)
Definition thread_time_up_addr : Z := 4.

Section timer.
Context {C K : Type} `{ObjCacheLaws C} `{ObjCacheLaws K}.

(** [downs] are the [struct thread_down]s of sleeping threads. *)
Record timer_state := TS {
  sys_ticks : Z; timers : gmap Z timer; tlinks : gmap tlink (node tlink);
  timer_kmem_cache : C; work : work_state K; downs : gmap Z (Z * semaphore);
}.
Definition set_ticks n s := TS n (timers s) (tlinks s) (timer_kmem_cache s) (work s) (downs s).
Definition set_timers m s := TS (sys_ticks s) m (tlinks s) (timer_kmem_cache s) (work s) (downs s).
Definition set_tlinks h s := TS (sys_ticks s) (timers s) h (timer_kmem_cache s) (work s) (downs s).
Definition set_tcache c s := TS (sys_ticks s) (timers s) (tlinks s) c (work s) (downs s).
Definition set_work w s := TS (sys_ticks s) (timers s) (tlinks s) (timer_kmem_cache s) w (downs s).
Definition set_downs d s := TS (sys_ticks s) (timers s) (tlinks s) (timer_kmem_cache s) (work s) d.

Fixpoint time_init_loop (cs : list Z) (h : gmap tlink (node tlink)) : gmap tlink (node tlink) :=
  match cs with
  | [] => h
  | c :: cs => time_init_loop cs (INIT_LIST_HEAD (TimerQueue c) h)
  end.
Definition time_init : M timer_state unit :=
  modify (λ s, set_tlinks (time_init_loop cpu_ids (tlinks s)) (set_ticks 0 s)).
Definition get_cur_time : M timer_state Z := gets sys_ticks.

(** [timer_wake]: any other [block] only prints. *)
Definition timer_wake (c t : Z) : M timer_state unit :=
  tm ← deref (λ s, timers s !! t);
  if block tm =? TIMER_NO_BLOCK then zoom work set_work (work_queue_push c (callback tm) (args tm))
  else if block tm =? TIMER_BLOCK then
    zoom work set_work (modify (add_call (KthreadCreate (callback tm) (args tm) NO_CPU_AFF)))
  else mret tt.

Definition timer_del (t : Z) : M timer_state unit :=
  zoom timer_kmem_cache set_tcache (obj_free t);; modify (λ s, set_timers (delete t (timers s)) s).

Definition put_timer (t : Z) (tm : timer) : M timer_state unit := modify (λ s, set_timers (<[t := tm]> (timers s)) s).

(** The body of the loop of [timer_try_wake]. *)
Definition try_wake_one (c t : Z) : M timer_state unit :=
  tm ← deref (λ s, timers s !! t);
  now ← gets sys_ticks;
  if u64 (init_time tm + during_time tm) <=? now then
    put_timer t (set_init now tm);;
    if negb (count tm =? NO_RESTRICT) then
      let n := i32 (count tm - 1) in
      put_timer t (set_count n (set_init now tm));;
      if n =? 0 then
        update (λ s, h ← list_del (Tm t) (tlinks s); Some (set_tlinks h s));;
        timer_wake c t;; timer_del t
      else timer_wake c t
    else timer_wake c t
  else mret tt.

(** [list_for_each_entry_safe]: [n] is the successor of [t], read before the body. *)
Fixpoint try_wake_loop (fuel : nat) (c : Z) (t n : tlink) : M timer_state unit :=
  if decide (t = TimerQueue c) then mret tt else
    match fuel with
    | O => out_of_fuel
    | S fuel =>
        match t with
        | Tm t => try_wake_one c t;; n' ← deref (λ s, nxt (tlinks s) n); try_wake_loop fuel c n n'
        | TimerQueue _ => fault
        end
    end.
Definition timer_try_wake (c : Z) : M timer_state unit :=
  t ← deref (λ s, nxt (tlinks s) (TimerQueue c));
  n ← deref (λ s, nxt (tlinks s) t);
  s ← get; try_wake_loop (size (tlinks s)) c t n.

(** [time_update]: CPU 0 counts the ticks. *)
Definition time_update (c : Z) : M timer_state unit :=
  (if c =? 0 then modify (λ s, set_ticks (u64 (sys_ticks s + 1)) s) else mret tt);;
  now ← gets sys_ticks;
  if now mod 3 =? 0 then timer_try_wake c else mret tt.

Definition assign_cpu (c t : Z) : M timer_state unit :=
  update (λ s, h ← list_add_head (Tm t) (TimerQueue c) (tlinks s); Some (set_tlinks h s)).

(** The new object's list node is not initialised; [list_add_head] writes it. *)
Definition timer_create (c cb a during cnt blk : Z) : M timer_state Z :=
  t ← zoom timer_kmem_cache set_tcache obj_alloc;
  if t =? 0 then mret 0 else
  now ← get_cur_time;
  put_timer t (Timer cb a now during cnt blk);;
  modify (λ s, set_tlinks (<[Tm t := default (Node (Tm 0) (Tm 0)) (tlinks s !! Tm t)]> (tlinks s)) s);;
  assign_cpu c t;; mret t.

(** [thread_time_up], run by the work handler. *)
Definition thread_time_up (td : Z) : M timer_state unit :=
  d ← deref (λ s, downs s !! td);
  match sem_signal d.2 with
  | None => panic
  | Some (m, w) =>
      modify (λ s, set_downs (<[td := (d.1, m)]> (downs s)) s);;
      match w with
      | Some t => zoom work set_work (modify (add_call (WakeupProcess t)))
      | None => mret tt
      end;;
      zoom work set_work (zoom wkmc set_wkmc (obj_free td));;
      modify (λ s, set_downs (delete td (downs s)) s)
  end.

(** [thread_timer_sleep] of thread [t] on CPU [c], up to its [sem_wait];
    [true]: the thread sleeps.  The result of [kmalloc] is not checked. *)
Definition thread_timer_sleep (c t down_time : Z) : M timer_state bool :=
  td ← zoom work set_work (zoom wkmc set_wkmc obj_alloc);
  (if td =? 0 then fault else mret tt);;
  modify (λ s, set_downs (<[td := (t, sem_init 0)]> (downs s)) s);;
  timer_create c thread_time_up_addr td down_time 1 TIMER_NO_BLOCK;;
  d ← deref (λ s, downs s !! td);
  let '(m, b) := sem_wait t d.2 in
  modify (λ s, set_downs (<[td := (d.1, m)]> (downs s)) s);; mret b.

(** * Specification of a check

    A check at tick [now] leaves a timer, changed, or frees it ([None]), and
    fires it or does not. *)
Definition expired (now : Z) (tm : timer) : bool := u64 (init_time tm + during_time tm) <=? now.
Definition tick (now : Z) (tm : timer) : option timer * bool :=
  if expired now tm then
    if count tm =? NO_RESTRICT then (Some (set_init now tm), true)
    else let n := i32 (count tm - 1) in
      (if n =? 0 then None else Some (set_count n (set_init now tm)), true)
  else (Some tm, false).

(** The timers left in the queue, and those that fire, both in queue order. *)
Fixpoint survivors (now : Z) (l : list (Z * timer)) : list (Z * timer) :=
  match l with
  | [] => []
  | (t, tm) :: l =>
      match (tick now tm).1 with Some tm' => (t, tm') :: survivors now l | None => survivors now l end
  end.
(** The timers that are used up. *)
Fixpoint spent (now : Z) (l : list (Z * timer)) : list Z :=
  match l with
  | [] => []
  | (t, tm) :: l => match (tick now tm).1 with Some _ => spent now l | None => t :: spent now l end
  end.
Fixpoint fired (now : Z) (l : list (Z * timer)) : list timer :=
  match l with
  | [] => []
  | (_, tm) :: l => if (tick now tm).2 then tm :: fired now l else fired now l
  end.

(** What firing does to the work queue of the CPU. *)
Definition wake_work (c : Z) (tm : timer) : M (work_state K) unit :=
  if block tm =? TIMER_NO_BLOCK then work_queue_push c (callback tm) (args tm)
  else if block tm =? TIMER_BLOCK then modify (add_call (KthreadCreate (callback tm) (args tm) NO_CPU_AFF))
  else mret tt.
Fixpoint wake_all (c : Z) (fs : list timer) : M (work_state K) unit :=
  match fs with [] => mret tt | tm :: fs => wake_work c tm;; wake_all c fs end.

(** [timer_queue[c]] holds the timers [l]; the cache has the objects [XT] free
    and [LT] out, and every timer there is (on this queue or on another) is one
    of [LT]. *)
Record timers_ok (c : Z) (XT LT : gset Z) (l : list (Z * timer)) (s : timer_state) : Prop := {
  m_list : dll (tlinks s) (TimerQueue c) (Tm <$> l.*1);
  m_timers : ∀ t tm, (t, tm) ∈ l → timers s !! t = Some tm;
  m_objs : obj_rep (timer_kmem_cache s) XT LT;
  m_live : ∀ t, is_Some (timers s !! t) → t ∈ LT;
}.

Lemma m_out c XT LT l s t : timers_ok c XT LT l s → t ∈ l.*1 → t ∈ LT.
Proof.
  intros Hok ([u tm] & -> & Hu)%list_elem_of_fmap. apply (m_live _ _ _ _ _ Hok). exists tm.
  by apply (m_timers _ _ _ _ _ Hok).
Qed.

Lemma timer_wake_eq c t tm s w' :
  timers s !! t = Some tm → wake_work c tm (work s) = Done tt w' → timer_wake c t s = Done tt (set_work w' s).
Proof.
  intros Et. unfold timer_wake, wake_work. erewrite bind_Done by (unfold deref; by rewrite Et).
  unfold zoom. destruct (block tm =? TIMER_NO_BLOCK); [by intros ->|].
  destruct (block tm =? TIMER_BLOCK); [by intros ->|]. destruct s. by intros [= <-].
Qed.

Lemma app_cons_fst (pre : list (Z * timer)) t tm rest :
  Tm <$> (pre ++ (t, tm) :: rest).*1 = (Tm <$> pre.*1) ++ Tm t :: (Tm <$> rest.*1).
Proof. by rewrite fmap_app, fmap_app. Qed.

Lemma timers_nodup c XT LT l s : timers_ok c XT LT l s → NoDup l.*1.
Proof. intros [[Hnd _] _ _ _]. apply NoDup_cons in Hnd as [_ Hnd]. by apply NoDup_fmap_1 in Hnd. Qed.

(** Replacing a timer of the queue. *)
Lemma timers_put c XT LT pre t tm tm' rest s :
  timers_ok c XT LT (pre ++ (t, tm) :: rest) s →
  timers_ok c XT LT (pre ++ (t, tm') :: rest) (set_timers (<[t := tm']> (timers s)) s).
Proof.
  intros Hok. pose proof (timers_nodup _ _ _ _ _ Hok) as Hnd. destruct Hok as [Hl Ht Ho Hlv].
  assert (Efst : (pre ++ (t, tm') :: rest).*1 = (pre ++ (t, tm) :: rest).*1) by (by rewrite !fmap_app).
  split; simpl; [by rewrite Efst| |done|].
  2:{ intros u. rewrite lookup_insert_is_Some. intros [<-|[_ ?%Hlv]]; [|done]. apply Hlv. exists tm. apply Ht.
      rewrite elem_of_app, elem_of_cons. auto. }
  rewrite fmap_app in Hnd. apply NoDup_app in Hnd as (_ & N1 & N2). apply NoDup_cons in N2 as [N2 _].
  intros u um. rewrite elem_of_app, elem_of_cons. intros Hu.
  destruct (decide (u = t)) as [->|Hne].
  - rewrite lookup_insert_eq. destruct Hu as [Hu|[[= ->]|Hu]]; [|done|].
    + exfalso. apply (N1 t); [apply list_elem_of_fmap; by exists (t, um)|by left].
    + exfalso. apply N2, list_elem_of_fmap. by exists (t, um).
  - rewrite lookup_insert_ne by done. apply Ht. rewrite elem_of_app, elem_of_cons. naive_solver.
Qed.

(** Taking the timer [t] off the queue and freeing it. *)
Lemma timers_drop c XT LT pre t tm rest s w' :
  timers_ok c XT LT (pre ++ (t, tm) :: rest) s →
  ∃ h' k', list_del (Tm t) (tlinks s) = Some h' ∧
    let s1 := set_work w' (set_tlinks h' s) in
    timer_del t s1 = Done tt (set_timers (delete t (timers s)) (set_tcache k' s1)) ∧
    timers_ok c ({[t]} ∪ XT) (LT ∖ {[t]}) (pre ++ rest) (set_timers (delete t (timers s)) (set_tcache k' s1)).
Proof.
  intros Hok. pose proof (timers_nodup _ _ _ _ _ Hok) as Hnd.
  assert (HtL : t ∈ LT) by (apply (m_out _ _ _ _ _ _ Hok); rewrite fmap_app, elem_of_app; right; by left).
  destruct Hok as [Hl Ht Ho Hlv].
  rewrite app_cons_fst in Hl. destruct (list_del_dll _ _ _ _ _ Hl) as (h' & Ed & Hl' & _ & _).
  destruct (obj_free_ok _ _ _ t Ho HtL) as (k' & Ef & Ho'). exists h', k'. split; [done|]. intros s1. split.
  - unfold timer_del. erewrite bind_Done by (unfold zoom; simpl; by rewrite Ef). done.
  - rewrite fmap_app in Hnd. apply NoDup_app in Hnd as (_ & N1 & N2). apply NoDup_cons in N2 as [N2 _].
    assert (Hne : ∀ u um, (u, um) ∈ pre ++ rest → u ≠ t).
    { intros u um [Hu|Hu]%elem_of_app ->.
      - apply (N1 t); [apply list_elem_of_fmap; by exists (t, um)|by left].
      - apply N2, list_elem_of_fmap. by exists (t, um). }
    split; simpl.
    + by rewrite fmap_app, fmap_app.
    + intros u um Hu. rewrite lookup_delete_ne by (symmetry; by eapply Hne). apply Ht.
      rewrite elem_of_app, elem_of_cons. apply elem_of_app in Hu. naive_solver.
    + done.
    + intros u. rewrite lookup_delete_is_Some. intros [Hne' ?%Hlv]. apply elem_of_difference.
      split; [done|]. by intros ->%elem_of_singleton.
Qed.

Definition left_over (t now : Z) (tm : timer) : list (Z * timer) :=
  match (tick now tm).1 with Some tm' => [(t, tm')] | None => [] end.

Lemma timers_work c XT LT l w s : timers_ok c XT LT l s → timers_ok c XT LT l (set_work w s).
Proof. intros [M1 M2 M3 M4]. by split. Qed.

(** The sets of objects after [gone] are freed. *)
Definition freed (gone : list Z) (XT : gset Z) : gset Z := list_to_set gone ∪ XT.
Definition kept (gone : list Z) (LT : gset Z) : gset Z := LT ∖ list_to_set gone.
Lemma freed_nil XT : freed [] XT = XT.
Proof. unfold freed. simpl. by rewrite union_empty_l_L. Qed.
Lemma kept_nil LT : kept [] LT = LT.
Proof. unfold kept. simpl. by rewrite difference_empty_L. Qed.
Lemma freed_cons t gone XT : freed gone (freed [t] XT) = freed (t :: gone) XT.
Proof. unfold freed. set_solver. Qed.
Lemma kept_cons t gone LT : kept gone (kept [t] LT) = kept (t :: gone) LT.
Proof. unfold kept. set_solver. Qed.

Lemma try_wake_one_ok c XT LT pre t tm rest s w' :
  timers_ok c XT LT (pre ++ (t, tm) :: rest) s →
  (if (tick (sys_ticks s) tm).2 then wake_work c tm else mret tt) (work s) = Done tt w' →
  ∃ s', try_wake_one c t s = Done tt s' ∧ work s' = w' ∧ sys_ticks s' = sys_ticks s ∧ downs s' = downs s ∧
    (∀ u, u ≠ t → timers s' !! u = timers s !! u) ∧
    let gone := spent (sys_ticks s) [(t, tm)] in
    timers_ok c (freed gone XT) (kept gone LT) (pre ++ left_over t (sys_ticks s) tm ++ rest) s'.
Proof.
  intros Hok Hw. assert (Et : timers s !! t = Some tm).
  { apply (m_timers _ _ _ _ _ Hok). rewrite elem_of_app, elem_of_cons. auto. }
  set (now := sys_ticks s) in *. unfold left_over, spent, tick in *. unfold try_wake_one.
  erewrite bind_Done by (unfold deref; by rewrite Et). erewrite bind_Done by done. fold now.
  unfold expired in *. destruct (u64 (init_time tm + during_time tm) <=? now); simpl in *;
    [|injection Hw as <-; exists s; by rewrite freed_nil, kept_nil].
  pose proof (timers_put c _ _ pre t tm (set_init now tm) rest s Hok) as Hok1.
  set (s1 := set_timers (<[t := set_init now tm]> (timers s)) s) in *.
  erewrite bind_Done by done. change (count (set_init now tm)) with (count tm). fold s1.
  assert (Ew : ∀ n, wake_work c (set_count n (set_init now tm)) = wake_work c tm) by done.
  destruct (count tm =? NO_RESTRICT) eqn:Ecnt; [change (negb true) with false|change (negb false) with true]; cbv iota.
  { exists (set_work w' s1). simpl in Hw. split; [|split_and!; try done; [intros u Hu; by apply lookup_insert_ne|]].
    2:{ rewrite freed_nil, kept_nil. by apply timers_work. }
    apply (timer_wake_eq c t (set_init now tm)); [apply lookup_insert_eq|done]. }
  set (n := i32 (count tm - 1)) in *. simpl in Hw.
  pose proof (timers_put c _ _ pre t _ (set_count n (set_init now tm)) rest s1 Hok1) as Hok2.
  set (s2 := set_timers _ s1) in Hok2.
  erewrite bind_Done by done. fold s2.
  assert (Ewk : ∀ h, timer_wake c t (set_tlinks h s2) = Done tt (set_work w' (set_tlinks h s2))).
  { intros h. apply (timer_wake_eq c t (set_count n (set_init now tm))); [apply lookup_insert_eq|by rewrite Ew]. }
  destruct (n =? 0); simpl.
  - destruct (timers_drop c _ _ pre t _ rest s2 w' Hok2) as (h' & k' & Ed & Edel & Hok3).
    eexists. split.
    { erewrite bind_Done by (unfold update; by rewrite Ed). erewrite bind_Done by (apply Ewk). exact Edel. }
    split_and!; [done..| |].
    + intros u Hu. simpl. rewrite lookup_delete_ne, !lookup_insert_ne by done. done.
    + unfold freed, kept. simpl. rewrite union_empty_r_L. exact Hok3.
  - exists (set_work w' s2). split; [|split_and!; try done].
    2:{ intros u Hu. simpl. by rewrite !lookup_insert_ne. }
    2:{ rewrite freed_nil, kept_nil. by apply timers_work. }
    apply (timer_wake_eq c t (set_count n (set_init now tm))); [apply lookup_insert_eq|by rewrite Ew].
Qed.

(** The node after [t] in the queue, and the first one. *)
Definition after_pre (c : Z) (rest : list (Z * timer)) : tlink :=
  match rest with [] => TimerQueue c | (t, _) :: _ => Tm t end.

Lemma next_in_queue c XT LT pre t tm rest s :
  timers_ok c XT LT (pre ++ (t, tm) :: rest) s → nxt (tlinks s) (Tm t) = Some (after_pre c rest).
Proof.
  intros [[_ Hl] _ _ _]. rewrite app_cons_fst in Hl. apply path_app in Hl as [_ Hl].
  rewrite (path_first _ _ _ _ Hl). by destruct rest as [|[]].
Qed.
Lemma first_in_queue c XT LT l s : timers_ok c XT LT l s → nxt (tlinks s) (TimerQueue c) = Some (after_pre c l).
Proof. intros [[_ Hl] _ _ _]. rewrite (path_first _ _ _ _ Hl). by destruct l as [|[]]. Qed.

(** The successor of the saved position, whatever the body did before it. *)
Lemma next_saved c XT LT pre rest s : timers_ok c XT LT (pre ++ rest) s →
  ∃ n, nxt (tlinks s) (after_pre c rest) = Some n ∧ (∀ t tm l, rest = (t, tm) :: l → n = after_pre c l).
Proof.
  intros Hok. destruct rest as [|[t tm] l]; simpl.
  - rewrite (first_in_queue _ _ _ _ _ Hok). eexists. split; [done|]. by intros.
  - rewrite (next_in_queue _ _ _ _ _ _ _ _ Hok). eexists. split; [done|]. by intros ? ? ? [= -> -> ->].
Qed.

Lemma spent_in now l t : t ∈ spent now l → t ∈ l.*1.
Proof.
  induction l as [|[u tm] l IH]; [done|]. simpl. rewrite elem_of_cons. destruct (tick now tm).1; [auto|].
  rewrite elem_of_cons. naive_solver.
Qed.

Lemma try_wake_loop_ok fuel c XT LT pre rest n s w' :
  timers_ok c XT LT (pre ++ rest) s → (length rest <= fuel)%nat →
  (∀ t tm l, rest = (t, tm) :: l → n = after_pre c l) →
  wake_all c (fired (sys_ticks s) rest) (work s) = Done tt w' →
  ∃ s', try_wake_loop fuel c (after_pre c rest) n s = Done tt s' ∧ work s' = w' ∧
    sys_ticks s' = sys_ticks s ∧ downs s' = downs s ∧
    (∀ u, u ∉ rest.*1 → timers s' !! u = timers s !! u) ∧
    let gone := spent (sys_ticks s) rest in
    timers_ok c (freed gone XT) (kept gone LT) (pre ++ survivors (sys_ticks s) rest) s'.
Proof.
  revert fuel XT LT pre n s. induction rest as [|[t tm] rest IH]; intros fuel XT LT pre n s Hok Hf Hn Hw; simpl in Hw, Hf.
  { injection Hw as <-. exists s. split; [|split_and!; try done; simpl; by rewrite freed_nil, kept_nil]. destruct fuel; cbn [try_wake_loop after_pre]; by rewrite decide_True. }
  destruct fuel as [|fuel]; [lia|]. rewrite (Hn t tm rest eq_refl). clear Hn.
  assert (Hw1 : ∃ w1, (if (tick (sys_ticks s) tm).2 then wake_work c tm else mret tt) (work s) = Done tt w1 ∧
    wake_all c (fired (sys_ticks s) rest) w1 = Done tt w').
  { destruct (tick (sys_ticks s) tm).2; simpl in Hw; [|by exists (work s)].
    apply bind_inv in Hw as ([] & w1 & ? & ?). eauto. }
  destruct Hw1 as (w1 & Ew1 & Ew2).
  destruct (try_wake_one_ok c _ _ pre t tm rest s w1 Hok Ew1) as (s1 & E1 & W1 & T1 & D1 & O1 & Hok1).
  cbv zeta in Hok1. rewrite app_assoc in Hok1. destruct (next_saved c _ _ _ rest s1 Hok1) as (n' & En & Hn').
  destruct (IH fuel _ _ _ n' s1 Hok1) as (s' & E' & W' & T' & D' & O' & Hok'); [lia|done|by rewrite T1, W1|].
  exists s'. split; [|split_and!; [done|congruence|congruence| |]].
  - cbn [try_wake_loop after_pre]. rewrite decide_False by done. erewrite bind_Done by exact E1.
    erewrite bind_Done by (unfold deref; by rewrite En). exact E'.
  - intros u [Hne Hu]%not_elem_of_cons. rewrite O' by done. by apply O1.
  - cbv zeta in Hok' |- *. rewrite T1, <-app_assoc in Hok'. unfold left_over in Hok'. simpl in Hok' |- *.
    destruct (tick (sys_ticks s) tm).1; simpl in Hok'.
    + by rewrite freed_nil, kept_nil in Hok'.
    + by rewrite freed_cons, kept_cons in Hok'.
Qed.

Lemma timer_try_wake_ok c XT LT l s w' :
  timers_ok c XT LT l s → wake_all c (fired (sys_ticks s) l) (work s) = Done tt w' →
  ∃ s', timer_try_wake c s = Done tt s' ∧ work s' = w' ∧ sys_ticks s' = sys_ticks s ∧ downs s' = downs s ∧
    (∀ u, u ∉ l.*1 → timers s' !! u = timers s !! u) ∧
    let gone := spent (sys_ticks s) l in
    timers_ok c (freed gone XT) (kept gone LT) (survivors (sys_ticks s) l) s'.
Proof.
  intros Hok Hw. unfold timer_try_wake.
  erewrite bind_Done by (unfold deref; by rewrite (first_in_queue _ _ _ _ _ Hok)).
  destruct (next_saved c _ _ [] l s Hok) as (n & En & Hn).
  erewrite bind_Done by (unfold deref; by rewrite En). erewrite bind_Done by done.
  apply (try_wake_loop_ok _ c _ _ [] l n s w'); [done| |done|done].
  pose proof (length_dll _ _ _ (m_list _ _ _ _ _ Hok)) as Hlen. rewrite !length_fmap in Hlen. lia.
Qed.

(** The jobs and the calls of firing [fs] with the handler [sleeping]. *)
Definition jobs (fs : list timer) : list (Z * Z) :=
  omap (λ tm, if block tm =? TIMER_NO_BLOCK then Some (callback tm, args tm) else None) fs.
Fixpoint fired_calls (sleeping : option Z) (fs : list timer) : list call :=
  match fs with
  | [] => []
  | tm :: fs =>
      if block tm =? TIMER_NO_BLOCK then push_calls sleeping ++ fired_calls None fs
      else if block tm =? TIMER_BLOCK then KthreadCreate (callback tm) (args tm) NO_CPU_AFF :: fired_calls sleeping fs
      else fired_calls sleeping fs
  end.

Lemma queue_ok_call c ws sl g x (w : work_state K) : queue_ok c ws sl g w → queue_ok c ws sl g (add_call x w).
Proof. done. Qed.

Lemma jobs_cons tm fs : jobs (tm :: fs) =
  if block tm =? TIMER_NO_BLOCK then (callback tm, args tm) :: jobs fs else jobs fs.
Proof. unfold jobs. simpl. by destruct (block tm =? TIMER_NO_BLOCK). Qed.

(** The handler and its permit after the pushes of [js]: the first wakes it. *)
Definition awake (js : list (Z * Z)) (sl : option Z) : option Z := match js with [] => sl | _ => None end.
Definition granted (js : list (Z * Z)) (sl : option Z) (g : Z) : Z := match js with [] => g | _ => grant sl g end.

Lemma wake_all_ok c fs ws sl g X L (w : work_state K) :
  queue_ok c ws sl g w → mem_ok X L w → (length (jobs fs) <= size X)%nat →
  Z.of_nat (length ws + length (jobs fs)) < 2 ^ 31 - 2 →
  ∃ ns w', wake_all c fs w = Done tt w' ∧
    queue_ok c (ws ++ ns) (awake (jobs fs) sl) (granted (jobs fs) sl g) w' ∧
    mem_ok (X ∖ list_to_set ns) (list_to_set ns ∪ L) w' ∧ calls w' = calls w ++ fired_calls sl fs ∧
    length ns = length (jobs fs) ∧ (∀ v, v ∈ ns → v ∈ X ∧ works w !! v = None) ∧
    (∀ v, v ∉ ns → works w' !! v = works w !! v) ∧ (∀ i v, ns !! i = Some v → works w' !! v = jobs fs !! i).
Proof.
  revert ws sl g X L w. induction fs as [|tm fs IH]; intros ws sl g X L w Hq Hm HX Hb.
  { exists [], w. rewrite !app_nil_r. simpl. rewrite difference_empty_L, union_empty_l_L.
    split_and!; try done. by intros v ?%elem_of_nil. }
  rewrite jobs_cons in HX, Hb |- *. simpl wake_all. simpl fired_calls. unfold wake_work.
  destruct (block tm =? TIMER_NO_BLOCK) eqn:E0; [|destruct (block tm =? TIMER_BLOCK) eqn:E1].
  - simpl length in HX, Hb |- *.
    destruct (work_queue_push_ok c (callback tm) (args tm) ws sl g X L w Hq Hm) as
      (v & w1 & Ep & Hv & Hm1 & Hwk & Hc1 & Hnone & Hq1); [intros ->; rewrite size_empty in HX; lia|lia|].
    destruct (IH (ws ++ [v]) None _ _ _ w1 Hq1 Hm1) as (ns & w2 & E2 & Hq2 & Hm2 & Hc2 & Hlen & Hfr & Hold & Hnew).
    + rewrite size_difference by set_solver. rewrite size_singleton. lia.
    + rewrite length_app. simpl. lia.
    + assert (Hvns : v ∉ ns). { intros [Hin _]%Hfr. set_solver. }
      exists (v :: ns), w2. split_and!.
      * erewrite bind_Done by exact Ep. exact E2.
      * rewrite <-app_assoc in Hq2. by destruct (jobs fs).
      * simpl. replace (X ∖ ({[v]} ∪ list_to_set ns)) with ((X ∖ {[v]}) ∖ list_to_set ns) by set_solver.
        replace ({[v]} ∪ list_to_set ns ∪ L) with (list_to_set ns ∪ ({[v]} ∪ L)) by set_solver. done.
      * by rewrite Hc2, Hc1, app_assoc.
      * simpl. lia.
      * intros u [->|Hu]%elem_of_cons; [done|]. destruct (Hfr u Hu) as [Hux Hn]. split; [set_solver|].
        rewrite Hwk, lookup_insert_ne in Hn; [done|]. by intros ->.
      * intros u [Hne Hu]%not_elem_of_cons. by rewrite Hold, Hwk, lookup_insert_ne.
      * intros [|i] u; simpl; [|apply Hnew]. intros [= <-]. by rewrite Hold, Hwk, lookup_insert_eq.
  - destruct (IH ws sl g X L (add_call (KthreadCreate (callback tm) (args tm) NO_CPU_AFF) w))
      as (ns & w2 & E2 & Hq2 & Hm2 & Hc2 & Hrest); [done..|].
    exists ns, w2. split_and!; try done; [|by apply Hrest..].
    by rewrite Hc2; simpl; rewrite <-app_assoc.
  - destruct (IH ws sl g X L w) as (ns & w2 & E2 & Hrest); [done..|]. by exists ns, w2.
Qed.

(** C22: One check of a CPU's timers: exactly the expired ones fire, in queue order,
    the non-blocking ones as works in that order and the blocking ones as
    threads, and the first work wakes the handler if it sleeps; a timer whose count
    reaches zero leaves the queue and its object is free again, the others stay in
    order with their new time and count; other timers and works are not touched. *)
Theorem timer_try_wake_correct c XT LT l s ws sl g X L :
  timers_ok c XT LT l s → queue_ok c ws sl g (work s) → mem_ok X L (work s) →
  (length (jobs (fired (sys_ticks s) l)) <= size X)%nat →
  Z.of_nat (length ws + length (jobs (fired (sys_ticks s) l))) < 2 ^ 31 - 2 →
  let gone : gset Z := list_to_set (spent (sys_ticks s) l) in
  let js := jobs (fired (sys_ticks s) l) in
  ∃ ns s', timer_try_wake c s = Done tt s' ∧
    timers_ok c (gone ∪ XT) (LT ∖ gone) (survivors (sys_ticks s) l) s' ∧
    (∀ u, u ∉ l.*1 → timers s' !! u = timers s !! u) ∧
    queue_ok c (ws ++ ns) (awake js sl) (granted js sl g) (work s') ∧
    mem_ok (X ∖ list_to_set ns) (list_to_set ns ∪ L) (work s') ∧
    calls (work s') = calls (work s) ++ fired_calls sl (fired (sys_ticks s) l) ∧
    length ns = length js ∧ (∀ i v, ns !! i = Some v → works (work s') !! v = js !! i) ∧
    (∀ v, v ∉ ns → works (work s') !! v = works (work s) !! v) ∧
    sys_ticks s' = sys_ticks s ∧ downs s' = downs s.
Proof.
  intros Hok Hq Hm HX Hb.
  destruct (wake_all_ok c _ ws sl g X L (work s) Hq Hm HX Hb) as (ns & w' & Ew & Hq' & Hm' & Hc & Hlen & _ & Hold & Hn).
  destruct (timer_try_wake_ok c _ _ l s w' Hok Ew) as (s' & E & <- & T' & D' & O' & Hok').
  by exists ns, s'.
Qed.

(** ** A timer over its life *)
Fixpoint check_at (c : Z) (times : list Z) : M timer_state unit :=
  match times with
  | [] => mret tt
  | n :: times => modify (set_ticks n);; timer_try_wake c;; check_at c times
  end.

(** Checks at which the timer has expired, and before the ticks wrap. *)
Fixpoint spaced (init during : Z) (times : list Z) : Prop :=
  match times with
  | [] => True
  | n :: times => init + during <= n < 2 ^ 64 - during ∧ spaced n during times
  end.
Definition shots (cnt : Z) (n : nat) : nat := if 0 <? cnt then Nat.min n (Z.to_nat cnt) else n.

(** The timer that is left, by count. *)
Lemma tick_expired now tm :
  0 <= init_time tm → 0 <= during_time tm → init_time tm + during_time tm <= now < 2 ^ 64 →
  -1 <= count tm < 2 ^ 31 →
  tick now tm = (if count tm =? 1 then None else
    Some (set_count (if 0 <? count tm then count tm - 1 else -1) (set_init now tm)), true).
Proof.
  intros Hi Hd Hn Hc. unfold tick, expired. rewrite u64_small by lia.
  destruct (Z.leb_spec (init_time tm + during_time tm) now); [|lia]. unfold NO_RESTRICT.
  destruct (Z.eqb_spec (count tm) (-1)) as [E|E].
  - rewrite E. simpl. do 2 f_equal. destruct tm; simpl in *. by subst.
  - rewrite i32_small by lia. destruct (Z.eqb_spec (count tm - 1) 0), (Z.eqb_spec (count tm) 1); try lia; [done|].
    do 3 f_equal. destruct (Z.ltb_spec 0 (count tm)); lia.
Qed.

Lemma check_empty c XT LT times s : timers_ok c XT LT [] s →
  ∃ s', check_at c times s = Done tt s' ∧ timers_ok c XT LT [] s' ∧ work s' = work s.
Proof.
  revert s. induction times as [|now times IH]; intros s Hok; [by exists s|].
  destruct (timer_try_wake_ok c XT LT [] (set_ticks now s) (work s)) as (s1 & E1 & W1 & _ & _ & _ & Hok1).
  { by destruct Hok; split. }
  { done. }
  cbv zeta in Hok1. simpl in Hok1. rewrite freed_nil, kept_nil in Hok1.
  destruct (IH s1 Hok1) as (s' & E' & Hok' & W'). exists s'. split; [|split; [done|congruence]].
  simpl. erewrite bind_Done by done. by erewrite bind_Done by exact E1.
Qed.

Lemma check_at_ok c t XT LT times tm s ws sl g X L :
  timers_ok c XT LT [(t, tm)] s → queue_ok c ws sl g (work s) → mem_ok X L (work s) →
  block tm = TIMER_NO_BLOCK → 0 <= init_time tm → 0 <= during_time tm → -1 <= count tm < 2 ^ 31 →
  spaced (init_time tm) (during_time tm) times →
  let k := shots (count tm) (length times) in
  (k <= size X)%nat → Z.of_nat (length ws + k) < 2 ^ 31 - 2 →
  ∃ ns s' sl' g', check_at c times s = Done tt s' ∧ length ns = k ∧
    queue_ok c (ws ++ ns) sl' g' (work s') ∧
    (∀ v, v ∈ ns → works (work s) !! v = None ∧ works (work s') !! v = Some (callback tm, args tm)) ∧
    (∀ v, v ∉ ns → works (work s') !! v = works (work s) !! v) ∧
    (if (0 <? count tm) && (count tm <=? Z.of_nat (length times)) then timers_ok c (freed [t] XT) (kept [t] LT) [] s'
     else ∃ tm', timers_ok c XT LT [(t, tm')] s' ∧ callback tm' = callback tm ∧ during_time tm' = during_time tm).
Proof.
  revert tm s ws sl g X L. induction times as [|now times IH];
    intros tm s ws sl g X L Hok Hq Hm Hblk Hi Hd Hc Hsp k Hk Hb.
  { exists [], s, sl, g. split; [done|]. unfold k, shots. cbn [length]. rewrite app_nil_r.
    split_and!; [by destruct (0 <? count tm)|done|by intros v ?%elem_of_nil|done|].
    destruct (Z.ltb_spec 0 (count tm)), (Z.leb_spec (count tm) (Z.of_nat 0)); try lia; by exists tm. }
  destruct Hsp as [Hnow Hsp]. set (s0 := set_ticks now s).
  assert (Hok0 : timers_ok c XT LT [(t, tm)] s0) by (by destruct Hok; split).
  pose proof (tick_expired now tm Hi Hd ltac:(lia) Hc) as Etick.
  assert (Ef : fired (sys_ticks s0) [(t, tm)] = [tm]) by (simpl; by rewrite Etick).
  assert (Ej : jobs [tm] = [(callback tm, args tm)]) by (unfold jobs; simpl; by rewrite Hblk).
  assert (Hk1 : (1 <= k)%nat).
  { unfold k, shots. cbn [length]. destruct (Z.ltb_spec 0 (count tm)); lia. }
  destruct (wake_all_ok c [tm] ws sl g X L (work s0) Hq Hm) as
    (ns1 & w1 & Ew & Hq1 & Hm1 & _ & Hlen1 & Hfr1 & Hold1 & Hnew1); [rewrite Ej; simpl; lia..|].
  set (sl1 := awake (jobs [tm]) sl) in *. set (g1 := granted (jobs [tm]) sl g) in *.
  rewrite <-Ef in Ew. destruct (timer_try_wake_ok c _ _ _ s0 w1 Hok0 Ew) as (s1 & E1 & <- & _ & _ & _ & Hok1).
  rewrite Ej in Hlen1, Hnew1. destruct ns1 as [|v [|]]; simpl in Hlen1; try lia.
  assert (Hstart : check_at c (now :: times) s = check_at c times s1).
  { simpl. erewrite bind_Done by done. by erewrite bind_Done by exact E1. }
  rewrite Hstart. cbv zeta in Hok1. simpl survivors in Hok1. simpl spent in Hok1. rewrite Etick in Hok1. cbn [fst] in Hok1.
  assert (Hv1 : works (work s1) !! v = Some (callback tm, args tm)) by (by apply (Hnew1 0%nat v)).
  destruct (Hfr1 v) as [HvX Hv0]; [by left|].
  destruct (Z.eqb_spec (count tm) 1) as [E1c|E1c].
  - destruct (check_empty c _ _ times s1 Hok1) as (s2 & E2 & Hok2 & W2).
    exists [v], s2, sl1, g1. split; [done|]. unfold k, shots. rewrite E1c, W2. cbn [length].
    split_and!; [simpl; lia|done|by intros u ->%list_elem_of_singleton|done|].
    simpl (0 <? 1). destruct (Z.leb_spec 1 (Z.of_nat (S (length times)))); [done|lia].
  - rewrite freed_nil, kept_nil in Hok1. set (cnt := if 0 <? count tm then count tm - 1 else -1) in *.
    set (tm1 := set_count cnt (set_init now tm)) in *.
    assert (Hcnt : k = S (shots cnt (length times)) ∧ -1 <= cnt < 2 ^ 31 ∧
      ((0 <? count tm) && (count tm <=? Z.of_nat (length (now :: times)))) =
      ((0 <? cnt) && (cnt <=? Z.of_nat (length times)))).
    { unfold k, shots, cnt. cbn [length]. destruct (Z.ltb_spec 0 (count tm)).
      - destruct (Z.ltb_spec 0 (count tm - 1)); [|lia]. split_and!; [lia..|]. simpl.
        destruct (Z.leb_spec (count tm) (Z.of_nat (S (length times)))), (Z.leb_spec (count tm - 1) (Z.of_nat (length times))); lia.
      - by split_and!. }
    destruct Hcnt as (Hk' & Hcr & Hend).
    destruct (IH tm1 s1 (ws ++ [v]) sl1 g1 _ _ Hok1 Hq1 Hm1) as (ns & s2 & sl2 & g2 & E2 & Hlen2 & Hq2 & Hfr2 & Hold2 & Hfin);
      [done|simpl; lia|done|done|done| | |].
    { change (count tm1) with cnt. replace (list_to_set [v]) with ({[v]} : gset Z) by set_solver.
      rewrite size_difference, size_singleton by set_solver. lia. }
    { rewrite length_app. change (count tm1) with cnt. simpl. lia. }
    exists (v :: ns), s2, sl2, g2. split; [done|]. change (count tm1) with cnt in *.
    assert (Hvns : v ∉ ns) by (intros [Hn _]%Hfr2; congruence).
    split_and!.
    + simpl. lia.
    + by rewrite <-app_assoc in Hq2.
    + intros u [->|Hu]%elem_of_cons.
      * split; [done|]. by rewrite Hold2.
      * destruct (Hfr2 u Hu) as [Hn Hs]. split; [|done]. rewrite <-Hold1; [done|].
        intros ->%list_elem_of_singleton. done.
    + intros u [Hne Hu]%not_elem_of_cons. rewrite Hold2 by done. apply Hold1.
      by intros ?%list_elem_of_singleton.
    + rewrite Hend. destruct ((0 <? cnt) && _); [done|]. destruct Hfin as (tm' & ? & ? & ?). by exists tm'.
Qed.

(** A timer of non-blocking callback, checked at ticks at each of which it has
    expired again, fires exactly [count] times and is then off the queue; with
    a count of NO_RESTRICT it fires every time, and so it does with a count of 0,
    which the first decrement turns into NO_RESTRICT. *)
Theorem timer_fires c t XT LT tm times s ws sl g X L :
  timers_ok c XT LT [(t, tm)] s → queue_ok c ws sl g (work s) → mem_ok X L (work s) →
  block tm = TIMER_NO_BLOCK → 0 <= init_time tm → 0 <= during_time tm → -1 <= count tm < 2 ^ 31 →
  spaced (init_time tm) (during_time tm) times → (length times <= size X)%nat →
  Z.of_nat (length ws + length times) < 2 ^ 31 - 2 →
  ∃ ns s' sl' g', check_at c times s = Done tt s' ∧ queue_ok c (ws ++ ns) sl' g' (work s') ∧
    length ns = (if 0 <? count tm then Nat.min (length times) (Z.to_nat (count tm)) else length times) ∧
    (∀ v, v ∈ ns → works (work s') !! v = Some (callback tm, args tm)) ∧
    (0 < count tm <= Z.of_nat (length times) → timers_ok c ({[t]} ∪ XT) (LT ∖ {[t]}) [] s').
Proof.
  intros Hok Hq Hm Hblk Hi Hd Hc Hsp HX Hb.
  assert (Hk : (shots (count tm) (length times) <= length times)%nat).
  { unfold shots. destruct (0 <? count tm); lia. }
  destruct (check_at_ok c t XT LT times tm s ws sl g X L Hok Hq Hm Hblk Hi Hd Hc Hsp) as
    (ns & s' & sl' & g' & E & Hlen & Hq' & Hfr & _ & Hend); [lia|lia|].
  exists ns, s', sl', g'. split_and!; [done|done|done|intros v Hv; by apply Hfr|].
  intros [Hpos Hle]. destruct (Z.ltb_spec 0 (count tm)), (Z.leb_spec (count tm) (Z.of_nat (length times))); [|lia..].
  unfold freed, kept in Hend. simpl in Hend. by rewrite union_empty_r_L in Hend.
Qed.

Lemma timer_create_ok c cb a during cnt blk l s X L :
  timers_ok c X L l s → X ≠ ∅ →
  ∃ t s', timer_create c cb a during cnt blk s = Done t s' ∧ t ∈ X ∧ t ≠ 0 ∧
    (∀ u, u ≠ t → timers s' !! u = timers s !! u) ∧ timers s !! t = None ∧
    timers_ok c (X ∖ {[t]}) ({[t]} ∪ L) ((t, Timer cb a (sys_ticks s) during cnt blk) :: l) s' ∧
    work s' = work s ∧ downs s' = downs s ∧ sys_ticks s' = sys_ticks s.
Proof.
  intros Hok HX. pose proof (m_objs _ _ _ _ _ Hok) as Ho. destruct (obj_alloc_ok _ _ _ Ho HX) as (t & k' & Ea & HtX & Ho').
  pose proof (obj_rep_nonnull _ _ _ _ Ho HtX) as Ht0. pose proof (obj_rep_disjoint _ _ _ Ho) as Hdis.
  assert (Hnew : t ∉ l.*1) by (intros Hin%(m_out _ _ _ _ _ _ Hok); set_solver).
  set (tm := Timer cb a (sys_ticks s) during cnt blk).
  set (h1 := <[Tm t := default (Node (Tm 0) (Tm 0)) (tlinks s !! Tm t)]> (tlinks s)).
  assert (Hnin : Tm t ∉ TimerQueue c :: (Tm <$> l.*1)).
  { rewrite elem_of_cons, list_elem_of_fmap. intros [?|(u & [= <-] & Hu)]; done. }
  destruct (m_list _ _ _ _ _ Hok) as [Hnd Hp].
  assert (Hl1 : dll h1 (TimerQueue c) (Tm <$> l.*1)).
  { split; [done|]. eapply path_frame; [|exact Hp]. intros q Hq. unfold h1. rewrite lookup_insert_ne; [done|].
    intros <-. apply Hnin. clear -Hq. set_solver. }
  destruct (list_add_head_dll (Tm t) _ _ _ Hl1 Hnin) as (h' & Eh & Hl' & _); [unfold h1; rewrite lookup_insert_eq; eauto|].
  exists t. eexists. split; [|split; [done|split; [done|split; [|split; [|split]]]]].
  - unfold timer_create. erewrite bind_Done by (unfold zoom; by rewrite Ea).
    rewrite (proj2 (Z.eqb_neq _ _) Ht0). erewrite bind_Done by done. erewrite bind_Done by done.
    erewrite bind_Done by done. erewrite bind_Done; [done|].
    unfold assign_cpu, update. simpl. fold h1. by rewrite Eh.
  - intros u Hu. simpl. by apply lookup_insert_ne.
  - apply eq_None_not_Some. intros Hs%(m_live _ _ _ _ _ Hok). set_solver.
  - split; simpl; [done| |done|].
    + intros u um [[= -> ->]|Hu]%elem_of_cons; [apply lookup_insert_eq|].
      rewrite lookup_insert_ne; [by apply (m_timers _ _ _ _ _ Hok)|]. intros <-. apply Hnew, list_elem_of_fmap. by eexists (_, _).
    + intros u. rewrite lookup_insert_is_Some. intros [<-|[_ ?%(m_live _ _ _ _ _ Hok)]]; set_solver.
  - done.
Qed.

(** The function pointer that a work of [thread_timer_sleep] carries. *)
Definition run_work (f a : Z) : M timer_state unit :=
  if f =? thread_time_up_addr then thread_time_up a else fault.

(** Thread [t] sleeps [d] ticks on CPU [c]; the timer interrupt checks the
    timers at tick [now]; the work handler [h] of the CPU, which may be [asleep] on
    its queue or not have come to its [sem_wait] yet, runs the work. *)
Definition sleep_and_wake (c t h d now : Z) (asleep : bool) : M timer_state bool :=
  b ← thread_timer_sleep c t d;
  modify (set_ticks now);;
  timer_try_wake c;;
  (if asleep then mret tt else
     b' ← zoom work set_work (work_wait c h); if (b' : bool) then fault else mret tt);;
  work_handle work set_work run_work c;;
  mret b.

(** The call of [thread_timer_sleep] up to its [sem_wait], which suspends the thread. *)
Lemma thread_timer_sleep_ok c t d s X L XT LT :
  timers_ok c XT LT [] s → obj_rep (wkmc (work s)) X L → X ≠ ∅ → XT ≠ ∅ → downs s = ∅ →
  ∃ td tm k s', thread_timer_sleep c t d s = Done true s' ∧ td ∈ X ∧ obj_rep k (X ∖ {[td]}) ({[td]} ∪ L) ∧
    work s' = set_wkmc k (work s) ∧ downs s' = {[td := (t, Sem (-1) [t])]} ∧ tm ∈ XT ∧
    timers s !! tm = None ∧ (∀ u, u ≠ tm → timers s' !! u = timers s !! u) ∧
    timers_ok c (XT ∖ {[tm]}) ({[tm]} ∪ LT) [(tm, Timer thread_time_up_addr td (sys_ticks s) d 1 TIMER_NO_BLOCK)] s'.
Proof.
  intros Hok Hk HX0 HXT Hdn.
  destruct (obj_alloc_ok _ _ _ Hk HX0) as (td & k1 & Ea & Htd & Hk1).
  pose proof (obj_rep_nonnull _ _ _ _ Hk Htd) as Htd0.
  set (w1 := set_wkmc k1 (work s)). set (s1 := set_downs {[td := (t, sem_init 0)]} (set_work w1 s)).
  assert (Hok1 : timers_ok c XT LT [] s1) by (by destruct Hok; split).
  destruct (timer_create_ok c thread_time_up_addr td d 1 TIMER_NO_BLOCK [] s1 XT LT Hok1 HXT) as
    (tm & s2 & Ec & HtX & _ & Ot & Nt & Hok2 & W2 & D2 & T2).
  set (s3 := set_downs {[td := (t, Sem (-1) [t])]} s2).
  assert (D2' : downs s2 = {[td := (t, sem_init 0)]}) by (by rewrite D2).
  exists td, tm, k1, s3. split; [|split_and!; [done|done|exact W2|done|done|done|exact Ot|by destruct Hok2; split]].
  unfold thread_timer_sleep. erewrite bind_Done by (unfold zoom; by rewrite Ea). fold w1.
  rewrite (proj2 (Z.eqb_neq _ _) Htd0). erewrite bind_Done by done.
  rewrite (bind_Done (modify _) _ _ tt s1) by (unfold modify, s1; simpl; by rewrite Hdn).
  erewrite bind_Done by exact Ec.
  erewrite bind_Done by (unfold deref; by rewrite D2', lookup_singleton_eq).
  change (sem_wait t (t, sem_init 0).2) with (Sem (-1) [t], true). cbv iota beta.
  rewrite (bind_Done (modify _) _ _ tt s3); [done|]. unfold modify, s3. by rewrite D2', insert_singleton_eq.
Qed.

(** The callback wakes the thread that waits and frees its semaphore. *)
Lemma thread_time_up_ok td t s X L :
  downs s = {[td := (t, Sem (-1) [t])]} → obj_rep (wkmc (work s)) X L → td ∈ L →
  ∃ k, thread_time_up td s = Done tt (set_downs ∅ (set_work (set_wkmc k (add_call (WakeupProcess t) (work s))) s)) ∧
    obj_rep k ({[td]} ∪ X) (L ∖ {[td]}).
Proof.
  intros D Hk Htd. destruct (obj_free_ok _ _ _ td Hk) as (k & Efree & Hk'); [done|]. exists k. split; [|done].
  unfold thread_time_up. erewrite bind_Done by (unfold deref; by rewrite D, lookup_singleton_eq).
  change (sem_signal (t, Sem (-1) [t]).2) with (Some (Sem 0 [], Some t)). cbv iota beta.
  erewrite bind_Done by done. erewrite bind_Done by done.
  erewrite bind_Done by (unfold zoom; simpl; by rewrite Efree).
  unfold modify. simpl. rewrite D. by rewrite insert_singleton_eq, delete_singleton_eq.
Qed.

Definition sleeping (h : Z) (asleep : bool) : option Z := if asleep then Some h else None.

(** The handler gets to its work: it is woken, or its [sem_wait] does not block. *)
Lemma handler_gets_on c h v asleep X L s :
  queue_ok c [v] (awake [(0, 0)] (sleeping h asleep)) (granted [(0, 0)] (sleeping h asleep) 0) (work s) →
  mem_ok X L (work s) →
  ∃ w', (if asleep then mret tt else
     b' ← zoom work set_work (work_wait c h); if (b' : bool) then fault else mret tt) s = Done tt (set_work w' s) ∧
    queue_ok c [v] None 1 w' ∧ mem_ok X L w' ∧ works w' = works (work s) ∧ calls w' = calls (work s).
Proof.
  intros Hq Hm. destruct asleep; simpl in Hq; [exists (work s); by destruct s|].
  destruct (work_wait_ok c h [v] X L (work s) Hq Hm) as (w' & E & Hq' & Hm' & Hw & Hc). exists w'.
  split; [|by split_and!]. erewrite bind_Done by (unfold zoom; by rewrite E). done.
Qed.

(** The rest of its round: the callback and the two releases. *)
Lemma handler_wakes c v td t s X L :
  queue_ok c [v] None 1 (work s) → mem_ok X L (work s) → works (work s) !! v = Some (thread_time_up_addr, td) →
  downs s = {[td := (t, Sem (-1) [t])]} → td ∈ L → v ∈ L → td ≠ v → works (work s) !! td = None →
  ∃ w', work_handle work set_work run_work c s = Done tt (set_downs ∅ (set_work w' s)) ∧
    queue_ok c [] None 0 w' ∧ mem_ok ({[v; td]} ∪ X) (L ∖ {[v; td]}) w' ∧
    works w' = delete v (works (work s)) ∧ calls w' = calls (work s) ++ [WakeupProcess t].
Proof.
  intros Hq Hm Hv D Htd HvL Hne Hnone.
  destruct (work_take_ok c v [] None 1 X L (work s) Hq ltac:(lia) Hm) as (w1 & E1 & Hq1 & Hm1 & W1 & C1).
  set (s1 := set_work w1 s). destruct (thread_time_up_ok td t s1 X L D (proj1 Hm1) Htd) as (k & E2 & Hk).
  set (w2 := set_wkmc k (add_call (WakeupProcess t) w1)).
  assert (Hm2 : mem_ok ({[td]} ∪ X) (L ∖ {[td]}) w2).
  { split; [done|]. simpl. intros u Hu. pose proof (proj2 Hm1 u Hu). apply elem_of_difference. split; [done|].
    intros ->%elem_of_singleton. rewrite W1, Hnone in Hu. by destruct Hu. }
  destruct (work_free_ok v _ _ w2 Hm2) as (k' & E3 & Hm3); [set_solver|].
  eexists. split; [|split; [apply (queue_ok_free c [] None 0 v k' w2); [exact Hq1|apply not_elem_of_nil]|]].
  - unfold work_handle. erewrite bind_Done by (unfold zoom; by rewrite E1). unfold work_call.
    fold s1. erewrite bind_Done by (unfold deref; change (work s1) with w1; by rewrite W1, Hv).
    erewrite bind_Done by (unfold run_work; exact E2). unfold zoom. simpl. fold w2. by rewrite E3.
  - split_and!; [|simpl; by rewrite W1|simpl; by rewrite C1].
    replace ({[v; td]} ∪ X) with ({[v]} ∪ ({[td]} ∪ X)) by set_solver.
    by replace (L ∖ {[v; td]}) with (L ∖ {[td]} ∖ {[v]}) by set_solver.
Qed.

(** C21: A thread that sleeps is woken: it blocks in [thread_timer_sleep]; the first
    check at or after the end of its time hands [thread_time_up] to the work
    handler, which wakes exactly this thread; the timer is gone and all that the
    sleep allocated is free again: the timer, the [thread_down] and the work. *)
Theorem sleep_wakes c t h d now asleep s X L XT LT :
  timers_ok c XT LT [] s → queue_ok c [] (sleeping h asleep) 0 (work s) → mem_ok X L (work s) → (2 <= size X)%nat →
  XT ≠ ∅ → downs s = ∅ → 0 <= sys_ticks s → 0 <= d → sys_ticks s + d <= now < 2 ^ 64 →
  ∃ s', sleep_and_wake c t h d now asleep s = Done true s' ∧
    calls (work s') = calls (work s) ++ push_calls (sleeping h asleep) ++ [WakeupProcess t] ∧
    timers_ok c XT LT [] s' ∧ timers s' = timers s ∧ downs s' = ∅ ∧
    queue_ok c [] None 0 (work s') ∧ mem_ok X L (work s') ∧ works (work s') = works (work s).
Proof.
  intros Hok Hq [Hk HL] HX HXT Hdn Ht0 Hd Hnow.
  pose proof (obj_rep_disjoint _ _ _ Hk) as Hdis. pose proof (obj_rep_disjoint _ _ _ (m_objs _ _ _ _ _ Hok)) as HdisT.
  destruct (thread_timer_sleep_ok c t d s X L XT LT) as
    (td & tm & k1 & s3 & Es & Htd & Hk1 & W3 & D3 & Htm & N3 & O3 & Hok2); try done.
  { intros ->. rewrite size_empty in HX. lia. }
  set (s4 := set_ticks now s3). set (tmr := Timer thread_time_up_addr td (sys_ticks s) d 1 TIMER_NO_BLOCK) in *.
  assert (Hok4 : timers_ok c (XT ∖ {[tm]}) ({[tm]} ∪ LT) [(tm, tmr)] s4) by (by destruct Hok2; split).
  assert (Etick : tick now tmr = (None, true)) by (rewrite tick_expired by (simpl; lia); done).
  assert (Ef : fired (sys_ticks s4) [(tm, tmr)] = [tmr]) by (simpl; by rewrite Etick).
  assert (Ej : jobs [tmr] = [(thread_time_up_addr, td)]) by done.
  assert (Hq4 : queue_ok c [] (sleeping h asleep) 0 (work s4)) by (change (work s4) with (work s3); by rewrite W3).
  assert (Hm4 : mem_ok (X ∖ {[td]}) ({[td]} ∪ L) (work s4)).
  { change (work s4) with (work s3). rewrite W3. split; [done|]. intros v Hv%HL. set_solver. }
  destruct (wake_all_ok c (fired (sys_ticks s4) [(tm, tmr)]) [] (sleeping h asleep) 0 _ _ _ Hq4 Hm4) as
    (ns & w5 & Ew & Hq5 & Hm5 & Hc5 & Hlen & Hfr5 & Hold5 & Hns).
  { rewrite Ef, Ej, size_difference, size_singleton by set_solver. simpl. lia. }
  { rewrite Ef, Ej. simpl. lia. }
  destruct (timer_try_wake_ok c _ _ _ s4 w5 Hok4 Ew) as (s5 & E5 & <- & _ & D5 & O5 & Hok5).
  rewrite Ef, Ej in Hlen, Hns. destruct ns as [|v [|]]; simpl in Hlen; try lia.
  destruct (Hfr5 v) as [HvX Hvn]; [by left|]. pose proof (Hns 0%nat v eq_refl) as Hv. rewrite Ef, Ej in Hq5.
  destruct (handler_gets_on c h v asleep _ _ s5 Hq5 Hm5) as (w6 & E6 & Hq6 & Hm6 & W6 & C6).
  set (s6 := set_work w6 s5) in *. assert (D6 : downs s6 = {[td := (t, Sem (-1) [t])]}) by (exact (eq_trans D5 D3)).
  assert (Ntd : works (work s6) !! td = None).
  { change (work s6) with w6. rewrite W6, Hold5 by (intros ->%list_elem_of_singleton; set_solver).
    change (work s4) with (work s3). rewrite W3. apply eq_None_not_Some. simpl. intros ?%HL. set_solver. }
  destruct (handler_wakes c v td t s6 _ _ Hq6 Hm6) as (w7 & E7 & Hq7 & Hm7 & W7 & C7);
    [change (work s6) with w6; by rewrite W6, Hv|done|set_solver|set_solver|intros ->; set_solver|done|].
  assert (Hnew : works (work s) !! v = None) by (change (work s4) with (work s3) in Hvn; by rewrite W3 in Hvn).
  assert (Hend : timers_ok c XT LT [] (set_downs ∅ (set_work w7 s6))).
  { cbv zeta in Hok5. simpl survivors in Hok5. simpl spent in Hok5. change (sys_ticks s4) with now in Hok5.
    rewrite Etick in Hok5. cbn [fst] in Hok5. unfold freed, kept in Hok5. simpl in Hok5.
    replace ({[tm]} ∪ ∅ ∪ XT ∖ {[tm]}) with XT in Hok5.
    2:{ apply set_eq. intros u. destruct (decide (u = tm)); set_solver. }
    replace (({[tm]} ∪ LT) ∖ ({[tm]} ∪ ∅)) with LT in Hok5 by set_solver. by destruct Hok5; split. }
  exists (set_downs ∅ (set_work w7 s6)). split_and!.
  - unfold sleep_and_wake. erewrite bind_Done by exact Es. erewrite bind_Done by done.
    erewrite bind_Done by exact E5. erewrite bind_Done by exact E6. by erewrite bind_Done by exact E7.
  - simpl. rewrite C7. change (work s6) with w6. rewrite C6, Hc5, Ef. change (work s4) with (work s3). rewrite W3.
    simpl. by rewrite app_nil_r, <-app_assoc.
  - done.
  - apply map_eq. intros u. destruct (decide (u = tm)) as [->|Hne].
    + rewrite N3. apply eq_None_not_Some. intros Hs%(m_live _ _ _ _ _ Hend). set_solver.
    + change (timers s5 !! u = timers s !! u). rewrite O5 by (by intros ?%list_elem_of_singleton). by apply O3.
  - done.
  - done.
  - simpl list_to_set in Hm7. destruct Hm7 as [Hk7 HL7]. split; [|intros u Hu%HL7; set_solver].
    replace X with ({[v; td]} ∪ X ∖ {[td]} ∖ ({[v]} ∪ ∅)); [replace L with (({[v]} ∪ ∅ ∪ ({[td]} ∪ L)) ∖ {[v; td]}); [done|]|].
    + set_solver.
    + apply set_eq. intros u. destruct (decide (u = td)), (decide (u = v)); set_solver.
  - simpl. rewrite W7. change (work s6) with w6. rewrite W6. apply map_eq. intros u.
    destruct (decide (u = v)) as [->|Hne]; [by rewrite lookup_delete_eq|].
    rewrite lookup_delete_ne, Hold5 by (done || by intros ?%list_elem_of_singleton).
    change (work s4) with (work s3). by rewrite W3.
Qed.
End timer.
Arguments timer_state : clear implicits.

(** After [time_init], with memory for two timers and two works. *)
Definition demo_timers : timer_state stock stock :=
  match time_init (TS 5 ∅ ∅ (Stock [500; 400] ∅) demo_work ∅) with
  | Done _ s => s
  | _ => TS 0 ∅ ∅ (Stock [] ∅) demo_work ∅
  end.

Lemma demo_timers_rep : obj_rep (timer_kmem_cache demo_timers) {[500; 400]} ∅.
Proof.
  simpl. split_and!; try done; try set_solver.
  apply NoDup_cons. split; [by intros ?%list_elem_of_singleton|apply NoDup_singleton].
Qed.
Lemma demo_timers_ok : timers_ok 0 {[500; 400]} ∅ [] demo_timers.
Proof.
  split; [split; [apply NoDup_singleton|by vm_compute]|by intros ? ? ?%elem_of_nil|apply demo_timers_rep|].
  intros t [tm Ht]. by vm_compute in Ht.
Qed.

(** One timer of 10 ticks that is to fire once. *)
Lemma demo_timer : ∃ t s, timers_ok 0 ({[500; 400]} ∖ {[t]}) ({[t]} ∪ ∅) [(t, Timer 7 9 0 10 1 TIMER_NO_BLOCK)] s ∧
  work s = demo_work ∧ sys_ticks s = 0 ∧ t ∈ ({[500; 400]} : gset Z).
Proof.
  destruct (timer_create_ok 0 7 9 10 1 TIMER_NO_BLOCK [] demo_timers _ _ demo_timers_ok)
    as (t & s & _ & Ht & _ & _ & _ & Hok & Hw & _ & Hn); [set_solver|].
  exists t, s. by rewrite Hw, Hn.
Qed.

Lemma timer_fires_witness : ∃ t s ns s' XT LT, timers_ok 0 XT LT [(t, Timer 7 9 0 10 1 TIMER_NO_BLOCK)] s ∧
  check_at 0 [10; 20] s = Done tt s' ∧ length ns = 1%nat ∧ timers_ok 0 ({[t]} ∪ XT) (LT ∖ {[t]}) [] s' ∧
  ∀ v, v ∈ ns → works (work s') !! v = Some (7, 9).
Proof.
  destruct demo_timer as (t & s & Hok & Hw & Ht & _). destruct demo_work_ok as [Hq Hm].
  destruct (timer_fires 0 t _ _ _ [10; 20] s [] None 0 {[64; 32]} ∅ Hok) as (ns & s' & sl & g & E & _ & Hl & Hv & He);
    [by rewrite Hw..|done|done|done|simpl; lia|simpl; lia|vm_compute; lia|simpl; lia|].
  exists t, s, ns, s'. do 2 eexists. split_and!; [exact Hok|done|done|apply He; simpl; lia|done].
Defined.

(** At tick 10 the timer fires its last time. *)
Lemma timer_try_wake_correct_witness : ∃ t s v s', timers_ok 0 ({[500; 400]} ∖ {[t]}) ({[t]} ∪ ∅) [(t, Timer 7 9 0 10 1 TIMER_NO_BLOCK)] s ∧
  timer_try_wake 0 s = Done tt s' ∧ works (work s') !! v = Some (7, 9) ∧
  timers_ok 0 ({[t]} ∪ ∅ ∪ {[500; 400]} ∖ {[t]}) (({[t]} ∪ ∅) ∖ ({[t]} ∪ ∅)) [] s'.
Proof.
  destruct demo_timer as (t & s0 & Hok0 & Hw & Ht & _). destruct demo_work_ok as [Hq Hm].
  set (s := set_ticks 10 s0).
  assert (Hok : timers_ok 0 ({[500; 400]} ∖ {[t]}) ({[t]} ∪ ∅) [(t, Timer 7 9 0 10 1 TIMER_NO_BLOCK)] s) by (by destruct Hok0; split).
  destruct (timer_try_wake_correct 0 _ _ _ s [] None 0 {[64; 32]} ∅ Hok) as (ns & s' & E & Hok' & _ & _ & _ & _ & Hl & Hv & _);
    [change (work s) with (work s0); by rewrite Hw..|vm_compute; lia|by vm_compute|].
  destruct ns as [|v ns]; [done|]. exists t, s, v, s'. split_and!; [done|done|by apply (Hv 0%nat)|exact Hok'].
Defined.

Lemma sleep_wakes_witness : ∃ s', sleep_and_wake 0 100 90 7 9 false demo_timers = Done true s' ∧
  calls (work s') = calls demo_work ++ [WakeupProcess 100] ∧ mem_ok {[64; 32]} ∅ (work s').
Proof.
  destruct demo_work_ok as [Hq Hm].
  destruct (sleep_wakes 0 100 90 7 9 false demo_timers {[64; 32]} ∅ {[500; 400]} ∅ demo_timers_ok Hq Hm)
    as (s' & E & Hc & _ & _ & _ & _ & Hm' & _); [by vm_compute|set_solver|done|done|lia|split; by vm_compute|].
  by exists s'.
Defined.
