(* ===== verification/File.v ===== *)
(** Open files: kernel/file.c over the inodes and paths of easyfs.

    A [struct file] holds a reference to an inode, a position and a reference
    count; its mutex serialises reads, writes and seeks.  [junk] is what the
    path buffer holds when it is allocated (see Path), [me] the calling thread. *)
From S2P Require Import Prelude ListLib Containers StringLib Bitmap Buddy PageAlloc Semaphore ObjCache Bio BlockDev Layout Efs EfsFile Dentry Path.

Definition FILE_READ : Z := 1.
Definition FILE_WRITE : Z := 2.
Definition FILE_RDWR : Z := Z.lor FILE_READ FILE_WRITE.
Definition SEEK_SET : Z := 0.
Definition SEEK_CUR : Z := 1.
Definition SEEK_END : Z := 2.

Record file := File { f_ref : Z; f_flags : Z; f_ip : Z; f_off : Z; f_mutex : Mutex.mutex }.
Definition set_f_ref n (f : file) : file := File n (f_flags f) (f_ip f) (f_off f) (f_mutex f).
Definition set_f_flags n (f : file) : file := File (f_ref f) n (f_ip f) (f_off f) (f_mutex f).
Definition set_f_ip p (f : file) : file := File (f_ref f) (f_flags f) p (f_off f) (f_mutex f).
Definition set_f_off n (f : file) : file := File (f_ref f) (f_flags f) (f_ip f) n (f_mutex f).
Definition set_f_mutex m (f : file) : file := File (f_ref f) (f_flags f) (f_ip f) (f_off f) m.

Section files.
Context {P C B A K : Type} `{PageAllocLaws P} `{ObjCacheLaws C} `{BlockDevLaws B} `{ObjCacheLaws A} `{ObjCacheLaws K}.
Local Notation "'fs'" := (efs P C B).
Variables me : Z.

Record file_state := FileState { vfs : pathfs (efs P C B) A; files : gmap Z file; file_kmem_cache : K }.
Definition set_vfs v s := FileState v (files s) (file_kmem_cache s).
Definition set_files m s := FileState (vfs s) m (file_kmem_cache s).
Definition set_fcache k s := FileState (vfs s) (files s) k.
(** The inodes and the device under the files. *)
Definition ifs (s : file_state) : fs := pf_fs (vfs s).
Definition set_ifs (x : fs) (s : file_state) : file_state := set_vfs (set_pf_fs x (vfs s)) s.
Definition on_fs {X} (m : M fs X) : M file_state X := zoom ifs set_ifs m.

Definition file_at (f : Z) : M file_state file := deref (λ s, files s !! f).
Definition file_mod (f : Z) (g : file → file) : M file_state unit :=
  update (λ s, x ← files s !! f; Some (set_files (<[f := g x]> (files s)) s)).

Definition file_lock (f : Z) : M file_state unit :=
  x ← file_at f; m ← mutex_lock me (f_mutex x); file_mod f (set_f_mutex m).
Definition file_unlock (f : Z) : M file_state unit :=
  x ← file_at f; m ← mutex_unlock (f_mutex x); file_mod f (set_f_mutex m).

(** [file_alloc] writes through the result without a test for NULL. *)
Definition file_alloc : M file_state Z :=
  f ← zoom file_kmem_cache set_fcache obj_alloc;
  if f =? 0 then fault else
  modify (λ s, set_files (<[f := File 0 0 0 0 Mutex.mutex_init]> (files s)) s);;
  mret f.
Definition file_free (f : Z) : M file_state unit :=
  assert_ (negb (f =? 0));;
  zoom file_kmem_cache set_fcache (obj_free f);;
  modify (λ s, set_files (delete f (files s)) s).

Definition file_dup (f : Z) : M file_state Z :=
  x ← file_at f;
  assert_ (0 <? f_ref x);;
  file_mod f (set_f_ref (atomic_inc (f_ref x)));;
  mret f.

Definition file_open (junk file_path : list Z) (flags : Z) : M file_state Z :=
  i ← zoom vfs set_vfs (efs_d_namei me junk file_path);
  if i =? 0 then mret 0 else
  f ← file_alloc;
  file_mod f (set_f_ref 1);;
  file_mod f (λ x, set_f_flags (SET_FLAG (f_flags x) flags) x);;
  file_mod f (set_f_ip i);;
  file_mod f (set_f_off 0);;
  mret f.

Definition file_close (f : Z) : M file_state unit :=
  x ← file_at f;
  assert_ (0 <? f_ref x);;
  let '(n, last) := atomic_dec_and_test (f_ref x) in
  file_mod f (set_f_ref n);;
  if last : bool then on_fs (efs_i_put (f_ip x));; file_free f else mret tt.

(** The result and the bytes stored at [vaddr]. *)
Definition file_read (f len : Z) : M file_state (Z * list Z) :=
  x ← file_at f;
  if TEST_FLAG (f_flags x) FILE_READ =? 0 then mret (-1, []) else
  assert_ (negb (f_ip x =? 0));;
  file_lock f;;
  x ← file_at f;
  '(r, data) ← on_fs (efs_i_read me (f_ip x) (f_off x) len);
  (if 0 <? r then file_mod f (set_f_off (u32 (f_off x + r))) else panic);;
  file_unlock f;;
  mret (r, data).

Definition file_write (f len : Z) (data : list Z) : M file_state Z :=
  x ← file_at f;
  if TEST_FLAG (f_flags x) FILE_WRITE =? 0 then mret (-1) else
  assert_ (negb (f_ip x =? 0));;
  file_lock f;;
  x ← file_at f;
  r ← on_fs (efs_i_write me (f_ip x) (f_off x) len data);
  (if 0 <? r then file_mod f (set_f_off (u32 (f_off x + r))) else panic);;
  file_unlock f;;
  mret r.

(** The body of the [switch]: the comparisons with the [int] [efs_i_size] are
    unsigned, and so is [new_offset < 0]. *)
Definition seek_to (f new_offset size : Z) (check_neg : bool) : M file_state Z :=
  if (u32 size <? new_offset) || (check_neg && (new_offset <? 0)) then mret (-1)
  else file_mod f (set_f_off new_offset);; mret 0.
Definition file_llseek (f offset whence : Z) : M file_state Z :=
  x ← file_at f;
  assert_ (negb (f_ip x =? 0));;
  file_lock f;;
  x ← file_at f;
  ret ← (if whence =? SEEK_SET then
           size ← on_fs (efs_i_size (f_ip x)); seek_to f offset size false
         else if whence =? SEEK_CUR then
           size ← on_fs (efs_i_size (f_ip x)); seek_to f (u32 (f_off x + offset)) size true
         else if whence =? SEEK_END then
           size ← on_fs (efs_i_size (f_ip x)); seek_to f (u32 (size + offset)) size true
         else mret (-1));
  file_unlock f;;
  mret ret.

(** * Correctness *)

(** File [f], in state [x], is open on the inode [p]. *)
Record open_ok (lo N BK : Z) F (X : gset Z) s (f : Z) (x : file) i (σ : gmap floc (list floc)) (ds : list Z) : Prop := {
  oo_at : files s !! f = Some x;
  oo_idle : idle (f_mutex x);
  oo_ip : f_ip x ≠ 0;
  oo_ready : file_ready lo N BK F X (ifs s) (f_ip x) i σ ds;
  oo_off : is_u32 (f_off x);
  oo_size : 0 <= i_size (i_di i) <= MAXFILE * BLOCK_SIZE;
}.

(** The state with [f] replaced, and the file system under it. *)
Definition put (f : Z) (x : file) (v : fs) (s : file_state) : file_state :=
  set_files (<[f := x]> (files s)) (set_ifs v s).

Lemma put_same f x s : files s !! f = Some x → put f x (ifs s) s = s.
Proof.
  intros E. unfold put, set_ifs, set_vfs, set_files, set_pf_fs, ifs. destruct s as [[v m] fl k]. simpl in *.
  by rewrite insert_id.
Qed.
Lemma put_put f x y v w s : put f x v (put f y w s) = put f x v s.
Proof. unfold put, set_ifs, set_vfs, set_files. simpl. by rewrite insert_insert_eq. Qed.

Lemma file_at_ok f x v s : file_at f (put f x v s) = Done x (put f x v s).
Proof. unfold file_at, deref. simpl. by rewrite lookup_insert_eq. Qed.
Lemma file_mod_ok f g x v s : file_mod f g (put f x v s) = Done tt (put f (g x) v s).
Proof. unfold file_mod, update. simpl. rewrite lookup_insert_eq. simpl. unfold put, set_files. simpl. by rewrite insert_insert_eq. Qed.
Lemma on_fs_ok {R} (m : M fs R) f x v s r w : m v = Done r w → on_fs m (put f x v s) = Done r (put f x w s).
Proof. intros E. unfold on_fs, zoom, put, ifs. simpl. by rewrite E. Qed.
Lemma on_fs_panic {R} (m : M fs R) f x v s : m v = Panic → on_fs m (put f x v s) = Panic.
Proof. intros E. unfold on_fs, zoom, put, ifs. simpl. by rewrite E. Qed.

Definition locked_file (x : file) : file := set_f_mutex (held me) x.
Definition unlocked_file (x : file) : file := set_f_mutex released x.

Lemma file_lock_ok f x v s : idle (f_mutex x) → file_lock f (put f x v s) = Done tt (put f (locked_file x) v s).
Proof.
  intros Hi. unfold file_lock. rewrite (bind_Done _ _ _ _ _ (file_at_ok f x v s)).
  rewrite (bind_Done _ _ _ _ _ (mutex_lock_ok _ _ _ Hi)). apply file_mod_ok.
Qed.
Lemma file_unlock_ok f x v s : busy (f_mutex x) → file_unlock f (put f x v s) = Done tt (put f (unlocked_file x) v s).
Proof.
  intros Hi. unfold file_unlock. rewrite (bind_Done _ _ _ _ _ (file_at_ok f x v s)).
  rewrite (bind_Done _ _ _ _ _ (mutex_unlock_ok _ _ Hi)). apply file_mod_ok.
Qed.

(** ** Seeking *)

(** The position [file_llseek] moves to; [None]: it returns -1. *)
Definition seek_target (size off offset whence : Z) : option Z :=
  if whence =? SEEK_SET then (if size <? offset then None else Some offset)
  else if whence =? SEEK_CUR then (let n := u32 (off + offset) in if size <? n then None else Some n)
  else if whence =? SEEK_END then (let n := u32 (size + offset) in if size <? n then None else Some n)
  else None.

Lemma seek_to_ok f n size b x v s : 0 <= size < 2 ^ 31 → 0 <= n →
  seek_to f n size b (put f x v s) =
    if size <? n then Done (-1) (put f x v s) else Done 0 (put f (set_f_off n x) v s).
Proof.
  intros Hs Hn. unfold seek_to. rewrite u32_small by lia.
  rewrite (proj2 (Z.ltb_ge n 0)), andb_false_r, orb_false_r by lia.
  destruct (size <? n); [done|]. by rewrite (bind_Done _ _ _ _ _ (file_mod_ok _ _ _ _ _)).
Qed.

Lemma file_llseek_ok lo N BK F X s f x i σ ds offset whence :
  open_ok lo N BK F X s f x i σ ds → is_u32 offset →
  file_llseek f offset whence s =
    match seek_target (i_size (i_di i)) (f_off x) offset whence with
    | Some n => Done 0 (put f (unlocked_file (set_f_off n x)) (ifs s) s)
    | None => Done (-1) (put f (unlocked_file x) (ifs s) s)
    end.
Proof.
  intros [Hat Hidle Hip Hr Hoff Hsz] Hu. rewrite <-(put_same f x s Hat) at 1. unfold file_llseek.
  rewrite (bind_Done _ _ _ _ _ (file_at_ok f x _ s)). rewrite (proj2 (Z.eqb_neq _ _) Hip).
  rewrite (bind_Done _ _ _ tt (put f x (ifs s) s)) by done.
  rewrite (bind_Done _ _ _ _ _ (file_lock_ok f x _ s Hidle)).
  rewrite (bind_Done _ _ _ _ _ (file_at_ok f (locked_file x) _ s)).
  assert (H31 : MAXFILE * BLOCK_SIZE < 2 ^ 31) by done.
  assert (Esz : on_fs (efs_i_size (f_ip x)) (put f (locked_file x) (ifs s) s) =
    Done (i_size (i_di i)) (put f (locked_file x) (ifs s) s)).
  { apply on_fs_ok. unfold efs_i_size. rewrite (bind_Done _ _ _ _ _ (inode_at_ok _ _ _ (fr_at _ _ _ _ _ _ _ _ _ _ Hr))).
    unfold mret, M_ret. by rewrite i32_small by lia. }
  assert (Hend : ∀ (m : M file_state Z) r y, busy (f_mutex y) →
    m (put f (locked_file x) (ifs s) s) = Done r (put f y (ifs s) s) →
    (ret ← m; file_unlock f;; mret ret) (put f (locked_file x) (ifs s) s) = Done r (put f (unlocked_file y) (ifs s) s)).
  { intros m r y Hb E. rewrite (bind_Done _ _ _ _ _ E). by rewrite (bind_Done _ _ _ _ _ (file_unlock_ok f y _ s Hb)). }
  change (f_ip (locked_file x)) with (f_ip x). change (f_off (locked_file x)) with (f_off x). unfold seek_target.
  assert (Hseek : ∀ n b, 0 <= n →
    (size ← on_fs (efs_i_size (f_ip x)); seek_to f n size b) (put f (locked_file x) (ifs s) s) =
      if i_size (i_di i) <? n then Done (-1) (put f (locked_file x) (ifs s) s)
      else Done 0 (put f (set_f_off n (locked_file x)) (ifs s) s)).
  { intros n b Hn. rewrite (bind_Done _ _ _ _ _ Esz). apply seek_to_ok; [lia|done]. }
  unfold is_u32 in *. pose proof (u32_range (f_off x + offset)). pose proof (u32_range (i_size (i_di i) + offset)).
  destruct (whence =? SEEK_SET); [|destruct (whence =? SEEK_CUR); [|destruct (whence =? SEEK_END)]].
  - pose proof (Hseek offset false ltac:(lia)) as E. destruct (i_size (i_di i) <? offset); by apply Hend in E.
  - pose proof (Hseek _ true (proj1 (u32_range (f_off x + offset)))) as E. cbv zeta.
    destruct (i_size (i_di i) <? u32 (f_off x + offset)); by apply Hend in E.
  - pose proof (Hseek _ true (proj1 (u32_range (i_size (i_di i) + offset)))) as E. cbv zeta.
    assert (E' : (size ← on_fs (efs_i_size (f_ip x)); seek_to f (u32 (size + offset)) size true) (put f (locked_file x) (ifs s) s) =
      (size ← on_fs (efs_i_size (f_ip x)); seek_to f (u32 (i_size (i_di i) + offset)) size true) (put f (locked_file x) (ifs s) s)).
    { by rewrite !(bind_Done _ _ _ _ _ Esz). }
    rewrite <-E' in E. destruct (i_size (i_di i) <? u32 (i_size (i_di i) + offset)); by apply Hend in E.
  - by apply (Hend _ _ (locked_file x)).
Qed.

(** Seeking on every branch: the position moves to the offset asked for exactly
    when that is inside the file or at its end, and stays otherwise.  An offset
    below zero is passed as its 32-bit wrap-around; that the test [new_offset <
    0] can never succeed does no harm, since such a sum wraps to a number above
    any file size. *)
Theorem file_llseek_correct lo N BK F X s f x i σ ds off whence :
  open_ok lo N BK F X s f x i σ ds → - 2 ^ 31 <= off < 2 ^ 31 → f_off x <= i_size (i_di i) →
  let base := if whence =? SEEK_SET then Some 0 else if whence =? SEEK_CUR then Some (f_off x)
    else if whence =? SEEK_END then Some (i_size (i_di i)) else None in
  let r := b ← base; if decide (0 <= b + off <= i_size (i_di i)) then Some (b + off) else None in
  file_llseek f (u32 off) whence s =
    match r with
    | Some n => Done 0 (put f (unlocked_file (set_f_off n x)) (ifs s) s)
    | None => Done (-1) (put f (unlocked_file x) (ifs s) s)
    end.
Proof.
  intros Hok Hoff Hpos base r. pose proof (oo_size _ _ _ _ _ _ _ _ _ _ _ Hok) as Hsz.
  pose proof (oo_off _ _ _ _ _ _ _ _ _ _ _ Hok) as Hu.
  assert (H31 : MAXFILE * BLOCK_SIZE < 2 ^ 31) by done. unfold is_u32 in Hu.
  rewrite (file_llseek_ok _ _ _ _ _ _ _ _ _ _ _ _ _ Hok) by apply u32_range.
  replace (seek_target (i_size (i_di i)) (f_off x) (u32 off) whence) with r; [done|].
  assert (Hw : ∀ b, 0 <= b <= i_size (i_di i) →
    (if i_size (i_di i) <? u32 (b + u32 off) then None else Some (u32 (b + u32 off))) =
    if decide (0 <= b + off <= i_size (i_di i)) then Some (b + off) else None).
  { intros b Hb. assert (E : u32 (b + u32 off) = u32 (b + off)) by (unfold u32; by rewrite Zplus_mod_idemp_r).
    rewrite E. destruct (decide (0 <= b + off)) as [Hge|Hlt].
    - rewrite u32_small by lia. destruct (Z.ltb_spec (i_size (i_di i)) (b + off)); [rewrite decide_False by lia|rewrite decide_True by lia]; done.
    - assert (u32 (b + off) = b + off + 2 ^ 32) as -> by (unfold u32; symmetry; apply (Z.mod_unique _ _ (-1)); lia).
      destruct (Z.ltb_spec (i_size (i_di i)) (b + off + 2 ^ 32)); [by rewrite decide_False by lia|lia]. }
  unfold r, base, seek_target. destruct (whence =? SEEK_SET); [|destruct (whence =? SEEK_CUR); [|destruct (whence =? SEEK_END)]]; simpl.
  - rewrite <-(Hw 0) by lia. rewrite Z.add_0_l, (u32_small (u32 off)) by apply u32_range. done.
  - by rewrite Hw by lia.
  - by rewrite Hw by lia.
  - done.
Qed.

(** ** Reading and writing *)
Definition may (flag : Z) (x : file) : Prop := TEST_FLAG (f_flags x) flag ≠ 0.

(** The way into [file_read] and [file_write] until the inode operation. *)
Lemma file_enter lo N BK F X s f x i σ ds {R} flag (deny : R) (k : M file_state R) :
  open_ok lo N BK F X s f x i σ ds → may flag x →
  (x ← file_at f;
   if TEST_FLAG (f_flags x) flag =? 0 then mret deny else
   assert_ (negb (f_ip x =? 0));; file_lock f;; k) s = k (put f (locked_file x) (ifs s) s).
Proof.
  intros [Hat Hidle Hip _ _ _] Hf. rewrite <-(put_same f x s Hat) at 1.
  rewrite (bind_Done _ _ _ _ _ (file_at_ok f x _ s)), (proj2 (Z.eqb_neq _ _) Hf), (proj2 (Z.eqb_neq _ _) Hip).
  rewrite (bind_Done _ _ _ tt (put f x (ifs s) s)) by done.
  by rewrite (bind_Done _ _ _ _ _ (file_lock_ok f x _ s Hidle)).
Qed.

Lemma file_write_ok lo N BK F X s f x i σ ds data :
  open_ok lo N BK F X s f x i σ ds → may FILE_WRITE x → data ≠ [] → Z.of_nat (length data) < 2 ^ 32 →
  write_range i (f_off x) (Z.of_nat (length data)) →
  span (f_off x) (Z.of_nat (length data)) + need i <= Bmp.unused (bmap (ifs s)) →
  ∃ F' X' v' i', let x' := unlocked_file (set_f_off (f_off x + Z.of_nat (length data)) x) in
    file_write f (Z.of_nat (length data)) data s = Done (Z.of_nat (length data)) (put f x' v' s) ∧
    open_ok lo N BK F' X' (put f x' v' s) f x' i' (<[S_idirty_list := I_dirty <$> with_dirty (f_ip x) ds]> σ)
      (with_dirty (f_ip x) ds) ∧
    i_size (i_di i') = Z.max (i_size (i_di i)) (f_off x + Z.of_nat (length data)) ∧
    (∀ k, (k < length data)%nat → fbyte F' v' i' (f_off x + Z.of_nat k) = data !! k).
Proof.
  intros Hok Hf Hne Hlen Hrange Hroom. pose proof Hok as [Hat Hidle Hip Hr Hoff Hsz].
  assert (H32 : MAXFILE * BLOCK_SIZE < 2 ^ 32) by done.
  destruct (efs_i_write_ok me lo N BK F X (ifs s) (f_ip x) i σ ds (f_off x) data Hr Hoff Hlen) as
    (F' & X' & v' & i' & E & Ei & Hr' & Hsz' & _ & Hd & _); [unfold is_u32; lia|lia|done|done|].
  assert (Hl0 : 0 < Z.of_nat (length data)) by (destruct data; simpl in *; [done|lia]).
  destruct Hrange as (Ho1 & Ho2 & Ho3).
  exists F', X', v', i'. cbv zeta. split; [|split; [|split; [exact Hsz'|exact Hd]]].
  - unfold file_write. rewrite (file_enter _ _ _ _ _ _ _ _ _ _ _ _ _ _ Hok Hf).
    rewrite (bind_Done _ _ _ _ _ (file_at_ok f (locked_file x) _ s)).
    rewrite (bind_Done _ _ _ _ _ (on_fs_ok _ f (locked_file x) _ s _ _ E)).
    destruct (Z.ltb_spec 0 (Z.of_nat (length data))); [|lia].
    rewrite (bind_Done _ _ _ _ _ (file_mod_ok _ _ _ _ _)). change (f_off (locked_file x)) with (f_off x).
    rewrite u32_small by lia.
    rewrite (bind_Done _ _ _ _ _ (file_unlock_ok f (set_f_off (f_off x + Z.of_nat (length data)) (locked_file x)) v' s eq_refl)). done.
  - split; [by unfold put; simpl; rewrite lookup_insert_eq|done|done|exact Hr'|simpl; unfold is_u32; lia|].
    rewrite Hsz'. lia.
Qed.

Lemma file_read_ok lo N BK F X s f x i σ ds len :
  open_ok lo N BK F X s f x i σ ds → may FILE_READ x → is_u32 len → f_off x + len < 2 ^ 32 →
  f_off x <= i_size (i_di i) →
  ∃ d X' v' i',
    (∀ k, (k < length d)%nat → d !! k = fbyte F (ifs s) i (f_off x + Z.of_nat k)) ∧
    (Z.of_nat (length d) = read_len i (f_off x) len ∨
     (Z.of_nat (length d) < read_len i (f_off x) len ∧ fbyte F (ifs s) i (f_off x + Z.of_nat (length d)) = None)) ∧
    let x' := unlocked_file (set_f_off (f_off x + Z.of_nat (length d)) x) in
    if decide (d = []) then file_read f len s = Panic
    else file_read f len s = Done (Z.of_nat (length d), d) (put f x' v' s) ∧
      open_ok lo N BK F X' (put f x' v' s) f x' i' σ ds ∧ i_di i' = i_di i.
Proof.
  intros Hok Hf Hlen Hov Hpos. pose proof Hok as [Hat Hidle Hip Hr Hoff Hsz].
  assert (H32 : MAXFILE * BLOCK_SIZE < 2 ^ 32) by done.
  destruct (efs_i_read_ok me lo N BK F X (ifs s) (f_ip x) i σ ds (f_off x) len Hr Hoff Hlen) as
    (d & X' & v' & i' & E & Hd & Hl & Ei & Edi & Hr' & _); [unfold is_u32; lia|lia|done|done|].
  assert (Hld : Z.of_nat (length d) <= i_size (i_di i) - f_off x).
  { unfold read_len in Hl. destruct Hl as [Hl|[Hl _]]; lia. }
  unfold is_u32 in Hoff.
  exists d, X', v', i'. split; [done|]. split; [done|]. cbv zeta.
  assert (Estart : file_read f len s =
    ((if 0 <? Z.of_nat (length d) then file_mod f (set_f_off (u32 (f_off x + Z.of_nat (length d)))) else panic);;
     file_unlock f;; mret (Z.of_nat (length d), d)) (put f (locked_file x) v' s)).
  { unfold file_read. rewrite (file_enter _ _ _ _ _ _ _ _ _ _ _ _ _ _ Hok Hf).
    rewrite (bind_Done _ _ _ _ _ (file_at_ok f (locked_file x) _ s)).
    by rewrite (bind_Done _ _ _ _ _ (on_fs_ok _ f (locked_file x) _ s _ _ E)). }
  rewrite Estart. destruct d as [|b d]; [by rewrite decide_True|]. rewrite decide_False by done.
  set (n := Z.of_nat (length (b :: d))) in *. assert (Hn : 0 < n) by (unfold n; simpl; lia).
  destruct (Z.ltb_spec 0 n); [|lia]. rewrite (bind_Done _ _ _ _ _ (file_mod_ok _ _ _ _ _)).
  rewrite u32_small by lia.
  rewrite (bind_Done _ _ _ _ _ (file_unlock_ok f (set_f_off (f_off x + n) (locked_file x)) v' s eq_refl)).
  split; [done|]. split; [|done].
  split; [by unfold put; simpl; rewrite lookup_insert_eq|done|done|exact Hr'|simpl; unfold is_u32; lia|by rewrite Edi].
Qed.

(** C15: What is written is read back: writing [data] at the position of a file open
    for both, seeking back to where it started and reading as many bytes gives
    [data], with the position after it. *)
Theorem file_write_seek_read lo N BK F X s f x i σ ds data :
  open_ok lo N BK F X s f x i σ ds → may FILE_WRITE x → may FILE_READ x →
  data ≠ [] → Z.of_nat (length data) < 2 ^ 32 →
  write_range i (f_off x) (Z.of_nat (length data)) →
  span (f_off x) (Z.of_nat (length data)) + need i <= Bmp.unused (bmap (ifs s)) →
  ∃ s', (file_write f (Z.of_nat (length data)) data;;
         file_llseek f (f_off x) SEEK_SET;;
         file_read f (Z.of_nat (length data))) s = Done (Z.of_nat (length data), data) s' ∧
    ∃ x', files s' !! f = Some x' ∧ f_off x' = f_off x + Z.of_nat (length data) ∧ f_ip x' = f_ip x.
Proof.
  intros Hok Hw Hrd Hne Hlen Hrange Hroom. set (n := Z.of_nat (length data)) in *.
  assert (H32 : MAXFILE * BLOCK_SIZE < 2 ^ 32) by done.
  destruct (file_write_ok _ _ _ _ _ _ _ _ _ _ _ data Hok Hw Hne Hlen Hrange Hroom) as
    (F1 & X1 & v1 & i1 & E1 & Hok1 & Hsz1 & Hd1). fold n in E1, Hok1, Hsz1.
  set (x1 := unlocked_file (set_f_off (f_off x + n) x)) in *. destruct Hrange as (Ho1 & Ho2 & Ho3).
  pose proof (file_llseek_ok _ _ _ _ _ _ _ _ _ _ _ (f_off x) SEEK_SET Hok1 (oo_off _ _ _ _ _ _ _ _ _ _ _ Hok)) as E2.
  unfold seek_target in E2. simpl in E2. destruct (Z.ltb_spec (i_size (i_di i1)) (f_off x)); [lia|].
  change (ifs (put f x1 v1 s)) with v1 in E2. rewrite put_put in E2.
  set (x2 := unlocked_file (set_f_off (f_off x) x1)) in *.
  assert (Hok2 : open_ok lo N BK F1 X1 (put f x2 v1 s) f x2 i1 (<[S_idirty_list := I_dirty <$> with_dirty (f_ip x) ds]> σ)
      (with_dirty (f_ip x) ds)).
  { destruct Hok1 as [_ _ O3 O4 _ O6]. split; [by unfold put; simpl; rewrite lookup_insert_eq|done|done|exact O4| |done].
    apply Hok. }
  destruct (file_read_ok _ _ _ _ _ _ _ _ _ _ _ n Hok2 Hrd) as (d & X3 & v3 & i3 & Hd3 & Hl3 & E3);
    [unfold is_u32; lia|change (f_off x2) with (f_off x); lia|change (f_off x2) with (f_off x); lia|].
  change (f_off x2) with (f_off x) in *. change (ifs (put f x2 v1 s)) with v1 in *.
  assert (Hmin : read_len i1 (f_off x) n = n) by (unfold read_len; lia). rewrite Hmin in Hl3.
  assert (Hld : Z.of_nat (length d) = n).
  { destruct Hl3 as [?|[Hlt Hnone]]; [done|]. rewrite Hd1 in Hnone by lia.
    apply lookup_ge_None in Hnone. lia. }
  assert (d = data) as ->.
  { apply list_eq. intros k. destruct (decide (k < length data)%nat) as [Hk|Hk].
    - rewrite Hd3 by lia. by apply Hd1.
    - rewrite !lookup_ge_None_2 by lia. done. }
  rewrite decide_False in E3 by done. destruct E3 as (E3 & _ & _).
  eexists. split.
  - rewrite (bind_Done _ _ _ _ _ E1). rewrite (bind_Done _ _ _ _ _ E2). exact E3.
  - eexists. split; [by unfold put; simpl; rewrite lookup_insert_eq|done].
Qed.

(** Reading at the end of a file stops the machine: with the position at the
    size, [efs_i_read] returns 0 and [file_read] takes that for a failure. *)
Theorem file_read_eof_panics lo N BK F X s f x i σ ds len :
  open_ok lo N BK F X s f x i σ ds → may FILE_READ x → is_u32 len → f_off x + len < 2 ^ 32 →
  f_off x = i_size (i_di i) → file_read f len s = Panic.
Proof.
  intros Hok Hf Hlen Hov Heof.
  destruct (file_read_ok _ _ _ _ _ _ _ _ _ _ _ len Hok Hf Hlen Hov) as (d & X' & v' & i' & _ & Hl & E); [lia|].
  assert (d = []) as ->; [|exact E].
  apply length_zero_iff_nil. unfold read_len, is_u32 in *. destruct Hl as [?|[? _]]; lia.
Qed.

(** ** References *)

(** [file_close] gives up one reference: while others remain nothing else
    happens; the last one also gives up the file's reference to its inode and
    returns the object. *)
Theorem file_close_correct s f x i X L :
  files s !! f = Some x → f ≠ 0 → 0 < f_ref x < 2 ^ 31 → inodes (ifs s) !! f_ip x = Some i →
  0 < i_refcnt i < 2 ^ 31 → obj_rep (file_kmem_cache s) X L → f ∈ L →
  if decide (1 < f_ref x) then
    file_close f s = Done tt (set_files (<[f := set_f_ref (f_ref x - 1) x]> (files s)) s)
  else ∃ s', file_close f s = Done tt s' ∧ files s' = delete f (files s) ∧
    inodes (ifs s') = <[f_ip x := set_i_refcnt (i_refcnt i - 1) i]> (inodes (ifs s)) ∧
    obj_rep (file_kmem_cache s') ({[f]} ∪ X) (L ∖ {[f]}).
Proof.
  intros Hat Hf0 Href Hin Hic Ho HfL. pose proof (put_same f x s Hat) as Hs.
  assert (Estart : file_close f s =
    (if f_ref x - 1 =? 0 then on_fs (efs_i_put (f_ip x));; file_free f else mret tt)
      (put f (set_f_ref (f_ref x - 1) x) (ifs s) s)).
  { rewrite <-Hs at 1. unfold file_close. rewrite (bind_Done _ _ _ _ _ (file_at_ok f x _ s)).
    rewrite (proj2 (Z.ltb_lt 0 (f_ref x))) by lia. rewrite (bind_Done _ _ _ tt (put f x (ifs s) s)) by done.
    unfold atomic_dec_and_test. rewrite !i32_small by lia.
    rewrite (bind_Done _ _ _ _ _ (file_mod_ok _ _ _ _ _)). by replace (f_ref x + -1) with (f_ref x - 1) by lia. }
  rewrite Estart. destruct (decide (1 < f_ref x)) as [Hmore|Hlast].
  - destruct (Z.eqb_spec (f_ref x - 1) 0); [lia|]. unfold mret, M_ret. f_equal.
    unfold put, set_ifs, set_vfs, set_files, set_pf_fs, ifs. by destruct s as [[v m] fl k].
  - assert (f_ref x = 1) as -> by lia. change (1 - 1) with 0. change (0 =? 0) with true. cbv iota.
    set (y := set_f_ref 0 x) in *.
    set (v' := set_inodes (<[f_ip x := set_i_refcnt (i_refcnt i - 1) i]> (inodes (ifs s))) (ifs s)).
    assert (Eput : efs_i_put (f_ip x) (ifs s) = Done tt v').
    { unfold efs_i_put. rewrite (bind_Done _ _ _ _ _ (inode_at_ok _ _ _ Hin)).
      rewrite (proj2 (Z.ltb_lt 0 (i_refcnt i))) by lia. rewrite (bind_Done _ _ _ tt (ifs s)) by done.
      rewrite (inode_mod_ok _ _ _ _ Hin). unfold v'. do 4 f_equal. unfold atomic_dec, atomic_sub.
      rewrite (i32_small (- (1))), i32_small by lia. lia. }
    destruct (obj_free_ok _ _ _ f Ho HfL) as (k' & Ef & Ho').
    exists (set_files (delete f (files (put f y v' s))) (set_fcache k' (put f y v' s))).
    split; [|split; [|split; [|exact Ho']]].
    + rewrite (bind_Done _ _ _ _ _ (on_fs_ok _ f y (ifs s) s _ _ Eput)). unfold file_free.
      rewrite (proj2 (Z.eqb_neq _ _) Hf0). rewrite (bind_Done _ _ _ tt (put f y v' s)) by done.
      rewrite (bind_Done _ _ _ tt (set_fcache k' (put f y v' s))) by (unfold zoom; simpl; by rewrite Ef). done.
    + simpl. by rewrite delete_insert_eq.
    + done.
Qed.
End files.
Arguments file_state : clear implicits.

(** A file open for both on the demo inode of five bytes. *)
Definition demo_file (off : Z) : file := File 1 FILE_RDWR 7 off Mutex.mutex_init.
Definition demo_files (off : Z) : file_state page_stock stock ramdisk stock stock :=
  FileState (PathFs (demo_efs demo_bytes (set_i_refcnt 1 demo_inode)) (Stock [55] ∅)) {[900 := demo_file off]}
    (Stock [] {[900]}).

Definition demo_open (off : Z) : file_state page_stock stock ramdisk stock stock :=
  FileState (PathFs (demo_efs demo_bytes demo_inode) (Stock [55] ∅)) {[900 := demo_file off]} (Stock [] {[900]}).

Lemma demo_open_ok off : 0 <= off <= 5 →
  open_ok 1 16 4 (demo_f demo_bytes) demo_pages (demo_open off) 900 (demo_file off) demo_inode demo_lists [].
Proof.
  intros Hoff. split; [by vm_compute|done|done|exact demo_ready|unfold is_u32; simpl; lia|by vm_compute].
Qed.

Lemma file_llseek_correct_witness :
  (∃ s', file_llseek 1 900 (u32 (-3)) SEEK_CUR (demo_open 4) = Done 0 s') ∧
  ∃ s', file_llseek 1 900 (u32 (-5)) SEEK_CUR (demo_open 4) = Done (-1) s'.
Proof.
  split; eexists.
  - rewrite (file_llseek_correct 1 _ _ _ _ _ _ _ _ _ _ _ (-3) SEEK_CUR (demo_open_ok 4 ltac:(lia)) ltac:(lia) ltac:(by vm_compute)).
    reflexivity.
  - rewrite (file_llseek_correct 1 _ _ _ _ _ _ _ _ _ _ _ (-5) SEEK_CUR (demo_open_ok 4 ltac:(lia)) ltac:(lia) ltac:(by vm_compute)).
    reflexivity.
Defined.

Lemma file_write_seek_read_witness :
  ∃ s', (file_write 1 900 4 [76; 79; 33; 33];; file_llseek 1 900 3 SEEK_SET;; file_read 1 900 4) (demo_open 3) =
    Done (4, [76; 79; 33; 33]) s'.
Proof.
  destruct (file_write_seek_read 1 _ _ _ _ _ _ _ _ _ _ _ [76; 79; 33; 33] (demo_open_ok 3 ltac:(lia))) as (s' & E & _);
    [done|done|done|done|by vm_compute|by vm_compute|]. exists s'. exact E.
Defined.

Lemma file_read_eof_panics_witness : file_read 1 900 10 (demo_open 5) = Panic.
Proof.
  apply (file_read_eof_panics 1 _ _ _ _ _ _ _ _ _ _ _ 10 (demo_open_ok 5 ltac:(lia))); [done|done|simpl; lia|done].
Defined.

Lemma file_close_correct_witness : ∃ s', file_close 900 (demo_files 0) = Done tt s' ∧ files s' = ∅.
Proof.
  pose proof (file_close_correct (demo_files 0) 900 (demo_file 0) (set_i_refcnt 1 demo_inode) ∅ {[900]}) as Hc.
  destruct Hc as (s' & E & Ef & _); [done|done|simpl; lia|done|simpl; lia| |set_solver|].
  - split_and!; simpl; try done; try set_solver. constructor.
  - exists s'. split; [done|]. by rewrite Ef.
Defined.
