(* ===== verification/Virtio.v ===== *)
(** The virtio block driver, drive/virtio/virtio_disk.c.

    The descriptor table, the rings and the driver's own tables are arrays of
    the model; a descriptor points into the driver's tables or to a page.  The
    device is hardware: its answers to register reads and what it puts in the
    used ring are inputs; its index stands still while the interrupt handler
    runs.  [disk.desc] is seen as the memory of [NUM] descriptors from the address
    in it on; [virtio_disk_init] allocates the first of them only, so the rest is
    whatever lies behind it. *)
From S2P Require Import Prelude Semaphore.

Definition NUM : nat := 8.
Definition PGSIZE : Z := 4096.
Definition SECTOR_SIZE : Z := 512.
Definition DEV_READ : Z := 0.
Definition DEV_WRITE : Z := 1.
Definition VRING_DESC_F_NEXT : Z := 1.
Definition VRING_DESC_F_WRITE : Z := 2.
Definition VIRTIO_BLK_T_IN : Z := 0.
Definition VIRTIO_BLK_T_OUT : Z := 1.
Definition BLK_REQ_SIZE : Z := 16.
Definition VIRTQ_DESC_SIZE : Z := 16.

(** What a descriptor's [addr] designates: nothing (0), [disk.ops[i]], a page,
    or [disk.info[i].status]. *)
Inductive dma := Nowhere | Ops (i : nat) | Page (p : Z) | Status (i : nat).

Record virtq_desc := Desc { addr : dma; len : Z; flags : Z; next : Z }.
Definition empty_desc : virtq_desc := Desc Nowhere 0 0 0.
Record virtio_blk_req := Req { type : Z; reserved : Z; sector : Z }.

(** [avail_idx] and [ring] are [disk.avail]; [used_ring] and [dev_idx] are
    [disk.used], written by the device; [notified] counts the writes to
    QUEUE_NOTIFY, [isr] is what INTERRUPT_STATUS reads and [acks] the values
    written to INTERRUPT_ACK. *)
Record disk := Disk {
  desc : list virtq_desc; free : list bool; ops : list virtio_blk_req; status : list Z;
  avail_idx : Z; ring : list Z; used_ring : list Z; dev_idx : Z; used_idx : Z;
  intr : Mutex.mutex; mutex : Mutex.mutex; notified : Z; isr : Z; acks : list Z;
}.
Definition set_desc x d := Disk x (free d) (ops d) (status d) (avail_idx d) (ring d) (used_ring d) (dev_idx d) (used_idx d) (intr d) (mutex d) (notified d) (isr d) (acks d).
Definition set_free x d := Disk (desc d) x (ops d) (status d) (avail_idx d) (ring d) (used_ring d) (dev_idx d) (used_idx d) (intr d) (mutex d) (notified d) (isr d) (acks d).
Definition set_ops x d := Disk (desc d) (free d) x (status d) (avail_idx d) (ring d) (used_ring d) (dev_idx d) (used_idx d) (intr d) (mutex d) (notified d) (isr d) (acks d).
Definition set_status x d := Disk (desc d) (free d) (ops d) x (avail_idx d) (ring d) (used_ring d) (dev_idx d) (used_idx d) (intr d) (mutex d) (notified d) (isr d) (acks d).
Definition set_avail n r d := Disk (desc d) (free d) (ops d) (status d) n r (used_ring d) (dev_idx d) (used_idx d) (intr d) (mutex d) (notified d) (isr d) (acks d).
Definition set_used n d := Disk (desc d) (free d) (ops d) (status d) (avail_idx d) (ring d) (used_ring d) (dev_idx d) n (intr d) (mutex d) (notified d) (isr d) (acks d).
Definition set_intr m d := Disk (desc d) (free d) (ops d) (status d) (avail_idx d) (ring d) (used_ring d) (dev_idx d) (used_idx d) m (mutex d) (notified d) (isr d) (acks d).
Definition set_mutex m d := Disk (desc d) (free d) (ops d) (status d) (avail_idx d) (ring d) (used_ring d) (dev_idx d) (used_idx d) (intr d) m (notified d) (isr d) (acks d).
Definition notify d := Disk (desc d) (free d) (ops d) (status d) (avail_idx d) (ring d) (used_ring d) (dev_idx d) (used_idx d) (intr d) (mutex d) (notified d + 1) (isr d) (acks d).
Definition ack d := Disk (desc d) (free d) (ops d) (status d) (avail_idx d) (ring d) (used_ring d) (dev_idx d) (used_idx d) (intr d) (mutex d) (notified d) (isr d) (acks d ++ [Z.land (isr d) 3]).

(** An array store; out of range is a fault. *)
Definition poke {A} (i : Z) (x : A) (l : list A) : option (list A) :=
  if decide (0 <= i < Z.of_nat (length l)) then Some (<[Z.to_nat i := x]> l) else None.
Definition peek {A} (i : Z) (l : list A) : option A := if decide (0 <= i) then l !! Z.to_nat i else None.

Definition put_desc (i : Z) (x : virtq_desc) : M disk unit := update (λ d, l ← poke i x (desc d); Some (set_desc l d)).
Definition put_free (i : Z) (b : bool) : M disk unit := update (λ d, l ← poke i b (free d); Some (set_free l d)).

(** * Descriptors *)
Fixpoint alloc_desc_loop (n : nat) (i : Z) : M disk Z :=
  match n with
  | O => mret (-1)
  | S n =>
      b ← deref (λ d, peek i (free d));
      if b : bool then put_free i false;; mret i else alloc_desc_loop n (i + 1)
  end.
Definition alloc_desc : M disk Z := alloc_desc_loop NUM 0.

Definition free_desc (i : Z) : M disk unit :=
  (if Z.of_nat NUM <=? i then panic else mret tt);;
  b ← deref (λ d, peek i (free d));
  (if b : bool then panic else mret tt);;
  put_desc i empty_desc;;
  put_free i true.

(** [while (1)] along the chain. *)
Fixpoint free_chain (fuel : nat) (i : Z) : M disk unit :=
  match fuel with
  | O => out_of_fuel
  | S fuel =>
      x ← deref (λ d, peek i (desc d));
      free_desc i;;
      if negb (Z.land (flags x) VRING_DESC_F_NEXT =? 0) then free_chain fuel (next x) else mret tt
  end.

Fixpoint free_all (l : list Z) : M disk unit :=
  match l with [] => mret tt | j :: l => free_desc j;; free_all l end.
(** [alloc3_desc]: the result and what [idx] holds. *)
Fixpoint alloc_descs (n : nat) (got : list Z) : M disk (Z * list Z) :=
  match n with
  | O => mret (0, got)
  | S n =>
      i ← alloc_desc;
      if i <? 0 then free_all got;; mret (-1, got ++ [i]) else alloc_descs n (got ++ [i])
  end.
Definition alloc3_desc : M disk (Z * list Z) := alloc_descs 3 [].

(** * Requests *)

(** [virtio_disk_rw] up to the notification: the head of the chain.  The
    result of [alloc3_desc] is not looked at. *)
Definition submit (b_blockno page rw : Z) : M disk Z :=
  let sec := u32 (b_blockno * (PGSIZE / SECTOR_SIZE)) in
  r ← alloc3_desc;
  i0 ← deref (λ _, r.2 !! 0%nat); i1 ← deref (λ _, r.2 !! 1%nat); i2 ← deref (λ _, r.2 !! 2%nat);
  update (λ d, l ← poke i0 (Req (if rw =? DEV_WRITE then VIRTIO_BLK_T_OUT else VIRTIO_BLK_T_IN) 0 sec) (ops d);
    Some (set_ops l d));;
  put_desc i0 (Desc (Ops (Z.to_nat i0)) BLK_REQ_SIZE VRING_DESC_F_NEXT (u16 i1));;
  put_desc i1 (Desc (Page page) PGSIZE
    (Z.lor (if rw =? DEV_WRITE then 0 else VRING_DESC_F_WRITE) VRING_DESC_F_NEXT) (u16 i2));;
  update (λ d, l ← poke i0 255 (status d); Some (set_status l d));;
  put_desc i2 (Desc (Status (Z.to_nat i0)) 1 VRING_DESC_F_WRITE 0);;
  update (λ d, l ← poke (avail_idx d mod Z.of_nat NUM) (u16 i0) (ring d); Some (set_avail (avail_idx d) l d));;
  modify (λ d, set_avail (u16 (avail_idx d + 1)) (ring d) d);;
  modify notify;;
  mret i0.

(** The part of [virtio_disk_rw] under the mutex before [sleep_on(&disk.intr)],
    and the part after it. *)
Definition rw_start (me b_blockno page rw : Z) : M disk Z :=
  d ← get; m ← mutex_lock me (mutex d); modify (set_mutex m);;
  submit b_blockno page rw.
Definition rw_finish (i0 : Z) : M disk unit :=
  free_chain (S NUM) i0;;
  d ← get; m ← mutex_unlock (mutex d); modify (set_mutex m).

(** [virtio_disk_rw] in full: [device] is what the device and its interrupt
    do while the caller sleeps; [sleep_on] returns once [intr] was woken. *)
Definition virtio_disk_rw (me b_blockno page rw : Z) (device : M disk unit) : M disk unit :=
  i0 ← rw_start me b_blockno page rw;
  device;;
  d ← get; m ← sleep_on me (intr d); modify (set_intr m);;
  rw_finish i0.

Definition virtio_disk_ll_rw (me b_blockno page rw : Z) (device : M disk unit) : M disk Z :=
  virtio_disk_rw me b_blockno page rw device;; mret 0.

(** [virtio_disk_intr]: [used_idx] and the device's index are [uint16]. *)
Fixpoint intr_loop (fuel : nat) : M disk unit :=
  d ← get;
  if used_idx d =? dev_idx d then mret tt else
    match fuel with
    | O => out_of_fuel
    | S fuel =>
        id ← deref (λ d, peek (used_idx d mod Z.of_nat NUM) (used_ring d));
        st ← deref (λ d, peek id (status d));
        (if st =? 0 then mret tt else panic);;
        m ← wake_up (intr d);
        modify (set_intr m);;
        modify (λ d, set_used (u16 (used_idx d + 1)) d);;
        intr_loop fuel
    end.
Definition virtio_disk_intr : M disk unit := modify ack;; intr_loop (Z.to_nat (2 ^ 16)).

(** * Initialisation *)

(** Registers, as offsets from VIRTIO0, and feature bits. *)
Definition VIRTIO_MMIO_MAGIC_VALUE : Z := 0.
Definition VIRTIO_MMIO_VERSION : Z := 4.
Definition VIRTIO_MMIO_DEVICE_ID : Z := 8.
Definition VIRTIO_MMIO_VENDOR_ID : Z := 12.
Definition VIRTIO_MMIO_DEVICE_FEATURES : Z := 16.
Definition VIRTIO_MMIO_DRIVER_FEATURES : Z := 32.
Definition VIRTIO_MMIO_QUEUE_SEL : Z := 48.
Definition VIRTIO_MMIO_QUEUE_NUM_MAX : Z := 52.
Definition VIRTIO_MMIO_QUEUE_NUM : Z := 56.
Definition VIRTIO_MMIO_QUEUE_READY : Z := 68.
Definition VIRTIO_MMIO_STATUS : Z := 112.
Definition VIRTIO_MMIO_QUEUE_DESC_LOW : Z := 128.
Definition VIRTIO_MMIO_QUEUE_DESC_HIGH : Z := 132.
Definition VIRTIO_MMIO_DRIVER_DESC_LOW : Z := 144.
Definition VIRTIO_MMIO_DRIVER_DESC_HIGH : Z := 148.
Definition VIRTIO_MMIO_DEVICE_DESC_LOW : Z := 160.
Definition VIRTIO_MMIO_DEVICE_DESC_HIGH : Z := 164.
Definition VIRTIO_CONFIG_S_ACKNOWLEDGE : Z := 1.
Definition VIRTIO_CONFIG_S_DRIVER : Z := 2.
Definition VIRTIO_CONFIG_S_DRIVER_OK : Z := 4.
Definition VIRTIO_CONFIG_S_FEATURES_OK : Z := 8.
(** The features the driver turns off, in the order of the source: RO, SCSI,
    CONFIG_WCE, MQ, ANY_LAYOUT, EVENT_IDX, INDIRECT_DESC. *)
Definition features_off : list Z := [5; 7; 11; 12; 27; 29; 28].

(** [rd ws r] is what the device answers to a read of register [r] after the
    writes [ws]; the state is the list of the writes and the driver's disk.
    The registration of the block device at the end is not part of it. *)
Section init.
Variable rd : list (Z * Z) → Z → Z.
(** What the three calls of [kmalloc] return, and what memory holds behind the
    first, as descriptors. *)
Variables descp availp usedp : Z.
Variable behind : list virtq_desc.

Definition rreg (r : Z) : M (list (Z * Z) * disk) Z := gets (λ s, u32 (rd s.1 r)).
Definition wreg (r v : Z) : M (list (Z * Z) * disk) unit := modify (λ s, (s.1 ++ [(r, u32 v)], s.2)).

(** [kmalloc(n)] for the three parts of the queue: the memory of the descriptor
    table holds as many entries as fit in the size asked for. *)
Definition alloc_table (bytes : Z) : list virtq_desc := replicate (Z.to_nat (bytes / VIRTQ_DESC_SIZE)) empty_desc.

(** The queue's memory once allocated and zeroed. *)
Definition zero_queue (d : disk) : disk :=
  Disk (alloc_table VIRTQ_DESC_SIZE ++ behind) (free d) (ops d) (status d) 0 (replicate NUM 0) (replicate NUM 0) 0
    (used_idx d) (intr d) (mutex d) (notified d) (isr d) (acks d).

Definition virtio_disk_init : M (list (Z * Z) * disk) unit :=
  modify (λ s, (s.1, set_mutex Mutex.mutex_init (set_intr Mutex.mutex_init_zero s.2)));;
  m ← rreg VIRTIO_MMIO_MAGIC_VALUE; v ← rreg VIRTIO_MMIO_VERSION;
  i ← rreg VIRTIO_MMIO_DEVICE_ID; n ← rreg VIRTIO_MMIO_VENDOR_ID;
  (if negb (m =? 0x74726976) || negb (v =? 2) || negb (i =? 2) || negb (n =? 0x554d4551) then panic else mret tt);;
  wreg VIRTIO_MMIO_STATUS 0;;
  let status := VIRTIO_CONFIG_S_ACKNOWLEDGE in
  wreg VIRTIO_MMIO_STATUS status;;
  let status := Z.lor status VIRTIO_CONFIG_S_DRIVER in
  wreg VIRTIO_MMIO_STATUS status;;
  f ← rreg VIRTIO_MMIO_DEVICE_FEATURES;
  wreg VIRTIO_MMIO_DRIVER_FEATURES (fold_left (λ f b, Z.land f (Z.lnot (Z.shiftl 1 b))) features_off f);;
  let status := Z.lor status VIRTIO_CONFIG_S_FEATURES_OK in
  wreg VIRTIO_MMIO_STATUS status;;
  status ← rreg VIRTIO_MMIO_STATUS;
  (if Z.land status VIRTIO_CONFIG_S_FEATURES_OK =? 0 then panic else mret tt);;
  wreg VIRTIO_MMIO_QUEUE_SEL 0;;
  r ← rreg VIRTIO_MMIO_QUEUE_READY;
  (if negb (r =? 0) then panic else mret tt);;
  max ← rreg VIRTIO_MMIO_QUEUE_NUM_MAX;
  (if max =? 0 then panic else mret tt);;
  (if max <? Z.of_nat NUM then panic else mret tt);;
  (if (descp =? 0) || (availp =? 0) || (usedp =? 0) then panic else mret tt);;
  modify (λ s, (s.1, zero_queue s.2));;
  wreg VIRTIO_MMIO_QUEUE_NUM (Z.of_nat NUM);;
  wreg VIRTIO_MMIO_QUEUE_DESC_LOW descp;; wreg VIRTIO_MMIO_QUEUE_DESC_HIGH (Z.shiftr descp 32);;
  wreg VIRTIO_MMIO_DRIVER_DESC_LOW availp;; wreg VIRTIO_MMIO_DRIVER_DESC_HIGH (Z.shiftr availp 32);;
  wreg VIRTIO_MMIO_DEVICE_DESC_LOW usedp;; wreg VIRTIO_MMIO_DEVICE_DESC_HIGH (Z.shiftr usedp 32);;
  wreg VIRTIO_MMIO_QUEUE_READY 1;;
  modify (λ s, (s.1, set_free (replicate NUM true) s.2));;
  wreg VIRTIO_MMIO_STATUS (Z.lor status VIRTIO_CONFIG_S_DRIVER_OK).
End init.

(** * Correctness *)
Lemma poke_ok {A} i (x : A) l : 0 <= i < Z.of_nat (length l) → poke i x l = Some (<[Z.to_nat i := x]> l).
Proof. intros. unfold poke. by rewrite decide_True. Qed.
Lemma poke_length {A} i (x : A) l l' : poke i x l = Some l' → length l' = length l.
Proof. unfold poke. case_decide; [|done]. intros [= <-]. by rewrite length_insert. Qed.

(** Descriptors in use. *)
Definition taken (l : list bool) : nat := length (filter (λ b, b = false) l).

Lemma taken_free l i : l !! i = Some false → taken l = S (taken (<[i := true]> l)).
Proof.
  revert i. induction l as [|b l IH]; intros [|i] E; simplify_eq/=.
  - unfold taken. simpl. done.
  - specialize (IH i E). unfold taken in *. rewrite !filter_cons. destruct (decide (b = false)); simpl; lia.
Qed.
Lemma taken_bound l : (taken l <= length l)%nat.
Proof. apply length_filter. Qed.

Lemma free_desc_cases i d :
  free_desc i d = Panic ∨ free_desc i d = Fault ∨
  ∃ d', free_desc i d = Done tt d' ∧ taken (free d) = S (taken (free d')) ∧
    desc d' = <[Z.to_nat i := empty_desc]> (desc d).
Proof.
  unfold free_desc. destruct (Z.leb_spec (Z.of_nat NUM) i); [by left|].
  rewrite (bind_Done _ _ _ tt d) by done. unfold deref, mbind, M_bind.
  destruct (peek i (free d)) as [b|] eqn:Eb; [|by right; left]. destruct b; [by left|]. cbn.
  unfold put_desc, put_free, update. destruct (poke i empty_desc (desc d)) as [l|] eqn:El; [|by right; left]. simpl.
  unfold peek in Eb. case_decide as H0; [|done]. pose proof (lookup_lt_Some _ _ _ Eb).
  rewrite poke_ok by lia. right; right. eexists. split; [done|]. simpl.
  split; [by apply taken_free|]. unfold poke in El. case_decide; [by simplify_eq|done].
Qed.

(** Freeing a chain always ends: whatever the [next] links say, each turn frees
    a descriptor or stops the machine, so a table of [NUM] entries needs at most
    [NUM + 1] turns. *)
Theorem free_chain_terminates d i : length (free d) = NUM → free_chain (S NUM) i d ≠ OutOfFuel.
Proof.
  intros Hlen. assert (Hf : (taken (free d) < S NUM)%nat) by (pose proof (taken_bound (free d)); lia).
  clear Hlen. revert d i Hf. generalize (S NUM). intros fuel. induction fuel as [|fuel IH]; intros d i Hf; [lia|].
  simpl. unfold deref, mbind, M_bind. destruct (peek i (desc d)) as [x|]; [|done].
  destruct (free_desc_cases i d) as [->|[->|(d' & -> & Ht & _)]]; [done|done|].
  destruct (negb _); [|done]. apply IH. lia.
Qed.

(** C29: The interrupt handler always ends: it follows the device's 16-bit index. *)
Theorem virtio_disk_intr_terminates d :
  0 <= used_idx d < 2 ^ 16 → 0 <= dev_idx d < 2 ^ 16 → virtio_disk_intr d ≠ OutOfFuel.
Proof.
  intros Hu Hd. unfold virtio_disk_intr.
  assert (Hf : u16 (dev_idx d - used_idx d) < Z.of_nat (Z.to_nat (2 ^ 16))).
  { unfold u16. pose proof (Z.mod_pos_bound (dev_idx d - used_idx d) (2 ^ 16)). lia. }
  rewrite (bind_Done (modify ack) _ d tt (ack d)) by done.
  change (used_idx d) with (used_idx (ack d)) in Hu, Hf. change (dev_idx d) with (dev_idx (ack d)) in Hd, Hf.
  revert Hu Hd Hf. generalize (ack d). clear d. intros d Hu Hd Hf.
  revert d Hu Hd Hf. generalize (Z.to_nat (2 ^ 16)). intros fuel. induction fuel as [|fuel IH]; intros d Hu Hd Hf.
  { unfold u16 in Hf. pose proof (Z.mod_pos_bound (dev_idx d - used_idx d) (2 ^ 16)). lia. }
  simpl. unfold mbind, M_bind, get. destruct (Z.eqb_spec (used_idx d) (dev_idx d)) as [|Hne]; [done|].
  unfold deref. destruct (peek _ (used_ring d)) as [id|]; [|done]. destruct (peek id (status d)) as [st|]; [|done].
  destruct (st =? 0); [|done]. cbn. unfold wake_up, mutex_unlock. destruct (sem_signal _) as [[x ?]|]; [|done].
  cbn. apply IH; cbn.
  - unfold u16. apply Z.mod_pos_bound. lia.
  - done.
  - assert (E : u16 (dev_idx d - u16 (used_idx d + 1)) = u16 (dev_idx d - used_idx d) - 1); [|lia].
    unfold u16. rewrite Zminus_mod_idemp_r. replace (dev_idx d - (used_idx d + 1)) with (dev_idx d - used_idx d - 1) by lia.
    destruct (decide (used_idx d < dev_idx d)).
    + rewrite !Z.mod_small by lia. lia.
    + rewrite <-(Z.mod_add (dev_idx d - used_idx d - 1) 1), <-(Z.mod_add (dev_idx d - used_idx d) 1) by lia.
      rewrite !Z.mod_small by lia. lia.
Qed.

(** ** Requests *)

(** No request is under way. *)
Record idle_disk (d : disk) : Prop := {
  k_desc : length (desc d) = NUM;
  k_free : free d = replicate NUM true;
  k_ops : length (ops d) = NUM;
  k_status : length (status d) = NUM;
  k_ring : length (ring d) = NUM;
  k_used : length (used_ring d) = NUM;
  k_idx : used_idx d = dev_idx d ∧ 0 <= dev_idx d < 2 ^ 16;
  k_intr : busy (intr d);
  k_mutex : idle (mutex d);
}.

(** The chain of a request as the device reads it, following [next]. *)
Fixpoint chain (fuel : nat) (l : list virtq_desc) (i : Z) : option (list virtq_desc) :=
  match fuel with
  | O => None
  | S fuel =>
      x ← peek i l;
      if Z.land (flags x) VRING_DESC_F_NEXT =? 0 then Some [x] else r ← chain fuel l (next x); Some (x :: r)
  end.

(** The request at the head of the available ring: its command, and the memory
    it transfers, with [true] when the device writes there. *)
Definition pending (d : disk) : option (virtio_blk_req * list (dma * Z * bool)) :=
  h ← peek (u16 (avail_idx d - 1) mod Z.of_nat NUM) (ring d);
  c ← chain NUM (desc d) h;
  match c with
  | Desc (Ops i) n _ _ :: l =>
      q ← ops d !! i;
      if n =? BLK_REQ_SIZE then
        Some (q, (λ x, (addr x, len x, negb (Z.land (flags x) VRING_DESC_F_WRITE =? 0))) <$> l)
      else None
  | _ => None
  end.

(** What the device does with the request of head [h]: it succeeds, puts an
    entry in the used ring, and signals it in INTERRUPT_STATUS. *)
Definition served (h : nat) (d : disk) : disk :=
  Disk (desc d) (free d) (ops d) (<[h := 0]> (status d)) (avail_idx d) (ring d)
    (<[Z.to_nat (dev_idx d mod Z.of_nat NUM) := Z.of_nat h]> (used_ring d)) (u16 (dev_idx d + 1)) (used_idx d)
    (intr d) (mutex d) (notified d) (Z.lor (isr d) 1) (acks d).

Lemma list_of_8 {A} (l : list A) : length l = NUM → ∃ a b c d e f g h, l = [a; b; c; d; e; f; g; h].
Proof.
  intros Hl. do 8 (destruct l as [|? l]; [done|]). destruct l; [|done]. eauto 10.
Qed.

Definition the_request (blk rw : Z) : virtio_blk_req :=
  Req (if rw =? DEV_WRITE then VIRTIO_BLK_T_OUT else VIRTIO_BLK_T_IN) 0 (u32 (blk * 8)).

Lemma put_desc_ok i x d : 0 <= i < Z.of_nat (length (desc d)) →
  put_desc i x d = Done tt (set_desc (<[Z.to_nat i := x]> (desc d)) d).
Proof. intros Hi. unfold put_desc, update. by rewrite poke_ok. Qed.

Definition three_taken : list bool := [false; false; false; true; true; true; true; true].

Lemma alloc3_desc_ok d : free d = replicate NUM true → alloc3_desc d = Done (0, [0; 1; 2]) (set_free three_taken d).
Proof. destruct d as [de fr op st av ri ur di ui it mu no i0 ac]. simpl. intros ->. reflexivity. Qed.

(** The chain [submit] builds. *)
Definition request_chain (page rw : Z) : list virtq_desc :=
  [Desc (Ops 0) BLK_REQ_SIZE VRING_DESC_F_NEXT 1;
   Desc (Page page) PGSIZE (Z.lor (if rw =? DEV_WRITE then 0 else VRING_DESC_F_WRITE) VRING_DESC_F_NEXT) 2;
   Desc (Status 0) 1 VRING_DESC_F_WRITE 0].

(** The driver's disk once the request is in the available ring. *)
Definition submitted (blk page rw : Z) (d : disk) : disk :=
  Disk (request_chain page rw ++ drop 3 (desc d)) three_taken (<[0%nat := the_request blk rw]> (ops d))
    (<[0%nat := 255]> (status d)) (u16 (avail_idx d + 1)) (<[Z.to_nat (avail_idx d mod Z.of_nat NUM) := 0]> (ring d))
    (used_ring d) (dev_idx d) (used_idx d) (intr d) (mutex d) (notified d + 1) (isr d) (acks d).

Lemma submit_ok blk page rw d :
  length (desc d) = NUM → free d = replicate NUM true → length (ops d) = NUM → length (status d) = NUM →
  length (ring d) = NUM → submit blk page rw d = Done 0 (submitted blk page rw d).
Proof.
  intros K1 K2 K3 K4 K5. unfold submit, the_request.
  change (PGSIZE / SECTOR_SIZE) with 8. rewrite (bind_Done _ _ _ _ _ (alloc3_desc_ok d K2)).
  set (d1 := set_free three_taken d).
  do 3 erewrite bind_Done by reflexivity.
  rewrite (bind_Done (update _) _ _ tt (set_ops (<[0%nat := the_request blk rw]> (ops d)) d1)).
  2:{ unfold update. change (ops d1) with (ops d). by rewrite poke_ok by (rewrite K3; done). }
  set (d2 := set_ops _ d1). rewrite (bind_Done _ _ _ _ _ (put_desc_ok 0 _ d2 ltac:(simpl; rewrite K1; done))).
  set (d3 := set_desc _ d2). rewrite (bind_Done _ _ _ _ _ (put_desc_ok 1 _ d3 ltac:(simpl; rewrite length_insert, K1; done))).
  set (d4 := set_desc _ d3).
  rewrite (bind_Done (update _) _ _ tt (set_status (<[0%nat := 255]> (status d)) d4)).
  2:{ unfold update. change (status d4) with (status d). by rewrite poke_ok by (rewrite K4; done). }
  set (d5 := set_status _ d4).
  rewrite (bind_Done _ _ _ _ _ (put_desc_ok 2 _ d5 ltac:(simpl; rewrite !length_insert, K1; done))).
  set (d6 := set_desc _ d5).
  rewrite (bind_Done (update _) _ _ tt (set_avail (avail_idx d) (<[Z.to_nat (avail_idx d mod Z.of_nat NUM) := 0]> (ring d)) d6)).
  2:{ unfold update. change (ring d6) with (ring d). change (avail_idx d6) with (avail_idx d).
      rewrite poke_ok; [done|]. rewrite K5. apply Z.mod_pos_bound. done. }
  erewrite bind_Done by reflexivity. erewrite bind_Done by reflexivity. unfold mret, M_ret, submitted. f_equal.
  destruct (list_of_8 _ K1) as (a0 & a1 & a2 & a3 & a4 & a5 & a6 & a7 & Ed).
  unfold notify, set_avail, d6, d5, d4, d3, d2, d1. simpl. rewrite Ed. reflexivity.
Qed.

Lemma free_chain_ok page rw l d :
  desc d = request_chain page rw ++ l → length (desc d) = NUM → free d = three_taken →
  free_chain (S NUM) 0 d = Done tt (set_free (replicate NUM true) (set_desc (replicate 3 empty_desc ++ l) d)).
Proof.
  intros Ed Hl Ef. rewrite Ed in Hl. destruct d as [de fr op st av ri ur di ui it mu no i0 ac]; simpl in *. subst.
  destruct l as [|l0 [|l1 [|l2 [|l3 [|l4 [|]]]]]]; try done.
  destruct (rw =? DEV_WRITE) eqn:E; unfold request_chain; rewrite ?E; reflexivity.
Qed.

(** The device's reading of the available ring after [submit]. *)
Lemma pending_submitted blk page rw d :
  length (desc d) = NUM → length (ops d) = NUM → length (ring d) = NUM → 0 <= avail_idx d < 2 ^ 16 →
  pending (submitted blk page rw d) =
    Some (the_request blk rw, [(Page page, PGSIZE, negb (rw =? DEV_WRITE)); (Status 0, 1, true)]).
Proof.
  intros K1 K3 K5 Hav. unfold pending. set (d1 := submitted blk page rw d).
  assert (Hhead : u16 (avail_idx d1 - 1) mod Z.of_nat NUM = avail_idx d mod Z.of_nat NUM).
  { change (avail_idx d1) with (u16 (avail_idx d + 1)). unfold u16. rewrite Zminus_mod_idemp_l.
    replace (avail_idx d + 1 - 1) with (avail_idx d) by lia. by rewrite (Z.mod_small (avail_idx d)) by lia. }
  pose proof (Z.mod_pos_bound (avail_idx d) (Z.of_nat NUM) ltac:(done)) as Hm.
  assert (Hp : peek (u16 (avail_idx d1 - 1) mod Z.of_nat NUM) (ring d1) = Some 0).
  { rewrite Hhead. unfold peek. rewrite decide_True by lia. apply list_lookup_insert_eq. rewrite K5. unfold NUM in *. lia. }
  rewrite Hp. simpl. destruct (list_of_8 _ K1) as (a0 & a1 & a2 & a3 & a4 & a5 & a6 & a7 & Ed).
  destruct (list_of_8 _ K3) as (b0 & b1 & b2 & b3 & b4 & b5 & b6 & b7 & Eo). rewrite ?Ed, Eo.
  destruct (rw =? DEV_WRITE) eqn:E; unfold the_request; rewrite ?E; reflexivity.
Qed.

(** The interrupt of one served request. *)
Lemma intr_one h d :
  used_idx d = dev_idx d → 0 <= dev_idx d < 2 ^ 16 → length (used_ring d) = NUM → (h < length (status d))%nat →
  busy (intr d) →
  virtio_disk_intr (served h d) =
    Done tt (set_used (u16 (dev_idx d + 1)) (set_intr (Mutex.Mut 0 (sem_init 1) None) (ack (served h d)))).
Proof.
  intros Hu Hb Hl Hh Hi. unfold virtio_disk_intr. rewrite (bind_Done (modify ack) _ _ tt (ack (served h d))) by done. change (Z.to_nat (2 ^ 16)) with (S (S (Z.to_nat (2 ^ 16 - 2)))).
  generalize (Z.to_nat (2 ^ 16 - 2)). intros n. set (d1 := ack (served h d)). cbn [intr_loop].
  rewrite (bind_Done get _ _ d1 d1 eq_refl). change (used_idx d1) with (used_idx d).
  change (dev_idx d1) with (u16 (dev_idx d + 1)). rewrite Hu.
  destruct (Z.eqb_spec (dev_idx d) (u16 (dev_idx d + 1))) as [He|_].
  { exfalso. unfold u16 in He. destruct (decide (dev_idx d + 1 < 2 ^ 16)); [rewrite Z.mod_small in He by lia; lia|].
    replace (dev_idx d + 1) with (0 + 1 * 2 ^ 16) in He by lia. rewrite Z.mod_add in He by lia. rewrite Z.mod_0_l in He by lia. lia. }
  pose proof (Z.mod_pos_bound (dev_idx d) (Z.of_nat NUM) ltac:(done)) as Hm.
  rewrite (bind_Done (deref _) _ _ (Z.of_nat h) d1).
  2:{ unfold deref, peek. change (used_idx d1) with (used_idx d). rewrite Hu, decide_True by lia.
      replace (used_ring d1 !! Z.to_nat (dev_idx d mod Z.of_nat NUM)) with (Some (Z.of_nat h)); [done|].
      symmetry. apply list_lookup_insert_eq. rewrite Hl. unfold NUM in *. lia. }
  rewrite (bind_Done (deref _) _ _ 0 d1).
  2:{ unfold deref, peek. rewrite decide_True by lia. rewrite Nat2Z.id.
      replace (status d1 !! h) with (Some 0); [done|]. symmetry. by apply list_lookup_insert_eq. }
  change (0 =? 0) with true. rewrite (bind_Done (mret _) _ _ tt d1 eq_refl).
  rewrite (bind_Done _ _ _ _ _ (mutex_unlock_ok (intr d) d1 Hi)).
  rewrite (bind_Done (modify _) _ _ tt (set_intr (Mutex.Mut 0 (sem_init 1) None) d1) eq_refl).
  rewrite (bind_Done (modify _) _ _ tt _ eq_refl). destruct n; cbn [intr_loop]; rewrite (bind_Done get _ _ _ _ eq_refl);
    unfold d1, ack, served; cbn; rewrite Hu, Z.eqb_refl; reflexivity.
Qed.

Lemma free_chain_terminates_witness :
  free_chain (S NUM) 2 (Disk (replicate NUM (Desc Nowhere 0 VRING_DESC_F_NEXT 2)) (replicate NUM false) [] []
    0 [] [] 0 0 Mutex.mutex_init_zero Mutex.mutex_init 0 0 []) ≠ OutOfFuel.
Proof. apply free_chain_terminates. reflexivity. Defined.

Lemma virtio_disk_intr_terminates_witness :
  virtio_disk_intr (Disk (replicate NUM empty_desc) (replicate NUM false) [] (replicate NUM 0)
    0 (replicate NUM 0) (replicate NUM 3) 1 65530 Mutex.mutex_init_zero Mutex.mutex_init 0 0 []) ≠ OutOfFuel.
Proof. apply virtio_disk_intr_terminates; simpl; lia. Defined.

(** ** Initialisation *)

(** The features the driver accepts: those of the device, without the seven. *)
Definition accepted (f : Z) : Z := fold_left (λ f b, Z.land f (Z.lnot (Z.shiftl 1 b))) features_off f.

Lemma accepted_testbit f i : 0 <= i → Z.testbit (accepted f) i = Z.testbit f i && negb (existsb (Z.eqb i) features_off).
Proof.
  intros Hi. unfold accepted, features_off. cbn [fold_left existsb].
  rewrite !Z.land_spec, !Z.lnot_spec, !Z.shiftl_1_l, !Z.pow2_bits_eqb by lia.
  rewrite !(Z.eqb_sym _ i). destruct (Z.testbit f i); [|done].
  repeat match goal with |- context [i =? ?n] => destruct (i =? n) end; reflexivity.
Qed.

(** The writes of [virtio_disk_init] for a device that reads features [f], in
    order: the status never loses a bit, the queue is described before it is made
    ready, and DRIVER_OK comes last. *)
Definition init_writes (f st descp availp usedp : Z) : list (Z * Z) :=
  [(VIRTIO_MMIO_STATUS, 0); (VIRTIO_MMIO_STATUS, 1); (VIRTIO_MMIO_STATUS, 3);
   (VIRTIO_MMIO_DRIVER_FEATURES, u32 (accepted f)); (VIRTIO_MMIO_STATUS, 11); (VIRTIO_MMIO_QUEUE_SEL, 0);
   (VIRTIO_MMIO_QUEUE_NUM, 8);
   (VIRTIO_MMIO_QUEUE_DESC_LOW, u32 descp); (VIRTIO_MMIO_QUEUE_DESC_HIGH, u32 (Z.shiftr descp 32));
   (VIRTIO_MMIO_DRIVER_DESC_LOW, u32 availp); (VIRTIO_MMIO_DRIVER_DESC_HIGH, u32 (Z.shiftr availp 32));
   (VIRTIO_MMIO_DEVICE_DESC_LOW, u32 usedp); (VIRTIO_MMIO_DEVICE_DESC_HIGH, u32 (Z.shiftr usedp 32));
   (VIRTIO_MMIO_QUEUE_READY, 1); (VIRTIO_MMIO_STATUS, u32 (Z.lor st VIRTIO_CONFIG_S_DRIVER_OK))].

(** What the driver requires of the device and of [kmalloc]: the identity it
    reads first, FEATURES_OK kept by the device, a queue 0 that is not in use and
    has room, and memory for its three parts. *)
Definition accepts (rd : list (Z * Z) → Z → Z) (descp availp usedp : Z) : bool :=
  let f := u32 (rd (take 3 (init_writes 0 0 0 0 0)) VIRTIO_MMIO_DEVICE_FEATURES) in
  let ws := take 6 (init_writes f 0 0 0 0) in
  (u32 (rd [] VIRTIO_MMIO_MAGIC_VALUE) =? 0x74726976) && (u32 (rd [] VIRTIO_MMIO_VERSION) =? 2) &&
  (u32 (rd [] VIRTIO_MMIO_DEVICE_ID) =? 2) && (u32 (rd [] VIRTIO_MMIO_VENDOR_ID) =? 0x554d4551) &&
  negb (Z.land (u32 (rd (take 5 ws) VIRTIO_MMIO_STATUS)) VIRTIO_CONFIG_S_FEATURES_OK =? 0) &&
  (u32 (rd ws VIRTIO_MMIO_QUEUE_READY) =? 0) && (Z.of_nat NUM <=? u32 (rd ws VIRTIO_MMIO_QUEUE_NUM_MAX)) &&
  negb (descp =? 0) && negb (availp =? 0) && negb (usedp =? 0).

(** The driver's disk after the initialisation. *)
Definition initialised (behind : list virtq_desc) (d : disk) : disk :=
  set_free (replicate NUM true) (zero_queue behind (set_mutex Mutex.mutex_init (set_intr Mutex.mutex_init_zero d))).

Lemma virtio_disk_init_ok rd descp availp usedp behind d :
  let f := u32 (rd (take 3 (init_writes 0 0 0 0 0)) VIRTIO_MMIO_DEVICE_FEATURES) in
  let st := u32 (rd (take 5 (init_writes f 0 0 0 0)) VIRTIO_MMIO_STATUS) in
  virtio_disk_init rd descp availp usedp behind ([], d) =
    (if accepts rd descp availp usedp
     then Done tt (init_writes f st descp availp usedp, initialised behind d) else Panic).
Proof.
  intros f st. unfold accepts. fold f.
  unfold virtio_disk_init, mbind, M_bind, rreg, wreg, modify, gets. cbn [fst snd].
  destruct (u32 (rd [] VIRTIO_MMIO_MAGIC_VALUE) =? _); [|done].
  destruct (u32 (rd [] VIRTIO_MMIO_VERSION) =? _); [|done].
  destruct (u32 (rd [] VIRTIO_MMIO_DEVICE_ID) =? _); [|done].
  destruct (u32 (rd [] VIRTIO_MMIO_VENDOR_ID) =? _); [|done].
  cbn [negb orb andb mret M_ret app fst snd]. fold st.
  match goal with |- context [Z.land ?x VIRTIO_CONFIG_S_FEATURES_OK] => change x with st end.
  change (u32 (rd (take 5 (take 6 (init_writes f 0 0 0 0))) VIRTIO_MMIO_STATUS)) with st.
  destruct (Z.land st VIRTIO_CONFIG_S_FEATURES_OK =? 0); [done|]. cbn [negb andb mret M_ret app fst snd].
  set (ws := take 6 (init_writes f 0 0 0 0)).
  match goal with |- context [rd ?x VIRTIO_MMIO_QUEUE_READY] => change x with ws end.
  destruct (u32 (rd ws VIRTIO_MMIO_QUEUE_READY) =? 0); [|done]. cbn [negb andb mret M_ret fst snd].
  match goal with |- context [rd ?x VIRTIO_MMIO_QUEUE_NUM_MAX] => change x with ws end.
  set (max := u32 (rd ws VIRTIO_MMIO_QUEUE_NUM_MAX)).
  destruct (Z.eqb_spec max 0) as [->|]; [done|]. cbn [mret M_ret].
  rewrite Z.leb_antisym. destruct (max <? Z.of_nat NUM); [done|]. cbn [negb andb mret M_ret].
  destruct (descp =? 0); [done|]. destruct (availp =? 0); [done|]. by destruct (usedp =? 0).
Qed.

(** Initialisation of the device.  It goes through exactly when the device has
    the expected identity, keeps FEATURES_OK, and has a free queue of at least
    [NUM] entries, and [kmalloc] returned memory; anything else stops the
    machine.  Then the registers were written in the order of [init_writes],
    DRIVER_OK last; none of the seven features the driver rules out was accepted
    and every other feature of the device was; and the disk is the initial one. *)
Theorem virtio_disk_init_correct rd descp availp usedp behind d :
  let f := u32 (rd (take 3 (init_writes 0 0 0 0 0)) VIRTIO_MMIO_DEVICE_FEATURES) in
  let st := u32 (rd (take 5 (init_writes f 0 0 0 0)) VIRTIO_MMIO_STATUS) in
  virtio_disk_init rd descp availp usedp behind ([], d) =
    (if accepts rd descp availp usedp
     then Done tt (init_writes f st descp availp usedp, initialised behind d) else Panic) ∧
  ∀ i, 0 <= i < 32 → Z.testbit (u32 (accepted f)) i = Z.testbit f i && negb (existsb (Z.eqb i) features_off).
Proof.
  intros f st. split; [apply virtio_disk_init_ok|]. intros i Hi. rewrite <-accepted_testbit by lia.
  unfold u32. by rewrite Z.mod_pow2_bits_low by lia.
Qed.

(** The driver's disk after the initialisation is idle. *)
Lemma initialised_idle behind d :
  length behind = (NUM - 1)%nat → length (ops d) = NUM → length (status d) = NUM → used_idx d = 0 →
  idle_disk (initialised behind d).
Proof. intros Hb Ho Hs Hu. split; simpl; rewrite ?Hb; try done. Qed.

(** One transfer from an idle disk. *)
Lemma virtio_disk_rw_ok me blk page rw d :
  idle_disk d → 0 <= avail_idx d < 2 ^ 16 →
  ∃ d1 d', rw_start me blk page rw d = Done 0 d1 ∧
    pending d1 = Some (the_request blk rw,
      [(Page page, PGSIZE, negb (rw =? DEV_WRITE)); (Status 0, 1, true)]) ∧
    notified d1 = notified d + 1 ∧
    virtio_disk_rw me blk page rw (modify (served 0);; virtio_disk_intr) d = Done tt d' ∧ idle_disk d' ∧
    dev_idx d' = u16 (dev_idx d + 1) ∧ avail_idx d' = u16 (avail_idx d + 1) ∧
    acks d' = acks d ++ [Z.land (Z.lor (isr d) 1) 3] ∧ desc d' = replicate 3 empty_desc ++ drop 3 (desc d).
Proof.
  intros [K1 K2 K3 K4 K5 K6 [K7 K7'] K8 K9] Hav.
  set (m := Mutex.Mut 1 (sem_init 0) (Some me)). set (d0 := set_mutex m d). set (d1 := submitted blk page rw d0).
  assert (E1 : rw_start me blk page rw d = Done 0 d1).
  { unfold rw_start. rewrite (bind_Done get _ _ d d eq_refl), (bind_Done _ _ _ _ _ (mutex_lock_ok me (mutex d) d K9)).
    rewrite (bind_Done (modify _) _ _ tt d0 eq_refl). by apply submit_ok. }
  assert (Hs1 : length (status d1) = NUM) by (simpl; by rewrite length_insert).
  assert (E2 : (modify (served 0);; virtio_disk_intr) d1 =
    Done tt (set_used (u16 (dev_idx d + 1)) (set_intr (Mutex.Mut 0 (sem_init 1) None) (ack (served 0 d1))))).
  { rewrite (bind_Done (modify _) _ _ tt (served 0 d1) eq_refl). apply (intr_one 0 d1); simpl; try done.
    rewrite length_insert, K4. unfold NUM. lia. }
  set (d2 := set_used _ _) in E2. set (d3 := set_intr m d2).
  pose proof (free_chain_ok page rw (drop 3 (desc d)) d3 eq_refl) as Ef.
  set (d4 := set_free _ _) in Ef.
  exists d1. eexists. split_and!; [exact E1|by apply pending_submitted|done| | | | | |].
  - unfold virtio_disk_rw. rewrite (bind_Done _ _ _ _ _ E1), (bind_Done _ _ _ _ _ E2).
    rewrite (bind_Done get _ _ d2 d2 eq_refl). rewrite (bind_Done (sleep_on _ _) _ _ m d2) by reflexivity.
    rewrite (bind_Done (modify _) _ _ tt d3 eq_refl). unfold rw_finish.
    erewrite bind_Done; [|apply Ef; [simpl; by rewrite length_drop, K1|done]].
    rewrite (bind_Done get _ _ d4 d4 eq_refl). erewrite bind_Done by (by apply mutex_unlock_ok). reflexivity.
  - split; simpl; rewrite ?length_insert, ?length_drop, ?K1; try done.
    split; [done|]. unfold u16. apply Z.mod_pos_bound. lia.
  - done.
  - done.
  - done.
  - done.
Qed.

(** C28: Transfers of one block.  After a successful [virtio_disk_init] the disk
    has no request under way, and every transfer leaves it so.  In a transfer the
    device finds the request for the block's first sector, with the caller's page
    as the only memory it transfers, read for a write and written for a read, and
    the status byte; when the device has served it and raised the interrupt, the
    handler acknowledges it, the call returns and every descriptor is free again.
    The memory of three descriptors from [disk.desc] on is used and left zero:
    only the first of them was allocated ([virtio_init_table_short]), so this
    holds as long as nothing else writes to the other two. *)
Theorem virtio_disk_rw_correct me blk page rw :
  (∀ rd descp availp usedp behind d d', length behind = (NUM - 1)%nat →
     length (ops d) = NUM → length (status d) = NUM → used_idx d = 0 →
     virtio_disk_init rd descp availp usedp behind ([], d) = Done tt d' → idle_disk d'.2 ∧ avail_idx d'.2 = 0) ∧
  (∀ d, idle_disk d → 0 <= avail_idx d < 2 ^ 16 →
     ∃ d1 d', rw_start me blk page rw d = Done 0 d1 ∧
       pending d1 = Some (Req (if decide (rw = 1) then 1 else 0) 0 (blk * 8 mod 2 ^ 32),
         [(Page page, 4096, bool_decide (rw ≠ 1)); (Status 0, 1, true)]) ∧
       notified d1 = notified d + 1 ∧
       virtio_disk_rw me blk page rw (modify (served 0);; virtio_disk_intr) d = Done tt d' ∧ idle_disk d' ∧
       dev_idx d' = u16 (dev_idx d + 1) ∧ avail_idx d' = u16 (avail_idx d + 1) ∧
       acks d' = acks d ++ [Z.land (Z.lor (isr d) 1) 3] ∧ desc d' = replicate 3 empty_desc ++ drop 3 (desc d)).
Proof.
  split.
  - intros rd descp availp usedp behind d d' Hb Ho Hs Hu. rewrite virtio_disk_init_ok. destruct (accepts _ _ _ _); [|done].
    intros [= <-]. split; [by apply initialised_idle|done].
  - intros d Hi Hav. destruct (virtio_disk_rw_ok me blk page rw d Hi Hav) as (d1 & d' & ? & Hp & ?).
    exists d1, d'. split; [done|]. split; [|done]. rewrite Hp. unfold the_request, DEV_WRITE.
    destruct (Z.eqb_spec rw 1); [rewrite decide_True, bool_decide_false by (done || by intros ?)
      |rewrite decide_False, bool_decide_true by done]; done.
Qed.

(** The descriptor table is allocated with the size of one descriptor
    ([sizeof(struct virtq_desc)]), not of [NUM]: after a successful
    initialisation the first request writes its second and third descriptor to
    the memory behind the table, and leaves zeros there, whatever it held. *)
Theorem virtio_init_table_short rd descp availp usedp behind d d' me blk page rw :
  length behind = (NUM - 1)%nat → length (ops d) = NUM → length (status d) = NUM → used_idx d = 0 →
  virtio_disk_init rd descp availp usedp behind ([], d) = Done tt d' →
  length (alloc_table VIRTQ_DESC_SIZE) = 1%nat ∧ desc d'.2 = alloc_table VIRTQ_DESC_SIZE ++ behind ∧
  ∃ d'', virtio_disk_rw me blk page rw (modify (served 0);; virtio_disk_intr) d'.2 = Done tt d'' ∧
    desc d'' = [empty_desc] ++ replicate 2 empty_desc ++ drop 2 behind.
Proof.
  intros Hb Ho Hs Hu. rewrite virtio_disk_init_ok. destruct (accepts _ _ _ _); [|done]. intros [= <-].
  split; [done|]. split; [done|].
  destruct (virtio_disk_rw_ok me blk page rw (initialised behind d)) as (_ & d'' & _ & _ & _ & E & _ & _ & _ & _ & Ed);
    [by apply initialised_idle|simpl; lia|].
  by exists d''.
Qed.

(** A device with every register as QEMU's virtio-mmio block device has it. *)
Definition qemu_device (ws : list (Z * Z)) (r : Z) : Z :=
  if r =? VIRTIO_MMIO_MAGIC_VALUE then 0x74726976 else if r =? VIRTIO_MMIO_VERSION then 2
  else if r =? VIRTIO_MMIO_DEVICE_ID then 2 else if r =? VIRTIO_MMIO_VENDOR_ID then 0x554d4551
  else if r =? VIRTIO_MMIO_DEVICE_FEATURES then 0x31006ed4 else if r =? VIRTIO_MMIO_QUEUE_NUM_MAX then 1024
  else match filter (λ w, w.1 = r) ws with [] => 0 | l => (List.last l (0, 0)).2 end.

(** The static data of the driver before [virtio_disk_init], and memory behind the
    table that is in use. *)
Definition bss_disk : disk :=
  Disk [] [] (replicate NUM (Req 0 0 0)) (replicate NUM 0) 0 [] [] 0 0 Mutex.mutex_init Mutex.mutex_init 0 0 [].
Definition in_use : list virtq_desc := replicate 7 (Desc (Page 5) 6 7 8).

Lemma virtio_disk_rw_correct_witness :
  ∃ d1 d2 d', virtio_disk_init qemu_device 0x80100000 0x80100010 0x80100040 in_use ([], bss_disk) = Done tt d1 ∧
    rw_start 7 3 0x80001000 DEV_WRITE d1.2 = Done 0 d2 ∧ pending d2 = Some (Req 1 0 24, [(Page 0x80001000, 4096, false); (Status 0, 1, true)]) ∧
    virtio_disk_rw 7 3 0x80001000 DEV_WRITE (modify (served 0);; virtio_disk_intr) d1.2 = Done tt d' ∧
    idle_disk d' ∧ acks d' = [1].
Proof.
  destruct (virtio_disk_rw_correct 7 3 0x80001000 DEV_WRITE) as [Hinit Hrw].
  eexists. destruct (Hinit qemu_device 0x80100000 0x80100010 0x80100040 in_use bss_disk _ eq_refl eq_refl eq_refl eq_refl
    ltac:(vm_compute; reflexivity)) as [Hi Ha].
  destruct (Hrw _ Hi ltac:(rewrite Ha; lia)) as (d2 & d' & E1 & Ep & _ & E2 & Hi' & _ & _ & Hk & _).
  exists d2, d'. split; [vm_compute; reflexivity|]. split; [exact E1|]. split; [exact Ep|]. split; [exact E2|].
  split; [exact Hi'|]. rewrite Hk. reflexivity.
Defined.

Lemma virtio_init_table_short_witness :
  ∃ d' d'', virtio_disk_init qemu_device 0x80100000 0x80100010 0x80100040 in_use ([], bss_disk) = Done tt d' ∧
    virtio_disk_rw 7 0 0x80001000 DEV_READ (modify (served 0);; virtio_disk_intr) d'.2 = Done tt d'' ∧
    desc d'' !! 1%nat = Some empty_desc.
Proof.
  eexists. destruct (virtio_init_table_short qemu_device 0x80100000 0x80100010 0x80100040 in_use bss_disk _ 7 0 0x80001000 DEV_READ
    eq_refl eq_refl eq_refl eq_refl ltac:(vm_compute; reflexivity)) as (_ & _ & d'' & E & Ed).
  exists d''. split; [vm_compute; reflexivity|]. split; [exact E|]. rewrite Ed. reflexivity.
Defined.
