(* ===== verification/Mkfs.v ===== *)
(** The program that formats a disk image, tools/mkfs.c.

    It runs on the host: the image is a file with a position, the bytes behind
    it and a size.  Numbers of type [double] occur only in four expressions;
    their values are given as integers, the one that is not exact
    ([total_blocks * 0.01]) with its rounding.  What is printed is left out. *)
From S2P Require Import Prelude ListLib Containers Bitmap Buddy PageAlloc Semaphore ObjCache Bio BlockDev Layout Efs EfsFile EfsInode.

#[local] Arguments replicate : simpl never.

Definition INODE_SIZE : Z := 128.
Definition AVG_FILE_SIZE : Z := 500 * 1024.

(** The open image file. *)
Record image := Image { fpos : Z; fsize : Z; fbytes : gmap Z Z }.

(** [lseek(fd, off, SEEK_SET)], [lseek(fd, 0, SEEK_END)], [write(fd, data, len)]. *)
Definition lseek_set (off : Z) : M image unit := modify (λ h, Image off (fsize h) (fbytes h)).
Definition lseek_end : M image Z := λ h, Done (fsize h) (Image (fsize h) (fsize h) (fbytes h)).
Definition host_write (data : list Z) : M image unit := modify (λ h,
  let e := fpos h + Z.of_nat (length data) in Image e (Z.max (fsize h) e) (rd_store (fpos h) data (fbytes h))).

(** [offset] is computed as a [uint32_t]. *)
Definition write_block (block_no : Z) (data : list Z) : M image unit :=
  let offset := u32 (block_no * BLOCK_SIZE) in
  lseek_set offset;;
  host_write (replicate (Z.to_nat BLOCK_SIZE) 0);;
  lseek_set offset;;
  host_write data.

(** * The geometry *)

(** Rounding a positive integer to 53 significant bits, to nearest, ties to even. *)
Definition round53 (p : Z) : Z :=
  let sh := Z.max 0 (Z.log2 p - 52) in
  let q := p / 2 ^ sh in let r := p mod 2 ^ sh in
  let up := if 2 * r =? 2 ^ sh then Z.odd q else 2 ^ sh <? 2 * r in
  (if up then q + 1 else q) * 2 ^ sh.
(** [x * 0.01] in units of 2^-59: the constant is 5764607523034235 of them. *)
Definition times_001 (x : Z) : Z := round53 (x * 5764607523034235).

(** [(uint32_t)MAX(disk_size / AVG_FILE_SIZE, total_blocks * 0.01)] *)
Definition calc_inode_count (disk_size total_blocks : Z) : Z :=
  let files := Z.quot disk_size AVG_FILE_SIZE in
  if times_001 total_blocks <? files * 2 ^ 59 then u32 files else u32 (times_001 total_blocks / 2 ^ 59).

(** [(uint32_t)ceil((double)n / d)] for a power of two [d]: exact. *)
Definition ceil_div (n d : Z) : Z := (n + d - 1) / d.

(** [strncpy(easy_sb.name, "easy-fs", 16)] *)
Definition fs_name : list Z := [101; 97; 115; 121; 45; 102; 115] ++ replicate 9 0.

(** [easy_sb] for an image of [disk_size] bytes behind block 0. *)
Definition make_super (disk_size : Z) : easy_d_super_block :=
  let total_blocks := u32 (Z.quot disk_size BLOCK_SIZE) in
  let inode_count := calc_inode_count disk_size total_blocks in
  let inode_map_blocks := ceil_div inode_count (8 * BLOCK_SIZE) in
  let inode_area_blocks := ceil_div (u32 (inode_count * INODE_SIZE)) BLOCK_SIZE in
  let data_map_blocks := ceil_div total_blocks (8 * BLOCK_SIZE) in
  let map_start := SUPER_BLOCK_LOCATION + 1 in
  let area_start := i32 (map_start + inode_map_blocks) in
  let bmap_start := i32 (area_start + inode_area_blocks) in
  let barea_start := i32 (bmap_start + data_map_blocks) in
  DSuper (i32 (inode_count - 1)) (i32 (inode_count - 2)) INODE_SIZE map_start area_start
    (i32 total_blocks) (i32 (u32 (total_blocks - barea_start - 1))) BLOCK_SIZE bmap_start barea_start
    fs_name EASYFS_MAGIC.

(** [root_inode]: 128 bytes of padding and the inode; the addresses are those of
    a static variable. *)
Definition root_d_inode : easy_d_inode := DInode 1 F_DIR 0 0 0 (replicate 13 0) 1.
Definition root_bytes : list Z := replicate 128 0 ++ encode_inode root_d_inode.

(** * The map of the blocks in use

    [data_map] has [BLOCK_SIZE / 8] bytes; an index outside is a fault.  The
    shifts of [0xFF] are on [int], the store keeps the low byte. *)
Definition map_set (i : Z) (f : Z → Z) (m : list Z) : option (list Z) :=
  if decide (0 <= i) then x ← m !! Z.to_nat i; Some (<[Z.to_nat i := u8 (f x)]> m) else None.

Fixpoint fill_full (n : nat) (i : Z) (m : list Z) : option (list Z) :=
  match n with
  | O => Some m
  | S n => m ← map_set i (λ _, 255) m; fill_full n (i + 1) m
  end.

Definition make_data_map (barea_start : Z) : option (list Z) :=
  let m := replicate (Z.to_nat (BLOCK_SIZE / 8)) 0 in
  let full_bytes := Z.quot barea_start 8 in
  let remaining_bits := Z.rem barea_start 8 in
  m ← fill_full (Z.to_nat full_bytes) 0 m;
  m ← (if 0 <? remaining_bits
       then map_set full_bytes (λ _, Z.shiftr (i32 (Z.shiftl 255 (8 - remaining_bits))) (8 - remaining_bits)) m
       else Some m);
  m ← map_set 0 (λ x, Z.land x 254) m;
  let root_byte := Z.quot barea_start 8 in
  let root_bit := Z.rem barea_start 8 in
  if root_byte <? BLOCK_SIZE / 8 then map_set root_byte (λ x, Z.lor x (Z.shiftl 1 root_bit)) m else Some m.

(** [main]: [argc], and whether [open] succeeded on the image. *)
Definition mkfs_main (argc : Z) (opened : bool) : M image Z :=
  if argc <? 2 then mret 1 else
  if negb opened then mret 1 else
  e ← lseek_end;
  let disk_size := e - BLOCK_SIZE in
  if disk_size =? -1 then mret 1 else
  let easy_sb := make_super disk_size in
  data_map ← deref (λ _, make_data_map (block_area_start easy_sb));
  write_block SUPER_BLOCK_LOCATION (encode_super easy_sb);;
  write_block (inode_map_start easy_sb) (le 4 2);;
  write_block (inode_area_start easy_sb) root_bytes;;
  write_block (block_map_start easy_sb) data_map;;
  mret 0.

(** * Correctness *)

(** ** [total_blocks * 0.01] *)

Lemma round53_near p : 0 < p →
  ∃ sh, 0 <= sh ∧ (sh = 0 ∨ 2 ^ sh * 2 ^ 52 <= p) ∧ 2 * Z.abs (round53 p - p) <= 2 ^ sh ∧
    ∀ v, (2 ^ sh | v) → v <= p → v <= round53 p.
Proof.
  intros Hp. unfold round53. set (sh := Z.max 0 (Z.log2 p - 52)). assert (Hsh : 0 <= sh) by lia. exists sh.
  pose proof (Z.pow_pos_nonneg 2 sh ltac:(lia) Hsh) as H2.
  pose proof (Z.div_mod p (2 ^ sh) ltac:(lia)) as Hdm. pose proof (Z.mod_pos_bound p (2 ^ sh) H2) as Hm.
  set (q := p / 2 ^ sh) in *. set (r := p mod 2 ^ sh) in *.
  split; [done|]. split.
  { destruct (decide (Z.log2 p <= 52)); [left; lia|right]. rewrite <-Z.pow_add_r by lia.
    replace (sh + 52) with (Z.log2 p) by lia. by apply Z.log2_spec. }
  split.
  - destruct (Z.eqb_spec (2 * r) (2 ^ sh)); [destruct (Z.odd q); lia|]. destruct (Z.ltb_spec (2 ^ sh) (2 * r)); lia.
  - intros v [k ->] Hv. assert (k <= q); [|destruct (if 2 * r =? 2 ^ sh then _ else _); nia].
    destruct (decide (q < k)); [|lia]. nia.
Qed.

(** For every [uint32_t] the rounded product truncates to a hundredth. *)
Lemma times_001_ok x : 0 < x < 2 ^ 32 → times_001 x / 2 ^ 59 = x / 100.
Proof.
  intros Hx. unfold times_001. set (p := x * 5764607523034235).
  destruct (round53_near p ltac:(lia)) as (sh & H0 & Hsh & Hn & Hlow).
  assert (Hs : 2 ^ sh <= 2 * x).
  { destruct Hsh as [->|Hsh]; [lia|]. unfold p in Hsh. nia. }
  assert (Hs59 : sh <= 59).
  { destruct (decide (sh <= 59)); [done|]. pose proof (Z.pow_le_mono_r 2 60 sh). lia. }
  pose proof (Z.div_mod x 100 ltac:(lia)). pose proof (Z.mod_pos_bound x 100 ltac:(lia)).
  set (k := x / 100) in *. set (r := x mod 100) in *.
  assert (Hk : k * 2 ^ 59 <= round53 p).
  { apply Hlow; [|unfold p; lia]. apply Z.divide_mul_r. exists (2 ^ (59 - sh)). rewrite <-Z.pow_add_r by lia. f_equal. lia. }
  symmetry. apply Z.div_unique with (round53 p - k * 2 ^ 59); [|lia]. left. split; [lia|].
  assert (p + x < (k + 1) * 2 ^ 59) by (unfold p; lia). lia.
Qed.

(** ** The superblock of an image of [n] blocks behind block 0 *)

(** Large enough for a root and another file, and not above the 2 GB the kernel can mount. *)
Definition mkfs_size (n : Z) : Prop := 400 <= n <= 524288.

Definition inodes_of (n : Z) : Z := n / 100.
Definition bmap_at (n : Z) : Z := 3 + ceil_div (inodes_of n * INODE_SIZE) BLOCK_SIZE.
Definition barea_at (n : Z) : Z := bmap_at n + ceil_div n (8 * BLOCK_SIZE).
Definition super_of (n : Z) : easy_d_super_block :=
  DSuper (inodes_of n - 1) (inodes_of n - 2) INODE_SIZE 2 3 n (n - barea_at n - 1) BLOCK_SIZE (bmap_at n) (barea_at n)
    fs_name EASYFS_MAGIC.

(** The regions follow each other inside the image. *)
Lemma geometry n : mkfs_size n →
  4 <= inodes_of n <= 5242 ∧ 4 <= bmap_at n <= 167 ∧ bmap_at n < barea_at n <= bmap_at n + 16 ∧ barea_at n + 8 < n ∧
  barea_at n <= 183 ∧ inodes_of n * INODE_SIZE <= (bmap_at n - 3) * BLOCK_SIZE ∧ n <= (barea_at n - bmap_at n) * (8 * BLOCK_SIZE).
Proof.
  unfold mkfs_size, barea_at, bmap_at, inodes_of, ceil_div, INODE_SIZE, BLOCK_SIZE. intros Hn.
  pose proof (Z.div_mod n 100 ltac:(lia)). pose proof (Z.mod_pos_bound n 100 ltac:(lia)). set (c := n / 100) in *.
  pose proof (Z.div_mod (c * 128 + 4096 - 1) 4096 ltac:(lia)). pose proof (Z.mod_pos_bound (c * 128 + 4096 - 1) 4096 ltac:(lia)).
  set (a := (c * 128 + 4096 - 1) / 4096) in *.
  pose proof (Z.div_mod (n + 8 * 4096 - 1) (8 * 4096) ltac:(lia)). pose proof (Z.mod_pos_bound (n + 8 * 4096 - 1) (8 * 4096) ltac:(lia)).
  set (b := (n + 8 * 4096 - 1) / (8 * 4096)) in *. lia.
Qed.

Lemma make_super_ok n : mkfs_size n → make_super (n * BLOCK_SIZE) = super_of n.
Proof.
  intros Hn. destruct (geometry n Hn) as (Gi & Gb & Ga & Gn & G1 & G2 & G3). pose proof Hn as Hn'. unfold mkfs_size in Hn'.
  unfold make_super. assert (Et : u32 (Z.quot (n * BLOCK_SIZE) BLOCK_SIZE) = n).
  { rewrite Z.quot_mul by done. apply u32_small. lia. }
  rewrite Et. assert (Ec : calc_inode_count (n * BLOCK_SIZE) n = inodes_of n).
  { unfold calc_inode_count. pose proof (times_001_ok n ltac:(lia)) as Ht.
    unfold AVG_FILE_SIZE. unfold BLOCK_SIZE. rewrite quot_div by lia.
    replace (n * 4096 / (500 * 1024)) with (n / 125).
    2:{ replace (n * 4096) with (n * 4096) by lia. replace (500 * 1024) with (125 * 4096) by lia. by rewrite Z.div_mul_cancel_r. }
    pose proof (Z.div_mod n 125 ltac:(lia)). pose proof (Z.mod_pos_bound n 125 ltac:(lia)).
    unfold inodes_of in *. pose proof (Z.div_mod n 100 ltac:(lia)). pose proof (Z.mod_pos_bound n 100 ltac:(lia)).
    pose proof (Z.div_mod (times_001 n) (2 ^ 59) ltac:(lia)). pose proof (Z.mod_pos_bound (times_001 n) (2 ^ 59) ltac:(lia)).
    rewrite Ht in *. destruct (Z.ltb_spec (times_001 n) (n / 125 * 2 ^ 59)); [|by apply u32_small; lia].
    rewrite u32_small by lia. lia. }
  rewrite Ec. assert (Em : ceil_div (inodes_of n) (8 * BLOCK_SIZE) = 1).
  { unfold ceil_div, BLOCK_SIZE. symmetry. apply Z.div_unique with (inodes_of n - 1); lia. }
  rewrite Em. rewrite (u32_small (inodes_of n * INODE_SIZE)) by (unfold INODE_SIZE; lia). cbv zeta.
  change (i32 (SUPER_BLOCK_LOCATION + 1 + 1)) with 3. change (SUPER_BLOCK_LOCATION + 1) with 2. fold (bmap_at n).
  rewrite (i32_small (bmap_at n)) by lia. fold (barea_at n). rewrite (i32_small (barea_at n)) by lia.
  rewrite u32_small, !i32_small by lia. reflexivity.
Qed.

(** ** The map of the blocks in use *)

(** The first block after those the map marks: the bits up to the end of the
    root's byte are set with it when the data area does not start on a byte. *)
Definition map_end (a : Z) : Z := if a mod 8 =? 0 then a + 1 else 8 * (a / 8) + 8.

Definition bit_of (m : list Z) (j : Z) : bool := Z.testbit (default 0 (m !! Z.to_nat (j / 8))) (j mod 8).
Definition bytes_ok (m : list Z) : Prop := length m = 512%nat ∧ Forall (λ x, 0 <= x < 256) m.

Lemma map_set_ok i g m :
  bytes_ok m → 0 <= i < 512 → ∃ m', map_set i g m = Some m' ∧ bytes_ok m' ∧
    ∀ j, m' !! j = if decide (j = Z.to_nat i) then u8 ∘ g <$> m !! j else m !! j.
Proof.
  intros [Hl Hb] Hi. unfold map_set. rewrite decide_True by lia.
  destruct (lookup_lt_is_Some_2 m (Z.to_nat i)) as [x Ex]; [lia|]. rewrite Ex. simpl. eexists. split; [done|]. split.
  - split; [by rewrite length_insert|]. apply Forall_insert; [done|]. apply u8_range.
  - intros j. case_decide as Hj; [subst|by rewrite list_lookup_insert_ne].
    rewrite list_lookup_insert_eq by lia. by rewrite Ex.
Qed.

Lemma fill_full_ok n : ∀ i m, bytes_ok m → 0 <= i → i + Z.of_nat n <= 512 →
  ∃ m', fill_full n i m = Some m' ∧ bytes_ok m' ∧
    ∀ j, m' !! j = if decide (i <= Z.of_nat j < i + Z.of_nat n) then Some 255 else m !! j.
Proof.
  induction n as [|n IH]; intros i m Hm H0 Hi; simpl fill_full.
  { exists m. split_and!; [done..|]. intros j. by rewrite decide_False by lia. }
  destruct (map_set_ok i (λ _, 255) m Hm) as (m1 & E1 & H1 & L1); [lia|]. rewrite E1. simpl.
  destruct (IH (i + 1) m1 H1) as (m2 & E2 & H2 & L2); [lia|lia|]. exists m2. split_and!; [done..|].
  intros j. rewrite L2, L1. destruct Hm as [Hl _].
  destruct (decide (i + 1 <= Z.of_nat j < i + 1 + Z.of_nat n)), (decide (i <= Z.of_nat j < i + Z.of_nat (S n))); try done; try lia.
  - rewrite decide_True by lia. by destruct (lookup_lt_is_Some_2 m j) as [x ->]; [lia|].
  - by rewrite decide_False by lia.
Qed.

(** The byte [k] of the map. *)
Definition map_byte (a k : Z) : Z :=
  let full := a / 8 in let r := a mod 8 in
  if k <? full then (if k =? 0 then 254 else 255)
  else if k =? full then (if r =? 0 then 1 else if k =? 0 then 254 else 255) else 0.

Lemma shift_back r : 0 < r < 8 → u8 (Z.shiftr (i32 (Z.shiftl 255 (8 - r))) (8 - r)) = 255.
Proof.
  intros Hr. assert (Hc : r = 1 ∨ r = 2 ∨ r = 3 ∨ r = 4 ∨ r = 5 ∨ r = 6 ∨ r = 7) by lia.
  repeat destruct Hc as [->|Hc]; subst; done.
Qed.
Lemma set_root_bit x r : x = 254 ∨ x = 255 → 0 < r < 8 → u8 (Z.lor x (Z.shiftl 1 r)) = x.
Proof.
  intros Hx Hr. assert (Hc : r = 1 ∨ r = 2 ∨ r = 3 ∨ r = 4 ∨ r = 5 ∨ r = 6 ∨ r = 7) by lia.
  destruct Hx as [-> | ->]; repeat destruct Hc as [->|Hc]; subst; done.
Qed.

Lemma make_data_map_bytes a : 1 <= a < 4096 →
  ∃ m, make_data_map a = Some m ∧ bytes_ok m ∧ ∀ k, (k < 512)%nat → m !! k = Some (map_byte a (Z.of_nat k)).
Proof.
  intros Ha. unfold make_data_map. rewrite quot_div, rem_mod by lia.
  pose proof (Z.div_mod a 8 ltac:(lia)) as Hdm. pose proof (Z.mod_pos_bound a 8 ltac:(lia)) as Hm.
  unfold map_byte. set (full := a / 8) in *. set (r := a mod 8) in *. change (Z.to_nat (BLOCK_SIZE / 8)) with 512%nat.
  assert (H0 : bytes_ok (replicate 512 0)).
  { split; [by rewrite length_replicate|]. apply Forall_replicate. lia. }
  assert (L0 : ∀ k, (k < 512)%nat → replicate 512 0 !! k = Some 0) by (intros; by apply lookup_replicate_2).
  revert H0 L0. generalize (replicate 512 0). intros m0 H0 L0.
  destruct (fill_full_ok (Z.to_nat full) 0 m0 H0) as (m1 & E1 & H1 & L1); [lia|lia|]. rewrite E1. simpl.
  assert (∃ m2, (if 0 <? r then map_set full (λ _, Z.shiftr (i32 (Z.shiftl 255 (8 - r))) (8 - r)) m1 else Some m1) = Some m2 ∧
    bytes_ok m2 ∧ ∀ k, (k < 512)%nat → m2 !! k = Some (if decide (Z.of_nat k < full ∨ (Z.of_nat k = full ∧ 0 < r)) then 255 else 0))
    as (m2 & E2 & H2 & L2).
  { destruct (Z.ltb_spec 0 r) as [Hr|Hr].
    - destruct (map_set_ok full (λ _, Z.shiftr (i32 (Z.shiftl 255 (8 - r))) (8 - r)) m1 H1) as (m2 & E2 & H2 & L2); [lia|].
      exists m2. split_and!; [done..|]. intros k Hk. rewrite L2, L1, L0 by done.
      repeat case_decide; try lia; try done; unfold fmap, option_fmap, option_map, compose; f_equal; apply shift_back; lia.
    - exists m1. split_and!; [done..|]. intros k Hk. rewrite L1, L0 by done. repeat case_decide; try done; lia. }
  rewrite E2. simpl. destruct (map_set_ok 0 (λ x, Z.land x 254) m2 H2) as (m3 & E3 & H3 & L3); [lia|]. rewrite E3. simpl.
  change (BLOCK_SIZE / 8) with 512. destruct (Z.ltb_spec full 512); [|lia].
  destruct (map_set_ok full (λ x, Z.lor x (Z.shiftl 1 r)) m3 H3) as (m4 & E4 & H4 & L4); [lia|].
  exists m4. split_and!; [done..|]. intros k Hk. rewrite L4, L3, L2 by done. simpl.
  destruct (Z.ltb_spec (Z.of_nat k) full), (Z.eqb_spec (Z.of_nat k) full), (Z.eqb_spec (Z.of_nat k) 0), (Z.eqb_spec r 0);
    repeat case_decide; try lia; simpl; try done; f_equal.
  all: try (rewrite e0; done); try (apply set_root_bit; [by (left + right)|lia]).
Qed.

Lemma map_byte_bit a j : 1 <= a → 0 <= j →
  Z.testbit (map_byte a (j / 8)) (j mod 8) = bool_decide (1 <= j < map_end a).
Proof.
  intros Ha Hj. unfold map_byte, map_end.
  pose proof (Z.div_mod j 8 ltac:(lia)). pose proof (Z.mod_pos_bound j 8 ltac:(lia)).
  pose proof (Z.div_mod a 8 ltac:(lia)). pose proof (Z.mod_pos_bound a 8 ltac:(lia)).
  set (q := j / 8) in *. set (t := j mod 8) in *. set (full := a / 8) in *. set (r := a mod 8) in *.
  assert (Ht : t = 0 ∨ t = 1 ∨ t = 2 ∨ t = 3 ∨ t = 4 ∨ t = 5 ∨ t = 6 ∨ t = 7) by lia.
  destruct (Z.ltb_spec q full), (Z.eqb_spec q full), (Z.eqb_spec q 0), (Z.eqb_spec r 0); try lia;
    case_bool_decide; repeat destruct Ht as [->|Ht]; try (rewrite Ht in * ); try done; lia.
Qed.

Lemma make_data_map_ok a : 1 <= a < 4096 →
  ∃ m, make_data_map a = Some m ∧ bytes_ok m ∧ ∀ j, 0 <= j < 4096 → bit_of m j = bool_decide (1 <= j < map_end a).
Proof.
  intros Ha. destruct (make_data_map_bytes a Ha) as (m & E & Hm & L). exists m. split_and!; [done..|].
  intros j Hj. unfold bit_of. assert (0 <= j / 8 < 512) by (split; [apply Z.div_pos; lia|apply Z.div_lt_upper_bound; lia]).
  rewrite L by lia. rewrite Z2Nat.id by lia. simpl. apply map_byte_bit; lia.
Qed.

(** ** The image *)

(** The byte at an address of the image. *)
Definition hbyte (h : image) (a : Z) : option Z := if decide (0 <= a < fsize h) then Some (default 0 (fbytes h !! a)) else None.

(** [data] and zeros up to the end of the block. *)
Definition pad (data : list Z) : list Z := data ++ replicate (Z.to_nat BLOCK_SIZE - length data) 0.

Lemma length_pad data : Z.of_nat (length data) <= BLOCK_SIZE → Z.of_nat (length (pad data)) = BLOCK_SIZE.
Proof. intros. unfold pad. rewrite length_app, length_replicate. unfold BLOCK_SIZE in *. lia. Qed.
Lemma pad_lookup data (i : nat) : Z.of_nat i < BLOCK_SIZE → pad data !! i = Some (default 0 (data !! i)).
Proof.
  intros Hi. unfold pad. destruct (decide (i < length data)%nat) as [Hl|Hl].
  - rewrite lookup_app_l by done. by destruct (lookup_lt_is_Some_2 data i Hl) as [x ->].
  - rewrite lookup_app_r, (lookup_ge_None_2 data) by lia. apply lookup_replicate_2. unfold BLOCK_SIZE in *. lia.
Qed.

Lemma write_block_ok b data h f N :
  (∀ a, hbyte h a = f a) → fsize h = N * BLOCK_SIZE → 0 <= b < N → N < 2 ^ 20 → Z.of_nat (length data) <= BLOCK_SIZE →
  ∃ h', write_block b data h = Done tt h' ∧ fsize h' = N * BLOCK_SIZE ∧ ∀ a, hbyte h' a = fwrite (b * BLOCK_SIZE) (pad data) f a.
Proof.
  intros Hf Hs Hb HN Hd. unfold BLOCK_SIZE in *. unfold write_block. unfold BLOCK_SIZE. rewrite (u32_small (b * 4096)) by lia.
  eexists. split; [reflexivity|]. cbn [fsize fpos fbytes]. rewrite length_replicate. split; [lia|]. intros a.
  unfold hbyte, fwrite. cbn [fsize fbytes]. rewrite !rd_store_lookup, length_replicate, length_pad by (unfold BLOCK_SIZE; lia).
  unfold BLOCK_SIZE. specialize (Hf a). unfold hbyte in Hf.
  destruct (decide (b * 4096 <= a < b * 4096 + 4096)) as [Ha|Ha].
  - rewrite decide_True by lia. rewrite pad_lookup by (unfold BLOCK_SIZE; lia). f_equal.
    destruct (decide (b * 4096 <= a < b * 4096 + Z.of_nat (length data))) as [Ha'|Ha']; [done|].
    rewrite (decide_True (P := b * 4096 <= a < b * 4096 + Z.of_nat (Z.to_nat 4096))) by lia.
    rewrite lookup_replicate_2 by lia. by rewrite lookup_ge_None_2 by lia.
  - rewrite <-Hf. rewrite (decide_False (P := b * 4096 <= a < b * 4096 + Z.of_nat (length data))) by lia.
    rewrite (decide_False (P := b * 4096 <= a < b * 4096 + Z.of_nat (Z.to_nat 4096))) by lia.
    repeat case_decide; try done; lia.
Qed.

(** What formatting makes of an image with the bytes [f]. *)
Definition formatted (n : Z) (data_map : list Z) (f : Z → option Z) : Z → option Z :=
  fwrite (bmap_at n * BLOCK_SIZE) (pad data_map) (fwrite (3 * BLOCK_SIZE) (pad root_bytes)
    (fwrite (2 * BLOCK_SIZE) (pad (le 4 2)) (fwrite (1 * BLOCK_SIZE) (pad (encode_super (super_of n))) f))).

Lemma fwrite_ext start data f g a : (∀ x, f x = g x) → fwrite start data f a = fwrite start data g a.
Proof. intros E. unfold fwrite. by rewrite E. Qed.

Lemma mkfs_image n h :
  mkfs_size n → fsize h = (n + 1) * BLOCK_SIZE →
  ∃ h' dm, mkfs_main 2 true h = Done 0 h' ∧ fsize h' = fsize h ∧ (∀ a, hbyte h' a = formatted n dm (hbyte h) a) ∧
    bytes_ok dm ∧ ∀ j, 0 <= j < 4096 → bit_of dm j = bool_decide (1 <= j < map_end (barea_at n)).
Proof.
  intros Hn Hs. destruct (geometry n Hn) as (Gi & Gb & Ga & Gn & G1 & G2 & G3). pose proof Hn as Hn'. unfold mkfs_size in Hn'.
  destruct (make_data_map_ok (barea_at n)) as (dm & Em & Hdm & Hbits); [lia|].
  unfold mkfs_main. change (2 <? 2) with false. cbv iota. change (negb true) with false. cbv iota.
  set (h1 := Image (fsize h) (fsize h) (fbytes h)). rewrite (bind_Done _ _ _ (fsize h) h1) by done. cbv zeta.
  assert (Ed : fsize h - BLOCK_SIZE = n * BLOCK_SIZE) by lia. rewrite Ed.
  destruct (Z.eqb_spec (n * BLOCK_SIZE) (-1)); [unfold BLOCK_SIZE in *; lia|].
  rewrite (make_super_ok n Hn). rewrite (bind_Done _ _ _ dm h1) by (unfold deref; simpl; by rewrite Em).
  destruct Hdm as [Hdl Hdb]. assert (HN : n + 1 < 2 ^ 20) by lia.
  destruct (write_block_ok 1 (encode_super (super_of n)) h1 (hbyte h) (n + 1)) as (h2 & E2 & S2 & B2); [done|done|lia|lia|done|].
  destruct (write_block_ok 2 (le 4 2) h2 _ (n + 1) B2) as (h3 & E3 & S3 & B3); [done|lia|lia|done|].
  destruct (write_block_ok 3 root_bytes h3 _ (n + 1) B3) as (h4 & E4 & S4 & B4); [done|lia|lia|done|].
  destruct (write_block_ok (bmap_at n) dm h4 _ (n + 1) B4) as (h5 & E5 & S5 & B5); [done|lia|lia|by rewrite Hdl|].
  exists h5, dm. split_and!; [|by rewrite S5|exact B5|done..].
  change SUPER_BLOCK_LOCATION with 1. rewrite (bind_Done _ _ _ _ _ E2). simpl inode_map_start.
  rewrite (bind_Done _ _ _ _ _ E3). simpl inode_area_start. rewrite (bind_Done _ _ _ _ _ E4). simpl block_map_start.
  by rewrite (bind_Done _ _ _ _ _ E5).
Qed.

(** C38: [mkfs] on an image of [n] blocks behind block 0: it succeeds, keeps the size
    of the image, and writes four blocks: the superblock of the geometry, the
    first block of the inode map with inode 1 taken, the root directory's inode
    and the first block of the block map with the blocks from 1 to the end of the
    root's byte taken. *)
Theorem mkfs_correct n h :
  mkfs_size n → fsize h = (n + 1) * BLOCK_SIZE →
  ∃ h' dm, mkfs_main 2 true h = Done 0 h' ∧ fsize h' = fsize h ∧ (∀ a, hbyte h' a = formatted n dm (hbyte h) a) ∧
    bytes_ok dm ∧ ∀ j, 0 <= j < 4096 → bit_of dm j = bool_decide (1 <= j < map_end (barea_at n)).
Proof. apply mkfs_image. Qed.

Lemma mkfs_correct_witness :
  ∃ h' dm, mkfs_main 2 true (Image 0 (401 * BLOCK_SIZE) ∅) = Done 0 h' ∧
    (∀ a, hbyte h' a = formatted 400 dm (hbyte (Image 0 (401 * BLOCK_SIZE) ∅)) a) ∧ bit_of dm 5 = true ∧ bit_of dm 8 = false.
Proof.
  destruct (mkfs_correct 400 (Image 0 (401 * BLOCK_SIZE) ∅)) as (h' & dm & E & _ & Hb & _ & Hbits); [by split|done|].
  exists h', dm. split; [exact E|]. clear E. split; [exact Hb|]. clear Hb.
  rewrite !Hbits by lia. split; reflexivity.
Defined.

(** ** What the formatted image holds *)

Lemma formatted_at n dm f b o : 0 <= o < BLOCK_SIZE → bytes_ok dm →
  formatted n dm f (b * BLOCK_SIZE + o) =
    if decide (b = bmap_at n) then pad dm !! Z.to_nat o else if decide (b = 3) then pad root_bytes !! Z.to_nat o
    else if decide (b = 2) then pad (le 4 2) !! Z.to_nat o
    else if decide (b = 1) then pad (encode_super (super_of n)) !! Z.to_nat o else f (b * BLOCK_SIZE + o).
Proof.
  intros Ho [Hl _].
  assert (Hw : ∀ c data g, Z.of_nat (length data) <= BLOCK_SIZE →
    fwrite (c * BLOCK_SIZE) (pad data) g (b * BLOCK_SIZE + o) = if decide (b = c) then pad data !! Z.to_nat o else g (b * BLOCK_SIZE + o)).
  { intros c data g Hd. unfold fwrite. rewrite length_pad by done. unfold BLOCK_SIZE in *.
    destruct (decide (b = c)) as [->|Hne]; [rewrite decide_True by lia; f_equal; lia|by rewrite decide_False by lia]. }
  unfold formatted. rewrite !Hw; [done|done|done|done|by rewrite Hl].
Qed.

Lemma disk_bytes_block g b o data k :
  0 <= o → o + Z.of_nat k <= BLOCK_SIZE → (Z.to_nat o + k <= length data)%nat →
  (∀ x, o <= x < o + Z.of_nat k → g (b * BLOCK_SIZE + x) = data !! Z.to_nat x) →
  disk_bytes g (b * BLOCK_SIZE + o) k = take k (drop (Z.to_nat o) data).
Proof.
  intros Ho Hk Hl Hg. apply list_eq. intros j. destruct (decide (j < k)%nat) as [Hj|Hj].
  - rewrite disk_bytes_lookup, lookup_take_lt, lookup_drop by done. rewrite <-Z.add_assoc, Hg by lia.
    replace (Z.to_nat (o + Z.of_nat j)) with (Z.to_nat o + j)%nat by lia.
    by destruct (lookup_lt_is_Some_2 data (Z.to_nat o + j)) as [x ->]; [lia|].
  - rewrite !lookup_ge_None_2; [done|rewrite length_take; lia|rewrite length_disk_bytes; lia].
Qed.

Section image.
Context (n : Z) (dm : list Z) (f : Z → option Z).
Context (Hn : mkfs_size n) (Hdm : bytes_ok dm).
Local Notation "'F'" := (formatted n dm f).

Lemma formatted_super : disk_bytes F (SUPER_BLOCK_LOCATION * BLOCK_SIZE + 0) D_SUPER_BYTES = encode_super (super_of n).
Proof.
  destruct (geometry n Hn) as (_ & Gb & _).
  rewrite (disk_bytes_block F 1 0 (pad (encode_super (super_of n)))).
  - change (Z.to_nat 0) with 0%nat. rewrite drop_0. unfold pad. by apply take_app_length'.
  - done.
  - done.
  - unfold pad. rewrite length_app. change (length (encode_super (super_of n))) with 60%nat. unfold D_SUPER_BYTES. lia.
  - intros x Hx. rewrite formatted_at; [|unfold BLOCK_SIZE; change (Z.of_nat D_SUPER_BYTES) with 60 in Hx; lia|done].
    by rewrite decide_False, (decide_False (P := 1 = 3)), (decide_False (P := 1 = 2)), decide_True by (done || lia).
Qed.

Lemma formatted_imap : disk_bytes F (2 * BLOCK_SIZE + 0) (Z.to_nat BLOCK_SIZE) = pad (le 4 2).
Proof.
  destruct (geometry n Hn) as (_ & Gb & _). rewrite (disk_bytes_block F 2 0 (pad (le 4 2))); [done|done|done|done|].
  intros x Hx. rewrite formatted_at; [|unfold BLOCK_SIZE in *; lia|done].
  by rewrite decide_False, (decide_False (P := 2 = 3)), decide_True by (done || lia).
Qed.

Lemma formatted_root : disk_bytes F (3 * BLOCK_SIZE + 128) D_INODE_BYTES = encode_inode root_d_inode.
Proof.
  destruct (geometry n Hn) as (_ & Gb & _). rewrite (disk_bytes_block F 3 128 (pad root_bytes)); [done|done|done|by vm_compute; lia|].
  intros x Hx. rewrite formatted_at; [|unfold BLOCK_SIZE; change (Z.of_nat D_INODE_BYTES) with 72 in Hx; lia|done].
  by rewrite decide_False, decide_True by (done || lia).
Qed.

Context (Hzero : ∀ a, 0 <= a < (n + 1) * BLOCK_SIZE → f a = Some 0).

(** The bytes of the block map, and the blocks nobody wrote. *)
Lemma formatted_bmap a : bmap_at n * BLOCK_SIZE <= a < barea_at n * BLOCK_SIZE →
  F a = Some (default 0 (dm !! Z.to_nat (a - bmap_at n * BLOCK_SIZE))).
Proof.
  destruct (geometry n Hn) as (_ & Gb & Ga & Gn & _). intros Ha. unfold BLOCK_SIZE in *.
  pose proof (Z.div_mod a 4096 ltac:(lia)). pose proof (Z.mod_pos_bound a 4096 ltac:(lia)).
  set (b := a / 4096) in *. set (o := a mod 4096) in *. replace a with (b * 4096 + o) by lia.
  change 4096 with BLOCK_SIZE. rewrite formatted_at by (done || (unfold BLOCK_SIZE; lia)). unfold BLOCK_SIZE.
  destruct (decide (b = bmap_at n)) as [Hb|Hb].
  - rewrite pad_lookup by (unfold BLOCK_SIZE; lia). do 3 f_equal. lia.
  - rewrite !decide_False by lia. rewrite Hzero by (unfold BLOCK_SIZE; lia). rewrite (lookup_ge_None_2 dm); [done|].
    destruct Hdm as [-> _]. lia.
Qed.

Lemma formatted_zero b o : barea_at n <= b <= n → 0 <= o < BLOCK_SIZE → F (b * BLOCK_SIZE + o) = Some 0.
Proof.
  destruct (geometry n Hn) as (_ & Gb & Ga & Gn & _). intros Hb Ho. rewrite formatted_at by done.
  rewrite !decide_False by lia. apply Hzero. unfold BLOCK_SIZE in *. lia.
Qed.
End image.
