(* ===== verification/Mount.v ===== *)
(** A formatted disk mounted: tools/mkfs.c, fs/easyfs/super.c, inode.c and
    dentry.c together.

    The file system starts from the memory of a fresh boot ([unmounted]) and a
    device that holds what Mkfs wrote.  [efs_mount] succeeds, and the state it
    leaves is one the theorems on files, inodes and directories start from,
    except for the counts of free inodes and blocks, which mkfs writes too high. *)
From S2P Require Import Prelude ListLib Containers Bitmap Buddy PageAlloc Semaphore ObjCache Bio BlockDev Layout Efs EfsFile EfsInode Dentry Dirs Mkfs.

#[local] Arguments replicate : simpl never.
#[local] Arguments decode_words : simpl never.

(** * Bitmaps read from disk *)

Lemma unle_testbit l j : 0 <= j → Z.testbit (unle l) j = Z.testbit (default 0 (l !! Z.to_nat (j / 8)) mod 256) (j mod 8).
Proof.
  revert j. induction l as [|b l IH]; intros j Hj; [simpl; by rewrite Z.bits_0, Z.mod_0_l, Z.bits_0 by lia|].
  cbn [unle]. pose proof (Z.mod_pos_bound b 256 ltac:(lia)) as Hb.
  pose proof (Z.div_mod j 8 ltac:(lia)). pose proof (Z.mod_pos_bound j 8 ltac:(lia)).
  destruct (decide (j < 8)) as [Hl|Hl].
  - rewrite Z.div_small, (Z.mod_small j) by lia. simpl.
    rewrite <-(Z.mod_pow2_bits_low (b mod 256 + 256 * unle l) 8) by lia. f_equal.
    change (2 ^ 8) with 256. rewrite Z.mul_comm, Z.mod_add by lia. by rewrite Z.mod_mod by lia.
  - replace j with (j - 8 + 8) at 1 by lia. rewrite <-Z.div_pow2_bits by lia. change (2 ^ 8) with 256.
    rewrite Z.mul_comm, Z.div_add, Z.div_small, Z.add_0_l by lia. rewrite IH by lia.
    replace ((j - 8) mod 8) with (j mod 8); [|replace j with (j - 8 + 1 * 8) at 1 by lia; by rewrite Z.mod_add by lia].
    assert (E : (j - 8) / 8 = j / 8 - 1).
    { replace (j - 8) with (j + (-1) * 8) by lia. by rewrite Z.div_add by lia. }
    rewrite E. replace (Z.to_nat (j / 8)) with (S (Z.to_nat (j / 8 - 1))) by lia. done.
Qed.

(** The words of a bitmap and the bits of the bytes they were read from. *)
Lemma words64_used data n ws sz u a j :
  words64 data n = Some ws → (8 | n) → Forall (λ x, 0 <= x < 256) data → 0 <= j < 8 * n →
  Bmp.used (Bmp.Bitmap ws sz u a) j = bit_of data j.
Proof.
  unfold words64. destruct (_ <=? n); [|done]. intros [= <-] [k ->] Hb Hj. unfold Bmp.used, bit_of. simpl.
  pose proof (Z.div_mod j 64 ltac:(lia)). pose proof (Z.mod_pos_bound j 64 ltac:(lia)).
  pose proof (Z.div_mod j 8 ltac:(lia)). pose proof (Z.mod_pos_bound j 8 ltac:(lia)).
  assert (0 <= j / 64) by (apply Z.div_pos; lia).
  rewrite list_lookup_fmap, lookup_seq_lt by (rewrite Z.div_mul by lia; assert (j / 64 < k) by (apply Z.div_lt_upper_bound; lia); lia).
  cbn [fmap option_fmap option_map]. unfold field. rewrite unle_testbit by lia.
  assert (E8 : j mod 64 / 8 = j / 8 - 8 * (j / 64)).
  { symmetry. apply Z.div_unique with (j mod 8); lia. }
  assert (Em : (j mod 64) mod 8 = j mod 8).
  { symmetry. apply Z.mod_unique with (j / 8 - 8 * (j / 64)); lia. }
  rewrite Em, E8, lookup_take_lt, lookup_drop by lia.
  match goal with |- context [data !! ?x] => replace x with (Z.to_nat (j / 8)) by lia end.
  destruct (data !! Z.to_nat (j / 8)) as [x|] eqn:Ex; simpl; [|by rewrite Z.mod_0_l].
  eapply Forall_lookup_1 in Hb; [|exact Ex]. by rewrite Z.mod_small.
Qed.

Lemma words64_range data n ws : words64 data n = Some ws →
  (∀ i w, ws !! i = Some w → 0 <= w < 2 ^ 64) ∧ length ws = Z.to_nat (n / 8).
Proof.
  unfold words64. destruct (_ <=? n); [|done]. intros [= <-]. split; [|by rewrite length_fmap, length_seq].
  intros i w (k & -> & _)%list_lookup_fmap_Some. exact (field_range _ 8 data).
Qed.

(** [e] is the first free index: from 1 on exactly the ones below it are taken. *)
Record marks (e sz : Z) (b : Bmp.bitmap) : Prop := {
  mk_size : Bmp.size b = sz;
  mk_alloc : Bmp.allocation b = e;
  mk_used : ∀ j, 0 <= j < sz → Bmp.used b j = bool_decide (1 <= j < e);
  mk_len : sz <= 64 * Z.of_nat (length (Bmp.map b));
  mk_words : ∀ i w, Bmp.map b !! i = Some w → 0 <= w < 2 ^ 64;
}.

Lemma filter_all {A} (Q : A → Prop) `{∀ x, Decision (Q x)} (l : list A) : (∀ x, x ∈ l → Q x) → filter Q l = l.
Proof.
  induction l as [|x l IH]; intros Hl; [done|]. rewrite filter_cons_True by (apply Hl; by left).
  by rewrite IH by (intros; apply Hl; by right).
Qed.
Lemma filter_none {A} (Q : A → Prop) `{∀ x, Decision (Q x)} (l : list A) : (∀ x, x ∈ l → ¬ Q x) → filter Q l = [].
Proof.
  induction l as [|x l IH]; intros Hl; [done|]. rewrite filter_cons_False by (apply Hl; by left).
  by rewrite IH by (intros; apply Hl; by right).
Qed.

Lemma marks_free e sz b : marks e sz b → 1 <= e <= sz → Z.of_nat (length (Bmp.free_list b 1 sz)) = sz - e.
Proof.
  intros Hm He. unfold Bmp.free_list. replace (sz - 1) with ((e - 1) + (sz - e)) by lia.
  rewrite seqZ_app, filter_app, length_app by lia. replace (1 + (e - 1)) with e by lia.
  assert (E1 : filter (λ j, Bmp.used b j = false) (seqZ 1 (e - 1)) = []).
  { apply filter_none. intros j Hj%elem_of_seqZ. rewrite (mk_used _ _ _ Hm) by lia. by rewrite bool_decide_true by lia. }
  assert (E2 : filter (λ j, Bmp.used b j = false) (seqZ e (sz - e)) = seqZ e (sz - e)).
  { apply filter_all. intros j Hj%elem_of_seqZ. rewrite (mk_used _ _ _ Hm) by lia. by rewrite bool_decide_false by lia. }
  rewrite E1, E2, length_seqZ. simpl. lia.
Qed.

(** With the right count the bitmap is well formed. *)
Lemma marks_wf e sz b : marks e sz b → 1 <= e <= sz → Bmp.bitmap_wf 1 (Bmp.set_unused (sz - e) b).
Proof.
  intros Hm He. pose proof (marks_free e sz b Hm He) as Hf. destruct Hm as [M1 M2 M3 M4 M5].
  split; simpl; rewrite ?M1, ?M2; try done; try lia.
  intros j Hj. change (Bmp.used b j = true). rewrite M3 by lia. by rewrite bool_decide_true.
Qed.

Lemma clear_set_word w k : 0 <= w < 2 ^ 64 → 0 <= k < 64 → Z.testbit w k = false →
  Z.land (Z.lor w (Z.shiftl 1 k)) (Z.lxor (Z.shiftl 1 k) (2 ^ 64 - 1)) = w.
Proof.
  intros Hw Hk Hf. apply Z.bits_inj'. intros i Hi. replace (2 ^ 64 - 1) with (Z.ones 64) by done.
  rewrite Z.land_spec, Z.lor_spec, Z.lxor_spec, Z.testbit_ones_nonneg by lia.
  rewrite Z.shiftl_mul_pow2, Z.mul_1_l by lia. destruct (decide (i = k)) as [->|Hne].
  - rewrite Z.pow2_bits_true by lia. rewrite Hf. replace (k <? 64) with true by (symmetry; apply Z.ltb_lt; lia). done.
  - rewrite Z.pow2_bits_false by lia. rewrite orb_false_r. destruct (Z.ltb_spec i 64).
    + by destruct (Z.testbit w i).
    + assert (Z.testbit w i = false) as ->; [|done].
      rewrite <-(Z.mod_small w (2 ^ 64)) by lia. apply Z.mod_pow2_bits_high. lia.
Qed.

(** [bitmap_reset_allo(1)] moves the search position to the first free index. *)
Lemma reset_allo_ok ws sz e :
  (∀ i w, ws !! i = Some w → 0 <= w < 2 ^ 64) → sz <= 64 * Z.of_nat (length ws) → 1 <= e < sz →
  (∀ j, 0 <= j < sz → Bmp.used (Bmp.Bitmap ws sz sz 0) j = bool_decide (1 <= j < e)) →
  Bmp.bitmap_reset_allo 1 (Bmp.Bitmap ws sz sz 0) = Done tt (Bmp.Bitmap ws sz sz e).
Proof.
  intros Hws Hl He Hu. set (b1 := Bmp.Bitmap ws sz sz 1). unfold Bmp.bitmap_reset_allo.
  rewrite (bind_Done _ _ _ tt b1) by done.
  pose proof (Z.div_mod e 64 ltac:(lia)). pose proof (Z.mod_pos_bound e 64 ltac:(lia)).
  assert (Hlen : e / 64 < Z.of_nat (length ws)) by (apply Z.div_lt_upper_bound; lia).
  assert (e / 64 < (sz + 63) / 64).
  { apply Z.div_lt_upper_bound; [lia|]. pose proof (Z.div_mod (sz + 63) 64 ltac:(lia)).
    pose proof (Z.mod_pos_bound (sz + 63) 64 ltac:(lia)). lia. }
  destruct (Bmp.scan_blocks_ok (Z.to_nat ((sz + 63) / 64 - 0)) 0 0 1 e b1) as (w & Ew & E); [lia|lia|lia|simpl; lia|simpl; lia| | |].
  { change (Bmp.used b1 e) with (Bmp.used (Bmp.Bitmap ws sz sz 0) e). rewrite Hu by lia. by rewrite bool_decide_false by lia. }
  { intros j Hj. change (Bmp.used b1 j) with (Bmp.used (Bmp.Bitmap ws sz sz 0) j). rewrite Hu by lia. by rewrite bool_decide_true by lia. }
  set (ws' := <[Z.to_nat (e / 64) := Z.lor w (Z.shiftl 1 (e mod 64))]> ws).
  set (b2 := Bmp.Bitmap ws' sz (sz - 1) (e + 1)).
  rewrite (bind_Done _ _ _ e b2).
  2:{ unfold Bmp.bitmap_alloc. rewrite (bind_Done _ _ _ sz b1) by done. destruct (Z.eqb_spec sz 0); [lia|].
      rewrite (bind_Done _ _ _ b1 b1) by done. cbv zeta. simpl Bmp.allocation. simpl Bmp.size.
      rewrite quot_div by lia. exact E. }
  unfold Bmp.bitmap_free. rewrite (bind_Done _ _ _ sz b2) by done.
  replace ((e <? 0) || (sz <=? e)) with false by (symmetry; rewrite orb_false_iff, Z.ltb_ge, Z.leb_gt; lia).
  cbv zeta. rewrite quot_div, rem_mod by lia. set (b3 := Bmp.Bitmap ws' sz (sz - 1) e).
  rewrite (bind_Done _ _ _ tt b3).
  2:{ unfold modify. simpl. by destruct (Z.ltb_spec e (e + 1)); [|lia]. }
  pose proof (lookup_lt_Some _ _ _ Ew) as Hlt. simpl in Ew, Hlt.
  set (w1 := Z.lor w (Z.shiftl 1 (e mod 64))) in *.
  rewrite (bind_Done _ _ _ w1 b3).
  2:{ apply Bmp.word_ok; [apply Z.div_pos; lia|]. simpl. unfold ws'. by rewrite list_lookup_insert_eq. }
  assert (Hbit : Z.testbit w (e mod 64) = false).
  { specialize (Hu e ltac:(lia)). rewrite bool_decide_false in Hu by lia. unfold Bmp.used in Hu. simpl in Hu. by rewrite Ew in Hu. }
  rewrite Bmp.test_testbit by lia. unfold w1 at 1. rewrite Z.lor_spec, Z.shiftl_spec, Z.sub_diag by lia.
  rewrite orb_true_r. unfold Bmp.set_word, modify, mbind, M_bind. simpl. f_equal.
  unfold Bmp.set_unused, Bmp.set_map. simpl. f_equal; [|lia].
  unfold w1, ws'. rewrite clear_set_word by (done || lia || by eapply Hws).
  rewrite list_insert_insert_eq. by apply list_insert_id.
Qed.

Section mount.
Context {P C B : Type} `{PageAllocLaws P} `{ObjCacheLaws C} `{BlockDevLaws B}.
Local Notation "'fs'" := (efs P C B).
Implicit Types (s : fs) (g : Z → option Z).

(** * Loading a map *)
Lemma fill_map_ok N K g s nbytes mstart astart count free (wr : Bmp.bitmap → fs → fs) (rd : fs → Bmp.bitmap) e :
  bd_rep (s_bd s) N K g → 0 <= mstart → 0 < (astart - mstart) * BLOCK_SIZE <= nbytes → nbytes <= 2 ^ 20 → astart < 2 ^ 31 →
  astart <= N → astart - mstart <= K → (8 | nbytes) →
  let data := disk_bytes g (mstart * BLOCK_SIZE + 0) (Z.to_nat ((astart - mstart) * BLOCK_SIZE)) in
  Forall (λ x, 0 <= x < 256) data → (∀ j, 0 <= j < count → bit_of data j = bool_decide (1 <= j < e)) →
  1 <= e < count → count <= 8 * nbytes →
  (∀ x y, rd (wr x y) = x) → (∀ x y z, wr x (wr y z) = wr x z) →
  ∃ bd' b, fill_map nbytes mstart astart count free wr rd s = Done tt (wr b (set_bd bd' s)) ∧ bd_rep bd' N K g ∧
    marks e count b ∧ Bmp.unused b = free.
Proof.
  intros Hr Hm Hn Hnb H31 HaN HK H8 data Hby Hbits He Hc Hrd Hwr. pose proof (bd_size _ _ _ _ Hr) as HN.
  assert (Ec : u32 (i32 (astart - mstart) * BLK_SIZE) = (astart - mstart) * BLOCK_SIZE).
  { change BLK_SIZE with BLOCK_SIZE. unfold BLOCK_SIZE in *. rewrite i32_small, u32_small by lia. done. }
  destruct (dev_read_range N K g s mstart 0 ((astart - mstart) * BLOCK_SIZE)) as (bd' & E & Hr'); [done| |done|].
  { unfold bd_range, is_u32, blocks_of, BLK_SIZE. unfold BLOCK_SIZE in *. split_and!; try lia.
    destruct (Z.eqb_spec ((astart - mstart) * 4096) 0); [lia|].
    rewrite Z.mod_0_l by lia. replace (0 + (astart - mstart) * 4096 - 1) with (4095 + (astart - mstart - 1) * 4096) by lia.
    rewrite Z.div_add by lia. change (4095 / 4096) with 0. lia. }
  unfold fill_map, dev_read_count. rewrite Ec, (bind_Done _ _ _ _ _ E). fold data.
  assert (∃ ws, words64 data nbytes = Some ws) as [ws Ews].
  { unfold words64. destruct (Z.leb_spec (Z.of_nat (length data)) nbytes) as [|Hgt]; [by eexists|].
    unfold data in Hgt. rewrite length_disk_bytes in Hgt. lia. }
  rewrite (bind_Done _ _ _ ws (set_bd bd' s)) by (unfold deref; simpl; by rewrite Ews).
  destruct (words64_range _ _ _ Ews) as [Hws Hlen]. destruct H8 as [k ->]. rewrite Z.div_mul in Hlen by lia.
  assert (Hu : ∀ a j, 0 <= j < count → Bmp.used (Bmp.Bitmap ws count count a) j = bool_decide (1 <= j < e)).
  { intros a j Hj. rewrite (words64_used data (k * 8)); [by apply Hbits|done|by exists k|done|lia]. }
  set (s1 := wr (Bmp.Bitmap ws count count 0) (set_bd bd' s)).
  rewrite (bind_Done (modify _) _ _ tt s1) by done.
  rewrite (bind_Done (zoom _ _ _) _ _ tt (wr (Bmp.Bitmap ws count count e) (set_bd bd' s))).
  2:{ unfold zoom, s1. rewrite Hrd, (reset_allo_ok ws count e); [by rewrite Hwr|done|lia|lia|apply Hu]. }
  exists bd', (Bmp.Bitmap ws count free e). unfold zoom. rewrite Hrd. unfold Bmp.bitmap_reset_unused, modify.
  rewrite Hwr. split_and!; [done|done| |done].
  split; simpl; [done|done| |lia|done]. intros j Hj. exact (Hu 0 j Hj).
Qed.

(** * The superblock *)

(** The memory of the file system at boot: zeros, and the static root dentry. *)
Definition empty_table : Hash.hash_table floc := {| Hash.size := 0; Hash.count := 0; Hash.name := []; Hash.heads := [] |}.
Definition static_root : easy_dentry :=
  Dentry (Dirent 1 F_DIR (47 :: replicate 15 0)) 0 0 (Mutex.Mut 0 (sem_init 0) None) 0 0.
Definition unmounted (bd : B) (ic dc : C) (pg : P) : fs :=
  Efs bd (DSuper 0 0 0 0 0 0 0 0 0 0 (replicate 16 0) 0) 0 (Bmp.Bitmap [] 0 0 0) (Bmp.Bitmap [] 0 0 0) empty_table empty_table ∅
    ∅ {[root_dentry := static_root]} ∅ ∅ ic dc pg.

Definition i_heads : list floc := S_ihash ∘ Z.of_nat <$> seq 0 41.
Definition d_heads : list floc := S_dhash ∘ Z.of_nat <$> seq 0 41.
Definition new_table (hs : list floc) : Hash.hash_table floc :=
  {| Hash.size := 41; Hash.count := 0; Hash.name := []; Hash.heads := hs |}.
Definition all_heads : list floc := i_heads ++ d_heads ++ [S_ilist; S_dlist; S_idirty_list; S_ddirty_list].
Definition sb_nodes : gmap floc (node floc) := foldl (λ h hd, INIT_LIST_HEAD hd h) ∅ all_heads.

(** After [efs_sb_init]. *)
Definition sb_state (n : Z) (bd : B) (ic dc : C) (pg : P) (im bm : Bmp.bitmap) : fs :=
  Efs bd (super_of n) 0 im bm (new_table i_heads) (new_table d_heads) sb_nodes ∅ {[root_dentry := static_root]} ∅ ∅ ic dc pg.

Lemma super_wf_of n : mkfs_size n → super_wf (super_of n).
Proof.
  intros Hn. destruct (geometry n Hn) as (Gi & Gb & Ga & Gn & G1 & _). pose proof Hn as Hn'. unfold mkfs_size in Hn'.
  split; [|done|done]. unfold super_of, super_ints, is_i32. simpl. repeat (constructor; [unfold INODE_SIZE, BLOCK_SIZE; lia|]). constructor.
Qed.

(** What the call relies on: the image, room for a call of 16 blocks, a page for
    the inode map and sixteen in a row for the block map. *)
Record mount_ready n dm f (N K : Z) (bd : B) (pg : P) (X : gset Z) (alloc4 : M P Z) : Prop := {
  mr_size : mkfs_size n;
  mr_map : bytes_ok dm;
  mr_bits : ∀ j, 0 <= j < 4096 → bit_of dm j = bool_decide (1 <= j < map_end (barea_at n));
  mr_zero : ∀ a, 0 <= a < (n + 1) * BLOCK_SIZE → f a = Some 0;
  mr_dev : bd_rep bd N K (formatted n dm f);
  mr_N : N = n + 1;
  mr_K : 16 <= K;
  mr_pages : page_rep pg X ∧ X ≠ ∅;
  mr_alloc4 : ∀ p pg1, alloc_zeroed pg = Done p pg1 →
    ∃ a pg2 Y, alloc4 pg1 = Done a pg2 ∧ a ≠ 0 ∧ page_rep pg2 Y ∧ Y ≠ ∅;
}.

Lemma map_end_le n : mkfs_size n → barea_at n + 1 <= map_end (barea_at n) <= barea_at n + 8.
Proof.
  intros Hn. destruct (geometry n Hn) as (_ & Gb & Ga & Gn & _). unfold map_end.
  pose proof (Z.div_mod (barea_at n) 8 ltac:(lia)). pose proof (Z.mod_pos_bound (barea_at n) 8 ltac:(lia)).
  destruct (Z.eqb_spec (barea_at n mod 8) 0); lia.
Qed.

Section sb.
Context (n : Z) (dm : list Z) (f : Z → option Z) (N K : Z) (bd : B) (pg : P) (X : gset Z) (alloc4 : M P Z).
Context (Hr : mount_ready n dm f N K bd pg X alloc4).
Local Notation "'F'" := (formatted n dm f).

Lemma imap_bits j : 0 <= j < 32768 → bit_of (pad (le 4 2)) j = bool_decide (1 <= j < 2).
Proof.
  intros Hj. unfold bit_of. pose proof (Z.div_mod j 8 ltac:(lia)). pose proof (Z.mod_pos_bound j 8 ltac:(lia)).
  assert (0 <= j / 8 < 4096) by (split; [apply Z.div_pos; lia|apply Z.div_lt_upper_bound; lia]).
  rewrite pad_lookup by (unfold BLOCK_SIZE; lia). change (default 0 (Some ?x)) with x.
  destruct (decide (j / 8 = 0)) as [E|Hne].
  - rewrite E. assert (Ht : j = 0 ∨ j = 1 ∨ j = 2 ∨ j = 3 ∨ j = 4 ∨ j = 5 ∨ j = 6 ∨ j = 7) by lia.
    repeat destruct Ht as [->|Ht]; try done. by subst.
  - rewrite bool_decide_false by lia. assert (Hl : (1 <= Z.to_nat (j / 8))%nat) by lia.
    assert (E0 : default 0 (le 4 2 !! Z.to_nat (j / 8)) = 0).
    { destruct (Z.to_nat (j / 8)) as [|[|[|[|]]]]; try done. lia. }
    by rewrite E0, Z.bits_0.
Qed.

Lemma bmap_bits j : 0 <= j < n →
  bit_of (disk_bytes F (bmap_at n * BLOCK_SIZE + 0) (Z.to_nat ((barea_at n - bmap_at n) * BLOCK_SIZE))) j =
    bool_decide (1 <= j < map_end (barea_at n)).
Proof.
  destruct Hr as [Hn Hdm Hbits Hz _ _ _ _ _]. destruct (geometry n Hn) as (_ & Gb & Ga & Gn & _ & _ & G3).
  pose proof (map_end_le n Hn). destruct (geometry n Hn) as (_ & _ & _ & _ & G1 & _). intros Hj. unfold bit_of.
  pose proof (Z.div_mod j 8 ltac:(lia)). pose proof (Z.mod_pos_bound j 8 ltac:(lia)).
  assert (0 <= j / 8) by (apply Z.div_pos; lia). unfold BLOCK_SIZE in *.
  rewrite disk_bytes_lookup by lia. change (default 0 (Some ?x)) with x.
  rewrite (formatted_bmap n dm f Hn Hdm Hz) by (unfold BLOCK_SIZE; lia). unfold BLOCK_SIZE.
  replace (Z.to_nat (bmap_at n * 4096 + 0 + Z.of_nat (Z.to_nat (j / 8)) - bmap_at n * 4096)) with (Z.to_nat (j / 8)) by lia.
  change (default 0 (Some ?x)) with x. destruct (decide (j < 4096)) as [Hl|Hg]; [exact (Hbits j ltac:(lia))|].
  rewrite bool_decide_false by lia. destruct Hdm as [Hdl _]. rewrite lookup_ge_None_2 by lia. by rewrite Z.bits_0.
Qed.

Lemma image_bytes b k : Forall (λ x, 0 <= x < 256) dm → bmap_at n <= b → b * BLOCK_SIZE + Z.of_nat k <= barea_at n * BLOCK_SIZE →
  Forall (λ x, 0 <= x < 256) (disk_bytes F (b * BLOCK_SIZE + 0) k).
Proof.
  destruct Hr as [Hn Hdm _ Hz _ _ _ _ _]. intros Hb Hbm Hk. apply Forall_lookup_2. intros i x Hx.
  pose proof (lookup_lt_Some _ _ _ Hx) as Hi. rewrite length_disk_bytes in Hi. rewrite disk_bytes_lookup in Hx by done.
  unfold BLOCK_SIZE in *. rewrite (formatted_bmap n dm f Hn Hdm Hz) in Hx by (unfold BLOCK_SIZE; lia). injection Hx as <-.
  simpl. destruct (dm !! _) as [y|] eqn:Ey; simpl; [|lia]. by eapply Forall_lookup_1 in Hb.
Qed.

Lemma efs_sb_read_ok ic dc :
  ∃ bd', efs_sb_read (unmounted bd ic dc pg) = Done tt (set_ds (super_of n) (set_bd bd' (unmounted bd ic dc pg))) ∧ bd_rep bd' N K F.
Proof.
  destruct Hr as [Hn Hdm Hbits Hz Hdev -> HK _ _]. pose proof Hn as Hn'. unfold mkfs_size in Hn'.
  pose proof (bd_size _ _ _ _ Hdev). set (s := unmounted bd ic dc pg). unfold efs_sb_read.
  destruct (dev_read_range (n + 1) K F s SUPER_BLOCK_LOCATION 0 (Z.of_nat D_SUPER_BYTES)) as (bd' & E & Hr'); [done| |done|].
  { apply range_one_block; try done; try lia. change (SUPER_BLOCK_LOCATION * BLOCK_SIZE + 0 + Z.of_nat D_SUPER_BYTES) with 4156.
    unfold BLOCK_SIZE. lia. }
  rewrite (bind_Done _ _ _ _ _ E). rewrite Nat2Z.id, (formatted_super n dm f Hn Hdm).
  exists bd'. split; [|done]. unfold modify. by rewrite decode_encode_super by by apply super_wf_of.
Qed.

Lemma efs_sb_init_ok ic dc :
  ∃ bd' pg' Y im bm, efs_sb_init alloc4 true true (unmounted bd ic dc pg) = Done tt (sb_state n bd' ic dc pg' im bm) ∧
    bd_rep bd' N K F ∧ page_rep pg' Y ∧ Y ≠ ∅ ∧
    marks 2 (inodes_of n - 1) im ∧ Bmp.unused im = inodes_of n - 2 ∧
    marks (map_end (barea_at n)) n bm ∧ Bmp.unused bm = n - barea_at n - 1.
Proof.
  destruct (efs_sb_read_ok ic dc) as (bd1 & E1 & Hr1). pose proof bmap_bits as Hbb. pose proof image_bytes as Hib.
  destruct Hr as [Hn Hdm Hbits Hz Hdev EN HK [Hpg HX] Ha4]. clear Hr. pose proof Hn as Hn'. unfold mkfs_size in Hn'.
  destruct (geometry n Hn) as (Gi & Gb & Ga & Gn & G1 & G2 & G3). pose proof (map_end_le n Hn) as Hme.
  destruct (alloc_zeroed_ok _ _ Hpg HX) as (p & pg1 & Ep & Hp & Hpg1). destruct (Ha4 p pg1 Ep) as (a & pg2 & Y & Ea & Ha0 & HY & HYne).
  assert (Hp0 : p ≠ 0) by (destruct (page_rep_phys _ _ _ Hpg Hp) as (q & Hq & ->); unfold KERNBASE, Buddy.PGSIZE; lia).
  unfold efs_sb_init. rewrite (bind_Done _ _ _ _ _ E1). unfold efs_sb_fill.
  set (s1 := set_ds _ _). rewrite (bind_Done _ _ _ (super_of n) s1) by done.
  change (negb (magic (super_of n) =? EASYFS_MAGIC)) with false. cbv iota.
  rewrite (bind_Done (modify _) _ _ tt (set_sflags 0 s1)) by done.
  set (s2 := Efs bd1 (super_of n) 0 (Bmp.Bitmap [] 0 0 0) (Bmp.Bitmap [] 0 0 0) (new_table i_heads) (new_table d_heads) sb_nodes
    ∅ {[root_dentry := static_root]} ∅ ∅ ic dc pg : fs).
  rewrite (bind_Done (modify _) _ _ tt s2) by reflexivity.
  set (s3 := set_pagea pg1 s2).
  assert (E3 : ∃ bd2 im, efs_fill_imap s2 = Done tt (set_imap im (set_bd bd2 s3)) ∧ bd_rep bd2 N K F ∧
    marks 2 (inodes_of n - 1) im ∧ Bmp.unused im = inodes_of n - 2).
  { unfold efs_fill_imap. rewrite (bind_Done (zoom _ _ _) _ _ p s3) by (unfold zoom; simpl; by rewrite Ep).
    rewrite (bind_Done (assert_ _) _ _ tt s3) by (by rewrite (proj2 (Z.eqb_neq p 0))).
    rewrite (bind_Done (gets _) _ _ (super_of n) s3) by done. simpl inode_map_start. simpl inode_area_start. simpl inode_count. simpl inode_free.
    destruct (fill_map_ok N K F s3 PGSIZE 2 3 (inodes_of n - 1) (inodes_of n - 2) set_imap imap 2) as (bd2 & im & E & Hr2 & Hm & Hu);
      try done; try lia.
    - by exists 512.
    - change ((3 - 2) * BLOCK_SIZE) with BLOCK_SIZE. rewrite (formatted_imap n dm f Hn Hdm).
      unfold pad. apply Forall_app. split; [by repeat constructor|apply Forall_replicate; lia].
    - intros j Hj. change ((3 - 2) * BLOCK_SIZE) with BLOCK_SIZE. rewrite (formatted_imap n dm f Hn Hdm). apply imap_bits. lia.
    - change (8 * PGSIZE) with 32768. lia.
    - exists bd2, im. done. }
  destruct E3 as (bd2 & im & E3 & Hr2 & Him & Himu). rewrite (bind_Done _ _ _ _ _ E3).
  set (s4 := set_imap im (set_bd bd2 s3)). set (s5 := set_pagea pg2 s4). unfold efs_fill_bmap.
  rewrite (bind_Done (zoom _ _ _) _ _ a s5) by (unfold zoom; simpl; by rewrite Ea).
  rewrite (bind_Done (assert_ _) _ _ tt s5) by (by rewrite (proj2 (Z.eqb_neq a 0))).
  rewrite (bind_Done (gets _) _ _ (super_of n) s5) by done.
  simpl block_map_start. simpl block_area_start. simpl block_count. simpl block_free.
  destruct (fill_map_ok N K F s5 (16 * PGSIZE) (bmap_at n) (barea_at n) n (n - barea_at n - 1) set_bmap bmap (map_end (barea_at n)))
    as (bd3 & bm & E & Hr3 & Hm & Hu); try done; try lia.
  - change (16 * PGSIZE) with 65536. unfold BLOCK_SIZE. lia.
  - by exists 8192.
  - apply Hib; [by apply Hdm|done|]. unfold BLOCK_SIZE. lia.
  - change (8 * (16 * PGSIZE)) with 524288. lia.
  - exists bd3, pg2, Y, im, bm. split; [exact E|]. done.
Qed.
End sb.

(** * The root inode *)

Definition σi0 : gmap floc (list floc) := Hash.init_fam (i_heads ++ [S_ilist; S_idirty_list]).
Definition σd0 : gmap floc (list floc) := Hash.init_fam (d_heads ++ [S_dlist; S_ddirty_list]).

Lemma in_i_heads q : q ∈ i_heads → ∃ i, q = S_ihash i.
Proof. intros (i & -> & _)%list_elem_of_fmap. by eexists. Qed.
Lemma in_d_heads q : q ∈ d_heads → ∃ i, q = S_dhash i.
Proof. intros (i & -> & _)%list_elem_of_fmap. by eexists. Qed.

Lemma sb_nodes_at q : sb_nodes !! q = if decide (q ∈ all_heads) then Some (Node q q) else None.
Proof. unfold sb_nodes. by rewrite Hash.foldl_init_lookup. Qed.

Lemma in_init (hs : list floc) (q : floc) : in_fam (Hash.init_fam hs) q ↔ q ∈ hs.
Proof.
  split.
  - intros (hd & xs & [Hin ->]%Hash.init_fam_lookup & ->%list_elem_of_singleton). done.
  - intros Hin. exists q, []. split; [by apply Hash.init_fam_lookup|by left].
Qed.

Lemma sb_fam (hs : list floc) (h : gmap floc (node floc)) : (∀ q, q ∈ hs → q ∈ all_heads) → (∀ q, q ∈ hs → h !! q = sb_nodes !! q) → fam h (Hash.init_fam hs).
Proof.
  intros Hs Hh. apply fam_empty. intros hd xs [Hin ->]%Hash.init_fam_lookup. split; [done|].
  rewrite Hh, sb_nodes_at, decide_True by auto. done.
Qed.

Lemma in_σi0 q : in_fam σi0 q → q ∈ all_heads ∧ i_side q ∧ ((∃ i, q = S_ihash i) ∨ q = S_ilist ∨ q = S_idirty_list).
Proof.
  intros Hq%in_init. unfold all_heads. rewrite !elem_of_app in *. destruct Hq as [Hq|Hq].
  - destruct (in_i_heads q Hq) as [i ->]. split; [by left|]. split; [done|]. left. by eexists.
  - assert (Hc : q = S_ilist ∨ q = S_idirty_list) by set_solver. split; [set_solver|].
    split; [by destruct Hc as [->| ->]|by right].
Qed.
Lemma in_σd0 q : in_fam σd0 q → q ∈ all_heads ∧ d_side q ∧ ((∃ i, q = S_dhash i) ∨ q = S_dlist ∨ q = S_ddirty_list).
Proof.
  intros Hq%in_init. unfold all_heads. rewrite !elem_of_app in *. destruct Hq as [Hq|Hq].
  - destruct (in_d_heads q Hq) as [i ->]. split; [by right; left|]. split; [by intros []|]. left. by eexists.
  - assert (Hc : q = S_dlist ∨ q = S_ddirty_list) by set_solver. split; [set_solver|].
    split; [by destruct Hc as [->| ->]; intros []|by right].
Qed.

(** The root inode, once read. *)
Definition root_inode (refs : Z) : easy_m_inode := MInode root_d_inode sleep_init refs I_VALID M_ESB 0.

(** The lists once the root inode is in them. *)
Definition σi1 (hd : floc) : gmap floc (list floc) := <[S_ilist := [I_list root_m_inode]]> (<[hd := [I_hnode root_m_inode]]> σi0).

Definition root_node (q : floc) : Prop := q = I_hnode root_m_inode ∨ q = I_list root_m_inode ∨ q = I_dirty root_m_inode.

Record root_linked (t : Hash.hash_table floc) (h : gmap floc (node floc)) (hd : floc) : Prop := {
  rl_heads : Hash.heads t = i_heads;
  rl_head : hd ∈ i_heads;
  rl_other : same_nodes d_side sb_nodes h;
  rl_dirty : h !! I_dirty root_m_inode = Some (Node (I_dirty root_m_inode) (I_dirty root_m_inode));
}.

Lemma i_table_ok keyof h : (∀ q, in_fam σi0 q → h !! q = sb_nodes !! q) → Hash.hash_ok keyof (new_table i_heads) σi0 h.
Proof.
  intros Hh. assert (Hnd : NoDup i_heads) by (apply (bool_decide_eq_true_1 (NoDup i_heads)); vm_compute; reflexivity).
  eapply Hash.hash_ok_frame; [exact (Hash.hash_init_ok keyof 41 [] i_heads ∅ ltac:(done) ltac:(done) Hnd)| | |].
  - apply sb_fam.
    + intros q Hq. by apply in_σi0, in_init.
    + intros q Hq. by apply Hh, in_init.
  - intros hd Hin. simpl in Hin. unfold σi0.
    assert (E : Hash.init_fam (i_heads ++ [S_ilist; S_idirty_list]) !! hd = Some []) by (apply Hash.init_fam_lookup; split; [apply elem_of_app; by left|done]).
    rewrite E. symmetry. by apply Hash.init_fam_lookup.
  - done.
Qed.

Section root.
Context (n : Z) (dm : list Z) (f : Z → option Z) (N K : Z) (bd : B) (ic dc : C) (pg : P) (im bm : Bmp.bitmap).
Context (Hn : mkfs_size n) (Hdm : bytes_ok dm) (Hdev : bd_rep bd N K (formatted n dm f)) (HN : N = n + 1) (HK : 16 <= K).
Local Notation "'F'" := (formatted n dm f).

Definition root_state (bd' : B) t h : fs :=
  Efs bd' (super_of n) 0 im bm t (new_table d_heads) h {[root_m_inode := root_inode 1]} {[root_dentry := static_root]} ∅ ∅ ic dc pg.

Lemma root_wf : inode_wf root_d_inode.
Proof. split; simpl; try done. by repeat constructor. Qed.

Lemma not_in_σi0 q : root_node q → ¬ in_fam σi0 q.
Proof. intros Hq Hin. destruct (in_σi0 q Hin) as (_ & _ & [[i ->]|[-> | ->]]); by destruct Hq as [?|[?|?]]. Qed.

Lemma efs_i_root_init_ok :
  ∃ bd' t h hd, efs_i_root_init (sb_state n bd ic dc pg im bm) = Done tt (root_state bd' t h) ∧ bd_rep bd' N K F ∧
    root_linked t h hd ∧ Hash.hash_ok (inode_key (root_state bd' t h)) t (σi1 hd) h.
Proof.
  pose proof Hn as Hn'. unfold mkfs_size in Hn'. pose proof (bd_size _ _ _ _ Hdev).
  set (s := sb_state n bd ic dc pg im bm). unfold efs_i_root_init.
  rewrite (bind_Done _ _ _ 128 s) by done. rewrite (bind_Done _ _ _ 3 s) by done.
  destruct (dev_read_range N K F s 3 128 (Z.of_nat D_INODE_BYTES)) as (bd' & E & Hr'); [done| |done|].
  { apply range_one_block; try done; try lia. rewrite HN. change (3 * BLOCK_SIZE + 128 + Z.of_nat D_INODE_BYTES) with 12488.
    unfold BLOCK_SIZE. lia. }
  rewrite (bind_Done _ _ _ _ _ E). rewrite Nat2Z.id, (formatted_root n dm f Hn Hdm). cbv zeta.
  rewrite (decode_encode_inode _ root_wf). rewrite (bind_Done (assert_ _) _ _ tt (set_bd bd' s)) by done.
  set (h0 := INIT_LIST_HEAD (I_dirty root_m_inode) (INIT_LIST_HEAD (I_list root_m_inode) (INIT_LIST_HEAD (I_hnode root_m_inode) sb_nodes))).
  set (s1 := root_state bd' (new_table i_heads) h0).
  rewrite (bind_Done (modify _) _ _ tt s1) by reflexivity.
  assert (Hh0 : ∀ q, ¬ root_node q → h0 !! q = sb_nodes !! q).
  { intros q Hq. unfold h0, INIT_LIST_HEAD. unfold root_node in Hq. rewrite !lookup_insert_ne by (intros <-; tauto). done. }
  destruct (efs_i_addsb_ok s1 root_m_inode (root_inode 1) σi0 []) as (t & h & hd & xs & Ea & Eh & Hhd & Hx & Hok & Honly).
  - apply lookup_insert_eq.
  - done.
  - apply i_table_ok. intros q Hq. apply Hh0. intros Hr. by apply (not_in_σi0 q).
  - apply Hash.init_fam_lookup. split; [apply elem_of_app; right; by left|done].
  - intros [i ?]%in_i_heads. done.
  - apply not_in_σi0. by left.
  - apply not_in_σi0. by right; left.
  - change (nodes s1) with h0. unfold h0, INIT_LIST_HEAD. rewrite !lookup_insert_ne, lookup_insert_eq by done. by eexists.
  - change (nodes s1) with h0. unfold h0, INIT_LIST_HEAD. rewrite lookup_insert_ne, lookup_insert_eq by done. by eexists.
  - apply Hash.init_fam_lookup in Hx as Hx'. destruct Hx' as [_ ->]. exists bd', t, h, hd.
    split; [exact Ea|]. split; [done|]. split; [split; [exact Eh|exact Hhd| |]|exact Hok].
    + intros q Hq. assert (Hnr : ¬ root_node q) by (intros [-> |[-> | ->]]; by apply Hq).
      rewrite (proj2 Honly q); [by apply Hh0|]. intros Hin. unfold root_node in Hnr.
      rewrite !elem_of_cons in Hin. assert (q = S_ilist ∨ q = hd) as [->| ->].
      { destruct Hin as [?|[?|[?|[?|?%elem_of_nil]]]]; tauto. }
      { by apply Hq. }
      destruct (in_i_heads hd Hhd) as [i ->]. by apply Hq.
    + rewrite (proj2 Honly); [change (nodes s1) with h0; unfold h0, INIT_LIST_HEAD; by rewrite lookup_insert_eq|].
      destruct (in_i_heads hd Hhd) as [i ->]. rewrite !elem_of_cons. intros [?|[?|[?|[?|?%elem_of_nil]]]]; done.
Qed.
End root.

(** ** The cache with the root *)

Lemma σi0_empty hd : hd ∈ i_heads → σi0 !! hd = Some [].
Proof. intros Hin. apply Hash.init_fam_lookup. split; [apply elem_of_app; by left|done]. Qed.
Lemma σi0_list : σi0 !! S_ilist = Some [] ∧ σi0 !! S_idirty_list = Some [].
Proof. split; apply Hash.init_fam_lookup; (split; [apply elem_of_app; right|done]); [by left|by right; left]. Qed.

Lemma in_σi1 hd q : hd ∈ i_heads → in_fam (σi1 hd) q → q = I_hnode root_m_inode ∨ q = I_list root_m_inode ∨ in_fam σi0 q.
Proof. intros Hhd. apply in_fam_two; [by apply σi0_empty|apply σi0_list]. Qed.

Lemma on_side_σi1 hd : hd ∈ i_heads → on_side i_side (σi1 hd).
Proof. intros Hhd q [->|[-> |Hq]]%in_σi1; [done|done| |done]. by apply in_σi0. Qed.

Lemma σi1_lists hd : hd ∈ i_heads → (σi1 hd) !! S_ilist = Some [I_list root_m_inode] ∧ (σi1 hd) !! S_idirty_list = Some [].
Proof.
  intros [i ->]%in_i_heads. unfold σi1. split; [apply lookup_insert_eq|].
  rewrite !lookup_insert_ne by done. apply σi0_list.
Qed.

Lemma in_cache_root s hd q ino :
  hd ∈ i_heads → Hash.heads (s_ihash s) = i_heads → in_cache s (σi1 hd) q ino → q = root_m_inode ∧ inode_key s (I_hnode q) = Some ino.
Proof.
  intros Hhd Eh (hd' & xs & Hh & Hx & Hin & Hk). split; [|done]. rewrite Eh in Hh. unfold σi1 in Hx.
  destruct (in_i_heads hd' Hh) as [k ->]. rewrite lookup_insert_ne in Hx by done.
  apply lookup_insert_Some in Hx as [[_ Ex]|[_ Hx]].
  - rewrite <-Ex in Hin. apply list_elem_of_singleton in Hin. congruence.
  - rewrite σi0_empty in Hx by done. injection Hx as <-. by apply elem_of_nil in Hin.
Qed.

Lemma root_cached s hd i :
  hd ∈ i_heads → Hash.heads (s_ihash s) = i_heads → inodes s !! root_m_inode = Some i → in_cache s (σi1 hd) root_m_inode (i_no (i_di i)).
Proof.
  intros Hhd Eh Ei. exists hd, [I_hnode root_m_inode]. rewrite Eh. split; [done|]. unfold σi1.
  destruct (in_i_heads hd Hhd) as [k ->]. rewrite lookup_insert_ne, lookup_insert_eq by done.
  split; [done|]. split; [by left|]. simpl. by rewrite Ei.
Qed.

(** The invariant of the cache, for a state with the root inode only. *)
Lemma root_icache s hd r X :
  hd ∈ i_heads → Hash.heads (s_ihash s) = i_heads → inodes s = {[root_m_inode := root_inode r]} →
  Hash.hash_ok (inode_key s) (s_ihash s) (σi1 hd) (nodes s) → obj_rep (efs_inode_kmem_cache s) X ∅ → root_m_inode ∉ X →
  icache_ok s (σi1 hd) X ∅.
Proof.
  intros Hhd Eh Ei Hok Hobj HX. destruct (σi1_lists hd Hhd) as [El Ed]. split; try done.
  - rewrite Eh. split; intros [i Hi]%in_i_heads; discriminate Hi.
  - intros p q ino Hp Hq. destruct (in_cache_root s hd p ino Hhd Eh Hp) as [-> _].
    by destruct (in_cache_root s hd q ino Hhd Eh Hq) as [-> _].
  - intros p Hp. assert (Hne : p ≠ root_m_inode) by (by intros ->).
    split_and!; intros [Eq|[Eq|Hq]]%in_σi1; try done; try (injection Eq as ->; done); destruct (in_σi0 _ Hq) as (_ & _ & [[k ?]|[?|?]]); done.
Qed.

Lemma efs_i_get_cached me s σ X L p i ino :
  icache_ok s σ X L → in_cache s σ p ino → inodes s !! p = Some i → TEST_FLAG (i_flags i) I_VALID ≠ 0 →
  sb_lock ∉ efs_locks s → 0 <= ino →
  efs_i_get me ino s = Done p (set_inodes (<[p := set_i_refcnt (atomic_inc (i_refcnt i)) i]> (inodes s)) s).
Proof.
  intros Hc Hp Ei Hv Hlk Hino. set (s1 := set_efs_locks ({[sb_lock]} ∪ efs_locks s) s).
  assert (Hc1 : icache_ok s1 σ X L) by (destruct Hc; by split).
  assert (Ef : efs_i_find ino s1 = Done (Some p) s1).
  { destruct (efs_i_find_ok s1 σ X L ino Hc1 Hino) as [(q & E & Hq)|(_ & Hno)]; [|by destruct (Hno p)].
    by rewrite E, (ic_unique _ _ _ _ Hc1 q p ino Hq Hp). }
  unfold efs_i_get. rewrite (bind_Done _ _ _ _ _ (efs_lock_ok sb_lock s Hlk)). fold s1.
  rewrite (bind_Done _ _ _ _ _ Ef), (bind_Done _ _ _ p s1) by done.
  rewrite (bind_Done _ _ _ tt (set_efs_locks (efs_locks s) s1)) by by apply efs_unlock_ok.
  assert (Es : set_efs_locks (efs_locks s) s1 = s) by by destruct s. rewrite Es.
  rewrite (bind_Done _ _ _ tt s).
  2:{ rewrite (bind_Done _ _ _ _ _ (inode_at_ok _ _ _ Ei)). by destruct (Z.eqb_spec (TEST_FLAG (i_flags i) I_VALID) 0). }
  by rewrite (bind_Done _ _ _ _ _ (inode_mod_ok p _ i s Ei)).
Qed.

(** * The root dentry *)

Definition mounted_root (flags : Z) : easy_dentry := Dentry (d_dd static_root) root_m_inode 0 sleep_init flags 0.

(** The lists of the dentries once the root is in them. *)
Definition σd1 (hd : floc) : gmap floc (list floc) :=
  <[D_child root_dentry := []]> (<[S_dlist := [D_list root_dentry]]> (<[hd := [D_hnode root_dentry]]> σd0)).

Lemma σd0_lists : (∀ hd, hd ∈ d_heads → σd0 !! hd = Some []) ∧ σd0 !! S_dlist = Some [] ∧ σd0 !! S_ddirty_list = Some [].
Proof.
  split; [|split]; [intros hd Hin| |]; apply Hash.init_fam_lookup; (split; [apply elem_of_app|done]); [by left|right; by left|right; by right; left].
Qed.

Lemma not_in_σd0 d q : d_node d q → ¬ in_fam σd0 q.
Proof.
  intros Hq Hin. destruct (in_σd0 q Hin) as (_ & _ & [[i ->]|[-> | ->]]); by destruct Hq as [?|[?|[?|[?|?]]]].
Qed.

(** The chain of "/". *)
Lemma hash_root s : ∃ k hd, efs_d_hash (d_name (d_dd static_root)) s = Done k s ∧ Hash.chain (new_table d_heads) k = Some hd ∧ hd ∈ d_heads.
Proof.
  eexists _, _. split; [reflexivity|]. split; [vm_compute; reflexivity|].
  apply (bool_decide_eq_true_1 (S_dhash _ ∈ d_heads)). by vm_compute.
Qed.

Lemma root_addsb_ok s x :
  dentries s !! root_dentry = Some x → d_dd x = d_dd static_root → s_dhash s = new_table d_heads → fam (nodes s) σd0 →
  is_Some (nodes s !! D_hnode root_dentry) → is_Some (nodes s !! D_list root_dentry) →
  ∃ t h hd, efs_d_addsb root_dentry s = Done tt (set_nodes h (set_s_dhash t s)) ∧ Hash.heads t = d_heads ∧ hd ∈ d_heads ∧
    fam h (<[S_dlist := [D_list root_dentry]]> (<[hd := [D_hnode root_dentry]]> σd0)) ∧
    only (nodes s) h [D_hnode root_dentry; hd; D_list root_dentry; S_dlist].
Proof.
  intros Ex Edd Et Hf H1' H2'. destruct (hash_root s) as (k & hd & Ek & Ec & Hhd). destruct σd0_lists as (S1 & S2 & _).
  assert (Hne : hd ≠ S_dlist) by (by destruct (in_d_heads hd Hhd) as [i ->]).
  destruct (fam_add_head (D_hnode root_dentry) hd [] (nodes s) σd0) as (h1 & E1 & Hf1 & _ & Ho1); [done|by apply S1| |done|].
  { apply (not_in_σd0 root_dentry). by left. }
  destruct (fam_add_head (D_list root_dentry) S_dlist [] h1 (<[hd := [D_hnode root_dentry]]> σd0)) as (h2 & E2 & Hf2 & _ & Ho2); [done| | |by rewrite <-elem_of_dom, (proj1 Ho1), elem_of_dom|].
  { by rewrite lookup_insert_ne. }
  { intros [Eq|[Hin|Hin]]%in_fam_insert.
    - by destruct (in_d_heads hd Hhd) as [i ->].
    - by apply list_elem_of_singleton in Hin.
    - eapply (not_in_σd0 root_dentry); [|exact Hin]. by right; left. }
  exists (Hash.set_count 1 (new_table d_heads)), h2, hd. split; [|split; [done|split; [done|split; [done|]]]].
  - unfold efs_d_addsb. rewrite (bind_Done _ _ _ _ _ (dentry_at_ok _ _ _ Ex)). rewrite Edd.
    rewrite (bind_Done _ _ _ _ _ Ek).
    rewrite (bind_Done _ _ _ tt (set_nodes h1 (set_s_dhash (Hash.set_count 1 (new_table d_heads)) s))).
    2:{ unfold update. rewrite Et. unfold Hash.hash_add_head. rewrite Ec. cbn [mbind option_bind]. by rewrite E1. }
    unfold node_do, update. cbn [nodes set_nodes set_s_dhash]. rewrite E2. done.
  - split; [by rewrite (proj1 Ho2); apply Ho1|]. intros q Hq. rewrite !not_elem_of_cons in Hq.
    rewrite (proj2 Ho2); [apply Ho1|]; rewrite !not_elem_of_cons; pose proof (not_elem_of_nil q); tauto.
Qed.

Definition root_dents (flags : Z) : gmap Z easy_dentry := {[root_dentry := mounted_root flags]}.

Section droot.
Context (me n : Z) (bd : B) (ic dc : C) (pg : P) (im bm : Bmp.bitmap).
Local Notation "'start'" := (root_state n ic dc pg im bm bd).

(** The state once the root dentry is filled: it has no entries. *)
Definition filled t h (x : easy_dentry) : fs := set_dentries {[root_dentry := x]} (set_nodes h (start t h)).

Lemma efs_d_fill_root t h hd X x :
  hd ∈ i_heads → Hash.heads t = i_heads → Hash.hash_ok (inode_key (start t h)) t (σi1 hd) h →
  obj_rep ic X ∅ → root_m_inode ∉ X → d_dd x = d_dd static_root →
  efs_d_fill me root_dentry (filled t h x) = Done tt (filled t h (set_d_inode root_m_inode x)).
Proof.
  intros Hhd Eh Hok Hobj HX Hdd. set (s := filled t h x).
  assert (Hc : icache_ok s (σi1 hd) X ∅) by by apply (root_icache s hd 1).
  unfold efs_d_fill. rewrite (bind_Done _ _ _ x s) by by apply dentry_at_ok, lookup_singleton_eq.
  rewrite Hdd. set (s1 := set_inodes {[root_m_inode := root_inode 2]} s).
  assert (Eg : efs_i_get me 1 s = Done root_m_inode s1).
  { erewrite efs_i_get_cached; [|exact Hc|by apply (root_cached s hd (root_inode 1))|apply lookup_singleton_eq|done|done|done].
    reflexivity. }
  rewrite (bind_Done _ _ _ _ _ Eg). set (s2 := set_dentries {[root_dentry := set_d_inode root_m_inode x]} s1).
  rewrite (bind_Done _ _ _ tt s2).
  2:{ rewrite (dentry_mod_ok _ _ x) by apply lookup_singleton_eq. reflexivity. }
  rewrite (bind_Done _ _ _ (root_inode 2) s2) by apply inode_at_ok, lookup_singleton_eq.
  rewrite (bind_Done _ _ _ tt s2) by reflexivity.
  unfold efs_i_put. rewrite (bind_Done _ _ _ (root_inode 2) s2) by apply inode_at_ok, lookup_singleton_eq.
  rewrite (bind_Done _ _ _ tt s2) by reflexivity.
  rewrite (inode_mod_ok _ _ (root_inode 2)) by apply lookup_singleton_eq. reflexivity.
Qed.

Lemma efs_d_root_init_ok t h hd X :
  root_linked t h hd → Hash.hash_ok (inode_key (start t h)) t (σi1 hd) h → obj_rep ic X ∅ → root_m_inode ∉ X →
  ∃ td h' hd', efs_d_root_init me (start t h) = Done tt (set_s_dhash td (filled t h' (mounted_root (SET_FLAG 0 D_CHILD)))) ∧
    hd' ∈ d_heads ∧ fam h' (σd1 hd') ∧ same_nodes i_side h h' ∧
    h' !! D_dirty root_dentry = Some (Node (D_dirty root_dentry) (D_dirty root_dentry)).
Proof.
  intros [Lh Lhd Lo Ld] Hok Hobj HX. set (h0 := init_d_nodes root_dentry h).
  set (x0 := Dentry (d_dd static_root) 0 0 sleep_init 0 0).
  assert (Hi0 : same_nodes i_side h h0).
  { intros q Hq. apply init_d_nodes_other. intros Hd. by destruct Hd as [-> |[-> |[-> |[-> | ->]]]]. }
  assert (Hdn : ∀ q, d_node root_dentry q → h0 !! q = Some (Node q q)) by (intros q; apply init_d_nodes_own).
  assert (Hok0 : Hash.hash_ok (inode_key (start t h0)) t (σi1 hd) h0).
  { eapply Hash.hash_ok_frame; [exact Hok| |done|done].
    eapply fam_side; [apply (Hash.ok_fam _ _ _ _ Hok)|by apply on_side_σi1|done]. }
  assert (Hf0 : fam h0 σd0).
  { apply sb_fam; intros q Hq; [by apply in_σd0, in_init|]. apply in_init in Hq. destruct (in_σd0 q Hq) as (_ & Hs & _).
    rewrite <-(Lo q Hs). apply init_d_nodes_other. intros Hd. by eapply not_in_σd0. }
  unfold efs_d_root_init. rewrite (bind_Done _ _ _ (root_inode 1) (start t h)) by apply inode_at_ok, lookup_singleton_eq.
  rewrite (bind_Done _ _ _ tt (start t h)) by done.
  rewrite (bind_Done _ _ _ tt (filled t h0 x0)) by reflexivity.
  rewrite (bind_Done _ _ _ _ _ (efs_d_fill_root t h0 hd X x0 Lhd Lh Hok0 Hobj HX eq_refl)).
  set (s1 := filled t h0 (mounted_root (SET_FLAG 0 D_CHILD))).
  rewrite (bind_Done _ _ _ tt s1).
  2:{ unfold set_d_flag. erewrite dentry_mod_ok by apply lookup_singleton_eq. reflexivity. }
  destruct (root_addsb_ok s1 (mounted_root (SET_FLAG 0 D_CHILD))) as (td & h2 & hd' & E & _ & Hhd' & Hf2 & Ho2).
  - apply lookup_singleton_eq.
  - done.
  - done.
  - exact Hf0.
  - eexists. apply (Hdn (D_hnode root_dentry)). by left.
  - eexists. apply (Hdn (D_list root_dentry)). by right; left.
  - destruct (in_d_heads hd' Hhd') as [k Ek].
    assert (Hout : ∀ q, q ∉ [D_hnode root_dentry; hd'; D_list root_dentry; S_dlist] → h2 !! q = h0 !! q) by exact (proj2 Ho2).
    exists td, h2, hd'. split; [exact E|]. split; [done|]. split; [|split].
    + apply fam_new_list; [exact Hf2| |].
      * intros [Eq|[Hin|[Eq|[Hin|Hin]]%in_fam_insert]]%in_fam_insert; try done.
        -- by apply list_elem_of_singleton in Hin.
        -- by rewrite Ek in Eq.
        -- by apply list_elem_of_singleton in Hin.
        -- eapply (not_in_σd0 root_dentry); [|exact Hin]. by right; right; right; left.
      * rewrite Hout by (rewrite Ek, !not_elem_of_cons; split_and!; try done; apply not_elem_of_nil). apply Hdn. by right; right; right; left.
    + intros q Hq. rewrite Hout; [by apply Hi0|]. rewrite Ek. intros Hin.
      repeat (apply elem_of_cons in Hin as [->|Hin]; [done|]). by apply elem_of_nil in Hin.
    + rewrite Hout by (rewrite Ek, !not_elem_of_cons; split_and!; try done; apply not_elem_of_nil). apply Hdn. by right; right; left.
Qed.
End droot.

(** * The mounted file system *)

(** [s] with the numbers of free inodes and blocks its maps have. *)
Definition counted (n : Z) s : fs :=
  set_imap (Bmp.set_unused (inodes_of n - 3) (imap s))
    (set_bmap (Bmp.set_unused (n - map_end (barea_at n)) (bmap s)) s).

Lemma root_blocks g s : all_blocks g s (root_inode 1) = replicate 13 0 ++ replicate NINDIRECT 0.
Proof. reflexivity. Qed.
Lemma root_blocks_zero g s j b : all_blocks g s (root_inode 1) !! j = Some b → b = 0.
Proof.
  rewrite root_blocks. intros E%list_elem_of_lookup_2. by apply elem_of_app in E as [[-> _]%elem_of_replicate|[-> _]%elem_of_replicate].
Qed.

Lemma σi1_dirty_free hd : hd ∈ i_heads → ¬ in_fam (σi1 hd) (I_dirty root_m_inode).
Proof.
  intros Hhd [?|[?|Hq]]%in_σi1; [done|done| |done]. by destruct (in_σi0 _ Hq) as (_ & _ & [[i ?]|[?|?]]).
Qed.

Section mounted.
Context (n : Z) (dm : list Z) (f : Z → option Z) (N K : Z) (bd : B) (pg : P) (X : gset Z) (alloc4 : M P Z).
Context (Hr : mount_ready n dm f N K bd pg X alloc4).
Context (bd' : B) (ic dc : C) (pg' : P) (Y XI XD : gset Z) (im bm : Bmp.bitmap) (t td : Hash.hash_table floc) (h : gmap floc (node floc)) (hd hd' : floc).
Context (Him : marks 2 (inodes_of n - 1) im) (Hbm : marks (map_end (barea_at n)) n bm).
Context (Hdev : bd_rep bd' N K (formatted n dm f)) (HY : page_rep pg' Y) (HYne : Y ≠ ∅).
Context (Hic : obj_rep ic XI ∅) (Hdc : obj_rep dc XD ∅) (HXI : root_m_inode ∉ XI) (HXD : root_dentry ∉ XD).
Context (Hhd : hd ∈ i_heads) (Ht : Hash.heads t = i_heads).
Let s0 : fs := root_state n ic dc pg' im bm bd' t h.
Context (Hok : Hash.hash_ok (inode_key s0) t (σi1 hd) h).
Context (Hid : h !! I_dirty root_m_inode = Some (Node (I_dirty root_m_inode) (I_dirty root_m_inode))).
Context (Hhd' : hd' ∈ d_heads) (Hf : fam h (σd1 hd')) (Hdd : h !! D_dirty root_dentry = Some (Node (D_dirty root_dentry) (D_dirty root_dentry))).
Let x : easy_dentry := mounted_root (SET_FLAG 0 D_CHILD).
Let s : fs := counted n (set_s_dhash td (filled n bd' ic dc pg' im bm t h x)).

Lemma mounted_inodes : inodes_ok 1 s (σi1 hd) XI ∅.
Proof.
  pose proof (mr_size _ _ _ _ _ _ _ _ _ Hr) as Hn. pose proof Hn as Hn'. unfold mkfs_size in Hn'.
  destruct (geometry n Hn) as (G1 & _).
  assert (Heq : ∀ p, p ∈ ({[root_m_inode]} ∪ ∅ : gset Z) → p = root_m_inode) by (intros p Hp; set_solver).
  split.
  - by apply (root_icache s hd 1).
  - by apply on_side_σi1.
  - exists []. split; [by apply σi1_lists|]. intros p ->%Heq. right. split; [by apply σi1_dirty_free|exact Hid].
  - intros p ->%Heq. eexists. split; [apply lookup_singleton_eq|done].
  - split; [|split; [lia|]].
    + change (imap s) with (Bmp.set_unused (inodes_of n - 3) im). replace (inodes_of n - 3) with (inodes_of n - 1 - 2) by lia.
      apply marks_wf; [done|lia].
    + simpl. rewrite (mk_size _ _ _ Him). lia.
  - intros q ino Hq. destruct (in_cache_root s hd q ino Hhd Ht Hq) as [-> E]. injection E as <-. split; [done|].
    change (Bmp.used im 1 = true). rewrite (mk_used _ _ _ Him) by lia. done.
  - done.
Qed.

Lemma mounted_file : file_ready 1 N K (formatted n dm f) Y s root_m_inode (root_inode 1) (σi1 hd) [].
Proof.
  destruct Hr as [Hn Hdm _ Hz _ EN HK _ _]. pose proof Hn as Hn'. unfold mkfs_size in Hn'.
  pose proof (map_end_le n Hn). destruct (geometry n Hn) as (_ & Gb & Ga & Gn & _).
  assert (Hsz : Bmp.size (bmap s) = n) by exact (mk_size _ _ _ Hbm).
  split; try done.
  - split; try done; [lia| |rewrite Hsz; lia|].
    + apply marks_wf; [done|lia].
    + rewrite Hsz. intros b Hb Hu. change (Bmp.used bm b = false) in Hu. rewrite (mk_used _ _ _ Hbm) in Hu by lia.
      apply bool_decide_eq_false in Hu. apply disk_words_zero. intros a Ha.
      replace a with (b * BLOCK_SIZE + (a - b * BLOCK_SIZE)) by lia.
      by rewrite (formatted_zero n dm f Hn Hdm Hz) by (unfold BLOCK_SIZE in *; lia).
  - split; try done.
    + intros j k b Hj _ Hb. by apply root_blocks_zero in Hj.
    + intros b [j Hj]%list_elem_of_lookup Hb. by apply root_blocks_zero in Hj.
  - split; [apply (Hash.ok_fam _ _ _ _ Hok)|by apply σi1_lists].
  - right. split; [by apply σi1_dirty_free|exact Hid].
  - by left.
Qed.

Lemma mounted_dents : dents_ok s (σd1 hd') ∅ XD ∅ ∧ dentry_ok s (σd1 hd') ∅ ∅ root_dentry x [].
Proof.
  assert (Hk : dentry_ok s (σd1 hd') ∅ ∅ root_dentry x []).
  { split.
    - apply lookup_singleton_eq.
    - apply lookup_insert_eq.
    - by intros c ?%elem_of_nil.
    - by intros c1 c2 m ?%elem_of_nil.
    - intros _. set_solver.
    - intros _. split; [done|]. exists (root_inode 1). split; [apply lookup_singleton_eq|done].
    - done. }
  split; [|done].
  assert (Heq : ∀ d, d ∈ ({[root_dentry]} ∪ ∅ : gset Z) → d = root_dentry) by (intros d Hd; set_solver).
  assert (Hin : ∀ q, in_fam (σd1 hd') q → q = D_child root_dentry ∨ q = D_list root_dentry ∨ q = D_hnode root_dentry ∨ in_fam σd0 q).
  { intros q [->|[?%elem_of_nil|[->|[->%list_elem_of_singleton|[->|[->%list_elem_of_singleton|?]]%in_fam_insert]]%in_fam_insert]]%in_fam_insert;
      try tauto; right; right; right; apply in_init.
    - apply elem_of_app. right. by left.
    - apply elem_of_app. by left. }
  assert (Hdl : σd1 hd' !! S_ddirty_list = Some []).
  { destruct (in_d_heads hd' Hhd') as [k ->]. unfold σd1. rewrite !lookup_insert_ne by done. apply σd0_lists. }
  split.
  - exact Hf.
  - intros q Hq. destruct (Hin q Hq) as [-> |[-> |[-> |Hq0]]]; [by intros []..|by apply in_σd0].
  - exists []. split; [exact Hdl|]. intros d ->%Heq. right. split; [|exact Hdd].
    intros Hq. destruct (Hin _ Hq) as [E|[E|[E|Hq0]]]; try done. eapply (not_in_σd0 root_dentry); [|exact Hq0]. by right; right; left.
  - exact Hdc.
  - intros d l Hd Hl Hq. assert (Hne : d ≠ root_dentry) by (by intros ->).
    destruct (Hin l Hq) as [-> |[-> |[-> |Hq0]]]; [| | |by eapply not_in_σd0];
      destruct Hl as [E|[E|[E|[E|E]]]]; try done; injection E as E; by apply Hne.
  - intros d ->%Heq. by exists x, [].
  - by intros d1 d2 x1 x2 ->%Heq ->%Heq.
  - set_solver.
  - intros d y E. assert (E' : ({[root_dentry := x]} : gmap Z easy_dentry) !! d = Some y) by exact E.
    by apply lookup_singleton_Some in E' as [<- <-].
  - set_solver.
Qed.
End mounted.

(** C5: On a disk that mkfs formatted [efs_mount] returns 0, and leaves the
    superblock of the image, the root inode and the root dentry, with no entries,
    in memory.  With the numbers of free inodes and blocks corrected, the state
    satisfies the invariant of the tree ([tree_ok]) and the root is a file that can
    be read and written ([file_ready]).  The numbers that mkfs wrote are too high:
    by one for the inodes, and for the blocks by the rest of the root block's byte
    of the map. *)
Theorem mount_formatted me n dm f N K bd pg X alloc4 ic dc XI XD :
  mount_ready n dm f N K bd pg X alloc4 → obj_rep ic XI ∅ → obj_rep dc XD ∅ → root_m_inode ∉ XI → root_dentry ∉ XD →
  ∃ s Y σi σd, efs_mount me alloc4 true true (unmounted bd ic dc pg) = Done 0 s ∧ s_ds s = super_of n ∧
    tree_ok 1 (counted n s) σi σd XI ∅ XD ∅ ∧
    file_ready 1 N K (formatted n dm f) Y (counted n s) root_m_inode (root_inode 1) σi [] ∧
    dentry_ok (counted n s) σd ∅ ∅ root_dentry (mounted_root (SET_FLAG 0 D_CHILD)) [] ∧
    Bmp.unused (imap s) = Z.of_nat (length (Bmp.free_list (imap s) 1 (Bmp.size (imap s)))) + 1 ∧
    Bmp.unused (bmap s) = Z.of_nat (length (Bmp.free_list (bmap s) 1 (Bmp.size (bmap s)))) + (map_end (barea_at n) - barea_at n - 1).
Proof.
  intros Hr Hic Hdc HXI HXD. pose proof (mr_size _ _ _ _ _ _ _ _ _ Hr) as Hn. pose proof (mr_map _ _ _ _ _ _ _ _ _ Hr) as Hdm.
  pose proof (map_end_le n Hn). destruct (geometry n Hn) as (Gi & Gb & Ga & Gn & _).
  destruct (efs_sb_init_ok n dm f N K bd pg X alloc4 Hr ic dc) as (bd1 & pg1 & Y & im & bm & E1 & Hr1 & HY & HYne & Him & Hiu & Hbm & Hbu).
  destruct (efs_i_root_init_ok n dm f N K bd1 ic dc pg1 im bm Hn Hdm Hr1 (mr_N _ _ _ _ _ _ _ _ _ Hr) (mr_K _ _ _ _ _ _ _ _ _ Hr))
    as (bd2 & t & h & hd & E2 & Hr2 & Hl & Hok).
  destruct (efs_d_root_init_ok me n bd2 ic dc pg1 im bm t h hd XI Hl Hok Hic HXI) as (td & h' & hd' & E3 & Hhd' & Hf & Hs & Hdd).
  pose proof Hl as [Lh Lhd Lo Ld].
  assert (Hok' : Hash.hash_ok (inode_key (root_state n ic dc pg1 im bm bd2 t h')) t (σi1 hd) h').
  { eapply Hash.hash_ok_frame; [exact Hok| |done|done]. eapply fam_side; [apply (Hash.ok_fam _ _ _ _ Hok)|by apply on_side_σi1|done]. }
  assert (Hid : h' !! I_dirty root_m_inode = Some (Node (I_dirty root_m_inode) (I_dirty root_m_inode))) by by rewrite (Hs (I_dirty root_m_inode) I).
  eexists _, Y, (σi1 hd), (σd1 hd'). split; [|split; [|split; [|split; [|split; [|split]]]]].
  - unfold efs_mount. rewrite (bind_Done _ _ _ _ _ E1), (bind_Done _ _ _ _ _ E2), (bind_Done _ _ _ _ _ E3). reflexivity.
  - reflexivity.
  - split; [by eapply mounted_inodes|]. by eapply mounted_dents.
  - by eapply mounted_file.
  - by eapply mounted_dents.
  - simpl imap. rewrite (mk_size _ _ _ Him), (marks_free _ _ _ Him), Hiu by lia. lia.
  - simpl bmap. rewrite (mk_size _ _ _ Hbm), (marks_free _ _ _ Hbm), Hbu by lia. lia.
Qed.
End mount.

(** A device of 401 blocks, formatted by mkfs and mounted with three pages left. *)
Definition demo_stock : page_stock := PageStock [KERNBASE + PGSIZE * 5; KERNBASE + PGSIZE * 6; KERNBASE + PGSIZE * 7].
Definition blank_image : image := Image 0 (401 * BLOCK_SIZE) ∅.

Lemma demo_mount_ready h dm :
  fsize h = fsize blank_image → (∀ a, hbyte h a = formatted 400 dm (hbyte blank_image) a) → bytes_ok dm →
  (∀ j, 0 <= j < 4096 → bit_of dm j = bool_decide (1 <= j < map_end (barea_at 400))) →
  mount_ready 400 dm (hbyte blank_image) 401 16 (Ramdisk 401 (fbytes h)) demo_stock (list_to_set (stock_pages demo_stock)) alloc_zeroed.
Proof.
  intros Hs Hh Hdm Hbits.
  assert (Hpg : ∀ l, l `sublist_of` stock_pages demo_stock → page_rep (PageStock l) (list_to_set l)).
  { intros l Hl. split; [done|]. split.
    - eapply sublist_NoDup; [|exact Hl]. by apply (bool_decide_eq_true_1 (NoDup _)).
    - intros p Hp. eapply elem_of_sublist in Hp; [|exact Hl]. simpl in Hp.
      assert (∃ k, 5 <= k <= 7 ∧ p = KERNBASE + PGSIZE * k) as (k & Hk & ->).
      { assert (Hp3 : p = KERNBASE + PGSIZE * 5 ∨ p = KERNBASE + PGSIZE * 6 ∨ p = KERNBASE + PGSIZE * 7) by set_solver.
        destruct Hp3 as [-> |[-> | ->]]; eexists; (split; [|reflexivity]); lia. }
      exists k. rewrite ALL_PFN_val. split; [lia|done]. }
  split; try done.
  - intros a Ha. unfold hbyte. rewrite decide_True by exact Ha. done.
  - split; [done|]. split; [done|]. intros a. rewrite <-Hh. unfold hbyte. rewrite Hs. done.
  - split; [by apply (Hpg (stock_pages demo_stock))|]. done.
  - intros p pg1 [= <- <-]. eexists _, _, _. split; [reflexivity|]. split; [done|]. split; [apply Hpg|].
    + apply sublist_cons, sublist_cons. done.
    + simpl. set_solver.
Qed.

Lemma mount_formatted_witness :
  ∃ h s, mkfs_main 2 true blank_image = Done 0 h ∧
    efs_mount (C := stock) 1 alloc_zeroed true true (unmounted (Ramdisk 401 (fbytes h)) (Stock [] ∅) (Stock [] ∅) demo_stock) = Done 0 s ∧
    s_ds s = super_of 400 ∧ inodes s !! root_m_inode = Some (root_inode 1).
Proof.
  assert (Hst : obj_rep (Stock [] ∅) ∅ ∅) by (split_and!; [done|done|apply NoDup_nil_2|done|set_solver|set_solver]).
  assert (Hn1 : root_m_inode ∉ (∅ : gset Z)) by set_solver. assert (Hn2 : root_dentry ∉ (∅ : gset Z)) by set_solver.
  destruct (mkfs_image 400 blank_image) as (h & dm & E & Hs & Hb & Hdm & Hbits); [by split|done|].
  pose proof (demo_mount_ready h dm Hs Hb Hdm Hbits) as Hr.
  destruct (mount_formatted 1 _ _ _ _ _ _ _ _ _ _ _ _ _ Hr Hst Hst Hn1 Hn2) as (s & Y & σi & σd & E2 & Eds & _ & Hf & _).
  exists h, s. split; [exact E|]. split; [exact E2|]. split; [exact Eds|]. exact (fr_at _ _ _ _ _ _ _ _ _ _ Hf).
Defined.
