(* ===== verification/Console.v ===== *)
(** The console: drive/uart.c and lib/print.c.

    [lsr] is what the status register of the UART will answer to the reads to
    come; after the listed answers the transmitter stays busy.  [rhr] are the
    bytes that arrive and [thr] the bytes written to the transmitter, in order. *)
From S2P Require Import Prelude StringLib.

#[local] Arguments replicate : simpl never.

Record console := Con {
  lsr : list Z; rhr : list Z; thr : list Z; regs : list (Z * Z);
  uart_tx_buf : list Z; uart_tx_w : Z; uart_tx_r : Z; con_locks : gset lockid;
}.
Definition set_lsr x s := Con x (rhr s) (thr s) (regs s) (uart_tx_buf s) (uart_tx_w s) (uart_tx_r s) (con_locks s).
Definition set_rhr x s := Con (lsr s) x (thr s) (regs s) (uart_tx_buf s) (uart_tx_w s) (uart_tx_r s) (con_locks s).
Definition set_thr x s := Con (lsr s) (rhr s) x (regs s) (uart_tx_buf s) (uart_tx_w s) (uart_tx_r s) (con_locks s).
Definition set_regs x s := Con (lsr s) (rhr s) (thr s) x (uart_tx_buf s) (uart_tx_w s) (uart_tx_r s) (con_locks s).
Definition set_tx b w r s := Con (lsr s) (rhr s) (thr s) (regs s) b w r (con_locks s).
Definition set_con_locks x s := Con (lsr s) (rhr s) (thr s) (regs s) (uart_tx_buf s) (uart_tx_w s) (uart_tx_r s) x.

#[global] Instance console_HasLocks : HasLocks console := { locks := con_locks; set_locks := set_con_locks }.
Definition uart_tx_lock : lockid := ("uart_tx"%string, 0).
Definition cons_lock : lockid := ("console"%string, 0).

(** * drive/uart.c *)

Definition IER : Z := 1.
Definition FCR : Z := 2.
Definition LCR : Z := 3.
Definition IER_RX_ENABLE : Z := 1.
Definition IER_TX_ENABLE : Z := 2.
Definition FCR_FIFO_ENABLE : Z := 1.
Definition FCR_FIFO_CLEAR : Z := 6.
Definition LCR_EIGHT_BITS : Z := 3.
Definition LCR_BAUD_LATCH : Z := 128.
Definition LSR_TX_IDLE : Z := 32.
Definition UART_TX_BUF_SIZE : Z := 32.
Definition ERR : Z := -1.

Definition WriteReg (r v : Z) : M console unit := modify (λ s, set_regs (regs s ++ [(r, u8 v)]) s).
Definition write_thr (c : Z) : M console unit := modify (λ s, set_thr (thr s ++ [u8 c]) s).
Definition read_lsr : M console Z := λ s, match lsr s with [] => Done 0 s | x :: l => Done x (set_lsr l s) end.
Definition read_rhr : M console Z := λ s, match rhr s with [] => Done 0 s | x :: l => Done (u8 x) (set_rhr l s) end.
Definition tx_idle (x : Z) : bool := negb (Z.land x LSR_TX_IDLE =? 0).

(** [spin_init(&uart_tx_lock, ...)] leaves the lock free. *)
Definition uart_init : M console unit :=
  WriteReg IER 0;;
  WriteReg LCR LCR_BAUD_LATCH;;
  WriteReg 0 3;;
  WriteReg 1 0;;
  WriteReg LCR LCR_EIGHT_BITS;;
  WriteReg FCR (Z.lor FCR_FIFO_ENABLE FCR_FIFO_CLEAR);;
  WriteReg IER (Z.lor IER_TX_ENABLE IER_RX_ENABLE);;
  modify (λ s, set_con_locks (con_locks s ∖ {[uart_tx_lock]}) s).

(** [uart_tx_buf[i % UART_TX_BUF_SIZE]] *)
Definition tx_slot (i : Z) : nat := Z.to_nat (i mod UART_TX_BUF_SIZE).

(** The read of ISR has no effect on this state. *)
Fixpoint uart_start (fuel : nat) : M console unit :=
  match fuel with
  | O => out_of_fuel
  | S fuel =>
      empty ← gets (λ s, uart_tx_w s =? uart_tx_r s);
      if empty : bool then mret tt else
      x ← read_lsr;
      if negb (tx_idle x) then mret tt else
      c ← update_ret (λ s, c ← uart_tx_buf s !! tx_slot (uart_tx_r s);
        Some (c, set_tx (uart_tx_buf s) (uart_tx_w s) (u64 (uart_tx_r s + 1)) s));
      write_thr c;;
      uart_start fuel
  end.

Definition uart_putc (c : Z) : M console unit :=
  spin_lock uart_tx_lock;;
  full ← gets (λ s, uart_tx_w s =? u64 (uart_tx_r s + UART_TX_BUF_SIZE));
  if full : bool then mret tt else
  update (λ s, _ ← uart_tx_buf s !! tx_slot (uart_tx_w s);
    Some (set_tx (<[tx_slot (uart_tx_w s) := u8 c]> (uart_tx_buf s)) (u64 (uart_tx_w s + 1)) (uart_tx_r s) s));;
  uart_start (S (Z.to_nat UART_TX_BUF_SIZE));;
  spin_unlock uart_tx_lock.

(** The busy wait: the answers left once the transmitter was idle. *)
Fixpoint wait_idle (l : list Z) : option (list Z) :=
  match l with [] => None | x :: l => if tx_idle x then Some l else wait_idle l end.

Definition uart_putc_sync (c : Z) : M console unit := λ s,
  match wait_idle (lsr s) with
  | None => Blocked
  | Some l => write_thr c (set_lsr l s)
  end.

Definition uart_getc : M console Z :=
  x ← read_lsr;
  if Z.land x 1 =? 0 then mret ERR else read_rhr.

Definition uartintr : M console unit :=
  ch ← uart_getc;
  if ch =? -1 then mret tt else
  (if ch =? 13 then uart_putc_sync 10
   else if ch =? 127 then uart_putc_sync 8;; uart_putc_sync 32;; uart_putc_sync 8
   else mret tt);;
  uart_putc_sync ch.

(** kernel/dev/char/console.c *)
Definition cons_init : M console unit :=
  modify (λ s, set_con_locks (con_locks s ∖ {[cons_lock]}) s);;
  uart_init.

(** * lib/print.c *)

Definition putchar (c : Z) : M console unit := uart_putc_sync (u8 c).

(** [long]: the negation wraps. *)
Definition i64 (x : Z) : Z := (x + 2 ^ 63) mod 2 ^ 64 - 2 ^ 63.
Fixpoint putint (fuel : nat) (n : Z) : M console unit :=
  match fuel with
  | O => out_of_fuel
  | S fuel =>
      (if n <? 0 then putchar 45 else mret tt);;
      let n := if n <? 0 then i64 (- n) else n in
      (if negb (Z.quot n 10 =? 0) then putint fuel (Z.quot n 10) else mret tt);;
      putchar (48 + Z.rem n 10)
  end.
(** A [long] has at most 19 digits. *)
Definition LONG_DIGITS : nat := 20.

Section print.
(** The kernel's memory, which strings are read from. *)
Context (mem : gmap Z Z).

Fixpoint putstr_loop (fuel : nat) (p : Z) : M console unit :=
  match fuel with
  | O => out_of_fuel
  | S fuel =>
      c ← deref (λ _, mem !! p);
      if c =? 0 then mret tt else uart_putc_sync c;; putstr_loop fuel (p + 1)
  end.
Definition putstr (str : Z) : M console unit := putstr_loop (S (size mem)) str.

(** [putstr] of a literal. *)
Fixpoint putlit (l : list Z) : M console unit :=
  match l with [] => mret tt | c :: l => uart_putc_sync c;; putlit l end.

(** The digits [i-1], ..., 0 of [uptr]. *)
Fixpoint putptr_loop (n : nat) (uptr : Z) : M console unit :=
  match n with
  | O => mret tt
  | S i =>
      let digit := Z.land (Z.shiftr uptr (4 * Z.of_nat i)) 15 in
      putchar (if digit <? 10 then 48 + digit else 97 + (digit - 10));;
      putptr_loop i uptr
  end.
Definition putptr (ptr : Z) : M console unit := putlit [48; 120];; putptr_loop 16 (u64 ptr).

(** [fmt[i]], with the NUL behind the string; [ap] are the words of the
    argument list. *)
Definition fmt_at (fmt : list Z) (i : nat) : option Z :=
  if decide (i = length fmt) then Some 0 else fmt !! i.
Definition va_arg (ap : list Z) : option (Z * list Z) := match ap with [] => None | a :: ap => Some (a, ap) end.

Fixpoint printf_loop (fuel : nat) (fmt : list Z) (i : nat) (ap : list Z) : M console unit :=
  match fuel with
  | O => out_of_fuel
  | S fuel =>
      c0 ← deref (λ _, fmt_at fmt i);
      if c0 =? 0 then mret tt else
      if c0 =? 37 then
        c1 ← deref (λ _, fmt_at fmt (S i));
        if c1 =? 0 then mret tt else
        if c1 =? 100 then
          '(a, ap) ← deref (λ _, va_arg ap); putint LONG_DIGITS (i32 a);; printf_loop fuel fmt (S (S i)) ap
        else if c1 =? 99 then
          '(a, ap) ← deref (λ _, va_arg ap); putchar (i32 a);; printf_loop fuel fmt (S (S i)) ap
        else if c1 =? 115 then
          '(a, ap) ← deref (λ _, va_arg ap); putstr a;; printf_loop fuel fmt (S (S i)) ap
        else if c1 =? 112 then
          '(a, ap) ← deref (λ _, va_arg ap); putptr a;; printf_loop fuel fmt (S (S i)) ap
        else printf_loop fuel fmt (S i) ap
      else putchar c0;; printf_loop fuel fmt (S i) ap
  end.
Definition printf (fmt ap : list Z) : M console unit := printf_loop (S (length fmt)) fmt 0 ap.

Definition printk (fmt ap : list Z) : M console unit :=
  spin_lock cons_lock;;
  printf fmt ap;;
  spin_unlock cons_lock.
End print.

(** * What is sent

    [emits m out]: [m] waits for the transmitter once per byte of [out] and sends
    exactly these bytes; it waits for ever if the transmitter is idle less often. *)

Definition idle_count (l : list Z) : nat := length (filter (λ x, tx_idle x = true) l).

Definition emits (m : M console unit) (out : list Z) : Prop := ∀ s,
  if decide (length out <= idle_count (lsr s))%nat
  then ∃ l, m s = Done tt (set_lsr l (set_thr (thr s ++ out) s)) ∧ idle_count l = (idle_count (lsr s) - length out)%nat
  else m s = Blocked.

Lemma emits_ret : emits (mret tt) [].
Proof. intros s. rewrite decide_True by (simpl; lia). exists (lsr s). rewrite app_nil_r. split; [by destruct s|simpl; lia]. Qed.

Lemma emits_bind (m k : M console unit) o1 o2 : emits m o1 → emits k o2 → emits (m;; k) (o1 ++ o2).
Proof.
  intros Hm Hk s. specialize (Hm s). rewrite length_app.
  destruct (decide (length o1 <= idle_count (lsr s))%nat) as [H1|H1].
  - destruct Hm as (l & Em & El). specialize (Hk (set_lsr l (set_thr (thr s ++ o1) s))). simpl lsr in Hk. rewrite El in Hk.
    rewrite (bind_Done _ _ _ _ _ Em). destruct (decide (length o1 + length o2 <= idle_count (lsr s))%nat).
    + rewrite decide_True in Hk by lia. destruct Hk as (l2 & Ek & El2). exists l2. split; [|lia].
      rewrite Ek. simpl thr. by rewrite app_assoc.
    + by rewrite decide_False in Hk by lia.
  - rewrite decide_False by lia. unfold mbind, M_bind. by rewrite Hm.
Qed.

Lemma wait_idle_ok l : match wait_idle l with Some l' => idle_count l = S (idle_count l') | None => idle_count l = 0%nat end.
Proof.
  unfold idle_count. induction l as [|x l IH]; simpl; [done|]. destruct (tx_idle x) eqn:E.
  - by rewrite filter_cons_True.
  - rewrite filter_cons_False by (by rewrite E). exact IH.
Qed.

Lemma emits_putc_sync c : emits (uart_putc_sync c) [u8 c].
Proof.
  intros s. pose proof (wait_idle_ok (lsr s)) as Hw. unfold uart_putc_sync. simpl length.
  destruct (wait_idle (lsr s)) as [l|]; rewrite Hw.
  - rewrite decide_True by lia. exists l. split; [done|lia].
  - by rewrite decide_False by lia.
Qed.
Lemma emits_putchar c : emits (putchar c) [u8 c].
Proof. pose proof (emits_putc_sync (u8 c)) as He. unfold u8 in *. by rewrite Z.mod_mod in He. Qed.

Lemma emits_if (b : bool) m1 m2 o1 o2 : emits m1 o1 → emits m2 o2 → emits (if b then m1 else m2) (if b then o1 else o2).
Proof. by destruct b. Qed.

Lemma emits_putlit l : Forall (λ c, 0 <= c < 256) l → emits (putlit l) l.
Proof.
  induction 1 as [|c l Hc _ IH]; simpl; [apply emits_ret|].
  assert (Ec : u8 c = c) by (unfold u8; by rewrite Z.mod_small). rewrite <-Ec at 2.
  exact (emits_bind _ _ _ _ (emits_putc_sync c) IH).
Qed.

(** ** Numbers *)

(** The digits of a natural number, most significant first. *)
Fixpoint digits (fuel : nat) (n : Z) : list Z :=
  match fuel with
  | O => []
  | S fuel => (if n / 10 =? 0 then [] else digits fuel (n / 10)) ++ [48 + n mod 10]
  end.
Definition dec (n : Z) : list Z := (if n <? 0 then [45] else []) ++ digits LONG_DIGITS (Z.abs n).

Definition from_digits (b : Z) (ds : list Z) : Z := fold_left (λ a d, a * b + d) ds 0.
(** Reading a number back. *)
Definition value (ds : list Z) : Z := from_digits 10 ((λ c, c - 48) <$> ds).
Definition parse_dec (l : list Z) : Z :=
  match l with [] => 0 | c :: ds => if c =? 45 then - value ds else value l end.

Lemma value_snoc ds c : value (ds ++ [c]) = value ds * 10 + (c - 48).
Proof. unfold value, from_digits. by rewrite fmap_app, fold_left_app. Qed.

Definition is_digit (c : Z) : Prop := 48 <= c <= 57.

Lemma digits_ok fuel n : (0 < fuel)%nat → 0 <= n < 10 ^ Z.of_nat fuel →
  value (digits fuel n) = n ∧ Forall is_digit (digits fuel n) ∧ (length (digits fuel n) <= fuel)%nat ∧
  ∃ d ds, digits fuel n = d :: ds ∧ (d = 48 → n = 0 ∧ ds = []).
Proof.
  revert n. induction fuel as [|fuel IH]; intros n Hf Hn; [lia|]. simpl digits.
  rewrite Nat2Z.inj_succ, Z.pow_succ_r in Hn by lia.
  pose proof (Z.div_mod n 10 ltac:(lia)). pose proof (Z.mod_pos_bound n 10 ltac:(lia)).
  assert (0 <= n / 10 < 10 ^ Z.of_nat fuel) as Hq by (split; [apply Z.div_pos; lia|apply Z.div_lt_upper_bound; lia]).
  destruct (Z.eqb_spec (n / 10) 0) as [Hz|Hz].
  - split_and!; [unfold value, from_digits; simpl; lia| |simpl; lia|].
    + constructor; [unfold is_digit; lia|constructor].
    + eexists _, []. split; [done|]. intros. split; [lia|done].
  - assert (0 < fuel)%nat by (destruct fuel; [simpl in Hq; lia|lia]).
    destruct (IH (n / 10)) as (V & D & L & d & ds & E & Hlead); [done..|]. split_and!.
    + rewrite value_snoc, V. lia.
    + apply Forall_app. split; [done|]. constructor; [unfold is_digit; lia|constructor].
    + rewrite length_app. simpl. lia.
    + rewrite E. exists d, (ds ++ [48 + n mod 10]). split; [done|]. intros Hd. destruct (Hlead Hd). lia.
Qed.

Lemma dec_ok n : - 2 ^ 63 < n < 2 ^ 63 → parse_dec (dec n) = n.
Proof.
  intros Hn. destruct (digits_ok LONG_DIGITS (Z.abs n)) as (V & D & _ & d & ds & E & _); [unfold LONG_DIGITS; lia| |].
  { split; [lia|]. unfold LONG_DIGITS. simpl. lia. }
  unfold dec. destruct (Z.ltb_spec n 0).
  - change (- value (digits LONG_DIGITS (Z.abs n)) = n). rewrite V. lia.
  - rewrite E in *. inversion D as [|? ? Hd _]; subst. unfold is_digit in Hd.
    change (parse_dec ([] ++ d :: ds)) with (if d =? 45 then - value ds else value (d :: ds)).
    destruct (Z.eqb_spec d 45); [lia|]. rewrite V. lia.
Qed.

Lemma emits_digits fuel n : (0 < fuel)%nat → 0 <= n < 10 ^ Z.of_nat fuel → emits (putint fuel n) (digits fuel n).
Proof.
  revert n. induction fuel as [|fuel IH]; intros n Hf Hn; [lia|].
  rewrite Nat2Z.inj_succ, Z.pow_succ_r in Hn by lia.
  assert (0 <= n / 10 < 10 ^ Z.of_nat fuel) as Hq by (split; [apply Z.div_pos; lia|apply Z.div_lt_upper_bound; lia]).
  pose proof (Z.mod_pos_bound n 10 ltac:(lia)). simpl putint. simpl digits.
  destruct (Z.ltb_spec n 0); [lia|]. rewrite quot_div, rem_mod by lia.
  assert (Eu : u8 (48 + n mod 10) = 48 + n mod 10) by (unfold u8; rewrite Z.mod_small; lia).
  replace [48 + n mod 10] with [u8 (48 + n mod 10)] by (by rewrite Eu).
  change (?a ++ [?b]) with ([] ++ (a ++ [b])). apply emits_bind; [apply emits_ret|]. apply emits_bind; [|apply emits_putchar].
  destruct (Z.eqb_spec (n / 10) 0) as [Hz|Hz]; simpl; [apply emits_ret|].
  apply IH; [|done]. destruct fuel; [simpl in Hq; lia|lia].
Qed.

Lemma putint_neg fuel n : - 2 ^ 63 < n < 0 →
  ∃ k : M console unit, putint (S fuel) (Z.abs n) = (mret tt;; k) ∧ putint (S fuel) n = (putchar 45;; k).
Proof.
  intros Hn. assert (Ei : i64 (- n) = Z.abs n) by (unfold i64; rewrite Z.mod_small; lia).
  cbn [putint]. destruct (Z.ltb_spec n 0); [|lia]. destruct (Z.ltb_spec (Z.abs n) 0); [lia|]. rewrite Ei. by eexists.
Qed.

Lemma emits_putint n : - 2 ^ 63 < n < 2 ^ 63 → emits (putint LONG_DIGITS n) (dec n).
Proof.
  intros Hn. unfold dec. destruct (Z.ltb_spec n 0) as [Hl|Hl].
  - destruct (putint_neg 19 n) as (k & E1 & E2); [lia|]. fold LONG_DIGITS in E1, E2.
    assert (Hk : emits (putint LONG_DIGITS (Z.abs n)) (digits LONG_DIGITS (Z.abs n))).
    { apply emits_digits; [unfold LONG_DIGITS; lia|]. split; [lia|]. unfold LONG_DIGITS. simpl. lia. }
    rewrite E1 in Hk. rewrite E2. exact (emits_bind _ _ _ _ (emits_putchar 45) Hk).
  - rewrite Z.abs_eq by lia. apply emits_digits; [unfold LONG_DIGITS; lia|]. unfold LONG_DIGITS. simpl. lia.
Qed.

(** The sixteen digits of a pointer. *)
Definition hex_digit (d : Z) : Z := if d <? 10 then 48 + d else 97 + (d - 10).
Fixpoint hex (n : nat) (p : Z) : list Z :=
  match n with O => [] | S i => hex_digit (Z.land (Z.shiftr p (4 * Z.of_nat i)) 15) :: hex i p end.
Definition hex_value (c : Z) : Z := if c <? 97 then c - 48 else c - 87.
Definition parse_hex (l : list Z) : Z := from_digits 16 (hex_value <$> l).

Lemma nibble p i : 0 <= i → Z.land (Z.shiftr p i) 15 = (p / 2 ^ i) mod 16.
Proof. intros Hi. rewrite Z.shiftr_div_pow2 by done. by rewrite (Z.land_ones _ 4). Qed.
Lemma hex_digit_ok d : 0 <= d < 16 → hex_value (hex_digit d) = d ∧ 48 <= hex_digit d < 256.
Proof. intros Hd. unfold hex_value, hex_digit. destruct (Z.ltb_spec d 10); [destruct (Z.ltb_spec (48 + d) 97)|destruct (Z.ltb_spec (97 + (d - 10)) 97)]; lia. Qed.

Lemma fold_digits b a ds : fold_left (λ a d, a * b + d) ds a = a * b ^ Z.of_nat (length ds) + from_digits b ds.
Proof.
  unfold from_digits. revert a. induction ds as [|d ds IH]; intros a; cbn [fold_left length]; [simpl; lia|].
  rewrite (IH (a * b + d)), (IH (0 * b + d)), Nat2Z.inj_succ, Z.pow_succ_r by lia. lia.
Qed.

Lemma from_digits_cons b d ds : from_digits b (d :: ds) = d * b ^ Z.of_nat (length ds) + from_digits b ds.
Proof. unfold from_digits at 1. simpl. by rewrite fold_digits. Qed.

Lemma length_hex n p : length (hex n p) = n.
Proof. induction n; simpl; congruence. Qed.

Lemma hex_ok n p : 0 <= p → parse_hex (hex n p) = p mod 16 ^ Z.of_nat n.
Proof.
  intros Hp. induction n as [|n IH]; [by rewrite Z.mod_1_r|]. unfold parse_hex in *. simpl hex. rewrite fmap_cons.
  rewrite nibble by lia. rewrite Z.pow_mul_r by lia. change (2 ^ 4) with 16. set (t := 16 ^ Z.of_nat n).
  assert (Ht : 0 < t) by (apply Z.pow_pos_nonneg; lia).
  rewrite (proj1 (hex_digit_ok _ (Z.mod_pos_bound (p / t) 16 ltac:(lia)))).
  rewrite from_digits_cons, IH, length_fmap, length_hex. fold t.
  rewrite Nat2Z.inj_succ, Z.pow_succ_r by lia. fold t. rewrite (Z.mul_comm 16 t), Z.rem_mul_r by lia. lia.
Qed.

Lemma emits_putptr p : emits (putptr p) ([48; 120] ++ hex 16 (u64 p)).
Proof.
  apply emits_bind; [apply emits_putlit; repeat (constructor; [lia|]); constructor|].
  generalize 16%nat. intros n. induction n as [|n IH]; [apply emits_ret|]. simpl.
  set (d := Z.land _ 15). assert (Hd : 0 <= d < 16) by (unfold d; rewrite nibble by lia; by apply Z.mod_pos_bound).
  assert (Eu : u8 (hex_digit d) = hex_digit d) by (unfold u8; pose proof (hex_digit_ok d Hd); rewrite Z.mod_small; lia).
  rewrite <-Eu. exact (emits_bind _ _ _ _ (emits_putchar _) IH).
Qed.

(** ** Strings and formats *)

Section render.
Context (mem : gmap Z Z).

(** The string at [p]. *)
Fixpoint read_str (fuel : nat) (p : Z) : option (list Z) :=
  match fuel with
  | O => None
  | S fuel => c ← mem !! p; if c =? 0 then Some [] else cons c <$> read_str fuel (p + 1)
  end.

(** What a format prints, as a function of its text and arguments.  A percent
    sign that no conversion follows is dropped, the text goes on behind it. *)
Fixpoint render (fmt ap : list Z) : option (list Z) :=
  match fmt with
  | [] => Some []
  | c0 :: fmt1 =>
      if c0 =? 37 then
        match fmt1 with
        | [] => Some []
        | c1 :: fmt2 =>
            let conv (f : Z → option (list Z)) :=
              match ap with [] => None | a :: ap => o ← f a; r ← render fmt2 ap; Some (o ++ r) end in
            if c1 =? 100 then conv (λ a, Some (dec (i32 a)))
            else if c1 =? 99 then conv (λ a, Some [u8 a])
            else if c1 =? 115 then conv (read_str (S (size mem)))
            else if c1 =? 112 then conv (λ a, Some ([48; 120] ++ hex 16 (u64 a)))
            else render fmt1 ap
        end
      else cons c0 <$> render fmt1 ap
  end.

Lemma emits_deref {A} (f : option A) (a : A) (k : A → M console unit) out :
  f = Some a → emits (k a) out → emits (c ← deref (λ _, f); k c) out.
Proof. intros -> He s. apply He. Qed.

Lemma emits_u8 c (k : M console unit) out : 0 <= c < 256 → emits k out → emits (uart_putc_sync c;; k) (c :: out).
Proof.
  intros Hc Hk. assert (Ec : u8 c = c) by (unfold u8; by rewrite Z.mod_small).
  pose proof (emits_bind _ _ _ _ (emits_putc_sync c) Hk) as He. by rewrite Ec in He.
Qed.

(** Memory holds bytes. *)
Context (Hmem : ∀ p c, mem !! p = Some c → 0 <= c < 256).

Lemma emits_putstr fuel p out : read_str fuel p = Some out → emits (putstr_loop mem fuel p) out.
Proof.
  revert p out. induction fuel as [|fuel IH]; intros p out E; [done|]. simpl in *.
  destruct (mem !! p) as [c|] eqn:Em; [|done]. simpl in E. apply (emits_deref _ c); [done|].
  destruct (c =? 0); [injection E as <-; apply emits_ret|].
  destruct (read_str fuel (p + 1)) as [o|] eqn:Er; [|done]. injection E as <-. apply emits_u8; [by eapply Hmem|by apply IH].
Qed.

Definition text (fmt : list Z) : Prop := Forall (λ c, 0 < c < 256) fmt.

Lemma text_at fmt i c l : text fmt → drop i fmt = c :: l → 0 < c < 256.
Proof.
  intros Ht E. assert (Hin : c ∈ drop i fmt) by (rewrite E; by left). rewrite <-(take_drop i fmt) in Ht.
  apply Forall_app in Ht as [_ Ht]. by apply (proj1 (Forall_forall _ _) Ht c).
Qed.

Lemma u8_i32 a : u8 (i32 a) = u8 a.
Proof.
  unfold u8, i32. pose proof (Z.div_mod (a + 2 ^ 31) (2 ^ 32) ltac:(lia)).
  replace ((a + 2 ^ 31) mod 2 ^ 32 - 2 ^ 31) with (a + - (2 ^ 24 * ((a + 2 ^ 31) / 2 ^ 32)) * 2 ^ 8) by lia.
  by rewrite Z.mod_add.
Qed.

Lemma fmt_at_drop fmt i : fmt_at fmt i = match drop i fmt with c :: _ => Some c | [] => if decide (i = length fmt) then Some 0 else None end.
Proof.
  unfold fmt_at. case_decide as Hi; [by rewrite drop_ge by lia|].
  destruct (drop i fmt) as [|c l] eqn:E.
  - apply lookup_ge_None_2. assert (length (drop i fmt) = 0)%nat by (by rewrite E). rewrite length_drop in *. lia.
  - rewrite <-(Nat.add_0_r i), <-lookup_drop, E. done.
Qed.

(** The conversions: [f] is what the argument prints. *)
Lemma emits_conv (m : Z → M console unit) (f : Z → option (list Z)) (k : list Z → M console unit) fmt ap out :
  (∀ a o, f a = Some o → emits (m a) o) → (∀ ap out, render fmt ap = Some out → emits (k ap) out) →
  match ap with [] => None | a :: ap => o ← f a; r ← render fmt ap; Some (o ++ r) end = Some out →
  emits ('(a, ap) ← deref (λ _, va_arg ap); m a;; k ap) out.
Proof.
  intros Hm Hk E. destruct ap as [|a ap]; [done|]. apply (emits_deref _ (a, ap)); [done|].
  destruct (f a) as [o|] eqn:Ef; [|done]. destruct (render fmt ap) as [r|] eqn:Er; [|done]. injection E as <-.
  apply emits_bind; auto.
Qed.

Lemma emits_printf fuel fmt i ap out : text fmt → (i <= length fmt)%nat → (length fmt < i + fuel)%nat →
  render (drop i fmt) ap = Some out → emits (printf_loop mem fuel fmt i ap) out.
Proof.
  intros Ht. revert i ap out. induction fuel as [|fuel IH]; intros i ap out Hi Hf E; [lia|]. cbn [printf_loop].
  pose proof (fmt_at_drop fmt i) as Ec. destruct (drop i fmt) as [|c0 fmt1] eqn:Ed.
  { assert (i = length fmt) as -> by (assert (length (drop i fmt) = 0)%nat by (by rewrite Ed); rewrite length_drop in *; lia).
    rewrite decide_True in Ec by done. apply (emits_deref _ 0); [done|]. injection E as <-. apply emits_ret. }
  assert (Hl : (S (length fmt1) = length fmt - i)%nat) by (by rewrite <-length_drop, Ed).
  assert (Ed1 : drop (S i) fmt = fmt1) by (by rewrite <-Nat.add_1_r, <-drop_drop, Ed).
  assert (Hc0 : 0 < c0 < 256) by (by eapply text_at).
  apply (emits_deref _ c0); [done|]. destruct (Z.eqb_spec c0 0); [lia|]. simpl in E.
  destruct (Z.eqb_spec c0 37) as [->|].
  2:{ destruct (render fmt1 ap) as [o|] eqn:Er; [|done]. injection E as <-. unfold putchar.
      replace (u8 c0) with c0 by (unfold u8; rewrite Z.mod_small; lia). apply emits_u8; [lia|]. apply IH; [lia|lia|by rewrite Ed1]. }
  pose proof (fmt_at_drop fmt (S i)) as Ec1. rewrite Ed1 in Ec1. destruct fmt1 as [|c1 fmt2].
  { rewrite decide_True in Ec1 by (simpl in Hl; lia). apply (emits_deref _ 0); [done|]. injection E as <-. apply emits_ret. }
  simpl in Hl. assert (Ed2 : drop (S (S i)) fmt = fmt2) by (by rewrite <-Nat.add_1_r, <-drop_drop, Ed1).
  assert (Hc1 : 0 < c1 < 256) by (by eapply text_at).
  apply (emits_deref _ c1); [done|]. destruct (Z.eqb_spec c1 0); [lia|].
  assert (Hk : ∀ ap out, render fmt2 ap = Some out → emits (printf_loop mem fuel fmt (S (S i)) ap) out).
  { intros ap' out' E'. apply IH; [lia|lia|by rewrite Ed2]. }
  destruct (c1 =? 100); [apply (emits_conv _ (λ a, Some (dec (i32 a))) _ fmt2); [|exact Hk|exact E]; intros a o [= <-]; apply emits_putint; unfold i32; pose proof (Z.mod_pos_bound (a + 2 ^ 31) (2 ^ 32)); lia|].
  destruct (c1 =? 99).
  { apply (emits_conv _ (λ a, Some [u8 a]) _ fmt2); [|exact Hk|exact E]. intros a o [= <-]. pose proof (emits_putchar (i32 a)) as He.
    by rewrite u8_i32 in He. }
  destruct (c1 =? 115); [apply (emits_conv _ (read_str (S (size mem))) _ fmt2); [|exact Hk|exact E]; intros a o Eo; by apply emits_putstr|].
  destruct (c1 =? 112); [apply (emits_conv _ (λ a, Some ([48; 120] ++ hex 16 (u64 a))) _ fmt2); [|exact Hk|exact E]; intros a o [= <-]; apply emits_putptr|].
  apply IH; [lia|lia|by rewrite Ed1].
Qed.
End render.

(** C39: [printk] takes the console lock, sends exactly the bytes that the format
    stands for ([render]), in order, and releases the lock; it hangs if and only if
    the transmitter is idle fewer times than there are bytes.  Numbers are printed
    so that they read back: every decimal one as itself, a pointer as its 64-bit value. *)
Theorem printk_correct mem fmt ap out s :
  (∀ p c, mem !! p = Some c → 0 <= c < 256) → text fmt → render mem fmt ap = Some out → cons_lock ∉ con_locks s →
  ((length out <= idle_count (lsr s))%nat → ∃ l, printk mem fmt ap s = Done tt (set_lsr l (set_thr (thr s ++ out) s)) ∧
    idle_count l = (idle_count (lsr s) - length out)%nat) ∧
  ((idle_count (lsr s) < length out)%nat → printk mem fmt ap s = Blocked) ∧
  (∀ n, parse_dec (dec (i32 n)) = i32 n) ∧ ∀ p, parse_hex (hex 16 (u64 p)) = u64 p.
Proof.
  intros Hmem Ht Hr Hlk.
  assert (He : emits (printf mem fmt ap) out) by (by apply emits_printf; [done|done|lia|lia|]).
  set (s1 := set_con_locks ({[cons_lock]} ∪ con_locks s) s). specialize (He s1). change (lsr s1) with (lsr s) in He.
  assert (E1 : spin_lock cons_lock s = Done tt s1) by (unfold spin_lock; by rewrite decide_False).
  split; [|split; [|split]].
  - intros Hle. rewrite decide_True in He by done. destruct He as (l & E & El). exists l. split; [|done].
    unfold printk. rewrite (bind_Done _ _ _ _ _ E1), (bind_Done _ _ _ _ _ E).
    unfold spin_unlock. simpl. rewrite decide_True by set_solver. rewrite lock_unlock_locks by done. by destruct s.
  - intros Hlt. rewrite decide_False in He by lia. unfold printk. rewrite (bind_Done _ _ _ _ _ E1).
    unfold mbind, M_bind. by rewrite He.
  - intros n. apply dec_ok. unfold i32. pose proof (Z.mod_pos_bound (n + 2 ^ 31) (2 ^ 32) ltac:(lia)). lia.
  - intros p. unfold u64. rewrite hex_ok by (apply Z.mod_pos_bound; lia). by rewrite Z.mod_mod.
Qed.

(** The transmitter is busy once; the format is "n=%d %c". *)
Definition demo_con : console := Con (0 :: replicate 40 96) [] [] [] (replicate 32 0) 0 0 ∅.
Definition demo_fmt : list Z := [110; 61; 37; 100; 32; 37; 99].
Lemma printk_correct_witness :
  ∃ s, printk ∅ demo_fmt [2 ^ 32 - 5; 65] demo_con = Done tt s ∧ thr s = [110; 61; 45; 53; 32; 65].
Proof.
  destruct (printk_correct ∅ demo_fmt [2 ^ 32 - 5; 65] [110; 61; 45; 53; 32; 65] demo_con) as [H _].
  - intros p c. by rewrite lookup_empty.
  - repeat (constructor; [lia|]). constructor.
  - by vm_compute.
  - by vm_compute.
  - destruct H as (l & E & _); [by vm_compute; lia|]. exists (set_lsr l (set_thr (thr demo_con ++ [110; 61; 45; 53; 32; 65]) demo_con)).
    split; [exact E|]. reflexivity.
Defined.

(** * The transmit queue

    The bytes between the two counters, oldest first. *)

Lemma u64_slot x y : tx_slot (u64 x + y) = tx_slot (x + y).
Proof.
  unfold tx_slot, u64, UART_TX_BUF_SIZE. f_equal. pose proof (Z.div_mod x (2 ^ 64) ltac:(lia)).
  replace (x mod 2 ^ 64 + y) with (x + y + - (2 ^ 59 * (x / 2 ^ 64)) * 32) by lia. by rewrite Z.mod_add.
Qed.

Record queue_rep (s : console) (q : list Z) : Prop := {
  qr_len : length (uart_tx_buf s) = Z.to_nat UART_TX_BUF_SIZE;
  qr_r : 0 <= uart_tx_r s < 2 ^ 64;
  qr_w : uart_tx_w s = u64 (uart_tx_r s + Z.of_nat (length q));
  qr_room : Z.of_nat (length q) <= UART_TX_BUF_SIZE;
  qr_at : ∀ i c, q !! i = Some c → uart_tx_buf s !! tx_slot (uart_tx_r s + Z.of_nat i) = Some c ∧ 0 <= c < 256;
}.

(** The answers up to the first busy one. *)
Fixpoint idle_run (l : list Z) : nat := match l with [] => 0 | x :: l => if tx_idle x then S (idle_run l) else 0 end.

Lemma u64_eq x k : 0 <= x < 2 ^ 64 → 0 <= k < 2 ^ 64 → (u64 (x + k) =? x) = (k =? 0).
Proof.
  intros Hx Hk. unfold u64. destruct (Z.eqb_spec k 0) as [->|Hne].
  - rewrite Z.add_0_r, Z.mod_small by lia. by rewrite Z.eqb_refl.
  - apply Z.eqb_neq. destruct (decide (x + k < 2 ^ 64)); [rewrite Z.mod_small; lia|].
    replace (x + k) with (x + k - 2 ^ 64 + 1 * 2 ^ 64) by lia. rewrite Z.mod_add, Z.mod_small by lia. lia.
Qed.

Lemma uart_start_ok q fuel s : queue_rep s q → (length q < fuel)%nat →
  ∃ s', uart_start fuel s = Done tt s' ∧ thr s' = thr s ++ take (idle_run (lsr s)) q ∧
    queue_rep s' (drop (idle_run (lsr s)) q) ∧ con_locks s' = con_locks s.
Proof.
  revert q s. induction fuel as [|fuel IH]; intros q s Hq Hf; [lia|]. pose proof Hq as [Hl Hr Hw Hroom Hat].
  cbn [uart_start]. rewrite (bind_Done _ _ _ (uart_tx_w s =? uart_tx_r s) s) by done. unfold UART_TX_BUF_SIZE in Hroom.
  rewrite Hw, u64_eq by lia. destruct q as [|c q].
  { exists s. rewrite take_nil, drop_nil, app_nil_r. done. }
  destruct (Z.eqb_spec (Z.of_nat (length (c :: q))) 0); [simpl in *; lia|].
  destruct (lsr s) as [|x l] eqn:Els.
  { rewrite (bind_Done _ _ _ 0 s) by (unfold read_lsr; by rewrite Els). exists s. rewrite app_nil_r. done. }
  rewrite (bind_Done _ _ _ x (set_lsr l s)) by (unfold read_lsr; by rewrite Els). simpl idle_run.
  destruct (tx_idle x); [|exists (set_lsr l s); rewrite app_nil_r; done]. cbn [negb].
  destruct (Hat 0%nat c eq_refl) as [Ec Hc]. rewrite Z.add_0_r in Ec.
  set (s1 := set_tx (uart_tx_buf s) (uart_tx_w s) (u64 (uart_tx_r s + 1)) (set_lsr l s)).
  rewrite (bind_Done _ _ _ c s1) by (unfold update_ret; simpl; by rewrite Ec).
  set (s2 := set_thr (thr s1 ++ [u8 c]) s1). rewrite (bind_Done _ _ _ tt s2) by done.
  destruct (IH q s2) as (s' & E & Et & Hq' & Ek); [|simpl in Hf; lia|].
  - split; simpl; [done|apply Z.mod_pos_bound; lia| |simpl in Hroom; unfold UART_TX_BUF_SIZE; lia|].
    + rewrite Hw. unfold u64. rewrite Zplus_mod_idemp_l. f_equal. simpl. lia.
    + intros i d Hi. rewrite u64_slot. destruct (Hat (S i) d Hi) as [Ed Hd]. split; [|done]. rewrite <-Ed. f_equal. f_equal. lia.
  - exists s'. split; [exact E|]. split; [|split; [exact Hq'|exact Ek]].
    rewrite Et. simpl. rewrite <-app_assoc. unfold u8. by rewrite Z.mod_small.
Qed.

(** C40: [uart_putc] is a bounded queue: with room for the byte it appends it, sends
    from the front as much as the transmitter takes, in order, and releases the
    lock.  With 32 bytes waiting it drops the byte and returns holding the lock, so
    that the next call on this CPU panics. *)
Theorem uart_putc_correct c q s : queue_rep s q → uart_tx_lock ∉ con_locks s →
  (Z.of_nat (length q) < UART_TX_BUF_SIZE → ∃ s', uart_putc c s = Done tt s' ∧
    thr s' = thr s ++ take (idle_run (lsr s)) (q ++ [u8 c]) ∧ queue_rep s' (drop (idle_run (lsr s)) (q ++ [u8 c])) ∧
    con_locks s' = con_locks s) ∧
  (Z.of_nat (length q) = UART_TX_BUF_SIZE → ∃ s', uart_putc c s = Done tt s' ∧ thr s' = thr s ∧ queue_rep s' q ∧
    ∀ d, uart_putc d s' = Panic).
Proof.
  intros [Hl Hr Hw Hroom Hat] Hlk. set (s1 := set_con_locks ({[uart_tx_lock]} ∪ con_locks s) s).
  assert (E1 : spin_lock uart_tx_lock s = Done tt s1) by (unfold spin_lock; by rewrite decide_False).
  assert (Efull : (uart_tx_w s1 =? u64 (uart_tx_r s1 + UART_TX_BUF_SIZE)) = (Z.of_nat (length q) =? UART_TX_BUF_SIZE)).
  { simpl. rewrite Hw. unfold UART_TX_BUF_SIZE in *. set (k := Z.of_nat (length q)) in *.
    rewrite Z.eqb_sym. replace (uart_tx_r s + 32) with (uart_tx_r s + k + (32 - k)) by lia.
    assert (E : u64 (uart_tx_r s + k + (32 - k)) = u64 (u64 (uart_tx_r s + k) + (32 - k))) by (unfold u64; by rewrite Zplus_mod_idemp_l).
    rewrite E, u64_eq by (apply Z.mod_pos_bound || idtac; lia). destruct (Z.eqb_spec (32 - k) 0), (Z.eqb_spec k 32); lia || done. }
  assert (Ep : uart_putc c s = (if Z.of_nat (length q) =? UART_TX_BUF_SIZE then mret tt else
    update (λ s, _ ← uart_tx_buf s !! tx_slot (uart_tx_w s);
      Some (set_tx (<[tx_slot (uart_tx_w s) := u8 c]> (uart_tx_buf s)) (u64 (uart_tx_w s + 1)) (uart_tx_r s) s));;
    uart_start (S (Z.to_nat UART_TX_BUF_SIZE));; spin_unlock uart_tx_lock) s1).
  { unfold uart_putc. rewrite (bind_Done _ _ _ _ _ E1). rewrite <-Efull. reflexivity. }
  rewrite Ep. clear Ep. split; intros Hq.
  - destruct (Z.eqb_spec (Z.of_nat (length q)) UART_TX_BUF_SIZE); [lia|].
    assert (Hsl : (tx_slot (uart_tx_w s) < length (uart_tx_buf s))%nat).
    { rewrite Hl. unfold tx_slot, UART_TX_BUF_SIZE. pose proof (Z.mod_pos_bound (uart_tx_w s) 32). lia. }
    destruct (lookup_lt_is_Some_2 _ _ Hsl) as [old Eold].
    set (s2 := set_tx (<[tx_slot (uart_tx_w s) := u8 c]> (uart_tx_buf s)) (u64 (uart_tx_w s + 1)) (uart_tx_r s) s1).
    rewrite (bind_Done _ _ _ tt s2) by (unfold update; simpl; by rewrite Eold).
    assert (Hq2 : queue_rep s2 (q ++ [u8 c])).
    { assert (Ew : tx_slot (uart_tx_w s) = tx_slot (uart_tx_r s + Z.of_nat (length q))).
      { rewrite Hw, <-(Z.add_0_r (u64 _)), u64_slot. f_equal. lia. }
      split; simpl; [by rewrite length_insert|done| |rewrite length_app; simpl; lia|].
      - rewrite Hw, length_app. unfold u64. rewrite Zplus_mod_idemp_l. f_equal. simpl. lia.
      - intros i d Hi. rewrite Ew. apply lookup_snoc_Some in Hi as [[Hi Hd]|[-> <-]].
        + rewrite list_lookup_insert_ne; [by apply Hat|]. unfold tx_slot, UART_TX_BUF_SIZE in *. intros E.
          apply Z2Nat.inj in E; [|apply Z.mod_pos_bound; lia..].
          pose proof (Z.div_mod (uart_tx_r s + Z.of_nat (length q)) 32). pose proof (Z.div_mod (uart_tx_r s + Z.of_nat i) 32). lia.
        + rewrite <-Ew, list_lookup_insert_eq by done. split; [done|]. apply Z.mod_pos_bound. lia. }
    destruct (uart_start_ok (q ++ [u8 c]) (S (Z.to_nat UART_TX_BUF_SIZE)) s2 Hq2) as (s3 & E3 & Et & Hq3 & Ek).
    { rewrite length_app. unfold UART_TX_BUF_SIZE in *. simpl. lia. }
    rewrite (bind_Done _ _ _ _ _ E3). exists (set_con_locks (con_locks s) s3).
    split; [|split; [exact Et|split; [by destruct Hq3|done]]].
    unfold spin_unlock. simpl. rewrite Ek. simpl. rewrite decide_True by set_solver. by rewrite lock_unlock_locks.
  - rewrite Hq, Z.eqb_refl. exists s1. split; [done|]. split; [done|]. split; [by split|].
    intros d. unfold uart_putc, mbind, M_bind, spin_lock. by rewrite decide_True by (simpl; set_solver).
Qed.

(** A full buffer across the wrap-around of the counters. *)
Lemma uart_putc_correct_witness :
  let s := Con [0] [] [] [] (replicate 32 65) 15 (2 ^ 64 - 17) ∅ in
  ∃ s', uart_putc 66 s = Done tt s' ∧ ∀ d, uart_putc d s' = Panic.
Proof.
  intros s. destruct (uart_putc_correct 66 (replicate 32 65) s) as [_ H].
  - split; try done. intros i c [-> Hi]%lookup_replicate. split; [|done].
    apply lookup_replicate. split; [done|]. unfold tx_slot, UART_TX_BUF_SIZE. pose proof (Z.mod_pos_bound (uart_tx_r s + Z.of_nat i) 32). lia.
  - apply not_elem_of_empty.
  - destruct H as (s' & E & _ & _ & Hp); [reflexivity|]. exists s'. split; [exact E|exact Hp].
Defined.

(** * Input *)

(** What is echoed for a byte: a newline before a carriage return, and for DEL
    the sequence that rubs out a character. *)
Definition echo (c : Z) : list Z := (if c =? 13 then [10] else if c =? 127 then [8; 32; 8] else []) ++ [c].

Lemma uartintr_echo x l c r s : lsr s = x :: l → Z.land x 1 ≠ 0 → rhr s = c :: r → 0 <= c < 256 →
  (length (echo c) <= idle_count l)%nat →
  ∃ l', uartintr s = Done tt (set_lsr l' (set_rhr r (set_thr (thr s ++ echo c) s))) ∧
    idle_count l' = (idle_count l - length (echo c))%nat.
Proof.
  intros El Hx Er Hc Hn. set (s1 := set_lsr l s). set (s2 := set_rhr r s1).
  assert (Eu : u8 c = c) by (unfold u8; by rewrite Z.mod_small).
  assert (Eg : uart_getc s = Done c s2).
  { unfold uart_getc. rewrite (bind_Done _ _ _ x s1) by (unfold read_lsr; by rewrite El).
    destruct (Z.eqb_spec (Z.land x 1) 0); [done|]. unfold read_rhr. change (rhr s1) with (rhr s). by rewrite Er, Eu. }
  unfold uartintr. rewrite (bind_Done _ _ _ _ _ Eg). destruct (Z.eqb_spec c (-1)); [lia|].
  assert (He : emits ((if c =? 13 then uart_putc_sync 10 else if c =? 127 then uart_putc_sync 8;; uart_putc_sync 32;; uart_putc_sync 8
    else mret tt);; uart_putc_sync c) (echo c)).
  { apply emits_bind; [|rewrite <-Eu at 2; apply emits_putc_sync].
    apply (emits_if _ _ _ _ _ (emits_putc_sync 10)). apply (emits_if _ _ _ [8; 32; 8]); [|apply emits_ret].
    exact (emits_bind _ _ [8] [32; 8] (emits_putc_sync 8) (emits_bind _ _ [32] [8] (emits_putc_sync 32) (emits_putc_sync 8))). }
  specialize (He s2). change (lsr s2) with l in He. rewrite decide_True in He by done. destruct He as (l' & E & E'). by exists l'.
Qed.
