(* ===== verification/Syscall.v ===== *)
(** System calls: kernel/trap/syscall.c, sysfile.c and temp.c.

    The kernel functions behind the calls ([do_read] and the others) are a record
    of operations, [sys_calls]; [temp] is the one of this kernel, whose functions
    are stubs that all return [-ENOSYS]. *)
From S2P Require Import Prelude.

(** [struct trapframe] of include/core/proc.h, in the order of its words. *)
Record trapframe := TF {
  tf_kernel_sp : Z; tf_epc : Z; tf_ra : Z; tf_sp : Z; tf_gp : Z; tf_tp : Z; tf_t0 : Z; tf_t1 : Z; tf_t2 : Z; tf_s0 : Z; tf_s1 : Z;
  tf_a0 : Z; tf_a1 : Z; tf_a2 : Z; tf_a3 : Z; tf_a4 : Z; tf_a5 : Z; tf_a6 : Z; tf_a7 : Z; tf_s2 : Z; tf_s3 : Z; tf_s4 : Z;
  tf_s5 : Z; tf_s6 : Z; tf_s7 : Z; tf_s8 : Z; tf_s9 : Z; tf_s10 : Z; tf_s11 : Z; tf_t3 : Z; tf_t4 : Z; tf_t5 : Z; tf_t6 : Z;
}.
Definition set_tf_epc v t := TF (tf_kernel_sp t) v (tf_ra t) (tf_sp t) (tf_gp t) (tf_tp t) (tf_t0 t) (tf_t1 t) (tf_t2 t) (tf_s0 t) (tf_s1 t) (tf_a0 t) (tf_a1 t) (tf_a2 t) (tf_a3 t) (tf_a4 t) (tf_a5 t) (tf_a6 t) (tf_a7 t) (tf_s2 t) (tf_s3 t) (tf_s4 t) (tf_s5 t) (tf_s6 t) (tf_s7 t) (tf_s8 t) (tf_s9 t) (tf_s10 t) (tf_s11 t) (tf_t3 t) (tf_t4 t) (tf_t5 t) (tf_t6 t).
Definition set_tf_a0 v t := TF (tf_kernel_sp t) (tf_epc t) (tf_ra t) (tf_sp t) (tf_gp t) (tf_tp t) (tf_t0 t) (tf_t1 t) (tf_t2 t) (tf_s0 t) (tf_s1 t) v (tf_a1 t) (tf_a2 t) (tf_a3 t) (tf_a4 t) (tf_a5 t) (tf_a6 t) (tf_a7 t) (tf_s2 t) (tf_s3 t) (tf_s4 t) (tf_s5 t) (tf_s6 t) (tf_s7 t) (tf_s8 t) (tf_s9 t) (tf_s10 t) (tf_s11 t) (tf_t3 t) (tf_t4 t) (tf_t5 t) (tf_t6 t).

(** The memory of a trapframe. *)
Definition tf_words (t : trapframe) : list Z :=
  [tf_kernel_sp t; tf_epc t; tf_ra t; tf_sp t; tf_gp t; tf_tp t; tf_t0 t; tf_t1 t; tf_t2 t; tf_s0 t; tf_s1 t; tf_a0 t; tf_a1 t; tf_a2 t; tf_a3 t; tf_a4 t; tf_a5 t; tf_a6 t; tf_a7 t; tf_s2 t; tf_s3 t; tf_s4 t; tf_s5 t; tf_s6 t; tf_s7 t; tf_s8 t; tf_s9 t; tf_s10 t; tf_s11 t; tf_t3 t; tf_t4 t; tf_t5 t; tf_t6 t].
(** The index of [a0], offset 88. *)
Definition TF_A0 : nat := 11.

Definition ENOSYS : Z := 38.

(** The functions declared in sysfile.c; [do_exit] is declared not to return,
    [None] is that it does not. *)
Record sys_calls := SysCalls {
  do_debug : Z → Z → Z → Z → Z → Z → Z;
  do_fork : Z;
  do_exit : Z → option Z;
  do_wait : Z → Z;
  do_pipe : Z;
  do_read : Z → Z → Z → Z;
  do_kill : Z → Z → Z;
  do_exec : Z → Z → Z;
  do_fstat : Z;
  do_chdir : Z → Z;
  do_dup : Z;
  do_getpid : Z;
  do_sbrk : Z;
  do_sleep : Z → Z;
  do_uptime : Z;
  do_open : Z → Z → Z → Z;
  do_write : Z → Z → Z → Z;
  do_mknod : Z → Z → Z → Z;
  do_unlink : Z → Z;
  do_link : Z;
  do_mkdir : Z → Z;
  do_close : Z → Z;
  do_mmap : Z;
  do_munmap : Z;
}.

(** kernel/trap/temp.c *)
Definition temp : sys_calls := {|
  do_debug := λ _ _ _ _ _ _, - ENOSYS;
  do_fork := - ENOSYS;
  do_exit := λ _, Some (- ENOSYS);
  do_wait := λ _, - ENOSYS;
  do_pipe := - ENOSYS;
  do_read := λ _ _ _, - ENOSYS;
  do_kill := λ _ _, - ENOSYS;
  do_exec := λ _ _, - ENOSYS;
  do_fstat := - ENOSYS;
  do_chdir := λ _, - ENOSYS;
  do_dup := - ENOSYS;
  do_getpid := - ENOSYS;
  do_sbrk := - ENOSYS;
  do_sleep := λ _, - ENOSYS;
  do_uptime := - ENOSYS;
  do_open := λ _ _ _, - ENOSYS;
  do_write := λ _ _ _, - ENOSYS;
  do_mknod := λ _ _ _, - ENOSYS;
  do_unlink := λ _, - ENOSYS;
  do_link := - ENOSYS;
  do_mkdir := λ _, - ENOSYS;
  do_close := λ _, - ENOSYS;
  do_mmap := - ENOSYS;
  do_munmap := - ENOSYS;
|}.

(** What a handler does: it returns, it never does, or it runs on behind the end
    of a function that is declared not to return. *)
Inductive sysret := Ret (r : Z) | NoReturn | Undefined.
Definition noreturn (r : option Z) : sysret := match r with None => NoReturn | Some _ => Undefined end.

(** [memcpy(args, &p->tf->a0, n * sizeof(uint64))] *)
Definition get_args (n : nat) (t : trapframe) : list Z := take n (drop TF_A0 (tf_words t)).

Section calls.
Variable o : sys_calls.

Definition sys_debug (t : trapframe) : sysret :=
  match get_args 6 t with [a0; a1; a2; a3; a4; a5] => Ret (do_debug o (i32 a0) a1 a2 a3 a4 (i32 a5)) | _ => Undefined end.
Definition sys_fork (_ : trapframe) : sysret := Ret (do_fork o).
Definition sys_exit (t : trapframe) : sysret :=
  match get_args 1 t with [a0] => noreturn (do_exit o (i32 a0)) | _ => Undefined end.
Definition sys_wait (t : trapframe) : sysret :=
  match get_args 1 t with [a0] => Ret (do_wait o a0) | _ => Undefined end.
Definition sys_pipe (_ : trapframe) : sysret := Ret (do_pipe o).
Definition sys_read (t : trapframe) : sysret :=
  match get_args 3 t with [a0; a1; a2] => Ret (do_read o (i32 a0) a1 a2) | _ => Undefined end.
Definition sys_kill (t : trapframe) : sysret :=
  match get_args 2 t with [a0; a1] => Ret (do_kill o (i32 a0) (i32 a1)) | _ => Undefined end.
Definition sys_exec (t : trapframe) : sysret :=
  match get_args 2 t with [a0; a1] => Ret (do_exec o a0 a1) | _ => Undefined end.
Definition sys_fstat (_ : trapframe) : sysret := Ret (do_fstat o).
Definition sys_chdir (t : trapframe) : sysret :=
  match get_args 1 t with [a0] => Ret (do_chdir o a0) | _ => Undefined end.
Definition sys_dup (_ : trapframe) : sysret := Ret (do_dup o).
Definition sys_getpid (_ : trapframe) : sysret := Ret (do_getpid o).
Definition sys_sbrk (_ : trapframe) : sysret := Ret (do_sbrk o).
Definition sys_sleep (t : trapframe) : sysret :=
  match get_args 1 t with [a0] => Ret (do_sleep o a0) | _ => Undefined end.
Definition sys_uptime (_ : trapframe) : sysret := Ret (do_uptime o).
Definition sys_open (t : trapframe) : sysret :=
  match get_args 3 t with [a0; a1; a2] => Ret (do_open o a0 (i32 a1) (i32 a2)) | _ => Undefined end.
Definition sys_write (t : trapframe) : sysret :=
  match get_args 3 t with [a0; a1; a2] => Ret (do_write o (i32 a0) a1 a2) | _ => Undefined end.
Definition sys_mknod (t : trapframe) : sysret :=
  match get_args 3 t with [a0; a1; a2] => Ret (do_mknod o a0 (i32 a1) (i32 a2)) | _ => Undefined end.
Definition sys_unlink (t : trapframe) : sysret :=
  match get_args 1 t with [a0] => Ret (do_unlink o a0) | _ => Undefined end.
Definition sys_link (_ : trapframe) : sysret := Ret (do_link o).
Definition sys_mkdir (t : trapframe) : sysret :=
  match get_args 1 t with [a0] => Ret (do_mkdir o a0) | _ => Undefined end.
Definition sys_close (t : trapframe) : sysret :=
  match get_args 1 t with [a0] => Ret (do_close o (i32 a0)) | _ => Undefined end.
Definition sys_mmap (_ : trapframe) : sysret := Ret (do_mmap o).
Definition sys_munmap (_ : trapframe) : sysret := Ret (do_munmap o).

(** The table; every index below its length has a handler. *)
Definition syscalls : list (trapframe → sysret) :=
  [sys_debug; sys_fork; sys_exit; sys_wait; sys_pipe; sys_read;
   sys_kill; sys_exec; sys_fstat; sys_chdir; sys_dup; sys_getpid;
   sys_sbrk; sys_sleep; sys_uptime; sys_open; sys_write; sys_mknod;
   sys_unlink; sys_link; sys_mkdir; sys_close; sys_mmap; sys_munmap].

(** [n] is an [int] and is not compared with the size of the table. *)
Definition syscall (t : trapframe) : sysret :=
  let n := i32 (tf_a7 t) in
  if n <? 0 then Undefined else
  match syscalls !! Z.to_nat n with Some f => f t | None => Undefined end.

(** * The calling convention

    The call of number [n] on the registers of [t]. *)
Definition abi (n : Z) (t : trapframe) : option sysret :=
  match n with
  | 0 => Some (Ret (do_debug o (i32 (tf_a0 t)) (tf_a1 t) (tf_a2 t) (tf_a3 t) (tf_a4 t) (i32 (tf_a5 t))))
  | 1 => Some (Ret (do_fork o))
  | 2 => Some (noreturn (do_exit o (i32 (tf_a0 t))))
  | 3 => Some (Ret (do_wait o (tf_a0 t)))
  | 4 => Some (Ret (do_pipe o))
  | 5 => Some (Ret (do_read o (i32 (tf_a0 t)) (tf_a1 t) (tf_a2 t)))
  | 6 => Some (Ret (do_kill o (i32 (tf_a0 t)) (i32 (tf_a1 t))))
  | 7 => Some (Ret (do_exec o (tf_a0 t) (tf_a1 t)))
  | 8 => Some (Ret (do_fstat o))
  | 9 => Some (Ret (do_chdir o (tf_a0 t)))
  | 10 => Some (Ret (do_dup o))
  | 11 => Some (Ret (do_getpid o))
  | 12 => Some (Ret (do_sbrk o))
  | 13 => Some (Ret (do_sleep o (tf_a0 t)))
  | 14 => Some (Ret (do_uptime o))
  | 15 => Some (Ret (do_open o (tf_a0 t) (i32 (tf_a1 t)) (i32 (tf_a2 t))))
  | 16 => Some (Ret (do_write o (i32 (tf_a0 t)) (tf_a1 t) (tf_a2 t)))
  | 17 => Some (Ret (do_mknod o (tf_a0 t) (i32 (tf_a1 t)) (i32 (tf_a2 t))))
  | 18 => Some (Ret (do_unlink o (tf_a0 t)))
  | 19 => Some (Ret (do_link o))
  | 20 => Some (Ret (do_mkdir o (tf_a0 t)))
  | 21 => Some (Ret (do_close o (i32 (tf_a0 t))))
  | 22 => Some (Ret (do_mmap o))
  | 23 => Some (Ret (do_munmap o))
  | _ => None
  end.

Lemma syscall_abi t : syscall t = default Undefined (abi (i32 (tf_a7 t)) t).
Proof.
  unfold syscall. generalize (i32 (tf_a7 t)). intros n. destruct (Z.ltb_spec n 0) as [Hl|Hl]; [by destruct n|].
  destruct (decide (n < 24)) as [Hn|Hn].
  - assert (Hin : n ∈ seqZ 0 24) by (apply elem_of_seqZ; lia). clear Hl Hn.
    repeat (apply elem_of_cons in Hin as [->|Hin]; [reflexivity|]). by apply elem_of_nil in Hin.
  - rewrite lookup_ge_None_2 by (simpl; lia). destruct n as [|p|p]; [lia| |lia].
    do 5 (destruct p as [p|p|]; try done; try lia).
Qed.
End calls.

(** In this kernel every call but [exit] answers [-ENOSYS]; [exit] returns from a
    function that must not, and so does a number outside the table. *)
Lemma syscall_temp t : syscall temp t = if decide (0 <= i32 (tf_a7 t) < 24 ∧ i32 (tf_a7 t) ≠ 2) then Ret (- ENOSYS) else Undefined.
Proof.
  rewrite syscall_abi. generalize (i32 (tf_a7 t)). intros n. case_decide as Hn.
  - assert (Hin : n ∈ seqZ 0 24) by (apply elem_of_seqZ; lia).
    repeat (apply elem_of_cons in Hin as [->|Hin]; [first [reflexivity|lia]|]). by apply elem_of_nil in Hin.
  - destruct (decide (n = 2)) as [->|]; [done|]. assert (Ha : abi temp n t = None); [|by rewrite Ha].
    destruct n as [|p|p]; [lia| |done]. do 5 (destruct p as [p|p|]; try done; try lia).
Qed.
