(* ===== verification/Trap.v ===== *)
(** Traps: kernel/trap/trap.c and the interrupt controller, drive/plic.c.

    [machine] is what one CPU sees: its hart, the interrupt controller, the
    console, the disk and the timers, the threads and which one runs ([current],
    0 for none).  The bodies of the interrupt handlers are those of Console, Virtio
    and Timer.  [yield], the switch to the scheduler and back, is a parameter
    here; Switch has the kernel's. *)
From S2P Require Import Prelude ListLib Containers Buddy PageAlloc Vm Semaphore ObjCache Sched Work Timer Virtio StringLib Console Riscv Syscall.

(** * drive/plic.c *)

Definition PLIC : Z := 201326592.
Definition UART0_IRQ : Z := 10.
Definition VIRTIO0_IRQ : Z := 1.
Definition PLIC_SENABLE (hart : Z) : Z := PLIC + 8320 + hart * 256.
Definition PLIC_SPRIORITY (hart : Z) : Z := PLIC + 2101248 + hart * 8192.
Definition PLIC_SCLAIM (hart : Z) : Z := PLIC + 2101252 + hart * 8192.

(** What the claim register of this hart will answer, and the writes so far. *)
Record plic := Plic { claims : list Z; plic_log : list (Z * Z) }.

(** The part of [struct thread_info] a trap uses; [tf_addr] is the pointer [tf]. *)
Record thread := Thread { tf : trapframe; tf_addr : Z; ticks : Z; pgd : Z }.
Definition set_thread_tf t (x : thread) := Thread t (tf_addr x) (ticks x) (pgd x).
Definition set_thread_ticks n (x : thread) := Thread (tf x) (tf_addr x) n (pgd x).

Definition TIMER_SCAUSE : Z := 2 ^ 63 + 5.
Definition EXTERNAL_SCAUSE : Z := 2 ^ 63 + 9.
Definition E_SYSCALL : Z := 8.
Definition E_INS_PF : Z := 12.
Definition E_LOAD_PF : Z := 13.
Definition E_STORE_AMO_PF : Z := 15.

Section trap.
Context {C K : Type} `{ObjCacheLaws C} `{ObjCacheLaws K}.

Record machine := Machine {
  m_hart : hart; m_plic : plic; m_con : console; m_disk : disk; m_timer : timer_state C K;
  threads : gmap Z thread; current : Z; m_locks : gset lockid;
}.
Definition set_plic x s := Machine (m_hart s) x (m_con s) (m_disk s) (m_timer s) (threads s) (current s) (m_locks s).
Definition set_con x s := Machine (m_hart s) (m_plic s) x (m_disk s) (m_timer s) (threads s) (current s) (m_locks s).
Definition set_m_disk x s := Machine (m_hart s) (m_plic s) (m_con s) x (m_timer s) (threads s) (current s) (m_locks s).
Definition set_m_timer x s := Machine (m_hart s) (m_plic s) (m_con s) (m_disk s) x (threads s) (current s) (m_locks s).
Definition set_threads x s := Machine (m_hart s) (m_plic s) (m_con s) (m_disk s) (m_timer s) x (current s) (m_locks s).
Definition set_current x s := Machine (m_hart s) (m_plic s) (m_con s) (m_disk s) (m_timer s) (threads s) x (m_locks s).
Definition set_m_locks x s := Machine (m_hart s) (m_plic s) (m_con s) (m_disk s) (m_timer s) (threads s) (current s) x.

#[global] Instance machine_HasHart : HasHart machine := {
  hart_of := m_hart;
  put_hart := λ h s, Machine h (m_plic s) (m_con s) (m_disk s) (m_timer s) (threads s) (current s) (m_locks s);
}.
#[global] Instance machine_HasHartLaws : HasHartLaws machine.
Proof. split; [done|done|by intros []]. Qed.
#[global] Instance machine_HasLocks : HasLocks machine := { locks := m_locks; set_locks := set_m_locks }.

(** ** The interrupt controller *)

Definition plic_write (a v : Z) : M machine unit :=
  modify (λ s, set_plic (Plic (claims (m_plic s)) (plic_log (m_plic s) ++ [(a, u32 v)])) s).
Definition plic_init : M machine unit :=
  plic_write (PLIC + UART0_IRQ * 4) 1;; plic_write (PLIC + VIRTIO0_IRQ * 4) 1.
Definition plic_inithart : M machine unit :=
  hart ← cpuid;
  plic_write (PLIC_SENABLE hart) (Z.lor (Z.shiftl 1 UART0_IRQ) (Z.shiftl 1 VIRTIO0_IRQ));;
  plic_write (PLIC_SPRIORITY hart) 0.
(** The register of another hart is not read; without an answer nothing is pending. *)
Definition plic_claim : M machine Z := λ s,
  match claims (m_plic s) with
  | [] => Done 0 s
  | q :: l => Done (i32 q) (set_plic (Plic l (plic_log (m_plic s))) s)
  end.
Definition plic_complete (irq : Z) : M machine unit := hart ← cpuid; plic_write (PLIC_SCLAIM hart) irq.

(** * kernel/trap/trap.c *)

Variables (yield : M machine unit) (o : sys_calls).
(** The addresses of [kernelvec] and [uservec]. *)
Variables kernelvec uservec : Z.

(** The thread [p] points to, and a write to it. *)
Definition thread_at (p : Z) : M machine thread := deref (λ s, threads s !! p).
Definition put_thread (p : Z) (f : thread → thread) : M machine unit :=
  update (λ s, x ← threads s !! p; Some (set_threads (<[p := f x]> (threads s)) s)).
Definition print (fmt : string) (ap : list Z) : M machine unit := zoom m_con set_con (printk ∅ (chars_of fmt ++ [10]) ap).

Definition trap_init : M machine unit := zoom m_timer set_m_timer time_init.
Definition trap_inithart : M machine unit := w_stvec kernelvec.

(** [time_update] is that of Timer; [myproc()] reads [current]. *)
Definition timer_intr : M machine unit :=
  c ← cpuid;
  zoom m_timer set_m_timer (time_update c);;
  cur ← gets current;
  if cur =? 0 then t ← r_time; w_stimecmp (t + 8000) else
  x ← thread_at cur;
  let n := u64 (ticks x - 1) in
  put_thread cur (set_thread_ticks n);;
  t ← r_time;
  w_stimecmp (t + 250000);;
  if n =? 0 then yield else mret tt.

Definition external_intr : M machine unit :=
  irq ← plic_claim;
  (if irq =? UART0_IRQ then zoom m_con set_con uartintr
   else if irq =? VIRTIO0_IRQ then zoom m_disk set_m_disk virtio_disk_intr
   else if irq =? 0 then mret tt
   else print "unexpected interrupt irq=%d" [irq]);;
  if irq =? 0 then mret tt else plic_complete irq.

Definition intr_handler (scause : Z) : M machine unit :=
  if scause =? EXTERNAL_SCAUSE then external_intr else if scause =? TIMER_SCAUSE then timer_intr else mret tt.

(** syscall.c: [p->tf->a0 = (uint64)syscalls[n]()] *)
Definition do_syscall : M machine unit :=
  p ← gets current;
  x ← thread_at p;
  match syscall o (tf x) with
  | Ret r => put_thread p (λ x, set_thread_tf (set_tf_a0 (u64 r) (tf x)) x)
  | NoReturn => λ _, Blocked
  | Undefined => fault
  end.

(** No interrupt arrives between this [intr_on] and the [intr_off] of [usertrapret]; one
    that did would be a [kerneltrap] of its own ([kerneltrap_correct]; Switch,
    [kernel_interrupt_resumes]). *)
Definition excep_handler (scause : Z) : M machine unit :=
  if scause =? E_SYSCALL then intr_on;; do_syscall
  else if (scause =? E_INS_PF) || (scause =? E_LOAD_PF) || (scause =? E_STORE_AMO_PF) then mret tt
  else print "unknown scause: %p" [scause].

Definition mm_lock (p : Z) : lockid := ("mm"%string, p).
Definition swtch_pgd (next : Z) : M machine unit :=
  spin_lock (mm_lock next);;
  x ← thread_at next;
  old ← r_satp;
  (if old =? MAKE_SATP (pgd x) then mret tt
   else sfence_vma;; w_satp (MAKE_SATP (pgd x));; sfence_vma);;
  spin_unlock (mm_lock next).

(** Up to [userret], the assembly that restores the registers of the trapframe. *)
Definition usertrapret : M machine unit :=
  p ← gets current;
  intr_off;;
  x ← thread_at p;
  w_sepc (tf_epc (tf x));;
  w_stvec uservec;;
  w_sscratch (tf_addr x);;
  st ← r_sstatus;
  w_sstatus (Z.lor (Z.land st (not64 SSTATUS_SPP)) SSTATUS_SPIE);;
  swtch_pgd p.

(** proc.c: what a new user thread returns to, with its lock held by the scheduler. *)
Definition thread_lock (p : Z) : lockid := ("thread"%string, p).
Definition forkret : M machine unit :=
  p ← gets current;
  spin_unlock (thread_lock p);;
  usertrapret.

Definition interrupt (scause : Z) : bool := Z.testbit scause 63.

Definition kerneltrap : M machine unit :=
  epc ← r_sepc;
  st ← r_sstatus;
  cause ← r_scause;
  assert_ (negb (Z.land st SSTATUS_SPP =? 0));;
  on ← intr_get;
  assert_ (negb on);;
  (if interrupt cause then intr_handler cause else excep_handler cause);;
  w_sepc epc;;
  w_sstatus st.

Definition usertrap : M machine unit :=
  cause ← r_scause;
  epc ← r_sepc;
  st ← r_sstatus;
  assert_ (Z.land st SSTATUS_SPP =? 0);;
  on ← intr_get;
  assert_ (negb on);;
  w_stvec kernelvec;;
  p ← gets current;
  assert_ (negb (p =? 0));;
  epc ← (if interrupt cause then intr_handler cause;; mret epc
         else excep_handler cause;; mret (if cause =? E_SYSCALL then u64 (epc + 4) else epc));
  put_thread p (λ x, set_thread_tf (set_tf_epc epc (tf x)) x);;
  usertrapret.

(** * Facts *)

Lemma threads_writes l s : threads (writes l s) = threads s.
Proof. by rewrite writes_put. Qed.
Lemma current_writes l s : current (writes l s) = current s.
Proof. by rewrite writes_put. Qed.
Lemma locks_writes l s : m_locks (writes l s) = m_locks s.
Proof. by rewrite writes_put. Qed.
Lemma set_threads_writes T l s : set_threads T (writes l s) = writes l (set_threads T s).
Proof. by rewrite writes_put, (writes_put l (set_threads T s)). Qed.

Lemma thread_at_ok p x s : threads s !! p = Some x → thread_at p s = Done x s.
Proof. intros E. unfold thread_at, deref. by rewrite E. Qed.
Lemma put_thread_ok p f x s : threads s !! p = Some x → put_thread p f s = Done tt (set_threads (<[p := f x]> (threads s)) s).
Proof. intros E. unfold put_thread, update. by rewrite E. Qed.

Lemma swtch_pgd_ok p x s : threads s !! p = Some x → mm_lock p ∉ m_locks s →
  swtch_pgd p s = Done tt (put_hart (if csrs (m_hart s) satp =? MAKE_SATP (pgd x) then m_hart s else
    Hart (upd satp (u64 (MAKE_SATP (pgd x))) (csrs (m_hart s))) (tp (m_hart s))
      (mmu (m_hart s) ++ [SfenceVma; SatpWrite (u64 (MAKE_SATP (pgd x))); SfenceVma])) s).
Proof.
  intros Ex Hl. unfold swtch_pgd. set (s1 := set_m_locks ({[mm_lock p]} ∪ m_locks s) s).
  rewrite (bind_Done _ _ _ tt s1) by (unfold spin_lock; by rewrite decide_False).
  rewrite (bind_Done _ _ _ x s1) by by apply thread_at_ok. rewrite (bind_Done _ _ _ (csrs (m_hart s) satp) s1) by done.
  set (h' := if _ =? _ then m_hart s else _). rewrite (bind_Done _ _ _ tt (put_hart h' s1)).
  2:{ unfold h'. destruct (_ =? _); [done|]. unfold sfence_vma, w_satp, csrw, mbind, M_bind, modify. simpl. by rewrite <-!app_assoc. }
  unfold spin_unlock. simpl. rewrite decide_True by set_solver. by rewrite lock_unlock_locks.
Qed.

(** The state [userret] starts from, for a thread [x]. *)
Record user_ready (x : thread) s s' : Prop := {
  ur_sepc : csrs (m_hart s') sepc = u64 (tf_epc (tf x));
  ur_stvec : csrs (m_hart s') stvec = u64 uservec;
  ur_sscratch : csrs (m_hart s') sscratch = u64 (tf_addr x);
  ur_sstatus : ∀ i, 0 <= i → Z.testbit (csrs (m_hart s') sstatus) i =
    if decide (i = 5) then true else if decide (i = 8 ∨ i = 1) then false else Z.testbit (csrs (m_hart s) sstatus) i;
  ur_satp : csrs (m_hart s') satp = u64 (MAKE_SATP (pgd x));
  ur_tlb : mmu (m_hart s') = if csrs (m_hart s) satp =? MAKE_SATP (pgd x) then mmu (m_hart s)
    else mmu (m_hart s) ++ [SfenceVma; SatpWrite (u64 (MAKE_SATP (pgd x))); SfenceVma];
  ur_csrs : same_except [sepc; stvec; sscratch; sstatus; satp] (csrs (m_hart s)) (csrs (m_hart s'));
  ur_rest : s' = put_hart (m_hart s') s;
}.

Definition ret_writes (x : thread) (st : Z) : list (csr * Z) :=
  [(sstatus, Z.land st (not64 SSTATUS_SIE)); (sepc, tf_epc (tf x)); (stvec, uservec); (sscratch, tf_addr x);
   (sstatus, Z.lor (Z.land (u64 (Z.land st (not64 SSTATUS_SIE))) (not64 SSTATUS_SPP)) SSTATUS_SPIE)].

Lemma usertrapret_run x s : threads s !! current s = Some x →
  usertrapret s = swtch_pgd (current s) (writes (ret_writes x (csrs (m_hart s) sstatus)) s).
Proof.
  intros Ex. unfold usertrapret. rewrite (bind_Done _ _ _ (current s) s) by done. unfold intr_off, r_sstatus, w_sstatus, w_sepc, w_stvec, w_sscratch.
  rewrite bind_assoc, csrr_bind. rewrite csrw_first.
  erewrite bind_Done by (apply thread_at_ok; rewrite threads_writes; exact Ex).
  rewrite !csrw_writes. cbn [app]. rewrite csrr_bind, csrw_writes, csrs_writes. reflexivity.
Qed.

Lemma usertrapret_ok s x : words (csrs (m_hart s)) → threads s !! current s = Some x → mm_lock (current s) ∉ m_locks s →
  ∃ s', usertrapret s = Done tt s' ∧ user_ready x s s'.
Proof.
  intros Hw Ex Hl. rewrite (usertrapret_run x s Ex). set (l := ret_writes x (csrs (m_hart s) sstatus)).
  rewrite (swtch_pgd_ok _ x) by (by rewrite ?threads_writes, ?locks_writes).
  pose proof (csrs_writes l s : ∀ r, csrs (m_hart (writes l s)) r = last_write r l (csrs (m_hart s) r)) as L.
  pose proof (mmu_of_writes l s : mmu (m_hart (writes l s)) = mmu (m_hart s) ++ mmu_writes l) as Lm.
  change (mmu_writes l) with (@nil mmu_event) in Lm. rewrite app_nil_r in Lm.
  pose proof (writes_words l s Hw : words (csrs (m_hart (writes l s)))) as Hw'.
  assert (Ep : ∀ h, put_hart h (writes l s) = put_hart h s) by (intros h; by rewrite (writes_put l s)).
  rewrite Ep.
  assert (Ls : csrs (m_hart (writes l s)) satp = csrs (m_hart s) satp) by (by rewrite L).
  rewrite Ls, Lm. eexists. split; [reflexivity|].
  generalize dependent (m_hart (writes l s)). intros h L Lm Hw' Ls.
  assert (Hlast : ∀ r, last_write r l (csrs (m_hart s) r) = last_write r l (csrs (m_hart s) r)) by done.
  set (h2 := if _ =? _ then h else _).
  assert (Hsame : ∀ r, r ≠ satp → csrs h2 r = csrs h r).
  { intros r Hr. unfold h2. destruct (_ =? _); [done|]. by apply upd_ne. }
  assert (Hst : ∀ i, 0 <= i → Z.testbit (last_write sstatus l (csrs (m_hart s) sstatus)) i =
    if decide (i = 5) then true else if decide (i = 8 ∨ i = 1) then false else Z.testbit (csrs (m_hart s) sstatus) i).
  { intros i Hi. set (st := csrs (m_hart s) sstatus). set (st1 := u64 (Z.land st (not64 SSTATUS_SIE))).
    change (last_write sstatus l st) with (u64 (Z.lor (Z.land st1 (not64 SSTATUS_SPP)) SSTATUS_SPIE)).
    assert (H1' : is_u64 st1) by apply u64_is. assert (H2' : is_u64 SSTATUS_SPIE) by done.
    rewrite u64_word by (apply set_bits_u64; [by apply clear_bits_u64|done]).
    unfold SSTATUS_SPIE, SSTATUS_SPP. rewrite set_bit, clear_bit by (done || lia).
    unfold st1. rewrite u64_word by (apply clear_bits_u64, Hw). unfold SSTATUS_SIE. rewrite clear_bit by (done || lia || apply Hw).
    repeat case_decide; try done; lia. }
  split; cbn [m_hart put_hart machine_HasHart].
  - by rewrite Hsame, L.
  - by rewrite Hsame, L.
  - by rewrite Hsame, L.
  - intros i Hi. rewrite Hsame, L by done. by apply Hst.
  - unfold h2. destruct (Z.eqb_spec (csrs (m_hart s) satp) (MAKE_SATP (pgd x))) as [E|_]; [|apply upd_eq].
    rewrite Ls, E. symmetry. apply u64_word. rewrite <-E. apply Hw.
  - unfold h2. by destruct (_ =? _).
  - intros r Hr. rewrite Hsame by (intros ->; set_solver). rewrite L. apply last_write_other. unfold l. simpl. set_solver.
  - done.
Qed.

(** The first entry of a thread into user mode. *)
Lemma forkret_ok s x : words (csrs (m_hart s)) → threads s !! current s = Some x →
  thread_lock (current s) ∈ m_locks s → mm_lock (current s) ∉ m_locks s →
  ∃ s', forkret s = Done tt s' ∧ user_ready x (set_m_locks (m_locks s ∖ {[thread_lock (current s)]}) s) s'.
Proof.
  intros Hw Ex Hl Hm. unfold forkret. rewrite (bind_Done _ _ _ (current s) s) by done.
  erewrite bind_Done by (unfold spin_unlock; by rewrite decide_True). apply usertrapret_ok; [done|done|cbn; set_solver].
Qed.

(** * A trap from user mode *)

(** What every trap from user mode finds. *)
Record from_user s (p : Z) (x : thread) : Prop := {
  fu_words : words (csrs (m_hart s));
  fu_spp : Z.testbit (csrs (m_hart s) sstatus) 8 = false;
  fu_sie : Z.testbit (csrs (m_hart s) sstatus) 1 = false;
  fu_cur : current s = p ∧ p ≠ 0;
  fu_thread : threads s !! p = Some x;
  fu_lock : mm_lock p ∉ m_locks s;
}.

(** [usertrap] up to the handler, and behind it. *)
Lemma usertrap_run s p x : from_user s p x →
  usertrap s = ((if interrupt (csrs (m_hart s) scause) then intr_handler (csrs (m_hart s) scause);; mret (csrs (m_hart s) sepc)
      else excep_handler (csrs (m_hart s) scause);;
        mret (if csrs (m_hart s) scause =? E_SYSCALL then u64 (csrs (m_hart s) sepc + 4) else csrs (m_hart s) sepc)) ≫= λ epc,
    put_thread p (λ x, set_thread_tf (set_tf_epc epc (tf x)) x);; usertrapret) (writes [(stvec, kernelvec)] s).
Proof.
  intros [Hw Hspp Hsie [Hcur Hp] Ex Hl]. unfold usertrap, r_scause, r_sepc, r_sstatus, intr_get, r_sstatus, w_stvec.
  rewrite !csrr_bind. unfold SSTATUS_SPP. cbn [hart_of machine_HasHart]. rewrite test_bit, Hspp by lia.
  rewrite (bind_Done _ _ _ tt s) by done. rewrite bind_assoc, csrr_bind. cbn [hart_of machine_HasHart]. unfold SSTATUS_SIE. rewrite test_bit, Hsie by lia.
  rewrite (bind_Done _ _ _ false s) by done. rewrite (bind_Done _ _ _ tt s) by done. rewrite csrw_first.
  rewrite (bind_Done _ _ _ p (writes [(stvec, kernelvec)] s)) by (unfold gets; by rewrite current_writes, Hcur).
  rewrite (bind_Done _ _ _ tt (writes [(stvec, kernelvec)] s)) by (by destruct (Z.eqb_spec p 0)). reflexivity.
Qed.

Definition resumed (epc : Z) (x : thread) : thread := set_thread_tf (set_tf_epc epc (tf x)) x.

Lemma finish_ok epc s p x : words (csrs (m_hart s)) → current s = p → threads s !! p = Some x → mm_lock p ∉ m_locks s →
  ∃ s', (put_thread p (λ x, set_thread_tf (set_tf_epc epc (tf x)) x);; usertrapret) s = Done tt s' ∧
    user_ready (resumed epc x) (set_threads (<[p := resumed epc x]> (threads s)) s) s'.
Proof.
  intros Hw Hc Ex Hl. set (s1 := set_threads (<[p := resumed epc x]> (threads s)) s).
  rewrite (bind_Done _ _ _ tt s1) by (by apply put_thread_ok).
  apply (usertrapret_ok s1 (resumed epc x)); [done| |by change (current s1) with (current s); rewrite Hc].
  change (current s1) with (current s). rewrite Hc. apply lookup_insert_eq.
Qed.

(** The vector and the interrupt enable bit may have changed on the way. *)
Lemma ready_weaken x s l s' :
  (∀ r, r ∈ l.*1 → r = stvec ∨ r = sstatus) →
  (∀ i, 0 <= i → i ≠ 1 → Z.testbit (last_write sstatus l (csrs (m_hart s) sstatus)) i = Z.testbit (csrs (m_hart s) sstatus) i) →
  user_ready x (writes l s) s' → user_ready x s s'.
Proof.
  intros Hl Hst [U1 U2 U3 U4 U5 U6 U7 U8].
  assert (L : ∀ r, csrs (m_hart (writes l s)) r = last_write r l (csrs (m_hart s) r)) by (intros r; exact (csrs_writes l s r)).
  assert (L0 : ∀ r, r ≠ stvec → r ≠ sstatus → csrs (m_hart (writes l s)) r = csrs (m_hart s) r).
  { intros r H1' H2'. rewrite L. apply last_write_other. intros Hin. by destruct (Hl r Hin). }
  assert (Lm : mmu (m_hart (writes l s)) = mmu (m_hart s)).
  { etrans; [exact (mmu_of_writes l s)|]. assert (En : mmu_writes l = []); [|by rewrite En, app_nil_r].
    unfold mmu_writes. clear -Hl. induction l as [|[r v] l IH]; [done|]. simpl. destruct (Hl r) as [-> | ->]; [by left| |];
      apply IH; intros q Hq; apply Hl; by right. }
  split; try done.
  - intros i Hi. rewrite U4 by done. repeat case_decide; try done. rewrite L. apply Hst; [done|lia].
  - rewrite U6, L0, Lm by done. done.
  - intros r Hr. rewrite U7 by done. apply L0; intros ->; set_solver.
  - rewrite U8 at 1. by rewrite (writes_put l s).
Qed.

Lemma do_syscall_ok s p x : current s = p → threads s !! p = Some x →
  do_syscall s = match syscall o (tf x) with
    | Ret r => Done tt (set_threads (<[p := set_thread_tf (set_tf_a0 (u64 r) (tf x)) x]> (threads s)) s)
    | NoReturn => Blocked
    | Undefined => Fault
    end.
Proof.
  intros Hc Ex. unfold do_syscall. rewrite (bind_Done _ _ _ p s) by (unfold gets; by rewrite Hc).
  rewrite (bind_Done _ _ _ x s) by by apply thread_at_ok. destruct (syscall o (tf x)); [|done..].
  by rewrite (put_thread_ok _ _ x).
Qed.

(** What a system call leaves: the result in [a0] and the instruction behind the [ecall]. *)
Definition answered (epc r : Z) (x : thread) : thread := resumed epc (set_thread_tf (set_tf_a0 (u64 r) (tf x)) x).

Lemma usertrap_syscall_ok s p x : from_user s p x → csrs (m_hart s) scause = E_SYSCALL →
  match syscall o (tf x) with
  | Ret r =>
      let x' := answered (u64 (csrs (m_hart s) sepc + 4)) r x in
      ∃ s', usertrap s = Done tt s' ∧ user_ready x' (set_threads (<[p := x']> (threads s)) s) s'
  | NoReturn => usertrap s = Blocked
  | Undefined => usertrap s = Fault
  end.
Proof.
  intros Hu Ec. pose proof Hu as [Hw _ _ [Hcur Hp] Ex Hl]. rewrite (usertrap_run s p x Hu), Ec.
  change (interrupt E_SYSCALL) with false. cbv iota. unfold excep_handler. rewrite Z.eqb_refl. rewrite !bind_assoc.
  unfold intr_on, r_sstatus, w_sstatus. rewrite bind_assoc, csrr_bind.
  set (st := Z.lor (csrs (hart_of (writes [(stvec, kernelvec)] s)) sstatus) SSTATUS_SIE). rewrite csrw_writes. cbn [app].
  set (l := [(stvec, kernelvec); (sstatus, st)]). set (s1 := writes l s).
  assert (Es : do_syscall s1 = match syscall o (tf x) with
    | Ret r => Done tt (set_threads (<[p := set_thread_tf (set_tf_a0 (u64 r) (tf x)) x]> (threads s1)) s1) | NoReturn => Blocked | Undefined => Fault end).
  { apply do_syscall_ok; unfold s1; [by rewrite current_writes|by rewrite threads_writes]. }
  destruct (syscall o (tf x)) as [r| |]; [|unfold mbind, M_bind; by rewrite Es..].
  rewrite (bind_Done _ _ _ _ _ Es). set (x1 := set_thread_tf (set_tf_a0 (u64 r) (tf x)) x). set (epc := u64 (csrs (m_hart s) sepc + 4)).
  set (s2 := set_threads (<[p := x1]> (threads s1)) s1).
  rewrite (bind_Done _ _ _ epc s2) by done.
  destruct (finish_ok epc s2 p x1) as (s' & E & Hr).
  - unfold s2, s1. cbn [m_hart set_threads]. exact (writes_words l s Hw).
  - unfold s2, s1. cbn [current set_threads]. by rewrite current_writes.
  - apply lookup_insert_eq.
  - unfold s2, s1. cbn [m_locks set_threads]. by rewrite locks_writes.
  - exists s'. split; [exact E|]. unfold s2, s1 in Hr. cbn [threads set_threads] in Hr. rewrite insert_insert_eq, threads_writes in Hr.
    change (set_threads ?T (set_threads _ ?w)) with (set_threads T w) in Hr. rewrite set_threads_writes in Hr.
    eapply ready_weaken; [| |exact Hr].
    + simpl. set_solver.
    + intros i Hi Hne. change (last_write sstatus l _) with (u64 st). unfold st. rewrite csrs_writes.
      change (last_write sstatus [_] _) with (csrs (m_hart s) sstatus).
      rewrite u64_word by (apply set_bits_u64; [apply Hw|done]). unfold SSTATUS_SIE. rewrite set_bit by lia. by rewrite decide_False.
Qed.

(** ** Handlers that come back to the interrupted thread *)

Record running s (p : Z) (x : thread) : Prop := {
  rn_words : words (csrs (m_hart s));
  rn_cur : current s = p ∧ p ≠ 0;
  rn_thread : threads s !! p = Some x;
  rn_lock : mm_lock p ∉ m_locks s;
}.
(** A thread with the same user registers and memory. *)
Definition same_user (x x' : thread) : Prop := tf x' = tf x ∧ tf_addr x' = tf_addr x ∧ pgd x' = pgd x.

(** Whenever [m] returns, the calling thread runs and its user state is as before. *)
Definition resumes {A} (m : M machine A) : Prop := ∀ s p x a s',
  running s p x → m s = Done a s' → ∃ x', running s' p x' ∧ same_user x x'.

Lemma resumes_bind {A B} (m : M machine A) (k : A → M machine B) : resumes m → (∀ a, resumes (k a)) → resumes (m ≫= k).
Proof.
  intros Hm Hk s p x b s' Hr E. unfold mbind, M_bind in E. destruct (m s) as [a s1| | | |] eqn:Em; try done.
  destruct (Hm s p x a s1 Hr Em) as (x1 & Hr1 & S1 & S2 & S3). destruct (Hk a s1 p x1 b s' Hr1 E) as (x2 & Hr2 & S1' & S2' & S3').
  exists x2. split; [done|]. unfold same_user. by rewrite S1', S2', S3'.
Qed.
(** A step that leaves the thread alone. *)
Lemma resumes_step {A} (m : M machine A) :
  (∀ s a s', m s = Done a s' → threads s' = threads s ∧ current s' = current s ∧ m_locks s' = m_locks s ∧
    (words (csrs (m_hart s)) → words (csrs (m_hart s')))) → resumes m.
Proof.
  intros Hm s p x a s' [R1 R2 R3 R4] E. destruct (Hm s a s' E) as (Et & Ec & El & Hw). exists x.
  split; [|done]. split; [by apply Hw|by rewrite Ec|by rewrite Et|by rewrite El].
Qed.
Lemma resumes_ret {A} (a : A) : resumes (mret a).
Proof. apply resumes_step. by intros s b s' [= _ <-]. Qed.
Lemma resumes_if {A} (b : bool) (m m' : M machine A) : resumes m → resumes m' → resumes (if b then m else m').
Proof. by destruct b. Qed.
Lemma resumes_csrr r : resumes (csrr r : M machine Z).
Proof. apply resumes_step. by intros s a s' [= _ <-]. Qed.
Lemma resumes_csrw r x : resumes (csrw r x : M machine unit).
Proof. apply resumes_step. intros s a s' [= _ <-]. split_and!; try done. intros Hw. apply upd_words; [done|apply u64_is]. Qed.
Lemma resumes_cpuid : resumes (cpuid : M machine Z).
Proof. apply resumes_step. by intros s a s' [= _ <-]. Qed.
Lemma resumes_current : resumes (gets current).
Proof. apply resumes_step. by intros s a s' [= _ <-]. Qed.
Lemma resumes_thread_at p : resumes (thread_at p).
Proof. apply resumes_step. intros s a s'. unfold thread_at, deref. destruct (threads s !! p); [|done]. by intros [= _ <-]. Qed.
Lemma resumes_ticks p n : resumes (put_thread p (set_thread_ticks n)).
Proof.
  intros s q x a s' [R1 R2 R3 R4]. unfold put_thread, update. destruct (threads s !! p) as [y|] eqn:E; [|done]. simpl.
  intros [= _ <-]. destruct (decide (p = q)) as [->|Hne].
  - simplify_eq. exists (set_thread_ticks n x). split; [|done]. split; [done|done|apply lookup_insert_eq|done].
  - exists x. split; [|done]. split; [done|done|cbn [threads set_threads]; by rewrite lookup_insert_ne|done].
Qed.
(** Work inside a device. *)
Lemma resumes_zoom {T A} (rd : machine → T) (wr : T → machine → machine) (m : M T A) :
  (∀ t s, threads (wr t s) = threads s ∧ current (wr t s) = current s ∧ m_locks (wr t s) = m_locks s ∧ m_hart (wr t s) = m_hart s) →
  resumes (zoom rd wr m).
Proof.
  intros Hwr. apply resumes_step. intros s a s'. unfold zoom. destruct (m (rd s)) as [b t| | | |]; try done. intros [= _ <-].
  destruct (Hwr t s) as (-> & -> & -> & ->). done.
Qed.
Lemma resumes_plic_claim : resumes plic_claim.
Proof. apply resumes_step. intros s a s'. unfold plic_claim. by destruct (claims (m_plic s)) as [|q l]; intros [= _ <-]. Qed.
Lemma resumes_plic_complete irq : resumes (plic_complete irq).
Proof. apply resumes_bind; [apply resumes_cpuid|]. intros c. apply resumes_step. by intros s a s' [= _ <-]. Qed.

(** The scheduler comes back to the thread that called it. *)
Context (Hyield : resumes yield).

Ltac resume := repeat first
  [ apply resumes_if | apply resumes_ret | apply resumes_csrr | apply resumes_csrw | apply resumes_cpuid
  | apply resumes_current | apply resumes_thread_at | apply resumes_ticks | apply resumes_plic_claim | apply resumes_plic_complete
  | apply resumes_zoom; intros; split_and!; reflexivity | exact Hyield
  | apply resumes_bind; [|intros ?] ].

Lemma timer_intr_resumes : resumes timer_intr.
Proof. unfold timer_intr, r_time, w_stimecmp. resume. Qed.
Lemma external_intr_resumes : resumes external_intr.
Proof. unfold external_intr, print. resume. Qed.
Lemma intr_handler_resumes c : resumes (intr_handler c).
Proof. unfold intr_handler. apply resumes_if; [apply external_intr_resumes|]. apply resumes_if; [apply timer_intr_resumes|apply resumes_ret]. Qed.

(** ** Back to the user *)

(** [userret] is entered with interrupts off, and goes back to user mode with
    interrupts on, at [epc], with the registers and the page table of [x]. *)
Record back_in_user (epc : Z) (x : thread) s : Prop := {
  bu_sepc : csrs (m_hart s) sepc = epc;
  bu_stvec : csrs (m_hart s) stvec = u64 uservec;
  bu_sscratch : csrs (m_hart s) sscratch = u64 (tf_addr x);
  bu_satp : csrs (m_hart s) satp = u64 (MAKE_SATP (pgd x));
  bu_mode : Z.testbit (csrs (m_hart s) sstatus) 8 = false ∧ Z.testbit (csrs (m_hart s) sstatus) 5 = true ∧
    Z.testbit (csrs (m_hart s) sstatus) 1 = false;
}.
Lemma ready_back x s s' epc : user_ready x s s' → u64 (tf_epc (tf x)) = epc → back_in_user epc x s'.
Proof.
  intros [U1 U2 U3 U4 U5 _ _ _] He. split; [by rewrite U1|done..|]. by rewrite !U4 by lia.
Qed.

Lemma running_vector s p x l : running s p x → running (writes l s) p x.
Proof.
  intros [R1 R2 R3 R4]. split; [exact (writes_words l s R1)|by rewrite current_writes|by rewrite threads_writes|by rewrite locks_writes].
Qed.

(** A handler that leaves the thread alone is followed by the return to it. *)
Lemma usertrap_tail (m : M machine unit) epc s p x s1 : resumes m → running s p x → is_u64 epc → m s = Done tt s1 →
  ∃ x' s', ((m;; mret epc) ≫= λ epc, put_thread p (λ x, set_thread_tf (set_tf_epc epc (tf x)) x);; usertrapret) s = Done tt s' ∧
    same_user x x' ∧ threads s1 !! p = Some x' ∧
    s' = put_hart (m_hart s') (set_threads (<[p := resumed epc x']> (threads s1)) s1) ∧ current s' = p ∧ back_in_user epc x s'.
Proof.
  intros Hm Hr He E. destruct (Hm s p x tt s1 Hr E) as (x' & [R1 [R2 R2'] R3 R4] & Hs).
  destruct (finish_ok epc s1 p x' R1 R2 R3 R4) as (s' & E' & Hu). exists x', s'.
  split; [by rewrite (bind_Done _ _ _ epc s1) by (by rewrite (bind_Done _ _ _ tt s1))|]. split; [done|]. split; [done|].
  pose proof (ur_rest _ _ _ Hu) as Es. split; [done|]. split; [by rewrite Es|].
  destruct (ready_back _ _ _ epc Hu) as [B1 B2 B3 B4 B5]; [by apply u64_word|].
  destruct Hs as (S1 & S2 & S3). split; try done.
  - rewrite B3. simpl. by rewrite S2.
  - rewrite B4. simpl. by rewrite S3.
Qed.

Lemma from_user_running s p x l : from_user s p x → running (writes l s) p x.
Proof. intros [F1 _ _ F4 F5 F6]. by apply running_vector. Qed.
End trap.

Arguments machine : clear implicits.

Section theorems.
Context {C K : Type} `{ObjCacheLaws C} `{ObjCacheLaws K}.
Local Notation "'mach'" := (machine C K).
Context (yield : M mach unit) (o : sys_calls) (kernelvec uservec : Z).
Implicit Types s : mach.

(** C6: A system call from user mode: the handler the number in [a7] selects runs on
    the argument registers as the calling convention says ([abi]), its result
    is in [a0], the thread goes on behind the [ecall] in user mode with interrupts
    on and on its own page table (with the TLB flushed around a change of it), and
    no other register, thread or device changes.  A number outside the table is
    undefined behaviour, and so is [exit], which in this kernel returns. *)
Theorem usertrap_syscall s p x : from_user s p x → csrs (m_hart s) scause = E_SYSCALL →
  match default Undefined (abi o (i32 (tf_a7 (tf x))) (tf x)) with
  | Ret r =>
      let epc := u64 (csrs (m_hart s) sepc + 4) in
      let x' := answered epc r x in
      ∃ s', usertrap yield o kernelvec uservec s = Done tt s' ∧ back_in_user uservec epc x' s' ∧
        user_ready uservec x' (set_threads (<[p := x']> (threads s)) s) s'
  | NoReturn => usertrap yield o kernelvec uservec s = Blocked
  | Undefined => usertrap yield o kernelvec uservec s = Fault
  end ∧ ∀ t, syscall temp t = if decide (0 <= i32 (tf_a7 t) < 24 ∧ i32 (tf_a7 t) ≠ 2) then Ret (- ENOSYS) else Undefined.
Proof.
  intros Hu Hc. split; [|apply syscall_temp]. rewrite <-syscall_abi.
  pose proof (usertrap_syscall_ok yield o kernelvec uservec s p x Hu Hc) as Hs. destruct (syscall o (tf x)); [|done..].
  destruct Hs as (s' & E & Hr). exists s'. split; [exact E|]. split; [|exact Hr]. eapply ready_back; [exact Hr|]. apply u64_word, u64_is.
Qed.

(** An interrupt in user mode, for any [yield] that comes back to its caller (Switch
    has the kernel's). *)
Lemma usertrap_interrupt_ok s p x : resumes yield → from_user s p x → interrupt (csrs (m_hart s) scause) = true →
  let epc := csrs (m_hart s) sepc in
  let handler := intr_handler yield (csrs (m_hart s) scause) (writes [(stvec, kernelvec)] s) in
  (∀ s1, handler = Done tt s1 → ∃ x' s', usertrap yield o kernelvec uservec s = Done tt s' ∧
    same_user x x' ∧ threads s1 !! p = Some x' ∧
    s' = put_hart (m_hart s') (set_threads (<[p := resumed epc x']> (threads s1)) s1) ∧ current s' = p ∧
    back_in_user uservec epc x s') ∧
  ((∀ s1, handler ≠ Done tt s1) → ∀ s', usertrap yield o kernelvec uservec s ≠ Done tt s').
Proof.
  intros Hy Hu Hi epc handler. rewrite (usertrap_run _ _ _ _ _ _ _ Hu), Hi. split.
  - intros s1 E. eapply usertrap_tail; [|by eapply from_user_running|apply Hu|exact E]. by apply intr_handler_resumes.
  - intros Hn s' E. apply bind_inv in E as (e & s2 & E & _). apply bind_inv in E as ([] & s1 & E & _). by apply (Hn s1).
Qed.

(** A page fault in user mode goes back to the faulting instruction, with nothing
    changed that would keep it from faulting again. *)
Lemma usertrap_page_fault s p x : from_user s p x →
  csrs (m_hart s) scause = E_INS_PF ∨ csrs (m_hart s) scause = E_LOAD_PF ∨ csrs (m_hart s) scause = E_STORE_AMO_PF →
  ∃ s', usertrap yield o kernelvec uservec s = Done tt s' ∧ back_in_user uservec (csrs (m_hart s) sepc) x s' ∧
    user_ready uservec (resumed (csrs (m_hart s) sepc) x) (set_threads (<[p := resumed (csrs (m_hart s) sepc) x]> (threads s)) s) s'.
Proof.
  intros Hu Hc. rewrite (usertrap_run _ _ _ _ _ _ _ Hu). set (s1 := writes [(stvec, kernelvec)] s).
  destruct (from_user_running s p x [(stvec, kernelvec)] Hu) as [R1 [R2 _] R3 R4].
  destruct (finish_ok uservec (csrs (m_hart s) sepc) s1 p x R1 R2 R3 R4) as (s' & E & Hr). exists s'. split.
  - rewrite <-E. by destruct Hc as [-> |[-> | ->]].
  - unfold s1 in Hr. rewrite threads_writes, set_threads_writes in Hr.
    assert (Hr' : user_ready uservec (resumed (csrs (m_hart s) sepc) x) (set_threads (<[p := resumed (csrs (m_hart s) sepc) x]> (threads s)) s) s').
    { eapply ready_weaken; [| |exact Hr]; [simpl; set_solver|done]. }
    split; [|exact Hr']. destruct (ready_back _ _ _ _ (csrs (m_hart s) sepc) Hr') as [B1 B2 B3 B4 B5]; [|by split].
    apply u64_word, Hu.
Qed.


(** The timer interrupt, once the timers are served: without a thread only the
    next interrupt is set; a thread loses a tick of its time slice, and the last
    one makes it yield. *)
Lemma timer_intr_correct s tm : time_update (i32 (tp (m_hart s))) (m_timer s) = Done tt tm →
  let s1 := set_m_timer tm s in
  (current s = 0 → timer_intr yield s = Done tt (writes [(stimecmp, csrs (m_hart s) time + 8000)] s1)) ∧
  (∀ x, current s ≠ 0 → threads s !! current s = Some x →
    let n := u64 (ticks x - 1) in
    let s2 := writes [(stimecmp, csrs (m_hart s) time + 250000)] (set_threads (<[current s := set_thread_ticks n x]> (threads s)) s1) in
    timer_intr yield s = if n =? 0 then yield s2 else Done tt s2).
Proof.
  intros Et s1. unfold timer_intr.
  assert (E1 : (zoom m_timer set_m_timer (time_update (i32 (tp (m_hart s)))) : M mach unit) s = Done tt s1) by (unfold zoom; by rewrite Et).
  split.
  - intros Hc. rewrite (bind_Done _ _ _ (i32 (tp (m_hart s))) s) by done. rewrite (bind_Done _ _ _ _ _ E1).
    rewrite (bind_Done _ _ _ (current s) s1) by done. by rewrite Hc.
  - intros x Hc Ex. set (n := u64 (ticks x - 1)). rewrite (bind_Done _ _ _ (i32 (tp (m_hart s))) s) by done. rewrite (bind_Done _ _ _ _ _ E1).
    rewrite (bind_Done _ _ _ (current s) s1) by done. destruct (Z.eqb_spec (current s) 0); [done|].
    rewrite (bind_Done _ _ _ x s1) by by apply thread_at_ok. cbv zeta. fold n.
    erewrite bind_Done by (apply (put_thread_ok (current s) _ x); exact Ex).
    unfold r_time, w_stimecmp. rewrite csrr_bind, csrw_first. by destruct (n =? 0).
Qed.

Lemma zoom_inv {S T A} (rd : S → T) (wr : T → S → S) (m : M T A) (x : S) a x' :
  zoom rd wr m x = Done a x' → ∃ t, m (rd x) = Done a t ∧ x' = wr t x.
Proof. unfold zoom. destruct (m (rd x)) as [b t| | | |]; naive_solver. Qed.

(** An external interrupt is claimed, served by the handler of its number, and
    completed under the same number; with nothing pending neither happens. *)
Lemma external_intr_correct s q l : claims (m_plic s) = q :: l → i32 q = UART0_IRQ ∨ i32 q = VIRTIO0_IRQ →
  let s1 := set_plic (Plic l (plic_log (m_plic s))) s in
  ∀ s', external_intr s = Done tt s' → plic_log (m_plic s') = plic_log (m_plic s) ++ [(PLIC_SCLAIM (i32 (tp (m_hart s))), u32 (i32 q))] ∧
    claims (m_plic s') = l ∧
    (i32 q = UART0_IRQ → uartintr (m_con s) = Done tt (m_con s') ∧ m_disk s' = m_disk s) ∧
    (i32 q = VIRTIO0_IRQ → virtio_disk_intr (m_disk s) = Done tt (m_disk s') ∧ m_con s' = m_con s).
Proof.
  intros Hcl Hq s1 s' E. unfold external_intr in E. revert E. generalize virtio_disk_intr, uartintr. intros vi ui E.
  rewrite (bind_Done _ _ _ (i32 q) s1) in E by (unfold plic_claim; by rewrite Hcl).
  apply bind_inv in E as ([] & s2 & E2 & E). destruct Hq as [Eq|Eq]; rewrite Eq in *.
  - change (UART0_IRQ =? UART0_IRQ) with true in E2. cbv iota in E2. apply zoom_inv in E2 as (t & E2 & ->).
    change (UART0_IRQ =? 0) with false in E. cbv iota in E. injection E as <-.
    split; [done|]. split; [done|]. split; [intros _; split; [exact E2|done]|done].
  - change (VIRTIO0_IRQ =? UART0_IRQ) with false in E2. change (VIRTIO0_IRQ =? VIRTIO0_IRQ) with true in E2. cbv iota in E2.
    apply zoom_inv in E2 as (t & E2 & ->).
    change (VIRTIO0_IRQ =? 0) with false in E. cbv iota in E. injection E as <-.
    split; [done|]. split; [done|]. split; [done|]. intros _. split; [exact E2|done].
Qed.
End theorems.

(** * Concrete traps *)

(** A thread that calls [read] with a number that is cut to an [int], and has 3 ticks left. *)
Definition demo_tf : trapframe := TF 0 4096 0 0 0 0 0 0 0 0 0 7 8 9 0 0 0 0 (2 ^ 32 + 5) 0 0 0 0 0 0 0 0 0 0 0 0 0 0.
Definition demo_thread : thread := Thread demo_tf 8192 3 (KERNBASE + 4096).
Definition demo_hart (cause status : Z) : hart :=
  Hart (λ r, match r with scause => cause | sepc => 4096 | sstatus => status | _ => 0 end) 0 [].
Definition demo_machine (cause status : Z) : machine stock stock :=
  Machine (demo_hart cause status) (Plic [] []) demo_con
    (Disk [] [] [] [] 0 [] [] 0 0 Mutex.mutex_init_zero Mutex.mutex_init 0 0 []) demo_timers {[5 := demo_thread]} 5 ∅.

Definition is_done {S A} (r : outcome S A) : bool := match r with Done _ _ => true | _ => false end.
Lemma is_done_ok {S} (r : outcome S unit) : is_done r = true → ∃ s, r = Done tt s.
Proof. destruct r as [[] s| | | |]; try done. by exists s. Qed.

Lemma demo_words cause status : is_u64 cause → is_u64 status → words (csrs (m_hart (demo_machine cause status))).
Proof. intros Hc Hs r. destruct r; done. Qed.
Lemma demo_from_user cause : is_u64 cause → from_user (demo_machine cause 0) 5 demo_thread.
Proof. intros Hc. split; try done. by apply demo_words. Qed.

Lemma usertrap_syscall_witness :
  ∃ s', usertrap (mret tt) temp 64 128 (demo_machine E_SYSCALL 0) = Done tt s' ∧ csrs (m_hart s') sepc = 4100 ∧
    (tf_a0 ∘ tf <$> threads s' !! 5) = Some (2 ^ 64 - 38).
Proof.
  destruct (usertrap_syscall (mret tt) temp 64 128 (demo_machine E_SYSCALL 0) 5 demo_thread) as [H _].
  - by apply demo_from_user.
  - done.
  - change (default Undefined (abi temp (i32 (tf_a7 (tf demo_thread))) (tf demo_thread))) with (Ret (- ENOSYS)) in H. cbv zeta iota in H.
    destruct H as (s' & E & Hb & Hr). exists s'. split; [exact E|]. split; [by rewrite (bu_sepc _ _ _ _ Hb)|].
    rewrite (ur_rest _ _ _ _ Hr). done.
Defined.

