(* ===== verification/Switch.v ===== *)
(** [yield] and [sched] of kernel/sched.c on the machine of Trap, and what the
    thread that called them finds when it comes back.

    While a thread is away, other threads and other harts run: a list of [act]s,
    each a piece of the kernel's code between two points at which the CPU can pass
    to somebody else.  No act is one of the thread that is away: it runs nowhere
    (Sched, [sched_exclusive]), and when the scheduler picks it the list ends.
    Which thread the scheduler picks, and the run lists, are the subject of Sched. *)
From S2P Require Import Prelude ListLib Containers Buddy PageAlloc Vm Semaphore ObjCache Sched Work Timer Virtio StringLib Console Riscv Syscall Trap.

Section switch.
Context {C K : Type} `{ObjCacheLaws C} `{ObjCacheLaws K}.
Local Notation "'mach'" := (machine C K).
Context (o : sys_calls) (kernelvec uservec : Z).
Implicit Types s : mach.

(** * sched.c *)

(** [sched] up to its [swtch], and the scheduler behind it: [spin_unlock(&next->lock)]
    and [cpu->thread = NULL]. *)
Definition sched_out : M mach unit :=
  p ← gets current;
  held ← gets (λ s, bool_decide (thread_lock p ∈ m_locks s));
  assert_ held;;
  on ← intr_get;
  assert_ (negb on);;
  spin_unlock (thread_lock p);;
  modify (set_current 0).
(** [scheduler], once it has picked [q]: [spin_lock(&next->lock)], [cpu->thread = next]
    and the [swtch]. *)
Definition dispatch (q : Z) : M mach unit :=
  c ← gets current;
  assert_ (c =? 0);;
  thread_at q;;
  spin_lock (thread_lock q);;
  modify (set_current q).
(** The rest of [sched].  The [pop_off] of its [spin_unlock] goes by the [intena] of
    the scheduler that ran last on this hart ([on]): the one saved before the
    [swtch] is put back only afterwards. *)
Definition sched_in (on : bool) : M mach unit :=
  p ← gets current;
  spin_unlock (thread_lock p);;
  if on then intr_on else mret tt.
(** [yield] up to the [swtch]; [state] and the run list are in Sched. *)
Definition yield_out : M mach unit :=
  p ← gets current;
  spin_lock (thread_lock p);;
  put_thread p (set_thread_ticks 10);;
  sched_out.

(** * Traps in pieces *)

(** What the hardware does on a trap from user mode ([kernel] false) or from the kernel. *)
Definition trap_entry (kernel : bool) (cause pc : Z) : M mach unit :=
  csrw scause cause;;
  csrw sepc pc;;
  st ← csrr sstatus;
  csrw sstatus (Z.lor (Z.land (Z.land st (not64 SSTATUS_SIE)) (not64 SSTATUS_SPP)) (if kernel then SSTATUS_SPP else 0)).
(** An interrupt of the kernel. *)
Definition kernel_interrupt (y : M mach unit) (cause pc : Z) : M mach unit :=
  if interrupt (u64 cause) then trap_entry true cause pc;; kerneltrap y o else fault.

(** [usertrap] up to the end of the handler, and from there on. *)
Definition trap_head (y : M mach unit) : M mach (Z * Z) :=
  cause ← r_scause;
  epc ← r_sepc;
  st ← r_sstatus;
  assert_ (Z.land st SSTATUS_SPP =? 0);;
  on ← intr_get;
  assert_ (negb on);;
  w_stvec kernelvec;;
  p ← gets current;
  assert_ (negb (p =? 0));;
  epc ← (if interrupt cause then intr_handler y cause;; mret epc
         else excep_handler o cause;; mret (if cause =? E_SYSCALL then u64 (epc + 4) else epc));
  mret (p, epc).
Definition trap_tail (p epc : Z) : M mach unit :=
  put_thread p (λ x, set_thread_tf (set_tf_epc epc (tf x)) x);;
  usertrapret uservec.

Lemma usertrap_split y s : usertrap y o kernelvec uservec s = (x ← trap_head y; trap_tail x.1 x.2) s.
Proof.
  unfold usertrap, trap_head. rewrite !bind_assoc. unfold mbind, M_bind.
  repeat (case_match; simplify_eq; try done).
Qed.

(** * What runs while a thread is away *)
Inductive act :=
  | Elsewhere (h : hart) (c : Z) (switching : bool)   (** another hart, at a switch, with its thread [c] *)
  | Dispatch (q : Z)                       (** the scheduler of the hart picks [q] *)
  | SchedIn (on : bool)                    (** the thread comes back from its [sched] *)
  | Forkret                                (** or runs for the first time *)
  | YieldOut                               (** it calls [yield] *)
  | SleepOut                               (** it goes to sleep: the lock, then [sched] *)
  | UserTrap (t : trapframe) (cause pc : Z)   (** it traps in user mode with the registers [t] *)
  | UserReturn (epc : Z)                   (** and goes back to user mode *)
  | KernelEnter (cause pc : Z)             (** an interrupt in the kernel, up to the end of the handler *)
  | KernelLeave (epc st : Z)               (** and its end *)
  | Create (q : Z) (x : thread)            (** it makes a new thread *)
  | Wakeup (q : Z)                         (** [wakeup_process] *)
  | Drivers (pl : plic) (con : console) (d : disk) (tm : timer_state C K).   (** its calls of the drivers *)

Definition word_hart (h : hart) : hart := Hart (λ r, u64 (csrs h r)) (tp h) (mmu h).

(** A step while the thread [p] is away.  The pieces of the code that call [yield]
    have the call as an act of its own, so their [yield] is empty here. *)
Definition act_step (p : Z) (a : act) : M mach unit :=
  match a with
  | Elsewhere h c switching =>
      if c =? p then fault else
      modify (λ s, put_hart (word_hart h) (set_current c (set_m_locks (if switching then {[thread_lock c]} else ∅) s)))
  | Dispatch q => if q =? p then fault else dispatch q
  | SchedIn on => sched_in on
  | Forkret => forkret uservec
  | YieldOut => yield_out
  | SleepOut => q ← gets current; intr_off;; spin_lock (thread_lock q);; sched_out
  | UserTrap t cause pc =>
      q ← gets current;
      put_thread q (set_thread_tf t);;    (* uservec *)
      trap_entry false cause pc;;
      trap_head (mret tt);; mret tt
  | UserReturn epc => q ← gets current; trap_tail q epc
  | KernelEnter cause pc =>
      if interrupt (u64 cause) then trap_entry true cause pc;; intr_handler (mret tt) (u64 cause) else fault
  | KernelLeave epc st => w_sepc epc;; w_sstatus st
  | Create q x => update (λ s, match threads s !! q with Some _ => None | None => Some (set_threads (<[q := x]> (threads s)) s) end)
  | Wakeup q => thread_at q;; spin_lock (thread_lock q);; spin_unlock (thread_lock q)
  | Drivers pl con d tm => modify (λ s, set_plic pl (set_con con (set_m_disk d (set_m_timer tm s))))
  end.
Fixpoint others (p : Z) (l : list act) : M mach unit :=
  match l with [] => mret tt | a :: l => act_step p a;; others p l end.

(** * [yield]

    A break: what runs while the thread is away, whether it comes back with
    interrupts on, and the interrupts that come then, each with its cause, the
    interrupted instruction and the break of its own [yield]. *)
Inductive break := Break (away : list act) (on : bool) (after : irqs)
with irqs := NoIrq | Irq (cause pc : Z) (b : break) (more : irqs).
Scheme break_mut := Induction for break Sort Prop with irqs_mut := Induction for irqs Sort Prop.

Fixpoint yield (b : break) : M mach unit :=
  match b with
  | Break away on after =>
      p ← gets current;
      yield_out;;
      others p away;;
      dispatch p;;
      sched_in on;;
      interrupts on after
  end
with interrupts (on : bool) (l : irqs) : M mach unit :=
  match l with
  | NoIrq => mret tt
  | Irq cause pc b more => (if on then kernel_interrupt (yield b) cause pc else fault);; interrupts on more
  end.

(** * Facts *)

(** [m] keeps [I]. *)
Definition keeps (I : mach → Prop) {A} (m : M mach A) : Prop := ∀ s a s', I s → m s = Done a s' → I s'.

Lemma keeps_bind I {A B} (m : M mach A) (k : A → M mach B) : keeps I m → (∀ a, keeps I (k a)) → keeps I (m ≫= k).
Proof. intros Hm Hk s b s' Hi E. apply bind_inv in E as (a & s1 & E1 & E2). eapply Hk; [|exact E2]. by eapply Hm. Qed.
Lemma keeps_ret I {A} (a : A) : keeps I (mret a).
Proof. by intros s b s' Hi [= _ <-]. Qed.
Lemma keeps_fault I {A} : keeps I (fault : M mach A).
Proof. by intros s b s' Hi. Qed.
Lemma keeps_panic I {A} : keeps I (panic : M mach A).
Proof. by intros s b s' Hi. Qed.
Lemma keeps_if I {A} (b : bool) (m m' : M mach A) : keeps I m → keeps I m' → keeps I (if b then m else m').
Proof. by destruct b. Qed.

(** The thread [p] is away, with the state [x]. *)
Record away (p : Z) (x : thread) s : Prop := {
  aw_words : words (csrs (m_hart s));
  aw_cur : current s ≠ p;
  aw_thread : threads s !! p = Some x;
  aw_lock : mm_lock p ∉ m_locks s;
}.

Section keeps_away.
Context (p : Z) (x : thread).
Local Abbreviation kept := (keeps (away p x)).

Lemma kept_step {A} (m : M mach A) :
  (∀ s a s', m s = Done a s' → threads s' = threads s ∧ current s' = current s ∧ m_locks s' = m_locks s ∧
    (words (csrs (m_hart s)) → words (csrs (m_hart s')))) → kept m.
Proof.
  intros Hm s a s' [A1 A2 A3 A4] E. destruct (Hm s a s' E) as (Et & Ec & El & Hw).
  split; [by apply Hw|by rewrite Ec|by rewrite Et|by rewrite El].
Qed.
Lemma kept_csrr r : kept (csrr r : M mach Z).
Proof. apply kept_step. by intros s a s' [= _ <-]. Qed.
Lemma kept_csrw r v : kept (csrw r v : M mach unit).
Proof. apply kept_step. intros s a s' [= _ <-]. split_and!; try done. intros Hw. apply upd_words; [done|apply u64_is]. Qed.
Lemma kept_sfence : kept (sfence_vma : M mach unit).
Proof. apply kept_step. by intros s a s' [= _ <-]. Qed.
Lemma kept_gets {A} (f : mach → A) : kept (gets f).
Proof. apply kept_step. by intros s a s' [= _ <-]. Qed.
Lemma kept_zoom {T A} (rd : mach → T) (wr : T → mach → mach) (m : M T A) :
  (∀ t s, threads (wr t s) = threads s ∧ current (wr t s) = current s ∧ m_locks (wr t s) = m_locks s ∧ m_hart (wr t s) = m_hart s) →
  kept (zoom rd wr m).
Proof.
  intros Hwr. apply kept_step. intros s a s'. unfold zoom. destruct (m (rd s)) as [b t| | | |]; try done. intros [= _ <-].
  destruct (Hwr t s) as (-> & -> & -> & ->). done.
Qed.
Lemma kept_claim : kept plic_claim.
Proof. apply kept_step. intros s a s'. unfold plic_claim. by destruct (claims (m_plic s)) as [|q l]; intros [= _ <-]. Qed.
Lemma kept_plic_write a v : kept (plic_write a v).
Proof. apply kept_step. by intros s b s' [= _ <-]. Qed.
(** Another thread runs. *)
Lemma kept_current {A} (k : Z → M mach A) : (∀ q, q ≠ p → kept (k q)) → kept (gets current ≫= k).
Proof. intros Hk s a s' Hi E. eapply Hk; [apply Hi|exact Hi|exact E]. Qed.
Lemma kept_set_current q : q ≠ p → kept (modify (set_current q)).
Proof. intros Hq s a s' [A1 A2 A3 A4] [= _ <-]. by split. Qed.
Lemma kept_thread_at q : kept (thread_at q).
Proof. apply kept_step. intros s a s'. unfold thread_at, deref. destruct (threads s !! q); [|done]. by intros [= _ <-]. Qed.
Lemma kept_put_thread q f : q ≠ p → kept (put_thread q f).
Proof.
  intros Hq s a s' [A1 A2 A3 A4]. unfold put_thread, update. destruct (threads s !! q) as [y|] eqn:E; [|done]. simpl.
  intros [= _ <-]. split; [done|done|cbn [threads set_threads]; by rewrite lookup_insert_ne|done].
Qed.
Lemma kept_lock l : l ≠ mm_lock p → kept (spin_lock l).
Proof.
  intros Hl s a s' [A1 A2 A3 A4]. unfold spin_lock. case_decide; [done|]. intros [= _ <-]. split; try done. cbn. set_solver.
Qed.
Lemma kept_unlock l : kept (spin_unlock l).
Proof.
  intros s a s' [A1 A2 A3 A4]. unfold spin_unlock. case_decide; [|done]. intros [= _ <-]. split; try done. cbn. set_solver.
Qed.
Lemma kept_syscall : kept (do_syscall o).
Proof.
  unfold do_syscall. apply kept_current. intros q Hq. apply keeps_bind; [apply kept_thread_at|]. intros y.
  destruct (syscall o (tf y)); [by apply kept_put_thread|by intros s a s' _|by intros s a s' _].
Qed.
End keeps_away.

Ltac keep := unfold assert_; repeat first
  [ apply keeps_if | apply keeps_ret | apply keeps_fault | apply keeps_panic | apply kept_csrr | apply kept_csrw | apply kept_sfence
  | apply kept_claim | apply kept_plic_write | apply kept_syscall | apply kept_thread_at | apply kept_unlock
  | apply kept_zoom; intros; split_and!; reflexivity
  | apply kept_current; intros ? ? | apply kept_set_current; assumption || lia | apply kept_put_thread; assumption
  | apply kept_lock; intros [=]; done
  | apply kept_gets | apply keeps_bind; [|intros ?] ].

Section acts.
Context (p : Z) (x : thread) (Hp : p ≠ 0).
Local Abbreviation kept := (keeps (away p x)).

Lemma kept_handler c : kept (intr_handler (mret tt) c).
Proof.
  unfold intr_handler, external_intr, timer_intr, plic_complete, cpuid, r_tp, print, r_time, w_stimecmp. keep.
Qed.
Lemma kept_exception c : kept (excep_handler o c).
Proof. unfold excep_handler, intr_on, r_sstatus, w_sstatus, print. keep. Qed.
Lemma kept_entry k c pc : kept (trap_entry k c pc).
Proof. unfold trap_entry. keep. Qed.
Lemma kept_usertrapret : kept (usertrapret uservec).
Proof.
  unfold usertrapret, intr_off, r_sstatus, w_sstatus, w_sepc, w_stvec, w_sscratch, swtch_pgd, r_satp, w_satp. keep.
Qed.
Lemma kept_tail q epc : q ≠ p → kept (trap_tail q epc).
Proof. intros Hq. unfold trap_tail. apply keeps_bind; [by apply kept_put_thread|]. intros _. apply kept_usertrapret. Qed.
Lemma kept_head : kept (trap_head (mret tt)).
Proof.
  unfold trap_head, r_scause, r_sepc, intr_get, r_sstatus, w_stvec.
  repeat first [apply kept_handler | apply kept_exception | progress keep].
Qed.
Lemma kept_sched_out : kept sched_out.
Proof. unfold sched_out, intr_get, r_sstatus. keep. Qed.

Lemma kept_act a : kept (act_step p a).
Proof.
  destruct a as [h c sw|q|on| | | |t cause pc|epc|cause pc|epc st|q y|q|pl con d tm]; simpl.
  - destruct (Z.eqb_spec c p); [apply keeps_fault|]. intros s a s' [A1 A2 A3 A4] [= _ <-]. split; try done.
    + intros r. apply u64_is.
    + cbn. destruct sw; set_solver.
  - destruct (Z.eqb_spec q p); [apply keeps_fault|]. unfold dispatch. keep.
  - unfold sched_in, intr_on, r_sstatus, w_sstatus. keep.
  - unfold forkret. keep; apply kept_usertrapret.
  - unfold yield_out. keep; apply kept_sched_out.
  - unfold intr_off, r_sstatus, w_sstatus. keep; apply kept_sched_out.
  - repeat first [apply kept_entry | apply kept_head | progress keep].
  - keep; by apply kept_tail.
  - repeat first [apply kept_entry | apply kept_handler | progress keep].
  - unfold w_sepc, w_sstatus. keep.
  - intros s a s' [A1 A2 A3 A4]. unfold update. destruct (threads s !! q) eqn:E; [done|]. intros [= _ <-].
    split; try done. cbn. rewrite lookup_insert_ne; [done|]. intros ->. congruence.
  - keep.
  - intros s a s' [A1 A2 A3 A4] [= _ <-]. by split.
Qed.
Lemma kept_others l : kept (others p l).
Proof. induction l as [|a l IH]; simpl; [apply keeps_ret|]. apply keeps_bind; [apply kept_act|done]. Qed.
End acts.

(** * [yield] comes back *)

Lemma yield_out_away s p x s' : running s p x → yield_out s = Done tt s' → away p (set_thread_ticks 10 x) s'.
Proof.
  intros [R1 [R2 Hp] R3 R4] E. unfold yield_out in E. rewrite (bind_Done _ _ _ p s) in E by (unfold gets; by rewrite R2).
  apply bind_inv in E as ([] & s1 & E1 & E). unfold spin_lock in E1. case_decide; [done|]. injection E1 as <-.
  erewrite bind_Done in E by (apply (put_thread_ok p _ x); exact R3). set (s2 := set_threads _ _) in E.
  assert (Hc2 : current s2 = p) by done.
  unfold sched_out in E. rewrite (bind_Done _ _ _ p s2) in E by (unfold gets; by rewrite Hc2).
  apply bind_inv in E as (held & s3 & E3 & E). injection E3 as _ <-.
  apply bind_inv in E as ([] & s3 & E3 & E). destruct held; [|done]. injection E3 as <-.
  apply bind_inv in E as (on & s3 & E3 & E). injection E3 as _ <-.
  apply bind_inv in E as ([] & s3 & E3 & E). destruct (negb on); [|done]. injection E3 as <-.
  apply bind_inv in E as ([] & s3 & E3 & E). unfold spin_unlock in E3. case_decide; [|done]. injection E3 as <-.
  injection E as <-. split; [done|by apply not_eq_sym|apply lookup_insert_eq|].
  cbn. set_solver.
Qed.

Lemma dispatch_running s p x s' : p ≠ 0 → away p x s → dispatch p s = Done tt s' → running s' p x.
Proof.
  intros Hp [A1 A2 A3 A4] E. unfold dispatch in E. apply bind_inv in E as (c & s1 & E1 & E). injection E1 as <- <-.
  apply bind_inv in E as ([] & s1 & E1 & E). destruct (_ =? 0); [|done]. injection E1 as <-.
  rewrite (bind_Done _ _ _ x s) in E by by apply thread_at_ok.
  apply bind_inv in E as ([] & s1 & E1 & E). unfold spin_lock in E1. case_decide; [done|]. injection E1 as <-.
  injection E as <-. split; [done|done|done|]. cbn. apply not_elem_of_union. split; [|done]. by intros [=]%elem_of_singleton.
Qed.

Lemma resumes_sched_in on : resumes (sched_in on).
Proof.
  unfold sched_in. apply resumes_bind; [apply resumes_current|]. intros p. apply resumes_bind.
  - intros s q x a s' [R1 R2 R3 R4]. unfold spin_unlock. case_decide; [|done]. intros [= _ <-].
    exists x. split; [|done]. split; [done|done|done|]. cbn. set_solver.
  - intros _. apply resumes_if; [|apply resumes_ret]. unfold intr_on, r_sstatus, w_sstatus.
    apply resumes_bind; [apply resumes_csrr|]. intros st. apply resumes_csrw.
Qed.

(** [kerneltrap] with an interrupt. *)
Lemma kernel_interrupt_run y cause pc s : interrupt (u64 cause) = true →
  let l := [(scause, cause); (sepc, pc);
    (sstatus, Z.lor (Z.land (Z.land (csrs (m_hart s) sstatus) (not64 SSTATUS_SIE)) (not64 SSTATUS_SPP)) SSTATUS_SPP)] in
  kernel_interrupt y cause pc s = kerneltrap y o (writes l s).
Proof.
  intros Hc l. unfold kernel_interrupt. rewrite Hc. unfold trap_entry. rewrite !bind_assoc. rewrite csrw_first, bind_assoc, csrw_writes.
  rewrite bind_assoc, csrr_bind, csrw_writes, csrs_writes. done.
Qed.

Lemma kernel_interrupt_resumes y cause pc : resumes y → resumes (kernel_interrupt y cause pc).
Proof.
  intros Hy s p x a s' Hr E. destruct (interrupt (u64 cause)) eqn:Hi.
  2:{ unfold kernel_interrupt in E. by rewrite Hi in E. }
  rewrite kernel_interrupt_run in E by done. cbv zeta in E. set (l := [_; _; _]) in E. set (s1 := writes l s) in *.
  assert (Hr1 : running s1 p x) by by apply running_vector.
  assert (Hcause : csrs (m_hart s1) scause = u64 cause) by (exact (csrs_writes l s scause)).
  unfold kerneltrap, r_sepc, r_sstatus, r_scause in E. rewrite !csrr_bind in E. cbn [hart_of machine_HasHart] in E.
  rewrite Hcause, Hi in E. revert E. generalize (csrs (m_hart s1) sepc), (csrs (m_hart s1) sstatus). intros e st E.
  refine ((_ : resumes _) s1 p x a s' Hr1 E). unfold assert_, intr_get, r_sstatus, w_sepc, w_sstatus.
  repeat first [by apply intr_handler_resumes | apply resumes_csrw | apply resumes_csrr | apply resumes_ret | apply resumes_if
    | apply resumes_bind; [|intros ?] | by intros ? ? ? ? ? _].
Qed.

Lemma yield_resumes b : resumes (yield b).
Proof.
  induction b as [os on after IH| |cause pc b IHb more IHm] using break_mut with (P0 := λ l, ∀ on, resumes (interrupts on l)).
  - intros s p x a s' Hr E. pose proof Hr as [_ [R2 Hp] _ _]. simpl in E.
    rewrite (bind_Done _ _ _ p s) in E by (unfold gets; by rewrite R2).
    apply bind_inv in E as ([] & s1 & E1 & E). pose proof (yield_out_away _ _ _ _ Hr E1) as Ha.
    apply bind_inv in E as ([] & s2 & E2 & E). pose proof (kept_others p _ Hp os _ _ _ Ha E2) as Ha2.
    apply bind_inv in E as ([] & s3 & E3 & E). pose proof (dispatch_running _ _ _ _ Hp Ha2 E3) as Hr3.
    destruct (resumes_bind _ _ (resumes_sched_in on) (λ _, IH on) s3 p _ a s' Hr3 E) as (x' & Hr' & Hs).
    exists x'. by split.
  - intros on. apply resumes_ret.
  - intros on. simpl. apply resumes_bind; [|intros _; apply IHm].
    apply resumes_if; [by apply kernel_interrupt_resumes|]. by intros s p x a s' _.
Qed.

(** ** Interrupts at the end of [kerneltrap]

    After a [sched_in true], [kerneltrap] goes on with interrupts on.  One that comes
    when [sepc] is written and [sstatus] is not leaves its own return address in
    [sepc], so that the [sret] of the outer trap goes there and not to [epc]. *)
Theorem interrupt_after_sepc_lost y epc cause pc st s s' : interrupt (u64 cause) = true →
  (w_sepc epc;; kernel_interrupt y cause pc;; w_sstatus st) s = Done tt s' → csrs (m_hart s') sepc = u64 pc.
Proof.
  intros Hi E. unfold w_sepc at 1 in E. rewrite csrw_first in E. set (s0 := writes _ s) in E.
  apply bind_inv in E as ([] & s1 & E1 & E). injection E as <-. simpl. rewrite upd_ne by done.
  rewrite kernel_interrupt_run in E1 by done. cbv zeta in E1. set (l := [_; _; _]) in E1.
  assert (Hpc : csrs (m_hart (writes l s0)) sepc = u64 pc) by (exact (csrs_writes l s0 sepc)).
  unfold kerneltrap, r_sepc, r_sstatus, r_scause in E1. rewrite !csrr_bind in E1. cbn [hart_of machine_HasHart] in E1.
  rewrite Hpc in E1. do 4 apply bind_inv in E1 as (? & ? & _ & E1). unfold w_sepc, w_sstatus in E1. rewrite csrw_first in E1.
  injection E1 as <-. simpl. rewrite upd_ne by done. rewrite upd_eq. apply Z.mod_mod. lia.
Qed.

(** C7: An interrupt in user mode is invisible to the thread: whichever device it was,
    and whatever ran in between if the thread's time was up, other threads on this
    hart and on others, their traps, system calls and drivers, the interrupts that
    come when the thread is back in the kernel with interrupts on, when the handler
    returns so does the trap, and the same thread is in user mode at the interrupted
    instruction with its registers and page table as they were; behind the handler
    only [epc] and the hart change. *)
Theorem usertrap_interrupt b s p x : from_user s p x → interrupt (csrs (m_hart s) scause) = true →
  let epc := csrs (m_hart s) sepc in
  let handler := intr_handler (yield b) (csrs (m_hart s) scause) (writes [(stvec, kernelvec)] s) in
  (∀ s1, handler = Done tt s1 → ∃ x' s', usertrap (yield b) o kernelvec uservec s = Done tt s' ∧
    same_user x x' ∧ threads s1 !! p = Some x' ∧
    s' = put_hart (m_hart s') (set_threads (<[p := resumed epc x']> (threads s1)) s1) ∧ current s' = p ∧
    back_in_user uservec epc x s') ∧
  ((∀ s1, handler ≠ Done tt s1) → ∀ s', usertrap (yield b) o kernelvec uservec s ≠ Done tt s').
Proof. intros Hu Hi. apply usertrap_interrupt_ok; [apply yield_resumes|done..]. Qed.
End switch.

(** * A concrete switch

    The time of thread 5 is up.  While it is away thread 6 comes back from its own
    [yield], goes to user mode, is interrupted by the timer at the end of its time
    and yields; then the scheduler of hart 1 picks thread 5, which is interrupted
    once more on its way out of the kernel. *)
Definition demo_threads : gmap Z thread :=
  {[5 := Thread demo_tf 8192 1 (KERNBASE + 4096); 6 := Thread (set_tf_a0 77 demo_tf) 12288 1 (KERNBASE + 8192)]}.
Definition demo_two : machine stock stock := set_threads demo_threads (demo_machine TIMER_SCAUSE 0).
Definition hart1 : hart := Hart (λ _, 0) 1 [].
Definition demo_break : break (C := stock) (K := stock) :=
  Break [Dispatch 6; SchedIn false; UserReturn 16384; UserTrap (set_tf_a0 78 demo_tf) TIMER_SCAUSE 16400; YieldOut;
    Elsewhere hart1 0 false] true (Irq TIMER_SCAUSE 640 (Break [] false NoIrq) NoIrq).

Lemma demo_two_from_user : from_user demo_two 5 (Thread demo_tf 8192 1 (KERNBASE + 4096)).
Proof. split; try done. by apply demo_words. Qed.

(** What to look at in the end. *)
Definition outcome_of (r : outcome (machine stock stock) unit) : option (Z * option Z * option Z * option Z) :=
  match r with
  | Done _ s => Some (tp (m_hart s), ticks <$> threads s !! 5, tf_a7 ∘ tf <$> threads s !! 5, tf_a0 ∘ tf <$> threads s !! 6)
  | _ => None
  end.

Lemma usertrap_interrupt_witness :
  ∃ s', usertrap (yield temp 64 128 demo_break) temp 64 128 demo_two = Done tt s' ∧ csrs (m_hart s') sepc = 4096 ∧
    outcome_of (Done tt s') = Some (1, Some 9, Some (2 ^ 32 + 5), Some 78).
Proof.
  destruct (usertrap_interrupt temp 64 128 demo_break demo_two 5 _ demo_two_from_user) as [Hd _]; [done|]. cbv zeta in Hd.
  destruct (is_done_ok (intr_handler (yield temp 64 128 demo_break) TIMER_SCAUSE (writes [(stvec, 64)] demo_two))) as [s1 E]; [by vm_compute|].
  destruct (Hd s1 E) as (x' & s' & E' & _ & _ & _ & _ & Hb). exists s'. split; [exact E'|]. split; [exact (bu_sepc _ _ _ _ Hb)|].
  rewrite <-E'. by vm_compute.
Defined.
